(* ===== verification/_CoqProject ===== *)
-Q . S2P
Prelude.v
Float64.v
Strconv.v
CapsuleTypes.v
CapsuleSpec.v
Lifecycle.v
CapsuleStore.v
CapsuleManager.v
Gravity.v
Elector.v
Delay.v
ElectionManager.v
ElectionTopic.v
Momentum.v
Placement.v
Scaling.v
Orbit.v
Handler.v
Internals.v
Shared.v
Phonebook.v
HealthScore.v
HealthMonitor.v
SnapshotStore.v
Discovery.v
FilePath.v
Transfer.v
Runtime.v
RuntimeHandler.v
Podman.v
RuntimeNode.v
Syncer.v
MetricsStore.v
Metrics.v
Auth.v
AuthGossip.v
Handshake.v
AuthDemo.v
Config.v
Node.v
NodeOrder.v
NodeJoin.v
Daemon.v
Api.v
Keys.v
