(* ===== verification/Prelude.v ===== *)
(** * Falak: a verification library for capsules, elections, nodes and containers

    Falak is a decentralised container orchestrator: nodes form clusters over
    a peer-to-peer network, a workload is a _capsule_, and the nodes elect
    among themselves where each replica of a capsule runs.  This library
    models the packages that carry that logic, [src/capsule], [src/election],
    [src/runtime], [src/snapshot], [src/node] that connects them and watches
    over the members, [src/config], [src/api] and the daemon, function by
    function, and proves what makes them correct.
    Where the code does not do what it says, the library has a theorem that
    shows the deviation.

    ** The program and its model

    A user's specification is defaulted and validated ([capsule/spec.go]) and
    stored by the capsule manager ([capsule/manager.go], [store.go]), which
    gives the capsule a lifecycle machine ([lifecycle.go]) and announces it
    on an orbit ([capsule/orbit]).  An election round per replica
    ([election/manager.go]) asks a strategy ([election/delay]) for a decision
    based on the node's gravity score ([election/gravity]), exchanges signed
    claims over a topic ([election/topic.go]) and reports the outcome back to
    the manager.  Scaling rules ([capsule/scaling]) ask for more or fewer
    replicas, momentum ([capsule/momentum]) is a capsule's priority, placement
    rules ([capsule/placement]) say where it may run.  The handlers of the
    node ([node/capsule_handler.go], [election_handler.go]) join the managers
    over the event bus ([node/internal/events]).  The node keeps the members
    of its clusters in a phonebook ([node/phonebook]); a failure detector
    ([node/health]) probes them, gossips their scores and reports the nodes
    that fail, whose replicas the handlers elect again.  A node becomes a
    member by a handshake with one ([node/auth]), which announces it for the
    others to vote on.  Nodes exchange their
    member lists ([node/sync]) and gossip what their hosts have to spare
    ([node/metrics]), from which the gravity score is computed.

    The winner of an election starts the container: a bridge
    ([node/runtime_handler.go]) hands the event to the runtime handler
    ([runtime/handler.go]), which restores a snapshot ([src/snapshot]: a store,
    a gossiped index of holders, a transfer between nodes) or starts the
    container cold through a driver ([runtime/podman]), reports the outcome to
    the manager and watches the container.

    The node itself ([node/node.go]) has an identity ([shared/keys.go]),
    starts all of this in order, joins and leaves clusters and shuts down.
    The daemon ([cmd/falakd]) makes a node from a configuration
    ([src/config]) or from flags; [src/api] serves requests about a node over
    gRPC and HTTP.

    - [Prelude]: results, machine integers, time, maps and their unspecified
      iteration order, strings, the state-passing monad, tactics and hints.
    - [Float64]: IEEE 754 doubles as Go computes them (round to nearest even,
      signed zeros, infinities, NaN) and their monotonicity.
    - [Strconv]: [strings.Fields], [strings.TrimSpace], [strconv.Atoi],
      [strconv.ParseFloat].
    - [CapsuleTypes] ([capsule.go], [labels.go]), [CapsuleSpec] ([spec.go]),
      [Lifecycle] ([lifecycle.go]), [CapsuleStore] ([store.go]),
      [CapsuleManager] ([manager.go], [metrics.go]).
    - [Gravity] ([election/gravity/*.go]), [Elector] ([elector.go]),
      [Delay] ([delay/strategy.go]), [ElectionManager] ([manager.go]),
      [ElectionTopic] ([topic.go]).
    - [Momentum], [Placement], [Scaling], [Orbit]: the packages of these
      names under [src/capsule]; [Orbit] also has the conversions from the
      wire of [node/capsule_handler.go].

    - [Handler] ([node/capsule_handler.go], [election_handler.go]).
    - [Internals]: rate limiter, signing buffer and event bus of
      [node/internal], and [node/auth/dedup.go].
    - [Shared]: [shared/paths.go], [retry.go], [proto.go].
    - [Phonebook] ([node/phonebook/*.go]), [HealthScore]
      ([node/health/score.go]), [HealthMonitor] ([monitor.go], [pubsub.go],
      [handler.go]).
    - [SnapshotStore] ([snapshot/store.go]), [Discovery] ([discovery.go]),
      [FilePath] (what the code uses of [path/filepath] and [os]), [Transfer]
      ([transfer.go] and the puller of the node).
    - [Runtime] ([runtime/runtime.go], [healthcheck.go], [mock]),
      [RuntimeHandler] ([handler.go]), [Podman] ([podman/runtime.go]),
      [RuntimeNode] ([node/runtime_handler.go], [shared/secrets]).
    - [Syncer] ([node/sync/syncer.go]); [MetricsStore] ([node/metrics]:
      [config.go], [metrics.go], [collector.go], [store.go]), [Metrics]
      ([pubsub.go], [manager.go], [provider.go]).
    - [Auth] ([node/auth/authenticator.go], [clusterkeys]), [AuthGossip]
      ([pubsub.go], [node/revocation_adapter.go]), [Handshake] ([handler.go],
      [reauth.go], [renewal.go] and the joining side of [authenticator.go]);
      [AuthDemo] has nodes to apply their theorems to.
    - [Config] ([config/types.go], [capsule.go], [loader.go]); [Node]
      ([node/node.go], [shared/keys.go]), [NodeOrder] (the calls a node makes
      on its components), [NodeJoin] (a node with its authenticator),
      [Daemon] ([cmd/falakd/main.go]).
    - [Api] ([api/core], [api/grpc], [api/http], [api/auth]); [Keys]
      ([node/capsule_signer.go], the verifier of [election_handler.go],
      [node/auth/nodekeys]).

    A Go method is a definition of the method's name (with the type's name in
    front where two types share it): a pure function, or a state transformer
    [ST W A] where it changes its receiver.  [(T, error)] is [result E T] with
    one error constructor per error of the source.  Pointers that are shared
    (stored capsules, momentum trackers, topic listeners) are identities into
    a heap, so that aliasing is visible; integers wrap at their width; a nil
    map or pointer is [None].  Readings of the clock, random bytes and the
    answers of libraries are arguments.  Loops over lists are structural; the
    one loop over a byte stream, [Podman.read_logs], has the length of the
    stream as fuel, and a turn takes at least eight bytes; so has the loop of
    [ParseDuration], whose turns take at least one.

    ** Interfaces

    Code outside the repository is an interface with the laws it documents,
    and every theorem over an interface has an instance that satisfies it:
    [StateMachineLib] (the state machine library, in [Lifecycle]), [SqlTable]
    and [JsonCodec] (database and JSON columns, in [CapsuleStore]),
    [ProtoCodec] and [OrbitCodec] (Protocol Buffers), [Sha256], [GoRange] (the
    order in which a map is visited) and [GoConv] (out-of-range conversions of
    floats).  Signers and verifiers are functions of the topics.  The Go
    interface [IPhonebook] is a class too: [Phonebook] discharges its laws for
    the SQLite table, the health theorems use nothing else.  [SqliteReal],
    [SqlOrder] and [PbJson] are what SQLite and JSON contribute to the table,
    [HealthCodec] the messages of the failure detector, [GoSort] is
    [sort.Slice], which is not stable.

    The Go interface [Runtime] is a class: the handler's theorems hold for any
    driver, those about container states for drivers with [RuntimeLaws] (the
    in-memory one discharges them), and that a cancelled watcher ends with its
    next turn for drivers that honour contexts ([HonoursContext], discharged
    by [Podman]).  What the
    handler needs of the node is the class [Collaborators], which
    [RuntimeNode] instantiates with the manager, the snapshot store, discovery
    and transfer.  [SyncCodec] and [MetricsCodec] are the messages of sync and
    metrics, [RevocationSource] is the Go interface of that name,
    [IPhonebookWrites] has the laws of the writes that sync relies on, again
    discharged by [Phonebook].  [AuthCrypto] has the keys and codes of the
    handshake, [Certs] the package of certificates and revocation lists, which
    is not part of the repository, [AuthCodec] the messages.  [PodmanAPI] is the daemon, [TransferCodec], [SnapJson] and
    [Aead] are JSON, zstd and the ciphers.

    [Machine] is everything a node starts and calls, over any state: the
    theorems about nodes hold for every machine, and [NodeOrder.logged] turns
    any machine into one that records the calls.  [CueLib] is the CUE library
    with the decoding of JSON, [NodeFacade] the Go interface of that name,
    [ApiText] and [Pem] are encodings.

    ** What is proved

    - Lifecycle: [Fire] refines the transition relation; a capsule runs only
      after a won election; every state can be left; the two unlocked halves
      of [Fire] can mislabel an event.
    - Specification: validation is exact, defaulting is idempotent and keeps
      valid specifications valid; it also hardens every soft placement rule.
    - Store and manager: cache and table stay in step, reopening restores the
      capsules, a restarted manager resumes every status; every manager
      operation keeps store and machines coherent, [Fire] refines the
      lifecycle on the store, creating announces, assigning a replica is
      idempotent; receiving a known capsule breaks the coherence.
    - Gravity and delay: eligibility is exact; scores are numbers of [0, 100],
      monotone in the node's capacity with rounding included; a better node
      publishes its claim no later; weight layers compose; the documented
      top score cannot be reached.
    - Elections: over all interleavings every round reports exactly once and
      can always end without a message from a peer; the claim slot is
      exclusive under a stated discipline, and a run shows how it fails
      without it; the tiebreak elects exactly one winner when claims carry
      their planned times and are heard, and two when both are late; a loser
      may name another loser as the winner; leaving a cluster
      crashes a waiting round.
    - Topics and orbits: signed bytes determine the message up to a
      timestamp of 64 bits, so that an old message can be sent again with a
      timestamp 584 years later; the routing tables keep their invariant; a
      late listener misses nothing that is younger than three seconds; published
      claims arrive; only signed messages count; an orbit message is accepted
      once; an announced capsule arrives without its runtime configuration.
    - Momentum, placement, scaling: the adjuster's events replay to its
      state, idle capsules drain to the minimum; placement evaluation is
      exact; cooldowns are kept, a monitor tick does not depend on the order
      of visits, conditions parse to what they say, units are ignored.

    - Node handlers: a winner is excluded from the next election of its
      capsule, gossip ends, a failed node's replicas are elected again; the
      lifecycle of a capsule that came by gossip permits nothing but
      [Announce], so that its status changes only past the lifecycle, by the
      synchronisation of a lost or failed election or of a status update.
    - Phonebook: rows keep their types, entries read back as added, contacts
      are counted exactly, the best peers are sorted; the table implements the
      interface.
    - Health: the status is the level of the score and exactly the quarantined
      peers have timers; how many failed probes it takes; a period probes one
      eligible peer; checks remove exactly the overdue peers; news of a live
      peer reaches the other members; unverified messages change nothing; a
      peer past a lowered threshold is stuck.
    - Internals: limiter and deduplicator equal their history-based
      definitions; the bus delivers in order and panics only after [Close];
      framed messages come back as sent.

    - Snapshots: the index equals its definition over the history of
      announcements; eviction is exact; a pulled snapshot equals the served
      one, and no bytes a peer sends make a pull touch anything outside the
      snapshot's directory; captured snapshots cannot be pulled, and an
      announcement may name another holder.
    - Runtime: every start makes exactly one report; over all interleavings
      in which no watcher removes the registration of another one a container
      has one watcher, which restarts it at most as often as allowed, and a
      run shows two watchers otherwise; an update keeps the old container or replaces it; the health
      checker is exact; log streams are read as written.  Runs show how an
      updated replica, a stopped container and a capture escape the handler.
    - Node runtime: a won election leaves an assigned capsule running or
      announced again; an early start and a crash are not recorded; secrets
      are shared within a cluster.

    - Sync: only members are served, with exactly what they ask for; the
      members of a peer arrive; a periodic sync completes when any peer
      answers, unless one that is tried before keeps its stream open; an unreachable peer goes in five steps.  Long lists are cut
      for good, and merges keep dead peers that others list.
    - Metrics: the history is the last ten samples; rates and free cores are
      bounded, rounding included; samples reach the members of every joined
      cluster and unsigned ones count for nothing; over all sequences of calls
      the parts of the manager agree on the clusters, except when a join
      meets the middle of a leave; the local state always has a score.  A
      member can speak for another node.
    - Authentication: a node with the key of the cluster joins whatever the
      voucher does meanwhile, as long as it stays in the cluster and nobody
      objects; a node is announced
      for exactly the right answers, and members admit exactly the
      announcements a member vouches for; only signed messages count, the
      first vote decides, revocations reach the members, a stale session is
      removed.  A node that is rejected stays in the phonebook of its voucher
      and is admitted when it asks twice, the handshake can be relayed, a
      renewal needs no valid certificate, a failed join or a left cluster
      cannot be joined again, and the secrets key does not depend on the
      bytes of the pre-shared key.

    - Node: whatever is called in whatever order and however the machine
      answers, a running node has all its parts and health monitors only for
      joined clusters; components are created after the ones they are given,
      and stopped, once each, before the ones they use, but for the election
      manager, which is stopped before the capsule handler that can call it; the first event about a cluster decides
      a join; the key of the node survives restarts, those of clusters too.
      A start that fails late stops what it started and leaves a node that
      only [Stop] frees, and a
      stopped node never gets a live context again; registry credentials are
      not decrypted, weight overrides lose the lookup of running capsules.
    - Configuration and daemon: sizes mean what they say; a configuration
      loads exactly when it is usable, in whatever order its clusters are
      visited; a capsule converts exactly when its reported fields parse.  The
      daemon asks to join every usable cluster once, and drops orbits and
      capsules.
    - API: incomplete requests do not reach the node, the others do what the
      node does (the checks of client certificates are modelled, but no
      server installs them); the watch buffer stays bounded, and after a gap
      comes a mark and then everything else.

    ** Granularity and limits

    Methods that hold a lock are atomic; [Lifecycle.Fire], which releases its
    lock in the middle, is two steps.  An election round is a process whose
    program points are the waits of [runElection]; its steps interleave with
    all other rounds and calls, and a select may take any ready case.
    A topic registers, replays and dispatches in separate steps ([Conc] of
    [ElectionTopic]); the calls that rounds make are modelled with [Listen] as
    one step.  A stopped election manager is not
    started again.  Floating point is evaluated operation by operation: a
    compiler that fuses multiplication and addition (as Go may on some
    architectures) is not modelled.  Times are unbounded integers of
    nanoseconds; durations saturate as in Go.  Logging, contexts other than
    the ones that cancel rounds, and goroutine start-up are left out.

    A handler of the node or of the health monitor is one step; a SQL
    statement is atomic and may fail at any time.  A start of a container is
    one step, as are the calls and locked parts of a watcher's turn, a tick of
    a checker and each half of a capture; between them the containers change on their own.

    A handshake is a sequence of stretches between its waits; its streams
    either carry a whole message or break; a stream of a sync may also stay
    open in silence.  The bytes of a key that
    [LeaveCluster] overwrites while a handshake still holds it are not
    modelled.

    An operation of a node is one step, and operations do not overlap; the
    goroutine of a watch is modelled with the reads of the client between its
    selects.

    Not modelled: generated code; listening and shutdown of the API server,
    the goroutines that only repeat a modelled step, functional options other
    than those of the node, logging and the texts of errors that only wrap
    another.  They have no state of their own beyond channels and wait groups.
    The certificate package and the protobuf runtime are not in the
    repository. *)

From Stdlib Require Export ZArith Lia String Ascii.
From stdpp Require Export base gmap strings list numbers.
#[global] Open Scope Z_scope.

(** ** Results of fallible Go functions

    A Go function returning [(T, error)] returns [Ok v] when the error is nil
    and [Err e] otherwise. *)

Inductive result (E A : Type) : Type :=
  | Ok (a : A)
  | Err (e : E).
Arguments Ok {E A} a.
Arguments Err {E A} e.

Definition is_ok {E A} (r : result E A) : bool :=
  match r with Ok _ => true | Err _ => false end.

Declare Scope go_scope.
Delimit Scope go_scope with go.
#[global] Open Scope go_scope.

(** String equality as the Go [==] operator evaluates it: byte by byte. *)
Notation "a =s b" := (String.eqb a b) (at level 70, no associativity) : go_scope.
Notation "a <>s b" := (negb (String.eqb a b)) (at level 70, no associativity) : go_scope.
(** Go's [<] on strings: lexicographic on bytes. *)
Notation "a <s b" := (String.ltb a b) (at level 70, no associativity) : go_scope.

(** ** Machine integers *)

(** Two's complement wrap-around of an integer to [w] bits. *)
Definition wrap (w : Z) (z : Z) : Z := (z + 2 ^ (w - 1)) mod 2 ^ w - 2 ^ (w - 1).
Definition int32 : Z -> Z := wrap 32.
Definition int64 : Z -> Z := wrap 64.
Definition uint32 (z : Z) : Z := z mod 2 ^ 32.
Definition uint64 (z : Z) : Z := z mod 2 ^ 64.
Definition min_int64 : Z := - 2 ^ 63.
Definition max_int64 : Z := 2 ^ 63 - 1.
Definition in_int32 (z : Z) : Prop := - 2 ^ 31 <= z < 2 ^ 31.
Definition in_int64 (z : Z) : Prop := min_int64 <= z <= max_int64.

Lemma wrap_range w z : 0 < w -> - 2 ^ (w - 1) <= wrap w z < 2 ^ (w - 1).
Proof.
  intros Hw. unfold wrap.
  assert (H2 : 2 ^ w = 2 * 2 ^ (w - 1)).
  { replace w with (Z.succ (w - 1)) at 1 by lia. rewrite Z.pow_succ_r; lia. }
  assert (Hp : 0 < 2 ^ (w - 1)) by (apply Z.pow_pos_nonneg; lia).
  pose proof (Z.mod_pos_bound (z + 2 ^ (w - 1)) (2 ^ w) ltac:(lia)). lia.
Qed.

Lemma wrap_id w z : 0 < w -> - 2 ^ (w - 1) <= z < 2 ^ (w - 1) -> wrap w z = z.
Proof.
  intros Hw Hz. unfold wrap.
  assert (H2 : 2 ^ w = 2 * 2 ^ (w - 1)).
  { replace w with (Z.succ (w - 1)) at 1 by lia. rewrite Z.pow_succ_r; lia. }
  rewrite Z.mod_small; lia.
Qed.

Lemma int32_range z : in_int32 (int32 z).
Proof. unfold in_int32. apply (wrap_range 32). lia. Qed.

Lemma int32_id z : in_int32 z -> int32 z = z.
Proof. unfold in_int32. intros. apply wrap_id; lia. Qed.

Lemma int64_range z : in_int64 (int64 z).
Proof.
  unfold in_int64, min_int64, max_int64. pose proof (wrap_range 64 z). unfold int64.
  change (64 - 1) with 63 in *. lia.
Qed.

Lemma int64_id z : in_int64 z -> int64 z = z.
Proof.
  unfold in_int64, min_int64, max_int64. intros. apply wrap_id; change (64 - 1) with 63; lia.
Qed.

(** ** Time

    A [time.Time] is its wall-clock reading in nanoseconds since the Unix
    epoch; a [time.Duration] is a 64-bit count of nanoseconds. *)

Abbreviation Time := Z (only parsing).
Abbreviation Duration := Z (only parsing).

Definition microsecond : Duration := 1000.
Definition millisecond : Duration := 1000 * microsecond.
Definition second : Duration := 1000 * millisecond.
Definition minute : Duration := 60 * second.
Definition hour : Duration := 60 * minute.

(** The zero [time.Time]: January 1, year 1, 00:00 UTC. *)
Definition zero_time : Time := - (62135596800 * second).

(** [t.Sub(u)] saturates at the bounds of a [Duration]. *)
Definition time_Sub (t u : Time) : Duration :=
  Z.max min_int64 (Z.min max_int64 (t - u)).
Definition time_Add (t : Time) (d : Duration) : Time := t + d.
Definition time_Before (t u : Time) : bool := t <? u.
Definition time_After (t u : Time) : bool := u <? t.
Definition UnixMicro (t : Time) : Z := t / microsecond.
Definition UnixMilli (t : Time) : Z := t / millisecond.
(** [time.UnixMilli(ms)] *)
Definition of_UnixMilli (ms : Z) : Time := ms * millisecond.

Lemma time_Sub_gt t u d :
  min_int64 <= d < max_int64 -> (d <? time_Sub t u) = (d <? t - u).
Proof.
  unfold time_Sub, min_int64, max_int64. intros.
  destruct (Z.ltb_spec d (t - u)); [apply Z.ltb_lt | apply Z.ltb_ge]; lia.
Qed.

(** ** Maps

    A Go map is a [gmap]; a map that may be nil is an [option] of one, and
    reading a nil map reads an empty one.  [range] over a map visits the
    entries in an unspecified order, so every function that ranges over a map
    takes the order from this interface and its theorems hold for each order. *)

Class GoRange := {
  range : forall {A : Type}, gmap string A -> list (string * A);
  range_perm : forall (A : Type) (m : gmap string A), range m ≡ₚ map_to_list m
}.

(** One admissible order, for evaluation. *)
#[export, refine] Instance range_canonical : GoRange | 100 :=
  {| range := fun A m => map_to_list m |}.
Proof. reflexivity. Defined.

Lemma elem_of_range `{GoRange} {A} (m : gmap string A) k x :
  (k, x) ∈ range m <-> m !! k = Some x.
Proof. rewrite range_perm. apply elem_of_map_to_list. Qed.

Lemma length_range `{GoRange} {A} (m : gmap string A) : length (range m) = size m.
Proof. rewrite range_perm. by rewrite length_map_to_list. Qed.

Lemma NoDup_range_fst `{GoRange} {A} (m : gmap string A) : NoDup (range m).*1.
Proof. rewrite range_perm. apply NoDup_fst_map_to_list. Qed.

Lemma range_empty `{GoRange} {A} : range (∅ : gmap string A) = [].
Proof. apply Permutation_nil_r. by rewrite range_perm, map_to_list_empty. Qed.

(** ** Lists *)

(** The result of [append(dst, f(x))] over the elements that pass a test is a
    filter; Go's early-return loops are [existsb] and [forallb]. *)

Lemma existsb_elem {A} (f : A -> bool) l :
  existsb f l = true <-> exists x, x ∈ l /\ f x = true.
Proof. rewrite existsb_exists. by setoid_rewrite list_elem_of_In. Qed.

Lemma forallb_elem {A} (f : A -> bool) l :
  forallb f l = true <-> forall x, x ∈ l -> f x = true.
Proof. rewrite forallb_forall. by setoid_rewrite list_elem_of_In. Qed.

Lemma existsb_perm {A} (f : A -> bool) l k : l ≡ₚ k -> existsb f l = existsb f k.
Proof. intros Hp. apply eq_bool_prop_intro. rewrite !Is_true_true, !existsb_elem. by setoid_rewrite Hp. Qed.

Lemma forallb_perm {A} (f : A -> bool) l k : l ≡ₚ k -> forallb f l = forallb f k.
Proof. intros Hp. apply eq_bool_prop_intro. rewrite !Is_true_true, !forallb_elem. by setoid_rewrite Hp. Qed.

Lemma forallb_range `{GoRange} {A} (f : string * A -> bool) (m : gmap string A) :
  forallb f (range m) = true <-> forall k x, m !! k = Some x -> f (k, x) = true.
Proof.
  rewrite forallb_elem. split.
  - intros Hf k x Hk. by apply Hf, elem_of_range.
  - intros Hf [k x] Hk. by apply Hf, elem_of_range.
Qed.

Lemma existsb_range `{GoRange} {A} (f : string * A -> bool) (m : gmap string A) :
  existsb f (range m) = true <-> exists k x, m !! k = Some x /\ f (k, x) = true.
Proof.
  rewrite existsb_elem. split.
  - intros ([k x] & Hk & Hf). apply elem_of_range in Hk. eauto.
  - intros (k & x & Hk & Hf). exists (k, x). by rewrite elem_of_range.
Qed.

Lemma NoDup_fst_inj {A B} (l : list (A * B)) x y :
  NoDup l.*1 -> x ∈ l -> y ∈ l -> x.1 = y.1 -> x = y.
Proof.
  induction l as [|z l IH]; [by intros _ ?%not_elem_of_nil|]. intros Hnd Hx Hy E.
  rewrite fmap_cons in Hnd. inversion_clear Hnd as [|? ? Hni Hnd'].
  apply elem_of_cons in Hx as [->|Hx], Hy as [->|Hy]; auto;
    destruct Hni; [rewrite E|rewrite <- E]; by apply list_elem_of_fmap_2.
Qed.

(** ** Strings *)

Lemma string_app_nil_r (s : string) : (s +:+ "")%string = s.
Proof. induction s as [|c s IH]; [done|]. change (String c (s +:+ "") = String c s). by rewrite IH. Qed.

Lemma string_app_assoc (a b c : string) : ((a +:+ b) +:+ c)%string = (a +:+ (b +:+ c))%string.
Proof. induction a as [|x a IH]; [done|].
  change (String x ((a +:+ b) +:+ c) = String x (a +:+ (b +:+ c)))%string. by rewrite IH. Qed.

Lemma string_length_app (a b : string) : String.length (a +:+ b)%string = (String.length a + String.length b)%nat.
Proof. induction a as [|x a IH]; [done|]. change (S (String.length (a +:+ b)%string) = S (String.length a + String.length b)). by rewrite IH. Qed.

Lemma string_ltb_lt a b : (a <s b) = true <-> String.compare a b = Lt.
Proof. unfold String.ltb. destruct (String.compare a b); naive_solver. Qed.

Lemma string_compare_refl a : String.compare a a = Eq.
Proof.
  pose proof (String.compare_antisym a a).
  destruct (String.compare a a); naive_solver.
Qed.

Lemma string_ltb_irrefl a : (a <s a) = false.
Proof. unfold String.ltb. by rewrite string_compare_refl. Qed.

Lemma string_ltb_asym a b : (a <s b) = true -> (b <s a) = false.
Proof.
  unfold String.ltb. rewrite (String.compare_antisym b a).
  by destruct (String.compare a b).
Qed.

Lemma string_ltb_total a b : a <> b -> (a <s b) = negb (b <s a).
Proof.
  unfold String.ltb. intros Hne. rewrite (String.compare_antisym b a).
  destruct (String.compare a b) eqn:E; try done.
  by apply String.compare_eq_iff in E.
Qed.

Lemma ascii_compare_trans a b c :
  Ascii.compare a b = Lt -> Ascii.compare b c = Lt -> Ascii.compare a c = Lt.
Proof. unfold Ascii.compare. rewrite !N.compare_lt_iff. lia. Qed.

Lemma string_ltb_trans a b c : (a <s b) = true -> (b <s c) = true -> (a <s c) = true.
Proof.
  rewrite !string_ltb_lt. revert b c.
  induction a as [|x a IH]; intros [|y b] [|z c]; simpl; try done.
  destruct (Ascii.compare x y) eqn:E1; try done;
    destruct (Ascii.compare y z) eqn:E2; try done; intros H1 H2.
  - apply compare_eq_iff in E1 as ->. rewrite E2. eauto.
  - apply compare_eq_iff in E1 as ->. by rewrite E2.
  - apply compare_eq_iff in E2 as ->. by rewrite E1.
  - by rewrite (ascii_compare_trans _ _ _ E1 E2).
Qed.

(** ** State passing

    Go methods that mutate their receiver are state transformers. *)

Definition ST (W A : Type) : Type := W -> A * W.
#[export] Instance ST_ret W : MRet (ST W) := fun A a w => (a, w).
#[export] Instance ST_bind W : MBind (ST W) :=
  fun A B k m w => let '(a, w') := m w in k a w'.
Definition get_st {W} : ST W W := fun w => (w, w).
Definition put_st {W} (w : W) : ST W unit := fun _ => (tt, w).
Definition gets {W A} (f : W -> A) : ST W A := fun w => (f w, w).
Definition modify {W} (f : W -> W) : ST W unit := fun w => (tt, f w).

(** ** Automation *)

(** Splits every boolean test of the goal and the hypotheses into its two
    propositional cases. *)
Ltac split_bools :=
  repeat match goal with
  | H : context [String.eqb ?a ?b] |- _ => destruct (String.eqb_spec a b)
  | |- context [String.eqb ?a ?b] => destruct (String.eqb_spec a b)
  | H : context [Z.ltb ?a ?b] |- _ => destruct (Z.ltb_spec a b)
  | |- context [Z.ltb ?a ?b] => destruct (Z.ltb_spec a b)
  | H : context [Z.leb ?a ?b] |- _ => destruct (Z.leb_spec a b)
  | |- context [Z.leb ?a ?b] => destruct (Z.leb_spec a b)
  | H : context [Z.eqb ?a ?b] |- _ => destruct (Z.eqb_spec a b)
  | |- context [Z.eqb ?a ?b] => destruct (Z.eqb_spec a b)
  end.

Create HintDb falak.
#[export] Hint Resolve int32_range int64_range string_ltb_irrefl : falak.
