(* ===== verification/Float64.v ===== *)
(** * Go's float64

    IEEE 754 binary64 with round-to-nearest-even, as the Go operators [+], [-],
    [*], [/], the comparisons and the conversions compute it (each operation
    rounded on its own, no fused multiply-add).  A finite number is a sign, a
    53-bit mantissa and an exponent.  The second half shows that rounding is
    monotone, from which the range arguments of the scoring code follow. *)

From S2P Require Import Prelude.
Local Open Scope Z_scope.

(** ** Numbers *)

(** [Fin s m e] is (-1)^s * m * 2^e. *)
Inductive f64 :=
  | NaN
  | Inf (s : bool)
  | Fin (s : bool) (m e : Z).

Definition emin : Z := -1074.
Definition emax : Z := 971.

Definition f64_wf (x : f64) : Prop :=
  match x with Fin _ m e => 0 <= m < 2 ^ 53 /\ emin <= e <= emax | _ => True end.

Definition is_nan (x : f64) : bool := match x with NaN => true | _ => false end.

(** Round [n / d] to the nearest integer, ties to even. *)
Definition rne (n d : Z) : Z :=
  let q := n / d in let r := n mod d in
  if 2 * r <? d then q
  else if d <? 2 * r then q + 1
  else if Z.even q then q else q + 1.

(** The exponent of the last place of [n / d * 2^x], for [1 <= n / d]. *)
Definition ulp_exp (n d x : Z) : Z := Z.max emin (Z.log2 (n / d) + x - 52).

(** Round [(-1)^s * n / d * 2^x], for [1 <= n / d]. *)
Definition f64_round (s : bool) (n d x : Z) : f64 :=
  let e := ulp_exp n d x in
  let m := if x <=? e then rne n (d * 2 ^ (e - x)) else rne (n * 2 ^ (x - e)) d in
  let '(m, e) := if m =? 2 ^ 53 then (2 ^ 52, e + 1) else (m, e) in
  if emax <? e then Inf s else Fin s m e.

Definition f64_zero (s : bool) : f64 := Fin s 0 emin.

(** Round the integer [n * 2^x]; an exact zero has sign [s0]. *)
Definition f64_round_Z (s0 : bool) (n x : Z) : f64 :=
  if n =? 0 then f64_zero s0 else f64_round (n <? 0) (Z.abs n) 1 x.

(** [float64(i)] of an integer. *)
Definition f64_of_Z (i : Z) : f64 := f64_round_Z false i 0.

(** The constant [n / d]: the double nearest to the literal. *)
Definition f64_const (n d : Z) : f64 :=
  if n =? 0 then f64_zero false else f64_round (n <? 0) (Z.abs n * 2 ^ 120) d (-120).

(** Signed mantissa at a common exponent. *)
Definition signed (s : bool) (m : Z) : Z := if s then - m else m.

(** ** Operations *)

Definition f64_opp (x : f64) : f64 :=
  match x with NaN => NaN | Inf s => Inf (negb s) | Fin s m e => Fin (negb s) m e end.

Definition f64_add (x y : f64) : f64 :=
  match x, y with
  | NaN, _ | _, NaN => NaN
  | Inf s, Inf t => if eqb s t then Inf s else NaN
  | Inf s, _ | _, Inf s => Inf s
  | Fin s m e, Fin t n f =>
      if n =? 0 then (if m =? 0 then f64_zero (s && t) else Fin s m e)
      else if m =? 0 then Fin t n f
      else
        let x := Z.min e f in
        f64_round_Z false (signed s (m * 2 ^ (e - x)) + signed t (n * 2 ^ (f - x))) x
  end.

Definition f64_sub (x y : f64) : f64 := f64_add x (f64_opp y).

Definition f64_mul (x y : f64) : f64 :=
  match x, y with
  | NaN, _ | _, NaN => NaN
  | Inf s, Inf t => Inf (xorb s t)
  | Inf s, Fin t n _ | Fin s n _, Inf t => if n =? 0 then NaN else Inf (xorb s t)
  | Fin s m e, Fin t n f =>
      if m * n =? 0 then f64_zero (xorb s t) else f64_round (xorb s t) (m * n) 1 (e + f)
  end.

Definition f64_div (x y : f64) : f64 :=
  match x, y with
  | NaN, _ | _, NaN => NaN
  | Inf _, Inf _ => NaN
  | Inf s, Fin t _ _ => Inf (xorb s t)
  | Fin s _ _, Inf t => f64_zero (xorb s t)
  | Fin s m e, Fin t n f =>
      if n =? 0 then (if m =? 0 then NaN else Inf (xorb s t))
      else if m =? 0 then f64_zero (xorb s t)
      else f64_round (xorb s t) (m * 2 ^ 120) n (e - f - 120)
  end.

(** Three-way comparison of two numbers that are not NaN. *)
Definition f64_compare (x y : f64) : option comparison :=
  match x, y with
  | NaN, _ | _, NaN => None
  | Inf s, Inf t => Some (match s, t with true, false => Lt | false, true => Gt | _, _ => Eq end)
  | Inf s, Fin _ _ _ => Some (if s then Lt else Gt)
  | Fin _ _ _, Inf t => Some (if t then Gt else Lt)
  | Fin s m e, Fin t n f =>
      let x := Z.min e f in
      Some (signed s (m * 2 ^ (e - x)) ?= signed t (n * 2 ^ (f - x)))
  end.

Definition f64_lt (x y : f64) : bool := match f64_compare x y with Some Lt => true | _ => false end.
Definition f64_le (x y : f64) : bool := match f64_compare x y with Some (Lt | Eq) => true | _ => false end.
Definition f64_eq (x y : f64) : bool := match f64_compare x y with Some Eq => true | _ => false end.
Definition f64_gt (x y : f64) : bool := f64_lt y x.
Definition f64_ge (x y : f64) : bool := f64_le y x.

(** A conversion of a number outside the integer range has an
    implementation-dependent value. *)
Class GoConv := { conv_overflow : f64 -> Z; conv_overflow_range : forall x, in_int64 (conv_overflow x) }.

(** One such value, for evaluation: the smallest integer. *)
#[export, refine] Instance conv_min : GoConv | 100 := {| conv_overflow := fun _ => min_int64 |}.
Proof. intros _. unfold in_int64, min_int64, max_int64. lia. Defined.

(** The integer part of a finite number. *)
Definition f64_trunc (m e : Z) : Z := if 0 <=? e then m * 2 ^ e else m / 2 ^ (- e).

(** [int64(x)]: truncation toward zero. *)
Definition f64_to_int64 `{GoConv} (x : f64) : Z :=
  match x with
  | Fin s m e =>
      let i := signed s (f64_trunc m e) in
      if (min_int64 <=? i) && (i <=? max_int64) then i else conv_overflow x
  | _ => conv_overflow x
  end.

Declare Scope f64_scope.
Delimit Scope f64_scope with f64.
Infix "+" := f64_add : f64_scope.
Infix "-" := f64_sub : f64_scope.
Infix "*" := f64_mul : f64_scope.
Infix "/" := f64_div : f64_scope.
Infix "<?" := f64_lt : f64_scope.
Infix "<=?" := f64_le : f64_scope.
Infix ">?" := f64_gt : f64_scope.
Infix ">=?" := f64_ge : f64_scope.
Infix "=?" := f64_eq : f64_scope.

(** ** Rounding to an integer *)

Lemma rne_bounds n d : 0 < d -> n / d <= rne n d <= n / d + 1.
Proof. intros. unfold rne. repeat case_match; lia. Qed.

Lemma rne_scale n d c : 0 < d -> 0 < c -> rne (n * c) (d * c) = rne n d.
Proof.
  intros Hd Hc. unfold rne. rewrite Z.div_mul_cancel_r, Zmult_mod_distr_r by lia.
  set (q := n / d). set (r := n mod d).
  destruct (Z.ltb_spec (2 * r) d), (Z.ltb_spec (2 * (r * c)) (d * c)); try nia; try done.
  destruct (Z.ltb_spec d (2 * r)), (Z.ltb_spec (d * c) (2 * (r * c))); try nia; done.
Qed.

Lemma rne_exact k d : 0 < d -> rne (k * d) d = k.
Proof. intros. unfold rne. rewrite Z_div_mult, Z_mod_mult by lia. by destruct (Z.ltb_spec (2 * 0) d); [|lia]. Qed.

Lemma rne_mono n1 d1 n2 d2 : 0 < d1 -> 0 < d2 -> n1 * d2 <= n2 * d1 -> rne n1 d1 <= rne n2 d2.
Proof.
  intros H1 H2 Hle.
  pose proof (Z.div_mod n1 d1 ltac:(lia)). pose proof (Z.div_mod n2 d2 ltac:(lia)).
  pose proof (Z.mod_pos_bound n1 d1 H1). pose proof (Z.mod_pos_bound n2 d2 H2).
  pose proof (rne_bounds n1 d1 H1). pose proof (rne_bounds n2 d2 H2).
  assert (Hq : n1 / d1 <= n2 / d2).
  { apply Z.div_le_lower_bound; [lia|]. apply Z.mul_le_mono_pos_r with d1; [lia|]. nia. }
  destruct (Z.eq_dec (n1 / d1) (n2 / d2)) as [Hq'|]; [|lia].
  unfold rne in *. rewrite <- Hq' in *. set (q := n1 / d1) in *.
  assert (Hr : (n1 mod d1) * d2 <= (n2 mod d2) * d1) by nia.
  destruct (Z.ltb_spec (2 * (n1 mod d1)) d1); [repeat case_match; lia|].
  destruct (Z.ltb_spec (2 * (n2 mod d2)) d2); [nia|].
  destruct (Z.ltb_spec d2 (2 * (n2 mod d2))); [repeat case_match; lia|].
  destruct (Z.ltb_spec d1 (2 * (n1 mod d1))); [nia|]. lia.
Qed.

(** ** Values

    Every double is an integer multiple of 2^-4000 with room to spare, so the
    order of the doubles is the order of the integers [key]; an infinity sits
    at the first value beyond the finite range. *)

Definition scale : Z := 4000.
Definition big : Z := 2 ^ (1024 + scale).

Definition key (x : f64) : Z :=
  match x with
  | NaN => 0
  | Inf s => signed s big
  | Fin s m e => signed s (m * 2 ^ (e + scale))
  end.

(** Rounding on keys: the reference definition the operations implement. *)
Definition key_ulp (n d : Z) : Z := Z.max (emin + scale) (Z.log2 (n / d) - 52).
Definition key_mag (n d : Z) : Z := rne n (d * 2 ^ key_ulp n d) * 2 ^ key_ulp n d.
Definition key_round (n d : Z) : Z := Z.sgn n * Z.min big (key_mag (Z.abs n) d).

Lemma key_ulp_pos n d : 0 <= key_ulp n d.
Proof. unfold key_ulp, emin, scale. lia. Qed.

Lemma div_lt_mul n d c : 0 < d -> n / d < c -> n < d * c.
Proof. intros. pose proof (Z.div_mod n d ltac:(lia)). pose proof (Z.mod_pos_bound n d H). nia. Qed.

(** The mantissa has at most 53 bits, and all 53 unless the number is at the
    bottom of the range. *)
Lemma mantissa_bounds n d :
  0 < d -> 0 <= n ->
  0 <= rne n (d * 2 ^ key_ulp n d) <= 2 ^ 53 /\
  (emin + scale < key_ulp n d -> 2 ^ 52 <= rne n (d * 2 ^ key_ulp n d)).
Proof.
  intros Hd Hn. pose proof (key_ulp_pos n d) as Hu. set (u := key_ulp n d) in *.
  pose proof (Z.pow_pos_nonneg 2 u ltac:(lia) Hu) as H2.
  pose proof (rne_bounds n (d * 2 ^ u) ltac:(nia)) as Hb.
  rewrite <- Z.div_div in * by lia. pose proof (Z.div_pos n d Hn Hd) as Hq.
  assert (Hlt : n / d < 2 ^ 53 * 2 ^ u).
  { rewrite <- Z.pow_add_r by lia. destruct (Z.eq_dec (n / d) 0) as [->|Hne].
    { apply Z.pow_pos_nonneg; lia. }
    apply Z.log2_lt_pow2; [lia|]. unfold u, key_ulp. lia. }
  pose proof (Z.div_lt_upper_bound (n / d) (2 ^ u) (2 ^ 53) H2 ltac:(lia)).
  pose proof (Z.div_pos (n / d) (2 ^ u) Hq H2). split; [lia|]. intros Hlow.
  assert (Hge : 2 ^ 52 * 2 ^ u <= n / d).
  { rewrite <- Z.pow_add_r by lia.
    assert (Hlog : 52 + u = Z.log2 (n / d)) by (unfold u, key_ulp in *; lia).
    rewrite Hlog. apply Z.log2_spec. destruct (Z.eq_dec (n / d) 0) as [E|]; [|lia].
    rewrite E in Hlog. unfold emin, scale in Hlow. simpl in Hlog. lia. }
  pose proof (Z.div_le_lower_bound (n / d) (2 ^ u) (2 ^ 52) H2 ltac:(lia)). lia.
Qed.

Lemma key_mag_nonneg n d : 0 < d -> 0 <= n -> 0 <= key_mag n d.
Proof.
  intros Hd Hn. destruct (mantissa_bounds n d Hd Hn) as [? _]. unfold key_mag.
  apply Z.mul_nonneg_nonneg; [lia|]. apply Z.pow_nonneg. lia.
Qed.

Lemma key_mag_mono n1 d1 n2 d2 :
  0 < d1 -> 0 < d2 -> 0 <= n1 -> n1 * d2 <= n2 * d1 -> key_mag n1 d1 <= key_mag n2 d2.
Proof.
  intros H1 H2 Hn Hle. assert (Hn2 : 0 <= n2) by nia.
  assert (Hq : n1 / d1 <= n2 / d2).
  { apply Z.div_le_lower_bound; [lia|]. pose proof (Z.mul_div_le n1 d1 H1).
    apply Z.mul_le_mono_pos_r with d1; [lia|]. nia. }
  assert (Hu : key_ulp n1 d1 <= key_ulp n2 d2).
  { unfold key_ulp. pose proof (Z.log2_le_mono _ _ Hq). lia. }
  destruct (mantissa_bounds n1 d1 H1 Hn) as [Hm1 _]. destruct (mantissa_bounds n2 d2 H2 Hn2) as [Hm2 Hm2'].
  unfold key_mag. pose proof (key_ulp_pos n1 d1) as Hp1. pose proof (key_ulp_pos n2 d2) as Hp2.
  set (u1 := key_ulp n1 d1) in *. set (u2 := key_ulp n2 d2) in *.
  pose proof (Z.pow_pos_nonneg 2 u1 ltac:(lia) Hp1). pose proof (Z.pow_pos_nonneg 2 u2 ltac:(lia) Hp2).
  destruct (Z.eq_dec u1 u2) as [E|Hne].
  - rewrite E in *. apply Z.mul_le_mono_nonneg_r; [lia|]. apply rne_mono; [nia|nia|nia].
  - assert (Hlow : emin + scale < u2) by (unfold u1, key_ulp in *; lia). specialize (Hm2' Hlow).
    transitivity (2 ^ 52 * 2 ^ u2); [|nia].
    assert (Hstep : 2 ^ 53 * 2 ^ u1 <= 2 ^ 52 * 2 ^ u2).
    { rewrite <- !Z.pow_add_r by lia. apply Z.pow_le_mono_r; lia. }
    nia.
Qed.

Lemma key_round_mono n1 d1 n2 d2 :
  0 < d1 -> 0 < d2 -> n1 * d2 <= n2 * d1 -> key_round n1 d1 <= key_round n2 d2.
Proof.
  intros H1 H2 Hle. unfold key_round. assert (0 < big) by (apply Z.pow_pos_nonneg; unfold scale; lia).
  pose proof (key_mag_nonneg (Z.abs n1) d1 H1 ltac:(lia)). pose proof (key_mag_nonneg (Z.abs n2) d2 H2 ltac:(lia)).
  destruct (Z.sgn_spec n1) as [[Hs1 ->]|[[Hs1 ->]|[Hs1 ->]]], (Z.sgn_spec n2) as [[Hs2 ->]|[[Hs2 ->]|[Hs2 ->]]];
    try nia.
  - pose proof (key_mag_mono (Z.abs n1) d1 (Z.abs n2) d2 H1 H2 ltac:(lia) ltac:(nia)). lia.
  - pose proof (key_mag_mono (Z.abs n2) d2 (Z.abs n1) d1 H2 H1 ltac:(lia) ltac:(nia)). lia.
Qed.

Lemma key_round_scale n d c : 0 < d -> 0 < c -> key_round (n * c) (d * c) = key_round n d.
Proof.
  intros Hd Hc. unfold key_round. rewrite Z.sgn_mul, (Z.sgn_pos c) by lia. rewrite Z.mul_1_r. f_equal. f_equal.
  rewrite Z.abs_mul, (Z.abs_eq c) by lia. unfold key_mag, key_ulp. rewrite Z.div_mul_cancel_r by lia.
  set (u := Z.max _ _). f_equal. replace (d * c * 2 ^ u) with (d * 2 ^ u * c) by lia. apply rne_scale; [|lia].
  apply Z.mul_pos_pos; [lia|]. apply Z.pow_pos_nonneg; [lia|]. unfold u, emin, scale. lia.
Qed.

(** ** The operations implement the reference rounding *)

Lemma log2_div_pow2 n d k : 0 < d -> 1 <= n / d -> 0 <= k -> Z.log2 (n * 2 ^ k / d) = Z.log2 (n / d) + k.
Proof.
  intros Hd Hq Hk. destruct (Z.log2_spec (n / d) ltac:(lia)) as [Hl Hu].
  pose proof (Z.pow_pos_nonneg 2 k ltac:(lia) Hk). pose proof (Z.log2_nonneg (n / d)) as Hnn.
  pose proof (div_lt_mul n d _ Hd Hu) as Hlt. pose proof (Z.mul_div_le n d Hd) as Hle.
  set (l := Z.log2 (n / d)) in *. set (q := n / d) in *. clearbody l q.
  apply Z.log2_unique; [lia|]. split.
  - apply Z.div_le_lower_bound; [lia|]. rewrite Z.pow_add_r, Z.mul_assoc by lia.
    apply Z.mul_le_mono_nonneg_r; [lia|]. nia.
  - apply Z.div_lt_upper_bound; [lia|]. rewrite <- Z.add_succ_l, Z.pow_add_r, Z.mul_assoc by lia.
    by apply Z.mul_lt_mono_pos_r.
Qed.

(** Rounding a mantissa pair yields the reference rounding of its value. *)
Lemma f64_round_spec s n d x :
  0 < d -> 1 <= n / d -> 0 <= x + scale ->
  let r := f64_round s n d x in
  f64_wf r /\ is_nan r = false /\ key r = key_round (signed s n * 2 ^ (x + scale)) d.
Proof.
  intros Hd Hq Hx r.
  assert (Hn : 0 < n) by (pose proof (Z.mul_div_le n d Hd); nia).
  set (N := n * 2 ^ (x + scale)).
  pose proof (Z.pow_pos_nonneg 2 (x + scale) ltac:(lia) Hx) as Hp2.
  assert (Hu : key_ulp N d = ulp_exp n d x + scale).
  { unfold key_ulp, N. rewrite log2_div_pow2 by lia. unfold ulp_exp. lia. }
  assert (Hk : key_round (signed s n * 2 ^ (x + scale)) d = signed s (Z.min big (key_mag N d))).
  { unfold key_round. replace (Z.abs (signed s n * _)) with N by (unfold N; destruct s; simpl; nia).
    destruct s; simpl; [rewrite Z.sgn_neg by nia|rewrite Z.sgn_pos by nia]; lia. }
  destruct (mantissa_bounds N d Hd ltac:(unfold N; nia)) as [Hm Hm'].
  set (e := ulp_exp n d x) in *. assert (He : emin <= e) by (unfold e, ulp_exp; lia).
  assert (Hmant : (if x <=? e then rne n (d * 2 ^ (e - x)) else rne (n * 2 ^ (x - e)) d) = rne N (d * 2 ^ (e + scale))).
  { unfold N. assert (0 <= e + scale) by (unfold emin, scale in *; lia). destruct (Z.leb_spec x e).
    - rewrite <- (rne_scale n (d * 2 ^ (e - x)) (2 ^ (x + scale)));
        [|apply Z.mul_pos_pos; [lia|apply Z.pow_pos_nonneg; lia]|lia].
      f_equal. rewrite <- Z.mul_assoc, <- Z.pow_add_r by lia. do 2 f_equal. lia.
    - rewrite <- (rne_scale (n * 2 ^ (x - e)) d (2 ^ (e + scale))); [|lia|apply Z.pow_pos_nonneg; lia].
      f_equal. rewrite <- Z.mul_assoc, <- Z.pow_add_r by lia. do 2 f_equal. lia. }
  unfold key_mag in Hk. rewrite Hu in *. subst r. unfold f64_round. cbv zeta. fold e. rewrite Hmant. cbv beta.
  set (M := rne N (d * 2 ^ (e + scale))) in *. clearbody M e. clear Hmant Hu Hq Hd Hn Hp2 Hx.
  assert (Hbig : forall m f, 0 <= m -> emin <= f -> f <= emax -> m < 2 ^ 53 -> m * 2 ^ (f + scale) < big).
  { intros m f ? ? ? ?. unfold big. assert (0 < 2 ^ (f + scale)) by (apply Z.pow_pos_nonneg; unfold emin, scale in *; lia).
    assert (2 ^ 53 * 2 ^ (f + scale) <= 2 ^ (1024 + scale)).
    { rewrite <- Z.pow_add_r by (unfold emin, scale in *; lia). apply Z.pow_le_mono_r; unfold emax, emin, scale in *; lia. }
    nia. }
  assert (Hover : forall m f, 2 ^ 52 <= m -> emax < f -> big <= m * 2 ^ (f + scale)).
  { intros m f ? ?. unfold big. assert (0 < 2 ^ (f + scale)) by (apply Z.pow_pos_nonneg; unfold emax, scale in *; lia).
    assert (2 ^ (1024 + scale) <= 2 ^ 52 * 2 ^ (f + scale)).
    { rewrite <- Z.pow_add_r by (unfold emax, scale in *; lia). apply Z.pow_le_mono_r; unfold emax, scale in *; lia. }
    nia. }
  destruct (Z.eqb_spec M (2 ^ 53)) as [HM|HM].
  - assert (Hv : M * 2 ^ (e + scale) = 2 ^ 52 * 2 ^ (e + 1 + scale)).
    { rewrite HM. replace (e + 1 + scale) with (1 + (e + scale)) by lia.
      rewrite (Z.pow_add_r 2 1 (e + scale)) by (unfold emin, scale in *; lia). lia. }
    rewrite Hk, Hv. destruct (Z.ltb_spec emax (e + 1)).
    + split_and!; [done..|]. unfold key. by rewrite Z.min_l by (apply Hover; lia).
    + split_and!; [simpl; unfold emin in *; lia|done|]. unfold key.
      rewrite Z.min_r; [done|]. apply Z.lt_le_incl, Hbig; lia.
  - rewrite Hk. destruct (Z.ltb_spec emax e).
    + split_and!; [done..|]. unfold key. rewrite Z.min_l; [done|]. apply Hover; [|done].
      apply Hm'. unfold emin, emax in *. lia.
    + split_and!; [simpl; lia|done|]. unfold key.
      rewrite Z.min_r; [done|]. apply Z.lt_le_incl, Hbig; lia.
Qed.

(** A finite number, as an operand. *)
Definition finite (x : f64) : Prop := match x with Fin _ _ _ => f64_wf x | _ => False end.
(** A number that is not NaN, as a result. *)
Definition number (x : f64) : Prop := f64_wf x /\ is_nan x = false.

Lemma finite_number x : finite x -> number x.
Proof. by destruct x; simpl. Qed.
#[export] Hint Resolve finite_number : falak.

Lemma f64_zero_finite s : finite (f64_zero s).
Proof. simpl. unfold emin, emax. lia. Qed.

Lemma key_round_0 d : key_round 0 d = 0.
Proof. done. Qed.

Lemma f64_round_Z_spec s0 n x :
  0 <= x + scale ->
  number (f64_round_Z s0 n x) /\ key (f64_round_Z s0 n x) = key_round (n * 2 ^ (x + scale)) 1.
Proof.
  intros Hx. unfold f64_round_Z. destruct (Z.eqb_spec n 0) as [->|Hn].
  - split; [apply finite_number, f64_zero_finite|]. by destruct s0.
  - destruct (f64_round_spec (n <? 0) (Z.abs n) 1 x) as (H1 & H2 & H3);
      [lia|rewrite Z.div_1_r; lia|done|]. split; [done|]. rewrite H3. do 2 f_equal.
    destruct (Z.ltb_spec n 0); simpl; lia.
Qed.

Lemma signed_mul s m c : signed s m * c = signed s (m * c).
Proof. destruct s; simpl; lia. Qed.

Lemma pow_split e x : x <= e -> 0 <= x + scale -> 2 ^ (e + scale) = 2 ^ (e - x) * 2 ^ (x + scale).
Proof. intros. rewrite <- Z.pow_add_r by lia. f_equal. lia. Qed.

Lemma f64_mul_spec x y :
  finite x -> finite y -> number (f64_mul x y) /\ key (f64_mul x y) = key_round (key x * key y) (2 ^ scale).
Proof.
  destruct x as [| |s m e], y as [| |t n f]; try done. intros (Hm & He) (Hn & Hf). unfold f64_mul.
  assert (Hprod : key (Fin s m e) * key (Fin t n f) = signed (xorb s t) (m * n) * 2 ^ (e + f + scale) * 2 ^ scale).
  { unfold key. rewrite <- Z.mul_assoc, <- Z.pow_add_r by (unfold emin, scale in *; lia).
    replace (e + f + scale + scale) with (e + scale + (f + scale)) by lia.
    rewrite (Z.pow_add_r 2 (e + scale) (f + scale)) by (unfold emin, scale in *; lia). destruct s, t; simpl; lia. }
  rewrite Hprod. destruct (Z.eqb_spec (m * n) 0) as [E|E].
  - split; [apply finite_number, f64_zero_finite|]. rewrite E. by destruct s, t.
  - destruct (f64_round_spec (xorb s t) (m * n) 1 (e + f)) as (H1 & H2 & H3);
      [lia|rewrite Z.div_1_r; nia|unfold emin, scale in *; lia|].
    split; [done|]. rewrite H3. rewrite <- (key_round_scale _ 1 (2 ^ scale)) by (try apply Z.pow_pos_nonneg; unfold scale; lia).
    by rewrite Z.mul_1_l.
Qed.

Lemma key_pos_Fin t n f : finite (Fin t n f) -> 0 < key (Fin t n f) -> t = false /\ 0 < n.
Proof.
  intros (Hn & Hf). unfold key. pose proof (Z.pow_pos_nonneg 2 (f + scale) ltac:(lia) ltac:(unfold emin, scale in *; lia)).
  destruct t; simpl; [nia|]. intros. split; [done|]. nia.
Qed.

Lemma f64_div_spec x y :
  finite x -> finite y -> 0 < key y ->
  number (f64_div x y) /\ key (f64_div x y) = key_round (key x * 2 ^ scale) (key y).
Proof.
  destruct x as [| |s m e], y as [| |t n f]; try done. intros Hx Hy Hpos.
  destruct (key_pos_Fin _ _ _ Hy Hpos) as [-> Hn]. destruct Hx as (Hm & He), Hy as (Hn' & Hf). unfold f64_div.
  destruct (Z.eqb_spec n 0); [lia|]. rewrite xorb_false_r.
  destruct (Z.eqb_spec m 0) as [->|Hm0].
  - split; [apply finite_number, f64_zero_finite|]. by destruct s.
  - assert (Hq : 1 <= m * 2 ^ 120 / n) by (apply Z.div_le_lower_bound; [lia|]; lia).
    destruct (f64_round_spec s (m * 2 ^ 120) n (e - f - 120)) as (H1 & H2 & H3);
      [lia|done|unfold emin, emax, scale in *; lia|].
    split; [done|]. rewrite H3.
    rewrite <- (key_round_scale _ n (2 ^ (f + scale))) by (try apply Z.pow_pos_nonneg; unfold emin, scale in *; lia).
    f_equal. unfold key. rewrite !signed_mul. f_equal.
    rewrite <- !Z.mul_assoc, <- !Z.pow_add_r by (unfold emin, emax, scale in *; lia). do 2 f_equal. lia.
Qed.

(** ** Order *)

Lemma key_lt_big x : finite x -> - big < key x < big.
Proof.
  destruct x as [| |s m e]; try done. intros (Hm & He). unfold key, big.
  assert (0 < 2 ^ (e + scale)) by (apply Z.pow_pos_nonneg; unfold emin, scale in *; lia).
  assert (2 ^ 53 * 2 ^ (e + scale) <= 2 ^ (1024 + scale)).
  { rewrite <- Z.pow_add_r by (unfold emin, scale in *; lia). apply Z.pow_le_mono_r; unfold emax, scale in *; lia. }
  destruct s; simpl signed; nia.
Qed.

Lemma big_pos : 0 < big.
Proof. apply Z.pow_pos_nonneg; unfold scale; lia. Qed.

Lemma number_finite x : number x -> - big < key x < big -> finite x.
Proof. destruct x as [|s|]; [by intros []| |by intros []]. unfold key. destruct s; simpl; lia. Qed.

Lemma f64_compare_spec x y : number x -> number y -> f64_compare x y = Some (key x ?= key y).
Proof.
  intros Hx Hy. pose proof big_pos.
  destruct x as [|s|s m e], y as [|t|t n f]; try (by destruct Hx); try (by destruct Hy).
  - unfold f64_compare, key. f_equal. symmetry. destruct s, t; simpl signed;
      [apply Z.compare_eq_iff|apply Z.compare_lt_iff|apply Z.compare_gt_iff|apply Z.compare_eq_iff]; lia.
  - pose proof (key_lt_big (Fin t n f) (proj1 Hy)). cbn [f64_compare]. f_equal. symmetry.
    destruct s; [apply Z.compare_lt_iff|apply Z.compare_gt_iff]; cbn [key signed] in *; lia.
  - pose proof (key_lt_big (Fin s m e) (proj1 Hx)). cbn [f64_compare]. f_equal. symmetry.
    destruct t; [apply Z.compare_gt_iff|apply Z.compare_lt_iff]; cbn [key signed] in *; lia.
  - destruct Hx as [(Hm & He) _], Hy as [(Hn & Hf) _]. unfold f64_compare, key. f_equal.
    set (x := Z.min e f). rewrite (pow_split e x), (pow_split f x) by (unfold x, emin, scale in *; lia).
    rewrite !Z.mul_assoc, <- !signed_mul.
    apply Zmult_compare_compat_r. apply Z.lt_gt, Z.pow_pos_nonneg; unfold x, emin, scale in *; lia.
Qed.

Lemma f64_lt_spec x y : number x -> number y -> f64_lt x y = (key x <? key y).
Proof. intros. unfold f64_lt, Z.ltb. rewrite f64_compare_spec by done. by destruct (_ ?= _). Qed.

Lemma f64_le_spec x y : number x -> number y -> f64_le x y = (key x <=? key y).
Proof. intros. unfold f64_le, Z.leb. rewrite f64_compare_spec by done. by destruct (_ ?= _). Qed.

Lemma f64_eq_spec x y : number x -> number y -> f64_eq x y = (key x =? key y).
Proof.
  intros. unfold f64_eq. rewrite f64_compare_spec by done.
  destruct (Z.eqb_spec (key x) (key y)) as [E|E]; [by rewrite E, Z.compare_refl|].
  destruct (Z.compare_spec (key x) (key y)); done.
Qed.

(** ** Derived facts *)

(** A double rounds to itself. *)
Lemma key_round_id x d : finite x -> 0 < d -> key_round (key x * d) d = key x.
Proof.
  intros Hx Hd. pose proof (key_round_scale (key x) 1 d ltac:(lia) Hd) as Hsc. rewrite Z.mul_1_l in Hsc.
  rewrite Hsc. clear Hsc Hd d. pose proof (key_lt_big x Hx) as Hb.
  destruct x as [| |s m e]; try done. destruct Hx as (Hm & He). unfold key in *.
  set (p := 2 ^ (e + scale)) in *. assert (Hp : 0 < p) by (apply Z.pow_pos_nonneg; unfold emin, scale in *; lia).
  unfold key_round. replace (Z.abs (signed s (m * p))) with (m * p) by (destruct s; simpl signed; nia).
  destruct (Z.eq_dec m 0) as [->|Hm0]; [by destruct s|].
  assert (Hmag : key_mag (m * p) 1 = m * p).
  { unfold key_mag. set (u := key_ulp (m * p) 1). rewrite Z.mul_1_l.
    assert (Hu : u <= e + scale).
    { unfold u, key_ulp. rewrite Z.div_1_r. unfold p. rewrite Z.log2_mul_pow2 by (unfold emin, scale in *; lia).
      assert (Z.log2 m < 53) by (apply Z.log2_lt_pow2; lia). lia. }
    pose proof (key_ulp_pos (m * p) 1) as Hu0. fold u in Hu0.
    assert (Hsplit : m * p = m * 2 ^ (e + scale - u) * 2 ^ u).
    { rewrite <- Z.mul_assoc, <- Z.pow_add_r by lia. unfold p. do 2 f_equal. lia. }
    rewrite Hsplit. rewrite rne_exact; [done|]. apply Z.pow_pos_nonneg; lia. }
  rewrite Hmag. destruct s; simpl signed in *; [rewrite Z.sgn_neg by nia|rewrite Z.sgn_pos by nia]; lia.
Qed.

(** Adding a zero returns the other operand. *)
Lemma f64_add_0 x y :
  finite x -> finite y -> key x = 0 \/ key y = 0 ->
  finite (f64_add x y) /\ key (f64_add x y) = key x + key y.
Proof.
  destruct x as [| |s m e], y as [| |t n f]; try done. intros Hx Hy Hz.
  assert (H0 : forall s m e, finite (Fin s m e) -> key (Fin s m e) = 0 <-> m = 0).
  { clear. intros s m e (Hm & He). unfold key.
    assert (0 < 2 ^ (e + scale)) by (apply Z.pow_pos_nonneg; unfold emin, scale in *; lia).
    destruct s; simpl signed; nia. }
  rewrite !H0 in Hz by done. unfold f64_add.
  destruct (Z.eqb_spec n 0) as [->|Hn].
  - rewrite (proj2 (H0 t 0 f Hy) eq_refl), Z.add_0_r. destruct (Z.eqb_spec m 0) as [->|Hm]; [|done].
    rewrite (proj2 (H0 s 0 e Hx) eq_refl). split; [apply f64_zero_finite|]. by destruct s, t.
  - destruct (Z.eqb_spec m 0) as [->|Hm]; [|naive_solver].
    by rewrite (proj2 (H0 s 0 e Hx) eq_refl).
Qed.

Lemma f64_add_spec x y :
  finite x -> finite y -> number (f64_add x y) /\ key (f64_add x y) = key_round (key x + key y) 1.
Proof.
  intros Hx Hy. destruct (decide (key x = 0 \/ key y = 0)) as [Hz|Hz].
  { destruct (f64_add_0 x y Hx Hy Hz) as [Hf Hk]. split; [auto with falak|]. rewrite Hk.
    destruct Hz as [E|E]; rewrite E, ?Z.add_0_l, ?Z.add_0_r; symmetry;
      [rewrite <- (Z.mul_1_r (key y)) at 1|rewrite <- (Z.mul_1_r (key x)) at 1]; apply key_round_id; (done || lia). }
  destruct x as [| |s m e], y as [| |t n f]; try done. pose proof Hx as (Hm & He). pose proof Hy as (Hn & Hf).
  unfold f64_add. destruct (Z.eqb_spec n 0) as [->|]; [destruct Hz; right; by destruct t|].
  destruct (Z.eqb_spec m 0) as [->|]; [destruct Hz; left; by destruct s|]. cbv zeta.
  set (x := Z.min e f). assert (Hxs : 0 <= x + scale) by (unfold x, emin, scale in *; lia).
  destruct (f64_round_Z_spec false (signed s (m * 2 ^ (e - x)) + signed t (n * 2 ^ (f - x))) x Hxs) as [H1 H2].
  split; [done|]. rewrite H2. f_equal. rewrite Z.mul_add_distr_r, !signed_mul. unfold key.
  rewrite (pow_split e x), (pow_split f x) by lia. f_equal; f_equal; lia.
Qed.

(** A double bounds the rounding of everything it bounds. *)
Lemma key_round_le x n d : finite x -> 0 < d -> n <= key x * d -> key_round n d <= key x.
Proof. intros Hx Hd Hn. rewrite <- (key_round_id x d Hx Hd). by apply key_round_mono; [..|apply Z.mul_le_mono_nonneg_r; [lia|]]. Qed.

Lemma key_round_ge x n d : finite x -> 0 < d -> key x * d <= n -> key x <= key_round n d.
Proof. intros Hx Hd Hn. rewrite <- (key_round_id x d Hx Hd). by apply key_round_mono; [..|apply Z.mul_le_mono_nonneg_r; [lia|]]. Qed.

Lemma key_opp x : key (f64_opp x) = - key x.
Proof. destruct x as [|s|s m e]; simpl; [done|destruct s..]; simpl; lia. Qed.

Lemma finite_opp x : finite x -> finite (f64_opp x).
Proof. by destruct x. Qed.

Lemma f64_sub_spec x y :
  finite x -> finite y -> number (f64_sub x y) /\ key (f64_sub x y) = key_round (key x - key y) 1.
Proof.
  intros Hx Hy. unfold f64_sub. destruct (f64_add_spec x (f64_opp y) Hx (finite_opp _ Hy)) as [H1 H2].
  split; [done|]. rewrite H2, key_opp. done.
Qed.

Lemma scale_pos : 0 < 2 ^ scale.
Proof. apply Z.pow_pos_nonneg; unfold scale; lia. Qed.

Lemma key_add x y : finite x -> finite y -> key (f64_add x y) = key_round (key x + key y) 1.
Proof. intros. by apply f64_add_spec. Qed.
Lemma key_sub x y : finite x -> finite y -> key (f64_sub x y) = key_round (key x - key y) 1.
Proof. intros. by apply f64_sub_spec. Qed.
Lemma key_mul x y : finite x -> finite y -> key (f64_mul x y) = key_round (key x * key y) (2 ^ scale).
Proof. intros. by apply f64_mul_spec. Qed.
Lemma key_div x y : finite x -> finite y -> 0 < key y -> key (f64_div x y) = key_round (key x * 2 ^ scale) (key y).
Proof. intros. by apply f64_div_spec. Qed.

Lemma f64_add_mono x y x' y'  :
  finite x -> finite y -> finite x' -> finite y' -> key x <= key x' -> key y <= key y' ->
  key (f64_add x y) <= key (f64_add x' y').
Proof.
  intros. rewrite !key_add by done.
  apply key_round_mono; lia.
Qed.

Lemma f64_sub_mono x y x' y' :
  finite x -> finite y -> finite x' -> finite y' -> key x <= key x' -> key y' <= key y ->
  key (f64_sub x y) <= key (f64_sub x' y').
Proof.
  intros. rewrite !key_sub by done.
  apply key_round_mono; lia.
Qed.

Lemma f64_mul_mono x y x' y' :
  finite x -> finite y -> finite x' -> finite y' ->
  0 <= key x <= key x' -> 0 <= key y <= key y' ->
  key (f64_mul x y) <= key (f64_mul x' y').
Proof.
  intros. rewrite !key_mul by done.
  pose proof scale_pos. apply key_round_mono; [lia..|]. apply Z.mul_le_mono_nonneg_r; [lia|]. nia.
Qed.

Lemma f64_div_mono x x' y :
  finite x -> finite x' -> finite y -> 0 < key y -> key x <= key x' ->
  key (f64_div x y) <= key (f64_div x' y).
Proof.
  intros. rewrite !key_div by done.
  pose proof scale_pos. apply key_round_mono; [lia..|]. do 2 (apply Z.mul_le_mono_nonneg_r; [lia|]). done.
Qed.

Lemma key_round_nonneg n d : 0 < d -> 0 <= n -> 0 <= key_round n d.
Proof. intros. rewrite <- (key_round_0 d). apply key_round_mono; lia. Qed.

(** Truncation of a non-negative number is the integer part of its value. *)
Lemma f64_to_int64_spec `{GoConv} x :
  finite x -> 0 <= key x -> key x <= max_int64 * 2 ^ scale -> f64_to_int64 x = key x / 2 ^ scale.
Proof.
  destruct x as [| |s m e]; try done. intros (Hm & He) H0 H1. unfold key in H0, H1 |- *.
  assert (Hp : 0 < 2 ^ (e + scale)) by (apply Z.pow_pos_nonneg; unfold emin, scale in *; lia).
  pose proof scale_pos as Hs.
  assert (Ht : f64_trunc m e = m * 2 ^ (e + scale) / 2 ^ scale).
  { unfold f64_trunc. destruct (Z.leb_spec 0 e).
    - rewrite Z.pow_add_r, Z.mul_assoc, Z_div_mult by (unfold scale in *; lia). done.
    - replace (2 ^ scale) with (2 ^ (- e) * 2 ^ (e + scale))
        by (rewrite <- Z.pow_add_r by (unfold emin, scale in *; lia); f_equal; lia).
      rewrite Z.div_mul_cancel_r; [done| |lia]. apply Z.pow_nonzero; lia. }
  assert (Hsig : signed s (f64_trunc m e) = signed s (m * 2 ^ (e + scale)) / 2 ^ scale).
  { rewrite Ht. destruct s; simpl signed in *; [|done].
    assert (m * 2 ^ (e + scale) = 0) as -> by nia. done. }
  unfold f64_to_int64. rewrite Hsig.
  assert (Hhi : signed s (m * 2 ^ (e + scale)) / 2 ^ scale <= max_int64).
  { apply Z.div_le_upper_bound; [lia|]. lia. }
  pose proof (Z.div_pos _ _ H0 Hs) as Hlo.
  destruct (Z.leb_spec min_int64 (signed s (m * 2 ^ (e + scale)) / 2 ^ scale)) as [Hl|Hl];
    [|unfold min_int64 in Hl; lia].
  by destruct (Z.leb_spec (signed s (m * 2 ^ (e + scale)) / 2 ^ scale) max_int64); [|lia].
Qed.

(** ** Integers as doubles *)

Lemma f64_of_Z_spec i : number (f64_of_Z i) /\ key (f64_of_Z i) = key_round (i * 2 ^ scale) 1.
Proof. apply (f64_round_Z_spec false i 0). unfold scale. lia. Qed.

Lemma f64_of_Z_mono i j : i <= j -> key (f64_of_Z i) <= key (f64_of_Z j).
Proof.
  intros. rewrite !(proj2 (f64_of_Z_spec _)). pose proof scale_pos. apply key_round_mono; nia.
Qed.

(** Evaluates a closed statement about keys without expanding their powers. *)
Lemma f64_le_key x y : number x -> number y -> f64_le x y = true -> key x <= key y.
Proof. intros Hx Hy. rewrite f64_le_spec by done. apply Z.leb_le. Qed.

Lemma f64_lt_key x y : number x -> number y -> f64_lt x y = true -> key x < key y.
Proof. intros Hx Hy. rewrite f64_lt_spec by done. apply Z.ltb_lt. Qed.

(** [x] is a number of the closed interval. *)
Definition between (a b x : f64) : Prop := finite x /\ f64_le a x = true /\ f64_le x b = true.

(** ** Deciding well-formedness, and closure of the operations *)

Definition finiteb (x : f64) : bool :=
  match x with
  | Fin _ m e => (0 <=? m) && (m <? 2 ^ 53) && (emin <=? e) && (e <=? emax)
  | _ => false
  end.

Lemma finiteb_finite x : finiteb x = true -> finite x.
Proof. destruct x; simpl; try done. rewrite !andb_true_iff, !Z.leb_le, Z.ltb_lt. lia. Qed.

Lemma f64_round_wf s n d x : 0 < d -> 1 <= n / d -> 0 <= x + scale -> f64_wf (f64_round s n d x).
Proof. intros. by apply f64_round_spec. Qed.

Lemma f64_round_Z_wf s n x : 0 <= x + scale -> f64_wf (f64_round_Z s n x).
Proof. intros. by apply f64_round_Z_spec. Qed.

Lemma f64_opp_wf x : f64_wf x -> f64_wf (f64_opp x).
Proof. by destruct x. Qed.

Lemma f64_add_wf x y : f64_wf x -> f64_wf y -> f64_wf (f64_add x y).
Proof.
  destruct x as [|s|s m e], y as [|t|t n f]; try done; [by simpl; destruct (eqb s t)|].
  intros Hx Hy. apply (f64_add_spec (Fin s m e) (Fin t n f) Hx Hy).
Qed.

Lemma f64_sub_wf x y : f64_wf x -> f64_wf y -> f64_wf (f64_sub x y).
Proof. intros. apply f64_add_wf; [done|]. by apply f64_opp_wf. Qed.

Lemma f64_mul_wf x y : f64_wf x -> f64_wf y -> f64_wf (f64_mul x y).
Proof.
  destruct x as [|s|s m e], y as [|t|t n f]; try done; try (by simpl; case_match).
  intros Hx Hy. apply (f64_mul_spec (Fin s m e) (Fin t n f) Hx Hy).
Qed.

Lemma f64_div_wf x y : f64_wf x -> f64_wf y -> f64_wf (f64_div x y).
Proof.
  destruct x as [|s|s m e], y as [|t|t n f]; try done.
  intros [Hm He] [Hn Hf]. unfold f64_div. destruct (Z.eqb_spec n 0); [by case_match|].
  destruct (Z.eqb_spec m 0); [apply f64_zero_finite|].
  apply f64_round_wf; [lia| |unfold emin, emax, scale in *; lia]. apply Z.div_le_lower_bound; lia.
Qed.

Lemma f64_of_Z_wf i : f64_wf (f64_of_Z i).
Proof. apply f64_of_Z_spec. Qed.
#[export] Hint Resolve f64_opp_wf f64_add_wf f64_sub_wf f64_mul_wf f64_div_wf f64_of_Z_wf : falak.

(** Comparisons with NaN are false. *)
Lemma f64_lt_nan_l y : f64_lt NaN y = false.
Proof. done. Qed.
Lemma f64_lt_nan_r x : f64_lt x NaN = false.
Proof. by destruct x. Qed.

Lemma nan_or_number x : f64_wf x -> x = NaN \/ number x.
Proof. destruct x; [by left|by right..]. Qed.

(** ** Exact integers *)

Lemma key_of_Z_exact i : - 2 ^ 53 < i < 2 ^ 53 -> key (f64_of_Z i) = i * 2 ^ scale.
Proof.
  intros Hi. rewrite (proj2 (f64_of_Z_spec i)).
  set (x := Fin (i <? 0) (Z.abs i) 0).
  assert (Hx : finite x) by (simpl; unfold emin, emax; lia).
  assert (Hk : key x = i * 2 ^ scale).
  { unfold x, key. rewrite Z.add_0_l. destruct (Z.ltb_spec i 0); simpl signed; lia. }
  rewrite <- Hk at 1. rewrite <- (Z.mul_1_r (key x)). rewrite key_round_id by (done || lia). done.
Qed.

Lemma finite_between x a b : number x -> finite a -> finite b -> key a <= key x <= key b -> finite x.
Proof. intros Hx Ha%key_lt_big Hb%key_lt_big Hk. apply number_finite; [done|lia]. Qed.

Lemma finite_of_int64 i : in_int64 i -> finite (f64_of_Z i).
Proof.
  intros [Hl Hu]. apply (finite_between _ (f64_of_Z min_int64) (f64_of_Z max_int64)).
  - apply f64_of_Z_spec.
  - apply finiteb_finite. vm_compute. reflexivity.
  - apply finiteb_finite. vm_compute. reflexivity.
  - split; by apply f64_of_Z_mono.
Qed.

Lemma key_of_Z_nonneg i : 0 <= i -> 0 <= key (f64_of_Z i).
Proof. intros. change 0 with (key (f64_of_Z 0)) at 1. by apply f64_of_Z_mono. Qed.

Lemma key_of_Z_pos i : 0 < i -> 0 < key (f64_of_Z i).
Proof.
  intros. pose proof (f64_of_Z_mono 1 i ltac:(lia)) as Hm. rewrite (key_of_Z_exact 1) in Hm by lia.
  pose proof scale_pos. lia.
Qed.
