(* ===== verification/Strconv.v ===== *)
(** * The parts of Go's [strings] and [strconv] packages the program uses

    Strings are byte sequences.  [strings.TrimSpace] and [strings.Fields] cut
    at the white space of Unicode in its UTF-8 encoding; [strconv.Atoi] and
    [strconv.ParseFloat] accept the syntax the package documents and
    [ParseFloat] rounds the exact value to the nearest double. *)

From S2P Require Import Prelude Float64.
Local Open Scope string_scope.
Local Open Scope list_scope.
Local Open Scope Z_scope.

(** ** [strconv.Atoi] *)

Definition digit (c : ascii) : option Z :=
  let n := Z.of_N (N_of_ascii c) in
  if (48 <=? n) && (n <=? 57) then Some (n - 48) else None.

Fixpoint digits (acc : Z) (s : string) : option Z :=
  match s with
  | EmptyString => Some acc
  | String c s' => match digit c with Some d => digits (acc * 10 + d) s' | None => None end
  end.

Definition in_int (z : Z) : option Z := if (min_int64 <=? z) && (z <=? max_int64) then Some z else None.

(** A decimal integer with an optional sign, in the range of [int]. *)
Definition strconv_Atoi (s : string) : option Z :=
  match s with
  | EmptyString => None
  | String "-" EmptyString | String "+" EmptyString => None
  | String "-" s' => match digits 0 s' with Some n => in_int (- n) | None => None end
  | String "+" s' => match digits 0 s' with Some n => in_int n | None => None end
  | _ => match digits 0 s with Some n => in_int n | None => None end
  end.

(** ** White space *)

Definition code (c : ascii) : Z := Z.of_N (N_of_ascii c).

(** The length of the white-space rune [s] starts with, or 0. *)
Definition space_len (s : string) : nat :=
  match s with
  | EmptyString => O
  | String a r =>
      if ((9 <=? code a) && (code a <=? 13)) || (code a =? 32) then 1%nat
      else match r with
      | EmptyString => O
      | String b r' =>
          if (code a =? 194) && ((code b =? 133) || (code b =? 160)) then 2%nat   (* U+0085, U+00A0 *)
          else match r' with
          | EmptyString => O
          | String c _ =>
              if ((code a =? 225) && (code b =? 154) && (code c =? 128))      (* U+1680 *)
                 || ((code a =? 226) && (code b =? 128) && (128 <=? code c) && (code c <=? 138))   (* U+2000 - U+200A *)
                 || ((code a =? 226) && (code b =? 128) && ((code c =? 168) || (code c =? 169) || (code c =? 175)))
                 || ((code a =? 226) && (code b =? 129) && (code c =? 159))   (* U+205F *)
                 || ((code a =? 227) && (code b =? 128) && (code c =? 128))   (* U+3000 *)
              then 3%nat else O
          end
      end
  end.

(** In the loops below [skip] counts the bytes left of a rune already read. *)

Fixpoint trim_left (skip : nat) (s : string) : string :=
  match s with
  | EmptyString => EmptyString
  | String _ s' =>
      match skip with
      | S k => trim_left k s'
      | O => match space_len s with O => s | S k => trim_left k s' end
      end
  end.

Fixpoint all_space (skip : nat) (s : string) : bool :=
  match s with
  | EmptyString => true
  | String _ s' =>
      match skip with
      | S k => all_space k s'
      | O => match space_len s with O => false | S k => all_space k s' end
      end
  end.

Fixpoint trim_right (s : string) : string :=
  if all_space 0 s then EmptyString
  else match s with EmptyString => EmptyString | String c s' => String c (trim_right s') end.

Definition strings_TrimSpace (s : string) : string := trim_right (trim_left 0 s).

Definition flush (cur : string) : list string := if cur =s "" then [] else [cur].

Fixpoint fields_from (skip : nat) (cur : string) (s : string) : list string :=
  match s with
  | EmptyString => flush cur
  | String c s' =>
      match skip with
      | S k => fields_from k cur s'
      | O => match space_len s with
             | O => fields_from 0 (cur +:+ String c EmptyString) s'
             | S k => flush cur ++ fields_from k EmptyString s'
             end
      end
  end.

Definition strings_Fields (s : string) : list string := fields_from 0 EmptyString s.

(** [strings.HasPrefix(s, p)] *)
Definition strings_HasPrefix (s p : string) : bool := String.prefix p s.

(** [strings.HasSuffix(s, suf)] together with [strings.TrimSuffix(s, suf)]. *)
Fixpoint strip_suffix (suf s : string) : option string :=
  if s =s suf then Some EmptyString
  else match s with
       | EmptyString => None
       | String c s' => String c <$> strip_suffix suf s'
       end.

(** ** [strconv.ParseFloat] *)

Inductive NumError := ErrSyntax | ErrRange.

(** [c | ('x' - 'X')] *)
Definition lower (c : ascii) : ascii := ascii_of_N (N.lor (N_of_ascii c) 32).

Fixpoint lower_string (s : string) : string :=
  match s with EmptyString => EmptyString | String c s' => String (lower c) (lower_string s') end.

Definition hex_digit (c : ascii) : option Z :=
  let n := code (lower c) in if (97 <=? n) && (n <=? 102) then Some (n - 87) else None.

Definition is_underscore (c : ascii) : bool := (code c =? 95).
Definition is_dot (c : ascii) : bool := (code c =? 46).

(** An optional sign: whether it is a minus, and the rest. *)
Definition read_sign (s : string) : bool * string :=
  match s with
  | String c s' => if code c =? 43 then (false, s') else if code c =? 45 then (true, s') else (false, s)
  | EmptyString => (false, s)
  end.

(** Infinities and not-a-number, in any case of letters. *)
Definition special (s : string) : option f64 :=
  let '(neg, s') := read_sign s in
  if (lower_string s' =s "inf") || (lower_string s' =s "infinity") then Some (Inf neg)
  else if lower_string s =s "nan" then Some NaN
  else None.

Record scan := { sawDot : bool; sawDigits : bool; underscores : bool; mant : Z; frac : Z }.

Definition push (base d : Z) (st : scan) : scan :=
  {| sawDot := sawDot st; sawDigits := true; underscores := underscores st; mant := mant st * base + d;
     frac := if sawDot st then frac st + 1 else frac st |}.

(** The mantissa: digits with at most one dot, underscores skipped. *)
Fixpoint read_mantissa (hex : bool) (st : scan) (s : string) : scan * string :=
  match s with
  | EmptyString => (st, EmptyString)
  | String c s' =>
      if is_underscore c then
        read_mantissa hex {| sawDot := sawDot st; sawDigits := sawDigits st; underscores := true; mant := mant st; frac := frac st |} s'
      else if is_dot c then
        if sawDot st then (st, s)
        else read_mantissa hex {| sawDot := true; sawDigits := sawDigits st; underscores := underscores st; mant := mant st; frac := frac st |} s'
      else match digit c with
           | Some d => read_mantissa hex (push (if hex then 16 else 10) d st) s'
           | None =>
               match (if hex then hex_digit c else None) with
               | Some d => read_mantissa hex (push 16 d st) s'
               | None => (st, s)
               end
           end
  end.

(** The digits of the exponent, which stops growing at 10000: its value,
    whether it has underscores, and the rest. *)
Fixpoint read_exponent (e : Z) (us : bool) (s : string) : Z * bool * string :=
  match s with
  | EmptyString => (e, us, EmptyString)
  | String c s' =>
      if is_underscore c then read_exponent e true s'
      else match digit c with
           | Some d => read_exponent (if e <? 10000 then e * 10 + d else e) us s'
           | None => (e, us, s)
           end
  end.

(** The class of the last character read by [underscoreOK]. *)
Inductive last_char := LStart | LDigit | LUnderscore | LOther.

Fixpoint underscores_from (hex : bool) (i : last_char) (s : string) : bool :=
  match s with
  | EmptyString => match i with LUnderscore => false | _ => true end
  | String c s' =>
      match digit c, (if hex then hex_digit c else None) with
      | Some _, _ | _, Some _ => underscores_from hex LDigit s'
      | None, None =>
          if is_underscore c then match i with LDigit => underscores_from hex LUnderscore s' | _ => false end
          else match i with LUnderscore => false | _ => underscores_from hex LOther s' end
      end
  end.

Definition underscoreOK (s : string) : bool :=
  match snd (read_sign s) with
  | String z (String b s') as t =>
      let l := code (lower b) in
      if (code z =? 48) && ((l =? 98) || (l =? 111) || (l =? 120))
      then underscores_from (l =? 120) LDigit s' else underscores_from false LStart t
  | t => underscores_from false LStart t
  end.

Definition hex_prefix (s : string) : option string :=
  match s with
  | String z (String x (String c s')) => if (code z =? 48) && (code (lower x) =? 120) then Some (String c s') else None
  | _ => None
  end.

(** The exponent part: [Some (e, underscores, rest)], or [None] when it is
    malformed (or missing from a hexadecimal number). *)
Definition read_exp_part (hex : bool) (s : string) : option (Z * bool * string) :=
  match s with
  | String c s' =>
      if code (lower c) =? (if hex then 112 else 101) then
        let '(eneg, s2) := read_sign s' in
        match s2 with
        | String d _ =>
            match digit d with
            | Some _ => let '(e, us, rest) := read_exponent 0 false s2 in Some (signed eneg e, us, rest)
            | None => None
            end
        | EmptyString => None
        end
      else if hex then None else Some (0, false, s)
  | EmptyString => if hex then None else Some (0, false, EmptyString)
  end.

(** The double nearest to [n / d], negated if [neg]. *)
Definition f64_ratio (neg : bool) (n d : Z) : f64 :=
  if n =? 0 then f64_zero neg
  else let k := if d =? 1 then 0 else Z.log2 d + 1 in f64_round neg (n * 2 ^ k) d (- k).

(** [m * base ^ e] *)
Definition scaled (neg : bool) (base m e : Z) : f64 :=
  if 0 <=? e then f64_ratio neg (m * base ^ e) 1 else f64_ratio neg m (base ^ (- e)).

Definition readFloat (s : string) : option f64 :=
  let '(neg, s1) := read_sign s in
  let '(hex, s2) := match hex_prefix s1 with Some r => (true, r) | None => (false, s1) end in
  let '(st, s3) := read_mantissa hex {| sawDot := false; sawDigits := false; underscores := false; mant := 0; frac := 0 |} s2 in
  if negb (sawDigits st) then None
  else match read_exp_part hex s3 with
       | Some (e, us, EmptyString) =>
           if (underscores st || us) && negb (underscoreOK s) then None
           else Some (if hex then scaled neg 2 (mant st) (e - 4 * frac st) else scaled neg 10 (mant st) (e - frac st))
       | _ => None
       end.

Definition strconv_ParseFloat (s : string) : result NumError f64 :=
  match special s with
  | Some f => Ok f
  | None =>
      match readFloat s with
      | None => Err ErrSyntax
      | Some (Inf _) => Err ErrRange
      | Some f => Ok f
      end
  end.

Example parse_half : strconv_ParseFloat "0.5" = Ok (f64_const 1 2).
Proof. vm_compute. reflexivity. Qed.
Example parse_exp : strconv_ParseFloat "-1_2.5e+1" = Ok (f64_of_Z (-125)).
Proof. vm_compute. reflexivity. Qed.
Example parse_hex : strconv_ParseFloat "0x1p-2" = Ok (f64_const 1 4).
Proof. vm_compute. reflexivity. Qed.
Example parse_bad : map strconv_ParseFloat [""; "_1"; "1_"; "0x1"; "1e"; "1.2.3"; "infin"; "1e400"]
  = repeat (Err ErrSyntax) 7 ++ [Err ErrRange].
Proof. vm_compute. reflexivity. Qed.
Example fields_words : strings_Fields "  cpu  > 70% " = ["cpu"; ">"; "70%"].
Proof. vm_compute. reflexivity. Qed.
Example trims : strings_TrimSpace "  a b " = "a b".
Proof. vm_compute. reflexivity. Qed.

(** ** Printable text *)

Fixpoint text (lo : Z) (s : string) : bool :=
  match s with EmptyString => true | String c s' => (lo <=? code c) && (code c <=? 126) && text lo s' end.

(** A word of printable characters without blanks. *)
Definition word (s : string) : Prop := text 33 s = true /\ s <> "".

Lemma text_app lo a b : text lo (a +:+ b) = text lo a && text lo b.
Proof.
  induction a as [|c a IH]; [done|]. change (String c a +:+ b) with (String c (a +:+ b)). cbn [text].
  by rewrite IH, andb_assoc.
Qed.

Lemma text_weaken s : text 33 s = true -> text 32 s = true.
Proof. induction s as [|c s IH]; simpl; [done|]. rewrite !andb_true_iff, !Z.leb_le. intros [[? ?] ?]. split_and!; [lia..|auto]. Qed.

Lemma space_len_text c s : text 32 (String c EmptyString) = true -> space_len (String c s) = if code c =? 32 then 1%nat else 0%nat.
Proof.
  simpl. rewrite !andb_true_iff, !Z.leb_le. intros [[Hlo Hhi] _].
  assert (Hhigh : forall k, 127 <= k -> (code c =? k) = false) by (intros; apply Z.eqb_neq; lia).
  rewrite !(Hhigh 194), !(Hhigh 225), !(Hhigh 226), !(Hhigh 227) by lia. cbn [andb orb].
  destruct (Z.leb_spec 9 (code c)), (Z.leb_spec (code c) 13); try lia. cbn [andb orb].
  destruct (code c =? 32); [done|]. by repeat case_match.
Qed.

Lemma text_cons lo c s : text lo (String c s) = true <-> text lo (String c EmptyString) = true /\ text lo s = true.
Proof. simpl. rewrite !andb_true_iff. naive_solver. Qed.

Lemma space_len_word c s : text 33 (String c EmptyString) = true -> space_len (String c s) = 0%nat.
Proof.
  intros Hc. rewrite space_len_text by by apply text_weaken.
  simpl in Hc. rewrite !andb_true_iff, Z.leb_le in Hc. destruct (Z.eqb_spec (code c) 32); [lia|done].
Qed.

Lemma fields_word cur w rest :
  text 33 w = true -> fields_from 0 cur (w +:+ rest) = fields_from 0 (cur +:+ w) rest.
Proof.
  revert cur. induction w as [|c w IH]; intros cur Hw; [by rewrite string_app_nil_r|].
  apply text_cons in Hw as [Hc Hw]. change (String c w +:+ rest) with (String c (w +:+ rest)).
  cbn [fields_from]. rewrite space_len_word by done. rewrite IH by done. by rewrite string_app_assoc.
Qed.

Lemma flush_word w : word w -> flush w = [w].
Proof. intros [_ Hne]. unfold flush. by destruct (String.eqb_spec w ""). Qed.

Lemma fields_cons w s : word w -> strings_Fields (w +:+ " " +:+ s) = w :: strings_Fields s.
Proof.
  intros Hw. unfold strings_Fields. rewrite fields_word by apply Hw.
  change (flush w ++ fields_from 0 "" s = w :: fields_from 0 "" s). by rewrite flush_word.
Qed.

Lemma fields_one w : word w -> strings_Fields w = [w].
Proof.
  intros Hw. unfold strings_Fields. rewrite <- (string_app_nil_r w) at 1. rewrite fields_word by apply Hw.
  change (flush w = [w]). by apply flush_word.
Qed.

(** Trimming keeps a text that starts and ends with a word. *)
Lemma all_space_text s w : text 32 s = true -> word w -> all_space 0 (s +:+ w) = false.
Proof.
  intros Hs [Hw Hne]. induction s as [|c s IH].
  - destruct w as [|c w]; [done|]. apply text_cons in Hw as [Hc _].
    change ("" +:+ String c w) with (String c w). cbn [all_space]. by rewrite space_len_word.
  - apply text_cons in Hs as [Hc Hs]. change (String c s +:+ w) with (String c (s +:+ w)). cbn [all_space].
    rewrite space_len_text by done. destruct (code c =? 32); [by apply IH|done].
Qed.

Lemma trim_right_text s w : text 32 s = true -> word w -> trim_right (s +:+ w) = s +:+ w.
Proof.
  intros Hs Hw. induction s as [|c s IH].
  - change ("" +:+ w) with w. destruct Hw as [Hw Hne]. clear Hne. induction w as [|c w IH]; [done|].
    cbn [trim_right]. pose proof Hw as [Hc Hw']%text_cons. cbn [all_space]. rewrite space_len_word by done.
    by rewrite IH.
  - apply text_cons in Hs as [Hc Hs]. change (String c s +:+ w) with (String c (s +:+ w)). cbn [trim_right].
    change (String c (s +:+ w)) with (String c s +:+ w). rewrite all_space_text; [|by apply text_cons|done].
    change (String c s +:+ w) with (String c (s +:+ w)). by rewrite IH.
Qed.

Lemma TrimSpace_text a s w : word a -> text 32 s = true -> word w -> strings_TrimSpace (a +:+ s +:+ w) = a +:+ s +:+ w.
Proof.
  intros [Ha Hne] Hs Hw. unfold strings_TrimSpace.
  assert (Hl : trim_left 0 (a +:+ s +:+ w) = a +:+ s +:+ w).
  { destruct a as [|c a]; [done|]. apply text_cons in Ha as [Hc _]. change (String c a +:+ s +:+ w) with (String c (a +:+ s +:+ w)).
    cbn [trim_left]. by rewrite space_len_word. }
  rewrite Hl, <- string_app_assoc. apply trim_right_text; [|done]. rewrite text_app, (text_weaken a Ha). done.
Qed.

(** ** Suffixes *)

Lemma strip_suffix_app s suf : strip_suffix suf (s +:+ suf) = Some s.
Proof.
  induction s as [|c s IH].
  - change ("" +:+ suf) with suf. destruct suf; cbn [strip_suffix]; by rewrite String.eqb_refl.
  - change (String c s +:+ suf) with (String c (s +:+ suf)). cbn [strip_suffix].
    destruct (String.eqb_spec (String c (s +:+ suf)) suf) as [E|_]; [|by rewrite IH].
    apply (f_equal String.length) in E. simpl in E. rewrite string_length_app in E. lia.
Qed.

(** ** Decimal numerals *)

(** [s] is a decimal numeral of value [v]. *)
Definition numeral (s : string) (v : Z) : Prop := s <> "" /\ digits 0 s = Some v.

Lemma digit_code c d : digit c = Some d -> 48 <= code c <= 57 /\ d = code c - 48.
Proof.
  unfold digit. fold (code c). destruct (Z.leb_spec 48 (code c)), (Z.leb_spec (code c) 57); simpl; try done.
  intros [= <-]. lia.
Qed.

Lemma digit_lower c d : digit c = Some d -> lower c = c.
Proof. destruct c as [[] [] [] [] [] [] [] []]; vm_compute; done. Qed.

Lemma digits_text acc s v : digits acc s = Some v -> text 33 s = true.
Proof.
  revert acc. induction s as [|c s IH]; intros acc; simpl; [done|]. destruct (digit c) eqn:Ed; [|done].
  apply digit_code in Ed as [? _]. intros Hs. rewrite (IH _ Hs). rewrite !andb_true_iff, !Z.leb_le. lia.
Qed.

Lemma digits_mono acc s v : 0 <= acc -> digits acc s = Some v -> 0 <= v.
Proof.
  revert acc. induction s as [|c s IH]; intros acc Ha; simpl; [by intros [= <-]|]. destruct (digit c) eqn:Ed; [|done].
  apply digit_code in Ed as [? ?]. intros Hs. eapply IH; [|done]. lia.
Qed.

Lemma read_mantissa_digits st s v :
  sawDot st = false -> digits (mant st) s = Some v ->
  read_mantissa false st s =
    ({| sawDot := false; sawDigits := sawDigits st || negb (s =s ""); underscores := underscores st; mant := v; frac := frac st |}, "").
Proof.
  revert st. induction s as [|c s IH]; intros st Hdot; cbn [digits].
  { intros [= <-]. cbn. rewrite orb_false_r, <- Hdot. by destruct st. }
  destruct (digit c) as [d|] eqn:Ed; [|done]. intros Hs. cbn [read_mantissa]. rewrite Ed.
  apply digit_code in Ed as [Hc _]. unfold is_underscore, is_dot.
  destruct (Z.eqb_spec (code c) 95), (Z.eqb_spec (code c) 46); try lia.
  rewrite IH by done. unfold push. cbn. rewrite Hdot. by rewrite orb_true_r.
Qed.

Lemma numeral_sign s v : numeral s v -> read_sign s = (false, s).
Proof.
  intros [Hne Hs]. destruct s as [|c s]; [done|]. cbn in Hs. destruct (digit c) eqn:Ed; [|done].
  apply digit_code in Ed as [Hc _]. unfold read_sign. destruct (Z.eqb_spec (code c) 43), (Z.eqb_spec (code c) 45); lia || done.
Qed.

Lemma numeral_not_special s v : numeral s v -> special s = None.
Proof.
  intros Hn. unfold special. rewrite (numeral_sign s v Hn). destruct Hn as [Hne Hs]. destruct s as [|c s]; [done|].
  cbn in Hs. destruct (digit c) eqn:Ed; [|done]. cbn [lower_string]. rewrite (digit_lower _ _ Ed).
  apply digit_code in Ed as [Hc _]. cbn [String.eqb].
  assert (Hi : Ascii.eqb c "i" = false) by (apply Ascii.eqb_neq; intros ->; change (code "i") with 105 in Hc; lia).
  assert (Hn : Ascii.eqb c "n" = false) by (apply Ascii.eqb_neq; intros ->; change (code "n") with 110 in Hc; lia).
  by rewrite Hi, Hn.
Qed.

Lemma numeral_not_hex s v : numeral s v -> hex_prefix s = None.
Proof.
  intros [_ Hs]. unfold hex_prefix. destruct s as [|z [|x [|c s]]]; try done. cbn in Hs.
  destruct (digit z); [|done]. destruct (digit x) eqn:Ex; [|done]. rewrite (digit_lower _ _ Ex).
  apply digit_code in Ex as [? _]. destruct (Z.eqb_spec (code x) 120); [lia|]. by rewrite andb_false_r.
Qed.

Lemma ParseFloat_numeral s v : numeral s v -> v <= max_int64 -> strconv_ParseFloat s = Ok (f64_of_Z v).
Proof.
  intros Hn Hv. unfold strconv_ParseFloat, readFloat.
  rewrite (numeral_not_special s v Hn), (numeral_sign s v Hn), (numeral_not_hex s v Hn).
  destruct Hn as [Hne Hs]. rewrite (read_mantissa_digits _ s v) by done.
  assert ((s =s "") = false) as -> by by apply String.eqb_neq. cbn [negb orb sawDigits underscores mant frac read_exp_part andb].
  assert (Hf : scaled false 10 v (0 - 0) = f64_of_Z v).
  { unfold scaled, f64_ratio, f64_of_Z, f64_round_Z. pose proof (digits_mono 0 s v ltac:(lia) Hs).
    change (10 ^ (0 - 0)) with 1. cbn [Z.leb Z.sub Z.compare]. rewrite Z.mul_1_r. destruct (Z.eqb_spec v 0); [done|].
    cbn [Z.eqb]. rewrite Z.mul_1_r. destruct (Z.ltb_spec v 0); [lia|]. by rewrite Z.abs_eq. }
  rewrite Hf. pose proof (finite_of_int64 v) as Hfin. unfold in_int64 in Hfin.
  pose proof (digits_mono 0 s v ltac:(lia) Hs). specialize (Hfin ltac:(unfold min_int64; lia)).
  by destruct (f64_of_Z v).
Qed.
