(* ===== verification/CapsuleTypes.v ===== *)
(** * Capsule data model ([capsule/capsule.go], [capsule/labels.go])

    The string-backed enumerations, the records of a capsule and its
    specification, and the label operations.  A Go enum of the form
    [type T string] is a [string] here: the code can hold values outside the
    declared constants and [Valid] is what tells them apart. *)

From S2P Require Import Prelude.
Local Open Scope string_scope. Local Open Scope list_scope. Local Open Scope Z_scope.

(** ** Enumerations *)

Abbreviation CapsuleID := string (only parsing).
Abbreviation ReplicaID := string (only parsing).

(** [NewCapsuleID] is [hex.EncodeToString] of 16 random bytes; the random
    bytes are its argument. *)
Definition hex_digit (n : N) : ascii :=
  if (n <? 10)%N then ascii_of_N (48 + n) else ascii_of_N (87 + n).

Fixpoint hex_EncodeToString (b : list ascii) : string :=
  match b with
  | [] => ""
  | c :: b' =>
      String (hex_digit (N_of_ascii c / 16))
        (String (hex_digit (N_of_ascii c mod 16)) (hex_EncodeToString b'))
  end.

Definition NewCapsuleID (random : list ascii) : CapsuleID := hex_EncodeToString random.

Abbreviation CapsuleStatus := string (only parsing).

Definition capsuleStatusCreated : CapsuleStatus := "created".
Definition capsuleStatusAnnounced : CapsuleStatus := "announced".
Definition capsuleStatusElecting : CapsuleStatus := "electing".
Definition capsuleStatusAssigned : CapsuleStatus := "assigned".
Definition capsuleStatusExecuting : CapsuleStatus := "executing".
Definition capsuleStatusRunning : CapsuleStatus := "running".
Definition capsuleStatusStopping : CapsuleStatus := "stopping".
Definition capsuleStatusStopped : CapsuleStatus := "stopped".

Definition all_statuses : list CapsuleStatus :=
  [capsuleStatusCreated; capsuleStatusAnnounced; capsuleStatusElecting;
   capsuleStatusAssigned; capsuleStatusExecuting; capsuleStatusRunning;
   capsuleStatusStopping; capsuleStatusStopped].

Definition CapsuleStatus_Valid (s : CapsuleStatus) : bool :=
  existsb (String.eqb s) all_statuses.

Abbreviation Tier := string (only parsing).
Definition tierCritical : Tier := "critical".
Definition tierStandard : Tier := "standard".
Definition tierBackground : Tier := "background".

Definition Tier_BaseMomentum (t : Tier) : Z :=
  if t =s tierCritical then 90
  else if t =s tierStandard then 50
  else if t =s tierBackground then 20
  else 50.

Definition Tier_Valid (t : Tier) : bool :=
  (t =s tierCritical) || (t =s tierStandard) || (t =s tierBackground).

Abbreviation ScalingAction := string (only parsing).
Definition scalingActionScaleUp : ScalingAction := "scaleUp".
Definition scalingActionScaleDown : ScalingAction := "scaleDown".
Definition scalingActionScaleToZero : ScalingAction := "scaleToZero".

Definition ScalingAction_Valid (a : ScalingAction) : bool :=
  (a =s scalingActionScaleUp) || (a =s scalingActionScaleDown) || (a =s scalingActionScaleToZero).

Abbreviation TriggerMode := string (only parsing).
Definition triggerModeAny : TriggerMode := "any".
Definition triggerModeAll : TriggerMode := "all".

Definition TriggerMode_Valid (m : TriggerMode) : bool :=
  (m =s triggerModeAny) || (m =s triggerModeAll).

Abbreviation PlacementType := string (only parsing).
Definition placementTypeNode : PlacementType := "node".
Definition placementTypeCluster : PlacementType := "cluster".
Definition placementTypeDatacenter : PlacementType := "datacenter".
Definition placementTypeCapsule : PlacementType := "capsule".

Definition PlacementType_Valid (t : PlacementType) : bool :=
  (t =s placementTypeNode) || (t =s placementTypeCluster)
  || (t =s placementTypeDatacenter) || (t =s placementTypeCapsule).

Abbreviation PlacementMode := string (only parsing).
Definition placementModeNear : PlacementMode := "near".
Definition placementModeAway : PlacementMode := "away".

Definition PlacementMode_Valid (m : PlacementMode) : bool :=
  (m =s placementModeNear) || (m =s placementModeAway).

(** ** Records *)

(** [type Labels map[string]string]; [None] is the nil map. *)
Abbreviation Labels := (option (gmap string string)) (only parsing).

(** The entries of a possibly nil map. *)
Definition entries (l : Labels) : gmap string string := default ∅ l.

Record ResourceRequirements := {
  CPUCores : Z;       (** int32 *)
  CPUCoresMax : Z;    (** int32; 0 = same as CPUCores *)
  MemoryMB : Z;       (** int64 *)
  MemoryMBMax : Z;    (** int64; 0 = same as MemoryMB *)
  DiskMB : Z          (** int64 *)
}.

Definition EffectiveCPUMax (r : ResourceRequirements) : Z :=
  if 0 <? CPUCoresMax r then CPUCoresMax r else CPUCores r.

Definition EffectiveMemoryMax (r : ResourceRequirements) : Z :=
  if 0 <? MemoryMBMax r then MemoryMBMax r else MemoryMB r.

(** int32 fields; [Exact = 0] means use Min/Max autoscaling. *)
Record ReplicaConfig := { Min : Z; Max : Z; Exact : Z }.

Record ScalingRule := {
  sr_Name : string;
  sr_Trigger : TriggerMode;
  sr_Conditions : list string;
  sr_Action : ScalingAction;
  sr_Cooldown : Duration
}.

Record PlacementRule := {
  pr_Name : string;
  pr_Type : PlacementType;
  pr_Mode : PlacementMode;   (** only for Type = capsule *)
  pr_Names : list string;
  pr_Labels : Labels;
  pr_Required : bool
}.

Definition networkModeBridge : string := "bridge".
Definition networkModeHost : string := "host".

Record PortMapping := {
  pm_Name : string;
  pm_ContainerPort : Z;   (** uint16 *)
  pm_HostPort : Z;        (** uint16; 0 = auto-assign *)
  pm_Protocol : string
}.

Record NetworkConfig := { nc_Mode : string; nc_Ports : list PortMapping }.

Record HealthCheck := {
  hc_Type : string;
  hc_Path : string;
  hc_Port : Z;
  hc_Interval : Duration;
  hc_Timeout : Duration;
  hc_Retries : Z;
  hc_InitialDelay : Duration
}.

Record RegistryAuth := {
  ra_URL : string;
  ra_UsernameEncrypted : list ascii;
  ra_PasswordEncrypted : list ascii
}.

Record FailurePolicy := {
  fp_RestartLimit : Z;
  fp_MaxNodeAttempts : Z;
  fp_GracefulTimeout : Duration
}.

Record LogRetention := { lr_MaxFileSizeMB : Z; lr_MaxFiles : Z }.

Record SnapshotConfig := { sc_MaxPerCapsule : Z; sc_TTL : Duration }.

Record RuntimeConfig := {
  rc_Env : Labels;
  rc_Network : NetworkConfig;
  rc_HealthCheck : option HealthCheck;
  rc_FailurePolicy : FailurePolicy;
  rc_LogRetention : LogRetention;
  rc_StatsInterval : Duration;
  rc_Registry : option RegistryAuth;
  rc_SnapshotConfig : SnapshotConfig
}.

Record MomentumConfig := {
  mc_Base : Z;   (** int32 *)
  mc_BoostOnTraffic : bool;
  mc_ReduceOnIdle : bool;
  mc_IdleTimeout : Duration
}.

Record MomentumState := {
  ms_Current : Z;   (** int32 *)
  ms_Base : Z;      (** int32 *)
  ms_LastAdjusted : Time
}.

Record ReplicaState := {
  rs_ReplicaID : ReplicaID;
  rs_NodeID : string;
  rs_Status : CapsuleStatus;
  rs_StartedAt : Time
}.

Record CapsuleSpec := {
  cs_Name : string;
  cs_Image : string;
  cs_ImageAlias : string;
  cs_ImageDigest : string;
  cs_Orbit : string;
  cs_Tier : Tier;
  cs_Labels : Labels;
  cs_Resources : ResourceRequirements;
  cs_Replicas : ReplicaConfig;
  cs_ScalingRules : list ScalingRule;
  cs_PlacementRules : list PlacementRule;
  cs_Runtime : RuntimeConfig;
  cs_MomentumConfig : MomentumConfig;
  cs_Command : list string
}.

Record Capsule := {
  c_ID : CapsuleID;
  c_ClusterID : string;
  c_Spec : CapsuleSpec;
  c_Status : CapsuleStatus;
  c_Replicas : list ReplicaState;
  c_Momentum : MomentumState;
  c_Version : string;
  c_CreatedAt : Time;
  c_UpdatedAt : Time
}.

(** Field assignments [c.Status = s] and so on. *)
Definition set_Status (s : CapsuleStatus) (c : Capsule) : Capsule :=
  {| c_ID := c_ID c; c_ClusterID := c_ClusterID c; c_Spec := c_Spec c; c_Status := s;
     c_Replicas := c_Replicas c; c_Momentum := c_Momentum c; c_Version := c_Version c;
     c_CreatedAt := c_CreatedAt c; c_UpdatedAt := c_UpdatedAt c |}.
Definition set_Spec (s : CapsuleSpec) (c : Capsule) : Capsule :=
  {| c_ID := c_ID c; c_ClusterID := c_ClusterID c; c_Spec := s; c_Status := c_Status c;
     c_Replicas := c_Replicas c; c_Momentum := c_Momentum c; c_Version := c_Version c;
     c_CreatedAt := c_CreatedAt c; c_UpdatedAt := c_UpdatedAt c |}.
Definition set_Replicas (rs : list ReplicaState) (c : Capsule) : Capsule :=
  {| c_ID := c_ID c; c_ClusterID := c_ClusterID c; c_Spec := c_Spec c; c_Status := c_Status c;
     c_Replicas := rs; c_Momentum := c_Momentum c; c_Version := c_Version c;
     c_CreatedAt := c_CreatedAt c; c_UpdatedAt := c_UpdatedAt c |}.
Definition set_CreatedAt (t : Time) (c : Capsule) : Capsule :=
  {| c_ID := c_ID c; c_ClusterID := c_ClusterID c; c_Spec := c_Spec c; c_Status := c_Status c;
     c_Replicas := c_Replicas c; c_Momentum := c_Momentum c; c_Version := c_Version c;
     c_CreatedAt := t; c_UpdatedAt := c_UpdatedAt c |}.
Definition set_UpdatedAt (t : Time) (c : Capsule) : Capsule :=
  {| c_ID := c_ID c; c_ClusterID := c_ClusterID c; c_Spec := c_Spec c; c_Status := c_Status c;
     c_Replicas := c_Replicas c; c_Momentum := c_Momentum c; c_Version := c_Version c;
     c_CreatedAt := c_CreatedAt c; c_UpdatedAt := t |}.

(** ** Labels ([capsule/labels.go]) *)

Definition SameKeyword : string := "same".

Section Labels.
Context `{GoRange}.

Definition LabelsMatch (candidate required : Labels) : bool :=
  forallb (fun '(key, reqVal) =>
    match entries candidate !! key with
    | None => false
    | Some candVal => reqVal =s candVal
    end) (range (entries required)).

Definition LabelsShareMatch (sourceLabels targetLabels ruleLabels : Labels) : bool :=
  forallb (fun '(key, val) =>
    if val <>s SameKeyword then true
    else match entries sourceLabels !! key, entries targetLabels !! key with
         | Some sourceVal, Some targetVal => sourceVal =s targetVal
         | _, _ => false
         end) (range (entries ruleLabels)).

Definition LabelsMatchAnyValue (candidate : Labels) (key : string) (allowedValues : list string) : bool :=
  match entries candidate !! key with
  | None => false
  | Some candVal => existsb (fun v => candVal =s v) allowedValues
  end.

Definition LabelsContains (labels : Labels) (key : string) : bool :=
  match entries labels !! key with Some _ => true | None => false end.

(** The two copying loops of [LabelsMerge]. *)
Definition copy_into (dst : gmap string string) (src : list (string * string)) : gmap string string :=
  fold_left (fun m '(k, v) => <[k := v]> m) src dst.

Definition LabelsMerge (base overrides : Labels) : Labels :=
  Some (copy_into (copy_into ∅ (range (entries base))) (range (entries overrides))).

Definition LabelsEqual (a b : Labels) : bool :=
  if negb (size (entries a) =? size (entries b))%nat then false
  else forallb (fun '(k, v) =>
         match entries b !! k with Some bv => bv =s v | None => false end)
       (range (entries a)).

(** *** Facts *)

(** A match asks exactly for inclusion of the required entries. *)
Lemma LabelsMatch_subseteq candidate required :
  LabelsMatch candidate required = true <-> entries required ⊆ entries candidate.
Proof.
  unfold LabelsMatch. rewrite forallb_range, map_subseteq_spec. split.
  - intros Hf k x Hk. specialize (Hf k x Hk).
    destruct (entries candidate !! k); [|done]. by apply String.eqb_eq in Hf as ->.
  - intros Hf k x Hk. rewrite (Hf k x Hk). apply String.eqb_refl.
Qed.

Lemma LabelsShareMatch_spec src tgt rule :
  LabelsShareMatch src tgt rule = true <->
  forall k, entries rule !! k = Some SameKeyword ->
    exists v, entries src !! k = Some v /\ entries tgt !! k = Some v.
Proof.
  unfold LabelsShareMatch. rewrite forallb_range. split.
  - intros Hf k Hk. specialize (Hf k _ Hk). rewrite String.eqb_refl in Hf. simpl in Hf.
    destruct (entries src !! k) as [v|], (entries tgt !! k); try done.
    apply String.eqb_eq in Hf as ->. eauto.
  - intros Hf k x Hk. destruct (String.eqb_spec x SameKeyword) as [->|]; [|done]. simpl.
    destruct (Hf k Hk) as (v & -> & ->). apply String.eqb_refl.
Qed.

Lemma copy_into_lookup src dst k :
  NoDup src.*1 ->
  copy_into dst src !! k = match (list_to_map src : gmap string string) !! k with
                           | Some v => Some v | None => dst !! k end.
Proof.
  revert dst. unfold copy_into.
  induction src as [|[k' v'] src IH]; intros dst Hnd; simpl; [done|].
  inv Hnd. rewrite IH by done.
  destruct (decide (k = k')) as [->|Hne].
  - rewrite lookup_insert_eq.
    rewrite not_elem_of_list_to_map_1 by done. by rewrite lookup_insert_eq.
  - by rewrite !lookup_insert_ne by done.
Qed.

Lemma list_to_map_range (m : gmap string string) : list_to_map (range m) = m.
Proof.
  rewrite <- (list_to_map_to_list m) at 2. apply list_to_map_proper.
  - apply NoDup_range_fst.
  - apply range_perm.
Qed.

(** Merging is the left-biased union of the override over the base. *)
Lemma LabelsMerge_union base overrides :
  LabelsMerge base overrides = Some (entries overrides ∪ entries base).
Proof.
  unfold LabelsMerge. f_equal. apply map_eq. intros k.
  rewrite copy_into_lookup, list_to_map_range by apply NoDup_range_fst.
  rewrite copy_into_lookup, list_to_map_range by apply NoDup_range_fst.
  rewrite lookup_empty, lookup_union.
  by destruct (entries overrides !! k), (entries base !! k).
Qed.

Lemma LabelsEqual_spec a b : LabelsEqual a b = true <-> entries a = entries b.
Proof.
  unfold LabelsEqual. destruct (Nat.eqb_spec (size (entries a)) (size (entries b))) as [Hs|Hs]; simpl.
  - rewrite forallb_range. split.
    + intros Hf. assert (Hsub : entries a ⊆ entries b).
      { apply map_subseteq_spec. intros k x Hk. specialize (Hf k x Hk).
        destruct (entries b !! k); [|done]. by apply String.eqb_eq in Hf as ->. }
      apply map_subseteq_size_eq; [done|lia].
    + intros -> k x ->. apply String.eqb_refl.
  - split; [done|]. intros E. by rewrite E in Hs.
Qed.

End Labels.

(** ** Identifiers *)

Lemma hex_digit_inj a b : (a < 16)%N -> (b < 16)%N -> hex_digit a = hex_digit b -> a = b.
Proof.
  intros Ha Hb. unfold hex_digit.
  destruct (N.ltb_spec a 10), (N.ltb_spec b 10); intros E;
    apply (f_equal N_of_ascii) in E; rewrite !N_ascii_embedding in E; lia.
Qed.

Lemma hex_EncodeToString_length b :
  String.length (hex_EncodeToString b) = (2 * length b)%nat.
Proof. induction b as [|c b IH]; [done|]. simpl. rewrite IH. lia. Qed.

(** Distinct random bytes give distinct identifiers. *)
Lemma hex_EncodeToString_inj b1 b2 :
  hex_EncodeToString b1 = hex_EncodeToString b2 -> b1 = b2.
Proof.
  revert b2. induction b1 as [|c b1 IH]; intros [|d b2]; simpl; try done.
  intros E. injection E as E1 E2 E3. f_equal; [|by apply IH].
  assert (Hc := N_ascii_bounded c). assert (Hd := N_ascii_bounded d).
  apply hex_digit_inj in E1; [|apply N.Div0.div_lt_upper_bound; lia..].
  apply hex_digit_inj in E2; [|apply N.mod_lt; lia..].
  rewrite <- (ascii_N_embedding c), <- (ascii_N_embedding d).
  rewrite (N.Div0.div_mod (N_of_ascii c) 16), (N.Div0.div_mod (N_of_ascii d) 16). congruence.
Qed.

(** ** Statuses *)

Lemma CapsuleStatus_Valid_spec s : CapsuleStatus_Valid s = true <-> s ∈ all_statuses.
Proof.
  unfold CapsuleStatus_Valid. rewrite existsb_elem. split.
  - intros (x & Hx & E). by apply String.eqb_eq in E as ->.
  - intros Hs. exists s. split; [done|apply String.eqb_refl].
Qed.

(** The Go zero value of a specification. *)
Definition zero_spec : CapsuleSpec := {|
  cs_Name := ""; cs_Image := ""; cs_ImageAlias := ""; cs_ImageDigest := ""; cs_Orbit := "";
  cs_Tier := ""; cs_Labels := None;
  cs_Resources := {| CPUCores := 0; CPUCoresMax := 0; MemoryMB := 0; MemoryMBMax := 0; DiskMB := 0 |};
  cs_Replicas := {| Min := 0; Max := 0; Exact := 0 |};
  cs_ScalingRules := []; cs_PlacementRules := [];
  cs_Runtime := {| rc_Env := None; rc_Network := {| nc_Mode := ""; nc_Ports := [] |};
    rc_HealthCheck := None;
    rc_FailurePolicy := {| fp_RestartLimit := 0; fp_MaxNodeAttempts := 0; fp_GracefulTimeout := 0 |};
    rc_LogRetention := {| lr_MaxFileSizeMB := 0; lr_MaxFiles := 0 |};
    rc_StatsInterval := 0; rc_Registry := None;
    rc_SnapshotConfig := {| sc_MaxPerCapsule := 0; sc_TTL := 0 |} |};
  cs_MomentumConfig := {| mc_Base := 0; mc_BoostOnTraffic := false; mc_ReduceOnIdle := false;
                          mc_IdleTimeout := 0 |};
  cs_Command := [] |}.
