(* ===== verification/CapsuleSpec.v ===== *)
(** * Defaults and validation of capsule specifications ([capsule/spec.go])

    [DefaultSpec] fills in missing fields and [ValidateSpec] collects every
    validation error.  The theorems say that defaulting is idempotent and
    keeps valid specifications valid, and that validation accepts exactly the
    specifications of a declarative predicate. *)

From S2P Require Import Prelude CapsuleTypes.
Local Open Scope string_scope. Local Open Scope list_scope. Local Open Scope Z_scope.

(** ** Defaults *)

(** [if x == 0 { x = d }] *)
Definition or_default (d x : Z) : Z := if x =? 0 then d else x.
(** [if x == "" { x = d }] *)
Definition or_default_s (d x : string) : string := if x =s "" then d else x.
(** [if m == nil { m = make(...) }] *)
Definition or_make (m : Labels) : Labels := match m with None => Some ∅ | Some _ => m end.

Definition defaultPlacementRule (rule : PlacementRule) : PlacementRule :=
  {| pr_Name := pr_Name rule; pr_Type := pr_Type rule; pr_Mode := pr_Mode rule;
     pr_Names := pr_Names rule; pr_Labels := or_make (pr_Labels rule);
     pr_Required := if negb (pr_Required rule) then true else pr_Required rule |}.

Definition defaultScalingRule (rule : ScalingRule) : ScalingRule :=
  {| sr_Name := sr_Name rule; sr_Trigger := or_default_s triggerModeAll (sr_Trigger rule);
     sr_Conditions := sr_Conditions rule; sr_Action := sr_Action rule;
     sr_Cooldown := or_default (60 * second) (sr_Cooldown rule) |}.

Definition defaultReplicas (r : ReplicaConfig) : ReplicaConfig :=
  if (Exact r =? 0) && (Min r =? 0) && (Max r =? 0)
  then {| Min := 1; Max := 1; Exact := Exact r |} else r.

Definition defaultHealthCheck (h : HealthCheck) : HealthCheck :=
  {| hc_Type := hc_Type h; hc_Path := hc_Path h; hc_Port := hc_Port h;
     hc_Interval := or_default (10 * second) (hc_Interval h);
     hc_Timeout := or_default (3 * second) (hc_Timeout h);
     hc_Retries := or_default 3 (hc_Retries h);
     hc_InitialDelay := or_default (5 * second) (hc_InitialDelay h) |}.

Definition defaultRuntime (r : RuntimeConfig) : RuntimeConfig :=
  {| rc_Env := or_make (rc_Env r);
     rc_Network := {| nc_Mode := or_default_s networkModeBridge (nc_Mode (rc_Network r));
                      nc_Ports := nc_Ports (rc_Network r) |};
     rc_HealthCheck := defaultHealthCheck <$> rc_HealthCheck r;
     rc_FailurePolicy :=
       {| fp_RestartLimit := or_default 3 (fp_RestartLimit (rc_FailurePolicy r));
          fp_MaxNodeAttempts := or_default 3 (fp_MaxNodeAttempts (rc_FailurePolicy r));
          fp_GracefulTimeout := or_default (10 * second) (fp_GracefulTimeout (rc_FailurePolicy r)) |};
     rc_LogRetention :=
       {| lr_MaxFileSizeMB := or_default 10 (lr_MaxFileSizeMB (rc_LogRetention r));
          lr_MaxFiles := or_default 10 (lr_MaxFiles (rc_LogRetention r)) |};
     rc_StatsInterval := or_default (5 * second) (rc_StatsInterval r);
     rc_Registry := rc_Registry r;
     rc_SnapshotConfig :=
       {| sc_MaxPerCapsule := or_default 3 (sc_MaxPerCapsule (rc_SnapshotConfig r));
          sc_TTL := or_default (72 * hour) (sc_TTL (rc_SnapshotConfig r)) |} |}.

(** The momentum base defaults from the tier after the tier itself has been
    defaulted, as in the source. *)
Definition DefaultSpec (spec : CapsuleSpec) : CapsuleSpec :=
  let tier := or_default_s tierStandard (cs_Tier spec) in
  {| cs_Name := cs_Name spec; cs_Image := cs_Image spec; cs_ImageAlias := cs_ImageAlias spec;
     cs_ImageDigest := cs_ImageDigest spec; cs_Orbit := cs_Orbit spec;
     cs_Tier := tier;
     cs_Labels := or_make (cs_Labels spec);
     cs_Resources := cs_Resources spec;
     cs_Replicas := defaultReplicas (cs_Replicas spec);
     cs_ScalingRules := map defaultScalingRule (cs_ScalingRules spec);
     cs_PlacementRules := map defaultPlacementRule (cs_PlacementRules spec);
     cs_Runtime := defaultRuntime (cs_Runtime spec);
     cs_MomentumConfig :=
       {| mc_Base := or_default (Tier_BaseMomentum tier) (mc_Base (cs_MomentumConfig spec));
          mc_BoostOnTraffic := mc_BoostOnTraffic (cs_MomentumConfig spec);
          mc_ReduceOnIdle := mc_ReduceOnIdle (cs_MomentumConfig spec);
          mc_IdleTimeout := mc_IdleTimeout (cs_MomentumConfig spec) |};
     cs_Command := cs_Command spec |}.

(** ** Validation *)

(** One constructor per error value or format string of the source; the
    formatted ones carry their arguments. *)
Inductive SpecError :=
  | ErrNameRequired | ErrImageRequired | ErrOrbitRequired | ErrInvalidTier
  | ErrInvalidCPU | ErrInvalidMemory | ErrInvalidDisk
  | ErrInvalidReplicas | ErrInvalidExactReplicas | ErrReplicaConflict
  | ErrPlacementType (index : nat) (ty : string)
  | ErrPlacementModeRequired (index : nat)
  | ErrPlacementModeForbidden (index : nat)
  | ErrPlacementEmpty (index : nat)
  | ErrPlacementLabel (index : nat) (key val : string)
  | ErrScalingName (index : nat)
  | ErrScalingTrigger (index : nat) (t : string)
  | ErrScalingAction (index : nat) (a : string)
  | ErrScalingConditions (index : nat)
  | ErrScalingCooldown (index : nat).

Definition validateReplicas (r : ReplicaConfig) : option SpecError :=
  if (0 <? Exact r) && ((0 <? Min r) || (0 <? Max r)) then Some ErrReplicaConflict
  else if Exact r <? 0 then Some ErrInvalidExactReplicas
  else if Exact r =? 0 then
    if (Min r <? 0) || (Max r <? 0) then Some ErrInvalidReplicas
    else if Max r <? Min r then Some ErrInvalidReplicas
    else None
  else None.

Definition validateScalingRule (rule : ScalingRule) (index : nat) : option SpecError :=
  if sr_Name rule =s "" then Some (ErrScalingName index)
  else if negb (TriggerMode_Valid (sr_Trigger rule)) then Some (ErrScalingTrigger index (sr_Trigger rule))
  else if negb (ScalingAction_Valid (sr_Action rule)) then Some (ErrScalingAction index (sr_Action rule))
  else match sr_Conditions rule with
       | [] => Some (ErrScalingConditions index)
       | _ => if sr_Cooldown rule <? 0 then Some (ErrScalingCooldown index) else None
       end.

(** [for i, x := range xs { if err := f(x, i); err != nil { errs = append(errs, err) } }] *)
Fixpoint collect {A} (f : A -> nat -> option SpecError) (i : nat) (xs : list A) : list SpecError :=
  match xs with
  | [] => []
  | x :: xs' => option_list (f x i) ++ collect f (S i) xs'
  end.

Definition err_when (b : bool) (e : SpecError) : list SpecError := if b then [e] else [].

Section Validation.
Context `{GoRange}.

(** The first label in iteration order whose value is not the keyword. *)
Definition bad_label (labels : list (string * string)) : option (string * string) :=
  find (fun '(_, val) => val <>s SameKeyword) labels.

Definition validatePlacementRule (rule : PlacementRule) (index : nat) : option SpecError :=
  if negb (PlacementType_Valid (pr_Type rule)) then Some (ErrPlacementType index (pr_Type rule))
  else
    let is_capsule := pr_Type rule =s placementTypeCapsule in
    if is_capsule && negb (PlacementMode_Valid (pr_Mode rule)) then Some (ErrPlacementModeRequired index)
    else if negb is_capsule && (pr_Mode rule <>s "") then Some (ErrPlacementModeForbidden index)
    else if (length (pr_Names rule) =? 0)%nat && (size (entries (pr_Labels rule)) =? 0)%nat
    then Some (ErrPlacementEmpty index)
    else if is_capsule then
      match bad_label (range (entries (pr_Labels rule))) with
      | Some (key, val) => Some (ErrPlacementLabel index key val)
      | None => None
      end
    else None.

Definition ValidateSpec (spec : CapsuleSpec) : list SpecError :=
  err_when (cs_Name spec =s "") ErrNameRequired
  ++ err_when (cs_Image spec =s "") ErrImageRequired
  ++ err_when (cs_Orbit spec =s "") ErrOrbitRequired
  ++ err_when ((cs_Tier spec <>s "") && negb (Tier_Valid (cs_Tier spec))) ErrInvalidTier
  ++ err_when (CPUCores (cs_Resources spec) <? 0) ErrInvalidCPU
  ++ err_when (MemoryMB (cs_Resources spec) <? 0) ErrInvalidMemory
  ++ err_when (DiskMB (cs_Resources spec) <? 0) ErrInvalidDisk
  ++ option_list (validateReplicas (cs_Replicas spec))
  ++ collect validatePlacementRule 0 (cs_PlacementRules spec)
  ++ collect validateScalingRule 0 (cs_ScalingRules spec).

(** ** The declarative specification *)

(** Replica counts: either an exact count alone, or an autoscaling interval. *)
Definition replicas_ok (r : ReplicaConfig) : Prop :=
  (0 < Exact r /\ Min r <= 0 /\ Max r <= 0) \/ (Exact r = 0 /\ 0 <= Min r <= Max r).

Definition placement_ok (rule : PlacementRule) : Prop :=
  PlacementType_Valid (pr_Type rule) = true /\
  (pr_Type rule = placementTypeCapsule -> PlacementMode_Valid (pr_Mode rule) = true) /\
  (pr_Type rule <> placementTypeCapsule -> pr_Mode rule = "") /\
  (pr_Names rule <> [] \/ entries (pr_Labels rule) <> ∅) /\
  (pr_Type rule = placementTypeCapsule ->
     forall k v, entries (pr_Labels rule) !! k = Some v -> v = SameKeyword).

Definition scaling_ok (rule : ScalingRule) : Prop :=
  sr_Name rule <> "" /\ TriggerMode_Valid (sr_Trigger rule) = true /\
  ScalingAction_Valid (sr_Action rule) = true /\ sr_Conditions rule <> [] /\ 0 <= sr_Cooldown rule.

Definition spec_ok (spec : CapsuleSpec) : Prop :=
  cs_Name spec <> "" /\ cs_Image spec <> "" /\ cs_Orbit spec <> "" /\
  (cs_Tier spec = "" \/ Tier_Valid (cs_Tier spec) = true) /\
  0 <= CPUCores (cs_Resources spec) /\ 0 <= MemoryMB (cs_Resources spec) /\
  0 <= DiskMB (cs_Resources spec) /\
  replicas_ok (cs_Replicas spec) /\
  Forall placement_ok (cs_PlacementRules spec) /\
  Forall scaling_ok (cs_ScalingRules spec).

(** ** Correctness of each validator *)

Lemma validateReplicas_spec r : validateReplicas r = None <-> replicas_ok r.
Proof.
  unfold validateReplicas, replicas_ok. split_bools; simpl; split; intros; try done; lia.
Qed.

Lemma bad_label_None l :
  bad_label l = None <-> forall k v, (k, v) ∈ l -> v = SameKeyword.
Proof.
  unfold bad_label. split.
  - intros Hf k v Hin. apply list_elem_of_In in Hin.
    pose proof (find_none _ _ Hf _ Hin) as Hk. simpl in Hk.
    by apply negb_false_iff, String.eqb_eq in Hk.
  - intros Hall. destruct (find _ l) as [[k v]|] eqn:E; [|done].
    apply find_some in E as [Hin Hv]. apply list_elem_of_In in Hin.
    rewrite (Hall _ _ Hin), String.eqb_refl in Hv. done.
Qed.

Lemma size_nonempty (m : gmap string string) : (size m =? 0)%nat = false <-> m <> ∅.
Proof. rewrite Nat.eqb_neq. by rewrite map_size_non_empty_iff. Qed.

Lemma validatePlacementRule_spec rule i :
  validatePlacementRule rule i = None <-> placement_ok rule.
Proof.
  unfold validatePlacementRule, placement_ok.
  destruct (PlacementType_Valid (pr_Type rule)); simpl; [|naive_solver].
  assert (Hne : (length (pr_Names rule) =? 0)%nat && (size (entries (pr_Labels rule)) =? 0)%nat = false
                <-> pr_Names rule <> [] \/ entries (pr_Labels rule) <> ∅).
  { rewrite andb_false_iff, size_nonempty. destruct (pr_Names rule); naive_solver. }
  destruct (String.eqb_spec (pr_Type rule) placementTypeCapsule) as [Ht|Ht]; simpl.
  - destruct (PlacementMode_Valid (pr_Mode rule)); simpl; [|naive_solver].
    destruct (_ && _) in *; [naive_solver|].
    assert (Hbl := bad_label_None (range (entries (pr_Labels rule)))).
    setoid_rewrite elem_of_range in Hbl.
    destruct (bad_label _) as [[k v]|]; naive_solver.
  - destruct (String.eqb_spec (pr_Mode rule) ""); simpl; [|naive_solver].
    destruct (_ && _) in *; naive_solver.
Qed.

Lemma validateScalingRule_spec rule i :
  validateScalingRule rule i = None <-> scaling_ok rule.
Proof.
  unfold validateScalingRule, scaling_ok.
  destruct (String.eqb_spec (sr_Name rule) ""); [naive_solver|].
  destruct (TriggerMode_Valid _); simpl; [|naive_solver].
  destruct (ScalingAction_Valid _); simpl; [|naive_solver].
  destruct (sr_Conditions rule); [naive_solver|].
  destruct (Z.ltb_spec (sr_Cooldown rule) 0); split; intros; try done; destruct_and?; try lia.
Qed.

Lemma collect_nil {A} (f : A -> nat -> option SpecError) (P : A -> Prop) i xs :
  (forall x i, f x i = None <-> P x) -> collect f i xs = [] <-> Forall P xs.
Proof.
  intros Hf. revert i. induction xs as [|x xs IH]; intros i; simpl; [naive_solver|].
  rewrite Forall_cons_iff, <- (IH (S i)), <- (Hf x i).
  destruct (f x i); naive_solver.
Qed.

Lemma err_when_nil b e : err_when b e = [] <-> b = false.
Proof. unfold err_when. by destruct b. Qed.

Lemma option_list_nil {A} (o : option A) : option_list o = [] <-> o = None.
Proof. by destruct o. Qed.

Lemma eqb_false_neq a b : (a =s b) = false <-> a <> b.
Proof. apply String.eqb_neq. Qed.

(** Validation reports no error exactly on the specifications of [spec_ok]. *)
Lemma ValidateSpec_nil spec : ValidateSpec spec = [] <-> spec_ok spec.
Proof.
  unfold ValidateSpec, spec_ok.
  rewrite !app_nil, !err_when_nil, option_list_nil, validateReplicas_spec.
  rewrite (collect_nil _ placement_ok) by apply validatePlacementRule_spec.
  rewrite (collect_nil _ scaling_ok) by apply validateScalingRule_spec.
  rewrite !eqb_false_neq, !Z.ltb_ge.
  assert (Ht : (cs_Tier spec <>s "") && negb (Tier_Valid (cs_Tier spec)) = false
               <-> (cs_Tier spec = "" \/ Tier_Valid (cs_Tier spec) = true)).
  { rewrite andb_false_iff, !negb_false_iff, String.eqb_eq. done. }
  rewrite Ht. done.
Qed.

(** ** Defaulting *)

Lemma or_default_idem d x : or_default d (or_default d x) = or_default d x.
Proof. unfold or_default. destruct (Z.eqb_spec x 0); split_bools; done. Qed.

Lemma or_default_s_idem d x : or_default_s d (or_default_s d x) = or_default_s d x.
Proof. unfold or_default_s. destruct (String.eqb_spec x ""); split_bools; done. Qed.

Lemma or_make_idem m : or_make (or_make m) = or_make m.
Proof. by destruct m. Qed.

Lemma or_make_entries m : entries (or_make m) = entries m.
Proof. by destruct m. Qed.

Lemma map_idem {A} (f : A -> A) l : (forall x, f (f x) = f x) -> map f (map f l) = map f l.
Proof. intros Hf. rewrite List.map_map. by apply List.map_ext. Qed.

Lemma defaultReplicas_idem r : defaultReplicas (defaultReplicas r) = defaultReplicas r.
Proof.
  unfold defaultReplicas at 2 3.
  destruct ((Exact r =? 0) && (Min r =? 0) && (Max r =? 0)) eqn:E;
    unfold defaultReplicas; simpl; [by rewrite andb_false_r|by rewrite E].
Qed.

Lemma DefaultSpec_idem spec : DefaultSpec (DefaultSpec spec) = DefaultSpec spec.
Proof.
  unfold DefaultSpec; simpl. f_equal; rewrite ?or_default_s_idem, ?or_make_idem, ?or_default_idem; try done.
  - apply defaultReplicas_idem.
  - apply map_idem. intros r. unfold defaultScalingRule; simpl.
    by rewrite or_default_s_idem, or_default_idem.
  - apply map_idem. intros r. unfold defaultPlacementRule; simpl.
    rewrite or_make_idem. by destruct (pr_Required r).
  - unfold defaultRuntime; simpl.
    rewrite or_make_idem, or_default_s_idem, !or_default_idem. f_equal.
    destruct (rc_HealthCheck (cs_Runtime spec)); simpl; [|done].
    unfold defaultHealthCheck; simpl. by rewrite !or_default_idem.
Qed.

(** Every placement rule of a defaulted specification is a hard rule. *)
Lemma DefaultSpec_all_required spec :
  Forall (fun r => pr_Required r = true) (cs_PlacementRules (DefaultSpec spec)).
Proof.
  simpl. apply Forall_map, Forall_true. intros r; simpl. by destruct (pr_Required r).
Qed.

Lemma defaultReplicas_ok r : replicas_ok r -> replicas_ok (defaultReplicas r).
Proof.
  unfold replicas_ok, defaultReplicas. destruct (_ && _) eqn:E; simpl; [|done].
  rewrite !andb_true_iff, !Z.eqb_eq in E. lia.
Qed.

Lemma defaultScalingRule_ok r : scaling_ok r -> scaling_ok (defaultScalingRule r).
Proof.
  unfold scaling_ok, defaultScalingRule; simpl. intros (? & Ht & ? & ? & ?).
  unfold or_default_s, or_default. repeat split; try done.
  - by destruct (sr_Trigger r =s "").
  - destruct (_ =? 0); [unfold second, millisecond, microsecond|]; lia.
Qed.

Lemma DefaultSpec_ok spec : spec_ok spec -> spec_ok (DefaultSpec spec).
Proof.
  unfold spec_ok; simpl. intros (? & ? & ? & Ht & ? & ? & ? & Hr & Hp & Hs).
  split_and!; try done.
  - right. unfold or_default_s. by destruct Ht as [->|Ht]; [|destruct (String.eqb _ _)].
  - by apply defaultReplicas_ok.
  - apply Forall_map. eapply Forall_impl; [|exact Hp]. intros r.
    unfold placement_ok; simpl. by rewrite or_make_entries.
  - apply Forall_map. eapply Forall_impl; [|exact Hs]. apply defaultScalingRule_ok.
Qed.

(** ** Theorems *)

(** Validation is exact: it reports no error precisely on
    the specifications that have a name, an image and an orbit, a known or
    empty tier, non-negative resources, a consistent replica range, and only
    well-formed placement and scaling rules. *)
Theorem spec_validation_exact spec : ValidateSpec spec = [] <-> spec_ok spec.
Proof. apply ValidateSpec_nil. Qed.

(** Defaulting is idempotent and never makes an accepted
    specification rejected. *)
Theorem spec_default_stable spec :
  DefaultSpec (DefaultSpec spec) = DefaultSpec spec /\
  (ValidateSpec spec = [] -> ValidateSpec (DefaultSpec spec) = []).
Proof. split; [apply DefaultSpec_idem|]. rewrite !ValidateSpec_nil. apply DefaultSpec_ok. Qed.

(** After defaulting every placement rule is a hard rule,
    also those the user declared with required = false. *)
Theorem spec_default_hardens_placement spec r
    (Hin : r ∈ cs_PlacementRules spec) (Hsoft : pr_Required r = false) :
  defaultPlacementRule r ∈ cs_PlacementRules (DefaultSpec spec) /\
  Forall (fun r => pr_Required r = true) (cs_PlacementRules (DefaultSpec spec)).
Proof.
  split; [|apply DefaultSpec_all_required]. simpl. apply list_elem_of_In, in_map. by apply list_elem_of_In.
Qed.

End Validation.

(** ** A concrete specification *)

Definition demo_spec (rules : list PlacementRule) : CapsuleSpec :=
  let z := zero_spec in
  {| cs_Name := "web"; cs_Image := "nginx"; cs_ImageAlias := ""; cs_ImageDigest := ""; cs_Orbit := "us";
     cs_Tier := ""; cs_Labels := None; cs_Resources := cs_Resources z; cs_Replicas := cs_Replicas z;
     cs_ScalingRules := []; cs_PlacementRules := rules; cs_Runtime := cs_Runtime z;
     cs_MomentumConfig := cs_MomentumConfig z; cs_Command := [] |}.

Definition soft_rule : PlacementRule :=
  {| pr_Name := "ssd"; pr_Type := placementTypeNode; pr_Mode := ""; pr_Names := [];
     pr_Labels := Some {[ "disk" := "ssd" ]}; pr_Required := false |}.

Lemma spec_default_stable_witness :
  ValidateSpec (demo_spec [soft_rule]) = [] /\ ValidateSpec (DefaultSpec (demo_spec [soft_rule])) = [].
Proof. split; [reflexivity|]. apply spec_default_stable. reflexivity. Defined.

Lemma spec_default_hardens_placement_witness :
  Forall (fun r => pr_Required r = true) (cs_PlacementRules (DefaultSpec (demo_spec [soft_rule]))).
Proof.
  apply (spec_default_hardens_placement (demo_spec [soft_rule]) soft_rule); [left|reflexivity].
Defined.
