(* ===== verification/Lifecycle.v ===== *)
(** * Capsule lifecycle state machine ([capsule/lifecycle.go])

    The machine itself is the third-party package [qmuntal/stateless]; it
    enters as an interface ([StateMachineLib]) with the documented behaviour
    the code relies on ([StateMachineLaws]) and a table-driven instance for
    evaluation.  The transition table is [buildMachine]'s. *)

From S2P Require Import Prelude CapsuleTypes.
Local Open Scope string_scope. Local Open Scope list_scope. Local Open Scope Z_scope.

(** ** Triggers *)

Definition TriggerAnnounce : string := "announce".
Definition TriggerElectionStarted : string := "election_started".
Definition TriggerElectionWon : string := "election_won".
Definition TriggerElectionTimeout : string := "election_timeout".
Definition TriggerExecutionStart : string := "execution_started".
Definition TriggerExecutionFailed : string := "execution_failed".
Definition TriggerContainerReady : string := "container_ready".
Definition TriggerStopRequested : string := "stop_requested".
Definition TriggerContainerStopped : string := "container_stopped".
Definition TriggerNodeFailed : string := "node_failed".
Definition TriggerScaleUpNeeded : string := "scale_up_needed".
Definition TriggerScaleDownNeeded : string := "scale_down_needed".

(** ** The state machine library *)

(** The [Configure(s).Permit(t, d)] calls: for each configured state, its
    permitted triggers with their destinations. *)
Definition sm_config : Type := list (CapsuleStatus * list (string * CapsuleStatus)).

Definition assoc {A} (k : string) (l : list (string * A)) : option A :=
  snd <$> find (fun '(k', _) => k =s k') l.

(** The destination a configuration gives to a trigger in a state. *)
Definition permitted (cfg : sm_config) (s : CapsuleStatus) (t : string) : option CapsuleStatus :=
  assoc s cfg ≫= assoc t.

Class StateMachineLib := {
  machine : Type;
  NewStateMachine : sm_config -> CapsuleStatus -> machine;
  sm_State : machine -> CapsuleStatus;
  sm_CanFire : machine -> string -> bool;
  (** The machine after the call, and the state whose [OnEntry] action ran;
      [None] is a returned error. *)
  sm_Fire : machine -> string -> machine * option CapsuleStatus
}.

(** Documented behaviour of the package: a permitted trigger moves to its
    destination and runs the destination's entry action once; any other
    trigger is an error and leaves the machine alone. *)
Class StateMachineLaws (L : StateMachineLib) := {
  sm_conf : machine -> sm_config;
  new_conf : forall cfg s, sm_conf (NewStateMachine cfg s) = cfg;
  new_state : forall cfg s, sm_State (NewStateMachine cfg s) = s;
  can_fire_permitted : forall m t,
    sm_CanFire m t = bool_decide (is_Some (permitted (sm_conf m) (sm_State m) t));
  fire_permitted : forall m t d,
    permitted (sm_conf m) (sm_State m) t = Some d ->
    exists m', sm_Fire m t = (m', Some d) /\ sm_State m' = d /\ sm_conf m' = sm_conf m;
  fire_rejected : forall m t,
    permitted (sm_conf m) (sm_State m) t = None -> sm_Fire m t = (m, None)
}.

(** ** A table-driven instance *)

Record table_machine := { tm_conf : sm_config; tm_state : CapsuleStatus }.

#[export] Instance table_lib : StateMachineLib | 100 := {|
  machine := table_machine;
  NewStateMachine := Build_table_machine;
  sm_State := tm_state;
  sm_CanFire := fun m t => bool_decide (is_Some (permitted (tm_conf m) (tm_state m) t));
  sm_Fire := fun m t =>
    match permitted (tm_conf m) (tm_state m) t with
    | Some d => (Build_table_machine (tm_conf m) d, Some d)
    | None => (m, None)
    end
|}.

#[export, refine] Instance table_laws : StateMachineLaws table_lib := {| sm_conf := tm_conf |}.
Proof.
  all: try reflexivity.
  - intros m t d E. simpl in *. rewrite E. eexists; split; [reflexivity|done].
  - intros m t E. simpl in *. by rewrite E.
Defined.

(** ** Lifecycle *)

Record LifecycleEvent := {
  le_CapsuleID : CapsuleID;
  le_From : CapsuleStatus;
  le_To : CapsuleStatus;
  le_Trigger : string
}.

Inductive LifecycleError := ErrTransitionFailed (trigger : string).

(** The transition table of [buildMachine]. *)
Definition buildTable : sm_config := [
  (capsuleStatusCreated, [(TriggerAnnounce, capsuleStatusAnnounced)]);
  (capsuleStatusAnnounced, [(TriggerElectionStarted, capsuleStatusElecting)]);
  (capsuleStatusElecting, [(TriggerElectionWon, capsuleStatusAssigned);
                           (TriggerElectionTimeout, capsuleStatusAnnounced)]);
  (capsuleStatusAssigned, [(TriggerExecutionStart, capsuleStatusExecuting);
                           (TriggerExecutionFailed, capsuleStatusAnnounced)]);
  (capsuleStatusExecuting, [(TriggerContainerReady, capsuleStatusRunning);
                            (TriggerExecutionFailed, capsuleStatusAnnounced)]);
  (capsuleStatusRunning, [(TriggerStopRequested, capsuleStatusStopping);
                          (TriggerNodeFailed, capsuleStatusAnnounced);
                          (TriggerScaleUpNeeded, capsuleStatusAnnounced);
                          (TriggerScaleDownNeeded, capsuleStatusStopping)]);
  (capsuleStatusStopping, [(TriggerContainerStopped, capsuleStatusStopped)]);
  (capsuleStatusStopped, [(TriggerAnnounce, capsuleStatusAnnounced)])
].

Section Lifecycle.
Context `{L : StateMachineLib}.

Record Lifecycle := {
  lc_capsuleID : CapsuleID;
  lc_machine : machine;
  lc_lastTrigger : string;
  lc_prevState : CapsuleStatus
}.

Definition buildMachine (initial : CapsuleStatus) : machine := NewStateMachine buildTable initial.

(** [prev] is the state an option such as [WithLifecycleInitialState] left in
    [prevState]; without it the field is the empty string. *)
Definition NewLifecycle (id : CapsuleID) (prev : CapsuleStatus) : Lifecycle :=
  let initial := if (prev <>s "") && CapsuleStatus_Valid prev then prev else capsuleStatusCreated in
  {| lc_capsuleID := id; lc_machine := buildMachine initial; lc_lastTrigger := "";
     lc_prevState := prev |}.

Definition Lifecycle_State (l : Lifecycle) : CapsuleStatus := sm_State (lc_machine l).

Definition Lifecycle_CanFire (l : Lifecycle) (trigger : string) : bool :=
  sm_CanFire (lc_machine l) trigger.

(** The entry action of a state: it reads the fields [Fire] captured. *)
Definition onEntry (l : Lifecycle) (state : CapsuleStatus) : LifecycleEvent :=
  {| le_CapsuleID := lc_capsuleID l; le_From := lc_prevState l; le_To := state;
     le_Trigger := lc_lastTrigger l |}.

(** [Fire], first part: the region under [l.mu]. *)
Definition Fire_capture (l : Lifecycle) (trigger : string) : Lifecycle :=
  {| lc_capsuleID := lc_capsuleID l; lc_machine := lc_machine l;
     lc_lastTrigger := trigger; lc_prevState := sm_State (lc_machine l) |}.

(** [Fire], second part: outside [l.mu], the machine fires and the entry
    action builds the event handed to the handler. *)
Definition Fire_run (l : Lifecycle) (trigger : string)
  : Lifecycle * result LifecycleError LifecycleEvent :=
  let '(m, entered) := sm_Fire (lc_machine l) trigger in
  let l' := {| lc_capsuleID := lc_capsuleID l; lc_machine := m;
               lc_lastTrigger := lc_lastTrigger l; lc_prevState := lc_prevState l |} in
  match entered with
  | Some s => (l', Ok (onEntry l' s))
  | None => (l', Err (ErrTransitionFailed trigger))
  end.

Definition Lifecycle_Fire (l : Lifecycle) (trigger : string)
  : Lifecycle * result LifecycleError LifecycleEvent :=
  Fire_run (Fire_capture l trigger) trigger.

(** Well-formedness: the machine runs [buildMachine]'s table in a valid state. *)
Definition lifecycle_wf `{!StateMachineLaws L} (l : Lifecycle) : Prop :=
  sm_conf (lc_machine l) = buildTable /\ CapsuleStatus_Valid (Lifecycle_State l) = true.

End Lifecycle.

(** ** The transition relation *)

(** The legal moves of the lifecycle, one rule per edge. *)
Inductive lc_step : CapsuleStatus -> string -> CapsuleStatus -> Prop :=
  | step_announce : lc_step capsuleStatusCreated TriggerAnnounce capsuleStatusAnnounced
  | step_elect : lc_step capsuleStatusAnnounced TriggerElectionStarted capsuleStatusElecting
  | step_won : lc_step capsuleStatusElecting TriggerElectionWon capsuleStatusAssigned
  | step_timeout : lc_step capsuleStatusElecting TriggerElectionTimeout capsuleStatusAnnounced
  | step_exec : lc_step capsuleStatusAssigned TriggerExecutionStart capsuleStatusExecuting
  | step_assign_failed : lc_step capsuleStatusAssigned TriggerExecutionFailed capsuleStatusAnnounced
  | step_ready : lc_step capsuleStatusExecuting TriggerContainerReady capsuleStatusRunning
  | step_exec_failed : lc_step capsuleStatusExecuting TriggerExecutionFailed capsuleStatusAnnounced
  | step_stop : lc_step capsuleStatusRunning TriggerStopRequested capsuleStatusStopping
  | step_node_failed : lc_step capsuleStatusRunning TriggerNodeFailed capsuleStatusAnnounced
  | step_scale_up : lc_step capsuleStatusRunning TriggerScaleUpNeeded capsuleStatusAnnounced
  | step_scale_down : lc_step capsuleStatusRunning TriggerScaleDownNeeded capsuleStatusStopping
  | step_stopped : lc_step capsuleStatusStopping TriggerContainerStopped capsuleStatusStopped
  | step_restart : lc_step capsuleStatusStopped TriggerAnnounce capsuleStatusAnnounced.

Inductive lc_path : CapsuleStatus -> list string -> CapsuleStatus -> Prop :=
  | path_nil s : lc_path s [] s
  | path_snoc s ts s' t s'' : lc_path s ts s' -> lc_step s' t s'' -> lc_path s (ts ++ [t]) s''.

#[export] Hint Constructors lc_step lc_path : falak.

Lemma permitted_step s t d : permitted buildTable s t = Some d <-> lc_step s t d.
Proof.
  split.
  - unfold permitted, assoc, buildTable. simpl.
    repeat match goal with |- context [String.eqb s ?c] => destruct (String.eqb_spec s c) as [->|_] end;
      simpl;
      repeat match goal with |- context [String.eqb t ?c] => destruct (String.eqb_spec t c) as [->|_] end;
      simpl; intros E; simplify_eq; constructor.
  - by destruct 1.
Qed.

Lemma lc_step_valid s t d :
  lc_step s t d -> CapsuleStatus_Valid s = true /\ CapsuleStatus_Valid d = true.
Proof. by destruct 1. Qed.

(** The step relation is deterministic. *)
Lemma lc_step_det s t d1 d2 : lc_step s t d1 -> lc_step s t d2 -> d1 = d2.
Proof. rewrite <- !permitted_step. congruence. Qed.

Lemma lc_path_valid s ts d :
  lc_path s ts d -> CapsuleStatus_Valid s = true -> CapsuleStatus_Valid d = true.
Proof. induction 1 as [|s ts s' t s'' _ _ Hs]; [done|]. intros _. apply (lc_step_valid _ _ _ Hs). Qed.

(** The last step into a state, when it has a single incoming edge. *)
Lemma into_running s t : lc_step s t capsuleStatusRunning ->
  s = capsuleStatusExecuting /\ t = TriggerContainerReady.
Proof. by inversion 1. Qed.
Lemma into_executing s t : lc_step s t capsuleStatusExecuting ->
  s = capsuleStatusAssigned /\ t = TriggerExecutionStart.
Proof. by inversion 1. Qed.
Lemma into_assigned s t : lc_step s t capsuleStatusAssigned ->
  s = capsuleStatusElecting /\ t = TriggerElectionWon.
Proof. by inversion 1. Qed.
Lemma into_electing s t : lc_step s t capsuleStatusElecting ->
  s = capsuleStatusAnnounced /\ t = TriggerElectionStarted.
Proof. by inversion 1. Qed.

(** Peeling the last step off a path to a state other than its start. *)
Lemma lc_path_last s ts d :
  lc_path s ts d -> s <> d -> exists ts' s' t, ts = ts' ++ [t] /\ lc_path s ts' s' /\ lc_step s' t d.
Proof. inversion 1; subst; [done|]. eauto 6. Qed.

(** ** Behaviour of [Fire] *)

Section FireFacts.
Context `{L : StateMachineLib} `{!StateMachineLaws L}.

Lemma NewLifecycle_state id s :
  Lifecycle_State (NewLifecycle id s) =
  if CapsuleStatus_Valid s then s else capsuleStatusCreated.
Proof.
  unfold Lifecycle_State, NewLifecycle, buildMachine; simpl. rewrite new_state.
  destruct (CapsuleStatus_Valid s) eqn:E; [|by rewrite andb_false_r].
  destruct (String.eqb_spec s "") as [->|]; [done|done].
Qed.

Lemma NewLifecycle_wf id s : lifecycle_wf (NewLifecycle id s).
Proof.
  split; [apply new_conf|]. rewrite NewLifecycle_state. by destruct (CapsuleStatus_Valid s) eqn:E.
Qed.

(** An accepted trigger: the machine moves along the edge and the event
    reports that edge. *)
Lemma Fire_step l t d :
  lifecycle_wf l -> lc_step (Lifecycle_State l) t d ->
  exists l', Lifecycle_Fire l t =
      (l', Ok {| le_CapsuleID := lc_capsuleID l; le_From := Lifecycle_State l; le_To := d; le_Trigger := t |})
    /\ Lifecycle_State l' = d /\ lifecycle_wf l' /\ lc_capsuleID l' = lc_capsuleID l.
Proof.
  intros [Hc Hv] Hs. pose proof Hs as Hs'.
  apply permitted_step in Hs'. rewrite <- Hc in Hs'.
  destruct (fire_permitted _ _ _ Hs') as (m' & HF & HS & HC).
  unfold Lifecycle_Fire, Fire_run, Fire_capture; simpl. rewrite HF. simpl.
  eexists; split; [reflexivity|]. unfold lifecycle_wf, Lifecycle_State; simpl.
  split_and!; try done; [by rewrite HC|].
  rewrite HS. apply (lc_step_valid _ _ _ Hs).
Qed.

(** A rejected trigger: an error, and the state is unchanged. *)
Lemma Fire_reject l t :
  lifecycle_wf l -> (forall d, ~ lc_step (Lifecycle_State l) t d) ->
  exists l', Lifecycle_Fire l t = (l', Err (ErrTransitionFailed t))
    /\ Lifecycle_State l' = Lifecycle_State l /\ lifecycle_wf l' /\ lc_capsuleID l' = lc_capsuleID l.
Proof.
  intros [Hc Hv] Hs.
  assert (Hn : permitted (sm_conf (lc_machine l)) (sm_State (lc_machine l)) t = None).
  { rewrite Hc. destruct (permitted _ _ _) eqn:E; [|done]. apply permitted_step in E. by destruct (Hs _ E). }
  apply fire_rejected in Hn.
  unfold Lifecycle_Fire, Fire_run, Fire_capture; simpl. rewrite Hn. simpl.
  eexists; split; [reflexivity|]. by unfold lifecycle_wf, Lifecycle_State.
Qed.

Lemma lc_step_dec s t : (exists d, lc_step s t d) \/ (forall d, ~ lc_step s t d).
Proof.
  destruct (permitted buildTable s t) as [d|] eqn:E.
  - left. exists d. by apply permitted_step.
  - right. intros d Hs%permitted_step. congruence.
Qed.

(** C7: [Fire] implements the transition relation: on a
    well-formed machine it succeeds exactly when the relation has an edge for
    the trigger, then reports that edge and stands in its target; otherwise it
    returns an error and the state is unchanged. *)
Theorem lifecycle_fire_refines_relation l t (Hwf : lifecycle_wf l) :
  let '(l', r) := Lifecycle_Fire l t in
  lifecycle_wf l' /\
  match r with
  | Ok ev => lc_step (Lifecycle_State l) t (Lifecycle_State l') /\
             ev = {| le_CapsuleID := lc_capsuleID l; le_From := Lifecycle_State l;
                     le_To := Lifecycle_State l'; le_Trigger := t |}
  | Err e => (forall d, ~ lc_step (Lifecycle_State l) t d) /\
             Lifecycle_State l' = Lifecycle_State l /\ e = ErrTransitionFailed t
  end.
Proof.
  destruct (lc_step_dec (Lifecycle_State l) t) as [[d Hs]|Hn].
  - destruct (Fire_step l t d Hwf Hs) as (l' & -> & HS & Hwf' & _). by rewrite HS.
  - destruct (Fire_reject l t Hwf Hn) as (l' & -> & HS & Hwf' & _). done.
Qed.

(** [CanFire] predicts [Fire]. *)
Theorem lifecycle_canfire_sound l t (Hwf : lifecycle_wf l) :
  Lifecycle_CanFire l t = is_ok (snd (Lifecycle_Fire l t)).
Proof.
  unfold Lifecycle_CanFire. rewrite can_fire_permitted, (proj1 Hwf).
  destruct (lc_step_dec (Lifecycle_State l) t) as [[d Hs]|Hn].
  - destruct (Fire_step l t d Hwf Hs) as (l' & -> & _). simpl.
    apply permitted_step in Hs. unfold Lifecycle_State in Hs. rewrite Hs. by apply bool_decide_eq_true.
  - destruct (Fire_reject l t Hwf Hn) as (l' & -> & _). simpl.
    apply bool_decide_eq_false. intros [d Hd]. apply permitted_step in Hd. by apply (Hn d).
Qed.

(** The two halves of [Fire] are not one critical section.
    When a second caller enters [Fire] between them, the event of the first
    transition carries the second caller's trigger. *)
Theorem lifecycle_interleaved_fire_mislabels l t1 t2 d
    (Hwf : lifecycle_wf l) (Hs : lc_step (Lifecycle_State l) t1 d) :
  exists ev, snd (Fire_run (Fire_capture (Fire_capture l t1) t2) t1) = Ok ev
    /\ le_To ev = d /\ le_Trigger ev = t2.
Proof.
  apply permitted_step in Hs. rewrite <- (proj1 Hwf) in Hs.
  destruct (fire_permitted _ _ _ Hs) as (m' & HF & _).
  unfold Fire_run, Fire_capture; simpl. rewrite HF. by eexists.
Qed.

End FireFacts.

Definition demo_lifecycle : Lifecycle := NewLifecycle "c1" capsuleStatusRunning.

Lemma lifecycle_fire_refines_relation_witness :
  snd (Lifecycle_Fire demo_lifecycle TriggerNodeFailed) =
    Ok {| le_CapsuleID := "c1"; le_From := "running"; le_To := "announced"; le_Trigger := "node_failed" |} /\
  let '(l', r) := Lifecycle_Fire demo_lifecycle TriggerNodeFailed in
  lifecycle_wf l' /\
  match r with
  | Ok ev => lc_step (Lifecycle_State demo_lifecycle) TriggerNodeFailed (Lifecycle_State l') /\
             ev = {| le_CapsuleID := lc_capsuleID demo_lifecycle; le_From := Lifecycle_State demo_lifecycle;
                     le_To := Lifecycle_State l'; le_Trigger := TriggerNodeFailed |}
  | Err e => (forall d, ~ lc_step (Lifecycle_State demo_lifecycle) TriggerNodeFailed d) /\
             Lifecycle_State l' = Lifecycle_State demo_lifecycle /\ e = ErrTransitionFailed TriggerNodeFailed
  end.
Proof.
  split; [reflexivity|].
  apply (lifecycle_fire_refines_relation demo_lifecycle TriggerNodeFailed). apply NewLifecycle_wf.
Defined.

Lemma lifecycle_canfire_sound_witness :
  Lifecycle_CanFire demo_lifecycle TriggerAnnounce = false /\
  Lifecycle_CanFire demo_lifecycle TriggerAnnounce = is_ok (snd (Lifecycle_Fire demo_lifecycle TriggerAnnounce)).
Proof.
  split; [reflexivity|]. apply (lifecycle_canfire_sound demo_lifecycle TriggerAnnounce). apply NewLifecycle_wf.
Defined.

Lemma lifecycle_interleaved_fire_mislabels_witness :
  exists ev, snd (Fire_run (Fire_capture (Fire_capture demo_lifecycle TriggerStopRequested) TriggerAnnounce)
                    TriggerStopRequested) = Ok ev
    /\ le_To ev = capsuleStatusStopping /\ le_Trigger ev = TriggerAnnounce.
Proof.
  apply (lifecycle_interleaved_fire_mislabels demo_lifecycle TriggerStopRequested TriggerAnnounce
           capsuleStatusStopping); [apply NewLifecycle_wf|constructor].
Defined.

(** ** Reachability *)

(** A capsule that started at [created] reaches
    [running] only through an election that was started and won and an
    execution that was started and became ready, in that order and last. *)
Theorem lifecycle_running_requires_election ts
    (Hp : lc_path capsuleStatusCreated ts capsuleStatusRunning) :
  exists pre, ts = pre ++ [TriggerElectionStarted; TriggerElectionWon;
                           TriggerExecutionStart; TriggerContainerReady].
Proof.
  destruct (lc_path_last _ _ _ Hp ltac:(done)) as (t1 & s1 & ? & -> & Hp1 & H1).
  apply into_running in H1 as [-> ->].
  destruct (lc_path_last _ _ _ Hp1 ltac:(done)) as (t2 & s2 & ? & -> & Hp2 & H2).
  apply into_executing in H2 as [-> ->].
  destruct (lc_path_last _ _ _ Hp2 ltac:(done)) as (t3 & s3 & ? & -> & Hp3 & H3).
  apply into_assigned in H3 as [-> ->].
  destruct (lc_path_last _ _ _ Hp3 ltac:(done)) as (t4 & s4 & ? & -> & Hp4 & H4).
  apply into_electing in H4 as [-> ->].
  exists t4. by rewrite <- !app_assoc.
Qed.

Lemma lifecycle_running_requires_election_witness :
  exists pre, [TriggerAnnounce; TriggerElectionStarted; TriggerElectionWon;
               TriggerExecutionStart; TriggerContainerReady]
    = pre ++ [TriggerElectionStarted; TriggerElectionWon; TriggerExecutionStart; TriggerContainerReady].
Proof.
  apply lifecycle_running_requires_election.
  apply (path_snoc _ [TriggerAnnounce; TriggerElectionStarted; TriggerElectionWon; TriggerExecutionStart]
           capsuleStatusExecuting); [|constructor].
  apply (path_snoc _ [TriggerAnnounce; TriggerElectionStarted; TriggerElectionWon]
           capsuleStatusAssigned); [|constructor].
  apply (path_snoc _ [TriggerAnnounce; TriggerElectionStarted] capsuleStatusElecting); [|constructor].
  apply (path_snoc _ [TriggerAnnounce] capsuleStatusAnnounced); [|constructor].
  apply (path_snoc _ [] capsuleStatusCreated); constructor.
Defined.

(** No valid state is a dead end: at most two triggers lead
    from it back to [announced], from where a new election can start. *)
Theorem lifecycle_always_recoverable s (Hv : CapsuleStatus_Valid s = true) :
  exists ts, lc_path s ts capsuleStatusAnnounced /\ (length ts <= 2)%nat.
Proof.
  apply CapsuleStatus_Valid_spec in Hv.
  assert (Hone : forall t, lc_step s t capsuleStatusAnnounced ->
            exists ts, lc_path s ts capsuleStatusAnnounced /\ (length ts <= 2)%nat).
  { intros t Hs. exists ([] ++ [t]). split; [|simpl; lia]. by econstructor; [constructor|]. }
  unfold all_statuses in Hv. rewrite !elem_of_cons, elem_of_nil in Hv.
  destruct_or! Hv; subst; [eauto using lc_step| |eauto using lc_step..| |eauto using lc_step].
  - exists []. split; [constructor|simpl; lia].
  - exists (([] ++ [TriggerContainerStopped]) ++ [TriggerAnnounce]). split; [|simpl; lia].
    econstructor; [econstructor; [constructor|]|]; constructor.
Qed.

Lemma lifecycle_always_recoverable_witness :
  exists ts, lc_path capsuleStatusStopping ts capsuleStatusAnnounced /\ (length ts <= 2)%nat.
Proof. apply lifecycle_always_recoverable. reflexivity. Defined.
