(* ===== verification/CapsuleStore.v ===== *)
(** * Capsule store ([capsule/store.go])

    An in-memory cache of pointers to capsules, written through to SQLite.
    Capsules are shared objects: the store keeps the pointer its caller passed
    in and hands the same pointer out, so the model has a heap of capsules and
    the cache maps identifiers to heap locations.

    SQLite and the JSON encoding of the three structured columns are
    interfaces ([SqlTable], [JsonCodec]); the documented behaviour of the
    single table the store uses is [SqlTableLaws]. *)

From S2P Require Import Prelude CapsuleTypes.
Local Open Scope string_scope. Local Open Scope list_scope. Local Open Scope Z_scope.

(** ** External interfaces *)

(** A row of the [capsules] table; [None] in a JSON column is SQL NULL. *)
Record Row := {
  row_id : string; row_cluster_id : string; row_name : string; row_status : string;
  row_version : string; row_orbit : string; row_tier : string;
  row_spec_json : option string; row_replicas_json : option string;
  row_momentum_json : option string;
  row_created_at : Z; row_updated_at : Z
}.

(** The statements the store executes; [None] is a returned error. *)
Class SqlTable := {
  DB : Type;
  db_insert : DB -> Row -> option DB;
  (** [UPDATE ... WHERE id = ?]: sets every column but [id] and [created_at]. *)
  db_update : DB -> Row -> option DB;
  db_delete : DB -> string -> option DB;
  db_select : DB -> option (list Row)
}.

Definition keep_created (old new : Row) : Row :=
  {| row_id := row_id old; row_cluster_id := row_cluster_id new; row_name := row_name new;
     row_status := row_status new; row_version := row_version new; row_orbit := row_orbit new;
     row_tier := row_tier new; row_spec_json := row_spec_json new;
     row_replicas_json := row_replicas_json new; row_momentum_json := row_momentum_json new;
     row_created_at := row_created_at old; row_updated_at := row_updated_at new |}.

(** SQL semantics of a table keyed by its primary key [id]. *)
Class SqlTableLaws (S : SqlTable) := {
  db_rows : DB -> gmap string Row;
  db_rows_id : forall d k r, db_rows d !! k = Some r -> row_id r = k;
  db_insert_rows : forall d r d', db_insert d r = Some d' ->
    db_rows d !! row_id r = None /\ db_rows d' = <[row_id r := r]> (db_rows d);
  db_update_rows : forall d r d', db_update d r = Some d' ->
    db_rows d' = alter (fun old => keep_created old r) (row_id r) (db_rows d);
  db_delete_rows : forall d k d', db_delete d k = Some d' -> db_rows d' = delete k (db_rows d);
  db_select_rows : forall d rs, db_select d = Some rs -> rs ≡ₚ (map_to_list (db_rows d)).*2
}.

(** [encoding/json] on the three structured columns. *)
Class JsonCodec := {
  marshalSpec : CapsuleSpec -> option string;
  unmarshalSpec : string -> option CapsuleSpec;
  marshalReplicas : list ReplicaState -> option string;
  unmarshalReplicas : string -> option (list ReplicaState);
  marshalMomentum : MomentumState -> option string;
  unmarshalMomentum : string -> option MomentumState
}.

Definition zero_momentum : MomentumState :=
  {| ms_Current := 0; ms_Base := 0; ms_LastAdjusted := zero_time |}.

Inductive StoreError :=
  | ErrExists (id : CapsuleID)
  | ErrMissing (id : CapsuleID)
  | ErrPersist
  | ErrOpen
  | ErrNilPointer.   (** dereference of an invalid pointer panics *)

Abbreviation loc := positive (only parsing).

Section Store.
Context `{R : GoRange} `{S : SqlTable} `{J : JsonCodec}.

(** The store with the heap its pointers live in and the clock it reads; the
    n-th call of [time.Now] reads [st_clock n]. *)
Record Store := {
  st_heap : gmap loc Capsule;
  st_capsules : gmap string loc;
  st_db : option DB;
  st_clock : nat -> Time;
  st_ticks : nat
}.

Definition with_heap (h : gmap loc Capsule) (s : Store) : Store :=
  {| st_heap := h; st_capsules := st_capsules s; st_db := st_db s;
     st_clock := st_clock s; st_ticks := st_ticks s |}.
Definition with_capsules (m : gmap string loc) (s : Store) : Store :=
  {| st_heap := st_heap s; st_capsules := m; st_db := st_db s;
     st_clock := st_clock s; st_ticks := st_ticks s |}.
Definition with_db (d : option DB) (s : Store) : Store :=
  {| st_heap := st_heap s; st_capsules := st_capsules s; st_db := d;
     st_clock := st_clock s; st_ticks := st_ticks s |}.

(** [time.Now()] *)
Definition time_Now : ST Store Time := fun s =>
  (st_clock s (st_ticks s),
   {| st_heap := st_heap s; st_capsules := st_capsules s; st_db := st_db s;
      st_clock := st_clock s; st_ticks := Datatypes.S (st_ticks s) |}).

(** [&Capsule{...}]: allocation of a capsule. *)
Definition alloc (c : Capsule) : ST Store loc := fun s =>
  let p := fresh (dom (st_heap s)) in (p, with_heap (<[p := c]> (st_heap s)) s).

(** [*p = c], field assignments through a pointer. *)
Definition store_at (p : loc) (f : Capsule -> Capsule) : ST Store unit :=
  modify (fun s => with_heap (alter f p (st_heap s)) s).

(** The row written for a capsule: [insertDB] and [updateDB] marshal the same
    columns; [None] when a marshal fails. *)
Definition row_of (c : Capsule) : option Row :=
  specJSON ← marshalSpec (c_Spec c);
  replicasJSON ← marshalReplicas (c_Replicas c);
  momentumJSON ← marshalMomentum (c_Momentum c);
  Some {| row_id := c_ID c; row_cluster_id := c_ClusterID c; row_name := cs_Name (c_Spec c);
          row_status := c_Status c; row_version := c_Version c; row_orbit := cs_Orbit (c_Spec c);
          row_tier := cs_Tier (c_Spec c);
          row_spec_json := Some specJSON; row_replicas_json := Some replicasJSON;
          row_momentum_json := Some momentumJSON;
          row_created_at := UnixMilli (c_CreatedAt c); row_updated_at := UnixMilli (c_UpdatedAt c) |}.

Definition insertDB (d : DB) (c : Capsule) : option DB := row_of c ≫= db_insert d.
Definition updateDB (d : DB) (c : Capsule) : option DB := row_of c ≫= db_update d.

(** [if s.db != nil { if err := op(...); err != nil { return err } }]: the
    database after the statement, or [None] when it failed. *)
Definition through_db (d : option DB) (op : DB -> option DB) : option (option DB) :=
  match d with
  | None => Some None
  | Some db => Some <$> op db
  end.

(** ** Operations *)

Definition NewStore (clock : nat -> Time) : Store :=
  {| st_heap := ∅; st_capsules := ∅; st_db := None; st_clock := clock; st_ticks := 0 |}.

Definition Store_Get (id : CapsuleID) (s : Store) : option loc := st_capsules s !! id.

(** The object a lookup points to. *)
Definition deref (s : Store) (p : loc) : option Capsule := st_heap s !! p.
Definition capsule_at (s : Store) (id : CapsuleID) : option Capsule := Store_Get id s ≫= deref s.

Definition Store_Create (p : loc) : ST Store (result StoreError unit) := fun s =>
  match deref s p with
  | None => (Err ErrNilPointer, s)
  | Some c0 =>
    match st_capsules s !! c_ID c0 with
    | Some _ => (Err (ErrExists (c_ID c0)), s)
    | None =>
        let '(now, s) := time_Now s in
        let c := set_UpdatedAt now (set_CreatedAt now c0) in
        let s := with_heap (<[p := c]> (st_heap s)) s in
        match through_db (st_db s) (fun d => insertDB d c) with
        | None => (Err ErrPersist, s)
        | Some d => (Ok tt, with_capsules (<[c_ID c := p]> (st_capsules s)) (with_db d s))
        end
    end
  end.

Definition Store_Update (p : loc) : ST Store (result StoreError unit) := fun s =>
  match deref s p with
  | None => (Err ErrNilPointer, s)
  | Some c0 =>
    match st_capsules s !! c_ID c0 with
    | None => (Err (ErrMissing (c_ID c0)), s)
    | Some _ =>
        let '(now, s) := time_Now s in
        let c := set_UpdatedAt now c0 in
        let s := with_heap (<[p := c]> (st_heap s)) s in
        match through_db (st_db s) (fun d => updateDB d c) with
        | None => (Err ErrPersist, s)
        | Some d => (Ok tt, with_capsules (<[c_ID c := p]> (st_capsules s)) (with_db d s))
        end
    end
  end.

Definition Store_Delete (id : CapsuleID) : ST Store (result StoreError unit) := fun s =>
  match st_capsules s !! id with
  | None => (Err (ErrMissing id), s)
  | Some _ =>
      match through_db (st_db s) (fun d => db_delete d id) with
      | None => (Err ErrPersist, s)
      | Some d => (Ok tt, with_capsules (delete id (st_capsules s)) (with_db d s))
      end
  end.

(** The pointers of the cache in iteration order. *)
Definition cached (s : Store) : list loc := (range (st_capsules s)).*2.

Definition select (f : Capsule -> bool) (s : Store) : list loc :=
  List.filter (fun p => match deref s p with Some c => f c | None => false end) (cached s).

Definition Store_GetByName (name : string) (s : Store) : option loc :=
  find (fun p => match deref s p with Some c => cs_Name (c_Spec c) =s name | None => false end) (cached s).
Definition Store_List (s : Store) : list loc := cached s.
Definition Store_ListByOrbit (orbit : string) : Store -> list loc :=
  select (fun c => cs_Orbit (c_Spec c) =s orbit).
Definition Store_ListByLabels (labels : Labels) : Store -> list loc :=
  select (fun c => LabelsMatch (cs_Labels (c_Spec c)) labels).
Definition Store_ListByStatus (status : CapsuleStatus) : Store -> list loc :=
  select (fun c => c_Status c =s status).
Definition Store_Count (s : Store) : nat := size (st_capsules s).

(** ** Opening a database *)

(** An optional JSON column: NULL (or, where the source also tests for it, the
    empty string) leaves the zero value. *)
Definition scan_column {A} (zero : A) (skip_empty : bool) (unmarshal : string -> option A)
    (col : option string) : option A :=
  match col with
  | None => Some zero
  | Some j => if skip_empty && (j =s "") then Some zero else unmarshal j
  end.

Definition scanRow (r : Row) : option Capsule :=
  spec ← scan_column zero_spec false unmarshalSpec (row_spec_json r);
  replicas ← scan_column [] true unmarshalReplicas (row_replicas_json r);
  momentum ← scan_column zero_momentum true unmarshalMomentum (row_momentum_json r);
  Some {| c_ID := row_id r; c_ClusterID := row_cluster_id r; c_Spec := spec;
          c_Status := row_status r; c_Replicas := replicas; c_Momentum := momentum;
          c_Version := row_version r;
          c_CreatedAt := of_UnixMilli (row_created_at r);
          c_UpdatedAt := of_UnixMilli (row_updated_at r) |}.

Fixpoint load_rows (rs : list Row) (s : Store) : option Store :=
  match rs with
  | [] => Some s
  | r :: rs' =>
      c ← scanRow r;
      let '(p, s) := alloc c s in
      load_rows rs' (with_capsules (<[c_ID c := p]> (st_capsules s)) s)
  end.

(** [OpenStore] after the connection is open and the schema migrated. *)
Definition OpenStore (d : DB) (clock : nat -> Time) : result StoreError Store :=
  let s := with_db (Some d) (NewStore clock) in
  match db_select d ≫= fun rs => load_rows rs s with
  | Some s => Ok s
  | None => Err ErrOpen
  end.

End Store.

(** ** Well-formedness *)

Section StoreFacts.
Context `{R : GoRange} `{S : SqlTable} `{J : JsonCodec}.

(** Cached pointers are valid and an entry's key is its capsule's ID. *)
Definition store_wf (s : Store) : Prop :=
  forall id p, st_capsules s !! id = Some p -> exists c, st_heap s !! p = Some c /\ c_ID c = id.

Lemma store_wf_at s id p : store_wf s -> st_capsules s !! id = Some p ->
  exists c, st_heap s !! p = Some c /\ c_ID c = id /\ capsule_at s id = Some c.
Proof.
  intros Hwf Hp. destruct (Hwf _ _ Hp) as (c & Hc & Hid). exists c. split_and!; try done.
  unfold capsule_at, Store_Get, deref. rewrite Hp. done.
Qed.

(** Two cache entries never share a pointer. *)
Lemma store_wf_inj s id1 id2 p :
  store_wf s -> st_capsules s !! id1 = Some p -> st_capsules s !! id2 = Some p -> id1 = id2.
Proof.
  intros Hwf H1 H2. destruct (Hwf _ _ H1) as (c & Hc & <-), (Hwf _ _ H2) as (c' & Hc' & <-). congruence.
Qed.

(** Reading through the cache after one object was overwritten by an object
    with the same identifier. *)
Lemma capsule_at_heap_insert s p c id :
  store_wf s -> (forall c0, st_heap s !! p = Some c0 -> c_ID c = c_ID c0) ->
  capsule_at (with_heap (<[p := c]> (st_heap s)) s) id =
  if decide (st_capsules s !! id = Some p) then Some c else capsule_at s id.
Proof.
  intros Hwf Hid. unfold capsule_at, Store_Get, deref; cbn [with_heap st_heap st_capsules].
  destruct (st_capsules s !! id) as [q|] eqn:E; cbn [mbind option_bind]; [|by rewrite decide_False].
  case_decide as Hd; [injection Hd as ->; by rewrite lookup_insert_eq|].
  rewrite lookup_insert_ne; [done|]. congruence.
Qed.

Lemma store_wf_heap_insert s p c :
  store_wf s -> (forall c0, st_heap s !! p = Some c0 -> c_ID c = c_ID c0) ->
  store_wf (with_heap (<[p := c]> (st_heap s)) s).
Proof.
  intros Hwf Hid id q Hq. simpl in *. destruct (decide (p = q)) as [->|Hne].
  - rewrite lookup_insert_eq. exists c. split; [done|].
    destruct (Hwf _ _ Hq) as (c0 & Hc0 & <-). by apply Hid.
  - rewrite lookup_insert_ne by done. by apply Hwf.
Qed.

Lemma store_wf_capsules_insert s p c :
  store_wf s -> st_heap s !! p = Some c ->
  store_wf (with_capsules (<[c_ID c := p]> (st_capsules s)) s).
Proof.
  intros Hwf Hc id q. simpl. rewrite lookup_insert. case_decide; intros Hq; simplify_eq; eauto.
Qed.

(** ** Functional behaviour of the operations *)

(** The outcome of [Create] on a valid pointer. *)
Lemma Store_Create_spec s p c0 :
  st_heap s !! p = Some c0 ->
  let now := st_clock s (st_ticks s) in
  let c := set_UpdatedAt now (set_CreatedAt now c0) in
  let '(r, s') := Store_Create p s in
  match st_capsules s !! c_ID c0 with
  | Some _ => r = Err (ErrExists (c_ID c0)) /\ s' = s
  | None =>
      st_heap s' = <[p := c]> (st_heap s) /\ st_clock s' = st_clock s /\
      st_ticks s' = Datatypes.S (st_ticks s) /\
      match through_db (st_db s) (fun d => insertDB d c) with
      | Some d => r = Ok tt /\ st_capsules s' = <[c_ID c0 := p]> (st_capsules s) /\ st_db s' = d
      | None => r = Err ErrPersist /\ st_capsules s' = st_capsules s /\ st_db s' = st_db s
      end
  end.
Proof.
  intros Hc. unfold Store_Create, deref. rewrite Hc. simpl.
  destruct (st_capsules s !! c_ID c0); [done|]. simpl.
  destruct (through_db _ _); simpl; done.
Qed.

Lemma Store_Update_spec s p c0 :
  st_heap s !! p = Some c0 ->
  let c := set_UpdatedAt (st_clock s (st_ticks s)) c0 in
  let '(r, s') := Store_Update p s in
  match st_capsules s !! c_ID c0 with
  | None => r = Err (ErrMissing (c_ID c0)) /\ s' = s
  | Some _ =>
      st_heap s' = <[p := c]> (st_heap s) /\ st_clock s' = st_clock s /\
      st_ticks s' = Datatypes.S (st_ticks s) /\
      match through_db (st_db s) (fun d => updateDB d c) with
      | Some d => r = Ok tt /\ st_capsules s' = <[c_ID c0 := p]> (st_capsules s) /\ st_db s' = d
      | None => r = Err ErrPersist /\ st_capsules s' = st_capsules s /\ st_db s' = st_db s
      end
  end.
Proof.
  intros Hc. unfold Store_Update, deref. rewrite Hc. simpl.
  destruct (st_capsules s !! c_ID c0); [|done]. simpl.
  destruct (through_db _ _); simpl; done.
Qed.

Lemma Store_Create_wf s p r s' : store_wf s -> Store_Create p s = (r, s') -> store_wf s'.
Proof.
  intros Hwf E. destruct (st_heap s !! p) as [c0|] eqn:Hc.
  - pose proof (Store_Create_spec s p c0 Hc) as Hs. rewrite E in Hs. simpl in Hs.
    destruct (st_capsules s !! c_ID c0) eqn:Hid; [by destruct Hs as [_ ->]|].
    destruct Hs as (Hh & _ & _ & Hs).
    assert (Hcap : st_capsules s' = st_capsules s \/ st_capsules s' = <[c_ID c0 := p]> (st_capsules s))
      by (destruct (through_db _ _); naive_solver).
    intros id q Hq. rewrite Hh. destruct Hcap as [Hcap|Hcap]; rewrite Hcap in Hq.
    + destruct (Hwf _ _ Hq) as (cq & Hcq & <-). rewrite lookup_insert_ne by naive_solver. eauto.
    + rewrite lookup_insert in Hq. case_decide; simplify_eq.
      * rewrite lookup_insert_eq. eauto.
      * destruct (Hwf _ _ Hq) as (cq & Hcq & <-). rewrite lookup_insert_ne by naive_solver. eauto.
  - unfold Store_Create, deref in E. rewrite Hc in E. by simplify_eq.
Qed.

Lemma Store_Update_wf s p r s' : store_wf s -> Store_Update p s = (r, s') -> store_wf s'.
Proof.
  intros Hwf E. destruct (st_heap s !! p) as [c0|] eqn:Hc.
  - pose proof (Store_Update_spec s p c0 Hc) as Hs. rewrite E in Hs. simpl in Hs.
    destruct (st_capsules s !! c_ID c0) eqn:Hid; [|by destruct Hs as [_ ->]].
    destruct Hs as (Hh & _ & _ & Hs).
    assert (Hcap : st_capsules s' = st_capsules s \/ st_capsules s' = <[c_ID c0 := p]> (st_capsules s))
      by (destruct (through_db _ _); naive_solver).
    intros id q Hq. rewrite Hh. rewrite lookup_insert. destruct Hcap as [Hcap|Hcap]; rewrite Hcap in Hq.
    + destruct (Hwf _ _ Hq) as (cq & Hcq & <-). case_decide; simplify_eq; eauto.
    + rewrite lookup_insert in Hq. repeat case_decide; simplify_eq; eauto;
        destruct (Hwf _ _ Hq) as (cq & Hcq & <-); simplify_eq; eauto.
  - unfold Store_Update, deref in E. rewrite Hc in E. by simplify_eq.
Qed.

Lemma Store_Delete_wf s id r s' : store_wf s -> Store_Delete id s = (r, s') -> store_wf s'.
Proof.
  intros Hwf. unfold Store_Delete. destruct (st_capsules s !! id); [|by intros; simplify_eq].
  destruct (through_db _ _); intros E; simplify_eq; [|done].
  intros id' q. simpl. rewrite lookup_delete. case_decide; [done|]. apply Hwf.
Qed.

(** Every listing returns the cached objects that pass its test, each once. *)
Lemma select_spec f s id c :
  store_wf s ->
  (exists p, p ∈ select f s /\ st_capsules s !! id = Some p /\ deref s p = Some c) <->
  capsule_at s id = Some c /\ f c = true.
Proof.
  intros Hwf. unfold select, cached, capsule_at, Store_Get. split.
  - intros (p & Hin & Hid & Hp). rewrite Hid; simpl. split; [done|].
    apply list_elem_of_In, filter_In in Hin as [_ Hf]. by rewrite Hp in Hf.
  - intros [Hc Hf]. destruct (st_capsules s !! id) as [p|] eqn:Hid; [|done]. simpl in Hc.
    exists p. split_and!; try done. apply list_elem_of_In, filter_In. rewrite Hc. split; [|done].
    apply list_elem_of_In, list_elem_of_fmap. exists (id, p). by rewrite elem_of_range.
Qed.

End StoreFacts.

(** ** Write-through persistence *)

Section Persistence.
Context `{R : GoRange} `{S : SqlTable} `{!SqlTableLaws S} `{J : JsonCodec}.

(** The row holds the capsule's current columns; [created_at] is the one
    column an update leaves as it was. *)
Definition row_current (r : Row) (c : Capsule) : Prop :=
  exists r0, row_of c = Some r0 /\ keep_created r r0 = r.

(** The table has a row for exactly the cached capsules, and outside the
    identifiers in [X] the row is current. *)
Definition synced_but (X : gset string) (s : Store) : Prop :=
  store_wf s /\
  forall d, st_db s = Some d ->
    dom (db_rows d) = dom (st_capsules s) /\
    forall id c r, id ∉ X -> capsule_at s id = Some c -> db_rows d !! id = Some r -> row_current r c.

Definition synced (s : Store) : Prop := synced_but ∅ s.

Lemma row_of_id c r : row_of c = Some r -> row_id r = c_ID c.
Proof.
  unfold row_of. intros E.
  destruct (marshalSpec _); [|done]. destruct (marshalReplicas _); [|done].
  destruct (marshalMomentum _); [|done]. by simplify_eq/=.
Qed.

Lemma keep_created_self r r0 : row_id r0 = row_id r -> row_created_at r0 = row_created_at r ->
  keep_created r r0 = r0.
Proof. intros. destruct r0; unfold keep_created; simpl in *; congruence. Qed.

Lemma keep_created_idem r r0 : keep_created (keep_created r r0) r0 = keep_created r r0.
Proof. done. Qed.

Lemma through_db_Some d op d' :
  through_db (Some d) op = Some d' -> exists d1, d' = Some d1 /\ op d = Some d1.
Proof. simpl. destruct (op d); naive_solver. Qed.

(** A successful [Create] of a fresh capsule keeps cache and table in step. *)
Lemma Store_Create_synced X s p s' :
  synced_but X s -> Store_Create p s = (Ok tt, s') -> synced_but X s'.
Proof.
  intros [Hwf Hdb] E. pose proof (Store_Create_wf _ _ _ _ Hwf E) as Hwf'. split; [done|].
  destruct (st_heap s !! p) as [c0|] eqn:Hc;
    [|unfold Store_Create, deref in E; rewrite Hc in E; by simplify_eq].
  pose proof (Store_Create_spec s p c0 Hc) as Hs. rewrite E in Hs. simpl in Hs.
  destruct (st_capsules s !! c_ID c0) eqn:Hid; [by destruct Hs|].
  destruct Hs as (Hh & _ & _ & Hs). set (c := set_UpdatedAt _ _) in *.
  destruct (through_db _ _) as [d'|] eqn:Hd'; [|by destruct Hs].
  destruct Hs as (_ & Hcap & ->). intros d1 ->.
  destruct (st_db s) as [d|] eqn:Hd; [|done].
  apply through_db_Some in Hd' as (d2 & [= <-] & Hins). unfold insertDB in Hins.
  destruct (row_of c) as [rc|] eqn:Hrc; [|done]. simpl in Hins.
  apply db_insert_rows in Hins as [Hnone Hrows].
  rewrite (row_of_id _ _ Hrc) in Hnone, Hrows. simpl in Hnone, Hrows.
  destruct (Hdb d eq_refl) as [Hdom Hcur]. rewrite Hrows, Hcap. split.
  { rewrite !dom_insert_L. by rewrite Hdom. }
  intros id cx rx HX. unfold capsule_at, Store_Get, deref. rewrite Hcap, Hh.
  rewrite !lookup_insert. destruct (decide (c_ID c0 = id)) as [<-|Hne].
  - intros Hcx Hrx. simpl in Hcx. rewrite lookup_insert_eq in Hcx. simplify_eq.
    exists rx. split; [done|]. by apply keep_created_self.
  - destruct (st_capsules s !! id) as [q|] eqn:Hq; [|done]. simpl.
    destruct (Hwf _ _ Hq) as (cq & Hcq & Hidq).
    rewrite lookup_insert_ne by naive_solver. intros Hcx Hrx. apply (Hcur id); try done.
    unfold capsule_at, Store_Get, deref. by rewrite Hq.
Qed.

(** A successful [Update] brings its row up to date, whatever was assigned to
    the object's fields before the call. *)
Lemma Store_Update_synced X s p c0 s' :
  synced_but ({[c_ID c0]} ∪ X) s -> st_heap s !! p = Some c0 ->
  Store_Update p s = (Ok tt, s') -> synced_but (X ∖ {[c_ID c0]}) s'.
Proof.
  intros [Hwf Hdb] Hc E. pose proof (Store_Update_wf _ _ _ _ Hwf E) as Hwf'. split; [done|].
  pose proof (Store_Update_spec s p c0 Hc) as Hs. rewrite E in Hs. simpl in Hs.
  destruct (st_capsules s !! c_ID c0) eqn:Hid; [|by destruct Hs].
  destruct Hs as (Hh & _ & _ & Hs). set (c := set_UpdatedAt _ _) in *.
  destruct (through_db _ _) as [d'|] eqn:Hd'; [|by destruct Hs].
  destruct Hs as (_ & Hcap & ->). intros d1 ->.
  destruct (st_db s) as [d|] eqn:Hd; [|done].
  apply through_db_Some in Hd' as (d2 & [= <-] & Hupd). unfold updateDB in Hupd.
  destruct (row_of c) as [rc|] eqn:Hrc; [|done]. simpl in Hupd.
  apply db_update_rows in Hupd as Hrows. rewrite (row_of_id _ _ Hrc) in Hrows. simpl in Hrows.
  destruct (Hdb d eq_refl) as [Hdom Hcur]. rewrite Hrows, Hcap. split.
  { rewrite dom_alter_L, dom_insert_L, Hdom.
    assert (c_ID c0 ∈ dom (st_capsules s)) by (apply elem_of_dom; eauto). set_solver. }
  intros id cx rx HX. unfold capsule_at, Store_Get, deref. rewrite Hcap, Hh.
  rewrite lookup_insert, lookup_alter. destruct (decide (c_ID c0 = id)) as [<-|Hne].
  - intros Hcx Hrx. simpl in Hcx. rewrite lookup_insert_eq in Hcx. simplify_eq.
    destruct (db_rows d !! c_ID c0) as [old|]; [|done]. simpl in Hrx. simplify_eq.
    exists rc. by split.
  - destruct (st_capsules s !! id) as [q|] eqn:Hq; [|done]. simpl.
    destruct (Hwf _ _ Hq) as (cq & Hcq & Hidq).
    rewrite lookup_insert_ne by naive_solver. intros Hcx Hrx. apply (Hcur id); try done; [set_solver|].
    unfold capsule_at, Store_Get, deref. by rewrite Hq.
Qed.

Lemma Store_Delete_synced X s id s' :
  synced_but X s -> Store_Delete id s = (Ok tt, s') -> synced_but X s'.
Proof.
  intros [Hwf Hdb] E. split; [by eapply Store_Delete_wf|].
  unfold Store_Delete in E. destruct (st_capsules s !! id) eqn:Hid; [|done].
  destruct (through_db _ _) as [d'|] eqn:Hd'; simplify_eq. intros d1. simpl. intros ->.
  destruct (st_db s) as [d|] eqn:Hd; [|done].
  apply through_db_Some in Hd' as (d2 & [= <-] & Hdel). apply db_delete_rows in Hdel.
  destruct (Hdb d eq_refl) as [Hdom Hcur]. rewrite Hdel. split; [by rewrite !dom_delete_L, Hdom|].
  intros id' c r HX. unfold capsule_at, Store_Get, deref; simpl. rewrite !lookup_delete.
  destruct (decide (id = id')); [done|]. intros. by apply (Hcur id').
Qed.

(** ** Reopening *)

(** The JSON encoding of this capsule's structured columns reads back. *)
Definition json_faithful (c : Capsule) : Prop :=
  exists js jr jm,
    marshalSpec (c_Spec c) = Some js /\ unmarshalSpec js = Some (c_Spec c) /\
    marshalReplicas (c_Replicas c) = Some jr /\ jr <> "" /\ unmarshalReplicas jr = Some (c_Replicas c) /\
    marshalMomentum (c_Momentum c) = Some jm /\ jm <> "" /\ unmarshalMomentum jm = Some (c_Momentum c).

(** A capsule as the table stores it: times at millisecond precision. *)
Definition as_stored (created : Z) (c : Capsule) : Capsule :=
  set_UpdatedAt (of_UnixMilli (UnixMilli (c_UpdatedAt c))) (set_CreatedAt (of_UnixMilli created) c).

Lemma scanRow_current r c :
  row_current r c -> row_id r = c_ID c -> json_faithful c ->
  scanRow r = Some (as_stored (row_created_at r) c).
Proof.
  intros (r0 & Hr0 & Hk) Hid (js & jr & jm & H1 & H2 & H3 & Hn3 & H4 & H5 & Hn5 & H6).
  unfold row_of in Hr0. rewrite H1, H3, H5 in Hr0. simpl in Hr0. simplify_eq.
  rewrite <- Hk. unfold scanRow, scan_column, keep_created; simpl.
  rewrite H2. simpl. apply String.eqb_neq in Hn3, Hn5. rewrite Hn3, Hn5, H4, H6. simpl.
  unfold as_stored, set_UpdatedAt, set_CreatedAt; simpl. by rewrite Hid.
Qed.

Lemma scanRow_id r c : scanRow r = Some c -> c_ID c = row_id r.
Proof.
  unfold scanRow. intros E. apply bind_Some in E as (? & _ & E).
  apply bind_Some in E as (? & _ & E). apply bind_Some in E as (? & _ & E). by simplify_eq.
Qed.

Lemma load_rows_spec rs s :
  store_wf s -> NoDup (row_id <$> rs) -> Forall (fun r => is_Some (scanRow r)) rs ->
  exists s', load_rows rs s = Some s' /\ st_db s' = st_db s /\ store_wf s' /\
    forall id, capsule_at s' id =
      match list_find (fun r => row_id r = id) rs with
      | Some (_, r) => scanRow r
      | None => capsule_at s id
      end.
Proof.
  revert s. induction rs as [|r rs IH]; intros s Hwf Hnd Hall; simpl; [by eauto|].
  inversion_clear Hnd as [|? ? Hni Hnd']. inversion_clear Hall as [|? ? [c Hc] Hall'].
  rewrite Hc. cbn -[load_rows fresh with_capsules with_heap].
  set (p := fresh (dom (st_heap s))).
  assert (Hfresh : st_heap s !! p = None) by (apply not_elem_of_dom, is_fresh).
  assert (Hrid := scanRow_id _ _ Hc).
  set (s1 := with_heap (<[p:=c]> (st_heap s)) s).
  assert (Hwf1 : store_wf s1) by (apply store_wf_heap_insert; [done|congruence]).
  pose proof (store_wf_capsules_insert s1 p c Hwf1 ltac:(apply lookup_insert_eq)) as Hwf2.
  destruct (IH _ Hwf2 Hnd' Hall') as (s' & Hl & Hd & Hwf' & Hat).
  exists s'. split_and!; [exact Hl|by rewrite Hd|done|]. intros id. rewrite Hat.
  destruct (decide (row_id r = id)) as [<-|Hne].
  - assert (list_find (fun r0 => row_id r0 = row_id r) rs = None) as ->.
    { apply list_find_None, Forall_forall. intros r0 Hin E. apply Hni, list_elem_of_fmap.
      exists r0. split; [done|by apply list_elem_of_In]. }
    rewrite Hc. unfold capsule_at, Store_Get, deref; simpl. rewrite Hrid, lookup_insert_eq. simpl.
    by rewrite lookup_insert_eq.
  - destruct (list_find _ rs) as [[i r0]|] eqn:Hf; simpl; [done|].
    unfold capsule_at, Store_Get, deref; simpl. rewrite lookup_insert_ne by congruence.
    destruct (st_capsules s !! id) as [q|] eqn:Hq; [|done]. simpl.
    destruct (Hwf _ _ Hq) as (cq & Hcq & _). rewrite lookup_insert_ne by congruence. done.
Qed.

Lemma OpenStore_restores s d rs clock
    (Hsync : synced s) (Hd : st_db s = Some d) (Hsel : db_select d = Some rs)
    (Hjson : forall id c, capsule_at s id = Some c -> json_faithful c) :
  exists s', OpenStore d clock = Ok s' /\ store_wf s' /\
    forall id, match capsule_at s id with
               | None => capsule_at s' id = None
               | Some c => exists r, db_rows d !! id = Some r /\
                   capsule_at s' id = Some (as_stored (row_created_at r) c)
               end.
Proof.
  destruct Hsync as [Hwf Hdb]. destruct (Hdb d Hd) as [Hdom Hcur].
  apply db_select_rows in Hsel as Hperm.
  assert (Hrow : forall r, r ∈ rs <-> db_rows d !! row_id r = Some r).
  { intros r. rewrite Hperm, list_elem_of_fmap. split.
    - intros ([k r0] & -> & Hin). apply elem_of_map_to_list in Hin. simpl.
      by rewrite (db_rows_id _ _ _ Hin).
    - intros Hr. exists (row_id r, r). by rewrite elem_of_map_to_list. }
  assert (Hscan : forall r, r ∈ rs -> exists c, capsule_at s (row_id r) = Some c /\
                    scanRow r = Some (as_stored (row_created_at r) c)).
  { intros r Hr%Hrow. assert (Hin : row_id r ∈ dom (st_capsules s)) by (rewrite <- Hdom; apply elem_of_dom; eauto).
    apply elem_of_dom in Hin as [p Hp]. destruct (store_wf_at _ _ _ Hwf Hp) as (c & _ & Hid & Hc).
    exists c. split; [done|]. eapply scanRow_current; eauto. apply (Hcur (row_id r)); [set_solver|done..]. }
  destruct (load_rows_spec rs (with_db (Some d) (NewStore clock))) as (s' & Hl & _ & Hwf' & Hat).
  - done.
  - rewrite Hperm. rewrite <- list_fmap_compose.
    apply (NoDup_fmap_2_strong _ _); [|apply NoDup_map_to_list].
    intros [k1 r1] [k2 r2] H1%elem_of_map_to_list H2%elem_of_map_to_list; simpl.
    rewrite (db_rows_id _ _ _ H1), (db_rows_id _ _ _ H2). intros ->. congruence.
  - apply Forall_forall. intros r Hr%list_elem_of_In. destruct (Hscan r Hr) as (c & _ & ->). eauto.
  - exists s'. unfold OpenStore. rewrite Hsel. cbn [mbind option_bind]. rewrite Hl. split; [done|]. split; [done|].
    intros id. rewrite Hat. destruct (list_find _ rs) as [[i r]|] eqn:Hf.
    + apply list_find_Some in Hf as (Hi & <- & _). apply list_elem_of_lookup_2 in Hi.
      destruct (Hscan r Hi) as (c & -> & ->). exists r. split; [by apply Hrow|done].
    + apply list_find_None in Hf. rewrite Forall_forall in Hf.
      destruct (capsule_at s id) as [c|] eqn:Hc; [|done]. exfalso.
      unfold capsule_at, Store_Get in Hc. destruct (st_capsules s !! id) as [p|] eqn:Hp; [|done].
      assert (Hin : id ∈ dom (db_rows d)) by (rewrite Hdom; apply elem_of_dom; eauto).
      apply elem_of_dom in Hin as [r Hr]. pose proof (db_rows_id _ _ _ Hr) as Hid.
      eapply (Hf r); [|exact Hid]. apply list_elem_of_In, Hrow. by rewrite Hid.
Qed.

(** C6: closing a store whose cache and table agree, and whose
    capsules survive their JSON encoding, and opening the database again with a
    query that succeeds gives back the same capsules and no others, with
    [UpdatedAt] cut to milliseconds and [CreatedAt] the time that the capsule's
    row of the table records. *)
Theorem store_reopen_restores s d rs clock
    (Hsync : synced s) (Hd : st_db s = Some d) (Hsel : db_select d = Some rs)
    (Hjson : forall id c, capsule_at s id = Some c -> json_faithful c) :
  exists s', OpenStore d clock = Ok s' /\
    forall id, match capsule_at s id with
               | None => capsule_at s' id = None
               | Some c => exists r, db_rows d !! id = Some r /\
                   capsule_at s' id = Some (as_stored (row_created_at r) c)
               end.
Proof.
  destruct (OpenStore_restores s d rs clock Hsync Hd Hsel Hjson) as (s' & Ho & _ & Hat). eauto.
Qed.

(** The three mutating operations as one step. *)
Inductive store_op := OpCreate (p : loc) | OpUpdate (p : loc) | OpDelete (id : CapsuleID).

Definition run_op (op : store_op) : ST Store (result StoreError unit) :=
  match op with
  | OpCreate p => Store_Create p
  | OpUpdate p => Store_Update p
  | OpDelete id => Store_Delete id
  end.

(** Cache and table stay in step: after any successful
    create, update or delete the table has one row per cached capsule and
    every row holds its capsule's current columns. *)
Theorem store_write_through s op s' (Hsync : synced s) (Hrun : run_op op s = (Ok tt, s')) : synced s'.
Proof.
  destruct op as [p|p|id]; simpl in Hrun.
  - by eapply Store_Create_synced.
  - destruct (st_heap s !! p) as [c0|] eqn:Hc;
      [|unfold Store_Update, deref in Hrun; rewrite Hc in Hrun; by simplify_eq].
    assert (Hs : synced_but (∅ ∖ {[c_ID c0]}) s').
    { eapply Store_Update_synced; [|exact Hc|exact Hrun].
      destruct Hsync as [Hwf Hdb]. split; [done|]. intros d Hd. destruct (Hdb d Hd) as [? Hcur].
      split; [done|]. intros id c r HX. apply Hcur. set_solver. }
    by replace (∅ ∖ {[c_ID c0]}) with (∅ : gset string) in Hs by set_solver.
  - by eapply Store_Delete_synced.
Qed.

End Persistence.

(** ** An in-memory table and a constant codec, for evaluation *)

Definition mem_rows (d : list Row) : gmap string Row := list_to_map ((fun r => (row_id r, r)) <$> d).

Definition mem_table : SqlTable := {|
  DB := list Row;
  db_insert := fun d r => match mem_rows d !! row_id r with Some _ => None | None => Some (r :: d) end;
  db_update := fun d r =>
    Some ((fun old => if row_id old =s row_id r then keep_created old r else old) <$> d);
  db_delete := fun d k => Some (List.filter (fun r => row_id r <>s k) d);
  db_select := fun d => Some (map_to_list (mem_rows d)).*2
|}.

Lemma mem_rows_cons r d k :
  mem_rows (r :: d) !! k = if row_id r =s k then Some r else mem_rows d !! k.
Proof.
  unfold mem_rows; simpl. rewrite lookup_insert.
  destruct (String.eqb_spec (row_id r) k), (decide (row_id r = k)); done.
Qed.

Definition mem_table_laws : SqlTableLaws mem_table.
Proof.
  refine (Build_SqlTableLaws mem_table mem_rows _ _ _ _ _).
  - intros d k r. simpl. induction d as [|r0 d IH]; [done|]. rewrite mem_rows_cons.
    destruct (String.eqb_spec (row_id r0) k); [|done]. by intros; simplify_eq.
  - intros d r d'. simpl. destruct (mem_rows d !! row_id r) eqn:E; [done|]. by intros; simplify_eq.
  - intros d r d'. simpl. intros [= <-]. apply map_eq. intros k. rewrite lookup_alter.
    induction d as [|r0 d IH]; [by case_decide|]. rewrite fmap_cons, !mem_rows_cons, IH. clear IH.
    destruct (String.eqb_spec (row_id r0) (row_id r)) as [E|E]; simpl;
      destruct (String.eqb_spec (row_id r0) k); case_decide; try done; congruence.
  - intros d k d'. simpl. intros [= <-]. apply map_eq. intros k'. rewrite lookup_delete.
    induction d as [|r0 d IH]; simpl; [by case_decide|]. rewrite mem_rows_cons.
    destruct (String.eqb_spec (row_id r0) k); simpl; rewrite ?mem_rows_cons, IH;
      destruct (String.eqb_spec (row_id r0) k'); case_decide; try done; congruence.
  - intros d rs. simpl. by intros [= <-].
Defined.

Definition demo_capsule (id : CapsuleID) (status : CapsuleStatus) : Capsule :=
  {| c_ID := id; c_ClusterID := "us/dc1/prod"; c_Spec := zero_spec; c_Status := status;
     c_Replicas := []; c_Momentum := zero_momentum; c_Version := "1"; c_CreatedAt := 0; c_UpdatedAt := 0 |}.

Definition demo_codec : JsonCodec := {|
  marshalSpec := fun _ => Some "{}"; unmarshalSpec := fun _ => Some zero_spec;
  marshalReplicas := fun _ => Some "null"; unmarshalReplicas := fun _ => Some [];
  marshalMomentum := fun _ => Some "{}"; unmarshalMomentum := fun _ => Some zero_momentum |}.

(** A store with a database, and one capsule object on the heap. *)
Definition demo_store : Store (S := mem_table) :=
  {| st_heap := {[ 1%positive := demo_capsule "c1" capsuleStatusCreated ]}; st_capsules := ∅;
     st_db := Some (@nil Row : @DB mem_table); st_clock := fun n => 1500 * microsecond + Z.of_nat n; st_ticks := 0 |}.

Definition demo_stored : Store (S := mem_table) :=
  snd (Store_Create (S := mem_table) (J := demo_codec) 1%positive demo_store).

Lemma demo_store_synced : synced (S := mem_table) (J := demo_codec) (SqlTableLaws0 := mem_table_laws) demo_store.
Proof.
  split; [intros id p Hp; simpl in Hp; by rewrite lookup_empty in Hp|].
  intros d Hd. simpl in Hd. simplify_eq. split; [done|]. intros id c r _ Hc.
  unfold capsule_at, Store_Get in Hc. simpl in Hc. by rewrite lookup_empty in Hc.
Qed.

Lemma store_write_through_witness :
  synced (S := mem_table) (J := demo_codec) (SqlTableLaws0 := mem_table_laws) demo_stored /\
  capsule_at demo_stored "c1" <> None.
Proof.
  split; [|vm_compute; discriminate].
  apply (store_write_through (S := mem_table) (J := demo_codec) (SqlTableLaws0 := mem_table_laws)
           demo_store (OpCreate 1%positive) demo_stored); [exact demo_store_synced|reflexivity].
Defined.

Lemma demo_stored_synced : synced (S := mem_table) (J := demo_codec) (SqlTableLaws0 := mem_table_laws) demo_stored.
Proof. apply (Store_Create_synced ∅ demo_store 1%positive); [exact demo_store_synced|reflexivity]. Qed.

Lemma demo_stored_faithful id c :
  capsule_at demo_stored id = Some c -> json_faithful (J := demo_codec) c.
Proof.
  unfold capsule_at, Store_Get, deref. intros Hc.
  destruct (st_capsules demo_stored !! id) as [p|] eqn:E; [|done].
  assert (p = 1%positive) as ->.
  { change (st_capsules demo_stored) with (<["c1" := 1%positive]> (∅ : gmap string positive)) in E.
    rewrite lookup_insert, lookup_empty in E. case_decide; congruence. }
  vm_compute in Hc. injection Hc as <-. exists "{}", "null", "{}". by split_and!.
Qed.

Lemma store_reopen_restores_witness :
  exists d rs s', st_db demo_stored = Some d /\ db_select (SqlTable := mem_table) d = Some rs /\
    OpenStore (S := mem_table) (J := demo_codec) d (fun _ => 0) = Ok s' /\
    forall id, match capsule_at demo_stored id with
               | None => capsule_at s' id = None
               | Some c => exists r, db_rows (SqlTableLaws := mem_table_laws) d !! id = Some r /\
                   capsule_at s' id = Some (as_stored (row_created_at r) c)
               end.
Proof.
  do 2 eexists.
  edestruct (store_reopen_restores (S := mem_table) (J := demo_codec) (SqlTableLaws0 := mem_table_laws)
               demo_stored) as (s' & H1 & H2);
    [exact demo_stored_synced|reflexivity|reflexivity|apply demo_stored_faithful|].
  exists s'. split; [reflexivity|]. split; [reflexivity|]. split; [exact H1|exact H2].
Defined.
