(* ===== verification/CapsuleManager.v ===== *)
(** * Capsule manager ([capsule/manager.go], [capsule/metrics.go])

    The manager ties the store to one lifecycle machine per capsule.  Its
    state is the store, the lifecycle map, and the two logs it writes: the
    events handed to the event handler and the calls made on the metrics
    sink. *)

From S2P Require Import Prelude CapsuleTypes CapsuleSpec Lifecycle CapsuleStore.
Local Open Scope string_scope. Local Open Scope list_scope. Local Open Scope Z_scope.

(** ** Events and metrics *)

Definition EventCapsuleCreated : string := "capsule.created".
Definition EventCapsuleUpdated : string := "capsule.updated".
Definition EventCapsuleDeleted : string := "capsule.deleted".
Definition EventCapsuleReceived : string := "capsule.received".
Definition EventCapsuleAnnounced : string := "capsule.announced".
Definition EventCapsuleRunning : string := "capsule.running".
Definition EventCapsuleStopping : string := "capsule.stopping".
Definition EventCapsuleStopped : string := "capsule.stopped".
Definition EventCapsuleStatusChanged : string := "capsule.status_changed".

(** [me_Seen] is what the pointer [me_Capsule] shows while the handler runs:
    handlers are called synchronously. *)
Record ManagerEvent := {
  me_Type : string; me_CapsuleID : CapsuleID; me_Capsule : loc; me_Seen : option Capsule; me_Timestamp : Time
}.

(** The calls of the [Metrics] interface; [NoopMetrics] ignores each of them. *)
Inductive MetricsCall :=
  | IncCreated (clusterID : string)
  | IncReceived (clusterID : string)
  | IncAnnounced (clusterID orbit : string)
  | IncWithdrawn (clusterID reason : string)
  | IncStatusTransition (from to : CapsuleStatus) (trigger : string)
  | IncScalingTriggered (action : ScalingAction) (rule : string)
  | ObserveMomentum (id : CapsuleID) (value : Z).

(** [CountingMetrics]: the atomic 64-bit counters those calls feed. *)
Record CountingMetrics := {
  cm_Created : Z; cm_Received : Z; cm_Announced : Z; cm_Withdrawn : Z; cm_Transitions : Z;
  cm_ScalingEvents : Z
}.

Definition count_call (m : CountingMetrics) (c : MetricsCall) : CountingMetrics :=
  let inc (b : bool) (x : Z) := if b then int64 (x + 1) else x in
  let hit k := match c with
              | IncCreated _ => k =? 0 | IncReceived _ => k =? 1 | IncAnnounced _ _ => k =? 2
              | IncWithdrawn _ _ => k =? 3 | IncStatusTransition _ _ _ => k =? 4
              | IncScalingTriggered _ _ => k =? 5 | ObserveMomentum _ _ => false end in
  {| cm_Created := inc (hit 0) (cm_Created m); cm_Received := inc (hit 1) (cm_Received m);
     cm_Announced := inc (hit 2) (cm_Announced m); cm_Withdrawn := inc (hit 3) (cm_Withdrawn m);
     cm_Transitions := inc (hit 4) (cm_Transitions m); cm_ScalingEvents := inc (hit 5) (cm_ScalingEvents m) |}.

Definition statusEventType (status : CapsuleStatus) : string :=
  if status =s capsuleStatusAnnounced then EventCapsuleAnnounced
  else if status =s capsuleStatusRunning then EventCapsuleRunning
  else if status =s capsuleStatusStopping then EventCapsuleStopping
  else if status =s capsuleStatusStopped then EventCapsuleStopped
  else EventCapsuleStatusChanged.

Inductive ManagerError :=
  | ErrClusterIDRequired
  | ErrInvalidSpec (errs : list SpecError)
  | ErrCapsuleNotFound (id : CapsuleID)
  | ErrStore (e : StoreError)
  | ErrLifecycle (id : CapsuleID) (e : LifecycleError)
  | ErrInvalidStatus (status : CapsuleStatus).

Section Manager.
Context `{R : GoRange} `{S : SqlTable} `{J : JsonCodec} `{L : StateMachineLib}.

Record Manager := {
  m_store : Store;
  m_lifecycles : gmap string Lifecycle;
  m_events : list ManagerEvent;
  m_metrics : list MetricsCall
}.

Definition with_store (s : Store) (m : Manager) : Manager :=
  {| m_store := s; m_lifecycles := m_lifecycles m; m_events := m_events m; m_metrics := m_metrics m |}.
Definition with_lifecycles (l : gmap string Lifecycle) (m : Manager) : Manager :=
  {| m_store := m_store m; m_lifecycles := l; m_events := m_events m; m_metrics := m_metrics m |}.

(** Runs a store operation inside the manager. *)
Definition on_store {A} (f : ST Store A) : ST Manager A := fun m =>
  let '(a, s) := f (m_store m) in (a, with_store s m).

Definition call_metrics (c : MetricsCall) : ST Manager unit := modify (fun m =>
  {| m_store := m_store m; m_lifecycles := m_lifecycles m; m_events := m_events m;
     m_metrics := m_metrics m ++ [c] |}).

Definition set_lifecycle (id : CapsuleID) (l : Lifecycle) : ST Manager unit :=
  modify (fun m => with_lifecycles (<[id := l]> (m_lifecycles m)) m).

(** [emit]: the handler receives the event with the shared pointer. *)
Definition emit (eventType : string) (p : loc) : ST Manager unit :=
  c ← gets (fun m => deref (m_store m) p);
  now ← on_store time_Now;
  modify (fun m =>
    {| m_store := m_store m; m_lifecycles := m_lifecycles m;
       m_events := m_events m ++ [{| me_Type := eventType; me_CapsuleID := default "" (c_ID <$> c); me_Capsule := p; me_Seen := c;
                                me_Timestamp := now |}];
       m_metrics := m_metrics m |}).

(** [c.F = v; c.UpdatedAt = time.Now(); store.Update(c)]: the sequence every
    in-place change of a stored capsule goes through. *)
Definition assign_and_save (p : loc) (f : Capsule -> Capsule) : ST Store (result StoreError unit) :=
  now ← time_Now;
  _ ← store_at p (fun c => set_UpdatedAt now (f c));
  Store_Update p.

(** ** Lifecycle wiring *)

Definition newLifecycle (id : CapsuleID) (initial : CapsuleStatus) : Lifecycle := NewLifecycle id initial.

(** The lifecycles [NewManager] installs for the capsules already stored. *)
Definition restore_lifecycles (s : Store) : gmap string Lifecycle :=
  list_to_map (omap (fun p => c ← deref s p; Some (c_ID c, newLifecycle (c_ID c) (c_Status c))) (Store_List s)).

Definition NewManager (s : Store) : Manager :=
  {| m_store := s; m_lifecycles := restore_lifecycles s; m_events := []; m_metrics := [] |}.

Definition onLifecycleTransition (event : LifecycleEvent) : ST Manager unit :=
  p ← gets (fun m => Store_Get (le_CapsuleID event) (m_store m));
  match p with
  | None => mret tt
  | Some p =>
      r ← on_store (assign_and_save p (set_Status (le_To event)));
      match r with
      | Err _ => mret tt
      | Ok _ =>
          _ ← call_metrics (IncStatusTransition (le_From event) (le_To event) (le_Trigger event));
          emit (statusEventType (le_To event)) p
      end
  end.

(** [Fire]: the machine moves, then its entry action calls back into the
    manager. *)
Definition Manager_Fire (id : CapsuleID) (trigger : string) : ST Manager (result ManagerError unit) :=
  lc ← gets (fun m => m_lifecycles m !! id);
  match lc with
  | None => mret (Err (ErrCapsuleNotFound id))
  | Some lc =>
      let '(lc', r) := Lifecycle_Fire lc trigger in
      _ ← set_lifecycle id lc';
      match r with
      | Err e => mret (Err (ErrLifecycle id e))
      | Ok event => _ ← onLifecycleTransition event; mret (Ok tt)
      end
  end.

Definition Manager_Status (id : CapsuleID) (m : Manager) : result ManagerError CapsuleStatus :=
  match m_lifecycles m !! id with
  | None => Err (ErrCapsuleNotFound id)
  | Some lc => Ok (Lifecycle_State lc)
  end.

Definition Manager_Announce (id : CapsuleID) := Manager_Fire id TriggerAnnounce.
Definition Manager_StartElection (id : CapsuleID) := Manager_Fire id TriggerElectionStarted.
Definition Manager_WinElection (id : CapsuleID) := Manager_Fire id TriggerElectionWon.
Definition Manager_ElectionTimeout (id : CapsuleID) := Manager_Fire id TriggerElectionTimeout.
Definition Manager_StartExecution (id : CapsuleID) := Manager_Fire id TriggerExecutionStart.
Definition Manager_MarkRunning (id : CapsuleID) := Manager_Fire id TriggerContainerReady.
Definition Manager_ExecutionFailed (id : CapsuleID) := Manager_Fire id TriggerExecutionFailed.
Definition Manager_StopCapsule (id : CapsuleID) := Manager_Fire id TriggerStopRequested.
Definition Manager_MarkStopped (id : CapsuleID) := Manager_Fire id TriggerContainerStopped.
Definition Manager_NodeFailed (id : CapsuleID) := Manager_Fire id TriggerNodeFailed.
Definition Manager_ScaleUp (id : CapsuleID) := Manager_Fire id TriggerScaleUpNeeded.
Definition Manager_ScaleDown (id : CapsuleID) := Manager_Fire id TriggerScaleDownNeeded.

(** ** Operations *)

(** The object [Create] allocates; [random] is what the random source gave. *)
Definition new_capsule (random : list ascii) (clusterID : string) (spec : CapsuleSpec) (now : Time) : Capsule :=
  {| c_ID := NewCapsuleID random; c_ClusterID := clusterID; c_Spec := spec;
     c_Status := capsuleStatusCreated; c_Replicas := [];
     c_Momentum := {| ms_Current := mc_Base (cs_MomentumConfig spec);
                      ms_Base := mc_Base (cs_MomentumConfig spec); ms_LastAdjusted := now |};
     c_Version := "1"; c_CreatedAt := now; c_UpdatedAt := now |}.

Definition Manager_Create (random : list ascii) (clusterID : string) (spec0 : CapsuleSpec)
  : ST Manager (result ManagerError loc) :=
  if clusterID =s "" then mret (Err ErrClusterIDRequired)
  else
    let spec := DefaultSpec spec0 in
    match ValidateSpec spec with
    | e :: es => mret (Err (ErrInvalidSpec (e :: es)))
    | [] =>
        now ← on_store time_Now;
        p ← on_store (alloc (new_capsule random clusterID spec now));
        r ← on_store (Store_Create p);
        match r with
        | Err e => mret (Err (ErrStore e))
        | Ok _ =>
            let id := NewCapsuleID random in
            _ ← set_lifecycle id (newLifecycle id capsuleStatusCreated);
            _ ← call_metrics (IncCreated clusterID);
            _ ← emit EventCapsuleCreated p;
            _ ← Manager_Announce id;   (* a failure is only logged *)
            mret (Ok p)
        end
    end.

Definition Manager_Get (id : CapsuleID) (m : Manager) : option loc := Store_Get id (m_store m).
Definition Manager_GetByName (name : string) (m : Manager) : option loc := Store_GetByName name (m_store m).
Definition Manager_List (m : Manager) : list loc := Store_List (m_store m).
Definition Manager_ListByOrbit (orbit : string) (m : Manager) : list loc := Store_ListByOrbit orbit (m_store m).
Definition Manager_ListByLabels (labels : Labels) (m : Manager) : list loc := Store_ListByLabels labels (m_store m).
Definition Manager_Count (m : Manager) : nat := Store_Count (m_store m).

Definition Manager_Update (id : CapsuleID) (spec0 : CapsuleSpec) : ST Manager (result ManagerError loc) :=
  let spec := DefaultSpec spec0 in
  match ValidateSpec spec with
  | e :: es => mret (Err (ErrInvalidSpec (e :: es)))
  | [] =>
      p ← gets (Manager_Get id);
      match p with
      | None => mret (Err (ErrCapsuleNotFound id))
      | Some p =>
          r ← on_store (assign_and_save p (set_Spec spec));
          match r with
          | Err e => mret (Err (ErrStore e))
          | Ok _ => _ ← emit EventCapsuleUpdated p; mret (Ok p)
          end
      end
  end.

Definition Manager_Delete (id : CapsuleID) : ST Manager (result ManagerError unit) :=
  p ← gets (Manager_Get id);
  match p with
  | None => mret (Err (ErrCapsuleNotFound id))
  | Some p =>
      r ← on_store (Store_Delete id);
      match r with
      | Err e => mret (Err (ErrStore e))
      | Ok _ =>
          _ ← modify (fun m => with_lifecycles (delete id (m_lifecycles m)) m);
          _ ← emit EventCapsuleDeleted p;
          mret (Ok tt)
      end
  end.

(** [Receive] of the capsule object at [p]. *)
Definition Manager_Receive (p : loc) : ST Manager (result ManagerError unit) :=
  c ← gets (fun m => deref (m_store m) p);
  match c with
  | None => mret (Err (ErrStore ErrNilPointer))
  | Some c =>
      existing ← gets (Manager_Get (c_ID c));
      r ← match existing with
          | Some _ => on_store (Store_Update p)
          | None =>
              r ← on_store (Store_Create p);
              match r with
              | Err e => mret (Err e)
              | Ok _ =>
                  let initial := if negb (CapsuleStatus_Valid (c_Status c)) then capsuleStatusAnnounced else c_Status c in
                  _ ← set_lifecycle (c_ID c) (newLifecycle (c_ID c) initial);
                  mret (Ok tt)
              end
          end;
      match r with
      | Err e => mret (Err (ErrStore e))
      | Ok _ =>
          _ ← call_metrics (IncReceived (c_ClusterID c));
          _ ← emit EventCapsuleReceived p;
          mret (Ok tt)
      end
  end.

(** The loop of [AssignReplica]: the first slot with this replica ID is
    overwritten, otherwise a slot is appended. *)
Fixpoint assign_slot (replicaID : ReplicaID) (nodeID : string) (now : Time) (rs : list ReplicaState)
  : list ReplicaState :=
  let slot := {| rs_ReplicaID := replicaID; rs_NodeID := nodeID;
                 rs_Status := capsuleStatusAssigned; rs_StartedAt := now |} in
  match rs with
  | [] => [slot]
  | r :: rs' => if rs_ReplicaID r =s replicaID then slot :: rs'
                else r :: assign_slot replicaID nodeID now rs'
  end.

Definition Manager_AssignReplica (id : CapsuleID) (replicaID : ReplicaID) (nodeID : string)
  : ST Manager (result ManagerError unit) :=
  p ← gets (Manager_Get id);
  match p with
  | None => mret (Err (ErrCapsuleNotFound id))
  | Some p =>
      now ← on_store time_Now;
      r ← on_store (assign_and_save p (fun c => set_Replicas (assign_slot replicaID nodeID now (c_Replicas c)) c));
      match r with
      | Err e => mret (Err (ErrStore e))
      | Ok _ => mret (Ok tt)
      end
  end.

Definition Manager_SyncStatus (id : CapsuleID) (status : CapsuleStatus) : ST Manager (result ManagerError unit) :=
  if negb (CapsuleStatus_Valid status) then mret (Err (ErrInvalidStatus status))
  else
    p ← gets (Manager_Get id);
    match p with
    | None => mret (Err (ErrCapsuleNotFound id))
    | Some p =>
        r ← on_store (assign_and_save p (set_Status status));
        match r with
        | Err e => mret (Err (ErrStore e))
        | Ok _ =>
            _ ← set_lifecycle id (newLifecycle id status);
            _ ← emit (statusEventType status) p;
            mret (Ok tt)
        end
    end.

End Manager.

(** ** Coherence of store and lifecycles *)

Section ManagerFacts.
Context `{R : GoRange} `{S : SqlTable} `{J : JsonCodec} `{L : StateMachineLib} `{!StateMachineLaws L}.

(** Managers that differ only in their logs and clock. *)
#[export] Instance manager_equiv : Equiv Manager := fun m1 m2 =>
  st_heap (m_store m1) = st_heap (m_store m2) /\
  st_capsules (m_store m1) = st_capsules (m_store m2) /\
  st_db (m_store m1) = st_db (m_store m2) /\
  m_lifecycles m1 = m_lifecycles m2.

#[export] Instance manager_equivalence : Equivalence (≡@{Manager}).
Proof. split; unfold equiv, manager_equiv; [done| |]; intros ?; naive_solver congruence. Qed.

(** What the lifecycle map holds for a capsule agrees with the capsule. *)
Definition agree (id : CapsuleID) (c : option Capsule) (lc : option Lifecycle) : Prop :=
  match c, lc with
  | Some c, Some lc => lifecycle_wf lc /\ lc_capsuleID lc = id /\ Lifecycle_State lc = c_Status c
  | None, None => True
  | _, _ => False
  end.

(** Every stored capsule has one machine, in the capsule's status. *)
Definition coherent (m : Manager) : Prop :=
  store_wf (m_store m) /\
  forall id, agree id (capsule_at (m_store m) id) (m_lifecycles m !! id).

#[export] Instance coherent_proper : Proper ((≡) ==> iff) coherent.
Proof.
  intros m1 m2 (Hh & Hc & _ & Hl). unfold coherent, store_wf, capsule_at, Store_Get, deref.
  by rewrite Hh, Hc, Hl.
Qed.

Lemma emit_equiv t p m : snd (emit t p m) ≡ m.
Proof. done. Qed.

Lemma call_metrics_equiv c m : snd (call_metrics c m) ≡ m.
Proof. done. Qed.

Lemma assign_and_save_unfold p f s :
  assign_and_save p f s =
  let t := st_clock s (st_ticks s) in
  Store_Update p {| st_heap := alter (fun c => set_UpdatedAt t (f c)) p (st_heap s);
                    st_capsules := st_capsules s; st_db := st_db s; st_clock := st_clock s;
                    st_ticks := Datatypes.S (st_ticks s) |}.
Proof. reflexivity. Qed.

(** Assigning fields of a stored capsule and saving it changes that capsule
    only; without a database the save cannot fail. *)
Lemma assign_and_save_spec s id p c f :
  store_wf s -> st_capsules s !! id = Some p -> st_heap s !! p = Some c -> c_ID (f c) = c_ID c ->
  let '(r, s') := assign_and_save p f s in
  store_wf s' /\ st_capsules s' = st_capsules s /\
  (exists t, capsule_at s' id = Some (set_UpdatedAt t (f c))) /\
  (forall id', id' <> id -> capsule_at s' id' = capsule_at s id') /\
  (r = Ok tt \/ r = Err ErrPersist) /\
  (st_db s = None -> r = Ok tt /\ st_db s' = None).
Proof.
  intros Hwf Hp Hc Hid.
  assert (c_ID c = id) as Hcid by (destruct (Hwf _ _ Hp) as (? & ? & ?); congruence).
  rewrite assign_and_save_unfold. cbv zeta. set (t := st_clock s (st_ticks s)). set (s1 := Build_Store _ _ _ _ _).
  assert (Hh1 : st_heap s1 = <[p := set_UpdatedAt t (f c)]> (st_heap s)).
  { simpl. apply map_eq. intros q. rewrite lookup_alter, lookup_insert. case_decide; [|done].
    subst. by rewrite Hc. }
  assert (Hc1 : st_capsules s1 = st_capsules s) by done.
  pose proof (Store_Update_spec s1 p (set_UpdatedAt t (f c))
                ltac:(by rewrite Hh1, lookup_insert_eq)) as Hu.
  destruct (Store_Update p s1) as [r s'] eqn:E.
  assert (Hwf1 : store_wf s1).
  { intros id' q Hq. rewrite Hh1. simpl in Hq. rewrite lookup_insert.
    destruct (Hwf _ _ Hq) as (cq & Hcq & Hidq). case_decide; simplify_eq; eauto. }
  pose proof (Store_Update_wf _ _ _ _ Hwf1 E) as Hwf'.
  simpl in Hu. rewrite Hid, Hcid, Hp in Hu. destruct Hu as (Hh' & _ & _ & Hu).
  assert (Hcap : st_capsules s' = st_capsules s).
  { destruct (through_db _ _); destruct Hu as (_ & -> & _); [|done]. by apply insert_id. }
  assert (Hat : forall id', capsule_at s' id' = if decide (id' = id) then Some (set_UpdatedAt (st_clock s1 (st_ticks s1)) (set_UpdatedAt t (f c))) else capsule_at s id').
  { intros id'. unfold capsule_at, Store_Get, deref. rewrite Hcap, Hh'. case_decide as Hd.
    - subst id'. rewrite Hp. simpl. by rewrite lookup_insert_eq.
    - destruct (st_capsules s !! id') as [q|] eqn:Hq; [|done]. simpl.
      assert (p <> q) by (intros ->; exact (Hd (store_wf_inj s id' id q Hwf Hq Hp))).
      rewrite lookup_insert_ne by done. rewrite lookup_alter. case_decide; [done|]. done. }
  split_and!; [done|done| | | |].
  - exists (st_clock s1 (st_ticks s1)). rewrite Hat, decide_True by done. done.
  - intros id' Hne. by rewrite Hat, decide_False.
  - destruct (through_db _ _); naive_solver.
  - intros Hdb. rewrite Hdb in Hu. simpl in Hu. naive_solver.
Qed.

(** Changing one capsule and its machine together keeps coherence. *)
Lemma coherent_change m s' lcs' id c lc :
  coherent m -> store_wf s' ->
  (forall id', id' <> id -> capsule_at s' id' = capsule_at (m_store m) id') ->
  (forall id', id' <> id -> lcs' !! id' = m_lifecycles m !! id') ->
  capsule_at s' id = c -> lcs' !! id = lc -> agree id c lc ->
  coherent (with_lifecycles lcs' (with_store s' m)).
Proof.
  intros [_ Hag] Hwf Hs Hl Hc Hlc Ha. split; [done|]. intros id'. simpl.
  destruct (decide (id' = id)) as [->|Hne]; [by rewrite Hc, Hlc|]. rewrite Hs, Hl by done. apply Hag.
Qed.

Lemma coherent_lookup m id lc :
  coherent m -> m_lifecycles m !! id = Some lc ->
  exists p c, st_capsules (m_store m) !! id = Some p /\ st_heap (m_store m) !! p = Some c /\
    c_ID c = id /\ capsule_at (m_store m) id = Some c /\
    lifecycle_wf lc /\ lc_capsuleID lc = id /\ Lifecycle_State lc = c_Status c.
Proof.
  intros [Hwf Hag] Hlc. specialize (Hag id). rewrite Hlc in Hag.
  destruct (capsule_at (m_store m) id) as [c|] eqn:Hc; [|done].
  unfold capsule_at, Store_Get in Hc.
  destruct (st_capsules (m_store m) !! id) as [p|] eqn:Hp; [|done]. simpl in Hc.
  destruct (Hwf _ _ Hp) as (c' & Hc' & Hid). unfold deref in Hc. simplify_eq.
  exists p, c. naive_solver.
Qed.

Lemma coherent_get m id p :
  coherent m -> Manager_Get id m = Some p ->
  exists c lc, st_heap (m_store m) !! p = Some c /\ c_ID c = id /\ capsule_at (m_store m) id = Some c /\
    m_lifecycles m !! id = Some lc /\ lifecycle_wf lc /\ lc_capsuleID lc = id /\
    Lifecycle_State lc = c_Status c.
Proof.
  intros [Hwf Hag] Hp. unfold Manager_Get, Store_Get in Hp.
  destruct (store_wf_at _ _ _ Hwf Hp) as (c & Hc & Hid & Hat).
  specialize (Hag id). rewrite Hat in Hag. destruct (m_lifecycles m !! id) as [lc|]; [|done].
  exists c, lc. naive_solver.
Qed.

(** *** Fire *)

Lemma onLifecycleTransition_unfold ev m :
  onLifecycleTransition ev m =
  match Store_Get (le_CapsuleID ev) (m_store m) with
  | None => (tt, m)
  | Some p =>
      let '(r, s') := assign_and_save p (set_Status (le_To ev)) (m_store m) in
      match r with
      | Err _ => (tt, with_store s' m)
      | Ok _ => emit (statusEventType (le_To ev)) p
                  (snd (call_metrics (IncStatusTransition (le_From ev) (le_To ev) (le_Trigger ev))
                          (with_store s' m)))
      end
  end.
Proof.
  unfold onLifecycleTransition, mbind, ST_bind, gets, on_store.
  destruct (Store_Get _ _); [|done]. by destruct (assign_and_save _ _ _) as [[|] ?].
Qed.

(** The callback run by an entry action: the capsule takes the new status,
    whether or not the save reaches the database. *)
Lemma onLifecycleTransition_spec m ev p c :
  store_wf (m_store m) -> st_capsules (m_store m) !! le_CapsuleID ev = Some p ->
  st_heap (m_store m) !! p = Some c ->
  let m' := snd (onLifecycleTransition ev m) in
  store_wf (m_store m') /\ m_lifecycles m' = m_lifecycles m /\
  (exists t, capsule_at (m_store m') (le_CapsuleID ev) = Some (set_UpdatedAt t (set_Status (le_To ev) c))) /\
  (forall id', id' <> le_CapsuleID ev -> capsule_at (m_store m') id' = capsule_at (m_store m) id') /\
  (st_db (m_store m) = None ->
     map me_Type (m_events m') = map me_Type (m_events m) ++ [statusEventType (le_To ev)]).
Proof.
  intros Hwf Hp Hc. rewrite onLifecycleTransition_unfold. unfold Store_Get. rewrite Hp.
  pose proof (assign_and_save_spec (m_store m) (le_CapsuleID ev) p c (set_Status (le_To ev)) Hwf Hp Hc eq_refl) as Hs.
  destruct (assign_and_save p (set_Status (le_To ev)) (m_store m)) as [r s'].
  destruct Hs as (Hwf' & Hcap & Hat & Hoth & Hr & Hdb). destruct r; simpl; split_and!; try done.
  - intros _. by rewrite map_app.
  - intros H. by destruct (Hdb H).
Qed.

Lemma Manager_Fire_spec m id t :
  coherent m ->
  let '(r, m') := Manager_Fire id t m in
  coherent m' /\
  (forall id', id' <> id -> capsule_at (m_store m') id' = capsule_at (m_store m) id') /\
  match capsule_at (m_store m) id with
  | None => r = Err (ErrCapsuleNotFound id) /\ m' = m
  | Some c =>
      match permitted buildTable (c_Status c) t with
      | Some d => r = Ok tt /\ (exists u, capsule_at (m_store m') id = Some (set_UpdatedAt u (set_Status d c))) /\
                  (st_db (m_store m) = None ->
                     map me_Type (m_events m') = map me_Type (m_events m) ++ [statusEventType d])
      | None => r = Err (ErrLifecycle id (ErrTransitionFailed t)) /\ capsule_at (m_store m') id = Some c
                /\ m_store m' = m_store m /\ m_events m' = m_events m
      end
  end.
Proof.
  intros Hco. unfold Manager_Fire, mbind, ST_bind, gets. cbn [fst snd].
  destruct (m_lifecycles m !! id) as [lc|] eqn:Hlc.
  - destruct (coherent_lookup _ _ _ Hco Hlc) as (p & c & Hp & Hc & Hid & Hat & Hwf & Hlid & Hst).
    rewrite Hat. destruct (permitted buildTable (c_Status c) t) as [d|] eqn:Hperm.
    + apply permitted_step in Hperm. rewrite <- Hst in Hperm.
      destruct (Fire_step lc t d Hwf Hperm) as (lc' & HF & HS & Hwf' & Hid'). rewrite HF.
      unfold set_lifecycle, modify. set (m1 := with_lifecycles _ m).
      set (ev := {| le_CapsuleID := lc_capsuleID lc; le_From := _; le_To := d; le_Trigger := t |}).
      pose proof (onLifecycleTransition_spec m1 ev p c) as Ho. simpl in Ho. rewrite Hlid in Ho.
      specialize (Ho (proj1 Hco) Hp Hc).
      destruct (onLifecycleTransition ev m1) as [[] m2]. simpl in Ho.
      destruct Ho as (Hwf2 & Hl2 & [u Hu] & Hoth & Hev). cbn. split_and!.
      * split; [done|]. intros id'. rewrite Hl2. subst m1. simpl.
        destruct (decide (id' = id)) as [->|Hne].
        -- rewrite Hu, lookup_insert_eq. simpl. by rewrite Hid'.
        -- rewrite Hoth, lookup_insert_ne by done. apply Hco.
      * done.
      * done.
      * by exists u.
      * exact Hev.
    + assert (Hn : forall d, ~ lc_step (Lifecycle_State lc) t d).
      { intros d Hd%permitted_step. congruence. }
      destruct (Fire_reject lc t Hwf Hn) as (lc' & HF & HS & Hwf' & Hid'). rewrite HF.
      unfold set_lifecycle, modify. cbn. split_and!; try done.
      split; [apply Hco|]. intros id'. simpl. destruct (decide (id' = id)) as [->|Hne].
      * rewrite lookup_insert_eq, Hat. simpl. split_and!; [done|congruence|congruence].
      * rewrite lookup_insert_ne by done. apply Hco.
  - pose proof (proj2 Hco id) as Ha. rewrite Hlc in Ha.
    destruct (capsule_at (m_store m) id); [done|]. done.
Qed.

(** *** The other operations *)

Lemma capsule_at_get s id p c :
  st_capsules s !! id = Some p -> st_heap s !! p = Some c -> capsule_at s id = Some c.
Proof. intros Hp Hc. unfold capsule_at, Store_Get, deref. by rewrite Hp. Qed.

Lemma Store_Create_at s p c0 :
  store_wf s -> st_heap s !! p = Some c0 ->
  let '(r, s') := Store_Create p s in
  store_wf s' /\ (forall id', id' <> c_ID c0 -> capsule_at s' id' = capsule_at s id') /\
  match r with
  | Ok _ => capsule_at s (c_ID c0) = None /\ st_capsules s' !! c_ID c0 = Some p /\
            exists t, capsule_at s' (c_ID c0) = Some (set_UpdatedAt t (set_CreatedAt t c0))
  | Err _ => capsule_at s' (c_ID c0) = capsule_at s (c_ID c0)
  end.
Proof.
  intros Hwf Hc. pose proof (Store_Create_spec s p c0 Hc) as Hs.
  destruct (Store_Create p s) as [r s'] eqn:E. pose proof (Store_Create_wf _ _ _ _ Hwf E) as Hwf'.
  simpl in Hs. destruct (st_capsules s !! c_ID c0) as [q|] eqn:Hid; [by destruct Hs as [-> ->]|].
  destruct Hs as (Hh & _ & _ & Hs).
  assert (Hnone : capsule_at s (c_ID c0) = None) by (unfold capsule_at, Store_Get; by rewrite Hid).
  assert (Hcap : forall id', id' <> c_ID c0 -> st_capsules s' !! id' = st_capsules s !! id').
  { intros id' Hne. destruct (through_db _ _); destruct Hs as (_ & -> & _); [|done].
    by rewrite lookup_insert_ne. }
  split_and!; [done| |].
  - intros id' Hne. unfold capsule_at, Store_Get, deref. rewrite Hcap, Hh by done.
    destruct (st_capsules s !! id') as [q|] eqn:Hq; [|done]. simpl.
    destruct (Hwf _ _ Hq) as (cq & Hcq & Hidq). rewrite lookup_insert_ne by congruence. done.
  - destruct (through_db _ _); destruct Hs as (-> & Hc' & _).
    + assert (Hp : st_capsules s' !! c_ID c0 = Some p) by (by rewrite Hc', lookup_insert_eq).
      split_and!; [done|done|]. eexists. eapply capsule_at_get; [exact Hp|]. by rewrite Hh, lookup_insert_eq.
    + unfold capsule_at, Store_Get. by rewrite Hc', Hid.
Qed.

Lemma alloc_at s c :
  store_wf s ->
  let '(p, s') := alloc c s in
  store_wf s' /\ st_heap s' !! p = Some c /\ (forall id, capsule_at s' id = capsule_at s id) /\
  st_capsules s' = st_capsules s /\ st_db s' = st_db s /\ st_heap s !! p = None.
Proof.
  intros Hwf. unfold alloc. set (p := fresh _).
  assert (Hf : st_heap s !! p = None) by (apply not_elem_of_dom, is_fresh).
  split_and!; try done.
  - apply store_wf_heap_insert; [done|congruence].
  - simpl. by rewrite lookup_insert_eq.
  - intros id. rewrite capsule_at_heap_insert by (done || congruence).
    case_decide as Hd; [|done]. destruct (Hwf _ _ Hd) as (? & ? & _). congruence.
Qed.

(** An operation that changes neither the status nor the machine of any
    capsule keeps coherence. *)
Lemma coherent_same_status m s' id c c' :
  coherent m -> store_wf s' -> capsule_at (m_store m) id = Some c ->
  (forall id', id' <> id -> capsule_at s' id' = capsule_at (m_store m) id') ->
  capsule_at s' id = Some c' -> c_Status c' = c_Status c -> coherent (with_store s' m).
Proof.
  intros [_ Hag] Hwf Hc Hoth Hc' Hst. split; [done|]. intros id'. simpl.
  destruct (decide (id' = id)) as [->|Hne]; [|rewrite Hoth by done; apply Hag].
  specialize (Hag id). rewrite Hc in Hag. rewrite Hc'. unfold agree in *.
  destruct (m_lifecycles m !! id); [|done]. by rewrite Hst.
Qed.

Lemma Manager_Update_coherent m id spec : coherent m -> coherent (snd (Manager_Update id spec m)).
Proof.
  intros Hco. unfold Manager_Update. destruct (ValidateSpec _); [|done].
  unfold mbind, ST_bind, gets, on_store.
  destruct (Manager_Get id m) as [p|] eqn:Hp; [|done].
  destruct (coherent_get _ _ _ Hco Hp) as (c & lc & Hc & Hid & Hat & _).
  pose proof (assign_and_save_spec (m_store m) id p c (set_Spec (DefaultSpec spec)) (proj1 Hco) Hp Hc eq_refl) as Hs.
  destruct (assign_and_save _ _ _) as [r s']. destruct Hs as (Hwf & _ & [t Ht] & Hoth & _).
  assert (Hco' : coherent (with_store s' m)) by (eapply coherent_same_status; eauto).
  destruct r; exact Hco'.
Qed.

Definition assign_replica_in (rid : ReplicaID) (nid : string) (now : Time) (c : Capsule) : Capsule :=
  set_Replicas (assign_slot rid nid now (c_Replicas c)) c.

Lemma Manager_AssignReplica_unfold m id rid nid :
  Manager_AssignReplica id rid nid m =
  match Manager_Get id m with
  | None => (Err (ErrCapsuleNotFound id), m)
  | Some p =>
      let '(now, s1) := time_Now (m_store m) in
      let '(r, s') := assign_and_save p (assign_replica_in rid nid now) s1 in
      (match r with Ok _ => Ok tt | Err e => Err (ErrStore e) end, with_store s' m)
  end.
Proof.
  unfold Manager_AssignReplica, mbind, ST_bind, gets, on_store.
  destruct (Manager_Get id m); [|done]. cbn -[assign_and_save].
  unfold assign_replica_in. by destruct (assign_and_save _ _ _) as [[|] ?].
Qed.

Lemma Manager_AssignReplica_coherent m id rid nid :
  coherent m -> coherent (snd (Manager_AssignReplica id rid nid m)).
Proof.
  intros Hco. rewrite Manager_AssignReplica_unfold.
  destruct (Manager_Get id m) as [p|] eqn:Hp; [|done]. unfold time_Now.
  set (s1 := Build_Store _ _ _ _ _). set (now := st_clock _ _).
  destruct (coherent_get _ _ _ Hco Hp) as (c & lc & Hc & Hid & Hat & _).
  pose proof (assign_and_save_spec s1 id p c (assign_replica_in rid nid now) (proj1 Hco) Hp Hc eq_refl) as Hs.
  destruct (assign_and_save _ _ _) as [r s']. destruct Hs as (Hwf & _ & [t Ht] & Hoth & _).
  eapply coherent_same_status; eauto.
Qed.

Lemma Manager_Delete_coherent m id : coherent m -> coherent (snd (Manager_Delete id m)).
Proof.
  intros Hco. unfold Manager_Delete, mbind, ST_bind, gets, on_store.
  destruct (Manager_Get id m) as [p|] eqn:Hp; [|done].
  unfold Store_Delete. unfold Manager_Get, Store_Get in Hp. rewrite Hp.
  destruct (through_db _ _) as [d|]; [|exact Hco].
  cut (coherent (with_lifecycles (delete id (m_lifecycles m))
         (with_store (with_capsules (delete id (st_capsules (m_store m))) (with_db d (m_store m))) m))); [done|].
  eapply (coherent_change m _ _ id None None); try done.
  - intros id' q. simpl. rewrite lookup_delete. case_decide; [done|]. apply Hco.
  - intros id' Hne. unfold capsule_at, Store_Get, deref; simpl. by rewrite lookup_delete_ne.
  - intros id' Hne. by rewrite lookup_delete_ne.
  - unfold capsule_at, Store_Get, deref; simpl. by rewrite lookup_delete_eq.
  - by rewrite lookup_delete_eq.
Qed.

Lemma coherent_install m s' id c lc :
  coherent m -> store_wf s' ->
  (forall id', id' <> id -> capsule_at s' id' = capsule_at (m_store m) id') ->
  capsule_at s' id = Some c -> agree id (Some c) (Some lc) ->
  coherent (with_lifecycles (<[id := lc]> (m_lifecycles m)) (with_store s' m)).
Proof.
  intros. eapply coherent_change; eauto.
  - intros. by rewrite lookup_insert_ne.
  - by rewrite lookup_insert_eq.
Qed.

Lemma Manager_SyncStatus_coherent m id st r m' :
  coherent m -> Manager_SyncStatus id st m = (r, m') -> (forall e, r <> Err (ErrStore e)) -> coherent m'.
Proof.
  intros Hco. unfold Manager_SyncStatus, mret, ST_ret.
  destruct (CapsuleStatus_Valid st) eqn:Hv; simpl; [|by intros E _; simplify_eq].
  unfold mbind, ST_bind, gets, on_store.
  destruct (Manager_Get id m) as [p|] eqn:Hp; [|by intros E _; simplify_eq].
  destruct (coherent_get _ _ _ Hco Hp) as (c & lc & Hc & Hid & Hat & _).
  pose proof (assign_and_save_spec (m_store m) id p c (set_Status st) (proj1 Hco) Hp Hc eq_refl) as Hs.
  destruct (assign_and_save _ _ _) as [r0 s']. destruct Hs as (Hwf & _ & [t Ht] & Hoth & _).
  destruct r0 as [u|e]; simpl; intros E Hne; simplify_eq; [|by destruct (Hne e)].
  cut (coherent (with_lifecycles (<[c_ID c := newLifecycle (c_ID c) st]> (m_lifecycles m)) (with_store s' m)));
    [done|].
  eapply coherent_install; eauto. split_and!; [apply NewLifecycle_wf|done|].
  unfold newLifecycle. rewrite NewLifecycle_state. by rewrite Hv.
Qed.

Definition created_manager (m : Manager) (random : list ascii) (cl : string) (s : Store) (p : loc) : Manager :=
  let id := NewCapsuleID random in
  snd (emit EventCapsuleCreated p (snd (call_metrics (IncCreated cl)
    (with_lifecycles (<[id := newLifecycle id capsuleStatusCreated]> (m_lifecycles m)) (with_store s m))))).

Lemma Manager_Create_unfold m random cl spec :
  Manager_Create random cl spec m =
  if cl =s "" then (Err ErrClusterIDRequired, m)
  else match ValidateSpec (DefaultSpec spec) with
       | e :: es => (Err (ErrInvalidSpec (e :: es)), m)
       | [] =>
           let '(now, s0) := time_Now (m_store m) in
           let '(p, s1) := alloc (new_capsule random cl (DefaultSpec spec) now) s0 in
           let '(r, s2) := Store_Create p s1 in
           match r with
           | Err e => (Err (ErrStore e), with_store s2 m)
           | Ok _ => (Ok p, snd (Manager_Announce (NewCapsuleID random) (created_manager m random cl s2 p)))
           end
       end.
Proof.
  unfold Manager_Create, mbind, ST_bind, on_store, mret, ST_ret.
  destruct (cl =s ""); [done|]. destruct (ValidateSpec _); [|done].
  destruct (time_Now _) as [now s0]. cbn [with_store m_store].
  destruct (alloc _ s0) as [p s1]. cbn [with_store m_store].
  destruct (Store_Create p s1) as [[u|e] s2]; [|done].
  unfold created_manager, set_lifecycle, modify. cbn [fst snd].
  destruct (call_metrics _ _) as [[] m1]. cbn [fst snd].
  destruct (emit _ _ _) as [[] m2]. cbn [fst snd].
  by destruct (Manager_Announce _ _).
Qed.

Lemma created_manager_equiv m random cl s p :
  created_manager m random cl s p ≡
  with_lifecycles (<[NewCapsuleID random := newLifecycle (NewCapsuleID random) capsuleStatusCreated]> (m_lifecycles m))
    (with_store s m).
Proof. done. Qed.

Lemma Manager_Create_coherent m random cl spec :
  coherent m -> coherent (snd (Manager_Create random cl spec m)).
Proof.
  intros Hco. rewrite Manager_Create_unfold. destruct (cl =s ""); [done|].
  destruct (ValidateSpec _); [|done].
  unfold time_Now. set (s0 := Build_Store _ _ _ _ _). set (now := st_clock _ _).
  set (c0 := new_capsule _ _ _ _).
  pose proof (alloc_at s0 c0 (proj1 Hco)) as Ha. destruct (alloc c0 s0) as [p s1].
  destruct Ha as (Hwf1 & Hp & Hat1 & _).
  pose proof (Store_Create_at s1 p c0 Hwf1 Hp) as Hcr. destruct (Store_Create p s1) as [r s2].
  destruct Hcr as (Hwf2 & Hoth & Hr). destruct r as [u|e].
  - destruct Hr as (_ & _ & [t Ht]).
    set (id := NewCapsuleID random) in *.
    assert (Hco1 : coherent (created_manager m random cl s2 p)).
    { rewrite created_manager_equiv. eapply coherent_install; eauto.
      - intros id' Hne. rewrite (Hoth id' Hne). apply Hat1.
      - split_and!; [apply NewLifecycle_wf|done|]. unfold newLifecycle. by rewrite NewLifecycle_state. }
    pose proof (Manager_Fire_spec _ id TriggerAnnounce Hco1) as HF. unfold Manager_Announce.
    destruct (Manager_Fire _ _ _) as [r' m']. by destruct HF.
  - split; [exact Hwf2|]. intros id'. cbn -[capsule_at].
    destruct (decide (id' = c_ID c0)) as [->|Hne].
    + rewrite Hr, Hat1. apply (proj2 Hco).
    + rewrite (Hoth _ Hne), Hat1. apply (proj2 Hco).
Qed.

Lemma Manager_Receive_new_coherent m p c :
  coherent m -> st_heap (m_store m) !! p = Some c -> Manager_Get (c_ID c) m = None ->
  CapsuleStatus_Valid (c_Status c) = true -> coherent (snd (Manager_Receive p m)).
Proof.
  intros Hco Hc Hnew Hv. unfold Manager_Receive, mbind, ST_bind, gets, on_store, deref.
  rewrite Hc, Hnew. pose proof (Store_Create_at (m_store m) p c (proj1 Hco) Hc) as Hcr.
  destruct (Store_Create p (m_store m)) as [r s']. destruct Hcr as (Hwf & Hoth & Hr).
  destruct r as [u|e]; simpl.
  - destruct Hr as (_ & _ & [t Ht]). rewrite Hv.
    cut (coherent (with_lifecycles (<[c_ID c := newLifecycle (c_ID c) (c_Status c)]> (m_lifecycles m)) (with_store s' m)));
      [done|].
    eapply coherent_install; eauto. split_and!; [apply NewLifecycle_wf|done|].
    unfold newLifecycle. rewrite NewLifecycle_state. by rewrite Hv.
  - split; [exact Hwf|]. intros id'. cbn -[capsule_at].
    destruct (decide (id' = c_ID c)) as [->|Hne]; [rewrite Hr|rewrite (Hoth _ Hne)]; apply (proj2 Hco).
Qed.

(** ** Theorems *)

(** The status of a capsule as the store reports it. *)
Definition status_of (m : Manager) (id : CapsuleID) : option CapsuleStatus :=
  c_Status <$> capsule_at (m_store m) id.

(** The operations of the manager as one step. *)
Inductive mgr_op :=
  | MCreate (random : list ascii) (clusterID : string) (spec : CapsuleSpec)
  | MFire (id : CapsuleID) (trigger : string)
  | MUpdate (id : CapsuleID) (spec : CapsuleSpec)
  | MDelete (id : CapsuleID)
  | MAssignReplica (id : CapsuleID) (rid : ReplicaID) (nid : string)
  | MSyncStatus (id : CapsuleID) (st : CapsuleStatus)
  | MReceive (p : loc).

Definition forget {A} (x : result ManagerError A * Manager) : result ManagerError unit * Manager :=
  (match fst x with Ok _ => Ok tt | Err e => Err e end, snd x).

Definition run_mgr (op : mgr_op) (m : Manager) : result ManagerError unit * Manager :=
  match op with
  | MCreate random cl spec => forget (Manager_Create random cl spec m)
  | MFire id t => Manager_Fire id t m
  | MUpdate id spec => forget (Manager_Update id spec m)
  | MDelete id => Manager_Delete id m
  | MAssignReplica id rid nid => Manager_AssignReplica id rid nid m
  | MSyncStatus id st => Manager_SyncStatus id st m
  | MReceive p => Manager_Receive p m
  end.

(** The uses under which coherence is kept: a synchronised status reached the
    store, and a received capsule is new and carries a known status. *)
Definition proper_use (op : mgr_op) (m : Manager) : Prop :=
  match op with
  | MSyncStatus _ _ => forall e, fst (run_mgr op m) <> Err (ErrStore e)
  | MReceive p => exists c, st_heap (m_store m) !! p = Some c /\ Manager_Get (c_ID c) m = None /\
                            CapsuleStatus_Valid (c_Status c) = true
  | _ => True
  end.

(** C1: the store and the lifecycle machines never disagree:
    every manager operation keeps one well-formed machine per stored capsule,
    standing in exactly the capsule's stored status (for [SyncStatus] provided
    the save succeeded, for [Receive] provided the capsule is new with a known
    status). *)
Theorem manager_ops_keep_coherence op m (Hco : coherent m) (Huse : proper_use op m) :
  coherent (snd (run_mgr op m)).
Proof.
  destruct op as [random cl spec|id t|id spec|id|id rid nid|id st|p]; simpl in Huse |- *.
  - apply (Manager_Create_coherent _ random cl spec Hco).
  - pose proof (Manager_Fire_spec m id t Hco) as HF. destruct (Manager_Fire id t m). by destruct HF.
  - apply (Manager_Update_coherent _ id spec Hco).
  - by apply Manager_Delete_coherent.
  - by apply Manager_AssignReplica_coherent.
  - destruct (Manager_SyncStatus id st m) as [r m'] eqn:E. by eapply Manager_SyncStatus_coherent.
  - destruct Huse as (c & Hc & Hn & Hv). by eapply Manager_Receive_new_coherent.
Qed.

(** C2: [Fire] on the manager implements the lifecycle
    relation on the stored statuses: it succeeds exactly on the relation's
    edges, moves the fired capsule along its edge, and changes the status of no
    other capsule; on error every status is as before. *)
Theorem manager_fire_refines_lifecycle m id t (Hco : coherent m) :
  let '(r, m') := Manager_Fire id t m in
  match r with
  | Ok _ => exists s d, status_of m id = Some s /\ lc_step s t d /\ status_of m' id = Some d /\
              forall id', id' <> id -> status_of m' id' = status_of m id'
  | Err _ => (forall s d, status_of m id = Some s -> ~ lc_step s t d) /\
              forall id', status_of m' id' = status_of m id'
  end.
Proof.
  pose proof (Manager_Fire_spec m id t Hco) as HF. unfold status_of.
  destruct (Manager_Fire id t m) as [r m']. destruct HF as (_ & Hoth & HF).
  destruct (capsule_at (m_store m) id) as [c|] eqn:Hc.
  - destruct (permitted buildTable (c_Status c) t) as [d|] eqn:Hp.
    + destruct HF as (-> & [u Hu] & _). apply permitted_step in Hp.
      exists (c_Status c), d. rewrite Hu. split_and!; try done. intros id' Hne. by rewrite Hoth.
    + destruct HF as (-> & Hat & _). split.
      * intros s d [= <-] Hs%permitted_step. congruence.
      * intros id'. destruct (decide (id' = id)) as [->|Hne]; [by rewrite Hat, Hc|by rewrite Hoth].
  - destruct HF as [-> ->]. split; [done|]. done.
Qed.

Lemma stored_status m id :
  coherent m ->
  Manager_Status id m =
  match status_of m id with Some s => Ok s | None => Err (ErrCapsuleNotFound id) end.
Proof.
  intros Hco. pose proof (proj2 Hco id) as Ha. unfold Manager_Status, status_of, agree in *.
  destruct (capsule_at (m_store m) id), (m_lifecycles m !! id); simpl; try done.
  by destruct Ha as (_ & _ & ->).
Qed.

(** Creating a valid specification under a fresh ID on an
    in-memory manager stores one new capsule with the defaulted specification
    and no replicas, already announced, and emits exactly a created and then an
    announced event. *)
Theorem manager_create_announces m random cl spec
    (Hco : coherent m) (Hmem : st_db (m_store m) = None) (Hcl : cl <> "")
    (Hok : spec_ok (DefaultSpec spec)) (Hfresh : capsule_at (m_store m) (NewCapsuleID random) = None) :
  let id := NewCapsuleID random in
  exists p m' c, Manager_Create random cl spec m = (Ok p, m') /\ coherent m' /\
    capsule_at (m_store m') id = Some c /\ c_Status c = capsuleStatusAnnounced /\
    c_Spec c = DefaultSpec spec /\ c_ClusterID c = cl /\ c_Replicas c = [] /\ c_ID c = id /\
    (forall id', id' <> id -> capsule_at (m_store m') id' = capsule_at (m_store m) id') /\
    map me_Type (m_events m') = map me_Type (m_events m) ++ [EventCapsuleCreated; EventCapsuleAnnounced].
Proof.
  pose proof (Manager_Create_coherent m random cl spec Hco) as Hco'.
  rewrite Manager_Create_unfold in *. apply String.eqb_neq in Hcl. rewrite Hcl in *.
  apply ValidateSpec_nil in Hok. rewrite Hok in *.
  unfold time_Now in *. set (s0 := Build_Store _ _ _ _ _) in *. set (now := st_clock _ _) in *.
  set (c0 := new_capsule _ _ _ _) in *.
  pose proof (alloc_at s0 c0 (proj1 Hco)) as Ha. destruct (alloc c0 s0) as [p s1].
  destruct Ha as (Hwf1 & Hp & Hat1 & Hcap1 & Hdb1 & _).
  pose proof (Store_Create_at s1 p c0 Hwf1 Hp) as Hcr.
  pose proof (Store_Create_spec s1 p c0 Hp) as Hsp. simpl in Hsp.
  destruct (Store_Create p s1) as [r s2] eqn:Ecr.
  assert (Hnone : st_capsules s1 !! c_ID c0 = None).
  { rewrite Hcap1. simpl. unfold capsule_at, Store_Get in Hfresh.
    destruct (st_capsules (m_store m) !! NewCapsuleID random) as [q|] eqn:Hq; [|done].
    destruct (proj1 Hco _ _ Hq) as (cq & Hcq & _). unfold deref in Hfresh. simpl in Hfresh. congruence. }
  simpl in Hnone. rewrite Hnone in Hsp.
  assert (st_db s1 = None) as Hd1 by (rewrite Hdb1; exact Hmem).
  rewrite Hd1 in Hsp. simpl in Hsp. destruct Hsp as (_ & _ & _ & -> & _ & Hd2).
  destruct Hcr as (Hwf2 & Hoth & _ & Hget & [t Ht]).
  set (id := NewCapsuleID random) in *. cbn [c0 new_capsule c_ID] in Ht, Hoth. fold id in Ht, Hoth.
  set (m1 := created_manager m random cl s2 p) in *.
  assert (Hco1 : coherent m1).
  { unfold m1. rewrite created_manager_equiv. eapply coherent_install; eauto.
    - intros id' Hne. rewrite (Hoth id' Hne). apply Hat1.
    - split_and!; [apply NewLifecycle_wf|done|]. unfold newLifecycle. by rewrite NewLifecycle_state. }
  pose proof (Manager_Fire_spec m1 id TriggerAnnounce Hco1) as HF.
  unfold Manager_Announce in *. destruct (Manager_Fire id TriggerAnnounce m1) as [r' m'].
  destruct HF as (_ & Hoth' & HF).
  change (capsule_at (m_store m1) id) with (capsule_at s2 id) in HF. rewrite Ht in HF. simpl in HF.
  destruct HF as (_ & [u Hu] & Hev).
  exists p, m', (set_UpdatedAt u (set_Status capsuleStatusAnnounced (set_UpdatedAt t (set_CreatedAt t c0)))).
  split_and!; try done.
  - intros id' Hne. rewrite (Hoth' id' Hne). change (capsule_at (m_store m1) id') with (capsule_at s2 id').
    rewrite (Hoth id' Hne). apply Hat1.
  - simpl. rewrite Hev by exact Hd2. unfold m1, created_manager. simpl. rewrite map_app, <- app_assoc. done.
Qed.

(** ** Restart *)

Lemma restore_lifecycles_lookup s id :
  store_wf s ->
  restore_lifecycles s !! id = (fun c => newLifecycle id (c_Status c)) <$> capsule_at s id.
Proof.
  intros Hwf. unfold restore_lifecycles, Store_List, cached.
  set (f := fun p => c ← deref s p; Some (c_ID c, newLifecycle (c_ID c) (c_Status c))).
  assert (Hf : forall k p, st_capsules s !! k = Some p ->
            f p = (fun c => (k, newLifecycle k (c_Status c))) <$> capsule_at s k).
  { intros k p Hp. destruct (store_wf_at _ _ _ Hwf Hp) as (c & Hc & <- & ->).
    unfold f, deref. by rewrite Hc. }
  assert (Hnd : NoDup (omap f (range (st_capsules s)).*2).*1).
  { assert (Heq : forall kp, kp ∈ range (st_capsules s) -> (f kp.2 : option _) <> None /\ forall x, f kp.2 = Some x -> x.1 = kp.1).
    { intros [k p] Hkp%elem_of_range. simpl. rewrite (Hf _ _ Hkp).
      destruct (store_wf_at _ _ _ Hwf Hkp) as (c & _ & _ & ->). simpl. split; [done|]. by intros x [= <-]. }
    assert (H : (omap f (range (st_capsules s)).*2).*1 = (range (st_capsules s)).*1).
    { induction (range (st_capsules s)) as [|kp l IH]; [done|]. rewrite !fmap_cons; simpl.
      destruct (Heq kp ltac:(left)) as [Hn Hx]. destruct (f kp.2) as [x|]; [|done].
      rewrite fmap_cons, (Hx _ eq_refl). f_equal. apply IH. intros kp' Hin. apply Heq. by right. }
    rewrite H. apply NoDup_range_fst. }
  assert (Hin : forall lc, (id, lc) ∈ omap f (range (st_capsules s)).*2 <->
            exists c, capsule_at s id = Some c /\ lc = newLifecycle id (c_Status c)).
  { intros lc. rewrite list_elem_of_omap. split.
    - intros (p & Hp & Hfp). apply list_elem_of_fmap in Hp as ([k p'] & -> & Hkp%elem_of_range). simpl in Hfp.
      rewrite (Hf _ _ Hkp) in Hfp. destruct (capsule_at s k) eqn:E; simplify_eq/=. eauto.
    - intros (c & Hc & ->). pose proof Hc as Hc'. unfold capsule_at, Store_Get in Hc'.
      destruct (st_capsules s !! id) as [p|] eqn:Hp; [|done].
      exists p. split; [apply list_elem_of_fmap; exists (id, p); by rewrite elem_of_range|].
      by rewrite (Hf _ _ Hp), Hc. }
  destruct (capsule_at s id) as [c|] eqn:Hc; simpl.
  - apply elem_of_list_to_map; [done|]. apply Hin. eauto.
  - apply not_elem_of_list_to_map_1. rewrite list_elem_of_fmap. intros ([k lc] & -> & Hk).
    apply Hin in Hk as (c & ? & _). done.
Qed.

Lemma NewManager_coherent s :
  store_wf s -> (forall id c, capsule_at s id = Some c -> CapsuleStatus_Valid (c_Status c) = true) ->
  coherent (NewManager s).
Proof.
  intros Hwf Hv. split; [done|]. intros id. simpl. rewrite restore_lifecycles_lookup by done.
  destruct (capsule_at s id) as [c|] eqn:Hc; simpl; [|done].
  split_and!; [apply NewLifecycle_wf|done|]. unfold newLifecycle. rewrite NewLifecycle_state.
  by rewrite (Hv _ _ Hc).
Qed.

Lemma coherent_valid m id c :
  coherent m -> capsule_at (m_store m) id = Some c -> CapsuleStatus_Valid (c_Status c) = true.
Proof.
  intros [_ Hag] Hc. specialize (Hag id). rewrite Hc in Hag. unfold agree in Hag.
  destruct (m_lifecycles m !! id); [|done]. destruct Hag as ((_ & Hv) & _ & <-). exact Hv.
Qed.

(** ** Replica slots *)

(** The slot the capsule records for a replica. *)
Definition slot_of (rid : ReplicaID) (rs : list ReplicaState) : option ReplicaState :=
  find (fun r => rs_ReplicaID r =s rid) rs.

Lemma assign_slot_spec rid nid now rs :
  let slot := {| rs_ReplicaID := rid; rs_NodeID := nid; rs_Status := capsuleStatusAssigned; rs_StartedAt := now |} in
  let rs' := assign_slot rid nid now rs in
  slot_of rid rs' = Some slot /\
  (forall rid', rid' <> rid -> slot_of rid' rs' = slot_of rid' rs) /\
  (rs_ReplicaID <$> rs') =
    (rs_ReplicaID <$> rs) ++ (if slot_of rid rs is Some _ then [] else [rid]).
Proof.
  induction rs as [|r rs (IH1 & IH2 & IH3)]; simpl.
  - rewrite String.eqb_refl. split_and!; try done. intros rid' Hne.
    by destruct (String.eqb_spec rid rid').
  - destruct (String.eqb_spec (rs_ReplicaID r) rid) as [E|E]; simpl.
    + rewrite String.eqb_refl. split_and!; [done| |by rewrite app_nil_r, E].
      intros rid' Hne. rewrite E. by destruct (String.eqb_spec rid rid').
    + destruct (String.eqb_spec (rs_ReplicaID r) rid); [done|]. split_and!; [exact IH1| |by f_equal].
      intros rid' Hne. destruct (rs_ReplicaID r =s rid'); [done|]. by apply IH2.
Qed.

Lemma slot_of_None rid rs : slot_of rid rs = None -> rid ∉ rs_ReplicaID <$> rs.
Proof.
  intros Hn (r & -> & Hr)%list_elem_of_fmap. unfold slot_of in Hn.
  apply find_none with (x := r) in Hn; [|by apply list_elem_of_In]. by rewrite String.eqb_refl in Hn.
Qed.

Lemma assign_slot_NoDup rid nid now rs :
  NoDup (rs_ReplicaID <$> rs) -> NoDup (rs_ReplicaID <$> assign_slot rid nid now rs).
Proof.
  intros Hnd. destruct (assign_slot_spec rid nid now rs) as (_ & _ & ->).
  destruct (slot_of rid rs) eqn:E; [by rewrite app_nil_r|].
  rewrite (Permutation_app_comm _ [rid]). constructor; [|done].
  by apply slot_of_None.
Qed.

(** On an in-memory manager, assigning a replica of a stored
    capsule to a node succeeds, records that node as the replica's host with
    status assigned, keeps every other replica's slot and every other capsule,
    keeps replica IDs distinct, and adds a slot only for an ID that had none
    (so repeating the call never grows the list). *)
Theorem manager_assign_replica m id rid nid c
    (Hco : coherent m) (Hmem : st_db (m_store m) = None) (Hc : capsule_at (m_store m) id = Some c) :
  let '(r, m') := Manager_AssignReplica id rid nid m in
  r = Ok tt /\
  exists c' slot, capsule_at (m_store m') id = Some c' /\
    slot_of rid (c_Replicas c') = Some slot /\ rs_NodeID slot = nid /\ rs_Status slot = capsuleStatusAssigned /\
    (forall rid', rid' <> rid -> slot_of rid' (c_Replicas c') = slot_of rid' (c_Replicas c)) /\
    (NoDup (rs_ReplicaID <$> c_Replicas c) -> NoDup (rs_ReplicaID <$> c_Replicas c')) /\
    length (c_Replicas c') = (length (c_Replicas c) + if slot_of rid (c_Replicas c) is Some _ then 0 else 1)%nat /\
    c_Status c' = c_Status c /\ c_Spec c' = c_Spec c /\
    (forall id', id' <> id -> capsule_at (m_store m') id' = capsule_at (m_store m) id').
Proof.
  unfold Manager_AssignReplica, mbind, ST_bind, gets, on_store.
  destruct (Manager_Get id m) as [p|] eqn:Hp; [|by unfold capsule_at, Manager_Get in *; rewrite Hp in Hc].
  unfold time_Now.
  set (s1 := Build_Store _ _ _ _ _). set (now := st_clock _ _).
  destruct (coherent_get _ _ _ Hco Hp) as (c1 & lc & Hc1 & Hid & Hat & _).
  assert (c1 = c) as -> by congruence.
  pose proof (assign_and_save_spec s1 id p c (fun c => set_Replicas (assign_slot rid nid now (c_Replicas c)) c)
                (proj1 Hco) Hp Hc1 eq_refl) as Hs.
  cbn [with_store m_store]. destruct (assign_and_save _ _ _) as [r s'].
  destruct Hs as (Hwf & _ & [t Ht] & Hoth & _ & Hdb). destruct (Hdb Hmem) as [-> _].
  destruct (assign_slot_spec rid nid now (c_Replicas c)) as (H1 & H2 & H3).
  split; [done|]. do 2 eexists. split_and!; [exact Ht|exact H1|done|done|exact H2| | |done|done|exact Hoth].
  - apply assign_slot_NoDup.
  - simpl. rewrite <- (length_fmap rs_ReplicaID (assign_slot _ _ _ _)), H3, length_app, length_fmap.
    by destruct (slot_of rid (c_Replicas c)).
Qed.

(** ** Where the status leaves the state machine *)

(** Receiving from the mesh a capsule that is
    already stored replaces the stored status without consulting or replacing
    the lifecycle machine: store and machine then disagree whenever the two
    statuses differ. *)
Theorem manager_receive_desyncs_status m p c c'
    (Hco : coherent m) (Hmem : st_db (m_store m) = None)
    (Hp : st_heap (m_store m) !! p = Some c') (Hc : capsule_at (m_store m) (c_ID c') = Some c)
    (Hdiff : c_Status c' <> c_Status c) :
  let '(r, m') := Manager_Receive p m in
  r = Ok tt /\ status_of m' (c_ID c') = Some (c_Status c') /\
  Manager_Status (c_ID c') m' = Ok (c_Status c) /\ ~ coherent m'.
Proof.
  unfold Manager_Receive, mbind, ST_bind, gets, deref.
  rewrite Hp. destruct (Manager_Get (c_ID c') m) as [q|] eqn:Hq;
    [|by unfold capsule_at, Manager_Get in *; rewrite Hq in Hc].
  destruct (coherent_get _ _ _ Hco Hq) as (c1 & lc & Hc1 & Hid & Hat & Hlc & Hwf & Hlid & Hst).
  assert (c1 = c) as -> by congruence. unfold on_store.
  pose proof (Store_Update_spec (m_store m) p c' Hp) as Hu.
  destruct (Store_Update p (m_store m)) as [r s']. unfold Manager_Get, Store_Get in Hq.
  rewrite Hq, Hmem in Hu. destruct Hu as (Hh & _ & _ & Hu). simpl in Hu. destruct Hu as (-> & Hcap & _).
  assert (Hs : c_Status <$> capsule_at s' (c_ID c') = Some (c_Status c')).
  { unfold capsule_at, Store_Get, deref. rewrite Hcap, lookup_insert_eq. simpl.
    by rewrite Hh, lookup_insert_eq. }
  assert (Hm : Manager_Status (c_ID c') (with_store s' m) = Ok (c_Status c)).
  { unfold Manager_Status. simpl. by rewrite Hlc, Hst. }
  cbn. split_and!; [done|exact Hs|exact Hm|]. intros [_ Hag].
  assert (Ha : agree (c_ID c') (capsule_at s' (c_ID c')) (m_lifecycles m !! c_ID c')) by exact (Hag _).
  rewrite Hlc in Ha. destruct (capsule_at s' (c_ID c')) as [cx|]; [|done].
  simpl in Hs. unfold agree in Ha. destruct Ha as (_ & _ & Ha). congruence.
Qed.

(** A status synchronisation whose save fails reports
    the error but leaves the new status on the cached capsule while the machine
    keeps the old one. *)
Theorem manager_syncstatus_failed_save_desyncs m id st c e m'
    (Hco : coherent m) (Hc : capsule_at (m_store m) id = Some c) (Hdiff : st <> c_Status c)
    (Hrun : Manager_SyncStatus id st m = (Err (ErrStore e), m')) :
  status_of m' id = Some st /\ Manager_Status id m' = Ok (c_Status c).
Proof.
  revert Hrun. unfold Manager_SyncStatus, mret, ST_ret.
  destruct (CapsuleStatus_Valid st); simpl; [|done]. unfold mbind, ST_bind, gets, on_store.
  destruct (Manager_Get id m) as [p|] eqn:Hp; [|done].
  destruct (coherent_get _ _ _ Hco Hp) as (c1 & lc & Hc1 & Hid & Hat & Hlc & _ & _ & Hst).
  assert (c1 = c) as -> by congruence.
  pose proof (assign_and_save_spec (m_store m) id p c (set_Status st) (proj1 Hco) Hp Hc1 eq_refl) as Hs.
  destruct (assign_and_save _ _ _) as [r s']. destruct Hs as (_ & _ & [t Ht] & _).
  destruct r as [u|e']; [done|]. intros [= _ <-]. unfold status_of, Manager_Status; simpl.
  by rewrite Ht, Hlc, Hst.
Qed.

End ManagerFacts.

(** ** Restart from the database *)

Section Restart.
Context `{R : GoRange} `{S : SqlTable} `{!SqlTableLaws S} `{J : JsonCodec} `{L : StateMachineLib} `{!StateMachineLaws L}.

(** A manager restarted from its database stands where the
    old one stood: it is coherent, and answers every status query as the old
    manager did, for every capsule. *)
Theorem manager_restart_resumes m d rs clock
    (Hco : coherent m) (Hsync : synced (m_store m)) (Hd : st_db (m_store m) = Some d)
    (Hsel : db_select d = Some rs)
    (Hjson : forall id c, capsule_at (m_store m) id = Some c -> json_faithful c) :
  exists s', OpenStore d clock = Ok s' /\ coherent (NewManager s') /\
    forall id, Manager_Status id (NewManager s') = Manager_Status id m.
Proof.
  destruct (OpenStore_restores _ d rs clock Hsync Hd Hsel Hjson) as (s' & Ho & Hwf & Hat).
  assert (Hst : forall id, c_Status <$> capsule_at s' id = status_of m id).
  { intros id. specialize (Hat id). unfold status_of. destruct (capsule_at (m_store m) id); [|by rewrite Hat].
    destruct Hat as (r & _ & ->). done. }
  assert (Hco' : coherent (NewManager s')).
  { apply NewManager_coherent; [done|]. intros id c Hc. specialize (Hst id). rewrite Hc in Hst.
    unfold status_of in Hst. destruct (capsule_at (m_store m) id) as [c0|] eqn:Hc0; [|done].
    injection Hst as ->. by apply (coherent_valid m id). }
  exists s'. split_and!; [done|done|]. intros id.
  rewrite !stored_status by done. unfold status_of at 1; simpl. by rewrite Hst.
Qed.

End Restart.

(** ** Concrete managers *)

Module ManagerDemo.
#[local] Existing Instance mem_table.
#[local] Existing Instance mem_table_laws.
#[local] Existing Instance demo_codec.

(** One running capsule [c1] in memory, and a second object with the same ID
    and another status, as a message from the mesh brings it. *)
Definition demo_mem : Store :=
  {| st_heap := {[ 1%positive := demo_capsule "c1" capsuleStatusRunning;
                   2%positive := demo_capsule "c1" capsuleStatusStopped ]};
     st_capsules := {[ "c1" := 1%positive ]}; st_db := None;
     st_clock := fun n => Z.of_nat n; st_ticks := 0 |}.

Definition demo_manager : Manager := NewManager demo_mem.

(** The store of a database manager, after its capsule was created. *)
Definition demo_db_manager : Manager := NewManager demo_stored.

(** A database whose updates fail. *)
Definition broken_table : SqlTable := {|
  DB := unit; db_insert := fun d _ => Some d; db_update := fun _ _ => None;
  db_delete := fun _ _ => None; db_select := fun _ => Some [] |}.

Definition broken_store : Store (S := broken_table) :=
  {| st_heap := {[ 1%positive := demo_capsule "c1" capsuleStatusRunning ]};
     st_capsules := {[ "c1" := 1%positive ]}; st_db := Some (tt : @DB broken_table);
     st_clock := fun n => Z.of_nat n; st_ticks := 0 |}.

Definition broken_manager : Manager (S := broken_table) := NewManager (S := broken_table) broken_store.

Lemma coherent_single {S : SqlTable} (s : Store (S := S)) c :
  st_capsules s = {[ "c1" := 1%positive ]} -> st_heap s !! 1%positive = Some c ->
  c_ID c = "c1" -> CapsuleStatus_Valid (c_Status c) = true -> coherent (NewManager s).
Proof.
  intros Hcap Hh Hid Hv.
  apply NewManager_coherent.
  - intros id p. rewrite Hcap, lookup_singleton. case_decide; [|done]. intros [= <-]. naive_solver.
  - intros id c0. unfold capsule_at, Store_Get, deref. rewrite Hcap, lookup_singleton.
    case_decide; [|done]. simpl. rewrite Hh. by intros [= <-].
Qed.

Lemma demo_manager_coherent : coherent demo_manager.
Proof. by eapply coherent_single. Qed.

Lemma demo_db_manager_coherent : coherent demo_db_manager.
Proof. eapply coherent_single; vm_compute; reflexivity. Qed.

Lemma manager_ops_keep_coherence_witness :
  proper_use (MReceive 2%positive) (NewManager (with_capsules ∅ demo_mem)) /\
  coherent (snd (run_mgr (MFire "c1" TriggerStopRequested) demo_manager)).
Proof.
  split; [eexists; split; [reflexivity|split; reflexivity]|].
  apply (manager_ops_keep_coherence (MFire "c1" TriggerStopRequested) demo_manager);
    [exact demo_manager_coherent|exact I].
Defined.

Lemma manager_fire_refines_lifecycle_witness :
  exists s d, status_of demo_manager "c1" = Some s /\ lc_step s TriggerStopRequested d.
Proof.
  pose proof (manager_fire_refines_lifecycle demo_manager "c1" TriggerStopRequested demo_manager_coherent) as H.
  destruct (Manager_Fire "c1" TriggerStopRequested demo_manager) as [r m'] eqn:E.
  assert (r = Ok tt) as -> by (vm_compute in E; congruence).
  destruct H as (s & d & H1 & H2 & _). eauto.
Defined.

Lemma manager_create_announces_witness :
  exists p m', Manager_Create [] "us/dc1/prod" (demo_spec []) demo_manager = (Ok p, m') /\ coherent m'.
Proof.
  destruct (manager_create_announces demo_manager [] "us/dc1/prod" (demo_spec []) demo_manager_coherent)
    as (p & m' & c & H1 & H2 & _);
    [reflexivity|discriminate|apply ValidateSpec_nil; reflexivity|reflexivity|eauto].
Defined.

Lemma manager_assign_replica_witness :
  fst (Manager_AssignReplica "c1" "r1" "n1" demo_manager) = Ok tt.
Proof.
  pose proof (manager_assign_replica demo_manager "c1" "r1" "n1" _ demo_manager_coherent eq_refl eq_refl) as H.
  destruct (Manager_AssignReplica "c1" "r1" "n1" demo_manager) as [r m']. destruct H as [H _]. exact H.
Defined.

Lemma manager_receive_desyncs_status_witness :
  ~ coherent (snd (Manager_Receive 2%positive demo_manager)).
Proof.
  pose proof (manager_receive_desyncs_status demo_manager 2%positive (demo_capsule "c1" capsuleStatusRunning)
    (demo_capsule "c1" capsuleStatusStopped) demo_manager_coherent eq_refl eq_refl eq_refl ltac:(discriminate)) as H.
  destruct (Manager_Receive 2%positive demo_manager) as [r m']. destruct H as (_ & _ & _ & H). exact H.
Defined.

Lemma manager_syncstatus_failed_save_desyncs_witness :
  status_of (S := broken_table) (snd (Manager_SyncStatus (S := broken_table) "c1" capsuleStatusStopped broken_manager)) "c1"
  = Some capsuleStatusStopped.
Proof.
  apply (manager_syncstatus_failed_save_desyncs (S := broken_table) broken_manager "c1" capsuleStatusStopped
           (demo_capsule "c1" capsuleStatusRunning) ErrPersist);
    [by eapply coherent_single|reflexivity|discriminate|vm_compute; reflexivity].
Defined.

Lemma manager_restart_resumes_witness :
  exists d s', st_db demo_stored = Some d /\ OpenStore d (fun _ => 0) = Ok s' /\
    Manager_Status "c1" (NewManager s') = Manager_Status "c1" demo_db_manager.
Proof.
  do 1 eexists.
  edestruct (manager_restart_resumes demo_db_manager) as (s' & H1 & _ & H2);
    [exact demo_db_manager_coherent|exact demo_stored_synced|reflexivity|reflexivity
    |apply demo_stored_faithful|].
  exists s'. split; [reflexivity|]. split; [exact H1|apply H2].
Defined.

End ManagerDemo.
