(* ===== verification/Gravity.v ===== *)
(** * Gravity scoring ([election/gravity])

    The eligibility filter, the factors, and the calculator that turns a
    (capsule, node) pair into a score.  [CapsuleTargetLookup] and
    [SnapshotLookup] are interfaces of the source whose implementations live
    with the node; a value of such an interface is a function here, and a nil
    interface is [None]. *)

From S2P Require Import Prelude Float64 CapsuleTypes CapsuleSpec.
Local Open Scope string_scope. Local Open Scope list_scope. Local Open Scope Z_scope.

(** ** [state.go] *)

Abbreviation NodeStatus := string (only parsing).
Definition nodeStatusActive : NodeStatus := "active".
Definition nodeStatusSuspected : NodeStatus := "suspected".
Definition nodeStatusQuarantined : NodeStatus := "quarantined".
Definition nodeStatusFailed : NodeStatus := "failed".

Definition NodeStatus_IsHealthy (s : NodeStatus) : bool := s =s nodeStatusActive.

Record Resources := {
  CPUCoresTotal : Z; CPUCoresFree : Z;   (** int32 *)
  MemoryMBTotal : Z; MemoryMBFree : Z;   (** int64 *)
  DiskMBTotal : Z; DiskMBFree : Z        (** int64 *)
}.

(** The shape shared by the three utilisation methods; [width] is the wrap of
    the field's integer type. *)
Definition utilization (width : Z -> Z) (total free : Z) : f64 :=
  if total <=? 0 then f64_zero false
  else
    let used := width (total - free) in
    let used := if used <? 0 then 0 else used in
    (f64_of_Z used / f64_of_Z total)%f64.

Definition CPUUtilization (r : Resources) : f64 := utilization int32 (CPUCoresTotal r) (CPUCoresFree r).
Definition MemoryUtilization (r : Resources) : f64 := utilization int64 (MemoryMBTotal r) (MemoryMBFree r).
Definition DiskUtilization (r : Resources) : f64 := utilization int64 (DiskMBTotal r) (DiskMBFree r).

Record NodeState := {
  NodeID : string;
  ClusterPath : string;
  Datacenter : string;
  Region : string;
  ns_Labels : Labels;
  ns_Resources : Resources;
  ns_Status : NodeStatus;
  ReliabilityScore : f64;
  RunningCapsuleCount : Z   (** int *)
}.

(** ** [eligibility.go] *)

(** [NodesRunningCapsule clusterPath capsuleName] *)
Definition CapsuleTargetLookup : Type := string -> string -> list string.

Abbreviation IneligibilityReason := string (only parsing).
Definition ineligibilityOK : IneligibilityReason := "".
Definition ineligibilityResourcesCPU : IneligibilityReason := "resources.cpu".
Definition ineligibilityResourcesMemory : IneligibilityReason := "resources.memory".
Definition ineligibilityResourcesDisk : IneligibilityReason := "resources.disk".
Definition ineligibilityNotHealthy : IneligibilityReason := "node.unhealthy".
Definition ineligibilityPlacementRule : IneligibilityReason := "placement.rule".
Definition ineligibilityExcluded : IneligibilityReason := "excluded".

Record Ineligibility := { Reason : IneligibilityReason; Detail : string }.

Definition PassedEligibility (i : Ineligibility) : bool := Reason i =s ineligibilityOK.

Definition containsString (haystack : list string) (needle : string) : bool :=
  existsb (fun s => s =s needle) haystack.

Section Eligibility.
Context `{GoRange}.

Definition labelsMatchAll (candidate required : Labels) : bool :=
  forallb (fun '(k, v) => match entries candidate !! k with Some cv => cv =s v | None => false end)
    (range (entries required)).

Definition names_allow (names : list string) (x : string) : bool :=
  negb ((0 <? Z.of_nat (length names)) && negb (containsString names x)).

Definition matchNodeRule (rule : PlacementRule) (node : NodeState) : bool :=
  if negb (names_allow (pr_Names rule) (NodeID node)) then false
  else labelsMatchAll (ns_Labels node) (pr_Labels rule).

Definition matchClusterRule (rule : PlacementRule) (node : NodeState) : bool :=
  if negb (names_allow (pr_Names rule) (ClusterPath node)) then false
  else bool_decide (size (entries (pr_Labels rule)) = 0%nat).

Definition matchDatacenterRule (rule : PlacementRule) (node : NodeState) : bool :=
  if negb (names_allow (pr_Names rule) (Datacenter node)) then false
  else bool_decide (size (entries (pr_Labels rule)) = 0%nat).

Definition matchCapsuleRule (rule : PlacementRule) (node : NodeState) (lookup : option CapsuleTargetLookup) : bool :=
  match lookup, pr_Names rule with
  | None, _ | _, [] => pr_Mode rule =s placementModeAway
  | Some lookup, names =>
      let targetIDs := flat_map (lookup (ClusterPath node)) names in
      match targetIDs with
      | [] => pr_Mode rule =s placementModeAway
      | _ =>
          let isAlsoRunner := containsString targetIDs (NodeID node) in
          if pr_Mode rule =s placementModeNear then isAlsoRunner
          else if pr_Mode rule =s placementModeAway then negb isAlsoRunner
          else false
      end
  end.

Definition ruleMatchesNode (rule : PlacementRule) (node : NodeState) (lookup : option CapsuleTargetLookup) : bool :=
  if pr_Type rule =s placementTypeNode then matchNodeRule rule node
  else if pr_Type rule =s placementTypeCluster then matchClusterRule rule node
  else if pr_Type rule =s placementTypeDatacenter then matchDatacenterRule rule node
  else if pr_Type rule =s placementTypeCapsule then matchCapsuleRule rule node lookup
  else false.

(** The first hard rule the node fails. *)
Fixpoint failed_hard_rule (rules : list PlacementRule) (node : NodeState) (lookup : option CapsuleTargetLookup)
  : option PlacementRule :=
  match rules with
  | [] => None
  | rule :: rest =>
      if negb (pr_Required rule) then failed_hard_rule rest node lookup
      else if negb (ruleMatchesNode rule node lookup) then Some rule
      else failed_hard_rule rest node lookup
  end.

Definition already_running (c : Capsule) (node : NodeState) (lookup : option CapsuleTargetLookup) : bool :=
  match lookup with
  | None => false
  | Some lookup => containsString (lookup (ClusterPath node) (cs_Name (c_Spec c))) (NodeID node)
  end.

Definition IsEligible (c : Capsule) (node : NodeState) (lookup : option CapsuleTargetLookup) : Ineligibility :=
  let req := cs_Resources (c_Spec c) in
  let res := ns_Resources node in
  if already_running c node lookup then
    {| Reason := ineligibilityExcluded;
       Detail := "node " +:+ NodeID node +:+ " is already running capsule " +:+ cs_Name (c_Spec c) |}
  else if negb (NodeStatus_IsHealthy (ns_Status node)) then
    {| Reason := ineligibilityNotHealthy; Detail := "node status is " +:+ ns_Status node |}
  else if (0 <? CPUCores req) && (CPUCoresFree res <? CPUCores req) then
    {| Reason := ineligibilityResourcesCPU; Detail := "insufficient free CPU" |}
  else if (0 <? MemoryMB req) && (MemoryMBFree res <? MemoryMB req) then
    {| Reason := ineligibilityResourcesMemory; Detail := "insufficient free memory" |}
  else if (0 <? DiskMB req) && (DiskMBFree res <? DiskMB req) then
    {| Reason := ineligibilityResourcesDisk; Detail := "insufficient free disk" |}
  else match failed_hard_rule (cs_PlacementRules (c_Spec c)) node lookup with
       | Some rule => {| Reason := ineligibilityPlacementRule; Detail := "hard rule failed: " +:+ pr_Name rule |}
       | None => {| Reason := ineligibilityOK; Detail := "" |}
       end.

End Eligibility.

(** ** [weights.go] *)

Record Weights := {
  CPUHeadroom : f64; MemoryHeadroom : f64; DiskHeadroom : f64; SoftPlacementMatch : f64;
  AffinityProximity : f64; HardwareLabelMatch : f64; LoadPenalty : f64; Reliability : f64;
  Diversity : f64; SnapshotLocality : f64
}.

(** The decimal literals, as the nearest doubles. *)
Definition DefaultWeights : Weights := Eval vm_compute in {|
  CPUHeadroom := f64_const 10 10; MemoryHeadroom := f64_const 10 10; DiskHeadroom := f64_const 5 10;
  SoftPlacementMatch := f64_const 3 10; AffinityProximity := f64_const 8 10;
  HardwareLabelMatch := f64_const 2 10; LoadPenalty := f64_const 5 10; Reliability := f64_const 4 10;
  Diversity := f64_const 2 10; SnapshotLocality := f64_const 6 10 |}.

Definition f0 : f64 := f64_zero false.
Definition f1 : f64 := f64_of_Z 1.
Definition f50 : f64 := f64_of_Z 50.
Definition f100 : f64 := f64_of_Z 100.

(** [if override.F != 0 { out.F = override.F }] *)
Definition override_field (w o : f64) : f64 := if negb (o =? f0)%f64 then o else w.

Definition Weights_Merge (w override : Weights) : Weights := {|
  CPUHeadroom := override_field (CPUHeadroom w) (CPUHeadroom override);
  MemoryHeadroom := override_field (MemoryHeadroom w) (MemoryHeadroom override);
  DiskHeadroom := override_field (DiskHeadroom w) (DiskHeadroom override);
  SoftPlacementMatch := override_field (SoftPlacementMatch w) (SoftPlacementMatch override);
  AffinityProximity := override_field (AffinityProximity w) (AffinityProximity override);
  HardwareLabelMatch := override_field (HardwareLabelMatch w) (HardwareLabelMatch override);
  LoadPenalty := override_field (LoadPenalty w) (LoadPenalty override);
  Reliability := override_field (Reliability w) (Reliability override);
  Diversity := override_field (Diversity w) (Diversity override);
  SnapshotLocality := override_field (SnapshotLocality w) (SnapshotLocality override) |}.

Definition MaxPossibleScore (w : Weights) : f64 :=
  (CPUHeadroom w + MemoryHeadroom w + DiskHeadroom w + SoftPlacementMatch w + AffinityProximity w
   + HardwareLabelMatch w + Reliability w + Diversity w + SnapshotLocality w)%f64.

(** ** [factors.go] *)

(** A factor that applied carries its value; [None] is [notApplicable]. *)
Definition factorContribution : Type := option f64.

Definition clamp01 (v : f64) : f64 :=
  if (v <? f0)%f64 then f0 else if (v >? f1)%f64 then f1 else v.

Definition applied (v : f64) : factorContribution := Some (clamp01 v).
Definition notApplicable : factorContribution := None.

(** The shape shared by the three headroom factors. *)
Definition headroom (width : Z -> Z) (required total free : Z) : factorContribution :=
  if required <=? 0 then notApplicable
  else if total <=? 0 then notApplicable
  else
    let remaining := width (free - required) in
    if remaining <? 0 then applied f0
    else applied (f64_of_Z remaining / f64_of_Z total)%f64.

Definition factorCPUHeadroom (c : Capsule) (node : NodeState) : factorContribution :=
  headroom int32 (CPUCores (cs_Resources (c_Spec c))) (CPUCoresTotal (ns_Resources node)) (CPUCoresFree (ns_Resources node)).
Definition factorMemoryHeadroom (c : Capsule) (node : NodeState) : factorContribution :=
  headroom int64 (MemoryMB (cs_Resources (c_Spec c))) (MemoryMBTotal (ns_Resources node)) (MemoryMBFree (ns_Resources node)).
Definition factorDiskHeadroom (c : Capsule) (node : NodeState) : factorContribution :=
  headroom int64 (DiskMB (cs_Resources (c_Spec c))) (DiskMBTotal (ns_Resources node)) (DiskMBFree (ns_Resources node)).

(** The fraction [hits / total] of a counting loop. *)
Definition fraction_of (total hits : nat) : factorContribution :=
  if Nat.eqb total 0 then notApplicable
  else applied (f64_of_Z (Z.of_nat hits) / f64_of_Z (Z.of_nat total))%f64.

Section Factors.
Context `{GoRange}.

Definition factorSoftPlacementMatch (c : Capsule) (node : NodeState) (lookup : option CapsuleTargetLookup)
  : factorContribution :=
  let soft := List.filter (fun r => negb (pr_Required r)) (cs_PlacementRules (c_Spec c)) in
  fraction_of (length soft) (length (List.filter (fun r => ruleMatchesNode r node lookup) soft)).

Definition factorAffinityProximity (c : Capsule) (node : NodeState) (lookup : option CapsuleTargetLookup)
  : factorContribution :=
  match lookup with
  | None => notApplicable
  | Some lookup =>
      let near := List.filter (fun r => (pr_Type r =s placementTypeCapsule) && (pr_Mode r =s placementModeNear))
                    (cs_PlacementRules (c_Spec c)) in
      let satisfied r := existsb (fun name => containsString (lookup (ClusterPath node) name) (NodeID node)) (pr_Names r) in
      fraction_of (length near) (length (List.filter satisfied near))
  end.

Definition factorHardwareLabelMatch (c : Capsule) (node : NodeState) : factorContribution :=
  let labels := entries (cs_Labels (c_Spec c)) in
  let matched '(k, v) := match entries (ns_Labels node) !! k with Some nv => nv =s v | None => false end in
  fraction_of (size labels) (length (List.filter matched (range labels))).

End Factors.

Definition softCap : f64 := f50.

Definition factorLoadPenalty (node : NodeState) : factorContribution :=
  let utilization := (f64_of_Z (RunningCapsuleCount node) / softCap)%f64 in
  let utilization := if (utilization >? f1)%f64 then f1 else utilization in
  applied (f1 - utilization)%f64.

Definition factorReliability (node : NodeState) : factorContribution := applied (ReliabilityScore node).

Definition factorDiversity (c : Capsule) (node : NodeState) : factorContribution :=
  let r := cs_Replicas (c_Spec c) in
  if (Min r <? 2) && (Exact r <? 2) then notApplicable
  else if Datacenter node =s "" then applied f0
  else applied f1.

(** [HasLocalSnapshot capsuleID tag] *)
Definition SnapshotLookup : Type := string -> string -> bool.

Definition factorSnapshotLocality (c : Capsule) (snapLookup : option SnapshotLookup) : factorContribution :=
  match snapLookup with
  | None => notApplicable
  | Some has =>
      let tag := if cs_ImageDigest (c_Spec c) =s "" then cs_Image (c_Spec c) else cs_ImageDigest (c_Spec c) in
      if has (c_ID c) tag then applied f1 else applied f0
  end.

(** ** [gravity.go] *)

Record Result := {
  Score : f64;
  Factors : gmap string f64;
  res_Weights : Weights;
  res_Eligible : bool;
  Inelig : Ineligibility
}.

Record Calculator := {
  weights : Weights;
  lookup : option CapsuleTargetLookup;
  snapLookup : option SnapshotLookup
}.

(** [NewCalculator] with the options given as the optional fields. *)
Definition NewCalculator (w : option Weights) (l : option CapsuleTargetLookup) (sl : option SnapshotLookup) : Calculator :=
  {| weights := default DefaultWeights w; lookup := l; snapLookup := sl |}.

Record Sums := { factors : gmap string f64; weightedSum : f64; maxWeightedSum : f64 }.

Definition addFactor (acc : Sums) (name : string) (contribution : factorContribution) (weight : f64) : Sums :=
  match contribution with
  | None => acc
  | Some v => {| factors := <[name := v]> (factors acc);
                 weightedSum := (weightedSum acc + v * weight)%f64;
                 maxWeightedSum := (maxWeightedSum acc + weight)%f64 |}
  end.

Section Calculate.
Context `{GoRange}.

(** The factors in the order they are added. *)
Definition terms (k : Calculator) (c : Capsule) (node : NodeState) : list (string * factorContribution * f64) :=
  let w := weights k in
  [ ("cpu_headroom", factorCPUHeadroom c node, CPUHeadroom w);
    ("memory_headroom", factorMemoryHeadroom c node, MemoryHeadroom w);
    ("disk_headroom", factorDiskHeadroom c node, DiskHeadroom w);
    ("soft_placement_match", factorSoftPlacementMatch c node (lookup k), SoftPlacementMatch w);
    ("affinity_proximity", factorAffinityProximity c node (lookup k), AffinityProximity w);
    ("hardware_label_match", factorHardwareLabelMatch c node, HardwareLabelMatch w);
    ("reliability", factorReliability node, Reliability w);
    ("diversity", factorDiversity c node, Diversity w);
    ("snapshot_locality", factorSnapshotLocality c (snapLookup k), SnapshotLocality w) ].

Definition sum_terms (acc : Sums) (ts : list (string * factorContribution * f64)) : Sums :=
  fold_left (fun acc '(name, contribution, weight) => addFactor acc name contribution weight) ts acc.

(** The load penalty is subtracted; its weight counts towards the maximum. *)
Definition subtract_load (acc : Sums) (load : factorContribution) (weight : f64) : Sums :=
  match load with
  | None => acc
  | Some v => {| factors := <["load_penalty" := v]> (factors acc);
                 weightedSum := (weightedSum acc - (f1 - v) * weight)%f64;
                 maxWeightedSum := (maxWeightedSum acc + weight)%f64 |}
  end.

Definition normalize (acc : Sums) : f64 :=
  if (maxWeightedSum acc <=? f0)%f64 then f50
  else
    let normalized := (weightedSum acc / maxWeightedSum acc)%f64 in
    let normalized := if (normalized <? f0)%f64 then f0 else normalized in
    let normalized := if (normalized >? f1)%f64 then f1 else normalized in
    (normalized * f100)%f64.

Definition sums_of (k : Calculator) (c : Capsule) (node : NodeState) : Sums :=
  subtract_load
    (sum_terms {| factors := ∅; weightedSum := f0; maxWeightedSum := f0 |} (terms k c node))
    (factorLoadPenalty node) (LoadPenalty (weights k)).

Definition Calculate (k : Calculator) (c : Capsule) (node : NodeState) : Result :=
  let inelig := IsEligible c node (lookup k) in
  if negb (PassedEligibility inelig) then
    {| Score := f0; Factors := ∅; res_Weights := weights k; res_Eligible := false; Inelig := inelig |}
  else
    let acc := sums_of k c node in
    {| Score := normalize acc; Factors := factors acc; res_Weights := weights k; res_Eligible := true;
       Inelig := {| Reason := ineligibilityOK; Detail := "" |} |}.

Definition CalculateAll (k : Calculator) (c : Capsule) (nodes : list NodeState) : list Result :=
  map (Calculate k c) nodes.

End Calculate.

(** ** What the filter decides *)

Section EligibilitySpec.
Context `{GoRange}.

Definition named (names : list string) (x : string) : Prop := names = [] \/ x ∈ names.

(** The node hosts one of the capsules the rule names. *)
Definition hosts_target (rule : PlacementRule) (node : NodeState) (lookup : option CapsuleTargetLookup) : Prop :=
  exists l name, lookup = Some l /\ name ∈ pr_Names rule /\ NodeID node ∈ l (ClusterPath node) name.

Definition rule_holds (rule : PlacementRule) (node : NodeState) (lookup : option CapsuleTargetLookup) : Prop :=
  (pr_Type rule = placementTypeNode /\ named (pr_Names rule) (NodeID node) /\
     forall k v, entries (pr_Labels rule) !! k = Some v -> entries (ns_Labels node) !! k = Some v) \/
  (pr_Type rule = placementTypeCluster /\ named (pr_Names rule) (ClusterPath node) /\ entries (pr_Labels rule) = ∅) \/
  (pr_Type rule = placementTypeDatacenter /\ named (pr_Names rule) (Datacenter node) /\ entries (pr_Labels rule) = ∅) \/
  (pr_Type rule = placementTypeCapsule /\
     ((pr_Mode rule = placementModeNear /\ hosts_target rule node lookup) \/
      (pr_Mode rule = placementModeAway /\ ~ hosts_target rule node lookup))).

Definition eligible (c : Capsule) (node : NodeState) (lookup : option CapsuleTargetLookup) : Prop :=
  let req := cs_Resources (c_Spec c) in let res := ns_Resources node in
  (forall l, lookup = Some l -> NodeID node ∉ l (ClusterPath node) (cs_Name (c_Spec c))) /\
  ns_Status node = nodeStatusActive /\
  (CPUCores req <= 0 \/ CPUCores req <= CPUCoresFree res) /\
  (MemoryMB req <= 0 \/ MemoryMB req <= MemoryMBFree res) /\
  (DiskMB req <= 0 \/ DiskMB req <= DiskMBFree res) /\
  forall rule, rule ∈ cs_PlacementRules (c_Spec c) -> pr_Required rule = true -> rule_holds rule node lookup.

Lemma containsString_spec l x : containsString l x = true <-> x ∈ l.
Proof.
  unfold containsString. rewrite existsb_elem. setoid_rewrite String.eqb_eq. naive_solver.
Qed.

Lemma names_allow_spec names x : names_allow names x = true <-> named names x.
Proof.
  unfold names_allow, named. rewrite negb_true_iff, andb_false_iff, negb_false_iff, containsString_spec.
  rewrite Z.ltb_ge. destruct names; simpl; [naive_solver lia|]. split; [|naive_solver].
  intros [?|?]; [lia|by right].
Qed.

Lemma labelsMatchAll_spec candidate required :
  labelsMatchAll candidate required = true <->
  forall k v, entries required !! k = Some v -> entries candidate !! k = Some v.
Proof.
  unfold labelsMatchAll. rewrite forallb_range. split; intros Hl k v Hk; specialize (Hl k v Hk); simpl in *.
  - destruct (entries candidate !! k); [|done]. apply String.eqb_eq in Hl. congruence.
  - rewrite Hl. apply String.eqb_refl.
Qed.

Lemma no_labels_spec (l : Labels) : bool_decide (size (entries l) = 0%nat) = true <-> entries l = ∅.
Proof. rewrite bool_decide_eq_true. apply map_size_empty_iff. Qed.

Lemma elem_of_targets rule node l :
  NodeID node ∈ flat_map (l (ClusterPath node)) (pr_Names rule) <-> hosts_target rule node (Some l).
Proof.
  unfold hosts_target. rewrite list_elem_of_In, in_flat_map. setoid_rewrite <- list_elem_of_In. naive_solver.
Qed.

Lemma matchCapsuleRule_spec rule node lookup :
  matchCapsuleRule rule node lookup = true <->
  (pr_Mode rule = placementModeNear /\ hosts_target rule node lookup) \/
  (pr_Mode rule = placementModeAway /\ ~ hosts_target rule node lookup).
Proof.
  assert (Hna : placementModeNear <> placementModeAway) by done.
  assert (Hno : ~ hosts_target rule node lookup ->
    pr_Mode rule = placementModeAway <->
    (pr_Mode rule = placementModeNear /\ hosts_target rule node lookup) \/
    (pr_Mode rule = placementModeAway /\ ~ hosts_target rule node lookup)) by naive_solver.
  unfold matchCapsuleRule. destruct lookup as [l|].
  - destruct (pr_Names rule) as [|n ns] eqn:En; cbv zeta.
    { rewrite String.eqb_eq. apply Hno. intros (? & ? & _ & Hin & _). rewrite En in Hin.
      by apply not_elem_of_nil in Hin. }
    rewrite <- En. pose proof (elem_of_targets rule node l) as Ht.
    destruct (flat_map (l (ClusterPath node)) (pr_Names rule)) as [|t ts].
    + rewrite String.eqb_eq. apply Hno. rewrite <- Ht. apply not_elem_of_nil.
    + rewrite <- Ht, <- containsString_spec.
      destruct (String.eqb_spec (pr_Mode rule) placementModeNear) as [->|]; [naive_solver|].
      destruct (String.eqb_spec (pr_Mode rule) placementModeAway) as [->|]; [|naive_solver].
      rewrite negb_true_iff. destruct (containsString _ _); naive_solver.
  - rewrite String.eqb_eq. apply Hno. by intros (? & ? & ? & _).
Qed.

Lemma ruleMatchesNode_spec rule node lookup :
  ruleMatchesNode rule node lookup = true <-> rule_holds rule node lookup.
Proof.
  unfold ruleMatchesNode, rule_holds, matchNodeRule, matchClusterRule, matchDatacenterRule.
  rewrite <- !names_allow_spec, <- labelsMatchAll_spec, <- !no_labels_spec.
  rewrite <- matchCapsuleRule_spec.
  destruct (String.eqb_spec (pr_Type rule) placementTypeNode) as [->|];
    [destruct (names_allow _ _); naive_solver|].
  destruct (String.eqb_spec (pr_Type rule) placementTypeCluster) as [->|];
    [destruct (names_allow _ _); naive_solver|].
  destruct (String.eqb_spec (pr_Type rule) placementTypeDatacenter) as [->|];
    [destruct (names_allow _ (Datacenter node)); naive_solver|].
  destruct (String.eqb_spec (pr_Type rule) placementTypeCapsule) as [->|]; naive_solver.
Qed.

Lemma failed_hard_rule_spec rules node lookup :
  match failed_hard_rule rules node lookup with
  | None => forall rule, rule ∈ rules -> pr_Required rule = true -> rule_holds rule node lookup
  | Some rule => rule ∈ rules /\ pr_Required rule = true /\ ~ rule_holds rule node lookup
  end.
Proof.
  induction rules as [|r rules IH]; simpl; [by intros ? ?%not_elem_of_nil|].
  destruct (pr_Required r) eqn:Er; simpl.
  - destruct (ruleMatchesNode r node lookup) eqn:Em; simpl.
    + apply ruleMatchesNode_spec in Em. destruct (failed_hard_rule rules node lookup).
      * destruct IH as (? & ? & ?). split_and!; [by right|done..].
      * intros rule [->|Hin]%elem_of_cons; auto.
    + split_and!; [by left|done|]. rewrite <- ruleMatchesNode_spec. congruence.
  - destruct (failed_hard_rule rules node lookup).
    + destruct IH as (? & ? & ?). split_and!; [by right|done..].
    + intros rule [->|Hin]%elem_of_cons; [congruence|auto].
Qed.

Lemma IsEligible_spec c node lookup :
  PassedEligibility (IsEligible c node lookup) = true <-> eligible c node lookup.
Proof.
  unfold IsEligible, eligible.
  assert (Hrun : already_running c node lookup = false <->
    forall l, lookup = Some l -> NodeID node ∉ l (ClusterPath node) (cs_Name (c_Spec c))).
  { unfold already_running. destruct lookup as [l|]; [|naive_solver].
    rewrite <- not_true_iff_false, containsString_spec. naive_solver. }
  rewrite <- Hrun. destruct (already_running c node lookup); [simpl; naive_solver|].
  unfold NodeStatus_IsHealthy.
  destruct (String.eqb_spec (ns_Status node) nodeStatusActive); simpl; [|naive_solver].
  pose proof (failed_hard_rule_spec (cs_PlacementRules (c_Spec c)) node lookup) as Hf.
  split_bools; simpl; try (split; [done|intros (_ & _ & ? & ? & ? & _); lia]);
    destruct (failed_hard_rule _ _ _); simpl;
      (split; [try done; intros _; split_and!; try done; lia
              |try done; intros (_ & _ & _ & _ & _ & Hr); destruct Hf as (Hi & Hq & []); by apply Hr]).
Qed.

End EligibilitySpec.

(** ** Ranges *)

(** A number of [0, 1]. *)
Definition unit_interval (v : f64) : Prop := finite v /\ 0 <= key v <= key f1.

Lemma f0_finite : finite f0. Proof. by apply finiteb_finite. Qed.
Lemma f1_finite : finite f1. Proof. by apply finiteb_finite. Qed.
Lemma f50_finite : finite f50. Proof. by apply finiteb_finite. Qed.
Lemma f100_finite : finite f100. Proof. by apply finiteb_finite. Qed.
Lemma key_f0 : key f0 = 0. Proof. done. Qed.
Lemma key_f1 : key f1 = 2 ^ scale.
Proof. unfold f1. rewrite key_of_Z_exact by lia. lia. Qed.
#[export] Hint Resolve f0_finite f1_finite f50_finite f100_finite : falak.

Lemma clamp01_nan : clamp01 NaN = NaN.
Proof. done. Qed.

Lemma clamp01_key v : number v -> key (clamp01 v) = Z.max 0 (Z.min (key f1) (key v)).
Proof.
  intros Hv. unfold clamp01, f64_gt. rewrite !f64_lt_spec by auto with falak.
  pose proof scale_pos. rewrite key_f0, key_f1. split_bools; rewrite ?key_f1; simpl; lia.
Qed.

Lemma clamp01_number v : number v -> number (clamp01 v).
Proof. intros. unfold clamp01. repeat case_match; auto with falak. Qed.

Lemma clamp01_unit v : number v -> unit_interval (clamp01 v).
Proof.
  intros Hv. pose proof scale_pos as Hs. rewrite <- key_f1 in Hs.
  assert (Hk : 0 <= key (clamp01 v) <= key f1) by (rewrite clamp01_key by done; lia).
  split; [|done]. apply (finite_between _ f0 f1); auto using clamp01_number with falak.
Qed.

Lemma clamp01_mono v v' : number v -> number v' -> key v <= key v' -> key (clamp01 v) <= key (clamp01 v').
Proof. intros. rewrite !clamp01_key by done. lia. Qed.

(** The two tests of the calculator clamp like [clamp01]. *)
Lemma normalize_clamp acc :
  normalize acc = if (maxWeightedSum acc <=? f0)%f64 then f50
                  else (clamp01 (weightedSum acc / maxWeightedSum acc) * f100)%f64.
Proof. unfold normalize, clamp01. repeat case_match; try done. Qed.

Lemma scaled_score v : unit_interval v -> finite (v * f100)%f64 /\ 0 <= key (v * f100)%f64 <= key f100.
Proof.
  intros [Hf Hk]. destruct (f64_mul_spec v f100 Hf f100_finite) as [Hn He].
  assert (H100 : 0 <= key f100) by (apply key_of_Z_nonneg; lia).
  assert (Hr : 0 <= key (v * f100)%f64 <= key f100).
  { rewrite He. pose proof scale_pos. split; [apply key_round_nonneg; [lia|nia]|].
    apply key_round_le; [auto with falak|lia|]. rewrite key_f1 in Hk. nia. }
  split; [|done]. apply (finite_between _ f0 f100); auto with falak.
Qed.

Lemma scaled_score_mono v v' :
  unit_interval v -> unit_interval v' -> key v <= key v' -> key (v * f100)%f64 <= key (v' * f100)%f64.
Proof.
  intros [Hf Hk] [Hf' Hk'] Hle. apply f64_mul_mono; auto with falak; [lia|].
  split; [|lia]. apply key_of_Z_nonneg; lia.
Qed.

(** ** Sums of weighted factors *)

(** A weight an operator can sensibly set: at least 0, at most a million. *)
Definition wmax : f64 := f64_of_Z 1000000.
Definition sane (w : f64) : Prop := finite w /\ 0 <= key w <= key wmax.

Lemma wmax_finite : finite wmax. Proof. by apply finiteb_finite. Qed.

Lemma sane_dec w : finiteb w && (f0 <=? w)%f64 && (w <=? wmax)%f64 = true -> sane w.
Proof.
  rewrite !andb_true_iff. intros [[Hf%finiteb_finite H0] H1]. pose proof wmax_finite.
  rewrite f64_le_spec in H0, H1 by auto with falak. apply Z.leb_le in H0, H1. by rewrite key_f0 in H0.
Qed.

Definition bound (n : Z) : Z := n * 1000000 * 2 ^ scale.

Lemma bound_key n : 0 <= n <= 1000 -> key (f64_of_Z (n * 1000000)) = bound n /\ finite (f64_of_Z (n * 1000000)).
Proof.
  intros. split; [apply key_of_Z_exact; lia|]. apply finite_of_int64. unfold in_int64, min_int64, max_int64. lia.
Qed.

(** A running sum of [n] terms. *)
Definition sum_ok (n : Z) (x : f64) : Prop := finite x /\ 0 <= key x <= bound n.

Lemma sum_ok_0 : sum_ok 0 f0.
Proof. split; [auto with falak|]. done. Qed.

Lemma sum_ok_add n x y :
  0 <= n < 1000 -> sum_ok n x -> finite y -> 0 <= key y <= key wmax -> sum_ok (n + 1) (x + y)%f64.
Proof.
  intros Hn [Hx Hkx] Hy Hky. destruct (bound_key (n + 1) ltac:(lia)) as [Hb Hbf].
  destruct (f64_add_spec x y Hx Hy) as [Hnum Hk].
  assert (Hr : 0 <= key (x + y)%f64 <= bound (n + 1)).
  { rewrite Hk. split; [apply key_round_nonneg; lia|].
    rewrite <- Hb. apply key_round_le; [done|lia|]. rewrite Hb. unfold wmax in Hky.
    rewrite (key_of_Z_exact 1000000) in Hky by lia. unfold bound in *. pose proof scale_pos. lia. }
  split; [|done]. apply (finite_between _ f0 (f64_of_Z ((n + 1) * 1000000))); auto with falak.
  by rewrite key_f0, Hb.
Qed.

(** A value of [0, 1] times a weight is at most the weight. *)
Lemma weighted_ok v w : unit_interval v -> sane w -> finite (v * w)%f64 /\ 0 <= key (v * w)%f64 <= key w.
Proof.
  intros [Hv Hkv] [Hw Hkw]. destruct (f64_mul_spec v w Hv Hw) as [Hn He]. pose proof scale_pos.
  assert (Hr : 0 <= key (v * w)%f64 <= key w).
  { rewrite He. split; [apply key_round_nonneg; [lia|nia]|].
    apply key_round_le; [done|lia|]. rewrite key_f1 in Hkv. nia. }
  split; [|done]. apply (finite_between _ f0 w); auto with falak.
Qed.

(** Two runs of the calculator with the same weights, the second on a node
    that is at least as good for every factor. *)
Definition contribution_le (a b : factorContribution) : Prop :=
  match a, b with
  | None, None => True
  | Some v, Some v' => unit_interval v /\ unit_interval v' /\ key v <= key v'
  | _, _ => False
  end.

Definition term_le (a b : string * factorContribution * f64) : Prop :=
  contribution_le a.1.2 b.1.2 /\ a.2 = b.2 /\ sane a.2.

Definition sums_le (n : Z) (a b : Sums) : Prop :=
  sum_ok n (weightedSum a) /\ sum_ok n (weightedSum b) /\ key (weightedSum a) <= key (weightedSum b) /\
  maxWeightedSum a = maxWeightedSum b /\ sum_ok n (maxWeightedSum a).

Lemma sum_ok_weaken n m x : n <= m -> sum_ok n x -> sum_ok m x.
Proof. intros Hle [Hf Hk]. split; [done|]. unfold bound in *. pose proof scale_pos. nia. Qed.

Lemma sums_le_weaken n m a b : n <= m -> sums_le n a b -> sums_le m a b.
Proof. unfold sums_le. naive_solver eauto using sum_ok_weaken. Qed.

Lemma addFactor_le n a b na nb ca cb w :
  0 <= n < 1000 -> sums_le n a b -> contribution_le ca cb -> sane w ->
  sums_le (n + 1) (addFactor a na ca w) (addFactor b nb cb w).
Proof.
  intros Hn (Ha & Hb & Hab & Hm & Hmo) Hc Hw.
  destruct ca as [v|], cb as [v'|]; try done; [|apply (sums_le_weaken n); [lia|done]].
  destruct Hc as (Hv & Hv' & Hle). destruct (weighted_ok v w Hv Hw) as [Hf Hk].
  destruct (weighted_ok v' w Hv' Hw) as [Hf' Hk']. pose proof Hw as [Hwf Hwk].
  unfold sums_le; simpl. split_and!.
  - apply sum_ok_add; auto; lia.
  - apply sum_ok_add; auto; lia.
  - destruct Ha, Hb, Hv, Hv'. apply f64_add_mono; try done. apply f64_mul_mono; try done; lia.
  - by rewrite Hm.
  - apply sum_ok_add; auto; lia.
Qed.

Lemma sum_terms_le ts ts' :
  Forall2 term_le ts ts' -> forall n a b, 0 <= n -> n + Z.of_nat (length ts) <= 1000 -> sums_le n a b ->
  sums_le (n + Z.of_nat (length ts)) (sum_terms a ts) (sum_terms b ts').
Proof.
  induction 1 as [|[[na ca] wa] [[nb cb] wb] ts ts' (Hc & Hw & Hs) _ IH]; intros n a b Hn Hlen Hab.
  - simpl. by rewrite Z.add_0_r.
  - simpl in Hw, Hc, Hs. subst wb. cbn [length] in *. rewrite Nat2Z.inj_succ in *.
    replace (n + Z.succ (Z.of_nat (length ts))) with (n + 1 + Z.of_nat (length ts)) by lia.
    apply (IH (n + 1) (addFactor a na ca wa) (addFactor b nb cb wa)); [lia|lia|]. apply addFactor_le; (done || lia).
Qed.

Lemma one_minus_unit v : unit_interval v -> unit_interval (f1 - v)%f64.
Proof.
  intros [Hf Hk]. destruct (f64_sub_spec f1 v f1_finite Hf) as [Hn He].
  assert (Hr : 0 <= key (f1 - v)%f64 <= key f1).
  { rewrite He. split; [apply key_round_nonneg; lia|].
    apply key_round_le; [auto with falak|lia..]. }
  split; [|done]. apply (finite_between _ f0 f1); auto with falak.
Qed.

Lemma subtract_load_le n a b ca cb w :
  0 <= n < 1000 -> sums_le n a b -> contribution_le ca cb -> sane w ->
  let a' := subtract_load a ca w in let b' := subtract_load b cb w in
  finite (weightedSum a') /\ finite (weightedSum b') /\ key (weightedSum a') <= key (weightedSum b') /\
  maxWeightedSum a' = maxWeightedSum b' /\ sum_ok (n + 1) (maxWeightedSum a').
Proof.
  intros Hn (Ha & Hb & Hab & Hm & Hmo) Hc Hw. cbv zeta.
  destruct ca as [v|], cb as [v'|]; try done; simpl.
  2: { destruct Ha, Hb. split_and!; try done. apply (sum_ok_weaken n); [lia|done]. }
  destruct Hc as (Hv & Hv' & Hle).
  destruct (one_minus_unit v Hv) as [Hf1 Hk1] eqn:E1. clear E1. destruct (one_minus_unit v' Hv') as [Hf2 Hk2] eqn:E2. clear E2.
  destruct (weighted_ok (f1 - v)%f64 w) as [Hp Hpk]; [split; done|done|].
  destruct (weighted_ok (f1 - v')%f64 w) as [Hp' Hpk']; [split; done|done|].
  assert (Hpen : key ((f1 - v') * w)%f64 <= key ((f1 - v) * w)%f64).
  { destruct Hw, Hv, Hv'. apply f64_mul_mono; try done; [|lia]. split; [lia|]. apply f64_sub_mono; auto with falak; lia. }
  assert (Hfin : forall x p, sum_ok n x -> finite p -> 0 <= key p <= key w -> finite (x - p)%f64).
  { intros x p [Hx Hkx] Hpf Hpk0. destruct (f64_sub_spec x p Hx Hpf) as [Hnum He].
    apply (finite_between _ (f64_opp wmax) x); [done|apply finite_opp; by apply finiteb_finite|done|].
    rewrite He, key_opp. destruct Hw as [_ Hwk].
    split; [|apply key_round_le; [done|lia..]].
    rewrite <- key_opp. apply key_round_ge; [apply finite_opp; by apply finiteb_finite|lia|]. rewrite key_opp. lia. }
  split_and!.
  - by apply Hfin.
  - by apply Hfin.
  - destruct Ha, Hb. apply f64_sub_mono; auto.
  - by rewrite Hm.
  - destruct Hw. apply sum_ok_add; auto.
Qed.

Lemma normalize_mono n a b :
  finite (weightedSum a) -> finite (weightedSum b) -> key (weightedSum a) <= key (weightedSum b) ->
  maxWeightedSum a = maxWeightedSum b -> sum_ok n (maxWeightedSum a) ->
  finite (normalize a) /\ finite (normalize b) /\ 0 <= key (normalize a) /\
  key (normalize a) <= key (normalize b) <= key f100.
Proof.
  intros Ha Hb Hle Hm [Hmf Hmk]. rewrite !normalize_clamp, <- Hm. rewrite f64_le_spec by auto with falak.
  destruct (Z.leb_spec (key (maxWeightedSum a)) (key f0)) as [H0|H0].
  - split_and!; auto with falak; try reflexivity;
      unfold f50, f100; rewrite !key_of_Z_exact by lia; pose proof scale_pos; lia.
  - rewrite key_f0 in H0. destruct (f64_div_spec _ _ Ha Hmf H0) as [Hna _].
    destruct (f64_div_spec _ _ Hb Hmf H0) as [Hnb _].
    assert (Hd := f64_div_mono _ _ _ Ha Hb Hmf H0 Hle).
    pose proof (clamp01_unit _ Hna) as Hua. pose proof (clamp01_unit _ Hnb) as Hub.
    destruct (scaled_score _ Hua), (scaled_score _ Hub).
    split_and!; try done; try lia. apply scaled_score_mono; try done. by apply clamp01_mono.
Qed.

(** ** Factors *)

Lemma applied_le v v' : number v -> number v' -> key v <= key v' -> contribution_le (applied v) (applied v').
Proof. intros. split_and!; [by apply clamp01_unit..|by apply clamp01_mono]. Qed.

Lemma contribution_le_refl v : number v -> contribution_le (applied v) (applied v).
Proof. intros. by apply applied_le. Qed.

Lemma ratio_number a b : in_int64 a -> in_int64 b -> 0 < b -> number (f64_of_Z a / f64_of_Z b)%f64.
Proof. intros. apply f64_div_spec; [by apply finite_of_int64..|by apply key_of_Z_pos]. Qed.

Lemma headroom_le width required total free free' :
  (forall z, 0 <= z <= free' -> width z = z) -> free' <= max_int64 -> total <= max_int64 ->
  (required <= 0 \/ required <= free) -> free <= free' ->
  contribution_le (headroom width required total free) (headroom width required total free').
Proof.
  intros Hw Hmax Ht Hreq Hle. unfold headroom.
  destruct (Z.leb_spec required 0); [done|]. destruct (Z.leb_spec total 0); [done|].
  rewrite !Hw by lia. destruct (Z.ltb_spec (free - required) 0); [lia|].
  destruct (Z.ltb_spec (free' - required) 0); [lia|].
  assert (Hin : forall z, 0 <= z <= max_int64 -> in_int64 z) by (unfold in_int64, min_int64; lia).
  apply applied_le; [apply ratio_number; try apply Hin; lia..|].
  apply f64_div_mono; [apply finite_of_int64, Hin; lia..|apply key_of_Z_pos; lia|apply f64_of_Z_mono; lia].
Qed.

Lemma fraction_of_refl total hits :
  (hits <= total)%nat -> Z.of_nat total <= max_int64 ->
  contribution_le (fraction_of total hits) (fraction_of total hits).
Proof.
  intros Hh Ht. unfold fraction_of. destruct (Nat.eqb_spec total 0); [done|].
  apply contribution_le_refl, ratio_number; unfold in_int64, min_int64 in *; lia.
Qed.

Lemma load_le n n' :
  in_int64 (RunningCapsuleCount n) -> in_int64 (RunningCapsuleCount n') ->
  RunningCapsuleCount n' <= RunningCapsuleCount n ->
  contribution_le (factorLoadPenalty n) (factorLoadPenalty n').
Proof.
  intros Hn Hn' Hle. unfold factorLoadPenalty, softCap, f64_gt.
  set (u x := (f64_of_Z (RunningCapsuleCount x) / f50)%f64).
  assert (H50 : 0 < key f50) by (apply key_of_Z_pos; lia).
  assert (Hu : forall x, in_int64 (RunningCapsuleCount x) -> finite (u x)).
  { intros x Hx. assert (Hnum : number (u x)) by (apply f64_div_spec; auto using finite_of_int64 with falak).
    assert (Hlo : finite (f64_of_Z min_int64 / f50)%f64) by (by apply finiteb_finite).
    assert (Hhi : finite (f64_of_Z max_int64 / f50)%f64) by (by apply finiteb_finite).
    assert (Hmin : in_int64 min_int64) by (unfold in_int64, min_int64, max_int64; lia).
    assert (Hmax : in_int64 max_int64) by (unfold in_int64, min_int64, max_int64; lia).
    apply (finite_between _ _ _ Hnum Hlo Hhi). pose proof Hx as [Hx1 Hx2].
    pose proof f50_finite as Hf50. split.
    - exact (f64_div_mono _ _ _ (finite_of_int64 _ Hmin) (finite_of_int64 _ Hx) Hf50 H50 (f64_of_Z_mono _ _ Hx1)).
    - exact (f64_div_mono _ _ _ (finite_of_int64 _ Hx) (finite_of_int64 _ Hmax) Hf50 H50 (f64_of_Z_mono _ _ Hx2)). }
  assert (Huu : key (u n') <= key (u n)).
  { exact (f64_div_mono _ _ _ (finite_of_int64 _ Hn') (finite_of_int64 _ Hn) f50_finite H50 (f64_of_Z_mono _ _ Hle)). }
  set (cap x := if (f1 <? u x)%f64 then f1 else u x).
  assert (Hcap : forall x, in_int64 (RunningCapsuleCount x) -> finite (cap x) /\ key (cap x) = Z.min (key f1) (key (u x))).
  { intros x Hx. pose proof (Hu x Hx). unfold cap. rewrite f64_lt_spec by auto with falak.
    destruct (Z.ltb_spec (key f1) (key (u x))); split; auto with falak; lia. }
  destruct (Hcap n Hn) as [Hf Hk], (Hcap n' Hn') as [Hf' Hk'].
  assert (Hcc : key (cap n') <= key (cap n)) by lia.
  pose proof f1_finite as H1. change (contribution_le (applied (f1 - cap n)%f64) (applied (f1 - cap n')%f64)).
  apply applied_le; [by apply f64_sub_spec..|]. by apply f64_sub_mono.
Qed.

(** ** Comparing two nodes *)

Section Compare.
Context `{GoRange}.

(** The machine ranges of the integer fields. *)
Definition node_typed (n : NodeState) : Prop :=
  let r := ns_Resources n in
  in_int32 (CPUCoresTotal r) /\ in_int32 (CPUCoresFree r) /\ in_int64 (MemoryMBTotal r) /\
  in_int64 (MemoryMBFree r) /\ in_int64 (DiskMBTotal r) /\ in_int64 (DiskMBFree r) /\
  in_int64 (RunningCapsuleCount n) /\ f64_wf (ReliabilityScore n).

(** Rules and labels are counted in an [int]. *)
Definition capsule_typed (c : Capsule) : Prop :=
  Z.of_nat (length (cs_PlacementRules (c_Spec c))) <= max_int64 /\
  Z.of_nat (size (entries (cs_Labels (c_Spec c)))) <= max_int64.

(** [n'] is a state of the same node as [n], with the same location, labels,
    status and totals, no less free capacity, no less reliability and no more
    running capsules. *)
Definition at_least_as_good (n n' : NodeState) : Prop :=
  let r := ns_Resources n in let r' := ns_Resources n' in
  NodeID n' = NodeID n /\ ClusterPath n' = ClusterPath n /\ Datacenter n' = Datacenter n /\
  ns_Labels n' = ns_Labels n /\ ns_Status n' = ns_Status n /\
  CPUCoresTotal r' = CPUCoresTotal r /\ CPUCoresFree r <= CPUCoresFree r' /\
  MemoryMBTotal r' = MemoryMBTotal r /\ MemoryMBFree r <= MemoryMBFree r' /\
  DiskMBTotal r' = DiskMBTotal r /\ DiskMBFree r <= DiskMBFree r' /\
  (ReliabilityScore n <=? ReliabilityScore n')%f64 = true /\
  RunningCapsuleCount n' <= RunningCapsuleCount n.

Definition weights_sane (w : Weights) : Prop :=
  sane (CPUHeadroom w) /\ sane (MemoryHeadroom w) /\ sane (DiskHeadroom w) /\ sane (SoftPlacementMatch w) /\
  sane (AffinityProximity w) /\ sane (HardwareLabelMatch w) /\ sane (LoadPenalty w) /\ sane (Reliability w) /\
  sane (Diversity w) /\ sane (SnapshotLocality w).

Lemma rule_holds_same n n' lookup rule :
  NodeID n' = NodeID n -> ClusterPath n' = ClusterPath n -> Datacenter n' = Datacenter n ->
  ns_Labels n' = ns_Labels n -> rule_holds rule n lookup <-> rule_holds rule n' lookup.
Proof. intros H1 H2 H3 H4. unfold rule_holds, hosts_target. by rewrite H1, H2, H3, H4. Qed.

Lemma ruleMatchesNode_same n n' lookup rule :
  NodeID n' = NodeID n -> ClusterPath n' = ClusterPath n -> Datacenter n' = Datacenter n ->
  ns_Labels n' = ns_Labels n -> ruleMatchesNode rule n lookup = ruleMatchesNode rule n' lookup.
Proof.
  intros. apply eq_true_iff_eq. rewrite !ruleMatchesNode_spec. by apply rule_holds_same.
Qed.

Lemma eligible_mono c n n' lookup : at_least_as_good n n' -> eligible c n lookup -> eligible c n' lookup.
Proof.
  intros (H1 & H2 & H3 & H4 & H5 & _ & Hc & _ & Hm & _ & Hd & _) (E1 & E2 & E3 & E4 & E5 & E6).
  split_and!; [by rewrite H1, H2|by rewrite H5|lia..|].
  intros rule Hr Hq. rewrite <- (rule_holds_same n n') by done. auto.
Qed.

Lemma Calculate_eligible k c n :
  res_Eligible (Calculate k c n) = true <-> eligible c n (lookup k).
Proof.
  unfold Calculate. rewrite <- IsEligible_spec. by destruct (PassedEligibility _).
Qed.

Lemma Calculate_score k c n :
  eligible c n (lookup k) -> Score (Calculate k c n) = normalize (sums_of k c n).
Proof. unfold Calculate. rewrite <- IsEligible_spec. by intros ->. Qed.

Lemma filter_length_le {A} (f : A -> bool) l : (length (List.filter f l) <= length l)%nat.
Proof. induction l as [|x l IH]; simpl; [done|]. destruct (f x); simpl; lia. Qed.

Lemma filter_ext_nodes (n n' : NodeState) lookup rules :
  NodeID n' = NodeID n -> ClusterPath n' = ClusterPath n -> Datacenter n' = Datacenter n ->
  ns_Labels n' = ns_Labels n ->
  List.filter (fun r => ruleMatchesNode r n' lookup) rules = List.filter (fun r => ruleMatchesNode r n lookup) rules.
Proof.
  intros. induction rules as [|r rules IH]; simpl; [done|].
  rewrite (ruleMatchesNode_same n n') by done. by rewrite IH.
Qed.

(** Every factor of an eligible node is at most the same factor of a node
    that is at least as good. *)
Lemma terms_le k c n n' :
  weights_sane (weights k) -> capsule_typed c -> node_typed n -> node_typed n' ->
  at_least_as_good n n' -> eligible c n (lookup k) ->
  Forall2 term_le (terms k c n) (terms k c n').
Proof.
  intros (W1 & W2 & W3 & W4 & W5 & W6 & _ & W8 & W9 & W10) [Hr Hl] (T1 & T2 & T3 & T4 & T5 & T6 & _ & Trel)
    (_ & T2' & _ & T4' & _ & T6' & _ & Trel')
    (H1 & H2 & H3 & H4 & _ & Ht1 & Hf1 & Ht2 & Hf2 & Ht3 & Hf3 & Hrel & _) (_ & _ & E1 & E2 & E3 & _).
  unfold in_int32, in_int64, min_int64, max_int64 in *.
  assert (T : forall name a b w, contribution_le a b -> sane w -> term_le (name, a, w) (name, b, w)) by done.
  unfold terms.
  repeat match goal with |- Forall2 _ _ _ => constructor; [apply T; [|assumption]|] end.
  - unfold factorCPUHeadroom. rewrite Ht1. apply headroom_le; unfold max_int64; try lia.
    intros z Hz. apply int32_id. unfold in_int32. lia.
  - unfold factorMemoryHeadroom. rewrite Ht2. apply headroom_le; unfold max_int64; try lia.
    intros z Hz. apply int64_id. unfold in_int64, min_int64, max_int64. lia.
  - unfold factorDiskHeadroom. rewrite Ht3. apply headroom_le; unfold max_int64; try lia.
    intros z Hz. apply int64_id. unfold in_int64, min_int64, max_int64. lia.
  - unfold factorSoftPlacementMatch. rewrite (filter_ext_nodes n n') by done.
    apply fraction_of_refl; [apply filter_length_le|]. unfold max_int64.
    pose proof (filter_length_le (fun r => negb (pr_Required r)) (cs_PlacementRules (c_Spec c))). lia.
  - unfold factorAffinityProximity. destruct (lookup k); [|done]. rewrite H1, H2.
    apply fraction_of_refl; [apply filter_length_le|]. unfold max_int64.
    pose proof (filter_length_le (fun r => (pr_Type r =s placementTypeCapsule) && (pr_Mode r =s placementModeNear))
      (cs_PlacementRules (c_Spec c))). lia.
  - unfold factorHardwareLabelMatch. rewrite H4. apply fraction_of_refl; [|unfold max_int64; lia].
    etransitivity; [apply filter_length_le|]. by rewrite length_range.
  - assert (is_nan (ReliabilityScore n) = false /\ is_nan (ReliabilityScore n') = false) as [Hn Hn'].
    { destruct (ReliabilityScore n), (ReliabilityScore n'); done. }
    rewrite f64_le_spec in Hrel by done. apply Z.leb_le in Hrel. by apply applied_le.
  - unfold factorDiversity. rewrite H3. destruct (_ && _); [done|].
    destruct (_ =s ""); apply contribution_le_refl; auto with falak.
  - unfold factorSnapshotLocality. destruct (snapLookup k) as [has|]; [|done].
    destruct (has _ _); apply contribution_le_refl; auto with falak.
  - constructor.
Qed.

Lemma sums_of_le k c n n' :
  weights_sane (weights k) -> capsule_typed c -> node_typed n -> node_typed n' ->
  at_least_as_good n n' -> eligible c n (lookup k) ->
  let a := sums_of k c n in let b := sums_of k c n' in
  finite (weightedSum a) /\ finite (weightedSum b) /\ key (weightedSum a) <= key (weightedSum b) /\
  maxWeightedSum a = maxWeightedSum b /\ sum_ok 10 (maxWeightedSum a).
Proof.
  intros Hw Hc Ht Ht' Hg He.
  pose proof (sum_terms_le _ _ (terms_le k c n n' Hw Hc Ht Ht' Hg He) 0
    {| factors := ∅; weightedSum := f0; maxWeightedSum := f0 |}
    {| factors := ∅; weightedSum := f0; maxWeightedSum := f0 |} ltac:(lia) ltac:(simpl; lia)) as Hs.
  change (Z.of_nat (length (terms k c n))) with 9 in Hs.
  apply (subtract_load_le 9); [lia| | |apply Hw].
  - apply Hs. split_and!; auto using sum_ok_0. lia.
  - apply load_le; [apply Ht|apply Ht'|apply Hg].
Qed.

Lemma at_least_as_good_refl n : is_nan (ReliabilityScore n) = false -> f64_wf (ReliabilityScore n) -> at_least_as_good n n.
Proof.
  intros Hn Hw. unfold at_least_as_good. split_and!; try done.
  rewrite f64_le_spec by done. apply Z.leb_refl.
Qed.

Lemma Calculate_better k c n n' :
  weights_sane (weights k) -> capsule_typed c -> node_typed n -> node_typed n' ->
  at_least_as_good n n' -> res_Eligible (Calculate k c n) = true ->
  res_Eligible (Calculate k c n') = true /\
  finite (Score (Calculate k c n)) /\ finite (Score (Calculate k c n')) /\
  key (Score (Calculate k c n)) <= key (Score (Calculate k c n')).
Proof.
  intros Hw Hc Ht Ht' Hg He. apply Calculate_eligible in He. pose proof (eligible_mono _ _ _ _ Hg He) as He'.
  split; [by apply Calculate_eligible|]. rewrite !Calculate_score by done.
  destruct (sums_of_le k c n n' Hw Hc Ht Ht' Hg He) as (Ha & Hb & Hle & Hm & Hmo).
  destruct (normalize_mono 10 (sums_of k c n) (sums_of k c n') Ha Hb Hle Hm Hmo) as (Hf & Hf' & _ & Hk & _).
  done.
Qed.

(** ** Theorems *)

(** The filter is exact: a node passes precisely when it
    does not already run the capsule, is active, has enough free CPU, memory
    and disk for what is requested, and satisfies every hard placement rule. *)
Theorem gravity_eligibility_exact c node lookup :
  PassedEligibility (IsEligible c node lookup) = true <-> eligible c node lookup.
Proof. apply IsEligible_spec. Qed.

(** The score of an eligible node, with weights between 0
    and a million and a reliability that is a number, is a number of
    [0, 100]: no NaN, no infinity, no value outside the scale. *)
Theorem gravity_score_in_scale k c n
    (Hw : weights_sane (weights k)) (Hc : capsule_typed c) (Ht : node_typed n)
    (Hrel : is_nan (ReliabilityScore n) = false) :
  between f0 f100 (Score (Calculate k c n)).
Proof.
  assert (Hb : forall x, finite x -> 0 <= key x <= key f100 -> between f0 f100 x).
  { intros x Hx Hk. split_and!; [done|rewrite f64_le_spec by auto with falak; apply Z.leb_le; apply Hk..]. }
  destruct (res_Eligible (Calculate k c n)) eqn:He.
  - apply Calculate_eligible in He. rewrite Calculate_score by done.
    assert (Hg : at_least_as_good n n) by (apply at_least_as_good_refl; [done|apply Ht]).
    destruct (sums_of_le k c n n Hw Hc Ht Ht Hg He) as (Ha & _ & _ & _ & Hm).
    destruct (normalize_mono 10 (sums_of k c n) (sums_of k c n)) as (Hf & _ & H0 & _ & H1); auto; try lia.
  - unfold Calculate in *. destruct (PassedEligibility _); [done|]. simpl.
    apply Hb; [auto with falak|]. rewrite key_f0. split; [lia|]. apply key_of_Z_nonneg; lia.
Qed.

(** C4: improving a node never lowers its score. Take two states of
    the same node (identity, cluster path, datacenter, labels, status and total
    resources are equal), the second with no less free CPU, memory and disk, no
    less reliability (both scores are numbers) and no more running capsules. If
    the node is eligible for a capsule in the first state it is eligible in the
    second, and its score there is no lower, rounding included. The weights are
    those a deployment can use: each is a number between 0 and a million. *)
Theorem gravity_score_monotone k c n n'
    (Hw : weights_sane (weights k)) (Hc : capsule_typed c) (Ht : node_typed n) (Ht' : node_typed n')
    (Hg : at_least_as_good n n') (He : res_Eligible (Calculate k c n) = true) :
  res_Eligible (Calculate k c n') = true /\
  (Score (Calculate k c n) <=? Score (Calculate k c n'))%f64 = true.
Proof.
  destruct (Calculate_better k c n n' Hw Hc Ht Ht' Hg He) as (He' & Hf & Hf' & Hk).
  split; [done|]. rewrite f64_le_spec by auto with falak. by apply Z.leb_le.
Qed.

(** For a capsule whose specification went through
    defaulting, as every created or updated capsule's has, the soft-placement
    factor never applies: no rule is soft any more. *)
Theorem gravity_soft_factor_dead spec c node lookup (Hspec : c_Spec c = DefaultSpec spec) :
  factorSoftPlacementMatch c node lookup = notApplicable.
Proof.
  unfold factorSoftPlacementMatch. rewrite Hspec.
  assert (List.filter (fun r => negb (pr_Required r)) (cs_PlacementRules (DefaultSpec spec)) = []) as ->; [|done].
  pose proof (DefaultSpec_all_required spec) as Hall.
  induction Hall as [|r rs Hr _ IH]; simpl; [done|]. by rewrite Hr.
Qed.

End Compare.

(** Weight layers compose: overriding with a layer that was
    itself overridden is overriding twice, and the empty layer changes
    nothing, so built-in, cluster and capsule layers may be merged in either
    grouping. *)
Theorem weights_layers_associative w a b :
  Weights_Merge (Weights_Merge w a) b = Weights_Merge w (Weights_Merge a b) /\
  Weights_Merge w {| CPUHeadroom := f0; MemoryHeadroom := f0; DiskHeadroom := f0; SoftPlacementMatch := f0;
    AffinityProximity := f0; HardwareLabelMatch := f0; LoadPenalty := f0; Reliability := f0; Diversity := f0;
    SnapshotLocality := f0 |} = w.
Proof.
  assert (Ha : forall x y z, override_field (override_field x y) z = override_field x (override_field y z)).
  { intros x y z. unfold override_field. destruct (z =? f0)%f64 eqn:Ez; simpl; [done|by rewrite Ez]. }
  split; [|by destruct w]. unfold Weights_Merge; simpl. by rewrite !Ha.
Qed.

(** ** The top of the scale *)

(** The sums of a node that is perfect (1) in every factor that applies. *)
Definition perfect_terms (ts : list (string * factorContribution * f64)) : list (string * factorContribution * f64) :=
  map (fun '(name, contribution, w) => ("", (fun _ => f1) <$> contribution, w)) ts.

Definition perfect (w : Weights) (ts : list (string * factorContribution * f64)) : Sums :=
  subtract_load (sum_terms {| factors := ∅; weightedSum := f0; maxWeightedSum := f0 |} (perfect_terms ts))
    (Some f1) (LoadPenalty w).

(** The same, given only which of the nine factors apply. *)
Definition default_weight_list : list f64 :=
  let w := DefaultWeights in
  [CPUHeadroom w; MemoryHeadroom w; DiskHeadroom w; SoftPlacementMatch w; AffinityProximity w;
   HardwareLabelMatch w; Reliability w; Diversity w; SnapshotLocality w].

Definition flagged (flags : list bool) : list (string * factorContribution * f64) :=
  zip_with (fun (b : bool) w => ("", if b then Some f1 else None, w)) flags default_weight_list.

Fixpoint all_flags (n : nat) : list (list bool) :=
  match n with
  | O => [[]]
  | Datatypes.S n => map (cons true) (all_flags n) ++ map (cons false) (all_flags n)
  end.

Lemma all_flags_complete n flags : length flags = n -> In flags (all_flags n).
Proof.
  revert flags. induction n as [|n IH]; intros [|b flags] Hl; simpl in *; try done; [by left|].
  apply in_or_app. injection Hl as Hl. destruct b; [left|right]; apply in_map; auto.
Qed.

Definition f92 : f64 := f64_of_Z 92.

Lemma perfect_below_92 flags :
  length flags = 9%nat ->
  f64_lt (normalize (subtract_load (sum_terms {| factors := ∅; weightedSum := f0; maxWeightedSum := f0 |} (flagged flags))
    (Some f1) (LoadPenalty DefaultWeights))) f92 = true.
Proof.
  intros Hl%all_flags_complete. revert flags Hl.
  apply (proj1 (forallb_forall _ _)). vm_compute. reflexivity.
Qed.

Lemma f1_unit : unit_interval f1.
Proof. split; [auto with falak|]. rewrite key_f1. pose proof scale_pos. lia. Qed.

Lemma DefaultWeights_sane : weights_sane DefaultWeights.
Proof. unfold weights_sane. split_and!; apply sane_dec; vm_compute; reflexivity. Qed.

Section Top.
Context `{GoRange}.

Lemma terms_perfect_le ts : Forall2 term_le ts ts -> Forall2 term_le ts (perfect_terms ts).
Proof.
  induction ts as [|[[name ca] w] ts IH]; intros Hf; simpl; [constructor|].
  inversion_clear Hf as [|? ? ? ? (Hc & _ & Hs) Hrest]. constructor; [|auto].
  split_and!; [|done|done]. simpl in *. destruct ca as [v|]; [|done].
  destruct Hc as (Hv & _). split_and!; [done|apply f1_unit|apply Hv].
Qed.

Definition applies (t : string * factorContribution * f64) : bool :=
  match t.1.2 with Some _ => true | None => false end.

Lemma perfect_terms_flagged ts :
  ts.*2 = default_weight_list -> perfect_terms ts = flagged (map applies ts).
Proof.
  unfold flagged. intros <-. induction ts as [|[[name [v|]] w] ts IH]; simpl; [done|by f_equal..].
Qed.

(** With the built-in weights no node of any kind scores 92 or
    more: the load penalty's weight is counted into the maximum although an
    idle node gains nothing from it, so even a node that is perfect in every
    factor stays below the documented 100. *)
Theorem gravity_default_score_below_92 l sl c n
    (Hc : capsule_typed c) (Ht : node_typed n) (Hrel : is_nan (ReliabilityScore n) = false) :
  (Score (Calculate (NewCalculator None l sl) c n) <? f92)%f64 = true.
Proof.
  set (k := NewCalculator None l sl). destruct (res_Eligible (Calculate k c n)) eqn:He.
  2: { unfold Calculate in *. by destruct (PassedEligibility _). }
  apply Calculate_eligible in He. rewrite Calculate_score by done.
  assert (Hw : weights_sane (weights k)).
  { apply DefaultWeights_sane. }
  assert (Hg : at_least_as_good n n) by (apply at_least_as_good_refl; [done|apply Ht]).
  pose proof (sum_terms_le _ _ (terms_perfect_le _ (terms_le k c n n Hw Hc Ht Ht Hg He)) 0
    {| factors := ∅; weightedSum := f0; maxWeightedSum := f0 |}
    {| factors := ∅; weightedSum := f0; maxWeightedSum := f0 |} ltac:(lia) ltac:(simpl; lia)) as Hs.
  change (Z.of_nat (length (terms k c n))) with 9 in Hs.
  destruct (subtract_load_le 9 _ _ (factorLoadPenalty n) (Some f1) (LoadPenalty (weights k)) ltac:(lia)
    (Hs ltac:(split_and!; auto using sum_ok_0; lia))) as (Ha & Hb & Hle & Hm & Hmo); [|apply Hw|].
  { destruct (load_le n n) as (Hv & _); [apply Ht..|lia|]. split_and!; [done|apply f1_unit|apply Hv]. }
  destruct (normalize_mono 10 _ _ Ha Hb Hle Hm Hmo) as (Hf & Hf' & _ & Hk & _).
  rewrite (perfect_terms_flagged (terms k c n)) in Hk, Hf' by reflexivity.
  pose proof (perfect_below_92 (map applies (terms k c n)) eq_refl) as Hp. rewrite f64_lt_spec in Hp |- * by (auto with falak || by apply finite_number, finiteb_finite).
  apply Z.ltb_lt in Hp. apply Z.ltb_lt. unfold sums_of. change (LoadPenalty (weights k)) with (LoadPenalty DefaultWeights) in *. lia.
Qed.

End Top.

(** ** Concrete nodes *)

Module GravityDemo.

Definition demo_node (free running : Z) : NodeState := {|
  NodeID := "n1"; ClusterPath := "us/dc1/prod"; Datacenter := "dc1"; Region := "us"; ns_Labels := None;
  ns_Resources := {| CPUCoresTotal := 8; CPUCoresFree := free; MemoryMBTotal := 1024; MemoryMBFree := 512;
                     DiskMBTotal := 1024; DiskMBFree := 512 |};
  ns_Status := nodeStatusActive; ReliabilityScore := f1; RunningCapsuleCount := running |}.

Definition demo_capsule (rules : list PlacementRule) : Capsule := {|
  c_ID := "c1"; c_ClusterID := "us/dc1/prod";
  c_Spec := DefaultSpec (let s := demo_spec rules in
    {| cs_Name := cs_Name s; cs_Image := cs_Image s; cs_ImageAlias := ""; cs_ImageDigest := ""; cs_Orbit := cs_Orbit s;
       cs_Tier := ""; cs_Labels := None;
       cs_Resources := {| CPUCores := 2; CPUCoresMax := 0; MemoryMB := 256; MemoryMBMax := 0; DiskMB := 0 |};
       cs_Replicas := cs_Replicas s; cs_ScalingRules := []; cs_PlacementRules := rules; cs_Runtime := cs_Runtime s;
       cs_MomentumConfig := cs_MomentumConfig s; cs_Command := [] |});
  c_Status := capsuleStatusAnnounced; c_Replicas := [];
  c_Momentum := {| ms_Current := 0; ms_Base := 0; ms_LastAdjusted := 0 |}; c_Version := "1";
  c_CreatedAt := 0; c_UpdatedAt := 0 |}.

Definition demo_calc : Calculator := NewCalculator None None None.

Lemma demo_node_typed free running : 0 <= free <= 8 -> 0 <= running <= 100 -> node_typed (demo_node free running).
Proof.
  intros. assert (f64_wf f1) by exact (proj1 (finite_number _ f1_finite)).
  unfold node_typed, in_int32, in_int64, min_int64, max_int64.
  cbn [demo_node ns_Resources CPUCoresTotal CPUCoresFree MemoryMBTotal MemoryMBFree DiskMBTotal DiskMBFree
       RunningCapsuleCount ReliabilityScore]. do 7 (split; [lia|]). assumption.
Qed.

Lemma demo_capsule_typed : capsule_typed (demo_capsule []).
Proof. done. Qed.

Lemma gravity_score_in_scale_witness :
  between f0 f100 (Score (Calculate demo_calc (demo_capsule []) (demo_node 4 3))).
Proof.
  apply (gravity_score_in_scale demo_calc (demo_capsule []) (demo_node 4 3));
    [exact DefaultWeights_sane|exact demo_capsule_typed|apply demo_node_typed; lia|reflexivity].
Defined.

Lemma gravity_score_monotone_witness :
  (Score (Calculate demo_calc (demo_capsule []) (demo_node 4 3))
   <=? Score (Calculate demo_calc (demo_capsule []) (demo_node 6 1)))%f64 = true.
Proof.
  apply (gravity_score_monotone demo_calc (demo_capsule []) (demo_node 4 3) (demo_node 6 1));
    [exact DefaultWeights_sane|exact demo_capsule_typed|apply demo_node_typed; lia..| |vm_compute; reflexivity].
  unfold at_least_as_good; simpl. split_and!; (reflexivity || lia).
Defined.

Lemma gravity_soft_factor_dead_witness :
  factorSoftPlacementMatch (demo_capsule [soft_rule]) (demo_node 4 3) None = notApplicable.
Proof. eapply gravity_soft_factor_dead. reflexivity. Defined.

Lemma gravity_default_score_below_92_witness :
  (Score (Calculate demo_calc (demo_capsule []) (demo_node 8 0)) <? f92)%f64 = true.
Proof.
  apply (gravity_default_score_below_92 None None (demo_capsule []) (demo_node 8 0));
    [exact demo_capsule_typed|apply demo_node_typed; lia|reflexivity].
Defined.

End GravityDemo.
