(* ===== verification/Elector.v ===== *)
(** * Election vocabulary ([election/elector.go], [election/proto])

    Requests, decisions, outcomes, the wire claims, and the interface every
    election strategy implements. *)

From S2P Require Import Prelude Float64 CapsuleTypes Gravity.
Local Open Scope string_scope. Local Open Scope list_scope. Local Open Scope Z_scope.

Abbreviation ElectionReason := string (only parsing).
Definition reasonInitial : ElectionReason := "initial".
Definition reasonScaleUp : ElectionReason := "scale_up".
Definition reasonNodeFailure : ElectionReason := "node_failure".
Definition reasonManual : ElectionReason := "manual".
Definition reasonRebalance : ElectionReason := "rebalance".

Record Request := {
  rq_CapsuleID : CapsuleID;
  rq_ReplicaID : string;
  rq_ClusterPath : string;
  rq_Reason : ElectionReason;
  rq_PreviousNodeID : string;
  rq_Priority : Z;
  rq_CreatedAt : Time
}.

Record Decision := {
  d_Eligible : bool;
  d_Score : f64;
  d_PublishAt : Time;
  d_Reason : string
}.

Inductive Outcome := OutcomeWon | OutcomeLost | OutcomeFailed.

(** [gravity.StateProvider]: the local node's snapshot for a cluster, or the
    text of an error. *)
Definition StateProvider : Type := string -> result string NodeState.

(** What [Decide] draws from outside its arguments: the wall clock and the
    random bytes of the jitter ([None] when the random source fails). *)
Record Ambient := { now : Time; random : option (list ascii) }.

Record Strategy := {
  s_Name : string;
  s_Decide : Ambient -> Request -> Capsule -> Calculator -> StateProvider -> Decision
}.

(** ** Wire messages *)

Record Claim := {
  cl_CapsuleId : string; cl_ReplicaId : string; cl_ClusterPath : string; cl_NodeId : string;
  cl_GravityScore : f64; cl_TimestampMicros : Z
}.

Record ElectionFailed := {
  ef_CapsuleId : string; ef_ReplicaId : string; ef_ClusterPath : string; ef_SenderId : string;
  ef_Reason : string; ef_TimestampMicros : Z
}.
