(* ===== verification/Delay.v ===== *)
(** * The delay strategy ([election/delay/strategy.go])

    A node turns its gravity score into a publish time: the better the score,
    the earlier the claim. *)

From S2P Require Import Prelude Float64 Strconv CapsuleTypes CapsuleSpec Gravity Elector.
Local Open Scope string_scope. Local Open Scope list_scope. Local Open Scope Z_scope.

Definition defaultMaxWait : Duration := 500 * millisecond.
Definition defaultMaxJitter : Duration := 200 * microsecond.
Definition defaultReplicaStagger : Duration := 150 * millisecond.

Record DelayStrategy := { maxWait : Duration; maxJitter : Duration; replicaStagger : Duration }.

(** [New] with no options; [WithMaxWait] and the others set the fields. *)
Definition New : DelayStrategy :=
  {| maxWait := defaultMaxWait; maxJitter := defaultMaxJitter; replicaStagger := defaultReplicaStagger |}.
Definition WithMaxWait (d : Duration) (s : DelayStrategy) : DelayStrategy :=
  {| maxWait := d; maxJitter := maxJitter s; replicaStagger := replicaStagger s |}.
Definition WithMaxJitter (d : Duration) (s : DelayStrategy) : DelayStrategy :=
  {| maxWait := maxWait s; maxJitter := d; replicaStagger := replicaStagger s |}.
Definition WithReplicaStagger (d : Duration) (s : DelayStrategy) : DelayStrategy :=
  {| maxWait := maxWait s; maxJitter := maxJitter s; replicaStagger := d |}.

(** ** Waits *)

Definition replicaSlotStagger (replicaID : string) (stagger : Duration) : Duration :=
  if stagger <=? 0 then 0
  else match strconv_Atoi replicaID with
       | None => 0
       | Some slot => if slot <? 0 then 0 else int64 (slot * stagger)
       end.

Section Waits.
Context `{GoConv}.

Definition waitForScore (score : f64) (maxWait : Duration) : Duration :=
  let score := if (score <? f0)%f64 then f0 else score in
  let score := if (score >? f100)%f64 then f100 else score in
  let fraction := ((f100 - score) / f100)%f64 in
  f64_to_int64 (fraction * f64_of_Z maxWait)%f64.

End Waits.

(** [binary.BigEndian.Uint64] *)
Definition be_uint64 (bytes : list ascii) : Z :=
  fold_left (fun acc b => acc * 256 + Z.of_N (N_of_ascii b)) bytes 0.

(** [jitter] with the 8 bytes the random source delivered. *)
Definition jitter (random : option (list ascii)) (max : Duration) : Duration :=
  if max <=? 0 then 0
  else match random with
       | None => 0
       | Some b => be_uint64 b mod max
       end.

Section Decide.
Context `{GoConv} `{GoRange}.

Definition Decide (s : DelayStrategy) (env : Ambient) (req : Request) (c : Capsule) (calc : Calculator)
  (provider : StateProvider) : Decision :=
  match provider (rq_ClusterPath req) with
  | Err e => {| d_Eligible := false; d_Score := f0; d_PublishAt := zero_time;
                d_Reason := "delay strategy: local node lookup failed: " +:+ e |}
  | Ok state =>
      let res := Calculate calc c state in
      if negb (res_Eligible res) then
        {| d_Eligible := false; d_Score := f0; d_PublishAt := zero_time;
           d_Reason := "delay strategy: ineligible (" +:+ Reason (Inelig res) +:+ ": " +:+ Detail (Inelig res) +:+ ")" |}
      else
        let score := Score res in
        let baseWait := waitForScore score (maxWait s) in
        let jit := jitter (random env) (maxJitter s) in
        let slotDelay := replicaSlotStagger (rq_ReplicaID req) (replicaStagger s) in
        let wait := int64 (int64 (baseWait + slotDelay) + jit) in
        {| d_Eligible := true; d_Score := score; d_PublishAt := time_Add (now env) wait;
           d_Reason := "delay strategy: eligible" |}
  end.

(** The strategy as the election manager uses it. *)
Definition delay_strategy (s : DelayStrategy) : Strategy := {| s_Name := "delay"; s_Decide := Decide s |}.

End Decide.

(** ** Bounds and monotonicity *)

Section Facts.
Context `{GoConv} `{GoRange}.

(** A maximal wait a double holds exactly (up to 104 days). *)
Definition wait_ok (d : Duration) : Prop := 0 <= d < 2 ^ 53.

Lemma key_f100 : key f100 = 100 * 2 ^ scale.
Proof. unfold f100. by rewrite key_of_Z_exact by lia. Qed.

(** The score after the two clamps of [waitForScore]. *)
Definition clamp100 (score : f64) : f64 :=
  let score := if (score <? f0)%f64 then f0 else score in
  if (score >? f100)%f64 then f100 else score.

Lemma clamp100_spec score :
  number score -> finite (clamp100 score) /\ key (clamp100 score) = Z.max 0 (Z.min (key f100) (key score)).
Proof.
  intros Hn. pose proof scale_pos as Hs. pose proof key_f100 as H100. unfold clamp100, f64_gt.
  rewrite (f64_lt_spec score f0) by auto with falak. rewrite key_f0. pose proof f0_finite. pose proof f100_finite.
  destruct (Z.ltb_spec (key score) 0).
  - rewrite f64_lt_spec by auto with falak. rewrite key_f0.
    destruct (Z.ltb_spec (key f100) 0); [lia|]. rewrite key_f0. split; [done|lia].
  - rewrite f64_lt_spec by auto with falak. destruct (Z.ltb_spec (key f100) (key score)).
    + split; [done|lia].
    + split; [apply (finite_between _ f0 f100); rewrite ?key_f0; auto with falak|lia].
Qed.

Definition fraction (score : f64) : f64 := ((f100 - clamp100 score) / f100)%f64.

Lemma fraction_unit score : number score -> unit_interval (fraction score).
Proof.
  intros Hn. destruct (clamp100_spec score Hn) as [Hf Hk]. pose proof f100_finite as H100f.
  pose proof scale_pos. pose proof key_f100 as H100. unfold fraction.
  destruct (f64_sub_spec f100 (clamp100 score) H100f Hf) as [Hsn Hsk].
  assert (Hr : 0 <= key (f100 - clamp100 score)%f64 <= key f100).
  { rewrite Hsk. split; [apply key_round_nonneg; lia|apply key_round_le; [done|lia..]]. }
  assert (Hsf : finite (f100 - clamp100 score)%f64).
  { apply (finite_between _ f0 f100); rewrite ?key_f0; auto with falak. }
  destruct (f64_div_spec _ f100 Hsf H100f ltac:(lia)) as [Hdn Hdk].
  assert (Hdr : 0 <= key ((f100 - clamp100 score) / f100)%f64 <= key f1).
  { rewrite Hdk. split; [apply key_round_nonneg; [lia|nia]|].
    apply key_round_le; [auto with falak|lia|]. rewrite key_f1. nia. }
  split; [|done]. apply (finite_between _ f0 f1); rewrite ?key_f0; auto with falak.
Qed.

Lemma fraction_mono s s' :
  number s -> number s' -> key s <= key s' -> key (fraction s') <= key (fraction s).
Proof.
  intros Hs Hs' Hle. destruct (clamp100_spec s Hs) as [Hf Hk], (clamp100_spec s' Hs') as [Hf' Hk'].
  pose proof f100_finite as H100f. pose proof key_f100 as H100. pose proof scale_pos.
  assert (Hsub : forall x, number x -> finite (f100 - clamp100 x)%f64).
  { intros x Hx. destruct (clamp100_spec x Hx) as [Hxf Hxk].
    destruct (f64_sub_spec f100 (clamp100 x) H100f Hxf) as [Hsn Hsk].
    apply (finite_between _ f0 f100); rewrite ?key_f0; auto with falak. rewrite Hsk.
    split; [apply key_round_nonneg; lia|apply key_round_le; [done|lia..]]. }
  apply f64_div_mono; [by apply Hsub..|done|lia|]. apply f64_sub_mono; (done || lia).
Qed.

Lemma waitForScore_unfold score mw :
  waitForScore score mw = f64_to_int64 (fraction score * f64_of_Z mw)%f64.
Proof. done. Qed.

(** The wait, before truncation, lies between 0 and the maximum. *)
Lemma raw_wait_range score mw :
  number score -> wait_ok mw ->
  finite (fraction score * f64_of_Z mw)%f64 /\ 0 <= key (fraction score * f64_of_Z mw)%f64 <= mw * 2 ^ scale.
Proof.
  intros Hn Hmw. unfold wait_ok in Hmw. destruct (fraction_unit score Hn) as [Hf Hk].
  assert (Hmf : finite (f64_of_Z mw)) by (apply finite_of_int64; unfold in_int64, min_int64, max_int64; lia).
  assert (Hmk : key (f64_of_Z mw) = mw * 2 ^ scale) by (apply key_of_Z_exact; lia).
  destruct (f64_mul_spec _ _ Hf Hmf) as [Hpn Hpk]. pose proof scale_pos.
  assert (Hr : 0 <= key (fraction score * f64_of_Z mw)%f64 <= key (f64_of_Z mw)).
  { rewrite Hpk. split; [apply key_round_nonneg; [lia|nia]|]. apply key_round_le; [done|lia|].
    rewrite key_f1 in Hk. nia. }
  split; [|lia]. apply (finite_between _ f0 (f64_of_Z mw)); rewrite ?key_f0; auto with falak.
Qed.

Lemma waitForScore_key score mw :
  number score -> wait_ok mw ->
  waitForScore score mw = key (fraction score * f64_of_Z mw)%f64 / 2 ^ scale.
Proof.
  intros Hn Hmw. destruct (raw_wait_range score mw Hn Hmw) as [Hf Hk]. rewrite waitForScore_unfold.
  apply f64_to_int64_spec; [done|lia|]. pose proof scale_pos. unfold wait_ok, max_int64 in *. nia.
Qed.

Lemma waitForScore_range score mw : number score -> wait_ok mw -> 0 <= waitForScore score mw <= mw.
Proof.
  intros Hn Hmw. rewrite waitForScore_key by done. destruct (raw_wait_range score mw Hn Hmw) as [_ Hk].
  pose proof scale_pos. split; [apply Z.div_pos; lia|]. apply Z.div_le_upper_bound; lia.
Qed.

Lemma waitForScore_mono s s' mw :
  number s -> number s' -> wait_ok mw -> key s <= key s' -> waitForScore s' mw <= waitForScore s mw.
Proof.
  intros Hs Hs' Hmw Hle. rewrite !waitForScore_key by done.
  apply Z.div_le_mono; [apply scale_pos|].
  destruct (fraction_unit s Hs) as [Hf Hk], (fraction_unit s' Hs') as [Hf' Hk'].
  assert (Hmf : finite (f64_of_Z mw)) by (apply finite_of_int64; unfold wait_ok, in_int64, min_int64, max_int64 in *; lia).
  pose proof (fraction_mono s s' Hs Hs' Hle).
  assert (0 <= key (f64_of_Z mw)) by (apply key_of_Z_nonneg; apply Hmw).
  apply f64_mul_mono; auto; lia.
Qed.

(** ** Theorems *)

(** The wait of every score that is a number lies between zero
    and the configured maximum, and a better score never waits longer. *)
Theorem delay_wait_bounded_monotone s s' mw
    (Hs : number s) (Hs' : number s') (Hmw : wait_ok mw) (Hle : (s <=? s')%f64 = true) :
  0 <= waitForScore s' mw <= waitForScore s mw /\ waitForScore s mw <= mw.
Proof.
  rewrite f64_le_spec in Hle by done. apply Z.leb_le in Hle.
  pose proof (waitForScore_mono s s' mw Hs Hs' Hmw Hle).
  pose proof (waitForScore_range s mw Hs Hmw). pose proof (waitForScore_range s' mw Hs' Hmw). lia.
Qed.

(** Settings under which no duration of a round overflows. *)
Definition strategy_ok (s : DelayStrategy) (replicaID : string) : Prop :=
  wait_ok (maxWait s) /\ wait_ok (maxJitter s) /\
  0 <= replicaSlotStagger replicaID (replicaStagger s) <= 2 ^ 62.

Lemma jitter_range r max : wait_ok max -> 0 <= jitter r max < 2 ^ 53.
Proof.
  unfold wait_ok, jitter. intros. destruct (Z.leb_spec max 0); [lia|]. destruct r; [|lia].
  pose proof (Z.mod_pos_bound (be_uint64 l) max ltac:(lia)). lia.
Qed.

Lemma Decide_eligible s env req c calc provider state :
  provider (rq_ClusterPath req) = Ok state -> res_Eligible (Calculate calc c state) = true ->
  strategy_ok s (rq_ReplicaID req) -> number (Score (Calculate calc c state)) ->
  let d := Decide s env req c calc provider in
  d_Eligible d = true /\ d_Score d = Score (Calculate calc c state) /\
  d_PublishAt d = now env + waitForScore (Score (Calculate calc c state)) (maxWait s)
                  + replicaSlotStagger (rq_ReplicaID req) (replicaStagger s) + jitter (random env) (maxJitter s).
Proof.
  intros Hp He (Hw & Hj & Hsl) Hn. cbv zeta. unfold Decide. rewrite Hp. cbv zeta. rewrite He. simpl negb. cbv iota.
  split; [done|]. split; [done|]. cbn [d_PublishAt]. unfold time_Add.
  pose proof (waitForScore_range _ _ Hn Hw) as Hr. pose proof (jitter_range (random env) _ Hj) as Hjr.
  set (b := waitForScore _ _) in *. set (st := replicaSlotStagger _ _) in *. set (j := jitter _ _) in *.
  unfold wait_ok in *. rewrite (int64_id (b + st)), int64_id; unfold in_int64, min_int64, max_int64; lia.
Qed.

(** Of two nodes that decide on the same request at the
    same moment with the same jitter, the one with no less free capacity, no
    less reliability and no more load is eligible whenever the other is, and
    publishes no later. *)
Theorem delay_better_node_publishes_first s env req c calc provider provider' n n'
    (Hw : weights_sane (weights calc)) (Hc : capsule_typed c) (Ht : node_typed n) (Ht' : node_typed n')
    (Hs : strategy_ok s (rq_ReplicaID req)) (Hg : at_least_as_good n n')
    (Hp : provider (rq_ClusterPath req) = Ok n) (Hp' : provider' (rq_ClusterPath req) = Ok n')
    (He : d_Eligible (Decide s env req c calc provider) = true) :
  d_Eligible (Decide s env req c calc provider') = true /\
  d_PublishAt (Decide s env req c calc provider') <= d_PublishAt (Decide s env req c calc provider) <=
    now env + maxWait s + replicaSlotStagger (rq_ReplicaID req) (replicaStagger s) + jitter (random env) (maxJitter s).
Proof.
  assert (Hel : res_Eligible (Calculate calc c n) = true).
  { unfold Decide in He. rewrite Hp in He. cbv zeta in He. by destruct (res_Eligible _). }
  destruct (Calculate_better calc c n n' Hw Hc Ht Ht' Hg Hel) as (Hel' & Hf & Hf' & Hk).
  destruct (Decide_eligible s env req c calc provider n Hp Hel Hs ltac:(auto with falak)) as (_ & _ & ->).
  destruct (Decide_eligible s env req c calc provider' n' Hp' Hel' Hs ltac:(auto with falak)) as (He' & _ & ->).
  split; [done|]. destruct Hs as (Hmw & _).
  pose proof (waitForScore_mono _ _ (maxWait s) (finite_number _ Hf) (finite_number _ Hf') Hmw Hk).
  pose proof (waitForScore_range _ _ (finite_number _ Hf) Hmw). lia.
Qed.

End Facts.

(** ** Concrete decisions *)

Module DelayDemo.
Import GravityDemo.

Definition demo_request : Request :=
  {| rq_CapsuleID := "c1"; rq_ReplicaID := "0"; rq_ClusterPath := "us/dc1/prod"; rq_Reason := reasonInitial;
     rq_PreviousNodeID := ""; rq_Priority := 0; rq_CreatedAt := 0 |}.

Definition demo_env : Ambient := {| now := 1000; random := None |}.

Lemma delay_wait_bounded_monotone_witness :
  0 <= waitForScore f100 defaultMaxWait <= waitForScore f50 defaultMaxWait /\
  waitForScore f50 defaultMaxWait <= defaultMaxWait.
Proof.
  apply (delay_wait_bounded_monotone f50 f100 defaultMaxWait);
    [exact (finite_number _ f50_finite)|exact (finite_number _ f100_finite)
    |unfold wait_ok, defaultMaxWait, millisecond, microsecond; lia|reflexivity].
Defined.

Lemma delay_better_node_publishes_first_witness :
  d_PublishAt (Decide New demo_env demo_request (demo_capsule []) demo_calc (fun _ => Ok (demo_node 6 1)))
  <= d_PublishAt (Decide New demo_env demo_request (demo_capsule []) demo_calc (fun _ => Ok (demo_node 4 3))).
Proof.
  assert (Hs : strategy_ok New (rq_ReplicaID demo_request)).
  { unfold strategy_ok, wait_ok. split_and!; (reflexivity || (vm_compute; discriminate)). }
  assert (Hg : at_least_as_good (demo_node 4 3) (demo_node 6 1)).
  { unfold at_least_as_good. simpl. split_and!; (reflexivity || lia). }
  assert (He : d_Eligible (Decide New demo_env demo_request (demo_capsule []) demo_calc (fun _ => Ok (demo_node 4 3))) = true)
    by (vm_compute; reflexivity).
  destruct (delay_better_node_publishes_first New demo_env demo_request (demo_capsule []) demo_calc
    (fun _ => Ok (demo_node 4 3)) (fun _ => Ok (demo_node 6 1)) (demo_node 4 3) (demo_node 6 1)
    DefaultWeights_sane demo_capsule_typed (demo_node_typed 4 3 ltac:(lia) ltac:(lia))
    (demo_node_typed 6 1 ltac:(lia) ltac:(lia)) Hs Hg eq_refl eq_refl He) as [_ [H _]].
  exact H.
Defined.

End DelayDemo.
