(* ===== verification/ElectionManager.v ===== *)
(** * Election manager ([election/manager.go])

    One manager runs on every node.  Its state is explicit, its methods are
    state transformers, and each election round it starts is a process whose
    atomic steps interleave with those of the other rounds: a round is between
    two points where its goroutine blocks or takes a lock, and [round_step]
    says what the goroutine does when it continues with a given event. *)

From S2P Require Import Prelude Float64 CapsuleTypes Gravity Elector Delay.
Local Open Scope string_scope. Local Open Scope list_scope. Local Open Scope Z_scope.

(** ** Strategy registry *)

(** An interface value may be nil. *)
Record StrategyRegistry := { defaultS : option Strategy; perCluster : gmap string (option Strategy) }.

Definition NewStrategyRegistry (defaultStrategy : option Strategy) : StrategyRegistry :=
  {| defaultS := defaultStrategy; perCluster := ∅ |}.
Definition StrategyRegistry_Set (clusterPath : string) (s : option Strategy) (r : StrategyRegistry) : StrategyRegistry :=
  {| defaultS := defaultS r; perCluster := <[clusterPath := s]> (perCluster r) |}.
Definition StrategyRegistry_Get (clusterPath : string) (r : StrategyRegistry) : option Strategy :=
  match perCluster r !! clusterPath with Some s => s | None => defaultS r end.

(** ** The tiebreak *)

Definition isBetter (rival : Claim) (ours : Decision) (ourNodeID : string) : bool :=
  if negb (cl_GravityScore rival =? d_Score ours)%f64 then (cl_GravityScore rival >? d_Score ours)%f64
  else
    let rivalTime := cl_TimestampMicros rival in
    let ourTime := UnixMicro (d_PublishAt ours) in
    if negb (rivalTime =? ourTime) then rivalTime <? ourTime
    else cl_NodeId rival <s ourNodeID.

(** ** State *)

(** A round identifies its capsule and replica slot. *)
Definition inflightKey : Type := string * string.
Definition key_of (req : Request) : inflightKey := (rq_CapsuleID req, rq_ReplicaID req).

(** Where a round's goroutine stands in [runElection]. *)
Inductive Phase :=
  | PStart                                            (** before [Decide] *)
  | PWait (d : Decision) (deadline : Time)            (** the select before [PublishAt] *)
  | PClaim (d : Decision) (deadline : Time)           (** before [tryClaimCapsule] *)
  | PPublish (d : Decision)                           (** holds the claim slot, before [PublishClaim] *)
  | PTie (d : Decision) (tiebreakDeadline : Time)     (** the tiebreak loop *)
  | PRemote (deadline : Time).                        (** [waitForRemoteVerdict] *)

Record Round := {
  rd_req : Request;
  rd_capsule : Capsule;
  rd_strategy : Strategy;
  rd_phase : Phase;
  rd_closed : bool   (** the topic was stopped: both channels are closed *)
}.

(** What the manager does to its surroundings, in order. *)
Inductive Effect :=
  | LStartElection (key : inflightKey)
  | LWinElection (id : CapsuleID)
  | LElectionTimeout (id : CapsuleID)
  | EmitWon (req : Request) (winner : string) (score : f64)
  | EmitLost (req : Request) (winner : string)
  | EmitFailed (req : Request) (reason : string)
  | PublishedClaim (c : Claim)
  | PublishedFailure (f : ElectionFailed)
  | Panic.                                            (** nil dereference: the process dies *)

Record Manager := {
  registry : StrategyRegistry;
  store : option (CapsuleID -> option Capsule);
  has_lifecycle : bool;
  nodeID : string;
  calculator : option Calculator;
  provider : option StateProvider;
  perClusterCalc : gmap string Calculator;
  has_pubsub : bool;
  topics : gset string;
  publishTimeout : Duration;
  electionTimeout : Duration;
  tiebreakWindow : Duration;
  perClusterTimeout : gmap string Duration;
  inflight : gset inflightKey;
  localClaims : gset string;
  started : bool;      (** [ctx != nil] *)
  cancelled : bool;    (** the manager's context was cancelled *)
  rounds : gmap inflightKey Round;   (** the goroutines that run *)
  log : list Effect
}.

Inductive EMError :=
  | ErrNotStarted
  | ErrMissingDependency
  | ErrNoCapsule (id : CapsuleID)
  | ErrNotJoined (clusterPath : string)
  | ErrNoStrategy
  | ErrNoPubsub
  | ErrJoin (clusterPath : string) (e : string).

(** Field updates. *)
Definition set_topics (x : gset string) (m : Manager) : Manager :=
  {| registry := registry m; store := store m; has_lifecycle := has_lifecycle m; nodeID := nodeID m;
     calculator := calculator m; provider := provider m; perClusterCalc := perClusterCalc m; has_pubsub := has_pubsub m;
     topics := x; publishTimeout := publishTimeout m; electionTimeout := electionTimeout m;
     tiebreakWindow := tiebreakWindow m; perClusterTimeout := perClusterTimeout m; inflight := inflight m;
     localClaims := localClaims m; started := started m; cancelled := cancelled m; rounds := rounds m; log := log m |}.
Definition set_overrides (c : gmap string Calculator) (t : gmap string Duration) (m : Manager) : Manager :=
  {| registry := registry m; store := store m; has_lifecycle := has_lifecycle m; nodeID := nodeID m;
     calculator := calculator m; provider := provider m; perClusterCalc := c; has_pubsub := has_pubsub m;
     topics := topics m; publishTimeout := publishTimeout m; electionTimeout := electionTimeout m;
     tiebreakWindow := tiebreakWindow m; perClusterTimeout := t; inflight := inflight m;
     localClaims := localClaims m; started := started m; cancelled := cancelled m; rounds := rounds m; log := log m |}.
Definition set_lifetime (s c : bool) (m : Manager) : Manager :=
  {| registry := registry m; store := store m; has_lifecycle := has_lifecycle m; nodeID := nodeID m;
     calculator := calculator m; provider := provider m; perClusterCalc := perClusterCalc m; has_pubsub := has_pubsub m;
     topics := topics m; publishTimeout := publishTimeout m; electionTimeout := electionTimeout m;
     tiebreakWindow := tiebreakWindow m; perClusterTimeout := perClusterTimeout m; inflight := inflight m;
     localClaims := localClaims m; started := s; cancelled := c; rounds := rounds m; log := log m |}.
Definition set_rounds (i : gset inflightKey) (r : gmap inflightKey Round) (m : Manager) : Manager :=
  {| registry := registry m; store := store m; has_lifecycle := has_lifecycle m; nodeID := nodeID m;
     calculator := calculator m; provider := provider m; perClusterCalc := perClusterCalc m; has_pubsub := has_pubsub m;
     topics := topics m; publishTimeout := publishTimeout m; electionTimeout := electionTimeout m;
     tiebreakWindow := tiebreakWindow m; perClusterTimeout := perClusterTimeout m; inflight := i;
     localClaims := localClaims m; started := started m; cancelled := cancelled m; rounds := r; log := log m |}.
Definition set_claims (x : gset string) (m : Manager) : Manager :=
  {| registry := registry m; store := store m; has_lifecycle := has_lifecycle m; nodeID := nodeID m;
     calculator := calculator m; provider := provider m; perClusterCalc := perClusterCalc m; has_pubsub := has_pubsub m;
     topics := topics m; publishTimeout := publishTimeout m; electionTimeout := electionTimeout m;
     tiebreakWindow := tiebreakWindow m; perClusterTimeout := perClusterTimeout m; inflight := inflight m;
     localClaims := x; started := started m; cancelled := cancelled m; rounds := rounds m; log := log m |}.
Definition emits (es : list Effect) (m : Manager) : Manager :=
  {| registry := registry m; store := store m; has_lifecycle := has_lifecycle m; nodeID := nodeID m;
     calculator := calculator m; provider := provider m; perClusterCalc := perClusterCalc m; has_pubsub := has_pubsub m;
     topics := topics m; publishTimeout := publishTimeout m; electionTimeout := electionTimeout m;
     tiebreakWindow := tiebreakWindow m; perClusterTimeout := perClusterTimeout m; inflight := inflight m;
     localClaims := localClaims m; started := started m; cancelled := cancelled m; rounds := rounds m;
     log := log m ++ es |}.

(** [NewManager] with the dependencies the options wire in. *)
Definition NewManager (strategy : option Strategy) (st : option (CapsuleID -> option Capsule)) (lifecycle : bool)
  (node : string) (calc : option Calculator) (prov : option StateProvider) (pubsub : bool) : Manager :=
  {| registry := NewStrategyRegistry strategy; store := st; has_lifecycle := lifecycle; nodeID := node;
     calculator := calc; provider := prov; perClusterCalc := ∅; has_pubsub := pubsub; topics := ∅;
     publishTimeout := 3 * second; electionTimeout := 10 * second; tiebreakWindow := 300 * millisecond;
     perClusterTimeout := ∅; inflight := ∅; localClaims := ∅; started := false; cancelled := false;
     rounds := ∅; log := [] |}.

(** ** Configuration and lifetime *)

Definition SetClusterCalculator (clusterPath : string) (calc : option Calculator) (m : Manager) : Manager :=
  set_overrides (match calc with
                 | None => delete clusterPath (perClusterCalc m)
                 | Some c => <[clusterPath := c]> (perClusterCalc m)
                 end) (perClusterTimeout m) m.

Definition SetClusterTimeout (clusterPath : string) (d : Duration) (m : Manager) : Manager :=
  set_overrides (perClusterCalc m)
    (if d <=? 0 then delete clusterPath (perClusterTimeout m)
     else <[clusterPath := d]> (perClusterTimeout m)) m.

Definition calculatorFor (clusterPath : string) (m : Manager) : option Calculator :=
  match perClusterCalc m !! clusterPath with Some c => Some c | None => calculator m end.

Definition timeoutFor (clusterPath : string) (m : Manager) : Duration :=
  match perClusterTimeout m !! clusterPath with Some d => d | None => electionTimeout m end.

(** A nil interface or pointer is dereferenced: the whole process ends. *)
Definition crash (m : Manager) : Manager := emits [Panic] m.

(** [Start] and [JoinCluster] log the strategy's name, which a nil strategy
    does not have. *)
Definition Start (m : Manager) : Manager :=
  if started m then m
  else match defaultS (registry m) with
       | None => crash (set_lifetime true false m)
       | Some _ => set_lifetime true false m
       end.

(** [JoinCluster]; [opened] is what opening the pubsub topic returned. *)
Definition JoinCluster (clusterPath : string) (opened : result string unit) : ST Manager (result EMError unit) :=
  fun m =>
    if negb (started m) then (Err ErrNotStarted, m)
    else if bool_decide (clusterPath ∈ topics m) then (Ok tt, m)
    else if negb (has_pubsub m) then (Err ErrNoPubsub, m)
    else match opened with
         | Err e => (Err (ErrJoin clusterPath e), m)
         | Ok _ =>
             let m' := set_topics ({[clusterPath]} ∪ topics m) m in
             match StrategyRegistry_Get clusterPath (registry m) with
             | None => (Ok tt, crash m')
             | Some _ => (Ok tt, m')
             end
         end.

(** A round listens from the moment it starts to decide. *)
Definition listening (r : Round) : bool := match rd_phase r with PStart => false | _ => true end.

(** Stopping a topic closes the channels of the rounds that listen on it. *)
Definition close_rounds (f : Round -> bool) (m : Manager) : Manager :=
  set_rounds (inflight m)
    ((fun r => if f r then {| rd_req := rd_req r; rd_capsule := rd_capsule r; rd_strategy := rd_strategy r;
                              rd_phase := rd_phase r; rd_closed := true |} else r) <$> rounds m) m.

Definition LeaveCluster (clusterPath : string) (m : Manager) : Manager :=
  if bool_decide (clusterPath ∈ topics m)
  then close_rounds (fun r => listening r && (rq_ClusterPath (rd_req r) =s clusterPath)) (set_topics (topics m ∖ {[clusterPath]}) m)
  else m.

(** The locked part of [Stop]: every round sees its context cancelled.  The
    topics are stopped only after the rounds have exited. *)
Definition Stop (m : Manager) : Manager :=
  set_topics ∅ (set_rounds ∅ (rounds m) (set_lifetime (started m) (started m || cancelled m) m)).

(** ** Claim slots *)

Definition hasLocalClaim (id : CapsuleID) (m : Manager) : bool := bool_decide (id ∈ localClaims m).
Definition tryClaimCapsule (id : CapsuleID) : ST Manager bool := fun m =>
  if bool_decide (id ∈ localClaims m) then (false, m) else (true, set_claims ({[id]} ∪ localClaims m) m).
Definition releaseCapsuleClaim (id : CapsuleID) (m : Manager) : Manager := set_claims (localClaims m ∖ {[id]}) m.
Definition ForgetCapsule (id : CapsuleID) (m : Manager) : Manager := releaseCapsuleClaim id m.

(** ** Requests *)

Definition new_round (req : Request) (c : Capsule) (s : Strategy) : Round :=
  {| rd_req := req; rd_capsule := c; rd_strategy := s; rd_phase := PStart; rd_closed := false |}.

Definition HandleRequest (req : Request) : ST Manager (result EMError unit) := fun m =>
  if negb (started m) then (Err ErrNotStarted, m)
  else match store m, calculator m, provider m with
       | Some get, Some _, Some _ =>
           if negb (has_lifecycle m) then (Err ErrMissingDependency, m)
           else match get (rq_CapsuleID req) with
                | None => (Err (ErrNoCapsule (rq_CapsuleID req)), m)
                | Some c =>
                    let key := key_of req in
                    if bool_decide (key ∈ inflight m) then (Ok tt, m)
                    else if negb (bool_decide (rq_ClusterPath req ∈ topics m)) then (Err (ErrNotJoined (rq_ClusterPath req)), m)
                    else match StrategyRegistry_Get (rq_ClusterPath req) (registry m) with
                         | None => (Err ErrNoStrategy, m)
                         | Some strategy =>
                             (Ok tt, emits [LStartElection key]
                                       (set_rounds ({[key]} ∪ inflight m) (<[key := new_round req c strategy]> (rounds m)) m))
                         end
                end
       | _, _, _ => (Err ErrMissingDependency, m)
       end.

(** ** Rounds *)

(** What a blocked round can continue with: the chosen case of its select (a
    closed channel delivers nil), a timer, a lock, or a returning call. *)
Inductive Event :=
  | EvDecide (env : Ambient) (until : Time)   (** [until]: the clock when the wait is computed *)
  | EvCtxDone
  | EvFailure (f : option ElectionFailed)
  | EvClaim (c : option Claim)
  | EvPublishTimer
  | EvDeadline
  | EvTryClaim
  | EvPublished (r : result string unit).

(** [removeInflight], and the goroutine ends. *)
Definition finish (k : inflightKey) (m : Manager) : Manager :=
  set_rounds (inflight m ∖ {[k]}) (delete k (rounds m)) m.

Definition publishFailureToCluster (t : Time) (req : Request) (reason : string) (m : Manager) : Manager :=
  if bool_decide (rq_ClusterPath req ∈ topics m) then
    emits [PublishedFailure {| ef_CapsuleId := rq_CapsuleID req; ef_ReplicaId := rq_ReplicaID req;
             ef_ClusterPath := rq_ClusterPath req; ef_SenderId := nodeID m; ef_Reason := reason;
             ef_TimestampMicros := UnixMicro t |}] m
  else m.

Definition report (t : Time) (req : Request) (outcome : Outcome) (winner : string) (score : f64) (reason : string)
  (m : Manager) : Manager :=
  match outcome with
  | OutcomeWon => emits [LWinElection (rq_CapsuleID req); EmitWon req winner score] m
  | OutcomeLost => emits [EmitLost req winner] m
  | OutcomeFailed =>
      publishFailureToCluster t req reason
        (emits [LElectionTimeout (rq_CapsuleID req); EmitFailed req reason]
           (releaseCapsuleClaim (rq_CapsuleID req) m))
  end.

(** Reports and ends the round. *)
Definition conclude (t : Time) (k : inflightKey) (req : Request) (outcome : Outcome) (winner : string) (score : f64)
  (reason : string) (m : Manager) : Manager :=
  finish k (report t req outcome winner score reason m).

Definition fail_round (t : Time) (k : inflightKey) (req : Request) (reason : string) (m : Manager) : Manager :=
  conclude t k req OutcomeFailed "" f0 reason m.

Definition goto (k : inflightKey) (r : Round) (p : Phase) (m : Manager) : Manager :=
  set_rounds (inflight m)
    (<[k := {| rd_req := rd_req r; rd_capsule := rd_capsule r; rd_strategy := rd_strategy r; rd_phase := p;
               rd_closed := rd_closed r |}]> (rounds m)) m.

Definition waitForRemoteVerdict_step (t : Time) (k : inflightKey) (r : Round) (deadline : Time) (ev : Event)
  (m : Manager) : option Manager :=
  let req := rd_req r in
  match ev with
  | EvCtxDone => if cancelled m then Some (fail_round t k req "context cancelled" m) else None
  | EvClaim (Some c) => Some (conclude t k req OutcomeLost (cl_NodeId c) (cl_GravityScore c) "" m)
  | EvClaim None => if rd_closed r then Some (fail_round t k req "claim channel closed" m) else None
  | EvFailure (Some f) => Some (fail_round t k req ("remote failure: " +:+ ef_Reason f) m)
  | EvFailure None => if rd_closed r then Some m else None
  | EvDeadline => if deadline <=? t then Some (fail_round t k req "election timeout (no claim heard)" m) else None
  | _ => None
  end.

(** One step of [runElection] for round [k] at time [t]; [None] when the round
    cannot continue with this event. *)
Definition runElection_step (t : Time) (k : inflightKey) (r : Round) (ev : Event) (m : Manager) : option Manager :=
  let req := rd_req r in
  match rd_phase r with
  | PStart =>
      match ev, calculatorFor (rq_ClusterPath req) m, provider m with
      | EvDecide env until, Some calc, Some prov =>
          let decision := s_Decide (rd_strategy r) env req (rd_capsule r) calc prov in
          let deadline := time_Add t (timeoutFor (rq_ClusterPath req) m) in
          if negb (d_Eligible decision) then Some (goto k r (PRemote deadline) m)
          else if hasLocalClaim (rq_CapsuleID req) m then Some (goto k r (PRemote deadline) m)
          else if 0 <? time_Sub (d_PublishAt decision) until then Some (goto k r (PWait decision deadline) m)
          else Some (goto k r (PClaim decision deadline) m)
      | _, _, _ => None
      end
  | PWait decision deadline =>
      match ev with
      | EvCtxDone => if cancelled m then Some (fail_round t k req "context cancelled" m) else None
      | EvFailure (Some f) => Some (fail_round t k req ("remote failure: " +:+ ef_Reason f) m)
      | EvFailure None => if rd_closed r then Some (crash m) else None
      | EvClaim (Some rival) =>
          if isBetter rival decision (nodeID m)
          then Some (conclude t k req OutcomeLost (cl_NodeId rival) (cl_GravityScore rival) "" m)
          else Some (goto k r (PClaim decision deadline) m)
      | EvClaim None => if rd_closed r then Some (crash m) else None
      | EvPublishTimer => if d_PublishAt decision <=? t then Some (goto k r (PClaim decision deadline) m) else None
      | EvDeadline => if deadline <=? t then Some (fail_round t k req "election timeout" m) else None
      | _ => None
      end
  | PClaim decision deadline =>
      match ev with
      | EvTryClaim =>
          let '(ok, m') := tryClaimCapsule (rq_CapsuleID req) m in
          if ok then Some (goto k r (PPublish decision) m') else Some (goto k r (PRemote deadline) m')
      | _ => None
      end
  | PPublish decision =>
      match ev with
      | EvPublished (Err e) =>
          Some (fail_round t k req ("publish failed: " +:+ e) (releaseCapsuleClaim (rq_CapsuleID req) m))
      | EvPublished (Ok _) =>
          let claim := {| cl_CapsuleId := rq_CapsuleID req; cl_ReplicaId := rq_ReplicaID req;
                          cl_ClusterPath := rq_ClusterPath req; cl_NodeId := nodeID m;
                          cl_GravityScore := d_Score decision; cl_TimestampMicros := UnixMicro t |} in
          Some (goto k r (PTie decision (time_Add t (tiebreakWindow m))) (emits [PublishedClaim claim] m))
      | _ => None
      end
  | PTie decision tiebreakDeadline =>
      match ev with
      | EvCtxDone => if cancelled m then Some (fail_round t k req "context cancelled" m) else None
      | EvClaim (Some rival) =>
          if isBetter rival decision (nodeID m)
          then Some (conclude t k req OutcomeLost (cl_NodeId rival) (cl_GravityScore rival) ""
                       (releaseCapsuleClaim (rq_CapsuleID req) m))
          else Some m
      | EvClaim None => if rd_closed r then Some (crash m) else None
      | EvDeadline =>
          if tiebreakDeadline <=? t
          then Some (conclude t k req OutcomeWon (nodeID m) (d_Score decision) "" m) else None
      | _ => None
      end
  | PRemote deadline => waitForRemoteVerdict_step t k r deadline ev m
  end.

Definition alive (m : Manager) : bool :=
  negb (existsb (fun e => match e with Panic => true | _ => false end) (log m)).

Definition round_step (t : Time) (k : inflightKey) (ev : Event) (m : Manager) : option Manager :=
  match rounds m !! k with Some r => runElection_step t k r ev m | None => None end.

(** ** The manager as a transition system *)

Inductive Action :=
  | AStart
  | AParentDone                                (** the context [Start] was given is cancelled *)
  | ASetCalculator (clusterPath : string) (c : option Calculator)
  | ASetTimeout (clusterPath : string) (d : Duration)
  | AJoin (clusterPath : string) (opened : result string unit)
  | ALeave (clusterPath : string)
  | AStop
  | AForget (id : CapsuleID)
  | ARequest (req : Request)
  | ARound (t : Time) (k : inflightKey) (ev : Event).

Definition step (a : Action) (m : Manager) : option Manager :=
  if negb (alive m) then None
  else match a with
  | AStart => Some (Start m)
  | AParentDone => if started m then Some (set_lifetime true true m) else None
  | ASetCalculator cp c => Some (SetClusterCalculator cp c m)
  | ASetTimeout cp d => Some (SetClusterTimeout cp d m)
  | AJoin cp o => if cancelled m then None else Some (snd (JoinCluster cp o m))   (* a stopped manager is not reused *)
  | ALeave cp => Some (LeaveCluster cp m)
  | AStop => Some (Stop m)
  | AForget id => Some (ForgetCapsule id m)
  | ARequest req => Some (snd (HandleRequest req m))
  | ARound t k ev => round_step t k ev m
  end.

Fixpoint run (acts : list Action) (m : Manager) : option Manager :=
  match acts with
  | [] => Some m
  | a :: rest => match step a m with Some m' => run rest m' | None => None end
  end.

(** States a manager can be in. *)
Inductive reachable (m0 : Manager) : Manager -> Prop :=
  | reach_refl : reachable m0 m0
  | reach_step m a m' : reachable m0 m -> step a m = Some m' -> reachable m0 m'.

(** ** The tiebreak order *)

(** The claim a node publishes exactly at the time it decided on. *)
Definition claim_on_time (req : Request) (node : string) (d : Decision) : Claim :=
  {| cl_CapsuleId := rq_CapsuleID req; cl_ReplicaId := rq_ReplicaID req; cl_ClusterPath := rq_ClusterPath req;
     cl_NodeId := node; cl_GravityScore := d_Score d; cl_TimestampMicros := UnixMicro (d_PublishAt d) |}.

(** [a] beats [b] in the eyes of [b]. *)
Definition beats (req : Request) (a b : string * Decision) : bool :=
  isBetter (claim_on_time req a.1 a.2) b.2 b.1.

Lemma isBetter_spec rival ours node :
  number (cl_GravityScore rival) -> number (d_Score ours) ->
  isBetter rival ours node = true <->
  key (d_Score ours) < key (cl_GravityScore rival) \/
  (key (cl_GravityScore rival) = key (d_Score ours) /\
    (cl_TimestampMicros rival < UnixMicro (d_PublishAt ours) \/
     (cl_TimestampMicros rival = UnixMicro (d_PublishAt ours) /\ (cl_NodeId rival <s node) = true))).
Proof.
  intros Hr Ho. unfold isBetter, f64_gt. rewrite f64_eq_spec, f64_lt_spec by done.
  destruct (Z.eqb_spec (key (cl_GravityScore rival)) (key (d_Score ours))) as [E|E]; simpl.
  - destruct (Z.eqb_spec (cl_TimestampMicros rival) (UnixMicro (d_PublishAt ours))) as [E'|E']; simpl.
    + rewrite <- E'. split; [naive_solver|]. intros [?|[_ [?|[_ ?]]]]; [lia..|done].
    + rewrite Z.ltb_lt. split; [naive_solver|]. intros [?|[_ [?|[? _]]]]; [lia|done|lia].
  - rewrite Z.ltb_lt. naive_solver lia.
Qed.

Lemma beats_spec req a b :
  number (d_Score a.2) -> number (d_Score b.2) ->
  beats req a b = true <->
  key (d_Score b.2) < key (d_Score a.2) \/
  (key (d_Score a.2) = key (d_Score b.2) /\
    (UnixMicro (d_PublishAt a.2) < UnixMicro (d_PublishAt b.2) \/
     (UnixMicro (d_PublishAt a.2) = UnixMicro (d_PublishAt b.2) /\ (a.1 <s b.1) = true))).
Proof. intros. unfold beats. by rewrite isBetter_spec. Qed.

Lemma beats_trans req a b c :
  number (d_Score a.2) -> number (d_Score b.2) -> number (d_Score c.2) ->
  beats req a b = true -> beats req b c = true -> beats req a c = true.
Proof.
  intros Ha Hb Hc. rewrite !beats_spec by done. intros H1 H2.
  destruct H1 as [H1|(E1 & [H1|(F1 & H1)])], H2 as [H2|(E2 & [H2|(F2 & H2)])]; try (left; lia); right; split; try lia;
    [left; lia..|]. right. split; [lia|]. by eapply string_ltb_trans.
Qed.

Lemma beats_asym req a b :
  number (d_Score a.2) -> number (d_Score b.2) -> beats req a b = true -> beats req b a = false.
Proof.
  intros Ha Hb H1. apply not_true_iff_false. intros H2. rewrite beats_spec in H1, H2 by done.
  destruct H1 as [H1|(E1 & [H1|(F1 & H1)])], H2 as [H2|(E2 & [H2|(F2 & H2)])]; try lia.
  apply string_ltb_asym in H1. congruence.
Qed.

Lemma beats_total req a b :
  number (d_Score a.2) -> number (d_Score b.2) -> a.1 <> b.1 -> beats req a b = true \/ beats req b a = true.
Proof.
  intros Ha Hb Hne. rewrite !beats_spec by done.
  destruct (Z.lt_total (key (d_Score a.2)) (key (d_Score b.2))) as [?|[E|?]]; [by right; left| |by left; left].
  destruct (Z.lt_total (UnixMicro (d_PublishAt a.2)) (UnixMicro (d_PublishAt b.2))) as [?|[E'|?]];
    [left; right; split; [done|by left]| |right; right; split; [done|by left]].
  pose proof (string_ltb_total a.1 b.1 Hne) as Ht. destruct (b.1 <s a.1); [right|left]; right; split; try done; right; done.
Qed.

(** Among candidates with distinct node IDs and scores that are numbers, one
    beats all others. *)
Lemma tiebreak_best req (cands : list (string * Decision)) :
  cands <> [] -> NoDup cands.*1 -> Forall (fun c => number (d_Score c.2)) cands ->
  exists w, w ∈ cands /\ (forall c, c ∈ cands -> c <> w -> beats req w c = true /\ beats req c w = false).
Proof.
  intros Hne Hids Hnum. induction cands as [|c cands IH]; [done|]. clear Hne.
  inversion_clear Hids as [|? ? Hni Hids']. inversion_clear Hnum as [|? ? Hc Hnum'].
  destruct cands as [|c' cands]; [exists c; split; [by left|]; intros x [->|?%not_elem_of_nil]%elem_of_cons; done|].
  destruct IH as (w & Hw & Hbest); [done..|].
  assert (Hnw : number (d_Score w.2)) by (rewrite Forall_forall in Hnum'; apply Hnum'; by apply list_elem_of_In).
  assert (Hcw : c.1 <> w.1) by (intros E; apply Hni; rewrite E; by apply list_elem_of_fmap_2).
  destruct (beats_total req c w Hc Hnw Hcw) as [Hb|Hb].
  - exists c. split; [by left|]. intros x Hx Hxc. apply elem_of_cons in Hx as [->|Hx]; [done|].
    assert (Hnx : number (d_Score x.2)) by (rewrite Forall_forall in Hnum'; apply Hnum'; by apply list_elem_of_In).
    assert (Hbx : beats req c x = true).
    { destruct (decide (x.1 = w.1)) as [E|Hxw].
      - by rewrite (NoDup_fst_inj _ x w Hids' Hx Hw E).
      - eapply beats_trans; [done|exact Hnw|done|exact Hb|]. apply Hbest; [done|]. by intros ->. }
    split; [done|]. by apply beats_asym.
  - exists w. split; [by right|]. intros x Hx Hxw. apply elem_of_cons in Hx as [->|Hx]; [|auto].
    split; [done|]. by apply beats_asym.
Qed.

(** ** What a step of a round can do *)

(** The round holds its capsule's claim slot. *)
Definition holding (r : Round) : Prop := match rd_phase r with PPublish _ | PTie _ _ => True | _ => False end.

#[export] Instance holding_dec r : base.Decision (holding r).
Proof. unfold holding. destruct (rd_phase r); apply _. Defined.

Definition with_phase (p : Phase) (r : Round) : Round :=
  {| rd_req := rd_req r; rd_capsule := rd_capsule r; rd_strategy := rd_strategy r; rd_phase := p; rd_closed := rd_closed r |}.

(** The outcomes a list of effects reports, by round. *)
Definition outcome_key (e : Effect) : option inflightKey :=
  match e with EmitWon req _ _ | EmitLost req _ | EmitFailed req _ => Some (key_of req) | _ => None end.
Definition is_failure (e : Effect) : bool := match e with EmitFailed _ _ => true | _ => false end.
Definition started_key (e : Effect) : option inflightKey := match e with LStartElection k => Some k | _ => None end.

(** The parts of the manager no round touches. *)
Definition same_config (m m' : Manager) : Prop :=
  registry m' = registry m /\ store m' = store m /\ has_lifecycle m' = has_lifecycle m /\ nodeID m' = nodeID m /\
  calculator m' = calculator m /\ provider m' = provider m /\ perClusterCalc m' = perClusterCalc m /\
  has_pubsub m' = has_pubsub m /\ topics m' = topics m /\ electionTimeout m' = electionTimeout m /\
  tiebreakWindow m' = tiebreakWindow m /\ perClusterTimeout m' = perClusterTimeout m /\
  started m' = started m /\ cancelled m' = cancelled m.

(** The abstract behaviour of a round: it moves on, possibly taking the claim
    slot; or it reports one outcome and ends, possibly releasing the slot; or
    it stays; or it crashes the process. *)
Inductive round_effect (k : inflightKey) (r : Round) (m m' : Manager) : Prop :=
  | eff_move p es :
      rounds m' = <[k := with_phase p r]> (rounds m) -> inflight m' = inflight m -> same_config m m' ->
      log m' = log m ++ es -> (forall e, e ∈ es -> outcome_key e = None /\ started_key e = None /\ e <> Panic) ->
      ((~ holding (with_phase p r) /\ ~ holding r /\ localClaims m' = localClaims m) \/
       (holding (with_phase p r) /\ ~ holding r /\ (rq_CapsuleID (rd_req r) ∉ localClaims m) /\
          localClaims m' = {[rq_CapsuleID (rd_req r)]} ∪ localClaims m) \/
       (holding (with_phase p r) /\ holding r /\ localClaims m' = localClaims m)) ->
      round_effect k r m m'
  | eff_done es :
      rounds m' = delete k (rounds m) -> inflight m' = inflight m ∖ {[k]} -> same_config m m' ->
      log m' = log m ++ es -> omap outcome_key es = [key_of (rd_req r)] -> omap started_key es = [] -> Panic ∉ es ->
      (localClaims m' = localClaims m /\ forallb (fun e => negb (is_failure e)) es = true \/
       localClaims m' = localClaims m ∖ {[rq_CapsuleID (rd_req r)]} /\
         (holding r \/ existsb is_failure es = true)) ->
      round_effect k r m m'
  | eff_stay : m' = m -> round_effect k r m m'
  | eff_crash : m' = crash m -> rd_closed r = true -> round_effect k r m m'.

(** Membership in an explicit list. *)
Ltac cleanup_elem :=
  match goal with H : _ ∈ _ |- _ => apply list_elem_of_In in H; simpl in H; naive_solver end.

Lemma goto_effect k r p m0 m es :
  m0 = emits es m -> rounds m !! k = Some r ->
  (forall e, e ∈ es -> outcome_key e = None /\ started_key e = None /\ e <> Panic) ->
  (~ holding (with_phase p r) /\ ~ holding r) \/ (holding (with_phase p r) /\ holding r) ->
  round_effect k r m (goto k r p m0).
Proof.
  intros -> Hr Hes Hh. eapply (eff_move _ _ _ _ p es); try done. destruct Hh as [[? ?]|[? ?]]; [by left|by right; right].
Qed.

(** Concluding from [m] itself, or after releasing the slot. *)
Lemma conclude_effect t k r m0 m o winner score reason :
  rounds m !! k = Some r ->
  (m0 = m \/ (m0 = releaseCapsuleClaim (rq_CapsuleID (rd_req r)) m /\ holding r)) ->
  round_effect k r m (conclude t k (rd_req r) o winner score reason m0).
Proof.
  intros Hr Hm0.
  set (fails := match o with OutcomeFailed => true | _ => false end).
  assert (Hlog : exists es, log (conclude t k (rd_req r) o winner score reason m0) = log m ++ es /\
    omap outcome_key es = [key_of (rd_req r)] /\ omap started_key es = [] /\ (Panic ∉ es) /\ existsb is_failure es = fails).
  { assert (log m0 = log m) as Hl by (by destruct Hm0 as [->|[-> _]]).
    unfold conclude, report, publishFailureToCluster.
    destruct o; [exists [LWinElection (rq_CapsuleID (rd_req r)); EmitWon (rd_req r) winner score]
                |exists [EmitLost (rd_req r) winner]|].
    1, 2: simpl; rewrite Hl; split_and!; try done; intros Hp; cleanup_elem.
    case_bool_decide; eexists; simpl; rewrite Hl, <- ?app_assoc; (split; [reflexivity|]); split_and!; try done;
      intros Hp; cleanup_elem. }
  destruct Hlog as (es & He & H1 & H2 & H3 & H4).
  assert (Hnf : forallb (fun e => negb (is_failure e)) es = negb fails).
  { rewrite <- H4. clear. induction es as [|e es IH]; simpl; [done|]. rewrite IH. by destruct (is_failure e). }
  apply (eff_done _ _ _ _ es); try done.
  - unfold conclude, finish, report, publishFailureToCluster.
    destruct o; simpl; try case_bool_decide; simpl; by destruct Hm0 as [->|[-> _]].
  - unfold conclude, finish, report, publishFailureToCluster.
    destruct o; simpl; try case_bool_decide; simpl; by destruct Hm0 as [->|[-> _]].
  - unfold conclude, finish, report, publishFailureToCluster.
    destruct o; simpl; try case_bool_decide; simpl; by destruct Hm0 as [->|[-> _]].
  - destruct Hm0 as [->|[-> Hh]].
    + destruct o; [left|left|right]; (split; [|by rewrite ?Hnf, ?H4; auto]);
        unfold conclude, report, publishFailureToCluster; simpl; try case_bool_decide; done.
    + right. split; [|by left]. unfold conclude, report, publishFailureToCluster.
      destruct o; simpl; try case_bool_decide; simpl; try done; set_solver.
Qed.

Lemma round_step_effect t k ev m m' :
  round_step t k ev m = Some m' -> exists r, rounds m !! k = Some r /\ round_effect k r m m'.
Proof.
  unfold round_step. destruct (rounds m !! k) as [r|] eqn:Hr; [|done]. intros Hs. exists r. split; [done|].
  assert (Hgoto : forall p, ~ holding (with_phase p r) -> ~ holding r -> round_effect k r m (goto k r p m)).
  { intros p Hp Hn. apply (goto_effect k r p m m []); try done; [by unfold emits; destruct m; simpl; rewrite app_nil_r| |by left].
    intros e He. by apply not_elem_of_nil in He. }
  assert (Hend : forall o w sc rs, round_effect k r m (conclude t k (rd_req r) o w sc rs m)).
  { intros. apply conclude_effect; [done|by left]. }
  unfold runElection_step, waitForRemoteVerdict_step, fail_round in Hs.
  assert (Hph : forall p, rd_phase r = p -> (holding r <-> match p with PPublish _ | PTie _ _ => True | _ => False end)).
  { intros p <-. done. }
  destruct (rd_phase r) as [|d dl|d dl|d|d td|dl] eqn:Ephase; specialize (Hph _ eq_refl); simpl in Hph.
  - destruct ev; try done. destruct (calculatorFor _ _); [|done]. destruct (provider m); [|done].
    repeat case_match; simplify_eq; apply Hgoto; simpl; tauto.
  - repeat case_match; simplify_eq; try apply Hend; try (apply Hgoto; simpl; tauto); by apply eff_crash.
  - destruct ev; try done. unfold tryClaimCapsule in Hs. case_bool_decide as Hc; simplify_eq; [apply Hgoto; simpl; tauto|].
    apply (eff_move _ _ _ _ (PPublish d) []); try done; [by simpl; rewrite app_nil_r| |].
    + intros e He. by apply not_elem_of_nil in He.
    + right; left. split_and!; [done|tauto|done|done].
  - destruct ev as [| | | | | | |[u|e]]; try done; simplify_eq.
    + eapply goto_effect; [reflexivity|done| |right; split; [done|tauto]].
      intros e He. cleanup_elem.
    + apply conclude_effect; [done|]. right. split; [done|tauto].
  - repeat case_match; simplify_eq; try apply Hend; try (by apply eff_stay); try (by apply eff_crash).
    apply conclude_effect; [done|]. right. split; [done|tauto].
  - repeat case_match; simplify_eq; try apply Hend; by apply eff_stay.
Qed.

(** ** Every round reports exactly once *)

Definition occ (k : inflightKey) (l : list inflightKey) : nat := length (List.filter (fun x => bool_decide (x = k)) l).

Lemma occ_app k l1 l2 : occ k (l1 ++ l2) = (occ k l1 + occ k l2)%nat.
Proof. unfold occ. by rewrite List.filter_app, length_app. Qed.

Definition started_rounds (k : inflightKey) (m : Manager) : nat := occ k (omap started_key (log m)).
Definition reported_rounds (k : inflightKey) (m : Manager) : nat := occ k (omap outcome_key (log m)).
Definition running (k : inflightKey) (m : Manager) : nat := if rounds m !! k is Some _ then 1 else 0.

Record rounds_ok (m : Manager) : Prop := {
  ok_keys : forall k r, rounds m !! k = Some r -> k = key_of (rd_req r);
  ok_inflight : forall k r, rounds m !! k = Some r -> k ∈ inflight m \/ (cancelled m = true /\ topics m = ∅);
  ok_deps : forall k r, rounds m !! k = Some r -> is_Some (calculator m) /\ is_Some (provider m);
  ok_cancel : cancelled m = true -> started m = true;
  ok_start : started m = false -> rounds m = ∅;
  ok_count : forall k, started_rounds k m = (reported_rounds k m + running k m)%nat
}.

Lemma omap_none {A B} (f : A -> option B) l : (forall e, e ∈ l -> f e = None) -> omap f l = [].
Proof.
  induction l as [|x l IH]; intros Hl; [done|]. simpl. rewrite (Hl x) by (by left).
  apply IH. intros e He. apply Hl. by right.
Qed.

(** A change that keeps the rounds' requests and the log's reports. *)
Lemma rounds_ok_same m m' es :
  rounds_ok m ->
  (forall k r', rounds m' !! k = Some r' -> exists r, rounds m !! k = Some r /\ rd_req r' = rd_req r) ->
  (forall k, is_Some (rounds m' !! k) <-> is_Some (rounds m !! k)) ->
  calculator m' = calculator m -> provider m' = provider m ->
  ((inflight m' = inflight m /\ cancelled m' = cancelled m /\ topics m' ⊆ topics m) \/ rounds m' = ∅ \/
   (cancelled m' = true /\ topics m' = ∅)) ->
  (cancelled m' = true -> started m' = true) -> (started m' = false -> started m = false) ->
  log m' = log m ++ es -> omap outcome_key es = [] -> omap started_key es = [] -> rounds_ok m'.
Proof.
  intros [Hk Hi Hd Hca Hst Hc] Hr Hdom Hcalc Hprov Hwhere Hcan Hstart Hlog Ho Hs. split; [| | |done| |].
  - intros k r' Hk'. destruct (Hr _ _ Hk') as (r & Hr0 & ->). eauto.
  - intros k r' Hk'. destruct (Hr _ _ Hk') as (r & Hr0 & _).
    destruct Hwhere as [(-> & -> & Ht)|[He|He]]; [|by rewrite He, lookup_empty in Hk'|by right].
    destruct (Hi _ _ Hr0) as [?|[? ?]]; [by left|right; split; [done|set_solver]].
  - intros k r' Hk'. destruct (Hr _ _ Hk') as (r & Hr0 & _). rewrite Hcalc, Hprov. eauto.
  - intros Hns. specialize (Hst (Hstart Hns)). apply map_eq. intros k. rewrite lookup_empty.
    specialize (Hdom k). rewrite Hst, lookup_empty in Hdom. destruct (rounds m' !! k); [|done].
    by destruct (proj1 Hdom ltac:(eauto)).
  - intros k. unfold started_rounds, reported_rounds, running in *. rewrite Hlog, !omap_app, Ho, Hs, !app_nil_r.
    rewrite Hc. f_equal. specialize (Hdom k). destruct (rounds m !! k), (rounds m' !! k); try done;
      [destruct (proj2 Hdom ltac:(eauto)); done|destruct (proj1 Hdom ltac:(eauto)); done].
Qed.

Lemma rounds_ok_round t k ev m m' : rounds_ok m -> round_step t k ev m = Some m' -> rounds_ok m'.
Proof.
  intros Hok Hs. destruct (round_step_effect _ _ _ _ _ Hs) as (r & Hr & Heff).
  destruct Heff as [p es Hrd Hin Hcfg Hlog Hes _|es Hrd Hin Hcfg Hlog Ho Hst _ _|Heq|Heq _].
  - destruct Hcfg as (_ & _ & _ & _ & Hca & Hpr & _ & _ & Hto & _ & _ & _ & Hsta & Hcc).
    eapply (rounds_ok_same m m' es); try done; try congruence.
    + intros k' r'. rewrite Hrd, lookup_insert. case_decide; [|eauto]. subst. intros [= <-]. eauto.
    + intros k'. rewrite Hrd, lookup_insert. case_decide; [|done]. subst. rewrite Hr. split; eauto.
    + left. rewrite Hin, Hcc, Hto. done.
    + rewrite Hcc, Hsta. apply Hok.
    + apply omap_none. intros e He. by apply Hes.
    + apply omap_none. intros e He. by apply Hes.
  - destruct Hcfg as (_ & _ & _ & _ & Hca & Hpr & _ & _ & Hto & _ & _ & _ & Hsta & Hcc).
    destruct Hok as [Hk Hi Hd Hcan Hst0 Hc]. assert (Hkey := Hk _ _ Hr). split.
    + intros k' r'. rewrite Hrd, lookup_delete. case_decide; [done|]. apply Hk.
    + intros k' r'. rewrite Hrd, lookup_delete, Hin, Hcc, Hto. case_decide; [done|]. intros Hr'.
      destruct (Hi _ _ Hr'); [left; set_solver|by right].
    + intros k' r'. rewrite Hrd, lookup_delete, Hca, Hpr. case_decide; [done|]. apply Hd.
    + by rewrite Hcc, Hsta.
    + rewrite Hsta, Hrd. intros E. rewrite (Hst0 E). apply delete_empty.
    + intros k'. specialize (Hc k'). unfold started_rounds, reported_rounds, running in *.
      rewrite Hlog, !omap_app, Ho, Hst, app_nil_r, occ_app, Hc, Hrd, lookup_delete, <- Hkey.
      unfold occ at 3. simpl. case_decide as Hd'; [|by rewrite bool_decide_eq_false_2 by done; simpl; lia].
      subst. rewrite Hr, bool_decide_eq_true_2 by done. simpl. lia.
  - by subst.
  - subst. eapply (rounds_ok_same m _ [Panic]); try done; [eauto|by left|apply Hok].
Qed.

Lemma HandleRequest_ok req m : rounds_ok m -> rounds_ok (snd (HandleRequest req m)).
Proof.
  intros Hok. unfold HandleRequest. destruct (started m) eqn:Est; [|done].
  destruct (store m) as [get|]; [|done]. destruct (calculator m) as [calc|] eqn:Hcalc; [|done].
  destruct (provider m) as [prov|] eqn:Hprov; [|done]. destruct (has_lifecycle m); [|done].
  destruct (get _) as [c|]; [|done]. cbv zeta. simpl negb. cbv iota. case_bool_decide as Hin; [done|].
  case_bool_decide as Htop; simpl negb; cbv iota; [|done]. destruct (StrategyRegistry_Get _ _) as [s|]; [|done]. simpl.
  destruct Hok as [Hk Hi Hd Hca Hst Hc].
  assert (Hnew : rounds m !! key_of req = None).
  { destruct (rounds m !! key_of req) as [r|] eqn:E; [|done]. destruct (Hi _ _ E) as [?|[_ ?]]; set_solver. }
  split; simpl.
  - intros k r. rewrite lookup_insert. case_decide; [|apply Hk]. by intros [= <-].
  - intros k r. rewrite lookup_insert. case_decide; [left; set_solver|]. intros Hr.
    destruct (Hi _ _ Hr); [left; set_solver|by right].
  - intros. rewrite Hcalc, Hprov. split; eauto.
  - done.
  - congruence.
  - intros k. specialize (Hc k). unfold started_rounds, reported_rounds, running in *. simpl.
    rewrite !omap_app, !occ_app, Hc, lookup_insert. unfold occ at 2 4. simpl.
    case_decide as E; [subst; rewrite bool_decide_eq_true_2, Hnew by done; simpl; lia|].
    rewrite bool_decide_eq_false_2 by done. simpl. lia.
Qed.

(** Closing channels keeps the rounds. *)
Lemma close_rounds_lookup f m k r' :
  rounds (close_rounds f m) !! k = Some r' ->
  exists r, rounds m !! k = Some r /\ rd_req r' = rd_req r /\ rd_phase r' = rd_phase r.
Proof.
  simpl. rewrite lookup_fmap. destruct (rounds m !! k) as [r|]; [|done]. simpl. intros [= <-].
  exists r. by destruct (f r).
Qed.

Lemma close_rounds_dom f m k : is_Some (rounds (close_rounds f m) !! k) <-> is_Some (rounds m !! k).
Proof. simpl. rewrite lookup_fmap. by rewrite fmap_is_Some. Qed.

Lemma rounds_ok_step a m m' : rounds_ok m -> step a m = Some m' -> rounds_ok m'.
Proof.
  intros Hok. unfold step. destruct (negb (alive m)); [done|].
  assert (Hsame : forall m' es, rounds m' = rounds m -> calculator m' = calculator m -> provider m' = provider m ->
    ((inflight m' = inflight m /\ cancelled m' = cancelled m /\ topics m' ⊆ topics m) \/ rounds m' = ∅ \/
     (cancelled m' = true /\ topics m' = ∅)) ->
    (cancelled m' = true -> started m' = true) -> (started m' = false -> started m = false) ->
    log m' = log m ++ es -> omap outcome_key es = [] -> omap started_key es = [] -> rounds_ok m').
  { intros m1 es Hr Hc Hp Hw Hcan Hst Hl Ho Hs. eapply (rounds_ok_same m m1 es); try done; rewrite ?Hr; eauto. }
  destruct a as [| |cp c|cp d|cp o|cp| |id|req|t k ev]; intros Hs.
  - simplify_eq. unfold Start. destruct (started m) eqn:Est; [done|].
    pose proof (ok_start m Hok Est) as Hempty.
    destruct (defaultS _); [apply (Hsame _ [])|apply (Hsame _ [Panic])]; try done; try (by right; left); by rewrite app_nil_r.
  - destruct (started m) eqn:Est; [|done]. simplify_eq.
    destruct Hok as [Hk Hi Hd Hca Hst Hc]. split; try done; simpl. intros k r Hr. destruct (Hi _ _ Hr) as [?|[? ?]]; auto.
  - simplify_eq. apply (Hsame _ []); try done; [by left|apply Hok|by rewrite app_nil_r].
  - simplify_eq. apply (Hsame _ []); try done; [by left|apply Hok|by rewrite app_nil_r].
  - destruct (cancelled m) eqn:Ecan; [done|]. simplify_eq. unfold JoinCluster.
    destruct (started m) eqn:Est; [|done]. case_bool_decide; [done|]. destruct (has_pubsub m); [|done].
    destruct o; [|done]. simpl negb. cbv iota zeta.
    assert (Hjoin : rounds_ok (set_topics ({[cp]} ∪ topics m) m)).
    { destruct Hok as [Hk Hi Hd Hca Hst Hc]. split; try done; simpl. intros k r Hr.
      destruct (Hi _ _ Hr) as [?|[? ?]]; [by left|congruence]. }
    destruct (StrategyRegistry_Get _ _); [done|]. simpl.
    eapply (rounds_ok_same _ _ [Panic]); [exact Hjoin|..]; try done; [eauto|by left].
  - simplify_eq. unfold LeaveCluster. case_bool_decide; [|done].
    eapply (rounds_ok_same m _ []); try done.
    + intros k r' Hr'. destruct (close_rounds_lookup _ _ _ _ Hr') as (r & Hr & Hreq & _). eauto.
    + intros k. apply (close_rounds_dom _ (set_topics (topics m ∖ {[cp]}) m)).
    + left. split_and!; try done. simpl. set_solver.
    + apply Hok.
    + by rewrite app_nil_r.
  - simplify_eq. apply (Hsame _ []); try done.
    + simpl. destruct (started m) eqn:Est; [by right; right|]. right; left. by apply (ok_start m Hok).
    + simpl. intros [?|Hc]%orb_true_iff; [done|]. by apply Hok.
    + by rewrite app_nil_r.
  - simplify_eq. apply (Hsame _ []); try done; [by left|apply Hok|by rewrite app_nil_r].
  - simplify_eq. by apply HandleRequest_ok.
  - by eapply rounds_ok_round.
Qed.

Lemma rounds_ok_new strategy st lc node calc prov ps : rounds_ok (NewManager strategy st lc node calc prov ps).
Proof. by split. Qed.

Lemma rounds_ok_reachable m0 m : rounds_ok m0 -> reachable m0 m -> rounds_ok m.
Proof. intros H0. induction 1 as [|m a m' _ IH Hs]; [done|]. by eapply rounds_ok_step. Qed.

(** C3: every accepted request ends in exactly one outcome:
    whatever the interleaving, for each replica slot the rounds started are the
    rounds that reported plus the one, if any, still running. *)
Theorem election_rounds_report_once strategy st lc node calc prov ps m k
    (Hr : reachable (NewManager strategy st lc node calc prov ps) m) :
  started_rounds k m = (reported_rounds k m + running k m)%nat /\ (running k m <= 1)%nat.
Proof.
  split; [apply ok_count; eapply rounds_ok_reachable; [apply rounds_ok_new|exact Hr]|].
  unfold running. destruct (rounds m !! k); lia.
Qed.

(** ** A round always ends *)

Lemma run_app xs ys m : run (xs ++ ys) m = run xs m ≫= run ys.
Proof. revert m. induction xs as [|x xs IH]; intros m; simpl; [done|]. by destruct (step x m). Qed.

Lemma step_round t k ev m : alive m = true -> step (ARound t k ev) m = round_step t k ev m.
Proof. unfold step. by intros ->. Qed.

Lemma alive_app es m m' : alive m = true -> log m' = log m ++ es -> Panic ∉ es -> alive m' = true.
Proof.
  unfold alive. rewrite !negb_true_iff. intros Ha -> Hp. rewrite existsb_app, Ha. simpl.
  apply not_true_iff_false. rewrite existsb_elem. intros (e & He & Hb). by destruct e.
Qed.

(** Moving on and concluding, from a live manager. *)
Lemma goto_alive k r p m : alive m = true -> alive (goto k r p m) = true.
Proof. done. Qed.

Lemma conclude_done t k r m o w sc rs :
  alive m = true -> rounds m !! k = Some r ->
  let m' := conclude t k (rd_req r) o w sc rs m in
  alive m' = true /\ rounds m' !! k = None /\ exists es, log m' = log m ++ es /\ omap outcome_key es = [key_of (rd_req r)].
Proof.
  intros Ha Hr. cbv zeta.
  assert (Hk : rounds (conclude t k (rd_req r) o w sc rs m) !! k = None).
  { unfold conclude, finish. simpl. unfold report, publishFailureToCluster.
    destruct o; simpl; try case_bool_decide; by rewrite lookup_delete_eq. }
  destruct (conclude_effect t k r m m o w sc rs Hr (or_introl eq_refl)) as [p es Hrd _ _ _ _ _|es Hrd _ _ Hlog Ho _ Hp _|E|E _].
  - by rewrite Hrd, lookup_insert_eq in Hk.
  - split_and!; [by eapply alive_app|done|eauto].
  - rewrite E in Hk. congruence.
  - rewrite E in Hk. simpl in Hk. congruence.
Qed.

(** The events a round meets when no peer ever says anything. *)
Definition silent (ev : Event) : bool :=
  match ev with EvDecide _ _ | EvDeadline | EvTryClaim | EvPublished _ => true | _ => false end.

Definition concluded (k : inflightKey) (m m' : Manager) : Prop :=
  rounds m' !! k = None /\ alive m' = true /\ exists es, log m' = log m ++ es /\ omap outcome_key es = [k].

Definition ends_silently (k : inflightKey) (m : Manager) : Prop :=
  exists evs m', Forall (fun te => silent te.2 = true) evs /\
    run (map (fun te => ARound te.1 k te.2) evs) m = Some m' /\ concluded k m m'.

Lemma ends_step t ev k m m1 es :
  alive m = true -> silent ev = true -> round_step t k ev m = Some m1 -> alive m1 = true ->
  log m1 = log m ++ es -> omap outcome_key es = [] -> ends_silently k m1 -> ends_silently k m.
Proof.
  intros Ha Hsil Hst Ha1 Hl Ho (evs & m' & Hall & Hrun & Hd & Hal & es' & Hl' & Ho').
  exists ((t, ev) :: evs), m'. split_and!; [by constructor| |].
  - simpl map. cbn [run]. rewrite step_round, Hst by done. done.
  - split_and!; [done|done|]. exists (es ++ es'). rewrite Hl', Hl, app_assoc. split; [done|]. by rewrite omap_app, Ho, Ho'.
Qed.

Lemma ends_now t ev k m r o w sc rs :
  alive m = true -> silent ev = true -> rounds m !! k = Some r -> k = key_of (rd_req r) ->
  round_step t k ev m = Some (conclude t k (rd_req r) o w sc rs m) -> ends_silently k m.
Proof.
  intros Ha Hsil Hr Hk Hst. destruct (conclude_done t k r m o w sc rs Ha Hr) as (Ha' & Hd & es & Hl & Ho).
  exists [(t, ev)], (conclude t k (rd_req r) o w sc rs m). split_and!; [by constructor| |].
  - simpl map. cbn [run]. by rewrite step_round, Hst by done.
  - split_and!; [done|done|]. exists es. by rewrite Ho, Hk.
Qed.

Lemma ends_remote k m r dl :
  alive m = true -> rounds m !! k = Some r -> k = key_of (rd_req r) -> rd_phase r = PRemote dl -> ends_silently k m.
Proof.
  intros Ha Hr Hk Hp. eapply (ends_now dl EvDeadline); try done. unfold round_step, runElection_step.
  rewrite Hr, Hp. simpl. by rewrite Z.leb_refl.
Qed.

Lemma ends_tie k m r d td :
  alive m = true -> rounds m !! k = Some r -> k = key_of (rd_req r) -> rd_phase r = PTie d td -> ends_silently k m.
Proof.
  intros Ha Hr Hk Hp. eapply (ends_now td EvDeadline); try done. unfold round_step, runElection_step.
  rewrite Hr, Hp. simpl. by rewrite Z.leb_refl.
Qed.

Lemma ends_publish k m r d :
  alive m = true -> rounds m !! k = Some r -> k = key_of (rd_req r) -> rd_phase r = PPublish d -> ends_silently k m.
Proof.
  intros Ha Hr Hk Hp.
  set (claim := {| cl_CapsuleId := rq_CapsuleID (rd_req r); cl_ReplicaId := rq_ReplicaID (rd_req r);
                   cl_ClusterPath := rq_ClusterPath (rd_req r); cl_NodeId := nodeID m;
                   cl_GravityScore := d_Score d; cl_TimestampMicros := UnixMicro 0 |}).
  set (m1 := goto k r (PTie d (time_Add 0 (tiebreakWindow m))) (emits [PublishedClaim claim] m)).
  assert (Ha1 : alive m1 = true) by (eapply alive_app; [exact Ha|reflexivity|intros Hx; cleanup_elem]).
  apply (ends_step 0 (EvPublished (Ok tt)) k m m1 [PublishedClaim claim]); try done.
  - unfold round_step, runElection_step. by rewrite Hr, Hp.
  - eapply ends_tie; [done|apply lookup_insert_eq|exact Hk|done].
Qed.

Lemma ends_claim k m r d dl :
  alive m = true -> rounds m !! k = Some r -> k = key_of (rd_req r) -> rd_phase r = PClaim d dl -> ends_silently k m.
Proof.
  intros Ha Hr Hk Hp.
  destruct (decide (rq_CapsuleID (rd_req r) ∈ localClaims m)) as [Hin|Hin].
  - eapply (ends_step 0 EvTryClaim _ _ (goto k r (PRemote dl) m) []); try done; [|by rewrite app_nil_r|].
    + unfold round_step, runElection_step, tryClaimCapsule. rewrite Hr, Hp. by rewrite bool_decide_eq_true_2 by done.
    + eapply ends_remote; [done|apply lookup_insert_eq|exact Hk|done].
  - eapply (ends_step 0 EvTryClaim _ _ (goto k r (PPublish d) (set_claims ({[rq_CapsuleID (rd_req r)]} ∪ localClaims m) m)) []);
      try done; [|by rewrite app_nil_r|].
    + unfold round_step, runElection_step, tryClaimCapsule. rewrite Hr, Hp. by rewrite bool_decide_eq_false_2 by done.
    + eapply ends_publish; [done|apply lookup_insert_eq|exact Hk|done].
Qed.

Lemma ends_wait k m r d dl :
  alive m = true -> rounds m !! k = Some r -> k = key_of (rd_req r) -> rd_phase r = PWait d dl -> ends_silently k m.
Proof.
  intros Ha Hr Hk Hp. eapply (ends_now dl EvDeadline); try done. unfold round_step, runElection_step.
  rewrite Hr, Hp. simpl. by rewrite Z.leb_refl.
Qed.

(** C9: no round can get stuck: from every state a live manager
    can reach, any running round has a schedule of its own decisions, timers
    and publish results, without a single message from a peer, that ends it
    with exactly one outcome. *)
Theorem election_round_always_ends strategy st lc node calc prov ps m k r
    (Hreach : reachable (NewManager strategy st lc node calc prov ps) m) (Ha : alive m = true)
    (Hr : rounds m !! k = Some r) :
  ends_silently k m.
Proof.
  pose proof (rounds_ok_reachable _ _ (rounds_ok_new strategy st lc node calc prov ps) Hreach) as Hok.
  pose proof (ok_keys m Hok k r Hr) as Hk. destruct (ok_deps m Hok k r Hr) as [[calc' Hcalc] [prov' Hprov]].
  destruct (rd_phase r) as [|d dl|d dl|d|d td|dl] eqn:Hp;
    [|by eapply ends_wait|by eapply ends_claim|by eapply ends_publish|by eapply ends_tie|by eapply ends_remote].
  assert (exists c, calculatorFor (rq_ClusterPath (rd_req r)) m = Some c) as [c Hc].
  { unfold calculatorFor. destruct (perClusterCalc m !! _); eauto. }
  set (d := s_Decide (rd_strategy r) {| now := 0; random := None |} (rd_req r) (rd_capsule r) c prov').
  set (dl := time_Add 0 (timeoutFor (rq_ClusterPath (rd_req r)) m)).
  assert (Hstep : exists p, round_step 0 k (EvDecide {| now := 0; random := None |} 0) m = Some (goto k r p m) /\
    (p = PRemote dl \/ p = PWait d dl \/ p = PClaim d dl)).
  { unfold round_step, runElection_step. rewrite Hr, Hp, Hc, Hprov. fold d dl.
    repeat case_match; eauto 10. }
  destruct Hstep as (p & Hst & Hp'). eapply (ends_step 0 (EvDecide _ 0) _ _ _ []); try done; [by rewrite app_nil_r|].
  destruct Hp' as [->|[->| ->]];
    [eapply ends_remote|eapply ends_wait|eapply ends_claim]; try apply lookup_insert_eq; done.
Qed.

(** ** The claim slot *)

(** A held capsule is marked as claimed, and held by one round only. *)
Record slots_ok (m : Manager) : Prop := {
  slot_marked : forall k r, rounds m !! k = Some r -> holding r -> k.1 ∈ localClaims m;
  slot_single : forall k1 k2 r1 r2, rounds m !! k1 = Some r1 -> rounds m !! k2 = Some r2 ->
    holding r1 -> holding r2 -> k1.1 = k2.1 -> k1 = k2
}.

(** The mark of a capsule is wiped under a round that holds it: the capsule is
    forgotten, or another round of the capsule fails. *)
Definition undercuts (a : Action) (m m' : Manager) : Prop :=
  exists k r, rounds m !! k = Some r /\ holding r /\
    (a = AForget k.1 \/
     exists t k' ev es, a = ARound t k' ev /\ k' <> k /\ k'.1 = k.1 /\
       log m' = log m ++ es /\ existsb is_failure es = true).

Lemma slots_ok_sub m m' :
  slots_ok m -> localClaims m' = localClaims m ->
  (forall k r', rounds m' !! k = Some r' -> holding r' -> exists r, rounds m !! k = Some r /\ holding r) -> slots_ok m'.
Proof.
  intros [H1 H2] Hc Hr. split.
  - intros k r' Hk Hh. destruct (Hr _ _ Hk Hh) as (r & ? & ?). rewrite Hc. eauto.
  - intros k1 k2 r1 r2 Hk1 Hk2 Hh1 Hh2. destruct (Hr _ _ Hk1 Hh1) as (? & ? & ?), (Hr _ _ Hk2 Hh2) as (? & ? & ?). eauto.
Qed.

Lemma slots_ok_round t k ev m m' :
  rounds_ok m -> slots_ok m -> round_step t k ev m = Some m' -> ~ undercuts (ARound t k ev) m m' -> slots_ok m'.
Proof.
  intros Hok Hsl Hs Hnu. destruct (round_step_effect _ _ _ _ _ Hs) as (r & Hr & Heff).
  pose proof (ok_keys m Hok k r Hr) as Hkey.
  assert (Hcid : rq_CapsuleID (rd_req r) = k.1) by (by rewrite Hkey).
  destruct Heff as [p es Hrd Hin Hcfg Hlog Hes Hcl|es Hrd Hin Hcfg Hlog Ho Hst Hp Hcl|Heq|Heq _]; [| |by subst|].
  - destruct Hcl as [(Hn & Hn' & Hc)|[(Hh & Hn' & Hni & Hc)|(Hh & Hh' & Hc)]].
    + apply (slots_ok_sub m); [done..|]. intros k' r'. rewrite Hrd, lookup_insert. case_decide; [|eauto].
      intros [= <-] ?. done.
    + rewrite Hcid in *. destruct Hsl as [H1 H2]. split.
      * intros k' r'. rewrite Hrd, lookup_insert, Hc. case_decide as E; [subst; set_solver|]. intros. set_unfold. eauto.
      * intros k1 k2 r1 r2. rewrite Hrd, !lookup_insert. case_decide as E1; case_decide as E2; subst; eauto.
        -- intros _ Hr2 _ Hh2 E. destruct Hni. rewrite E. eauto.
        -- intros Hr1 _ Hh1 _ E. destruct Hni. rewrite <- E. eauto.
    + apply (slots_ok_sub m); [done..|]. intros k' r'. rewrite Hrd, lookup_insert. case_decide; [|eauto].
      subst. intros [= <-] ?. eauto.
  - destruct Hcl as [(Hc & _)|(Hc & Hwhy)].
    + apply (slots_ok_sub m); [done..|]. intros k' r'. rewrite Hrd, lookup_delete. case_decide; [done|]. eauto.
    + assert (Hother : forall k' r', rounds m !! k' = Some r' -> holding r' -> k' <> k -> k'.1 <> k.1).
      { intros k' r' Hr' Hh' Hne E. destruct Hwhy as [Hh|Hf].
        - apply Hne. eapply (slot_single m Hsl); eauto.
        - apply Hnu. exists k', r'. split_and!; [done..|]. right. exists t, k, ev, es. by split_and!. }
      rewrite Hcid in Hc. destruct Hsl as [H1 H2]. split.
      * intros k' r'. rewrite Hrd, lookup_delete, Hc. case_decide as E; [done|]. intros Hr' Hh'.
        apply elem_of_difference. split; [eauto|]. apply not_elem_of_singleton. eapply Hother; eauto.
      * intros k1 k2 r1 r2. rewrite Hrd, !lookup_delete. case_decide; [done|]. case_decide; [done|]. eauto.
  - subst. apply (slots_ok_sub m); [done..|]. eauto.
Qed.

Lemma HandleRequest_rounds req m :
  rounds (snd (HandleRequest req m)) = rounds m \/
  exists c s, rounds (snd (HandleRequest req m)) = <[key_of req := new_round req c s]> (rounds m).
Proof. unfold HandleRequest. repeat case_match; simpl; eauto. Qed.

Lemma slots_ok_step a m m' :
  rounds_ok m -> slots_ok m -> step a m = Some m' -> ~ undercuts a m m' -> slots_ok m'.
Proof.
  intros Hok Hsl Hs Hnu. unfold step in Hs. destruct (negb (alive m)); [done|].
  assert (Hid : forall m1, rounds m1 = rounds m -> localClaims m1 = localClaims m -> slots_ok m1).
  { intros m1 Hr Hc. apply (slots_ok_sub m); [done..|]. rewrite Hr. eauto. }
  destruct a as [| |cp c|cp d|cp o|cp| |id|req|t k ev]; simplify_eq; try (by apply Hid).
  - unfold Start. repeat case_match; by apply Hid.
  - destruct (started m); simplify_eq. by apply Hid.
  - destruct (cancelled m); simplify_eq. unfold JoinCluster. repeat case_match; by apply Hid.
  - unfold LeaveCluster. case_bool_decide; [|done]. apply (slots_ok_sub m); [done..|].
    intros k r' Hr' Hh. destruct (close_rounds_lookup _ _ _ _ Hr') as (r & Hr & _ & Hp).
    exists r. split; [done|]. unfold holding in *. by rewrite <- Hp.
  - destruct Hsl as [H1 H2]. split; [|exact H2]. intros k r Hr Hh. simpl.
    apply elem_of_difference. split; [eauto|]. apply not_elem_of_singleton. intros E. apply Hnu.
    exists k, r. split_and!; [done..|]. left. by rewrite E.
  - apply (slots_ok_sub m); [done| |].
    + unfold HandleRequest. repeat case_match; done.
    + intros k r'. destruct (HandleRequest_rounds req m) as [->|(c & s & ->)]; [eauto|].
      rewrite lookup_insert. case_decide; [|eauto]. intros Hnew Hh. injection Hnew as <-. by destruct Hh.
  - by eapply slots_ok_round.
Qed.

(** Runs in which no step undercuts a held slot. *)
Inductive orderly (m0 : Manager) : Manager -> Prop :=
  | orderly_refl : orderly m0 m0
  | orderly_step m a m' : orderly m0 m -> step a m = Some m' -> ~ undercuts a m m' -> orderly m0 m'.

Lemma orderly_ok m0 m : rounds_ok m0 -> slots_ok m0 -> orderly m0 m -> rounds_ok m /\ slots_ok m.
Proof.
  intros H0 H1. induction 1 as [|m a m' _ [IH1 IH2] Hs Hn]; [done|].
  split; [by eapply rounds_ok_step|by eapply slots_ok_step].
Qed.

(** As long as no other round of a capsule fails (and the
    capsule is not forgotten) while one of its rounds holds the claim slot, a
    node never has two published or publishing claims for replicas of the same
    capsule: the local claim guard works. *)
Theorem election_claim_slot_exclusive strategy st lc node calc prov ps m k1 k2 r1 r2
    (Hrun : orderly (NewManager strategy st lc node calc prov ps) m)
    (H1 : rounds m !! k1 = Some r1) (H2 : rounds m !! k2 = Some r2)
    (Hh1 : holding r1) (Hh2 : holding r2) (Hcap : k1.1 = k2.1) : k1 = k2.
Proof.
  destruct (orderly_ok _ m (rounds_ok_new strategy st lc node calc prov ps)) with (2 := Hrun) as [_ Hsl].
  - by split.
  - eapply (slot_single m Hsl); eauto.
Qed.

(** Leaving a cluster while a round of it waits to publish
    or sits in its tiebreak window lets the round receive nil from its closed
    claim channel and dereference it: the process crashes. *)
Theorem election_leave_crashes_round m k r t
    (Ha : alive m = true) (Hr : rounds m !! k = Some r) (Hc : rq_ClusterPath (rd_req r) ∈ topics m)
    (Hp : exists d x, rd_phase r = PWait d x \/ rd_phase r = PTie d x) :
  exists m', run [ALeave (rq_ClusterPath (rd_req r)); ARound t k (EvClaim None)] m = Some m' /\ Panic ∈ log m'.
Proof.
  set (m1 := LeaveCluster (rq_ClusterPath (rd_req r)) m).
  assert (Hm1 : rounds m1 !! k = Some {| rd_req := rd_req r; rd_capsule := rd_capsule r; rd_strategy := rd_strategy r;
                                        rd_phase := rd_phase r; rd_closed := true |} /\ alive m1 = true).
  { unfold m1, LeaveCluster. rewrite bool_decide_eq_true_2 by done. split; [|exact Ha]. simpl.
    rewrite lookup_fmap, Hr. simpl. rewrite String.eqb_refl, andb_true_r.
    destruct Hp as (d & x & [Hp|Hp]); unfold listening; by rewrite Hp. }
  destruct Hm1 as [Hr1 Ha1]. exists (crash m1). split.
  - cbn [run]. unfold step at 1. rewrite Ha. simpl negb. cbv iota. fold m1. rewrite step_round by done.
    unfold round_step, runElection_step. rewrite Hr1. simpl. by destruct Hp as (d & x & [-> | ->]).
  - simpl. apply list_elem_of_In, in_or_app. right. by left.
Qed.

(** A round on the node of candidate [c] that has published its claim for slot
    [k] and waits for better ones until [td]. *)
Definition contends (k : inflightKey) (req : Request) (c : string * Decision) (td : Time) (m : Manager) : Prop :=
  alive m = true /\ nodeID m = c.1 /\
  exists r, rounds m !! k = Some r /\ rd_req r = req /\ rd_phase r = PTie c.2 td.

(** The round takes the claims of these candidates from its channel. *)
Definition hears (k : inflightKey) (req : Request) (heard : list (Time * (string * Decision))) : list Action :=
  map (fun h => ARound h.1 k (EvClaim (Some (claim_on_time req h.2.1 h.2.2)))) heard.

(** Claims that are no better are ignored, the first better one ends the round. *)
Lemma contends_hears k req c td m heard rest :
  contends k req c td m -> Forall (fun h => beats req h.2 c = false) heard ->
  run (hears k req heard ++ rest) m = run rest m.
Proof.
  intros (Ha & Hn & r & Hr & Hq & Hp) Hall. induction Hall as [|h heard Hh _ IH]; [done|]. cbn [hears map app run].
  rewrite step_round by done. unfold round_step, runElection_step. rewrite Hr, Hp.
  unfold beats in Hh. rewrite Hn, Hh. exact IH.
Qed.

Lemma contends_loses k req c td m h :
  contends k req c td m -> beats req h.2 c = true ->
  run (hears k req [h]) m =
  Some (conclude h.1 k req OutcomeLost h.2.1 (d_Score h.2.2) "" (releaseCapsuleClaim (rq_CapsuleID req) m)).
Proof.
  intros (Ha & Hn & r & Hr & Hq & Hp) Hb. cbn [hears map run]. rewrite step_round by done.
  unfold round_step, runElection_step. rewrite Hr, Hp. unfold beats in Hb. by rewrite Hn, Hb, Hq.
Qed.

Lemma contends_wins k req c td m t :
  contends k req c td m -> td <= t ->
  run [ARound t k EvDeadline] m = Some (conclude t k req OutcomeWon c.1 (d_Score c.2) "" m).
Proof.
  intros (Ha & Hn & r & Hr & Hq & Hp) Ht. cbn [run]. rewrite step_round by done.
  unfold round_step, runElection_step. rewrite Hr, Hp, Hq, Hn. by destruct (Z.leb_spec td t); [|lia].
Qed.

(** C8: the tiebreak elects exactly one node, if every candidate's claim
    is published at the time it decided on and heard within the tiebreak window.
    Take candidates for one slot with distinct node IDs and scores that are
    numbers. One of them beats all others: its round, after the claims of any of
    the others in any order, reports at the deadline that it has won. The round
    of every other candidate that hears at least the best claim among those of
    others, in any order, ends before the deadline: it gives its claim back and
    reports that it lost, to the first candidate it heard that beats it, which
    need not be the elected one. *)
Theorem tiebreak_unique_winner k req (cands : list (string * Decision))
    (Hne : cands <> []) (Hids : NoDup cands.*1) (Hnum : Forall (fun c => number (d_Score c.2)) cands) :
  exists w, w ∈ cands /\ forall c m td heard t,
    c ∈ cands -> contends k req c td m -> Forall (fun h => h.2 ∈ cands /\ h.2 <> c) heard -> td <= t ->
    if decide (c.1 = w.1)
    then run (hears k req heard ++ [ARound t k EvDeadline]) m = Some (conclude t k req OutcomeWon c.1 (d_Score c.2) "" m)
    else w ∈ heard.*2 ->
      exists ignored h later, heard = ignored ++ h :: later /\
        Forall (fun h => beats req h.2 c = false) ignored /\ beats req h.2 c = true /\
        run (hears k req (ignored ++ [h])) m =
        Some (conclude h.1 k req OutcomeLost h.2.1 (d_Score h.2.2) "" (releaseCapsuleClaim (rq_CapsuleID req) m)).
Proof.
  destruct (tiebreak_best req cands Hne Hids Hnum) as (w & Hw & Hbest). exists w. split; [done|].
  intros c m td heard t Hc Hm Hheard Ht. case_decide as E.
  - assert (c = w) as -> by (by eapply NoDup_fst_inj).
    rewrite (contends_hears k req w td) by (done || (eapply Forall_impl; [|exact Hheard]; intros h [Hh Hne']; by apply Hbest)).
    by eapply contends_wins.
  - intros Hin. assert (Hbw : beats req w c = true) by (apply Hbest; [done|by intros ->]).
    apply list_elem_of_fmap in Hin as (h0 & -> & Hin). clear Hheard E Hbest Hw.
    assert (Hsplit : exists ignored h later, heard = ignored ++ h :: later /\
        Forall (fun h => beats req h.2 c = false) ignored /\ beats req h.2 c = true).
    { induction heard as [|h heard IH]; [by apply not_elem_of_nil in Hin|].
      destruct (beats req h.2 c) eqn:Eh; [by exists [], h, heard|].
      apply elem_of_cons in Hin as [->|Hin]; [congruence|]. destruct (IH Hin) as (ig & h' & lt & -> & Hig & Hh').
      exists (h :: ig), h', lt. split_and!; [done|by constructor|done]. }
    destruct Hsplit as (ig & h & lt & -> & Hig & Hh). exists ig, h, lt. split_and!; try done.
    unfold hears. rewrite map_app. fold (hears k req ig) (hears k req [h]).
    rewrite (contends_hears k req c td) by done. by eapply contends_loses.
Qed.

(** Two nodes with equal scores that publish later than
    planned can both win: each compares the rival's actual publish time with
    its own planned one, so when each claim is later than the other node's
    plan, both ignore the other's claim and report themselves as the winner. *)
Theorem tiebreak_split_brain mA mB k rA rB dA dB tA tB pA pB cA cB
    (HaA : alive mA = true) (HaB : alive mB = true)
    (HrA : rounds mA !! k = Some rA) (HrB : rounds mB !! k = Some rB)
    (HpA : rd_phase rA = PTie dA tA) (HpB : rd_phase rB = PTie dB tB)
    (HsA : cl_GravityScore cA = d_Score dA) (HsB : cl_GravityScore cB = d_Score dB)
    (HtA : cl_TimestampMicros cA = UnixMicro pA) (HtB : cl_TimestampMicros cB = UnixMicro pB)
    (Hnum : number (d_Score dA)) (Heq : d_Score dB = d_Score dA)
    (HlateB : UnixMicro (d_PublishAt dA) < UnixMicro pB) (HlateA : UnixMicro (d_PublishAt dB) < UnixMicro pA) :
  exists mA' mB',
    run [ARound tA k (EvClaim (Some cB)); ARound tA k EvDeadline] mA = Some mA' /\
    run [ARound tB k (EvClaim (Some cA)); ARound tB k EvDeadline] mB = Some mB' /\
    EmitWon (rd_req rA) (nodeID mA) (d_Score dA) ∈ log mA' /\
    EmitWon (rd_req rB) (nodeID mB) (d_Score dB) ∈ log mB'.
Proof.
  assert (Hnot : forall rival d node, cl_GravityScore rival = d_Score d -> number (d_Score d) ->
    UnixMicro (d_PublishAt d) < cl_TimestampMicros rival -> isBetter rival d node = false).
  { intros rival d node Hs Hn Ht. apply not_true_iff_false. rewrite isBetter_spec by (rewrite ?Hs; done).
    rewrite Hs. intros [?|[_ [?|[? _]]]]; lia. }
  assert (Hwin : forall m r d td rival, alive m = true -> rounds m !! k = Some r -> rd_phase r = PTie d td ->
    isBetter rival d (nodeID m) = false -> exists m',
    run [ARound td k (EvClaim (Some rival)); ARound td k EvDeadline] m = Some m' /\
    EmitWon (rd_req r) (nodeID m) (d_Score d) ∈ log m').
  { intros m r d td rival Ha Hr Hp Hb.
    exists (conclude td k (rd_req r) OutcomeWon (nodeID m) (d_Score d) "" m). split.
    - cbn [run]. rewrite step_round by done. unfold round_step at 1, runElection_step at 1. rewrite Hr, Hp, Hb.
      rewrite step_round by done. unfold round_step, runElection_step. by rewrite Hr, Hp, Z.leb_refl.
    - simpl. apply list_elem_of_In, in_or_app. right. simpl. auto. }
  destruct (Hwin mA rA dA tA cB HaA HrA HpA) as (mA' & HA1 & HA2).
  { apply Hnot; [congruence|done|lia]. }
  destruct (Hwin mB rB dB tB cA HaB HrB HpB) as (mB' & HB1 & HB2).
  { apply Hnot; [congruence|by rewrite Heq|lia]. }
  eauto 10.
Qed.

(** The log only grows. *)
Lemma step_log a m m' : step a m = Some m' -> exists es, log m' = log m ++ es.
Proof.
  assert (Hnil : exists es, log m = log m ++ es) by (exists []; by rewrite app_nil_r).
  unfold step. destruct (negb (alive m)); [done|].
  destruct a as [| |cp c|cp d|cp o|cp| |id|req|t k ev]; intros Hs; simplify_eq; try exact Hnil.
  - unfold Start. repeat case_match; simpl; eauto.
  - destruct (started m); simplify_eq. exact Hnil.
  - destruct (cancelled m); simplify_eq. unfold JoinCluster. repeat case_match; simpl; eauto.
  - unfold LeaveCluster. case_bool_decide; exact Hnil.
  - unfold HandleRequest. repeat case_match; simpl; eauto.
  - destruct (round_step_effect _ _ _ _ _ Hs) as (r & _ & [p es _ _ _ Hl _ _|es _ _ _ Hl _ _ _ _|Heq|Heq _]); subst; eauto.
Qed.

Lemma run_log acts m m' : run acts m = Some m' -> exists es, log m' = log m ++ es.
Proof.
  revert m. induction acts as [|a acts IH]; intros m Hrun; simpl in Hrun.
  - simplify_eq. exists []. by rewrite app_nil_r.
  - destruct (step a m) as [m1|] eqn:E; [|done]. destruct (step_log _ _ _ E) as [es Hes], (IH _ Hrun) as [es' Hes'].
    exists (es ++ es'). by rewrite Hes', Hes, app_assoc.
Qed.

(** ** Concrete runs *)

Module ElectionDemo.
Import GravityDemo DelayDemo.

Definition request (replica : string) : Request :=
  {| rq_CapsuleID := "c1"; rq_ReplicaID := replica; rq_ClusterPath := "us/dc1/prod"; rq_Reason := reasonInitial;
     rq_PreviousNodeID := ""; rq_Priority := 0; rq_CreatedAt := 0 |}.

(** A node with the delay strategy that knows capsule [c1]. *)
Definition fresh_manager (node : string) : Manager :=
  NewManager (Some (delay_strategy New)) (Some (fun _ => Some (demo_capsule []))) true node (Some demo_calc)
    (Some (fun _ => Ok (demo_node 4 3))) true.

Definition at_zero : Ambient := {| now := 0; random := None |}.
Definition late : Time := 5 * second.

Definition boot : list Action := [AStart; AJoin "us/dc1/prod" (Ok tt)].

(** One round from the request to its tiebreak window. *)
Definition to_tiebreak (replica : string) : list Action :=
  let k := ("c1", replica) in
  [ARound 0 k (EvDecide at_zero 0); ARound late k EvPublishTimer; ARound late k EvTryClaim;
   ARound late k (EvPublished (Ok tt))].

(** Three slots of one capsule; while slot 0 is in its tiebreak window, a
    failure reported for slot 1 frees the claim mark and slot 2 publishes. *)
Definition double_win : list Action :=
  boot ++ [ARequest (request "0"); ARequest (request "1"); ARequest (request "2");
           ARound 0 ("c1", "1") (EvDecide at_zero 0); ARound 0 ("c1", "2") (EvDecide at_zero 0)] ++
  to_tiebreak "0" ++
  [ARound late ("c1", "1") (EvFailure (Some {| ef_CapsuleId := "c1"; ef_ReplicaId := "1"; ef_ClusterPath := "us/dc1/prod";
      ef_SenderId := "n2"; ef_Reason := "election timeout"; ef_TimestampMicros := 0 |}));
   ARound late ("c1", "2") EvPublishTimer; ARound late ("c1", "2") EvTryClaim;
   ARound late ("c1", "2") (EvPublished (Ok tt));
   ARound (late + second) ("c1", "0") EvDeadline; ARound (late + second) ("c1", "2") EvDeadline].

Definition winners (m : Manager) : list (string * string) :=
  omap (fun e => match e with EmitWon req w _ => Some (rq_ReplicaID req, w) | _ => None end) (log m).

(** The claim guard does not hold in general: with the
    delay strategy there is a run in which one node wins two replicas of the
    same capsule, because the failure of a third round clears the mark that
    the first round relies on. *)
Theorem election_guard_undercut :
  exists m, run double_win (fresh_manager "n1") = Some m /\ winners m = [("0", "n1"); ("2", "n1")].
Proof.
  assert (Hw : winners <$> run double_win (fresh_manager "n1") = Some [("0", "n1"); ("2", "n1")])
    by (vm_compute; reflexivity).
  destruct (run double_win (fresh_manager "n1")) as [m|]; [|done]. exists m. split; [done|]. by injection Hw.
Qed.

Definition state_after (acts : list Action) (node : string) : Manager :=
  match run acts (fresh_manager node) with Some m => m | None => fresh_manager node end.

Definition tie_acts : list Action := boot ++ [ARequest (request "0")] ++ to_tiebreak "0".

Lemma run_reachable acts m0 m m' : reachable m0 m -> run acts m = Some m' -> reachable m0 m'.
Proof.
  revert m. induction acts as [|a acts IH]; intros m Hr; simpl; [by intros [= <-]|].
  destruct (step a m) as [m1|] eqn:E; [|done]. apply IH. by eapply reach_step.
Qed.

(** A run that is defined. *)
Definition defined {A} (o : option A) : bool := match o with Some _ => true | None => false end.

Lemma tie_run node : node = "n1" \/ node = "n2" -> run tie_acts (fresh_manager node) = Some (state_after tie_acts node).
Proof.
  intros Hn. assert (Hd : defined (run tie_acts (fresh_manager node)) = true)
    by (destruct Hn as [->| ->]; vm_compute; reflexivity).
  unfold state_after. by destruct (run tie_acts (fresh_manager node)).
Qed.

Lemma tie_reachable node : node = "n1" \/ node = "n2" -> reachable (fresh_manager node) (state_after tie_acts node).
Proof. intros. eapply run_reachable; [constructor|by apply tie_run]. Qed.

Lemma election_rounds_report_once_witness :
  started_rounds ("c1", "0") (state_after tie_acts "n1") = 1%nat /\
  started_rounds ("c1", "0") (state_after tie_acts "n1") =
    (reported_rounds ("c1", "0") (state_after tie_acts "n1") + running ("c1", "0") (state_after tie_acts "n1"))%nat.
Proof.
  split; [vm_compute; reflexivity|].
  exact (proj1 (election_rounds_report_once _ _ _ _ _ _ _ _ ("c1", "0") (tie_reachable "n1" (or_introl eq_refl)))).
Defined.

(** The round of slot 0 in its tiebreak window. *)
Definition tie_decision : Decision := Decide New at_zero (request "0") (demo_capsule []) demo_calc (fun _ => Ok (demo_node 4 3)).
Definition tie_deadline : Time := late + 300 * millisecond.

Lemma tie_lookup node :
  node = "n1" \/ node = "n2" ->
  exists r, rounds (state_after tie_acts node) !! ("c1", "0") = Some r /\ rd_phase r = PTie tie_decision tie_deadline /\
    rd_req r = request "0".
Proof.
  intros Hn.
  assert (Hp : (fun r => (rd_phase r, rd_req r)) <$> rounds (state_after tie_acts node) !! ("c1", "0") =
               Some (PTie tie_decision tie_deadline, request "0"))
    by (destruct Hn as [->| ->]; vm_compute; reflexivity).
  destruct (rounds (state_after tie_acts node) !! ("c1", "0")) as [r|]; [|done].
  exists r. injection Hp as H1 H2. auto.
Qed.

Lemma tie_alive node : node = "n1" \/ node = "n2" -> alive (state_after tie_acts node) = true.
Proof. intros [->| ->]; vm_compute; reflexivity. Qed.

Lemma election_round_always_ends_witness : ends_silently ("c1", "0") (state_after tie_acts "n1").
Proof.
  destruct (tie_lookup "n1" (or_introl eq_refl)) as (r & Hr & _).
  exact (election_round_always_ends _ _ _ _ _ _ _ _ ("c1", "0") r (tie_reachable "n1" (or_introl eq_refl))
           (tie_alive "n1" (or_introl eq_refl)) Hr).
Defined.

Lemma election_leave_crashes_round_witness :
  exists m', run [ALeave "us/dc1/prod"; ARound late ("c1", "0") (EvClaim None)] (state_after tie_acts "n1") = Some m' /\
    Panic ∈ log m'.
Proof.
  destruct (tie_lookup "n1" (or_introl eq_refl)) as (r & Hr & Hp & Hq).
  replace "us/dc1/prod" with (rq_ClusterPath (rd_req r)) by (rewrite Hq; reflexivity).
  apply (election_leave_crashes_round (state_after tie_acts "n1") ("c1", "0") r late (tie_alive "n1" (or_introl eq_refl)) Hr).
  - rewrite Hq.
    assert (Ht : topics (state_after tie_acts "n1") = {["us/dc1/prod"]}) by (vm_compute; reflexivity).
    rewrite Ht. apply elem_of_singleton. reflexivity.
  - eauto.
Defined.

(** Two nodes whose claims for slot 0 went out [late], after both plans. *)
Definition late_claim (node : string) : Claim :=
  {| cl_CapsuleId := "c1"; cl_ReplicaId := "0"; cl_ClusterPath := "us/dc1/prod"; cl_NodeId := node;
     cl_GravityScore := d_Score tie_decision; cl_TimestampMicros := UnixMicro late |}.

Lemma tie_score_number : number (d_Score tie_decision).
Proof. apply finite_number, finiteb_finite. vm_compute. reflexivity. Qed.

Lemma tiebreak_split_brain_witness :
  exists mA mB, winners mA = [("0", "n1")] /\ winners mB = [("0", "n2")] /\
    run [ARound tie_deadline ("c1", "0") (EvClaim (Some (late_claim "n2"))); ARound tie_deadline ("c1", "0") EvDeadline]
      (state_after tie_acts "n1") = Some mA /\
    run [ARound tie_deadline ("c1", "0") (EvClaim (Some (late_claim "n1"))); ARound tie_deadline ("c1", "0") EvDeadline]
      (state_after tie_acts "n2") = Some mB.
Proof.
  destruct (tie_lookup "n1" (or_introl eq_refl)) as (rA & HrA & HpA & _).
  destruct (tie_lookup "n2" (or_intror eq_refl)) as (rB & HrB & HpB & _).
  destruct (tiebreak_split_brain _ _ _ rA rB tie_decision tie_decision tie_deadline tie_deadline late late
    (late_claim "n1") (late_claim "n2") (tie_alive "n1" (or_introl eq_refl)) (tie_alive "n2" (or_intror eq_refl))
    HrA HrB HpA HpB eq_refl eq_refl eq_refl eq_refl tie_score_number eq_refl ltac:(vm_compute; reflexivity)
    ltac:(vm_compute; reflexivity)) as (mA & mB & HA & HB & _).
  exists mA, mB.
  assert (HwA : winners <$> Some mA = Some [("0", "n1")]) by (rewrite <- HA; vm_compute; reflexivity).
  assert (HwB : winners <$> Some mB = Some [("0", "n2")]) by (rewrite <- HB; vm_compute; reflexivity).
  injection HwA as HwA. injection HwB as HwB. auto.
Defined.

Lemma tie_contends node : node = "n1" \/ node = "n2" ->
  contends ("c1", "0") (request "0") (node, tie_decision) tie_deadline (state_after tie_acts node).
Proof.
  intros Hn. split; [by apply tie_alive|]. split; [destruct Hn as [->| ->]; vm_compute; reflexivity|].
  destruct (tie_lookup node Hn) as (r & Hr & Hp & Hq). exists r. auto.
Qed.

Lemma tiebreak_unique_winner_witness :
  exists m1 m2,
    run (hears ("c1", "0") (request "0") [(late, ("n2", tie_decision))] ++ [ARound tie_deadline ("c1", "0") EvDeadline])
      (state_after tie_acts "n1") = Some m1 /\
    run (hears ("c1", "0") (request "0") [(late, ("n1", tie_decision))]) (state_after tie_acts "n2") = Some m2 /\
    winners m1 = [("0", "n1")] /\ winners m2 = [].
Proof.
  destruct (tiebreak_unique_winner ("c1", "0") (request "0") [("n1", tie_decision); ("n2", tie_decision)])
    as (w & Hw & H).
  - discriminate.
  - simpl. constructor; [rewrite list_elem_of_In; simpl; intuition discriminate|].
    constructor; [apply not_elem_of_nil|constructor].
  - constructor; [exact tie_score_number|]. constructor; [exact tie_score_number|constructor].
  - assert (w = ("n1", tie_decision)) as ->.
    { apply elem_of_cons in Hw as [->|Hw]; [reflexivity|]. exfalso.
      apply elem_of_cons in Hw as [->|Hw]; [|by apply not_elem_of_nil in Hw].
      specialize (H ("n2", tie_decision) (state_after tie_acts "n2") tie_deadline [(late, ("n1", tie_decision))] tie_deadline
        ltac:(right; left) (tie_contends "n2" (or_intror eq_refl))).
      rewrite decide_True in H by reflexivity.
      assert (Hr : run (hears ("c1", "0") (request "0") [(late, ("n1", tie_decision))] ++ [ARound tie_deadline ("c1", "0") EvDeadline])
                     (state_after tie_acts "n2") = None) by (vm_compute; reflexivity).
      rewrite Hr in H. discriminate H; [|lia]. constructor; [|constructor]. split; [left|discriminate]. }
    pose proof (H ("n1", tie_decision) (state_after tie_acts "n1") tie_deadline [(late, ("n2", tie_decision))] tie_deadline
      ltac:(left) (tie_contends "n1" (or_introl eq_refl))) as H1. rewrite decide_True in H1 by reflexivity.
    pose proof (H ("n2", tie_decision) (state_after tie_acts "n2") tie_deadline [(late, ("n1", tie_decision))] tie_deadline
      ltac:(right; left) (tie_contends "n2" (or_intror eq_refl))) as H2. rewrite decide_False in H2 by discriminate.
    specialize (H1 ltac:(constructor; [split; [right; left|discriminate]|constructor]) (Z.le_refl _)).
    specialize (H2 ltac:(constructor; [split; [left|discriminate]|constructor]) (Z.le_refl _) ltac:(left)).
    destruct H2 as (ig & h & lt & Eh & _ & _ & H2).
    destruct ig as [|? [|? ?]]; [|discriminate Eh..]. injection Eh as <- <-.
    eexists _, _. split; [exact H1|]. split; [exact H2|]. split; vm_compute; reflexivity.
Defined.

(** A run without failures is orderly. *)
Lemma calm_orderly acts m0 m m' :
  orderly m0 m -> run acts m = Some m' ->
  existsb is_failure (log m') = false -> (forall id, AForget id ∉ acts) -> orderly m0 m'.
Proof.
  revert m. induction acts as [|a acts IH]; intros m Hr Hrun Hnf Hfg; simpl in Hrun; [by simplify_eq|].
  destruct (step a m) as [m1|] eqn:E; [|done].
  eapply IH; [|exact Hrun|done|].
  - eapply orderly_step; [exact Hr|exact E|]. intros (k & r & Hk & Hh & [->|(t & k' & ev & es & -> & _ & _ & Hl & Hf)]).
    + apply (Hfg k.1). by left.
    + destruct (run_log _ _ _ Hrun) as [es' Hl']. rewrite Hl', Hl, !existsb_app, Hf, orb_true_r in Hnf. done.
  - intros id Hid. apply (Hfg id). by right.
Qed.

Lemma election_claim_slot_exclusive_witness :
  exists r, rounds (state_after tie_acts "n1") !! ("c1", "0") = Some r /\ holding r /\ ("c1", "0") = ("c1", "0").
Proof.
  destruct (tie_lookup "n1" (or_introl eq_refl)) as (r & Hr & Hp & _). exists r.
  assert (Hh : holding r) by (unfold holding; rewrite Hp; exact I).
  assert (Ho : orderly (fresh_manager "n1") (state_after tie_acts "n1")).
  { eapply (calm_orderly tie_acts _ (fresh_manager "n1")); [constructor|apply tie_run; by left|vm_compute; reflexivity|].
    intros id Hid. apply list_elem_of_In in Hid. simpl in Hid. intuition discriminate. }
  split; [exact Hr|]. split; [exact Hh|].
  exact (election_claim_slot_exclusive _ _ _ _ _ _ _ _ ("c1", "0") ("c1", "0") r r Ho Hr Hr Hh Hh eq_refl).
Defined.

End ElectionDemo.
