(* ===== verification/ElectionTopic.v ===== *)
(** * Election topic ([election/topic.go])

    One node's view of a cluster's election pubsub topic: signing and
    verification of envelopes, routing of claims and failures to the round
    that listens for them, and the short-lived buffer for messages that
    arrive before their round does.  Protocol-buffer encoding and libp2p are
    outside the repository and enter as interfaces. *)

From S2P Require Import Prelude Float64 CapsuleTypes Gravity Elector.
Local Open Scope string_scope. Local Open Scope list_scope. Local Open Scope Z_scope.

Abbreviation bytes := (list ascii) (only parsing).

Record ElectionMessage := {
  em_Type : string;
  em_Payload : bytes;
  em_SenderId : string;
  em_Timestamp : option Time;   (** nil when absent *)
  em_Signature : bytes
}.

(** [proto.Marshal] and [proto.Unmarshal] of the three message types. *)
Class ProtoCodec := {
  marshalEnvelope : ElectionMessage -> option bytes;
  unmarshalEnvelope : bytes -> option ElectionMessage;
  marshalClaim : Claim -> option bytes;
  unmarshalClaim : bytes -> option Claim;
  marshalFailed : ElectionFailed -> option bytes;
  unmarshalFailed : bytes -> option ElectionFailed
}.

(** What Protocol Buffers guarantee: decoding inverts encoding. *)
Class ProtoLaws (P : ProtoCodec) := {
  envelope_roundtrip : forall m b, marshalEnvelope m = Some b -> unmarshalEnvelope b = Some m;
  claim_roundtrip : forall c b, marshalClaim c = Some b -> unmarshalClaim b = Some c;
  failed_roundtrip : forall f b, marshalFailed f = Some b -> unmarshalFailed b = Some f
}.

(** The node's key: [Signer] and [Verifier] of the source. *)
Definition Signer : Type := bytes -> result string bytes.
Definition Verifier : Type := string -> bytes -> bytes -> bool.

(** ** Canonical bytes *)

(** [binary.BigEndian.PutUint32] and [PutUint64]: the low [n] bytes. *)
Fixpoint big_endian (n : nat) (z : Z) : bytes :=
  match n with
  | O => []
  | Datatypes.S n => big_endian n (z / 256) ++ [ascii_of_N (Z.to_N (z mod 256))]
  end.

Definition appendField (buf data : bytes) : bytes :=
  buf ++ big_endian 4 (uint32 (Z.of_nat (length data))) ++ data.

Definition canonicalContent (msg : ElectionMessage) : bytes :=
  let buf := appendField [] (list_ascii_of_string (em_Type msg)) in
  let buf := appendField buf (em_Payload msg) in
  let buf := appendField buf (list_ascii_of_string (em_SenderId msg)) in
  let tsBytes := match em_Timestamp msg with
                 | None => []
                 | Some t => big_endian 8 (uint64 (int64 t))   (* [UnixNano] is an int64 *)
                 end in
  appendField buf tsBytes.

(** ** Listeners *)

Definition messageKey : Type := string * string.
Definition lid : Type := positive.   (** identity of a listener object *)

Record listener := {
  l_claims : list Claim;            (** queued in the buffered channel *)
  l_failures : list ElectionFailed;
  l_cap : nat;                      (** channel capacity *)
  l_closed : bool
}.

Definition newListener (buffer : nat) : listener :=
  {| l_claims := []; l_failures := []; l_cap := buffer; l_closed := false |}.

(** A non-blocking send: dropped when closed or full. *)
Definition listener_dispatchClaim (claim : Claim) (l : listener) : listener :=
  if l_closed l then l
  else if Nat.ltb (length (l_claims l)) (l_cap l)
  then {| l_claims := l_claims l ++ [claim]; l_failures := l_failures l; l_cap := l_cap l; l_closed := false |}
  else l.

Definition listener_dispatchFailure (f : ElectionFailed) (l : listener) : listener :=
  if l_closed l then l
  else if Nat.ltb (length (l_failures l)) (l_cap l)
  then {| l_claims := l_claims l; l_failures := l_failures l ++ [f]; l_cap := l_cap l; l_closed := false |}
  else l.

Definition listener_close (l : listener) : listener :=
  {| l_claims := l_claims l; l_failures := l_failures l; l_cap := l_cap l; l_closed := true |}.

(** A message received for a key nobody listens on: a claim or a failure. *)
Inductive payload := PClaimMsg (c : Claim) | PFailedMsg (f : ElectionFailed).
Record bufferedMessage := { receivedAt : Time; body : payload }.

Definition bufferTTL : Duration := 3 * second.
Definition maxAge : Duration := 30 * second.

Record ClusterTopic := {
  t_clusterPath : string;
  t_nodeID : string;
  t_signer : option Signer;
  t_verifier : option Verifier;
  t_objects : gmap lid listener;           (** every listener ever created *)
  t_listeners : gmap messageKey lid;
  t_buffered : gmap messageKey (list bufferedMessage)
}.

Definition with_tables (o : gmap lid listener) (l : gmap messageKey lid) (b : gmap messageKey (list bufferedMessage))
  (t : ClusterTopic) : ClusterTopic :=
  {| t_clusterPath := t_clusterPath t; t_nodeID := t_nodeID t; t_signer := t_signer t; t_verifier := t_verifier t;
     t_objects := o; t_listeners := l; t_buffered := b |}.

Definition NewClusterTopic (clusterPath nodeID : string) (signer : option Signer) (verifier : option Verifier) : ClusterTopic :=
  {| t_clusterPath := clusterPath; t_nodeID := nodeID; t_signer := signer; t_verifier := verifier;
     t_objects := ∅; t_listeners := ∅; t_buffered := ∅ |}.

Definition deliver (msg : payload) : listener -> listener :=
  match msg with PClaimMsg c => listener_dispatchClaim c | PFailedMsg f => listener_dispatchFailure f end.

Definition key_of_payload (msg : payload) : messageKey :=
  match msg with
  | PClaimMsg c => (cl_CapsuleId c, cl_ReplicaId c)
  | PFailedMsg f => (ef_CapsuleId f, ef_ReplicaId f)
  end.

(** ** Listen *)

(** One message reaches one listener; the listener has a lock of its own. *)
Definition deliver_at (l : lid) (msg : payload) (t : ClusterTopic) : ClusterTopic :=
  with_tables (alter (deliver msg) l (t_objects t)) (t_listeners t) (t_buffered t) t.

(** The part of [Listen] under the topic's lock: the listener replaces the one
    of its key, and the buffered messages are taken out of the table. *)
Definition Listen_register (key : messageKey) (bufferSize : Z) (t : ClusterTopic)
  : lid * list bufferedMessage * ClusterTopic :=
  let bufferSize := if bufferSize <=? 0 then 8 else bufferSize in
  let l := fresh (dom (t_objects t)) in
  let objects := match t_listeners t !! key with
                 | Some existing => alter listener_close existing (t_objects t)
                 | None => t_objects t
                 end in
  let queued := default [] (t_buffered t !! key) in
  (l, queued, with_tables (<[l := newListener (Z.to_nat bufferSize)]> objects) (<[key := l]> (t_listeners t))
                (delete key (t_buffered t)) t).

(** The replay after the lock is released, with nothing in between. *)
Definition replay (l : lid) (queued : list bufferedMessage) (t : ClusterTopic) : ClusterTopic :=
  fold_left (fun t m => deliver_at l (body m) t) queued t.

(** [Listen] when no other goroutine runs between its lock and its replay (the
    interleavings are those of [conc_step] below). The result is the listener
    with its cancel function, named by the object's identity. *)
Definition Listen (key : messageKey) (bufferSize : Z) : ST ClusterTopic lid := fun t =>
  let '(l, queued, t) := Listen_register key bufferSize t in (l, replay l queued t).

Definition cancelListen (key : messageKey) (l : lid) (t : ClusterTopic) : ClusterTopic :=
  let listeners := if bool_decide (t_listeners t !! key = Some l) then delete key (t_listeners t) else t_listeners t in
  with_tables (alter listener_close l (t_objects t)) listeners (t_buffered t) t.

(** ** Receiving *)

(** The part of [dispatchClaim] and [dispatchFailure] under the topic's lock, at
    time [now]: the listener to deliver to, or the message is buffered. *)
Definition dispatch_route (now : Time) (msg : payload) (t : ClusterTopic) : option lid * ClusterTopic :=
  let key := key_of_payload msg in
  match t_listeners t !! key with
  | None =>
      let queued := default [] (t_buffered t !! key) in
      (None, with_tables (t_objects t) (t_listeners t)
        (<[key := queued ++ [{| receivedAt := now; body := msg |}]]> (t_buffered t)) t)
  | Some l => (Some l, t)
  end.

Definition dispatch (now : Time) (msg : payload) (t : ClusterTopic) : ClusterTopic :=
  match dispatch_route now msg t with
  | (Some l, t) => deliver_at l msg t
  | (None, t) => t
  end.

Definition topic_dispatchClaim (now : Time) (claim : Claim) : ClusterTopic -> ClusterTopic := dispatch now (PClaimMsg claim).
Definition topic_dispatchFailure (now : Time) (f : ElectionFailed) : ClusterTopic -> ClusterTopic := dispatch now (PFailedMsg f).

Section Wire.
Context `{P : ProtoCodec}.

(** The checks of [handle] before the payload is decoded. *)
Definition accepts (now : Time) (t : ClusterTopic) (envelope : ElectionMessage) : bool :=
  if em_SenderId envelope =s t_nodeID t then false
  else if match em_Timestamp envelope with
          | Some ts => maxAge <? time_Sub now ts
          | None => false
          end then false
  else match t_verifier t with
       | None => true
       | Some verify => verify (em_SenderId envelope) (canonicalContent envelope) (em_Signature envelope)
       end.

Definition handle (now : Time) (data : bytes) (t : ClusterTopic) : ClusterTopic :=
  match unmarshalEnvelope data with
  | None => t
  | Some envelope =>
      if negb (accepts now t envelope) then t
      else if em_Type envelope =s "claim" then
        match unmarshalClaim (em_Payload envelope) with Some c => topic_dispatchClaim now c t | None => t end
      else if em_Type envelope =s "failed" then
        match unmarshalFailed (em_Payload envelope) with Some f => topic_dispatchFailure now f t | None => t end
      else t
  end.

(** One turn of [loop]: messages this host forwarded itself are skipped. *)
Definition receive (now : Time) (receivedFrom : string) (data : bytes) (t : ClusterTopic) : ClusterTopic :=
  if receivedFrom =s t_nodeID t then t else handle now data t.

(** ** Publishing *)

Inductive PublishError := ErrMarshalPayload | ErrSign (e : string) | ErrMarshalEnvelope | ErrPublish (e : string).

(** The bytes handed to the pubsub library, at time [now]. *)
Definition publish (now : Time) (msgType : string) (rawPayload : option bytes) (t : ClusterTopic) : result PublishError bytes :=
  match rawPayload with
  | None => Err ErrMarshalPayload
  | Some raw =>
      let envelope := {| em_Type := msgType; em_Payload := raw; em_SenderId := t_nodeID t;
                         em_Timestamp := Some now; em_Signature := [] |} in
      let signed := match t_signer t with
                    | None => Ok envelope
                    | Some sign =>
                        match sign (canonicalContent envelope) with
                        | Err e => Err (ErrSign e)
                        | Ok sig => Ok {| em_Type := msgType; em_Payload := raw; em_SenderId := t_nodeID t;
                                          em_Timestamp := Some now; em_Signature := sig |}
                        end
                    end in
      match signed with
      | Err e => Err e
      | Ok envelope => match marshalEnvelope envelope with
                       | None => Err ErrMarshalEnvelope
                       | Some data => Ok data
                       end
      end
  end.

Definition PublishClaim (now : Time) (claim : Claim) (t : ClusterTopic) : result PublishError bytes :=
  publish now "claim" (marshalClaim claim) t.
Definition PublishFailure (now : Time) (f : ElectionFailed) (t : ClusterTopic) : result PublishError bytes :=
  publish now "failed" (marshalFailed f) t.

End Wire.

(** ** Sweeping and stopping *)

Definition fresh_messages (cutoff : Time) (msgs : list bufferedMessage) : list bufferedMessage :=
  List.filter (fun m => time_After (receivedAt m) cutoff) msgs.

Definition sweepBuffer (now : Time) (t : ClusterTopic) : ClusterTopic :=
  let cutoff := time_Add now (- bufferTTL) in
  with_tables (t_objects t) (t_listeners t)
    (omap (fun msgs => match fresh_messages cutoff msgs with [] => None | kept => Some kept end) (t_buffered t)) t.

(** [Stop]: every registered listener is closed, the tables are emptied. *)
Definition topic_Stop (t : ClusterTopic) : ClusterTopic :=
  with_tables (map_fold (fun _ l objs => alter listener_close l objs) (t_objects t) (t_listeners t)) ∅ ∅ t.

(** ** The canonical bytes determine the envelope *)

Lemma big_endian_length n z : length (big_endian n z) = n.
Proof. revert z. induction n as [|n IH]; intros z; simpl; [done|]. rewrite length_app, IH. simpl. lia. Qed.

Lemma ascii_of_byte_inj a b : 0 <= a < 256 -> 0 <= b < 256 -> ascii_of_N (Z.to_N a) = ascii_of_N (Z.to_N b) -> a = b.
Proof.
  intros Ha Hb E. apply (f_equal N_of_ascii) in E. rewrite !N_ascii_embedding in E by lia. lia.
Qed.

Lemma big_endian_inj n a b :
  0 <= a < 256 ^ Z.of_nat n -> 0 <= b < 256 ^ Z.of_nat n -> big_endian n a = big_endian n b -> a = b.
Proof.
  revert a b. induction n as [|n IH]; intros a b Ha Hb E.
  - change (256 ^ Z.of_nat 0) with 1 in *. lia.
  - rewrite Nat2Z.inj_succ, Z.pow_succ_r in Ha, Hb by lia. simpl in E.
    apply app_inj_2 in E as [E1 E2]; [|done]. injection E2 as E2.
    apply ascii_of_byte_inj in E2; [|apply Z.mod_pos_bound; lia..].
    apply IH in E1; [|split; [apply Z.div_pos; lia|apply Z.div_lt_upper_bound; lia]..].
    rewrite (Z.div_mod a 256), (Z.div_mod b 256) by lia. lia.
Qed.

(** A field the 32-bit length prefix can describe. *)
Definition short (b : bytes) : Prop := Z.of_nat (length b) < 2 ^ 32.

Lemma field_inj a b x y :
  short a -> short b ->
  big_endian 4 (uint32 (Z.of_nat (length a))) ++ a ++ x = big_endian 4 (uint32 (Z.of_nat (length b))) ++ b ++ y ->
  a = b /\ x = y.
Proof.
  unfold short, uint32. intros Ha Hb E. apply app_inj_1 in E as [E1 E2]; [|by rewrite !big_endian_length].
  rewrite !Z.mod_small in E1 by lia. apply big_endian_inj in E1; [|simpl; lia..].
  apply app_inj_1 in E2 as [E2 E3]; [done|lia].
Qed.

Definition ts_bytes (ts : option Time) : bytes :=
  match ts with None => [] | Some t => big_endian 8 (uint64 (int64 t)) end.

Lemma canonicalContent_unfold msg :
  canonicalContent msg =
  big_endian 4 (uint32 (Z.of_nat (length (list_ascii_of_string (em_Type msg))))) ++ list_ascii_of_string (em_Type msg) ++
  big_endian 4 (uint32 (Z.of_nat (length (em_Payload msg)))) ++ em_Payload msg ++
  big_endian 4 (uint32 (Z.of_nat (length (list_ascii_of_string (em_SenderId msg))))) ++ list_ascii_of_string (em_SenderId msg) ++
  big_endian 4 (uint32 (Z.of_nat (length (ts_bytes (em_Timestamp msg))))) ++ ts_bytes (em_Timestamp msg) ++ [].
Proof. unfold canonicalContent, appendField. rewrite app_nil_l, app_nil_r, <- !app_assoc. by destruct (em_Timestamp msg). Qed.

Lemma ts_bytes_short ts : short (ts_bytes ts).
Proof. unfold short. destruct ts; cbn [ts_bytes]; [rewrite big_endian_length|]; simpl; lia. Qed.

Lemma uint64_inj a b : in_int64 a -> in_int64 b -> uint64 a = uint64 b -> a = b.
Proof.
  unfold in_int64, min_int64, max_int64, uint64. intros Ha Hb E.
  assert (Ea : a mod 2 ^ 64 = if a <? 0 then a + 2 ^ 64 else a).
  { destruct (Z.ltb_spec a 0); [|by rewrite Z.mod_small by lia].
    rewrite <- (Z.mod_add a 1) by lia. rewrite Z.mod_small; lia. }
  assert (Eb : b mod 2 ^ 64 = if b <? 0 then b + 2 ^ 64 else b).
  { destruct (Z.ltb_spec b 0); [|by rewrite Z.mod_small by lia].
    rewrite <- (Z.mod_add b 1) by lia. rewrite Z.mod_small; lia. }
  rewrite Ea, Eb in E. destruct (Z.ltb_spec a 0), (Z.ltb_spec b 0); lia.
Qed.

(** Fields the 32-bit length prefixes can describe. *)
Definition short_fields (msg : ElectionMessage) : Prop :=
  short (list_ascii_of_string (em_Type msg)) /\ short (em_Payload msg) /\ short (list_ascii_of_string (em_SenderId msg)).

Definition fits (msg : ElectionMessage) : Prop :=
  short_fields msg /\ (forall t, em_Timestamp msg = Some t -> in_int64 t).

Lemma list_ascii_inj a b : list_ascii_of_string a = list_ascii_of_string b -> a = b.
Proof. intros E. by rewrite <- (string_of_list_ascii_of_string a), E, string_of_list_ascii_of_string. Qed.

Lemma ts_bytes_nanos a b : ts_bytes a = ts_bytes b <-> (int64 <$> a) = (int64 <$> b).
Proof.
  destruct a as [ta|], b as [tb|]; cbn [ts_bytes fmap option_fmap option_map]; try done. split; [|by intros [= ->]].
  intros E. f_equal. apply uint64_inj; [apply int64_range..|].
  apply (big_endian_inj 8) in E; [done|unfold uint64; change (256 ^ Z.of_nat 8) with (2 ^ 64); apply Z.mod_pos_bound; lia..].
Qed.

Lemma canonicalContent_inj_nanos a b :
  short_fields a -> short_fields b -> canonicalContent a = canonicalContent b ->
  em_Type a = em_Type b /\ em_Payload a = em_Payload b /\ em_SenderId a = em_SenderId b /\
  (int64 <$> em_Timestamp a) = (int64 <$> em_Timestamp b).
Proof.
  intros (A1 & A2 & A3) (B1 & B2 & B3). rewrite !canonicalContent_unfold. intros E.
  apply field_inj in E as [E1 E]; [|done..]. apply field_inj in E as [E2 E]; [|done..].
  apply field_inj in E as [E3 E]; [|done..]. apply field_inj in E as [E4 _]; [|apply ts_bytes_short..].
  split_and!; [by apply list_ascii_inj|done|by apply list_ascii_inj|by apply ts_bytes_nanos].
Qed.

Lemma canonicalContent_nanos a b :
  em_Type a = em_Type b -> em_Payload a = em_Payload b -> em_SenderId a = em_SenderId b ->
  (int64 <$> em_Timestamp a) = (int64 <$> em_Timestamp b) -> canonicalContent a = canonicalContent b.
Proof. intros E1 E2 E3 E4%ts_bytes_nanos. by rewrite !canonicalContent_unfold, E1, E2, E3, E4. Qed.

Lemma canonicalContent_inj a b :
  fits a -> fits b -> canonicalContent a = canonicalContent b ->
  em_Type a = em_Type b /\ em_Payload a = em_Payload b /\ em_SenderId a = em_SenderId b /\ em_Timestamp a = em_Timestamp b.
Proof.
  intros [A1 A2] [B1 B2] E. destruct (canonicalContent_inj_nanos a b A1 B1 E) as (? & ? & ? & Et).
  split_and!; try done. destruct (em_Timestamp a) as [ta|], (em_Timestamp b) as [tb|]; try done.
  injection Et as Et. rewrite !int64_id in Et by auto. by f_equal.
Qed.

(** ** The routing tables *)

Record topic_ok (t : ClusterTopic) : Prop := {
  tok_open : forall k l, t_listeners t !! k = Some l ->
    exists o, t_objects t !! l = Some o /\ l_closed o = false;
  tok_inj : forall k k' l, t_listeners t !! k = Some l -> t_listeners t !! k' = Some l -> k = k';
  tok_exclusive : forall k l, t_listeners t !! k = Some l -> t_buffered t !! k = None;
  tok_nonempty : forall k, t_buffered t !! k <> Some [];
  tok_keys : forall k msgs m, t_buffered t !! k = Some msgs -> m ∈ msgs -> key_of_payload (body m) = k;
  tok_caps : forall l o, t_objects t !! l = Some o ->
    (length (l_claims o) <= l_cap o)%nat /\ (length (l_failures o) <= l_cap o)%nat
}.

Definition listener_fits (o : listener) : Prop :=
  (length (l_claims o) <= l_cap o)%nat /\ (length (l_failures o) <= l_cap o)%nat.

Lemma deliver_spec msg o :
  l_closed (deliver msg o) = l_closed o /\ l_cap (deliver msg o) = l_cap o /\ (listener_fits o -> listener_fits (deliver msg o)).
Proof.
  unfold listener_fits. destruct msg as [c|f]; simpl; unfold listener_dispatchClaim, listener_dispatchFailure;
    destruct (l_closed o) eqn:Ec; try done; destruct (Nat.ltb_spec (length (l_claims o)) (l_cap o));
    destruct (Nat.ltb_spec (length (l_failures o)) (l_cap o)); simpl; rewrite ?Ec, ?length_app; simpl; split_and!; try done; lia.
Qed.

Lemma topic_ok_new cp node s v : topic_ok (NewClusterTopic cp node s v).
Proof. split; simpl; intros *; rewrite ?lookup_empty; done. Qed.

Lemma deliver_at_ok l msg t : topic_ok t -> topic_ok (deliver_at l msg t).
Proof.
  intros [H1 H2 H3 H4 H5 H6]. split; simpl; try done.
  - intros k l' Hl. destruct (H1 _ _ Hl) as (o & Ho & Hc). rewrite lookup_alter. case_decide; [|eauto].
    subst. rewrite Ho. simpl. eexists. split; [done|]. rewrite <- Hc. apply deliver_spec.
  - intros l' o. rewrite lookup_alter. case_decide; [|apply H6]. subst.
    destruct (t_objects t !! l') as [o0|] eqn:E; [|done]. simpl. intros [= <-]. apply deliver_spec. eapply H6; eauto.
Qed.

Lemma dispatch_route_ok now msg t : topic_ok t -> topic_ok (snd (dispatch_route now msg t)).
Proof.
  intros [H1 H2 H3 H4 H5 H6]. unfold dispatch_route. destruct (t_listeners t !! key_of_payload msg) as [l|] eqn:El; [done|].
  split; simpl; try done.
  - intros k l Hl. rewrite lookup_insert. case_decide; [congruence|]. eauto.
  - intros k. rewrite lookup_insert. case_decide; [|apply H4]. intros E. injection E as E. by destruct (default _ _).
  - intros k msgs m. rewrite lookup_insert. case_decide as Hk; [|apply H5]. intros E Hm. injection E as <-.
    subst. apply list_elem_of_In, in_app_or in Hm as [Hm|[<-|[]]]; [|done]. apply list_elem_of_In in Hm.
    destruct (t_buffered t !! key_of_payload msg) as [q|] eqn:Eq; [by eapply H5|by apply not_elem_of_nil in Hm].
Qed.

Lemma dispatch_ok now msg t : topic_ok t -> topic_ok (dispatch now msg t).
Proof.
  intros Hok. pose proof (dispatch_route_ok now msg t Hok) as H. unfold dispatch.
  destruct (dispatch_route now msg t) as [[l|] t']; [by apply deliver_at_ok|done].
Qed.

(** What registering does to the tables. *)
Lemma Listen_register_spec key n t :
  let '(l, queued, t') := Listen_register key n t in
  t_objects t !! l = None /\ queued = default [] (t_buffered t !! key) /\
  t_listeners t' = <[key := l]> (t_listeners t) /\ t_buffered t' = delete key (t_buffered t) /\
  t_objects t' !! l = Some (newListener (Z.to_nat (if n <=? 0 then 8 else n))) /\
  forall l', l' <> l -> t_listeners t !! key <> Some l' -> t_objects t' !! l' = t_objects t !! l'.
Proof.
  unfold Listen_register. cbv zeta. set (l := fresh (dom (t_objects t))).
  split_and!; [apply not_elem_of_dom, is_fresh|done..|apply lookup_insert_eq|]. intros l' Hl' Hk. simpl.
  rewrite lookup_insert_ne by congruence. destruct (t_listeners t !! key) as [e|]; [|done].
  rewrite lookup_alter_ne by congruence. done.
Qed.

Lemma Listen_register_ok key n t : topic_ok t -> topic_ok (snd (Listen_register key n t)).
Proof.
  intros Hok. pose proof Hok as [H1 H2 H3 H4 H5 H6]. pose proof (Listen_register_spec key n t) as Hs.
  assert (Hfit : forall l o, t_objects (snd (Listen_register key n t)) !! l = Some o -> listener_fits o).
  { unfold Listen_register, listener_fits. simpl. intros l o. rewrite lookup_insert. case_decide; [intros [= <-]; simpl; lia|].
    destruct (t_listeners t !! key) as [e|]; [|apply H6]. rewrite lookup_alter. case_decide; [|apply H6].
    subst. destruct (t_objects t !! l) as [o0|] eqn:E; [|done]. intros [= <-]. apply (H6 l o0 E). }
  destruct (Listen_register key n t) as [[l q] t']. destruct Hs as (Hfresh & _ & El & Eb & Eo & Hold). cbn [snd] in *.
  assert (Hnol : forall k, t_listeners t !! k <> Some l).
  { intros k Hk. destruct (H1 _ _ Hk) as (o & Ho & _). congruence. }
  split; try done; rewrite ?El, ?Eb.
  - intros k l'. rewrite lookup_insert. case_decide as E; [intros [= <-]; by eexists|].
    intros Hl. destruct (H1 _ _ Hl) as (o & Ho & Hc). exists o. rewrite Hold; [done|by intros ->; eapply Hnol|].
    intros Hk. apply E. eapply H2; eauto.
  - intros k k' l'. rewrite !lookup_insert. repeat case_decide; subst; try done; intros Ha Hb; simplify_eq.
    + by destruct (Hnol k').
    + by destruct (Hnol k).
    + eauto.
  - intros k l'. rewrite lookup_insert, lookup_delete. repeat case_decide; try done. eauto.
  - intros k. rewrite lookup_delete. case_decide; [done|]. apply H4.
  - intros k msgs m. rewrite lookup_delete. case_decide; [done|]. apply H5.
Qed.

Lemma replay_ok l q t : topic_ok t -> topic_ok (replay l q t).
Proof. revert t. induction q as [|m q IH]; intros t Hok; simpl; [done|]. by apply IH, deliver_at_ok. Qed.

Lemma Listen_ok key n t : topic_ok t -> topic_ok (snd (Listen key n t)).
Proof.
  intros Hok. pose proof (Listen_register_ok key n t Hok) as H. unfold Listen.
  destruct (Listen_register key n t) as [[l q] t']. simpl in *. by apply replay_ok.
Qed.

Lemma cancelListen_ok key l t : topic_ok t -> (t_listeners t !! key = Some l \/ forall k, t_listeners t !! k <> Some l) ->
  topic_ok (cancelListen key l t).
Proof.
  intros [H1 H2 H3 H4 H5 H6] Hl. unfold cancelListen.
  set (ls := if bool_decide (t_listeners t !! key = Some l) then delete key (t_listeners t) else t_listeners t).
  assert (Hls : forall k l', ls !! k = Some l' -> t_listeners t !! k = Some l' /\ l' <> l).
  { intros k l'. unfold ls. case_bool_decide as Hk.
    - rewrite lookup_delete. case_decide as Hne; [done|]. intros Hl'. split; [done|]. intros ->. apply Hne. eapply H2; eauto.
    - intros Hl'. split; [done|]. intros ->. destruct Hl as [?|Hno]; [done|by eapply Hno]. }
  split; simpl; try done.
  - intros k l' Hk. destruct (Hls _ _ Hk) as [Hk' Hne]. rewrite lookup_alter_ne by done. eauto.
  - intros k k' l' Hk Hk'. destruct (Hls _ _ Hk), (Hls _ _ Hk'). eauto.
  - intros k l' Hk. destruct (Hls _ _ Hk). eauto.
  - intros l' o. rewrite lookup_alter. case_decide; [|apply H6]. subst.
    destruct (t_objects t !! l') as [o0|] eqn:E; [|done]. intros [= <-]. apply (H6 l' o0 E).
Qed.

Lemma sweepBuffer_lookup now t k :
  t_buffered (sweepBuffer now t) !! k =
  t_buffered t !! k ≫= fun msgs => match fresh_messages (now - bufferTTL) msgs with [] => None | kept => Some kept end.
Proof. simpl. by rewrite lookup_omap. Qed.

Lemma sweepBuffer_ok now t : topic_ok t -> topic_ok (sweepBuffer now t).
Proof.
  intros [H1 H2 H3 H4 H5 H6].
  assert (Hsub : forall k msgs, t_buffered (sweepBuffer now t) !! k = Some msgs ->
    exists old, t_buffered t !! k = Some old /\ msgs = fresh_messages (now - bufferTTL) old /\ msgs <> []).
  { intros k msgs. rewrite sweepBuffer_lookup. destruct (t_buffered t !! k) as [old|]; [|done]. simpl.
    destruct (fresh_messages _ old) eqn:E; [done|]. intros [= <-]. exists old. by rewrite E. }
  split; try done.
  - intros k l Hk. rewrite sweepBuffer_lookup. by rewrite (H3 _ _ Hk).
  - intros k Hk. by destruct (Hsub _ _ Hk) as (_ & _ & _ & []).
  - intros k msgs m Hk Hm. destruct (Hsub _ _ Hk) as (old & Ho & -> & _). apply list_elem_of_In, filter_In in Hm as [Hm _].
    eapply H5; [exact Ho|]. by apply list_elem_of_In.
Qed.

Lemma topic_Stop_ok t : topic_ok t -> topic_ok (topic_Stop t).
Proof.
  intros [H1 H2 H3 H4 H5 H6]. split; simpl; try (intros *; rewrite ?lookup_empty; done).
  apply (map_fold_weak_ind (fun (objs : gmap lid listener) (_ : gmap messageKey lid) =>
    forall l o, objs !! l = Some o -> listener_fits o)); [exact H6|].
  intros k l m objs _ IH l' o. rewrite lookup_alter. case_decide; [|apply IH]. subst.
  destruct (objs !! l') as [o0|] eqn:E; [|done]. intros [= <-]. apply (IH l' o0 E).
Qed.

Section WireFacts.
Context `{P : ProtoCodec}.

(** [handle] drops the message or dispatches one decoded payload. *)
Lemma handle_dispatch now data t : handle now data t = t \/ exists msg, handle now data t = dispatch now msg t.
Proof. unfold handle, topic_dispatchClaim, topic_dispatchFailure. repeat case_match; eauto. Qed.

(** The operations of a topic as one step. *)
Inductive topic_op :=
  | TListen (key : messageKey) (n : Z)
  | TCancel (key : messageKey) (l : lid)
  | TReceive (now : Time) (from : string) (data : bytes)
  | TSweep (now : Time)
  | TStop.

Definition run_topic (op : topic_op) (t : ClusterTopic) : ClusterTopic :=
  match op with
  | TListen key n => snd (Listen key n t)
  | TCancel key l => cancelListen key l t
  | TReceive now from data => receive now from data t
  | TSweep now => sweepBuffer now t
  | TStop => topic_Stop t
  end.

(** A listener is cancelled under the key it was returned for. *)
Definition own_cancel (op : topic_op) (t : ClusterTopic) : Prop :=
  match op with
  | TCancel key l => t_listeners t !! key = Some l \/ forall k, t_listeners t !! k <> Some l
  | _ => True
  end.

(** The routing tables stay consistent under every operation: a
    registered listener is open and registered once, a key with a listener
    has nothing left in the buffer, the buffer has no empty entries and files
    every message under its own key, and no channel exceeds its capacity. *)
Theorem topic_ops_keep_tables op t (Hok : topic_ok t) (Huse : own_cancel op t) : topic_ok (run_topic op t).
Proof.
  destruct op as [key n|key l|now from data|now|]; simpl in *.
  - by apply Listen_ok.
  - by apply cancelListen_ok.
  - unfold receive. destruct (from =s t_nodeID t); [done|].
    destruct (handle_dispatch now data t) as [->|[msg ->]]; [done|by apply dispatch_ok].
  - by apply sweepBuffer_ok.
  - by apply topic_Stop_ok.
Qed.

End WireFacts.

(** ** No message is lost before its round listens *)

Definition claims_for (key : messageKey) (msgs : list payload) : list Claim :=
  omap (fun m => match m with PClaimMsg c => if bool_decide (key_of_payload m = key) then Some c else None | _ => None end) msgs.
Definition failures_for (key : messageKey) (msgs : list payload) : list ElectionFailed :=
  omap (fun m => match m with PFailedMsg f => if bool_decide (key_of_payload m = key) then Some f else None | _ => None end) msgs.

(** What an open listener of capacity [n] holds after seeing [msgs]. *)
Definition saw (n : nat) (key : messageKey) (msgs : list payload) (o : listener) : Prop :=
  l_closed o = false /\ l_cap o = n /\
  l_claims o = take n (claims_for key msgs) /\ l_failures o = take n (failures_for key msgs).

Lemma take_snoc {A} n (l : list A) x :
  take n (l ++ [x]) = if Nat.ltb (length (take n l)) n then take n l ++ [x] else take n l.
Proof.
  rewrite length_take. destruct (Nat.ltb_spec (Nat.min n (length l)) n).
  - rewrite (take_ge l) by lia. apply take_ge. rewrite length_app. simpl. lia.
  - rewrite take_app_le by lia. done.
Qed.

Lemma claims_for_snoc key msgs m : claims_for key (msgs ++ [m]) = claims_for key msgs ++ claims_for key [m].
Proof. apply omap_app. Qed.
Lemma failures_for_snoc key msgs m : failures_for key (msgs ++ [m]) = failures_for key msgs ++ failures_for key [m].
Proof. apply omap_app. Qed.

Lemma deliver_saw n key msgs m o :
  key_of_payload m = key -> saw n key msgs o -> saw n key (msgs ++ [m]) (deliver m o).
Proof.
  intros Hk (H1 & H2 & H3 & H4). unfold saw. rewrite claims_for_snoc, failures_for_snoc.
  destruct (deliver_spec m o) as (-> & -> & _). split_and!; [done|done|..].
  - destruct m as [c|f]; simpl.
    + rewrite bool_decide_eq_true_2 by done. unfold listener_dispatchClaim. rewrite H1, take_snoc, H2, H3.
      destruct (Nat.ltb _ _); simpl; by rewrite ?H3.
    + rewrite app_nil_r. unfold listener_dispatchFailure. rewrite H1. by destruct (Nat.ltb _ _).
  - destruct m as [c|f]; simpl.
    + rewrite app_nil_r. unfold listener_dispatchClaim. rewrite H1. by destruct (Nat.ltb _ _).
    + rewrite bool_decide_eq_true_2 by done. unfold listener_dispatchFailure. rewrite H1, take_snoc, H2, H4.
      destruct (Nat.ltb _ _); simpl; by rewrite ?H4.
Qed.

Lemma skip_saw n key msgs m o : key_of_payload m <> key -> saw n key msgs o -> saw n key (msgs ++ [m]) o.
Proof.
  intros Hk (H1 & H2 & H3 & H4). unfold saw. rewrite claims_for_snoc, failures_for_snoc.
  destruct m; simpl; rewrite bool_decide_eq_false_2 by done; rewrite ?app_nil_r; done.
Qed.

(** ** The goroutines of a topic

    [Listen] holds the lock only while it registers, so that the receive loop
    can deliver live messages before and between the replayed ones; the loop
    itself looks the listener up under the lock and delivers to it later. A
    state is the topic with what [Listen] calls have still to replay, the one
    delivery the loop may be about to do, and the key each cancel function is
    for. *)
Record Conc := {
  c_topic : ClusterTopic;
  c_replay : gmap lid (list bufferedMessage);
  c_inflight : option (lid * payload);
  c_keys : gmap lid messageKey
}.

Inductive conc_event :=
  | EListen (key : messageKey) (n : Z)     (** [Listen] up to its unlock *)
  | EReplay (l : lid)                      (** it replays one message *)
  | EArrive (now : Time) (msg : payload)   (** the loop, up to the unlock *)
  | EDeliver                               (** the loop delivers *)
  | ESweep (now : Time)
  | ECancel (l : lid).

(** [None]: the goroutine is not at that point. *)
Definition conc_step (e : conc_event) (c : Conc) : option Conc :=
  match e with
  | EListen key n =>
      let '(l, queued, t) := Listen_register key n (c_topic c) in
      Some {| c_topic := t; c_replay := <[l := queued]> (c_replay c); c_inflight := c_inflight c;
              c_keys := <[l := key]> (c_keys c) |}
  | EReplay l =>
      match c_replay c !! l with
      | Some (m :: rest) =>
          Some {| c_topic := deliver_at l (body m) (c_topic c); c_replay := <[l := rest]> (c_replay c);
                  c_inflight := c_inflight c; c_keys := c_keys c |}
      | _ => None
      end
  | EArrive now msg =>
      match c_inflight c with
      | Some _ => None
      | None =>
          let '(l, t) := dispatch_route now msg (c_topic c) in
          Some {| c_topic := t; c_replay := c_replay c; c_inflight := (fun l => (l, msg)) <$> l; c_keys := c_keys c |}
      end
  | EDeliver =>
      match c_inflight c with
      | Some (l, msg) =>
          Some {| c_topic := deliver_at l msg (c_topic c); c_replay := c_replay c; c_inflight := None; c_keys := c_keys c |}
      | None => None
      end
  | ESweep now =>
      Some {| c_topic := sweepBuffer now (c_topic c); c_replay := c_replay c; c_inflight := c_inflight c; c_keys := c_keys c |}
  | ECancel l =>
      match c_keys c !! l with
      | Some key =>
          Some {| c_topic := cancelListen key l (c_topic c); c_replay := c_replay c; c_inflight := c_inflight c; c_keys := c_keys c |}
      | None => None
      end
  end.

Fixpoint conc_run (es : list conc_event) (c : Conc) : option Conc :=
  match es with
  | [] => Some c
  | e :: es => conc_step e c ≫= conc_run es
  end.

Definition conc_ok (c : Conc) : Prop :=
  topic_ok (c_topic c) /\ (forall k l, t_listeners (c_topic c) !! k = Some l -> c_keys c !! l = Some k) /\
  forall l msg, c_inflight c = Some (l, msg) -> is_Some (t_objects (c_topic c) !! l).

(** Listener objects are never dropped. *)
Lemma conc_step_objects e c c' l :
  conc_step e c = Some c' -> is_Some (t_objects (c_topic c) !! l) -> is_Some (t_objects (c_topic c') !! l).
Proof.
  intros E Hl. rewrite <- !elem_of_dom in *. destruct e as [key n|l'|now msg| |now|l']; simpl in E.
  - injection E as <-. simpl. rewrite dom_insert_L. destruct (t_listeners _ !! key); rewrite ?dom_alter_L; set_solver.
  - destruct (c_replay c !! l') as [[|m rest]|]; try done. injection E as <-. simpl. by rewrite dom_alter_L.
  - destruct (c_inflight c); [done|]. unfold dispatch_route in E.
    destruct (t_listeners (c_topic c) !! key_of_payload msg); by injection E as <-.
  - destruct (c_inflight c) as [[l' msg]|]; [|done]. injection E as <-. simpl. by rewrite dom_alter_L.
  - by injection E as <-.
  - destruct (c_keys c !! l'); [|done]. injection E as <-. simpl. by rewrite dom_alter_L.
Qed.

(** A delivery in flight was in flight before, or is to a registered listener. *)
Lemma conc_step_inflight e c c' l msg :
  conc_step e c = Some c' -> c_inflight c' = Some (l, msg) ->
  c_inflight c = Some (l, msg) \/ t_listeners (c_topic c) !! key_of_payload msg = Some l.
Proof.
  intros E. destruct e as [key n|l'|now m| |now|l']; simpl in E.
  - injection E as <-. by left.
  - destruct (c_replay c !! l') as [[|b rest]|]; try done. injection E as <-. by left.
  - destruct (c_inflight c); [done|]. unfold dispatch_route in E.
    destruct (t_listeners (c_topic c) !! key_of_payload m) as [lk|] eqn:El; injection E as <-; simpl; [|done].
    intros [= -> ->]. by right.
  - destruct (c_inflight c) as [[l' m]|]; [|done]. by injection E as <-.
  - injection E as <-. by left.
  - destruct (c_keys c !! l'); [|done]. injection E as <-. by left.
Qed.

Lemma conc_step_ok e c c' : conc_ok c -> conc_step e c = Some c' -> conc_ok c'.
Proof.
  intros (Hok & Hk & Hi) E. apply and_assoc. split.
  2:{ intros l msg Hl. destruct (conc_step_inflight e c c' l msg E Hl) as [Hl'|Hl']; [apply (conc_step_objects e c c' l E); by apply (Hi l msg)|].
      destruct (tok_open _ Hok _ _ Hl') as (o & Ho & _). by apply (conc_step_objects e c c' l E), (mk_is_Some _ o). }
  destruct e as [key n|l|now msg| |now|l]; cbn [conc_step] in E.
  - pose proof (Listen_register_ok key n _ Hok) as Hok'. pose proof (Listen_register_spec key n (c_topic c)) as Hs.
    destruct (Listen_register key n (c_topic c)) as [[l q] t']. destruct Hs as (Hf & _ & El & _). injection E as <-. split; [exact Hok'|].
    intros k l'. simpl. rewrite El, !lookup_insert. repeat case_decide; subst; intros Hl; simplify_eq; try done; [|eauto].
    destruct (tok_open _ Hok _ _ Hl) as (o & Ho & _). congruence.
  - destruct (c_replay c !! l) as [[|m rest]|]; try done. simplify_eq. split; [by apply deliver_at_ok|done].
  - destruct (c_inflight c); [done|]. pose proof (dispatch_route_ok now msg _ Hok) as Hok'.
    unfold dispatch_route in *. destruct (t_listeners (c_topic c) !! key_of_payload msg); simplify_eq; by split.
  - destruct (c_inflight c) as [[l msg]|]; [|done]. simplify_eq. split; [by apply deliver_at_ok|done].
  - simplify_eq. split; [by apply sweepBuffer_ok|done].
  - destruct (c_keys c !! l) as [key|] eqn:Ek; [|done]. simplify_eq. split.
    + apply cancelListen_ok; [done|]. destruct (decide (t_listeners (c_topic c) !! key = Some l)) as [?|Hn]; [by left|].
      right. intros k Hl. pose proof (Hk _ _ Hl). congruence.
    + intros k l'. simpl. case_bool_decide; [|apply Hk]. rewrite lookup_delete. case_decide; [done|]. apply Hk.
Qed.

(** ** Late listeners *)

(** [zs] is [xs] and [ys], each in its order, in some interleaving. *)
Inductive merges {A} : list A -> list A -> list A -> Prop :=
  | merges_nil : merges [] [] []
  | merges_left xs ys zs x : merges xs ys zs -> merges (xs ++ [x]) ys (zs ++ [x])
  | merges_right xs ys zs y : merges xs ys zs -> merges xs (ys ++ [y]) (zs ++ [y]).

(** The messages of a key that arrive, in order. *)
Definition arrivals (key : messageKey) (es : list conc_event) : list payload :=
  omap (fun e => match e with
                 | EArrive _ msg => if bool_decide (key_of_payload msg = key) then Some msg else None
                 | _ => None
                 end) es.

(** No sweep comes three seconds or more after [at_]. *)
Definition outlives (at_ : Time) (es : list conc_event) : bool :=
  forallb (fun e => match e with ESweep now => now - at_ <? bufferTTL | _ => true end) es.

(** The messages of a key that arrive and are not swept away by the end. *)
Fixpoint survivors (key : messageKey) (es : list conc_event) : list payload :=
  match es with
  | [] => []
  | EArrive now msg :: es =>
      if bool_decide (key_of_payload msg = key) && outlives now es then msg :: survivors key es else survivors key es
  | _ :: es => survivors key es
  end.

(** The event neither registers for [key] nor cancels [l]. *)
Definition leaves_alone (key : messageKey) (l : option lid) (e : conc_event) : Prop :=
  match e with EListen k _ => k <> key | ECancel l' => l <> Some l' | _ => True end.

Definition outliving (es : list conc_event) (msgs : list bufferedMessage) : list bufferedMessage :=
  List.filter (fun m => outlives (receivedAt m) es) msgs.

Lemma outliving_cons e es msgs :
  outliving (e :: es) msgs =
  outliving es (List.filter (fun m => match e with ESweep now => now - receivedAt m <? bufferTTL | _ => true end) msgs).
Proof.
  unfold outliving. induction msgs as [|m msgs IH]; [done|]. cbn [List.filter]. rewrite IH. unfold outlives at 1.
  cbn [forallb]. fold (outlives (receivedAt m) es). destruct e; try done. destruct (_ <? _); done.
Qed.

Lemma filter_all {A} (l : list A) : List.filter (fun _ => true) l = l.
Proof. induction l; simpl; congruence. Qed.

Lemma sweepBuffer_default now t key :
  default [] (t_buffered (sweepBuffer now t) !! key) =
  List.filter (fun m => now - receivedAt m <? bufferTTL) (default [] (t_buffered t !! key)).
Proof.
  rewrite sweepBuffer_lookup.
  assert (Hf : forall msgs, fresh_messages (now - bufferTTL) msgs = List.filter (fun m => now - receivedAt m <? bufferTTL) msgs).
  { intros msgs. apply filter_ext. intros m. unfold time_After.
    destruct (Z.ltb_spec (now - bufferTTL) (receivedAt m)), (Z.ltb_spec (now - receivedAt m) bufferTTL); lia. }
  destruct (t_buffered t !! key) as [msgs|]; simpl; [|done]. rewrite <- Hf. by destruct (fresh_messages _ _).
Qed.

(** One step before anybody listens: only arrivals and sweeps touch the buffer of the key. *)
Lemma conc_step_buffer key e c c' :
  t_listeners (c_topic c) !! key = None -> leaves_alone key None e -> conc_step e c = Some c' ->
  t_listeners (c_topic c') !! key = None /\
  default [] (t_buffered (c_topic c') !! key) =
    List.filter (fun m => match e with ESweep now => now - receivedAt m <? bufferTTL | _ => true end)
      (default [] (t_buffered (c_topic c) !! key)) ++
    match e with
    | EArrive now msg => if bool_decide (key_of_payload msg = key) then [{| receivedAt := now; body := msg |}] else []
    | _ => []
    end.
Proof.
  intros Hl Ha E. destruct e as [k n|l|now msg| |now|l]; simpl in E, Ha |- *; rewrite ?filter_all, ?app_nil_r.
  - unfold Listen_register in E. simplify_eq. simpl. rewrite lookup_insert_ne, lookup_delete_ne by done. done.
  - destruct (c_replay c !! l) as [[|m rest]|]; by simplify_eq.
  - destruct (c_inflight c); [done|]. unfold dispatch_route in E. case_bool_decide as Hk.
    + rewrite Hk, Hl in E. simplify_eq. simpl. rewrite lookup_insert_eq. done.
    + destruct (t_listeners (c_topic c) !! key_of_payload msg); simplify_eq; simpl;
        rewrite ?lookup_insert_ne by done; by rewrite app_nil_r.
  - destruct (c_inflight c) as [[l msg]|]; by simplify_eq.
  - simplify_eq. split; [done|]. apply sweepBuffer_default.
  - destruct (c_keys c !! l); [|done]. simplify_eq. simpl. split; [|done].
    case_bool_decide; [|done]. rewrite lookup_delete. by case_decide.
Qed.

Lemma conc_run_buffer key es c c' :
  t_listeners (c_topic c) !! key = None -> Forall (leaves_alone key None) es -> conc_run es c = Some c' ->
  t_listeners (c_topic c') !! key = None /\
  map body (default [] (t_buffered (c_topic c') !! key)) =
    map body (outliving es (default [] (t_buffered (c_topic c) !! key))) ++ survivors key es.
Proof.
  revert c. induction es as [|e es IH]; intros c Hl Ha E; simpl in E.
  - simplify_eq. unfold outliving; simpl. by rewrite filter_all, app_nil_r.
  - inversion_clear Ha as [|? ? He Hes]. apply bind_Some in E as (c1 & E1 & E).
    destruct (conc_step_buffer key e c c1 Hl He E1) as [Hl1 Hb1]. destruct (IH c1 Hl1 Hes E) as [H1 ->]. split; [done|].
    rewrite Hb1, outliving_cons. unfold outliving. rewrite List.filter_app, map_app, <- app_assoc. f_equal.
    destruct e as [| |now msg| | |]; simpl; try done. case_bool_decide; simpl; [|done]. by destruct (outlives now es).
Qed.

Lemma conc_run_ok es c c' : conc_ok c -> conc_run es c = Some c' -> conc_ok c'.
Proof.
  revert c. induction es as [|e es IH]; intros c Hok E; simpl in E; [by simplify_eq|].
  apply bind_Some in E as (c1 & E1 & E). eauto using conc_step_ok.
Qed.

(** A listener of capacity [n] while it is registered: [q] was buffered for it,
    [live] arrived since, and [m] has been delivered. *)
Definition listening (n : nat) (key : messageKey) (l : lid) (q live : list payload) (c : Conc) : Prop :=
  t_listeners (c_topic c) !! key = Some l /\
  exists o rest replayed delivered m,
    t_objects (c_topic c) !! l = Some o /\ c_replay c !! l = Some rest /\ q = replayed ++ map body rest /\
    Forall (fun b => key_of_payload (body b) = key) rest /\
    live = delivered ++ match c_inflight c with
                        | Some (l', msg) => if decide (l' = l) then [msg] else []
                        | None => []
                        end /\
    (forall msg, c_inflight c = Some (l, msg) -> key_of_payload msg = key) /\
    merges replayed delivered m /\ saw n key m o.

Lemma conc_step_listening n key l q live e c c' :
  conc_ok c -> listening n key l q live c -> leaves_alone key (Some l) e -> conc_step e c = Some c' ->
  listening n key l q (live ++ arrivals key [e]) c'.
Proof.
  intros (Hok & Hkeys & _) (Hl & o & rest & rd & dl & m & Ho & Hr & Eq & Hrest & El & Hin & Hm & Hs) Ha E. unfold listening.
  assert (Hother : forall k l', t_listeners (c_topic c) !! k = Some l' -> k <> key -> l' <> l).
  { intros k l' Hk Hne ->. apply Hne. exact (tok_inj _ Hok _ _ _ Hk Hl). }
  destruct e as [k n'|l'|now msg| |now|l']; cbn [conc_step] in E; simpl in Ha |- *; rewrite ?app_nil_r.
  - pose proof (Listen_register_spec k n' (c_topic c)) as Hreg.
    destruct (Listen_register k n' (c_topic c)) as [[lk qk] tk]. destruct Hreg as (Hf & _ & Elk & _ & _ & Hold).
    injection E as <-. cbn [c_topic c_replay c_inflight].
    assert (l <> lk) by congruence. rewrite Elk, lookup_insert_ne by done. split; [done|].
    exists o, rest, rd, dl, m. rewrite lookup_insert_ne by done. split_and!; try done. rewrite Hold; [done..|].
    intros Hk. by eapply Hother.
  - destruct (c_replay c !! l') as [[|b rest']|] eqn:Er; try done. injection E as <-. cbn [c_topic c_replay c_inflight]. simpl.
    split; [done|]. rewrite lookup_alter, lookup_insert. destruct (decide (l' = l)) as [->|Hne].
    + rewrite Hr in Er. injection Er as ->. inversion_clear Hrest as [|? ? Hb Hrest'].
      exists (deliver (body b) o), rest', (rd ++ [body b]), dl, (m ++ [body b]). rewrite Ho.
      split_and!; try done; [by rewrite Eq, <- app_assoc|by constructor|by apply deliver_saw].
    + exists o, rest, rd, dl, m. split_and!; done.
  - destruct (c_inflight c) eqn:Ei; [done|]. rewrite app_nil_r in El. subst dl. unfold dispatch_route in E.
    case_bool_decide as Hk.
    + rewrite Hk, Hl in E. injection E as <-. simpl. split; [done|].
      exists o, rest, rd, live, m. rewrite decide_True by done. split_and!; try done. by intros ? [= <-].
    + rewrite app_nil_r. destruct (t_listeners (c_topic c) !! key_of_payload msg) as [l'|] eqn:El'; injection E as <-; simpl.
      * split; [done|]. exists o, rest, rd, live, m. pose proof (Hother _ _ El' Hk).
        rewrite decide_False, app_nil_r by done. split_and!; try done. congruence.
      * split; [done|]. exists o, rest, rd, live, m. by rewrite app_nil_r.
  - destruct (c_inflight c) as [[l' msg]|] eqn:Ei; [|done]. injection E as <-. simpl. split; [done|].
    rewrite lookup_alter. destruct (decide (l' = l)) as [->|Hne].
    + exists (deliver msg o), rest, rd, live, (m ++ [msg]). rewrite Ho, app_nil_r, El.
      split_and!; try done; [by constructor|apply deliver_saw; [by apply Hin|done]].
    + rewrite app_nil_r in El. exists o, rest, rd, dl, m. rewrite app_nil_r. by split_and!.
  - injection E as <-. split; [done|]. exists o, rest, rd, dl, m. by split_and!.
  - destruct (c_keys c !! l') as [k|] eqn:Ek; [|done]. injection E as <-. cbn [c_topic c_replay c_inflight]. simpl.
    assert (Hne : l' <> l) by congruence. split.
    + case_bool_decide as Hb; [|done]. rewrite lookup_delete_ne; [done|]. intros ->. congruence.
    + exists o, rest, rd, dl, m. rewrite lookup_alter_ne by done. by split_and!.
Qed.

Lemma conc_run_listening n key l q es : forall live c c',
  conc_ok c -> listening n key l q live c -> Forall (leaves_alone key (Some l)) es -> conc_run es c = Some c' ->
  listening n key l q (live ++ arrivals key es) c'.
Proof.
  induction es as [|e es IH]; intros live c c' Hok Hl Ha E; simpl in E; [simplify_eq; by rewrite app_nil_r|].
  inversion_clear Ha as [|? ? He Hes]. apply bind_Some in E as (c1 & E1 & E).
  pose proof (conc_step_listening _ _ _ _ _ _ _ _ Hok Hl He E1) as Hl1.
  pose proof (IH _ _ _ (conc_step_ok _ _ _ Hok E1) Hl1 Hes E) as H.
  rewrite <- app_assoc in H. unfold arrivals in H at 1 2. rewrite <- (omap_app _ [e] es) in H. exact H.
Qed.

(** C5: starting to listen late loses only what the buffer's lifetime
    and the channel's capacity take. Messages for a slot nobody listens on
    arrive, sweeps of the buffer run in between; then a round registers, and
    its replay interleaves with further arrivals, their deliveries, sweeps and
    whatever happens to other slots. When the replay is done and the loop has
    no delivery left, and before the round reads, its channels hold the first
    claims and failures, up to the capacity, of a merge of the buffered messages
    that no sweep found three seconds old and of all messages that arrived
    since, each in order of arrival (a live message can overtake buffered
    ones); as long as nobody else registers for the slot or cancels the
    listener. *)
Theorem topic_listen_misses_nothing c key n before c1 after c2
    (Hok : conc_ok c) (Hl : t_listeners (c_topic c) !! key = None) (Hb : t_buffered (c_topic c) !! key = None)
    (Hn : 0 < n) (Hbefore : Forall (leaves_alone key None) before) (Hrun1 : conc_run before c = Some c1) :
  let l := fst (Listen key n (c_topic c1)) in
  Forall (leaves_alone key (Some l)) after -> conc_run (EListen key n :: after) c1 = Some c2 ->
  c_replay c2 !! l = Some [] -> c_inflight c2 = None ->
  exists o m, t_objects (c_topic c2) !! l = Some o /\ merges (survivors key before) (arrivals key after) m /\
    l_claims o = take (Z.to_nat n) (claims_for key m) /\ l_failures o = take (Z.to_nat n) (failures_for key m).
Proof.
  intros l Ha Hrun2 Hdone Hidle. pose proof (conc_run_ok _ _ _ Hok Hrun1) as Hok1.
  destruct (conc_run_buffer key before c c1 Hl Hbefore Hrun1) as [Hl1 Hb1]. rewrite Hb in Hb1. simpl in Hb1.
  cbn [conc_run conc_step] in Hrun2. apply bind_Some in Hrun2 as (c1' & E1 & Hrun2).
  assert (Hlist : listening (Z.to_nat n) key l (survivors key before) [] c1').
  { pose proof (Listen_register_spec key n (c_topic c1)) as Hreg. revert E1. unfold l, Listen.
    destruct (Listen_register key n (c_topic c1)) as [[l' q'] t']. destruct Hreg as (Hf & Eq & El & Eb & Eo & _).
    intros [= <-]. simpl. destruct (Z.leb_spec n 0); [lia|].
    assert (Hinfl : forall msg, c_inflight c1 <> Some (l', msg)).
    { intros msg Hi. destruct Hok1 as (_ & _ & Hd). destruct (Hd _ _ Hi). congruence. }
    split; [simpl; rewrite El; apply lookup_insert_eq|].
    exists (newListener (Z.to_nat n)), q', [], [], []. simpl. rewrite lookup_insert_eq. split_and!; try done.
    - by rewrite Eq.
    - rewrite Eq. apply Forall_forall. intros b Hbin. apply list_elem_of_In in Hbin. destruct Hok1 as (Hok1 & _).
      destruct (t_buffered (c_topic c1) !! key) eqn:Ebk; [by eapply (tok_keys _ Hok1)|by apply not_elem_of_nil in Hbin].
    - destruct (c_inflight c1) as [[l0 msg]|]; [|done]. destruct (decide (l0 = l')) as [->|]; [by destruct (Hinfl msg)|done].
    - intros msg Hi. by destruct (Hinfl msg).
    - constructor.
    - unfold saw; simpl. by rewrite !take_nil. }
  destruct (conc_run_listening _ _ _ _ _ _ _ _ (conc_step_ok (EListen key n) _ _ Hok1 E1) Hlist Ha Hrun2)
    as (_ & o & rest & rd & dl & m & Ho & Hr & Eq & _ & El & _ & Hm & _ & _ & Hc & Hf).
  exists o, m. rewrite Hidle, app_nil_r in El. rewrite Hdone in Hr. injection Hr as <-. simpl in Eq.
  rewrite app_nil_r in Eq. subst. by split_and!.
Qed.

(** A sweep keeps precisely the messages younger than the TTL,
    in their order, and leaves the listeners alone. *)
Theorem topic_sweep_keeps_fresh t now :
  let t' := sweepBuffer now t in
  t_listeners t' = t_listeners t /\ t_objects t' = t_objects t /\
  forall key, default [] (t_buffered t' !! key) =
    List.filter (fun m => now - receivedAt m <? bufferTTL) (default [] (t_buffered t !! key)).
Proof.
  split_and!; [done..|]. intros key. apply sweepBuffer_default.
Qed.

(** ** Signed messages *)

Section Signed.
Context `{P : ProtoCodec} `{!ProtoLaws P}.

(** C10: what the signed bytes determine, exactly. Two envelopes whose
    type, payload and sender are each shorter than 4 GiB have the same canonical
    bytes if and only if type, payload and sender are the same and the
    timestamps are both absent or have the same [UnixNano], the 64-bit count of
    nanoseconds, which wraps around. So a signature cannot be moved to another
    type, payload or sender, nor to another time of the years 1678 to 2262. *)
Theorem canonical_bytes_injective a b (Ha : short_fields a) (Hb : short_fields b) :
  canonicalContent a = canonicalContent b <->
  em_Type a = em_Type b /\ em_Payload a = em_Payload b /\ em_SenderId a = em_SenderId b /\
  (int64 <$> em_Timestamp a) = (int64 <$> em_Timestamp b).
Proof. split; [by apply canonicalContent_inj_nanos|]. intros (? & ? & ? & ?). by apply canonicalContent_nanos. Qed.

(** The envelope with its timestamp moved by 2^64 nanoseconds, 584 years. *)
Definition postdated (e : ElectionMessage) : ElectionMessage :=
  {| em_Type := em_Type e; em_Payload := em_Payload e; em_SenderId := em_SenderId e;
     em_Timestamp := (fun ts => ts + 2 ^ 64) <$> em_Timestamp e; em_Signature := em_Signature e |}.

Lemma postdated_content e : canonicalContent (postdated e) = canonicalContent e.
Proof.
  apply canonicalContent_nanos; try done. destruct e as [? ? ? [ts|] ?]; simpl; [|done]. f_equal.
  unfold int64, wrap. replace (ts + 2 ^ 64 + 2 ^ (64 - 1)) with (ts + 2 ^ (64 - 1) + 1 * 2 ^ 64) by lia. by rewrite Z.mod_add.
Qed.

(** C36: old messages can be replayed. The age of a message is not
    limited by its signature: move the timestamp of a signed message, however
    old it is (up to 584 years), by 2^64 nanoseconds into the future. The
    signature, over a count of nanoseconds that wraps around, is still that of
    the changed message, and the check of its age only looks for timestamps
    that are too far in the past: the topic accepts it. *)
Theorem topic_stale_message_replayed now t e verify ts
    (Hv : t_verifier t = Some verify) (Hsender : em_SenderId e <> t_nodeID t) (Hts : em_Timestamp e = Some ts)
    (Hsig : verify (em_SenderId e) (canonicalContent e) (em_Signature e) = true) (Hage : now - ts <= 2 ^ 64) :
  accepts now t (postdated e) = true /\
  (accepts now t e = true <-> now - ts <= maxAge).
Proof.
  assert (Hm : min_int64 < maxAge < max_int64) by (unfold maxAge, min_int64, max_int64, second, millisecond, microsecond; lia).
  unfold accepts. rewrite Hv, postdated_content. cbn [postdated em_SenderId em_Timestamp em_Signature]. rewrite Hts. simpl.
  destruct (String.eqb_spec (em_SenderId e) (t_nodeID t)); [done|]. rewrite !time_Sub_gt by lia. rewrite Hsig.
  destruct (Z.ltb_spec maxAge (now - (ts + 2 ^ 64))); [unfold maxAge, second, millisecond, microsecond in *; lia|].
  destruct (Z.ltb_spec maxAge (now - ts)); split; try done; lia.
Qed.

(** The receiver checks no signatures, or trusts the publisher's key. *)
Definition trusts (tB tA : ClusterTopic) : Prop :=
  match t_verifier tB with
  | None => True
  | Some verify => exists sign, t_signer tA = Some sign /\
      forall content sig, sign content = Ok sig -> verify (t_nodeID tA) content sig = true
  end.

Lemma publish_receive tA tB now now' msgType raw data from :
  publish now msgType raw tA = Ok data -> t_nodeID tA <> t_nodeID tB -> from <> t_nodeID tB -> now' - now <= maxAge ->
  trusts tB tA ->
  exists payload envelope, raw = Some payload /\ unmarshalEnvelope data = Some envelope /\
    em_Type envelope = msgType /\ em_Payload envelope = payload /\ em_SenderId envelope = t_nodeID tA /\
    accepts now' tB envelope = true /\ receive now' from data tB = handle now' data tB.
Proof.
  intros Hpub Hne Hfrom Hage Htrust. unfold publish in Hpub. destruct raw as [payload|]; [|done].
  assert (Hacc : forall sig, match t_verifier tB with
      | None => True
      | Some verify => verify (t_nodeID tA) (canonicalContent {| em_Type := msgType; em_Payload := payload;
          em_SenderId := t_nodeID tA; em_Timestamp := Some now; em_Signature := [] |}) sig = true end ->
    accepts now' tB {| em_Type := msgType; em_Payload := payload; em_SenderId := t_nodeID tA;
                       em_Timestamp := Some now; em_Signature := sig |} = true).
  { intros sig Hv. unfold accepts. simpl em_SenderId. simpl em_Timestamp. simpl em_Signature.
    destruct (String.eqb_spec (t_nodeID tA) (t_nodeID tB)); [done|].
    rewrite time_Sub_gt by (unfold maxAge, min_int64, max_int64, second, millisecond, microsecond; lia).
    destruct (Z.ltb_spec maxAge (now' - now)); [lia|]. by destruct (t_verifier tB). }
  assert (Hrec : receive now' from data tB = handle now' data tB).
  { unfold receive. by destruct (String.eqb_spec from (t_nodeID tB)). }
  unfold trusts in Htrust.
  destruct (t_signer tA) as [sign|] eqn:Es.
  - destruct (sign _) as [sig|e] eqn:Esig; [|done]. destruct (marshalEnvelope _) as [b|] eqn:Em; [|done].
    simplify_eq. apply envelope_roundtrip in Em. do 2 eexists. split_and!; [done|exact Em|done..| |done].
    apply Hacc. destruct (t_verifier tB) as [verify|]; [|done]. destruct Htrust as (s & [= <-] & Hs). by apply Hs.
  - destruct (marshalEnvelope _) as [b|] eqn:Em; [|done].
    simplify_eq. apply envelope_roundtrip in Em. do 2 eexists. split_and!; [done|exact Em|done..| |done].
    apply Hacc. destruct (t_verifier tB) as [verify|]; [|done]. by destruct Htrust as (s & ? & _).
Qed.

Lemma claim_delivered tA tB now now' claim data from :
  PublishClaim now claim tA = Ok data -> t_nodeID tA <> t_nodeID tB -> from <> t_nodeID tB -> now' - now <= maxAge ->
  trusts tB tA -> receive now' from data tB = dispatch now' (PClaimMsg claim) tB.
Proof.
  intros Hp Hne Hfrom Hage Ht.
  destruct (publish_receive tA tB now now' "claim" (marshalClaim claim) data from Hp Hne Hfrom Hage Ht)
    as (pl & env & Hraw & Hun & Hty & Hpl & _ & Hacc & ->).
  apply claim_roundtrip in Hraw. unfold handle. rewrite Hun, Hacc, Hty, Hpl, Hraw. done.
Qed.

(** What a node publishes, its peers receive: a claim
    published and received within 30 seconds by a peer that trusts the
    publisher's key is dispatched unchanged to the round it is for. *)
Theorem topic_published_claim_delivered tA tB now now' claim data from
    (Hpub : PublishClaim now claim tA = Ok data) (Hne : t_nodeID tA <> t_nodeID tB)
    (Hfrom : from <> t_nodeID tB) (Hage : now' - now <= maxAge) (Htrust : trusts tB tA) :
  receive now' from data tB = topic_dispatchClaim now' claim tB.
Proof. by apply (claim_delivered tA tB now). Qed.

(** With a verifier that only accepts what the named
    sender signed, every message that changes the topic's state is a fresh
    envelope from another node whose canonical bytes that sender signed. *)
Theorem topic_only_signed_messages_count now from data t verify (signed : string -> bytes -> Prop)
    (Hv : t_verifier t = Some verify)
    (Hunforge : forall s c sig, verify s c sig = true -> signed s c)
    (Hchange : receive now from data t <> t) :
  exists e, unmarshalEnvelope data = Some e /\ em_SenderId e <> t_nodeID t /\
    signed (em_SenderId e) (canonicalContent e) /\
    (forall ts, em_Timestamp e = Some ts -> now - ts <= maxAge).
Proof.
  unfold receive in Hchange. destruct (from =s t_nodeID t); [done|].
  unfold handle in Hchange. destruct (unmarshalEnvelope data) as [e|]; [|done]. exists e. split; [done|].
  destruct (accepts now t e) eqn:Ha; [|done]. unfold accepts in Ha. rewrite Hv in Ha.
  destruct (String.eqb_spec (em_SenderId e) (t_nodeID t)); [done|].
  split; [done|]. destruct (em_Timestamp e) as [ts|]; [|split; [by eapply Hunforge|done]].
  rewrite time_Sub_gt in Ha by (unfold maxAge, min_int64, max_int64, second, millisecond, microsecond; lia).
  destruct (Z.ltb_spec maxAge (now - ts)); [done|]. split; [by eapply Hunforge|]. by intros ? [= <-].
Qed.

(** The node a claim names is not compared with the
    node that signed it: a claim a node publishes in another node's name is
    dispatched to its peers' rounds like that node's own. *)
Theorem topic_claim_names_unchecked tA tB now claim data from victim
    (Hpub : PublishClaim now claim tA = Ok data) (Hne : t_nodeID tA <> t_nodeID tB)
    (Hfrom : from <> t_nodeID tB) (Htrust : trusts tB tA)
    (Hvictim : cl_NodeId claim = victim) (Hother : victim <> t_nodeID tA)
    (l : lid) (o : listener) (Hl : t_listeners tB !! (cl_CapsuleId claim, cl_ReplicaId claim) = Some l)
    (Ho : t_objects tB !! l = Some o) (Hopen : l_closed o = false) (Hroom : (length (l_claims o) < l_cap o)%nat) :
  exists o', t_objects (receive now from data tB) !! l = Some o' /\ claim ∈ l_claims o' /\ cl_NodeId claim = victim.
Proof.
  rewrite (claim_delivered tA tB now now claim data from) by (done || (unfold maxAge, second, millisecond, microsecond; lia)).
  change (t_listeners tB !! key_of_payload (PClaimMsg claim) = Some l) in Hl.
  unfold dispatch, dispatch_route. cbv zeta. rewrite Hl. simpl. rewrite lookup_alter_eq, Ho. simpl. eexists. split; [done|].
  unfold listener_dispatchClaim. rewrite Hopen. destruct (Nat.ltb_spec (length (l_claims o)) (l_cap o)); [|lia]. simpl.
  split; [|done]. apply list_elem_of_In, in_or_app. right. by left.
Qed.

End Signed.

(** ** Concrete topics *)

Module TopicDemo.

#[local] Instance f64_eq_dec : EqDecision f64.
Proof. solve_decision. Defined.
#[local] Instance claim_eq_dec : EqDecision Claim.
Proof. solve_decision. Defined.
#[local] Instance message_eq_dec : EqDecision ElectionMessage.
Proof. solve_decision. Defined.

(** Node [n1] claims slot 0 of [c1] in the name of [n9]. *)
Definition demo_claim : Claim :=
  {| cl_CapsuleId := "c1"; cl_ReplicaId := "0"; cl_ClusterPath := "us/dc1/prod"; cl_NodeId := "n9";
     cl_GravityScore := f100; cl_TimestampMicros := 0 |}.

Definition demo_sign : Signer := fun content => Ok (Ascii.zero :: content).
Definition demo_verify : Verifier := fun _ content sig => bool_decide (sig = Ascii.zero :: content).

Definition demo_envelope : ElectionMessage :=
  let e := {| em_Type := "claim"; em_Payload := list_ascii_of_string "claim"; em_SenderId := "n1";
              em_Timestamp := Some 0; em_Signature := [] |} in
  {| em_Type := "claim"; em_Payload := list_ascii_of_string "claim"; em_SenderId := "n1";
     em_Timestamp := Some 0; em_Signature := Ascii.zero :: canonicalContent e |}.

(** A codec for these two messages; it refuses all others. *)
Definition demo_proto : ProtoCodec := {|
  marshalEnvelope := fun m => if decide (m = demo_envelope) then Some [Ascii.one] else None;
  unmarshalEnvelope := fun _ => Some demo_envelope;
  marshalClaim := fun c => if decide (c = demo_claim) then Some (list_ascii_of_string "claim") else None;
  unmarshalClaim := fun _ => Some demo_claim;
  marshalFailed := fun _ => None;
  unmarshalFailed := fun _ => None |}.

Lemma demo_proto_laws : ProtoLaws demo_proto.
Proof. split; simpl; intros *; try case_decide; naive_solver. Qed.

#[local] Existing Instance demo_proto.
#[local] Existing Instance demo_proto_laws.

Definition topic_A : ClusterTopic := NewClusterTopic "us/dc1/prod" "n1" (Some demo_sign) None.
Definition topic_B : ClusterTopic :=
  snd (Listen ("c1", "0") 16 (NewClusterTopic "us/dc1/prod" "n2" None (Some demo_verify))).

Lemma demo_published : PublishClaim 0 demo_claim topic_A = Ok [Ascii.one].
Proof. vm_compute. reflexivity. Qed.

Lemma demo_trusts : trusts topic_B topic_A.
Proof. exists demo_sign. split; [reflexivity|]. intros content sig [= <-]. by apply bool_decide_eq_true_2. Qed.

Lemma topic_B_ok : topic_ok topic_B.
Proof. apply Listen_ok, topic_ok_new. Qed.

Lemma topic_ops_keep_tables_witness : topic_ok (run_topic (TReceive 0 "n1" [Ascii.one]) topic_B).
Proof. apply (topic_ops_keep_tables (TReceive 0 "n1" [Ascii.one]) topic_B topic_B_ok). exact I. Defined.

(** A claim is swept away, another one is buffered; after the registration a
    live claim overtakes the buffered one. *)
Definition scored (score : Z) : payload :=
  PClaimMsg {| cl_CapsuleId := "c1"; cl_ReplicaId := "0"; cl_ClusterPath := "us/dc1/prod"; cl_NodeId := "n1";
               cl_GravityScore := f64_of_Z score; cl_TimestampMicros := 0 |}.

Definition demo_conc : Conc := {| c_topic := topic_A; c_replay := ∅; c_inflight := None; c_keys := ∅ |}.
Definition demo_before : list conc_event := [EArrive 0 (scored 1); EArrive (2 * second) (scored 2); ESweep (3 * second)].
Definition demo_after : list conc_event := [EArrive (4 * second) (scored 3); EDeliver; EReplay 1%positive].

Definition demo_conc1 : Conc := default demo_conc (conc_run demo_before demo_conc).
Definition demo_conc2 : Conc := default demo_conc (conc_run (EListen ("c1", "0") 8 :: demo_after) demo_conc1).

Lemma topic_listen_misses_nothing_witness :
  exists o m, t_objects (c_topic demo_conc2) !! 1%positive = Some o /\ merges [scored 2] [scored 3] m /\
    l_claims o = take 8 (claims_for ("c1", "0") m) /\ PClaimMsg <$> l_claims o = [scored 3; scored 2].
Proof.
  destruct (topic_listen_misses_nothing demo_conc ("c1", "0") 8 demo_before demo_conc1 demo_after demo_conc2)
    as (o & m & Ho & Hm & Hc & _).
  - split; [exact (topic_ok_new _ _ _ _)|]. split; intros k l; [intros Hk; discriminate Hk|discriminate].
  - reflexivity.
  - reflexivity.
  - lia.
  - repeat constructor.
  - reflexivity.
  - repeat constructor.
  - reflexivity.
  - vm_compute. reflexivity.
  - reflexivity.
  - exists o, m. split; [exact Ho|]. split; [exact Hm|]. split; [exact Hc|].
    vm_compute in Ho. injection Ho as <-. vm_compute. reflexivity.
Defined.

(** Signing an envelope changes nothing that is signed. *)
Definition demo_signed : ElectionMessage :=
  {| em_Type := em_Type demo_envelope; em_Payload := em_Payload demo_envelope; em_SenderId := em_SenderId demo_envelope;
     em_Timestamp := em_Timestamp demo_envelope; em_Signature := [Ascii.one] |}.

Lemma canonical_bytes_injective_witness :
  canonicalContent demo_signed = canonicalContent demo_envelope /\ em_SenderId demo_signed = em_SenderId demo_envelope /\
  em_Signature demo_signed <> em_Signature demo_envelope.
Proof.
  assert (Hf : short_fields demo_envelope /\ short_fields demo_signed).
  { unfold short_fields, short. split; split_and!; vm_compute; reflexivity. }
  destruct (proj1 (canonical_bytes_injective demo_signed demo_envelope (proj2 Hf) (proj1 Hf)) eq_refl) as (_ & _ & H & _).
  split; [reflexivity|]. split; [exact H|vm_compute; discriminate].
Defined.

Lemma topic_stale_message_replayed_witness :
  accepts (3600 * second) topic_B demo_envelope = false /\ accepts (3600 * second) topic_B (postdated demo_envelope) = true.
Proof.
  split; [vm_compute; reflexivity|].
  apply (topic_stale_message_replayed (3600 * second) topic_B demo_envelope demo_verify 0);
    [reflexivity|discriminate|reflexivity|vm_compute; reflexivity|vm_compute; discriminate].
Defined.

Lemma topic_published_claim_delivered_witness :
  receive second "n1" [Ascii.one] topic_B = topic_dispatchClaim second demo_claim topic_B.
Proof.
  apply (topic_published_claim_delivered topic_A topic_B 0 second demo_claim [Ascii.one] "n1" demo_published);
    [discriminate|discriminate|vm_compute; discriminate|exact demo_trusts].
Defined.

Lemma topic_only_signed_messages_count_witness :
  exists e, unmarshalEnvelope [Ascii.one] = Some e /\ em_SenderId e = "n1".
Proof.
  destruct (topic_only_signed_messages_count 0 "n1" [Ascii.one] topic_B demo_verify
    (fun s c => exists sig, demo_verify s c sig = true) eq_refl) as (e & He & _).
  - intros s c sig Hv. exists sig. exact Hv.
  - intros E. apply (f_equal (fun t => l_claims <$> t_objects t !! 1%positive)) in E. vm_compute in E. discriminate E.
  - exists e. split; [exact He|]. injection He as <-. reflexivity.
Defined.

Lemma topic_claim_names_unchecked_witness :
  exists l o', t_objects (receive 0 "n1" [Ascii.one] topic_B) !! l = Some o' /\ demo_claim ∈ l_claims o' /\
    cl_NodeId demo_claim = "n9".
Proof.
  exists 1%positive.
  apply (topic_claim_names_unchecked topic_A topic_B 0 demo_claim [Ascii.one] "n1" "n9" demo_published
    ltac:(discriminate) ltac:(discriminate) demo_trusts eq_refl ltac:(discriminate) 1%positive (newListener 16));
    vm_compute; try reflexivity; lia.
Defined.

End TopicDemo.
