(* ===== verification/Momentum.v ===== *)
(** * Capsule momentum: [capsule/momentum/momentum.go] and [adjuster.go]

    A [Tracker] keeps one capsule's momentum between two bounds; the
    [Adjuster] holds the trackers of the running capsules, moves them on
    traffic, failures and idleness, and reports every change as an event.
    Trackers are shared by pointer, so the adjuster's table maps capsule IDs
    to tracker identities and the trackers live in a heap.  Each method runs
    under the tracker's or the adjuster's lock and is one step; every
    [time.Now()] is an argument. *)

From S2P Require Import Prelude CapsuleTypes.
Local Open Scope string_scope.
Local Open Scope list_scope.
Local Open Scope Z_scope.

(** ** Tracker *)

Record Tracker := {
  tr_capsuleID : CapsuleID;
  tr_state : MomentumState;
  tr_config : MomentumConfig;
  minMomentum : Z; maxMomentum : Z;       (** int32 *)
  boostAmount : Z; reduceAmount : Z       (** int32 *)
}.

Definition with_state (s : MomentumState) (t : Tracker) : Tracker :=
  {| tr_capsuleID := tr_capsuleID t; tr_state := s; tr_config := tr_config t; minMomentum := minMomentum t;
     maxMomentum := maxMomentum t; boostAmount := boostAmount t; reduceAmount := reduceAmount t |}.

Definition WithTrackerCapsuleID (id : CapsuleID) (t : Tracker) : Tracker :=
  {| tr_capsuleID := id; tr_state := tr_state t; tr_config := tr_config t; minMomentum := minMomentum t;
     maxMomentum := maxMomentum t; boostAmount := boostAmount t; reduceAmount := reduceAmount t |}.
Definition WithMinMomentum (min : Z) (t : Tracker) : Tracker :=
  {| tr_capsuleID := tr_capsuleID t; tr_state := tr_state t; tr_config := tr_config t; minMomentum := min;
     maxMomentum := maxMomentum t; boostAmount := boostAmount t; reduceAmount := reduceAmount t |}.
Definition WithMaxMomentum (max : Z) (t : Tracker) : Tracker :=
  {| tr_capsuleID := tr_capsuleID t; tr_state := tr_state t; tr_config := tr_config t; minMomentum := minMomentum t;
     maxMomentum := max; boostAmount := boostAmount t; reduceAmount := reduceAmount t |}.
Definition WithBoostAmount (amount : Z) (t : Tracker) : Tracker :=
  {| tr_capsuleID := tr_capsuleID t; tr_state := tr_state t; tr_config := tr_config t; minMomentum := minMomentum t;
     maxMomentum := maxMomentum t; boostAmount := amount; reduceAmount := reduceAmount t |}.
Definition WithReduceAmount (amount : Z) (t : Tracker) : Tracker :=
  {| tr_capsuleID := tr_capsuleID t; tr_state := tr_state t; tr_config := tr_config t; minMomentum := minMomentum t;
     maxMomentum := maxMomentum t; boostAmount := boostAmount t; reduceAmount := amount |}.

Definition NewTracker (now : Time) (config : MomentumConfig) (opts : list (Tracker -> Tracker)) : Tracker :=
  fold_left (fun t opt => opt t) opts
    {| tr_capsuleID := ""; tr_config := config;
       tr_state := {| ms_Current := mc_Base config; ms_Base := mc_Base config; ms_LastAdjusted := now |};
       minMomentum := 0; maxMomentum := 100; boostAmount := 5; reduceAmount := 5 |}.

Definition NewTrackerFromTier (now : Time) (tier : Tier) (opts : list (Tracker -> Tracker)) : Tracker :=
  NewTracker now {| mc_Base := Tier_BaseMomentum tier; mc_BoostOnTraffic := true; mc_ReduceOnIdle := true;
                    mc_IdleTimeout := 5 * minute |} opts.

Definition Current (t : Tracker) : Z := ms_Current (tr_state t).

Definition clamp (t : Tracker) (value : Z) : Z :=
  if value <? minMomentum t then minMomentum t
  else if maxMomentum t <? value then maxMomentum t
  else value.

(** The assignment pair that ends [Boost], [Reduce], [Set] and [Reset]. *)
Definition adjust (now : Time) (v : Z) (t : Tracker) : Tracker :=
  with_state {| ms_Current := v; ms_Base := ms_Base (tr_state t); ms_LastAdjusted := now |} t.

Definition Boost (now : Time) : ST Tracker bool := fun t =>
  if negb (mc_BoostOnTraffic (tr_config t)) then (false, t)
  else
    let t' := adjust now (clamp t (int32 (Current t + boostAmount t))) t in
    (negb (Current t' =? Current t), t').

Definition Reduce (now : Time) : ST Tracker bool := fun t =>
  if negb (mc_ReduceOnIdle (tr_config t)) then (false, t)
  else
    let t' := adjust now (clamp t (int32 (Current t - reduceAmount t))) t in
    (negb (Current t' =? Current t), t').

Definition Tracker_Set (now : Time) (value : Z) (t : Tracker) : Tracker := adjust now (clamp t value) t.
Definition Tracker_Reset (now : Time) (t : Tracker) : Tracker := adjust now (ms_Base (tr_state t)) t.

Definition IsIdle (now : Time) (t : Tracker) : bool :=
  if mc_IdleTimeout (tr_config t) =? 0 then false
  else mc_IdleTimeout (tr_config t) <? time_Sub now (ms_LastAdjusted (tr_state t)).

(** ** Adjuster *)

Record AdjustmentEvent := {
  ae_CapsuleID : CapsuleID;
  ae_OldValue : Z; ae_NewValue : Z;
  ae_Reason : string;
  ae_Timestamp : Time
}.

Definition tid : Type := positive.   (** identity of a tracker object *)

Record Adjuster := {
  heap : gmap tid Tracker;
  trackers : gmap CapsuleID tid;
  handled : list AdjustmentEvent   (** the events given to the handler, in order *)
}.

Definition NewAdjuster : Adjuster := {| heap := ∅; trackers := ∅; handled := [] |}.

Definition Register (id : CapsuleID) (p : tid) (a : Adjuster) : Adjuster :=
  {| heap := heap a; trackers := <[id := p]> (trackers a); handled := handled a |}.
Definition Unregister (id : CapsuleID) (a : Adjuster) : Adjuster :=
  {| heap := heap a; trackers := delete id (trackers a); handled := handled a |}.
Definition GetTracker (id : CapsuleID) (a : Adjuster) : option tid := trackers a !! id.

(** The shared tail of [OnTraffic], [OnFailure] and [checkIdle]: adjust the
    tracker and, when its value changed, hand an event to the handler. *)
Definition notify (id : CapsuleID) (reason : string) (stamp : Time) (p : tid) (op : ST Tracker bool)
    (a : Adjuster) : Adjuster :=
  match heap a !! p with
  | None => a
  | Some t =>
      let '(changed, t') := op t in
      {| heap := <[p := t']> (heap a); trackers := trackers a;
         handled := if changed
                    then handled a ++ [{| ae_CapsuleID := id; ae_OldValue := Current t; ae_NewValue := Current t';
                                          ae_Reason := reason; ae_Timestamp := stamp |}]
                    else handled a |}
  end.

Definition OnTraffic (now now' : Time) (id : CapsuleID) (a : Adjuster) : Adjuster :=
  match trackers a !! id with
  | None => a
  | Some p => notify id "traffic_boost" now' p (Boost now) a
  end.

Definition OnFailure (now now' : Time) (id : CapsuleID) (a : Adjuster) : Adjuster :=
  match trackers a !! id with
  | None => a
  | Some p => notify id "failure_reduce" now' p (Reduce now) a
  end.

Section Idle.
Context `{GoRange}.

(** One iteration of the loop of [checkIdle]; [later] is the clock reading
    inside [Reduce]. *)
Definition check_one (now later : Time) (id : CapsuleID) (p : tid) (a : Adjuster) : Adjuster :=
  match heap a !! p with
  | None => a
  | Some t => if IsIdle now t then notify id "idle_reduce" now p (Reduce later) a else a
  end.

Definition checkIdle (now : Time) (later : CapsuleID -> Time) (a : Adjuster) : Adjuster :=
  fold_left (fun a '(id, p) => check_one now (later id) id p a) (range (trackers a)) a.

End Idle.

(** ** Bounds of a tracker *)

Record tracker_ok (t : Tracker) : Prop := {
  tko_bounds : minMomentum t <= maxMomentum t;
  tko_base : minMomentum t <= ms_Base (tr_state t) <= maxMomentum t;
  tko_current : minMomentum t <= Current t <= maxMomentum t
}.

(** The arithmetic of the tracker stays inside an [int32]. *)
Definition no_overflow (t : Tracker) : Prop :=
  0 <= boostAmount t /\ 0 <= reduceAmount t /\
  in_int32 (maxMomentum t + boostAmount t) /\ in_int32 (minMomentum t - reduceAmount t).

Lemma clamp_bounds t v : minMomentum t <= maxMomentum t -> minMomentum t <= clamp t v <= maxMomentum t.
Proof. unfold clamp. intros. split_bools; lia. Qed.

Lemma clamp_spec t v : minMomentum t <= maxMomentum t -> clamp t v = Z.max (minMomentum t) (Z.min (maxMomentum t) v).
Proof. unfold clamp. intros. split_bools; lia. Qed.

Lemma adjust_ok now v t : tracker_ok t -> minMomentum t <= v <= maxMomentum t -> tracker_ok (adjust now v t).
Proof. by intros [] ?. Qed.
#[export] Hint Resolve adjust_ok clamp_bounds tko_bounds tko_base : falak.

Lemma Boost_ok now t : tracker_ok t -> tracker_ok (snd (Boost now t)).
Proof. unfold Boost. destruct (negb _); simpl; auto with falak. Qed.

Lemma Reduce_ok now t : tracker_ok t -> tracker_ok (snd (Reduce now t)).
Proof. unfold Reduce. destruct (negb _); simpl; auto with falak. Qed.

Lemma Set_ok now v t : tracker_ok t -> tracker_ok (Tracker_Set now v t).
Proof. unfold Tracker_Set. auto with falak. Qed.

Lemma Reset_ok now t : tracker_ok t -> tracker_ok (Tracker_Reset now t).
Proof. unfold Tracker_Reset. auto with falak. Qed.

Lemma NewTrackerFromTier_ok now tier : tracker_ok (NewTrackerFromTier now tier []).
Proof. unfold NewTrackerFromTier, Tier_BaseMomentum. repeat case_match; split; vm_compute; split || idtac; discriminate. Qed.

Lemma Current_adjust now v t : Current (adjust now v t) = v.
Proof. reflexivity. Qed.

(** Within its bounds a tracker counts as on unbounded integers. *)
Lemma Boost_value now t :
  tracker_ok t -> no_overflow t -> mc_BoostOnTraffic (tr_config t) = true ->
  Current (snd (Boost now t)) = Z.min (maxMomentum t) (Current t + boostAmount t).
Proof.
  intros [Hb _ Hc] (H1 & H2 & H3 & H4) Hon. unfold in_int32 in *. unfold Boost. rewrite Hon. cbn [negb snd]. rewrite Current_adjust.
  rewrite clamp_spec by done. rewrite int32_id by (unfold in_int32; lia). lia.
Qed.

Lemma Reduce_value now t :
  tracker_ok t -> no_overflow t -> mc_ReduceOnIdle (tr_config t) = true ->
  Current (snd (Reduce now t)) = Z.max (minMomentum t) (Current t - reduceAmount t).
Proof.
  intros [Hb _ Hc] (H1 & H2 & H3 & H4) Hon. unfold in_int32 in *. unfold Reduce. rewrite Hon. cbn [negb snd]. rewrite Current_adjust.
  rewrite clamp_spec by done. rewrite int32_id by (unfold in_int32; lia). lia.
Qed.

(** ** What the adjuster reports *)

(** No two capsules share a tracker object. *)
Definition distinct (a : Adjuster) : Prop :=
  forall id id' p, trackers a !! id = Some p -> trackers a !! id' = Some p -> id = id'.

Definition value_of (a : Adjuster) (id : CapsuleID) : option Z :=
  p ← trackers a !! id; t ← heap a !! p; Some (Current t).

(** The momentum an observer of the events computes for a capsule. *)
Definition replay (id : CapsuleID) : list AdjustmentEvent -> Z -> Z :=
  fold_left (fun v e => if ae_CapsuleID e =s id then ae_NewValue e else v).

(** The events of a capsule form a chain of real changes from [v]. *)
Fixpoint chain (id : CapsuleID) (v : Z) (evs : list AdjustmentEvent) : Prop :=
  match evs with
  | [] => True
  | e :: evs' =>
      if ae_CapsuleID e =s id
      then ae_OldValue e = v /\ ae_NewValue e <> v /\ chain id (ae_NewValue e) evs'
      else chain id v evs'
  end.

(** From [a] to [a'] every change of a value was reported, and nothing else. *)
Definition reported (a a' : Adjuster) : Prop :=
  trackers a' = trackers a /\
  exists evs, handled a' = handled a ++ evs /\
    forall id v, value_of a id = Some v -> chain id v evs /\ value_of a' id = Some (replay id evs v).

Lemma chain_app id v e1 e2 : chain id v (e1 ++ e2) <-> chain id v e1 /\ chain id (replay id e1 v) e2.
Proof. revert v. induction e1 as [|e e1 IH]; intros v; simpl; [naive_solver|]. destruct (_ =s id); rewrite IH; naive_solver. Qed.

Lemma reported_refl a : reported a a.
Proof. split; [done|]. exists []. split; [by rewrite app_nil_r|]. by intros. Qed.

Lemma reported_trans a b c : reported a b -> reported b c -> reported a c.
Proof.
  intros (T1 & e1 & H1 & R1) (T2 & e2 & H2 & R2). split; [congruence|]. exists (e1 ++ e2).
  split; [by rewrite H2, H1, app_assoc|]. intros id v Hv. destruct (R1 id v Hv) as [C1 V1].
  destruct (R2 id _ V1) as [C2 V2]. rewrite chain_app. split; [done|]. unfold replay. by rewrite fold_left_app.
Qed.
#[export] Hint Resolve reported_refl : falak.

(** An adjustment that returns whether it changed the value. *)
Definition honest (op : ST Tracker bool) : Prop :=
  forall t, fst (op t) = negb (Current (snd (op t)) =? Current t).

Lemma Boost_honest now : honest (Boost now).
Proof. intros t. unfold Boost. destruct (negb _); simpl; [by rewrite Z.eqb_refl|done]. Qed.

Lemma Reduce_honest now : honest (Reduce now).
Proof. intros t. unfold Reduce. destruct (negb _); simpl; [by rewrite Z.eqb_refl|done]. Qed.
#[export] Hint Resolve Boost_honest Reduce_honest : falak.

Lemma notify_reported id reason stamp p op a :
  distinct a -> trackers a !! id = Some p -> honest op -> reported a (notify id reason stamp p op a).
Proof.
  intros Hd Hp Hop. unfold notify. destruct (heap a !! p) as [t|] eqn:Ht; [|apply reported_refl].
  specialize (Hop t). destruct (op t) as [changed t']. simpl in Hop. split; [done|]. simpl.
  exists (if changed then [{| ae_CapsuleID := id; ae_OldValue := Current t; ae_NewValue := Current t';
                              ae_Reason := reason; ae_Timestamp := stamp |}] else []).
  split; [destruct changed; [done|by rewrite app_nil_r]|]. intros i v. unfold value_of. simpl.
  destruct (trackers a !! i) as [q|] eqn:Hi; [|done]. simpl. destruct (decide (q = p)) as [->|Hne].
  - rewrite (Hd _ _ _ Hi Hp), Ht, lookup_insert_eq. simpl. intros [= <-].
    destruct (Z.eqb_spec (Current t') (Current t)) as [E|E]; subst changed; simpl; [by rewrite E|].
    by rewrite String.eqb_refl.
  - rewrite lookup_insert_ne by done. destruct (heap a !! q); [|done]. simpl. intros [= <-].
    assert (i <> id) by naive_solver. destruct changed; simpl; [|done]. destruct (String.eqb_spec id i); [naive_solver|done].
Qed.

Lemma reported_distinct a a' : reported a a' -> distinct a -> distinct a'.
Proof. intros (T & _) Hd. unfold distinct. by rewrite T. Qed.

(** The signals the adjuster receives. *)
Inductive signal :=
  | STraffic (now now' : Time) (id : CapsuleID)
  | SFailure (now now' : Time) (id : CapsuleID)
  | SIdleTick (now : Time) (later : CapsuleID -> Time).

Section Signals.
Context `{GoRange}.

Definition on_signal (a : Adjuster) (s : signal) : Adjuster :=
  match s with
  | STraffic now now' id => OnTraffic now now' id a
  | SFailure now now' id => OnFailure now now' id a
  | SIdleTick now later => checkIdle now later a
  end.

Lemma check_one_reported now later id p a :
  distinct a -> trackers a !! id = Some p -> reported a (check_one now later id p a).
Proof.
  intros. unfold check_one. destruct (heap a !! p); [|apply reported_refl].
  destruct (IsIdle now _); [by apply notify_reported; auto with falak|apply reported_refl].
Qed.

Lemma checkIdle_reported now later a : distinct a -> reported a (checkIdle now later a).
Proof.
  intros Hd. unfold checkIdle.
  assert (Hl : forall id p, (id, p) ∈ range (trackers a) -> trackers a !! id = Some p) by (intros ??; apply elem_of_range).
  revert Hl. generalize (range (trackers a)) as l. intros l.
  cut (forall b, reported a b -> distinct b -> (forall id p, (id, p) ∈ l -> trackers b !! id = Some p) ->
        reported a (fold_left (fun a '(id, p) => check_one now (later id) id p a) l b)); [eauto using reported_refl|].
  induction l as [|[id p] l IH]; intros b Hb Hdb Hl; [done|]. simpl.
  pose proof (check_one_reported now (later id) id p b Hdb (Hl _ _ (list_elem_of_here _ _))) as Hstep.
  apply IH; [by eapply reported_trans|by eapply reported_distinct|].
  intros i q Hi. destruct Hstep as [-> _]. apply Hl. by right.
Qed.

Lemma on_signal_reported a s : distinct a -> reported a (on_signal a s).
Proof.
  intros Hd. destruct s; simpl; [unfold OnTraffic|unfold OnFailure|by apply checkIdle_reported];
    destruct (trackers a !! id) eqn:E; auto using notify_reported with falak.
Qed.

Lemma signals_reported sigs a : distinct a -> reported a (fold_left on_signal sigs a).
Proof.
  revert a. induction sigs as [|s sigs IH]; intros a Hd; simpl; [apply reported_refl|].
  pose proof (on_signal_reported a s Hd). eapply reported_trans; [done|]. by eapply IH, reported_distinct.
Qed.

(** The adjuster's events are a faithful account: for any
    sequence of traffic, failure and idle signals, in any order of visiting
    the trackers, each capsule's events form a chain of real changes that
    starts at its old momentum, and replaying them gives its new one. *)
Theorem adjuster_events_replay sigs a (Hd : distinct a) :
  exists evs, handled (fold_left on_signal sigs a) = handled a ++ evs /\
    forall id v, value_of a id = Some v ->
      chain id v evs /\ value_of (fold_left on_signal sigs a) id = Some (replay id evs v).
Proof. by destruct (signals_reported sigs a Hd). Qed.

(** ** Idle capsules *)

Lemma check_one_other now later id p q a : q <> p -> heap (check_one now later id p a) !! q = heap a !! q.
Proof.
  intros Hne. unfold check_one, notify. destruct (heap a !! p) as [t|]; [|done]. destruct (IsIdle now t); [|done].
  destruct (Reduce later t) as [changed t']. simpl. by rewrite lookup_insert_ne.
Qed.

Lemma check_one_self now later id p a t :
  heap a !! p = Some t ->
  heap (check_one now later id p a) !! p = Some (if IsIdle now t then snd (Reduce later t) else t).
Proof.
  intros Ht. unfold check_one, notify. rewrite Ht. destruct (IsIdle now t); [|done].
  destruct (Reduce later t) as [changed t'] eqn:E. simpl. by rewrite lookup_insert_eq.
Qed.

Lemma fold_check_other now later l q a :
  q ∉ l.*2 -> heap (fold_left (fun a '(id, p) => check_one now (later id) id p a) l a) !! q = heap a !! q.
Proof.
  revert a. induction l as [|[id p] l IH]; intros a Hq; [done|]. simpl in *.
  apply not_elem_of_cons in Hq as [Hne Hq]. rewrite IH by done. by apply check_one_other.
Qed.

Lemma checkIdle_at now later a id p t :
  distinct a -> trackers a !! id = Some p -> heap a !! p = Some t ->
  heap (checkIdle now later a) !! p = Some (if IsIdle now t then snd (Reduce (later id) t) else t).
Proof.
  intros Hd Hp Ht. unfold checkIdle.
  assert (Hl : forall i q, (i, q) ∈ range (trackers a) -> trackers a !! i = Some q) by (intros ??; apply elem_of_range).
  pose proof (NoDup_range_fst (trackers a)) as Hnd.
  assert (Hin : (id, p) ∈ range (trackers a)) by by apply elem_of_range.
  revert Hl Hnd Hin. generalize (range (trackers a)) as l. intros l Hl Hnd Hin.
  apply list_elem_of_split in Hin as (l1 & l2 & ->). rewrite fold_left_app. simpl.
  assert (Hfresh : (p ∉ l1.*2) /\ (p ∉ l2.*2)).
  { rewrite fmap_app, fmap_cons in Hnd. apply list.NoDup_app in Hnd as (_ & Hn1 & Hn2). inversion_clear Hn2 as [|? ? Hni _].
    split; intros ([i ?] & -> & Hi)%list_elem_of_fmap; simpl in *.
    - assert (i = id) as -> by (eapply Hd; [apply Hl, elem_of_app; by left|done]).
      apply (Hn1 id); [exact (list_elem_of_fmap_2 fst _ _ Hi)|by left].
    - assert (i = id) as -> by (eapply Hd; [apply Hl, elem_of_app; right; by right|done]).
      apply Hni. exact (list_elem_of_fmap_2 fst _ _ Hi). }
  destruct Hfresh as [F1 F2]. rewrite fold_check_other by done. apply check_one_self. by rewrite fold_check_other.
Qed.

(** A run of idle checks for capsule [id]: each finds the last adjustment
    more than [timeout] in the past. *)
Fixpoint spaced (timeout : Duration) (id : CapsuleID) (last : Time) (ticks : list (Time * (CapsuleID -> Time))) : Prop :=
  match ticks with
  | [] => True
  | (now, later) :: ticks' => timeout < now - last /\ spaced timeout id (later id) ticks'
  end.

Definition idle_ticks (a : Adjuster) (ticks : list (Time * (CapsuleID -> Time))) : Adjuster :=
  fold_left (fun a '(now, later) => checkIdle now later a) ticks a.

(** What an idle check needs to find in a tracker to reduce it. *)
Record drains (t : Tracker) : Prop := {
  dr_ok : tracker_ok t;
  dr_fits : no_overflow t;
  dr_on : mc_ReduceOnIdle (tr_config t) = true;
  dr_timeout : 0 < mc_IdleTimeout (tr_config t) < max_int64
}.

Lemma Reduce_drains now t :
  drains t -> drains (snd (Reduce now t)) /\ tr_config (snd (Reduce now t)) = tr_config t /\
    ms_LastAdjusted (tr_state (snd (Reduce now t))) = now /\
    minMomentum (snd (Reduce now t)) = minMomentum t /\ reduceAmount (snd (Reduce now t)) = reduceAmount t.
Proof.
  intros [Hok Hf Hon Ht]. pose proof (Reduce_ok now t Hok) as Hok'. unfold Reduce in *. rewrite Hon in *. simpl in *.
  split_and!; [by split|done..].
Qed.

Lemma IsIdle_spec now t :
  0 < mc_IdleTimeout (tr_config t) < max_int64 ->
  mc_IdleTimeout (tr_config t) < now - ms_LastAdjusted (tr_state t) -> IsIdle now t = true.
Proof.
  intros Ht Hgap. unfold IsIdle. destruct (Z.eqb_spec (mc_IdleTimeout (tr_config t)) 0); [lia|].
  rewrite time_Sub_gt by (unfold min_int64, max_int64 in *; lia). by apply Z.ltb_lt.
Qed.

Lemma idle_ticks_at ticks a id p t :
  distinct a -> trackers a !! id = Some p -> heap a !! p = Some t -> drains t ->
  spaced (mc_IdleTimeout (tr_config t)) id (ms_LastAdjusted (tr_state t)) ticks ->
  exists t', trackers (idle_ticks a ticks) !! id = Some p /\ heap (idle_ticks a ticks) !! p = Some t' /\
    Current t' = Z.max (minMomentum t) (Current t - Z.of_nat (length ticks) * reduceAmount t).
Proof.
  revert a t. induction ticks as [|[now later] ticks IH]; intros a t Hd Hp Ht Hdr Hsp.
  - exists t. split_and!; [done..|]. destruct (dr_ok t Hdr) as [_ _ Hc]. simpl. lia.
  - destruct Hsp as [Hgap Hsp]. destruct (checkIdle_reported now later a Hd) as [Htr Hrep].
    destruct (Reduce_drains (later id) t Hdr) as (Hdr' & Hcfg & Hlast & Hmin & Hred).
    pose proof (checkIdle_at now later a id p t Hd Hp Ht) as Hat. rewrite IsIdle_spec in Hat by (apply Hdr || done).
    destruct (IH (checkIdle now later a) (snd (Reduce (later id) t))) as (t' & T & Hh & Hv); [|by rewrite Htr|done..| |].
    + by eapply reported_distinct; [split|].
    + by rewrite Hcfg, Hlast.
    + exists t'. split_and!; [done..|]. rewrite Hv, Hmin, Hred, Reduce_value by apply Hdr.
      destruct (dr_fits t Hdr) as (_ & Hpos & _). simpl length. rewrite Nat2Z.inj_succ. lia.
Qed.

(** An idle capsule drains: as long as nothing else touches
    it, every idle check spaced more than its timeout after the last one
    takes one reduction off its momentum, down to the minimum and no
    further, whatever the other capsules do. *)
Theorem adjuster_idle_drains ticks a id p t
    (Hd : distinct a) (Hp : trackers a !! id = Some p) (Ht : heap a !! p = Some t) (Hdr : drains t)
    (Hsp : spaced (mc_IdleTimeout (tr_config t)) id (ms_LastAdjusted (tr_state t)) ticks) :
  value_of (idle_ticks a ticks) id =
    Some (Z.max (minMomentum t) (Current t - Z.of_nat (length ticks) * reduceAmount t)).
Proof.
  destruct (idle_ticks_at ticks a id p t Hd Hp Ht Hdr Hsp) as (t' & Hp' & Ht' & Hv).
  unfold value_of. rewrite Hp'. simpl. rewrite Ht'. simpl. by rewrite Hv.
Qed.

(** A tracker whose [ReduceOnIdle] is off also ignores failures, although
    [OnFailure] is documented to reduce the momentum: the configuration of
    idle reduction switches both. *)
Lemma failure_ignored_without_idle now now' id a p t :
  trackers a !! id = Some p -> heap a !! p = Some t -> mc_ReduceOnIdle (tr_config t) = false ->
  OnFailure now now' id a = a.
Proof.
  intros Hp Ht Hoff. unfold OnFailure, notify, Reduce. rewrite Hp, Ht, Hoff. simpl. rewrite insert_id by done. by destruct a.
Qed.

(** And traffic does not count as activity when [BoostOnTraffic] is off: the
    tracker's clock is not touched, so a busy capsule is reduced as idle. *)
Lemma traffic_ignored_without_boost now now' id a p t :
  trackers a !! id = Some p -> heap a !! p = Some t -> mc_BoostOnTraffic (tr_config t) = false ->
  OnTraffic now now' id a = a.
Proof.
  intros Hp Ht Hoff. unfold OnTraffic, notify, Boost. rewrite Hp, Ht, Hoff. simpl. rewrite insert_id by done. by destruct a.
Qed.

End Signals.

(** ** A concrete adjuster *)

Module MomentumDemo.

Definition critical : Tracker := NewTrackerFromTier 0 tierCritical [].
Definition background : Tracker := NewTrackerFromTier 0 tierBackground [WithReduceAmount 15].

Definition demo : Adjuster :=
  {| heap := {[ 1%positive := critical; 2%positive := background ]};
     trackers := {[ "a" := 1%positive; "b" := 2%positive ]}; handled := [] |}.

Lemma demo_distinct : distinct demo.
Proof.
  intros i j p. unfold demo. simpl. rewrite !lookup_insert_Some, !lookup_singleton_Some. intros; naive_solver.
Qed.

Lemma adjuster_events_replay_witness :
  exists evs, handled (fold_left on_signal [STraffic 1 2 "a"; STraffic 3 4 "a"; STraffic 5 6 "a"; SFailure 7 8 "b"] demo) = evs /\
    length evs = 3%nat /\ chain "a" 90 evs /\ replay "a" evs 90 = 100.
Proof.
  destruct (adjuster_events_replay [STraffic 1 2 "a"; STraffic 3 4 "a"; STraffic 5 6 "a"; SFailure 7 8 "b"] demo demo_distinct)
    as (evs & Hevs & Hr). specialize (Hr "a" 90 eq_refl) as [Hc Hv].
  exists evs. split; [exact Hevs|]. vm_compute in Hevs. subst evs. split; [reflexivity|]. split; [exact Hc|reflexivity].
Defined.

Definition ticks : list (Time * (CapsuleID -> Time)) :=
  [(6 * minute, fun _ => 6 * minute); (12 * minute, fun _ => 12 * minute)].

Lemma adjuster_idle_drains_witness : value_of (idle_ticks demo ticks) "b" = Some 0.
Proof.
  refine (adjuster_idle_drains ticks demo "b" 2%positive background demo_distinct eq_refl eq_refl _ _).
  - split; [split; vm_compute; split || idtac; discriminate|vm_compute; repeat split; discriminate|reflexivity|
      unfold max_int64; vm_compute; split; reflexivity].
  - vm_compute. repeat split; reflexivity.
Defined.

End MomentumDemo.
