(* ===== verification/Placement.v ===== *)
(** * Placement rule evaluation: [capsule/placement/*.go]

    [Evaluator] checks a node entity against a list of placement rules: a
    failed hard rule makes the node ineligible, every satisfied soft rule
    adds one to its score.  The mesh state comes from an [EntityProvider].
    The package stands beside the placement checks of the gravity calculator
    (file [Gravity]); the last section compares the two. *)

From S2P Require Import Prelude Float64 CapsuleTypes Gravity.
Local Open Scope string_scope.
Local Open Scope list_scope.
Local Open Scope Z_scope.

(** ** [rule.go] *)

Record Rule := {
  r_Name : string;
  r_Type : PlacementType;
  r_Mode : PlacementMode;   (** only for Type = capsule *)
  r_Names : list string;
  r_Labels : Labels;
  r_Required : bool
}.

Definition FromSpec (spec : PlacementRule) : Rule :=
  {| r_Name := pr_Name spec; r_Type := pr_Type spec; r_Mode := pr_Mode spec; r_Names := pr_Names spec;
     r_Labels := pr_Labels spec; r_Required := pr_Required spec |}.

Definition FromSpecList (specs : list PlacementRule) : list Rule := map FromSpec specs.

Definition IsCapsuleRule (r : Rule) : bool := r_Type r =s placementTypeCapsule.
Definition IsNear (r : Rule) : bool := IsCapsuleRule r && (r_Mode r =s placementModeNear).
Definition IsAway (r : Rule) : bool := IsCapsuleRule r && (r_Mode r =s placementModeAway).

(** ** [selector.go] *)

Record Entity := { e_Name : string; e_Type : PlacementType; e_Labels : Labels }.

Record EntityProvider := {
  Nodes : list Entity;
  Clusters : list Entity;
  Datacenters : list Entity;
  CapsuleNodes : list string -> Labels -> list Entity
}.

Definition SelectByName (entities : list Entity) (names : list string) : list Entity :=
  match names with
  | [] => entities
  | _ => let nameSet : gset string := list_to_set names in
         List.filter (fun e => bool_decide (e_Name e ∈ nameSet)) entities
  end.

Section Placement.
Context `{GoRange}.

Definition SameKeys (r : Rule) : list string :=
  map fst (List.filter (fun '(_, val) => val =s SameKeyword) (range (entries (r_Labels r)))).

Definition SelectByLabels (entities : list Entity) (required : Labels) : list Entity :=
  if (size (entries required) =? 0)%nat then entities
  else List.filter (fun e => LabelsMatch (e_Labels e) required) entities.

Definition Select (entities : list Entity) (names : list string) (labels : Labels) : list Entity :=
  let result := if (0 <? length names)%nat then SelectByName entities names else entities in
  if (0 <? size (entries labels))%nat then SelectByLabels result labels else result.

(** ** [evaluator.go] *)

Definition evaluateDirectRule (node : Entity) (rule : Rule) : bool :=
  if (0 <? length (r_Names rule))%nat && negb (existsb (fun name => e_Name node =s name) (r_Names rule)) then false
  else LabelsMatch (e_Labels node) (r_Labels rule).

(** The shared body of [evaluateClusterRule] and [evaluateDatacenterRule]:
    the node's [label] names one of the selected entities. *)
Definition belongs_to (label : string) (matching : list Entity) (node : Entity) : bool :=
  match entries (e_Labels node) !! label with
  | None => false
  | Some x => existsb (fun c => e_Name c =s x) matching
  end.

Definition evaluateClusterRule (provider : EntityProvider) (node : Entity) (rule : Rule) : bool :=
  belongs_to "cluster" (Select (Clusters provider) (r_Names rule) (r_Labels rule)) node.

Definition evaluateDatacenterRule (provider : EntityProvider) (node : Entity) (rule : Rule) : bool :=
  belongs_to "datacenter" (Select (Datacenters provider) (r_Names rule) (r_Labels rule)) node.

(** The inner loop over the keys. *)
Definition shares_all (keys : list string) (node target : Entity) : bool :=
  forallb (fun key => match entries (e_Labels node) !! key, entries (e_Labels target) !! key with
                      | Some nodeVal, Some targetVal => nodeVal =s targetVal
                      | _, _ => false
                      end) keys.

Definition evaluateCapsuleRule (provider : EntityProvider) (node : Entity) (rule : Rule) : bool :=
  match CapsuleNodes provider (r_Names rule) None with
  | [] => IsAway rule
  | targetNodes =>
      match SameKeys rule with
      | [] => true
      | sameKeys =>
          let sharesLabels := existsb (shares_all sameKeys node) targetNodes in
          if IsNear rule then sharesLabels
          else if IsAway rule then negb sharesLabels
          else false
      end
  end.

Definition evaluateRule (provider : EntityProvider) (node : Entity) (rule : Rule) : bool :=
  if r_Type rule =s placementTypeNode then evaluateDirectRule node rule
  else if r_Type rule =s placementTypeCluster then evaluateClusterRule provider node rule
  else if r_Type rule =s placementTypeDatacenter then evaluateDatacenterRule provider node rule
  else if r_Type rule =s placementTypeCapsule then evaluateCapsuleRule provider node rule
  else false.

Record Result := {
  NodeName : string;
  Eligible : bool;
  r_Score : f64;
  FailedRules : list string;
  MatchedSoft : list string
}.

(** One iteration of the loop of [EvaluateNode]. *)
Definition evaluate_step (provider : EntityProvider) (node : Entity) (result : Result) (rule : Rule) : Result :=
  let passed := evaluateRule provider node rule in
  let result := if negb passed && r_Required rule
    then {| NodeName := NodeName result; Eligible := false; r_Score := r_Score result;
            FailedRules := FailedRules result ++ [r_Name rule]; MatchedSoft := MatchedSoft result |}
    else result in
  if passed && negb (r_Required rule)
  then {| NodeName := NodeName result; Eligible := Eligible result; r_Score := (r_Score result + f1)%f64;
          FailedRules := FailedRules result; MatchedSoft := MatchedSoft result ++ [r_Name rule] |}
  else result.

Definition EvaluateNode (provider : EntityProvider) (node : Entity) (rules : list Rule) : Result :=
  fold_left (evaluate_step provider node) rules
    {| NodeName := e_Name node; Eligible := true; r_Score := f0; FailedRules := []; MatchedSoft := [] |}.

Definition EvaluateAll (provider : EntityProvider) (rules : list Rule) : list Result :=
  map (fun node => EvaluateNode provider node rules) (Nodes provider).

Definition EligibleNodes (provider : EntityProvider) (rules : list Rule) : list Result :=
  List.filter Eligible (EvaluateAll provider rules).

(** ** What a rule asks for *)

Definition matches (names : list string) (labels : Labels) (e : Entity) : Prop :=
  (names = [] \/ e_Name e ∈ names) /\ entries labels ⊆ entries (e_Labels e).

(** The two entities have the same value for every label the rule marks as
    [same]. *)
Definition together (rule : Rule) (a b : Entity) : Prop :=
  forall k, entries (r_Labels rule) !! k = Some SameKeyword ->
    exists v, entries (e_Labels a) !! k = Some v /\ entries (e_Labels b) !! k = Some v.

Definition located (label : string) (places : list Entity) (rule : Rule) (node : Entity) : Prop :=
  exists place, place ∈ places /\ entries (e_Labels node) !! label = Some (e_Name place) /\
    matches (r_Names rule) (r_Labels rule) place.

(** A capsule rule without [same] labels compares nothing, so it only asks
    that the target runs somewhere. *)
Definition capsule_rule_holds (provider : EntityProvider) (rule : Rule) (node : Entity) : Prop :=
  let targets := CapsuleNodes provider (r_Names rule) None in
  let compares := exists k, entries (r_Labels rule) !! k = Some SameKeyword in
  (targets = [] /\ r_Mode rule = placementModeAway) \/
  (targets <> [] /\ ~ compares) \/
  (compares /\ r_Mode rule = placementModeNear /\ exists t, t ∈ targets /\ together rule node t) \/
  (compares /\ targets <> [] /\ r_Mode rule = placementModeAway /\ forall t, t ∈ targets -> ~ together rule node t).

Definition holds (provider : EntityProvider) (rule : Rule) (node : Entity) : Prop :=
  (r_Type rule = placementTypeNode /\ matches (r_Names rule) (r_Labels rule) node) \/
  (r_Type rule = placementTypeCluster /\ located "cluster" (Clusters provider) rule node) \/
  (r_Type rule = placementTypeDatacenter /\ located "datacenter" (Datacenters provider) rule node) \/
  (r_Type rule = placementTypeCapsule /\ capsule_rule_holds provider rule node).

Lemma SelectByName_elem es names e : e ∈ SelectByName es names <-> e ∈ es /\ (names = [] \/ e_Name e ∈ names).
Proof.
  unfold SelectByName. destruct names as [|n ns]; [naive_solver|].
  rewrite list_elem_of_In, filter_In, <- list_elem_of_In, bool_decide_eq_true, elem_of_list_to_set.
  split; [intros [? ?]; auto|intros [? [?|?]]; [done|auto]].
Qed.

Lemma Select_elem es names labels e : e ∈ Select es names labels <-> e ∈ es /\ matches names labels e.
Proof.
  unfold Select, matches. set (sel := if (0 <? length names)%nat then SelectByName es names else es).
  assert (Hsel : e ∈ sel <-> e ∈ es /\ (names = [] \/ e_Name e ∈ names)).
  { subst sel. destruct names; [simpl; naive_solver|]. apply SelectByName_elem. }
  unfold SelectByLabels. destruct (Nat.ltb_spec 0 (size (entries labels))) as [Hl|Hl].
  - destruct (Nat.eqb_spec (size (entries labels)) 0) as [|_]; [lia|].
    rewrite list_elem_of_In, filter_In, <- list_elem_of_In, LabelsMatch_subseteq. naive_solver.
  - assert (entries labels = ∅) as -> by (apply map_size_empty_iff; lia). pose proof (map_empty_subseteq (entries (e_Labels e))).
    naive_solver.
Qed.

Lemma belongs_to_spec label es rule node :
  belongs_to label (Select es (r_Names rule) (r_Labels rule)) node = true <-> located label es rule node.
Proof.
  unfold belongs_to, located. destruct (entries (e_Labels node) !! label) as [x|]; [|naive_solver].
  rewrite existsb_elem. setoid_rewrite String.eqb_eq. setoid_rewrite Select_elem. naive_solver.
Qed.

Lemma SameKeys_elem r k : k ∈ SameKeys r <-> entries (r_Labels r) !! k = Some SameKeyword.
Proof.
  unfold SameKeys. rewrite list_elem_of_In, in_map_iff. setoid_rewrite filter_In. setoid_rewrite <- list_elem_of_In. split.
  - intros ([? v] & <- & Hin & Hv). apply elem_of_range in Hin. by apply String.eqb_eq in Hv as ->.
  - intros Hk. exists (k, SameKeyword). by rewrite elem_of_range.
Qed.

Lemma shares_all_spec r a b : shares_all (SameKeys r) a b = true <-> together r a b.
Proof.
  unfold shares_all, together. rewrite forallb_elem. setoid_rewrite SameKeys_elem.
  split; intros Hk k E; specialize (Hk k E); destruct (entries (e_Labels a) !! k), (entries (e_Labels b) !! k);
    rewrite ?String.eqb_eq in *; naive_solver.
Qed.

Lemma no_same_keys r : SameKeys r = [] <-> ~ exists k, entries (r_Labels r) !! k = Some SameKeyword.
Proof.
  setoid_rewrite <- SameKeys_elem. split; [intros -> [k Hk]; by apply not_elem_of_nil in Hk|].
  intros Hn. destruct (SameKeys r) as [|k ks]; [done|]. destruct Hn. exists k. by left.
Qed.

Lemma evaluateCapsuleRule_spec provider node rule :
  r_Type rule = placementTypeCapsule ->
  evaluateCapsuleRule provider node rule = true <-> capsule_rule_holds provider rule node.
Proof.
  intros Ht. unfold evaluateCapsuleRule, capsule_rule_holds, IsAway, IsNear, IsCapsuleRule. rewrite Ht. simpl.
  assert (Hshare : forall ts, existsb (shares_all (SameKeys rule) node) ts = true <->
                     exists t, t ∈ ts /\ together rule node t).
  { intros ts. rewrite existsb_elem. by setoid_rewrite shares_all_spec. }
  destruct (CapsuleNodes provider (r_Names rule) None) as [|t ts] eqn:Et.
  { rewrite String.eqb_eq. split; [by left; split|]. intros [[_ ?]|[[? _]|[(_ & _ & t & Hin & _)|(_ & ? & _)]]]; try done.
    by apply not_elem_of_nil in Hin. }
  pose proof (no_same_keys rule) as Hnone. specialize (Hshare (t :: ts)).
  destruct (SameKeys rule) as [|k ks] eqn:Ek.
  { split; [intros _; right; left; split; [done|by apply Hnone]|done]. }
  assert (Hc : exists k, entries (r_Labels rule) !! k = Some SameKeyword).
  { exists k. apply SameKeys_elem. rewrite Ek. by left. }
  destruct (String.eqb_spec (r_Mode rule) placementModeNear) as [->|Hn]; simpl.
  { rewrite Hshare. split; [intros Hs; right; right; left; done|]. intros [[? _]|[[_ []]|[(_ & _ & Hs)|(_ & _ & ? & _)]]]; done. }
  destruct (String.eqb_spec (r_Mode rule) placementModeAway) as [->|Ha]; simpl.
  - rewrite negb_true_iff, <- not_true_iff_false, Hshare. split.
    + intros Hs. right. right. right. split_and!; [done..|]. intros t' Hin Htog. apply Hs. eauto.
    + intros [[? _]|[[_ []]|[(_ & ? & _)|(_ & _ & _ & Hs)]]]; [done..|]. intros (t' & Hin & Htog). by eapply Hs.
  - split; [done|]. intros [[? _]|[[_ []]|[(_ & ? & _)|(_ & _ & ? & _)]]]; done.
Qed.

Lemma evaluateRule_spec provider node rule : evaluateRule provider node rule = true <-> holds provider rule node.
Proof.
  unfold evaluateRule, holds, evaluateClusterRule, evaluateDatacenterRule.
  destruct (String.eqb_spec (r_Type rule) placementTypeNode) as [->|].
  { assert (Hd : evaluateDirectRule node rule = true <-> matches (r_Names rule) (r_Labels rule) node).
    { unfold evaluateDirectRule, matches. rewrite <- LabelsMatch_subseteq. destruct (r_Names rule) as [|n ns]; [simpl; naive_solver|].
      cbn [length Nat.ltb Nat.leb andb]. destruct (existsb (fun name => e_Name node =s name) (n :: ns)) eqn:Ee; cbn [negb].
      - apply existsb_elem in Ee as (x & Hx & <-%String.eqb_eq). naive_solver.
      - split; [done|]. intros [[?|Hin] _]; [done|]. apply not_true_iff_false in Ee. destruct Ee. apply existsb_elem.
        exists (e_Name node). by rewrite String.eqb_refl. }
    rewrite Hd. naive_solver. }
  destruct (String.eqb_spec (r_Type rule) placementTypeCluster) as [->|]; [rewrite belongs_to_spec; naive_solver|].
  destruct (String.eqb_spec (r_Type rule) placementTypeDatacenter) as [->|]; [rewrite belongs_to_spec; naive_solver|].
  destruct (String.eqb_spec (r_Type rule) placementTypeCapsule) as [E|]; [|naive_solver].
  rewrite evaluateCapsuleRule_spec by done. naive_solver.
Qed.

(** ** Evaluating a node *)

(** [x] is the double that counts [n]. *)
Definition counts (n : Z) (x : f64) : Prop := finite x /\ key x = n * 2 ^ scale.

Lemma counts_succ n x : counts n x -> 0 <= n -> n + 1 < 2 ^ 53 -> counts (n + 1) (x + f1)%f64.
Proof.
  intros [Hf Hk] Hn Hlt. assert (Hf1 : finite f1) by (apply finiteb_finite; vm_compute; reflexivity).
  destruct (f64_add_spec x f1 Hf Hf1) as [Hnum Hadd].
  assert (E : key (x + f1)%f64 = (n + 1) * 2 ^ scale).
  { rewrite Hadd, Hk. unfold f1. rewrite key_of_Z_exact by lia. rewrite <- Z.mul_add_distr_r.
    rewrite <- (proj2 (f64_of_Z_spec (n + 1))). apply key_of_Z_exact. lia. }
  split; [|exact E]. apply number_finite; [exact Hnum|]. rewrite E, <- key_of_Z_exact by lia.
  apply key_lt_big, finite_of_int64. unfold in_int64, min_int64, max_int64. lia.
Qed.

Lemma counts_eq n x : counts n x -> 0 <= n < 2 ^ 53 -> (x =? f64_of_Z n)%f64 = true.
Proof.
  intros [Hf Hk] Hn. rewrite f64_eq_spec; [|by apply finite_number|apply f64_of_Z_spec].
  rewrite Hk, key_of_Z_exact by lia. apply Z.eqb_refl.
Qed.

Definition fails (provider : EntityProvider) (node : Entity) (r : Rule) : bool :=
  r_Required r && negb (evaluateRule provider node r).
Definition scores (provider : EntityProvider) (node : Entity) (r : Rule) : bool :=
  negb (r_Required r) && evaluateRule provider node r.

(** The fields an iteration leaves behind. *)
Lemma evaluate_step_fields provider node res r :
  let res' := evaluate_step provider node res r in
  Eligible res' = Eligible res && negb (fails provider node r) /\
  FailedRules res' = FailedRules res ++ (if fails provider node r then [r_Name r] else []) /\
  MatchedSoft res' = MatchedSoft res ++ (if scores provider node r then [r_Name r] else []) /\
  r_Score res' = (if scores provider node r then (r_Score res + f1)%f64 else r_Score res).
Proof.
  unfold evaluate_step, fails, scores. destruct (evaluateRule provider node r), (r_Required r); cbn;
    rewrite ?app_nil_r, ?andb_true_r, ?andb_false_r; done.
Qed.

Lemma EvaluateNode_fold provider node rules res :
  let res' := fold_left (evaluate_step provider node) rules res in
  Eligible res' = Eligible res && forallb (fun r => negb (fails provider node r)) rules /\
  FailedRules res' = FailedRules res ++ map r_Name (List.filter (fails provider node) rules) /\
  MatchedSoft res' = MatchedSoft res ++ map r_Name (List.filter (scores provider node) rules) /\
  (Z.of_nat (length (MatchedSoft res) + length rules) < 2 ^ 53 ->
   counts (Z.of_nat (length (MatchedSoft res))) (r_Score res) -> counts (Z.of_nat (length (MatchedSoft res'))) (r_Score res')).
Proof.
  revert res. induction rules as [|r rules IH]; intros res; cbn [fold_left forallb List.filter length].
  { rewrite andb_true_r, !app_nil_r. done. }
  destruct (IH (evaluate_step provider node res r)) as (IE & IF & IM & IS).
  destruct (evaluate_step_fields provider node res r) as (E1 & E2 & E3 & E4). cbv zeta in *. split_and!.
  - rewrite IE, E1. by rewrite andb_assoc.
  - rewrite IF, E2, <- app_assoc. by destruct (fails provider node r).
  - rewrite IM, E3, <- app_assoc. by destruct (scores provider node r).
  - intros Hlen Hc. rewrite E3, E4 in IS. destruct (scores provider node r).
    + rewrite length_app in IS. cbn [length] in IS. apply IS; [lia|]. rewrite Nat2Z.inj_add. apply counts_succ; [done|lia..].
    + rewrite app_nil_r in IS. apply IS; [lia|done].
Qed.

Lemma named_in_filter (f : Rule -> bool) rules name :
  name ∈ map r_Name (List.filter f rules) <-> exists r, r ∈ rules /\ f r = true /\ r_Name r = name.
Proof.
  rewrite list_elem_of_In, in_map_iff. setoid_rewrite filter_In. setoid_rewrite <- list_elem_of_In. naive_solver.
Qed.

Lemma fails_spec provider node r : fails provider node r = true <-> r_Required r = true /\ ~ holds provider r node.
Proof. unfold fails. rewrite andb_true_iff, negb_true_iff, <- not_true_iff_false, evaluateRule_spec. done. Qed.

Lemma scores_spec provider node r : scores provider node r = true <-> r_Required r = false /\ holds provider r node.
Proof. unfold scores. by rewrite andb_true_iff, negb_true_iff, evaluateRule_spec. Qed.

(** Evaluation is exact: a node is eligible precisely when
    every hard rule holds for it, the failed rules are the hard rules that do
    not hold, the matched ones are the soft rules that do, and the score is
    their number. *)
Theorem placement_evaluate_exact provider node rules (Hlen : Z.of_nat (length rules) < 2 ^ 53) :
  let res := EvaluateNode provider node rules in
  (Eligible res = true <-> forall r, r ∈ rules -> r_Required r = true -> holds provider r node) /\
  (forall name, name ∈ FailedRules res <->
     exists r, r ∈ rules /\ (r_Required r = true /\ ~ holds provider r node) /\ r_Name r = name) /\
  (forall name, name ∈ MatchedSoft res <->
     exists r, r ∈ rules /\ (r_Required r = false /\ holds provider r node) /\ r_Name r = name) /\
  (r_Score res =? f64_of_Z (Z.of_nat (length (MatchedSoft res))))%f64 = true.
Proof.
  destruct (EvaluateNode_fold provider node rules
    {| NodeName := e_Name node; Eligible := true; r_Score := f0; FailedRules := []; MatchedSoft := [] |})
    as (HE & HF & HM & HS). fold (EvaluateNode provider node rules) in *. cbn in HE, HF, HM, HS. split_and!.
  - rewrite HE, forallb_elem. setoid_rewrite negb_true_iff. split; intros Hr r Hin.
    + intros Hreq. specialize (Hr r Hin). unfold fails in Hr. rewrite Hreq in Hr. simpl in Hr.
      apply negb_false_iff in Hr. by apply evaluateRule_spec.
    + apply not_true_iff_false. rewrite fails_spec. intros [Hreq Hno]. by apply Hno, Hr.
  - intros name. rewrite HF, named_in_filter. by setoid_rewrite fails_spec.
  - intros name. rewrite HM, named_in_filter. by setoid_rewrite scores_spec.
  - assert (length (MatchedSoft (EvaluateNode provider node rules)) <= length rules)%nat.
    { rewrite HM, length_map. apply filter_length_le. }
    apply counts_eq; [|lia]. apply HS; [done|]. split; [apply finiteb_finite; vm_compute; reflexivity|reflexivity].
Qed.

(** ** The two placement engines

    The gravity calculator checks the same rules with code of its own. *)

Definition entity_of (node : NodeState) : Entity :=
  {| e_Name := NodeID node; e_Type := placementTypeNode; e_Labels := ns_Labels node |}.

(** On rules about nodes the two engines agree. *)
Lemma node_rules_agree provider rule node lookup :
  pr_Type rule = placementTypeNode ->
  evaluateRule provider (entity_of node) (FromSpec rule) = ruleMatchesNode rule node lookup.
Proof.
  intros Ht. apply eq_bool_prop_intro. rewrite !Is_true_true, evaluateRule_spec, ruleMatchesNode_spec.
  unfold holds, rule_holds, matches, named. cbn [r_Type FromSpec r_Names r_Labels e_Name e_Labels entity_of].
  rewrite Ht, map_subseteq_spec. naive_solver.
Qed.

(** On anti-affinity they do not: an [away] rule that names a capsule and no
    labels keeps the gravity calculator off every node that runs the target,
    while this evaluator accepts all of them. *)
Lemma away_rules_disagree provider rule node l target
    (Ht : pr_Type rule = placementTypeCapsule) (Hm : pr_Mode rule = placementModeAway)
    (Hl : entries (pr_Labels rule) = ∅) (Hn : target ∈ pr_Names rule)
    (Hruns : NodeID node ∈ l (ClusterPath node) target)
    (Hsees : CapsuleNodes provider (pr_Names rule) None <> []) :
  evaluateRule provider (entity_of node) (FromSpec rule) = true /\ ruleMatchesNode rule node (Some l) = false.
Proof.
  split.
  - apply evaluateRule_spec. right. right. right. split; [done|]. right. left. split; [done|].
    intros [k Hk]. change (entries (pr_Labels rule) !! k = Some SameKeyword) in Hk. by rewrite Hl, lookup_empty in Hk.
  - apply not_true_iff_false. rewrite ruleMatchesNode_spec. unfold rule_holds, hosts_target. rewrite Ht, Hm.
    intros [(? & _)|[(? & _)|[(? & _)|(_ & [(? & _)|(_ & Hno)])]]]; try done. apply Hno. eauto.
Qed.

End Placement.

(** ** A concrete mesh *)

Module PlacementDemo.

Definition n1 : Entity :=
  {| e_Name := "n1"; e_Type := placementTypeNode;
     e_Labels := Some {[ "cluster" := "prod"; "rack" := "r1"; "ssd" := "yes" ]} |}.
Definition n2 : Entity :=
  {| e_Name := "n2"; e_Type := placementTypeNode; e_Labels := Some {[ "cluster" := "prod"; "rack" := "r2" ]} |}.
Definition mesh : EntityProvider :=
  {| Nodes := [n2; n1]; Clusters := [{| e_Name := "prod"; e_Type := placementTypeCluster; e_Labels := None |}];
     Datacenters := []; CapsuleNodes := fun _ _ => [n1] |}.

(** Near the database by rack; a fast disk is welcome. *)
Definition near_db : Rule :=
  {| r_Name := "near-db"; r_Type := placementTypeCapsule; r_Mode := placementModeNear; r_Names := ["db"];
     r_Labels := Some {[ "rack" := "same" ]}; r_Required := true |}.
Definition rules : list Rule :=
  [near_db;
   {| r_Name := "fast-disk"; r_Type := placementTypeNode; r_Mode := ""; r_Names := [];
      r_Labels := Some {[ "ssd" := "yes" ]}; r_Required := false |};
   {| r_Name := "prod"; r_Type := placementTypeCluster; r_Mode := ""; r_Names := ["prod"];
      r_Labels := None; r_Required := true |}].

Example evaluated :
  Eligible (EvaluateNode mesh n1 rules) = true /\ MatchedSoft (EvaluateNode mesh n1 rules) = ["fast-disk"] /\
  FailedRules (EvaluateNode mesh n2 rules) = ["near-db"].
Proof. vm_compute. done. Qed.

(** The results come in the provider's order, not by eligibility and score. *)
Example results_unsorted : map Eligible (EvaluateAll mesh rules) = [false; true].
Proof. vm_compute. reflexivity. Qed.

Lemma placement_evaluate_exact_witness :
  holds mesh near_db n1 /\ (r_Score (EvaluateNode mesh n1 rules) =? f64_of_Z 1)%f64 = true.
Proof.
  destruct (placement_evaluate_exact mesh n1 rules ltac:(vm_compute; reflexivity)) as (He & _ & _ & Hs).
  split; [|exact Hs]. apply He; [vm_compute; reflexivity|by left|reflexivity].
Defined.

End PlacementDemo.
