(* ===== verification/Scaling.v ===== *)
(** * Autoscaling: [capsule/scaling/*.go]

    Conditions are parsed from text ([rule.go]), rules are evaluated against
    a metrics provider with a cooldown per rule ([evaluator.go]), and the
    [Monitor] evaluates the rules of every registered capsule on each tick
    and hands an event to its handler when one fires ([monitor.go]), reading
    its providers from a registry ([registry.go]).  Each [time.Now()] is an
    argument; the methods of the evaluator and the registry run under their
    lock and are single steps. *)

From S2P Require Import Prelude Float64 Strconv CapsuleTypes.
Local Open Scope string_scope.
Local Open Scope list_scope.
Local Open Scope Z_scope.

(** ** Conditions and rules: [rule.go] *)

Abbreviation Operator := string (only parsing).
Definition opGreaterThan : Operator := ">".
Definition opLessThan : Operator := "<".
Definition opEqual : Operator := "==".
Definition opGreaterEq : Operator := ">=".
Definition opLessEq : Operator := "<=".

Record Condition := {
  Metric : string;
  Op : Operator;
  Value : f64;
  Unit : string;
  Raw : string
}.

Record Rule := {
  Name : string;
  Trigger : TriggerMode;
  Conditions : list Condition;
  Action : ScalingAction;
  Cooldown : Duration
}.

(** The errors, with the texts they quote. *)
Inductive ParseError :=
  | ErrTokens (raw : string)
  | ErrUnknownOperator (raw op : string)
  | ErrInvalidNumber (raw num : string)
  | ErrRule (name : string) (e : ParseError).

Definition tokenize (s : string) : list string := List.filter (fun part => part <>s "") (strings_Fields s).

Definition parseOperator (s : string) : option Operator :=
  if s =s ">" then Some opGreaterThan
  else if s =s "<" then Some opLessThan
  else if s =s "==" then Some opEqual
  else if s =s ">=" then Some opGreaterEq
  else if s =s "<=" then Some opLessEq
  else None.

(** The loop over the unit suffixes; an error is the number it quotes. *)
Fixpoint parse_units (units : list string) (s : string) : result string (f64 * string) :=
  match units with
  | [] => match strconv_ParseFloat s with Ok val => Ok (val, "") | Err _ => Err s end
  | unit :: units' =>
      match strip_suffix unit s with
      | Some numStr => match strconv_ParseFloat numStr with Ok val => Ok (val, unit) | Err _ => Err numStr end
      | None => parse_units units' s
      end
  end.

Definition parseValue (s : string) : result string (f64 * string) := parse_units ["%"; "ms"; "m"; "s"] s.

Definition ParseCondition (raw : string) : result ParseError Condition :=
  let raw := strings_TrimSpace raw in
  if strings_HasPrefix raw "schedule:" then
    Ok {| Metric := "schedule"; Op := ""; Value := f64_zero false; Unit := ""; Raw := raw |}
  else match tokenize raw with
       | [metric; o; v] =>
           match parseOperator o with
           | None => Err (ErrUnknownOperator raw o)
           | Some op =>
               match parseValue v with
               | Err num => Err (ErrInvalidNumber raw num)
               | Ok (value, unit) => Ok {| Metric := metric; Op := op; Value := value; Unit := unit; Raw := raw |}
               end
           end
       | _ => Err (ErrTokens raw)
       end.

Fixpoint parse_all (raws : list string) : result ParseError (list Condition) :=
  match raws with
  | [] => Ok []
  | raw :: raws' =>
      match ParseCondition raw with
      | Err e => Err e
      | Ok cond => match parse_all raws' with Err e => Err e | Ok conds => Ok (cond :: conds) end
      end
  end.

Definition FromSpec (spec : ScalingRule) : result ParseError Rule :=
  match parse_all (sr_Conditions spec) with
  | Err e => Err (ErrRule (sr_Name spec) e)
  | Ok conditions => Ok {| Name := sr_Name spec; Trigger := sr_Trigger spec; Conditions := conditions;
                           Action := sr_Action spec; Cooldown := sr_Cooldown spec |}
  end.

Fixpoint FromSpecList (specs : list ScalingRule) : result ParseError (list Rule) :=
  match specs with
  | [] => Ok []
  | spec :: specs' =>
      match FromSpec spec with
      | Err e => Err e
      | Ok rule => match FromSpecList specs' with Err e => Err e | Ok rules => Ok (rule :: rules) end
      end
  end.

Definition Condition_Evaluate (c : Condition) (metricValue : f64) : bool :=
  if Op c =s opGreaterThan then f64_gt metricValue (Value c)
  else if Op c =s opLessThan then f64_lt metricValue (Value c)
  else if Op c =s opEqual then f64_eq metricValue (Value c)
  else if Op c =s opGreaterEq then f64_ge metricValue (Value c)
  else if Op c =s opLessEq then f64_le metricValue (Value c)
  else false.

(** ** Evaluation: [evaluator.go] *)

(** [GetMetric(name)]; [None] for an unknown metric. *)
Definition MetricsProvider : Type := string -> option f64.

Record EvalResult := { RuleName : string; er_Action : ScalingAction; Matched : bool }.

Record Evaluator := { cooldowns : gmap string Time }.

Definition NewEvaluator : Evaluator := {| cooldowns := ∅ |}.

Fixpoint evaluateAll (conditions : list Condition) (metrics : MetricsProvider) : bool :=
  match conditions with
  | [] => true
  | cond :: rest =>
      if Metric cond =s "schedule" then evaluateAll rest metrics
      else match metrics (Metric cond) with
           | None => false
           | Some val => if negb (Condition_Evaluate cond val) then false else evaluateAll rest metrics
           end
  end.

Fixpoint evaluateAny (conditions : list Condition) (metrics : MetricsProvider) : bool :=
  match conditions with
  | [] => false
  | cond :: rest =>
      if Metric cond =s "schedule" then evaluateAny rest metrics
      else match metrics (Metric cond) with
           | None => evaluateAny rest metrics
           | Some val => if Condition_Evaluate cond val then true else evaluateAny rest metrics
           end
  end.

Definition evaluateRule (rule : Rule) (metrics : MetricsProvider) : bool :=
  if Trigger rule =s triggerModeAll then evaluateAll (Conditions rule) metrics
  else if Trigger rule =s triggerModeAny then evaluateAny (Conditions rule) metrics
  else false.

Definition isInCooldown (key : string) (cooldown : Duration) (now : Time) (e : Evaluator) : bool :=
  if cooldown =? 0 then false
  else match cooldowns e !! key with
       | None => false
       | Some lastTriggered => time_Before now (time_Add lastTriggered cooldown)
       end.

Definition recordCooldown (key : string) (now : Time) (e : Evaluator) : Evaluator :=
  {| cooldowns := <[key := now]> (cooldowns e) |}.

Definition cooldownKey (id : CapsuleID) (ruleName : string) : string := id +:+ ":" +:+ ruleName.

Fixpoint Evaluate (now : Time) (id : CapsuleID) (rules : list Rule) (metrics : MetricsProvider)
  : ST Evaluator (option EvalResult) := fun e =>
  match rules with
  | [] => (None, e)
  | rule :: rest =>
      let key := cooldownKey id (Name rule) in
      if isInCooldown key (Cooldown rule) now e then Evaluate now id rest metrics e
      else if evaluateRule rule metrics then
        (Some {| RuleName := Name rule; er_Action := Action rule; Matched := true |}, recordCooldown key now e)
      else Evaluate now id rest metrics e
  end.

Definition ResetCooldown (id : CapsuleID) (ruleName : string) (e : Evaluator) : Evaluator :=
  {| cooldowns := delete (cooldownKey id ruleName) (cooldowns e) |}.

Definition ResetAllCooldowns (id : CapsuleID) (e : Evaluator) : Evaluator :=
  {| cooldowns := filter (fun kv => String.prefix (id +:+ ":") kv.1 = false) (cooldowns e) |}.

(** ** Monitoring: [registry.go] and [monitor.go] *)

(** The in-memory registry; a registered provider may itself be nil. *)
Definition Registry : Type := gmap CapsuleID (option MetricsProvider).

Definition Registry_Register (id : CapsuleID) (p : option MetricsProvider) (r : Registry) : Registry := <[id := p]> r.
Definition Registry_Unregister (id : CapsuleID) (r : Registry) : Registry := delete id r.
Definition Registry_Get (id : CapsuleID) (r : Registry) : option MetricsProvider := default None (r !! id).
Definition Registry_Count (r : Registry) : nat := size r.

Record CapsuleMetrics := { cm_CapsuleID : CapsuleID; cm_Rules : list Rule; cm_Metrics : option MetricsProvider }.

Record ScaleEvent := { se_CapsuleID : CapsuleID; se_RuleName : string; se_Action : ScalingAction; se_Timestamp : Time }.

Record Monitor := {
  evaluator : Evaluator;
  capsules : gmap CapsuleID CapsuleMetrics;
  registry : option Registry;
  events : list ScaleEvent   (** handed to the handler, in order *)
}.

Definition NewMonitor (r : option Registry) : Monitor :=
  {| evaluator := NewEvaluator; capsules := ∅; registry := r; events := [] |}.

Definition Monitor_Register (cm : CapsuleMetrics) (m : Monitor) : Monitor :=
  {| evaluator := evaluator m; capsules := <[cm_CapsuleID cm := cm]> (capsules m); registry := registry m; events := events m |}.

Definition Monitor_Unregister (id : CapsuleID) (m : Monitor) : Monitor :=
  {| evaluator := ResetAllCooldowns id (evaluator m); capsules := delete id (capsules m);
     registry := registry m; events := events m |}.

(** The provider a tick uses: the registry's, or else the capsule's own. *)
Definition provider_for (m : Monitor) (cm : CapsuleMetrics) : option MetricsProvider :=
  match registry m ≫= Registry_Get (cm_CapsuleID cm) with
  | Some p => Some p
  | None => cm_Metrics cm
  end.

(** One iteration of the loop of [evaluate]: [now] is the reading inside
    [Evaluate], [stamp] the one of the event. *)
Definition evaluate_one (now stamp : Time) (cm : CapsuleMetrics) (m : Monitor) : Monitor :=
  match provider_for m cm with
  | None => m
  | Some provider =>
      let '(result, ev) := Evaluate now (cm_CapsuleID cm) (cm_Rules cm) provider (evaluator m) in
      {| evaluator := ev; capsules := capsules m; registry := registry m;
         events := match result with
                   | Some r => if Matched r
                               then events m ++ [{| se_CapsuleID := cm_CapsuleID cm; se_RuleName := RuleName r;
                                                    se_Action := er_Action r; se_Timestamp := stamp |}]
                               else events m
                   | None => events m
                   end |}
  end.

Section Tick.
Context `{GoRange}.

Definition Monitor_evaluate (now stamp : CapsuleID -> Time) (m : Monitor) : Monitor :=
  fold_left (fun m '(id, cm) => evaluate_one (now id) (stamp id) cm m) (range (capsules m)) m.

End Tick.

(** ** Cooldowns *)

(** The rule may fire: it is not cooling down and its trigger holds. *)
Definition ready (now : Time) (id : CapsuleID) (metrics : MetricsProvider) (e : Evaluator) (r : Rule) : bool :=
  negb (isInCooldown (cooldownKey id (Name r)) (Cooldown r) now e) && evaluateRule r metrics.

Definition fired (r : Rule) : EvalResult := {| RuleName := Name r; er_Action := Action r; Matched := true |}.

(** The first ready rule fires, and only its cooldown is recorded. *)
Lemma Evaluate_find now id rules metrics e :
  Evaluate now id rules metrics e =
    match List.find (ready now id metrics e) rules with
    | Some r => (Some (fired r), recordCooldown (cooldownKey id (Name r)) now e)
    | None => (None, e)
    end.
Proof.
  induction rules as [|r rules IH]; [done|]. cbn [Evaluate List.find]. unfold ready at 1.
  destruct (isInCooldown _ _ _ _); [exact IH|]. destruct (evaluateRule r metrics); [done|exact IH].
Qed.

Lemma Evaluate_fired now id rules metrics e res e' :
  Evaluate now id rules metrics e = (Some res, e') ->
  exists r, r ∈ rules /\ RuleName res = Name r /\ ready now id metrics e r = true /\
    e' = recordCooldown (cooldownKey id (Name r)) now e.
Proof.
  rewrite Evaluate_find. destruct (List.find _ rules) as [r|] eqn:Ef; [|done]. intros [= <- <-].
  apply find_some in Ef as [Hin Hr]. exists r. by rewrite list_elem_of_In.
Qed.

(** A call of [Evaluate] by any capsule. *)
Record Call := { at_ : Time; who : CapsuleID; what : list Rule; sees : MetricsProvider }.
Definition call (e : Evaluator) (c : Call) : Evaluator := snd (Evaluate (at_ c) (who c) (what c) (sees c) e).

Lemma call_keeps_later e c key t0 :
  t0 <= at_ c -> (exists t, cooldowns e !! key = Some t /\ t0 <= t) ->
  exists t, cooldowns (call e c) !! key = Some t /\ t0 <= t.
Proof.
  intros Hat (t & Ht & Hle). unfold call. rewrite Evaluate_find. destruct (List.find _ _) as [r|]; simpl; [|eauto].
  destruct (decide (cooldownKey (who c) (Name r) = key)) as [->|Hne]; [rewrite lookup_insert_eq|rewrite lookup_insert_ne by done]; eauto.
Qed.

Lemma calls_keep_later calls e key t0 :
  Forall (fun c => t0 <= at_ c) calls -> (exists t, cooldowns e !! key = Some t /\ t0 <= t) ->
  exists t, cooldowns (fold_left call calls e) !! key = Some t /\ t0 <= t.
Proof.
  revert e. induction calls as [|c calls IH]; intros e Hall He; [done|]. inversion_clear Hall.
  apply IH; [done|]. by apply call_keeps_later.
Qed.

(** Cooldowns are kept: when a rule of a capsule fired
    at [t0] and, after any evaluations of any capsules at later times, fires
    again at [t], at least its cooldown lies between the two. *)
Theorem scaling_cooldown_respected e0 t0 id rules0 metrics0 res0 e1 calls t rules metrics res e2 d
    (Hfirst : Evaluate t0 id rules0 metrics0 e0 = (Some res0, e1))
    (Hlater : Forall (fun c => t0 <= at_ c) calls)
    (Hagain : Evaluate t id rules metrics (fold_left call calls e1) = (Some res, e2))
    (Hsame : RuleName res = RuleName res0) (Hd : 0 < d)
    (Hcool : forall r, r ∈ rules -> Name r = RuleName res -> Cooldown r = d) :
  t0 + d <= t.
Proof.
  apply Evaluate_fired in Hfirst as (r0 & _ & Hn0 & _ & ->).
  apply Evaluate_fired in Hagain as (r & Hin & Hn & Hr & _).
  destruct (calls_keep_later calls (recordCooldown (cooldownKey id (Name r0)) t0 e0) (cooldownKey id (Name r0)) t0 Hlater)
    as (t1 & Ht1 & Hle); [exists t0; simpl; by rewrite lookup_insert_eq|].
  unfold ready in Hr. apply andb_true_iff in Hr as [Hr _]. apply negb_true_iff in Hr. unfold isInCooldown in Hr.
  rewrite (Hcool r Hin) in Hr by congruence. destruct (Z.eqb_spec d 0); [lia|].
  replace (Name r) with (Name r0) in Hr by congruence. rewrite Ht1 in Hr.
  unfold time_Before, time_Add in Hr. apply Z.ltb_ge in Hr. lia.
Qed.

(** ** One tick of the monitor *)

Fixpoint colon_free (s : string) : bool :=
  match s with EmptyString => true | String c s' => negb (code c =? 58) && colon_free s' end.

Lemma cooldownKey_id id id' n n' :
  colon_free id = true -> colon_free id' = true -> cooldownKey id n = cooldownKey id' n' -> id = id'.
Proof.
  unfold cooldownKey. revert id'. induction id as [|c id IH]; intros [|c' id'] Hf Hf' E; [done|..].
  - change ("" +:+ ":" +:+ n) with (String ":" n) in E.
    change (String c' id' +:+ ":" +:+ n') with (String c' (id' +:+ ":" +:+ n')) in E. by injection E as <- _.
  - change ("" +:+ ":" +:+ n') with (String ":" n') in E.
    change (String c id +:+ ":" +:+ n) with (String c (id +:+ ":" +:+ n)) in E. by injection E as -> _.
  - change (String c id +:+ ":" +:+ n) with (String c (id +:+ ":" +:+ n)) in E.
    change (String c' id' +:+ ":" +:+ n') with (String c' (id' +:+ ":" +:+ n')) in E. injection E as -> E.
    simpl in Hf, Hf'. apply andb_true_iff in Hf as [_ Hf], Hf' as [_ Hf']. f_equal. eauto.
Qed.

(** Two evaluators look the same to capsule [id]. *)
Definition agree (id : CapsuleID) (e e' : Evaluator) : Prop :=
  forall n, cooldowns e !! cooldownKey id n = cooldowns e' !! cooldownKey id n.

Lemma Evaluate_agree now id rules metrics e e' :
  agree id e e' -> fst (Evaluate now id rules metrics e) = fst (Evaluate now id rules metrics e').
Proof.
  intros Ha. rewrite !Evaluate_find.
  assert (Hf : List.find (ready now id metrics e) rules = List.find (ready now id metrics e') rules).
  { induction rules as [|r rules IH]; [done|]. cbn [List.find]. unfold ready at 1 3, isInCooldown. by rewrite Ha, IH. }
  rewrite Hf. destruct (List.find (ready now id metrics e') rules); reflexivity.
Qed.

Lemma Evaluate_frame now id id' rules metrics e :
  id <> id' -> colon_free id = true -> colon_free id' = true ->
  agree id' (snd (Evaluate now id rules metrics e)) e.
Proof.
  intros Hne Hf Hf' n. rewrite Evaluate_find. destruct (List.find _ _) as [r|]; [|done]. simpl.
  rewrite lookup_insert_ne; [done|]. intros E. by apply Hne, (cooldownKey_id _ _ (Name r) n).
Qed.

(** The event a capsule is due, seen from evaluator [e]. *)
Definition due (now stamp : Time) (m : Monitor) (e : Evaluator) (cm : CapsuleMetrics) : list ScaleEvent :=
  match provider_for m cm with
  | None => []
  | Some p =>
      match fst (Evaluate now (cm_CapsuleID cm) (cm_Rules cm) p e) with
      | Some r => [{| se_CapsuleID := cm_CapsuleID cm; se_RuleName := RuleName r; se_Action := er_Action r; se_Timestamp := stamp |}]
      | None => []
      end
  end.

Lemma evaluate_one_events now stamp cm m :
  let m' := evaluate_one now stamp cm m in
  events m' = events m ++ due now stamp m (evaluator m) cm /\ capsules m' = capsules m /\ registry m' = registry m.
Proof.
  unfold evaluate_one, due. destruct (provider_for m cm) as [p|]; [|by rewrite app_nil_r].
  rewrite Evaluate_find. destruct (List.find _ _); simpl; [done|by rewrite app_nil_r].
Qed.

Lemma evaluate_one_frame now stamp cm m id :
  cm_CapsuleID cm <> id -> colon_free (cm_CapsuleID cm) = true -> colon_free id = true ->
  agree id (evaluator (evaluate_one now stamp cm m)) (evaluator m).
Proof.
  intros Hne Hf Hf'. unfold evaluate_one. destruct (provider_for m cm) as [p|]; [|done].
  pose proof (Evaluate_frame now (cm_CapsuleID cm) id (cm_Rules cm) p (evaluator m) Hne Hf Hf') as Ha.
  destruct (Evaluate now (cm_CapsuleID cm) (cm_Rules cm) p (evaluator m)) as [res ev]. exact Ha.
Qed.

Lemma due_registry now stamp m m' e cm : registry m' = registry m -> due now stamp m' e cm = due now stamp m e cm.
Proof. intros E. unfold due, provider_for. by rewrite E. Qed.

Lemma due_agree now stamp m e e' cm : agree (cm_CapsuleID cm) e e' -> due now stamp m e cm = due now stamp m e' cm.
Proof. intros Ha. unfold due. destruct (provider_for m cm); [|done]. by rewrite (Evaluate_agree _ _ _ _ e e'). Qed.

(** A tick over capsules with distinct IDs emits what each is due at its start. *)
Lemma tick_events now stamp l m :
  NoDup l.*1 -> Forall (fun kv => cm_CapsuleID kv.2 = kv.1 /\ colon_free kv.1 = true) l ->
  events (fold_left (fun m '(id, cm) => evaluate_one (now id) (stamp id) cm m) l m) =
    events m ++ flat_map (fun kv => due (now kv.1) (stamp kv.1) m (evaluator m) kv.2) l.
Proof.
  revert m. induction l as [|[id cm] l IH]; intros m Hnd Hall; [by rewrite app_nil_r|]. cbn [fold_left flat_map].
  rewrite fmap_cons in Hnd. inversion_clear Hnd as [|? ? Hni Hnd']. inversion_clear Hall as [|? ? [Hid Hf] Hall']. simpl in *.
  destruct (evaluate_one_events (now id) (stamp id) cm m) as (He & _ & Hr).
  rewrite IH, He, <- app_assoc by done. do 2 f_equal. rewrite !flat_map_concat_map. f_equal.
  apply map_ext_in. intros [id' cm'] Hin%list_elem_of_In. simpl. rewrite (due_registry _ _ m) by done. apply due_agree.
  rewrite List.Forall_forall in Hall'. destruct (Hall' (id', cm')) as [Hid' Hf']; [by apply list_elem_of_In|]. simpl in *. rewrite Hid'.
  apply evaluate_one_frame; rewrite ?Hid; [|done..]. intros ->. apply Hni. exact (list_elem_of_fmap_2 fst _ _ Hin).
Qed.

(** The monitor's table: every entry under its own ID, IDs without a colon
    (generated IDs are hexadecimal). *)
Definition monitor_ok (m : Monitor) : Prop :=
  forall id cm, capsules m !! id = Some cm -> cm_CapsuleID cm = id /\ colon_free id = true.

Definition events_of (id : CapsuleID) (evs : list ScaleEvent) : list ScaleEvent :=
  List.filter (fun ev => se_CapsuleID ev =s id) evs.

Lemma due_about now stamp m e cm id :
  events_of id (due now stamp m e cm) = if cm_CapsuleID cm =s id then due now stamp m e cm else [].
Proof.
  unfold due, events_of. destruct (provider_for m cm); [|by destruct (_ =s id)].
  destruct (fst _); simpl; by destruct (cm_CapsuleID cm =s id).
Qed.

Lemma events_of_app id a b : events_of id (a ++ b) = events_of id a ++ events_of id b.
Proof. apply List.filter_app. Qed.

(** Capsules of other IDs contribute nothing. *)
Lemma events_of_others now stamp m e id l :
  id ∉ l.*1 -> (forall i c, (i, c) ∈ l -> cm_CapsuleID c = i) ->
  events_of id (flat_map (fun kv => due (now kv.1) (stamp kv.1) m e kv.2) l) = [].
Proof.
  induction l as [|[i c] l IH]; intros Hn Hc; [done|]. cbn [flat_map]. rewrite events_of_app, due_about.
  rewrite fmap_cons in Hn. apply not_elem_of_cons in Hn as [Hne Hn]. simpl in *. rewrite (Hc i c) by by left.
  destruct (String.eqb_spec i id); [congruence|]. apply IH; [done|]. intros ? ? ?. apply Hc. by right.
Qed.

Section TickTheorem.
Context `{GoRange}.

Lemma Monitor_evaluate_events now stamp m :
  monitor_ok m ->
  events (Monitor_evaluate now stamp m) =
    events m ++ flat_map (fun kv => due (now kv.1) (stamp kv.1) m (evaluator m) kv.2) (range (capsules m)).
Proof.
  intros Hok. apply tick_events; [apply NoDup_range_fst|]. rewrite List.Forall_forall. intros [id cm] Hin%list_elem_of_In.
  apply elem_of_range in Hin. by apply Hok.
Qed.

(** A tick is the same whatever the order in which the
    monitor visits its capsules: each capsule with a provider gets exactly
    the one event its first ready rule asks for at the start of the tick,
    every other gets none, so no capsule's cooldown disturbs another's. *)
Theorem monitor_tick_exact now stamp m (Hok : monitor_ok m) :
  exists evs, events (Monitor_evaluate now stamp m) = events m ++ evs /\
    forall id, events_of id evs =
      match capsules m !! id with
      | Some cm => due (now id) (stamp id) m (evaluator m) cm
      | None => []
      end.
Proof.
  rewrite (Monitor_evaluate_events now stamp m Hok). eexists. split; [done|]. intros id.
  assert (Hl : forall i c, (i, c) ∈ range (capsules m) <-> capsules m !! i = Some c) by (intros; apply elem_of_range).
  pose proof (NoDup_range_fst (capsules m)) as Hnd.
  assert (Hid : forall i c, (i, c) ∈ range (capsules m) -> cm_CapsuleID c = i) by (intros i c Hi; by apply Hok, Hl).
  destruct (capsules m !! id) as [cm|] eqn:Ecm.
  - apply Hl, list_elem_of_split in Ecm as (l1 & l2 & El). rewrite El in *. clear Hl El.
    rewrite fmap_app, fmap_cons in Hnd. apply list.NoDup_app in Hnd as (_ & Hn1 & Hn2). inversion_clear Hn2 as [|? ? Hni _].
    rewrite flat_map_app, events_of_app. cbn [flat_map]. rewrite events_of_app, due_about. simpl.
    rewrite !events_of_others; [|done|intros i c Hi; apply Hid, elem_of_app; right; by right
      |intros Hi; apply (Hn1 id Hi); by left|intros i c Hi; apply Hid, elem_of_app; by left].
    rewrite app_nil_r, (Hid id cm) by (apply elem_of_app; right; by left). by rewrite String.eqb_refl.
  - apply events_of_others; [|done]. intros ([i c] & -> & Hi)%list_elem_of_fmap. apply Hl in Hi. simpl in Ecm. congruence.
Qed.

End TickTheorem.

(** ** Parsing *)

Definition units : list string := [""; "%"; "ms"; "m"; "s"].
Definition operators : list string := [opGreaterThan; opLessThan; opEqual; opGreaterEq; opLessEq].

Lemma strip_suffix_sound suf s r : strip_suffix suf s = Some r -> s = r +:+ suf.
Proof.
  revert r. induction s as [|c s IH]; intros r; cbn [strip_suffix].
  - destruct (String.eqb_spec "" suf) as [<-|]; [|done]. by intros [= <-].
  - destruct (String.eqb_spec (String c s) suf) as [<-|]; [by intros [= <-]|].
    destruct (strip_suffix suf s) as [r'|] eqn:E; [|done]. intros [= <-]. by rewrite (IH r' eq_refl).
Qed.

Lemma digits_app acc a b v : digits acc (a +:+ b) = Some v -> exists w, digits acc a = Some w /\ digits w b = Some v.
Proof.
  revert acc. induction a as [|c a IH]; intros acc; [by eauto|].
  change (String c a +:+ b) with (String c (a +:+ b)). cbn [digits]. destruct (digit c); [apply IH|done].
Qed.

Fixpoint last_of (s : string) : option ascii :=
  match s with EmptyString => None | String c EmptyString => Some c | String _ s' => last_of s' end.

Lemma last_of_app a c : last_of (a +:+ String c EmptyString) = Some c.
Proof.
  induction a as [|x a IH]; [done|]. change (String x a +:+ String c "") with (String x (a +:+ String c "")).
  cbn [last_of]. destruct (a +:+ String c "") eqn:E; [by destruct a|exact IH].
Qed.

(** A suffix test fails on the last character. *)
Lemma strip_suffix_last s c' suf : last_of s <> Some c' -> strip_suffix (suf +:+ String c' EmptyString) s = None.
Proof.
  intros Hne. destruct (strip_suffix _ s) as [r|] eqn:E; [|done]. apply strip_suffix_sound in E as ->.
  rewrite <- string_app_assoc, last_of_app in Hne. done.
Qed.

Lemma numeral_last n v c : numeral n v -> last_of n = Some c -> is_Some (digit c).
Proof.
  intros [_ Hd]. revert Hd. generalize 0 as acc. induction n as [|x n IH]; intros acc; [done|]. cbn [digits last_of].
  destruct (digit x) eqn:Ex; [|done]. destruct n; [intros _ [= <-]; eauto|]. apply IH.
Qed.

Lemma numeral_suffix n v c : numeral n v -> digit c = None -> last_of n <> Some c.
Proof. intros Hn Hc Hl. destruct (numeral_last n v c Hn Hl). congruence. Qed.

Lemma parseValue_numeral n v u :
  numeral n v -> v <= max_int64 -> u ∈ units -> parseValue (n +:+ u) = Ok (f64_of_Z v, u).
Proof.
  intros Hn Hv Hu. unfold parseValue. cbn [parse_units].
  assert (Hpct : forall s, last_of s <> Some "%"%char -> strip_suffix "%" s = None) by (intros s; exact (strip_suffix_last s "%" "")).
  assert (Hm : forall s, last_of s <> Some "m"%char -> strip_suffix "m" s = None) by (intros s; exact (strip_suffix_last s "m" "")).
  assert (Hsec : forall s, last_of s <> Some "s"%char -> strip_suffix "s" s = None) by (intros s; exact (strip_suffix_last s "s" "")).
  assert (Hmil : forall s, last_of s <> Some "s"%char -> strip_suffix "ms" s = None) by (intros s; exact (strip_suffix_last s "s" "m")).
  assert (Hms : strip_suffix "ms" (n +:+ "s") = None).
  { destruct (strip_suffix "ms" (n +:+ "s")) as [r|] eqn:E; [|done]. apply strip_suffix_sound in E.
    change "ms" with ("m" +:+ "s") in E. rewrite <- string_app_assoc in E. apply (f_equal (strip_suffix "s")) in E.
    rewrite !strip_suffix_app in E. injection E as E. destruct (numeral_suffix n v "m" Hn eq_refl). rewrite E. apply last_of_app. }
  unfold units in Hu. rewrite !elem_of_cons in Hu.
  destruct Hu as [->|[->|[->|[->|[->|Hu]]]]]; [..|by apply not_elem_of_nil in Hu].
  - rewrite string_app_nil_r, Hpct, Hmil, Hm, Hsec
      by (by eapply numeral_suffix). by rewrite (ParseFloat_numeral n v).
  - rewrite strip_suffix_app. by rewrite (ParseFloat_numeral n v).
  - rewrite Hpct, strip_suffix_app.
    + by rewrite (ParseFloat_numeral n v).
    + change "ms" with ("m" +:+ "s"). by rewrite <- string_app_assoc, last_of_app.
  - rewrite Hpct, Hmil, strip_suffix_app by (by rewrite last_of_app).
    by rewrite (ParseFloat_numeral n v).
  - rewrite Hpct, Hms, Hm, strip_suffix_app by (by rewrite last_of_app).
    by rewrite (ParseFloat_numeral n v).
Qed.

Lemma operators_parse o : o ∈ operators -> parseOperator o = Some o /\ word o.
Proof.
  unfold operators. rewrite !elem_of_cons. intros [->|[->|[->|[->|[->|H]]]]]; [by vm_compute..|by apply not_elem_of_nil in H].
Qed.

Lemma numeral_unit_word n v u : numeral n v -> u ∈ units -> word (n +:+ u).
Proof.
  intros [Hne Hd] Hu. split; [|by destruct n]. rewrite text_app, (digits_text 0 n v Hd).
  unfold units in Hu. rewrite !elem_of_cons in Hu.
  by destruct Hu as [->|[->|[->|[->|[->|?%not_elem_of_nil]]]]].
Qed.

Lemma tokenize_three a b c : word a -> word b -> word c -> tokenize (a +:+ " " +:+ b +:+ " " +:+ c) = [a; b; c].
Proof.
  intros Ha Hb Hc. unfold tokenize. rewrite fields_cons, fields_cons, fields_one by done. cbn [List.filter].
  assert (Hw : forall w, word w -> (w =s "") = false) by (intros w [_ ?]; by apply String.eqb_neq).
  by rewrite !Hw.
Qed.

(** The condition syntax means what it says: a metric name,
    one of the five operators and a decimal numeral with an optional unit,
    separated by blanks, parse to the condition with exactly that metric,
    operator, value and unit. *)
Theorem scaling_condition_parses metric o n v u
    (Hm : word metric) (Hs : strings_HasPrefix (metric +:+ " " +:+ o +:+ " " +:+ n +:+ u) "schedule:" = false)
    (Ho : o ∈ operators) (Hn : numeral n v) (Hv : v <= max_int64) (Hu : u ∈ units) :
  let raw := metric +:+ " " +:+ o +:+ " " +:+ n +:+ u in
  ParseCondition raw = Ok {| Metric := metric; Op := o; Value := f64_of_Z v; Unit := u; Raw := raw |}.
Proof.
  intros raw. destruct (operators_parse o Ho) as [Hop How]. pose proof (numeral_unit_word n v u Hn Hu) as Hw.
  assert (Hraw : strings_TrimSpace raw = raw).
  { unfold raw. replace (metric +:+ " " +:+ o +:+ " " +:+ n +:+ u)
      with (metric +:+ (" " +:+ o +:+ " ") +:+ (n +:+ u)) by (by rewrite !string_app_assoc).
    apply TrimSpace_text; [done| |done]. rewrite !text_app. rewrite (text_weaken o) by apply How. done. }
  unfold ParseCondition. rewrite Hraw. unfold raw at 1. rewrite Hs. unfold raw at 1.
  rewrite tokenize_three, Hop, (parseValue_numeral n v u) by done. done.
Qed.

(** ** Units *)

Definition with_unit (u : string) (c : Condition) : Condition :=
  {| Metric := Metric c; Op := Op c; Value := Value c; Unit := u; Raw := Raw c |}.

Lemma unit_ignored u c v : Condition_Evaluate (with_unit u c) v = Condition_Evaluate c v.
Proof. done. Qed.

(** The unit of a condition is parsed and then ignored: the
    documented condition ["idle > 5m"] holds for a capsule that has been idle
    for six seconds (the [idle] metric counts seconds), and fires a rule
    whose author wrote five minutes. *)
Theorem scaling_minutes_read_as_seconds :
  exists c, ParseCondition "idle > 5m" = Ok c /\ Unit c = "m" /\
    Condition_Evaluate c (f64_of_Z 6) = true /\
    evaluateRule {| Name := "idle"; Trigger := triggerModeAll; Conditions := [c]; Action := scalingActionScaleToZero; Cooldown := 0 |}
      (fun name => if name =s "idle" then Some (f64_of_Z 6) else None) = true.
Proof. eexists. split; [vm_compute; reflexivity|]. vm_compute. done. Qed.

(** A rule with the trigger [all] whose conditions are all schedules fires
    at any time of the week: schedules are skipped, not evaluated. *)
Lemma schedule_only_rules_fire name conds action cooldown metrics :
  Forall (fun c => Metric c = "schedule") conds ->
  evaluateRule {| Name := name; Trigger := triggerModeAll; Conditions := conds; Action := action; Cooldown := cooldown |} metrics = true.
Proof. intros Hall. unfold evaluateRule. cbn. induction Hall as [|c cs Hc _ IH]; [done|]. cbn. by rewrite Hc. Qed.

(** ** A concrete monitor *)

Module ScalingDemo.

Definition load : MetricsProvider := fun name => if name =s "cpu" then Some (f64_of_Z 90) else None.
Definition hot : Rule :=
  {| Name := "hot"; Trigger := triggerModeAny; Action := scalingActionScaleUp; Cooldown := minute;
     Conditions := [{| Metric := "cpu"; Op := opGreaterThan; Value := f64_of_Z 70; Unit := "%"; Raw := "cpu > 70%" |}] |}.
Definition web : CapsuleMetrics := {| cm_CapsuleID := "a1"; cm_Rules := [hot]; cm_Metrics := Some load |}.
Definition demo : Monitor := Monitor_Register web (NewMonitor None).

Lemma scaling_cooldown_respected_witness : 0 + minute <= minute.
Proof.
  refine (scaling_cooldown_respected NewEvaluator 0 "a1" [hot] load (fired hot)
    (recordCooldown (cooldownKey "a1" "hot") 0 NewEvaluator)
    [{| at_ := second; who := "a1"; what := [hot]; sees := load |}] minute [hot] load (fired hot)
    (recordCooldown (cooldownKey "a1" "hot") minute (recordCooldown (cooldownKey "a1" "hot") 0 NewEvaluator)) minute _ _ _ _ _ _).
  - vm_compute. reflexivity.
  - constructor; [vm_compute; discriminate|constructor].
  - vm_compute. reflexivity.
  - reflexivity.
  - vm_compute. reflexivity.
  - intros r [->|Hr]%elem_of_cons; [reflexivity|]. by apply not_elem_of_nil in Hr.
Defined.

Lemma monitor_tick_exact_witness :
  exists evs, events (Monitor_evaluate (fun _ => 0) (fun _ => 1) demo) = evs /\
    events_of "a1" evs = [{| se_CapsuleID := "a1"; se_RuleName := "hot"; se_Action := scalingActionScaleUp; se_Timestamp := 1 |}].
Proof.
  destruct (monitor_tick_exact (fun _ => 0) (fun _ => 1) demo) as (evs & Hev & Hof).
  - intros id cm. unfold demo. simpl. rewrite lookup_insert_Some. intros [[<- <-]|[_ []%lookup_empty_Some]]. by split.
  - exists evs. split; [exact Hev|]. rewrite Hof. vm_compute. reflexivity.
Defined.

Lemma scaling_condition_parses_witness :
  ParseCondition "latency.p95 >= 200ms" =
    Ok {| Metric := "latency.p95"; Op := opGreaterEq; Value := f64_of_Z 200; Unit := "ms"; Raw := "latency.p95 >= 200ms" |}.
Proof.
  apply (scaling_condition_parses "latency.p95" opGreaterEq "200" 200 "ms").
  - split; [vm_compute; reflexivity|discriminate].
  - vm_compute. reflexivity.
  - unfold operators. rewrite !elem_of_cons. tauto.
  - split; [discriminate|vm_compute; reflexivity].
  - vm_compute. discriminate.
  - unfold units. rewrite !elem_of_cons. tauto.
Defined.

End ScalingDemo.
