(* ===== verification/Orbit.v ===== *)
(** * Orbits: [capsule/orbit/*.go] and the conversions of [node/capsule_handler.go]

    Capsules travel between nodes as signed messages on the orbits' PubSub
    topics.  The orbit [Manager] keeps the joined topics, the [Deduplicator]
    the hashes of the messages seen, the [Announcer] builds, signs, checks and
    decodes messages; [capsuleToProto] and the node's [protoToCapsule] convert
    capsules to and from their wire form.  PubSub, Protocol Buffers and
    SHA-256 are interfaces; each [time.Now()] is an argument. *)

From S2P Require Import Prelude Float64 CapsuleTypes CapsuleSpec Gravity Elector ElectionTopic.
Local Open Scope string_scope.
Local Open Scope list_scope.
Local Open Scope Z_scope.

(** ** Joined orbits: [orbit.go] *)

Definition BuildOrbitTopic (clusterPath orbitName : string) : string :=
  "falak/" +:+ clusterPath +:+ "/orbit/" +:+ orbitName.
Definition BuildCapsuleTopic (clusterPath capsuleID : string) : string :=
  "falak/" +:+ clusterPath +:+ "/capsule/" +:+ capsuleID.

Inductive OrbitError :=
  | ErrAlreadyJoined (orbit : string)
  | ErrJoinTopic (topic e : string)
  | ErrSubscribe (topic e : string)
  | ErrNotJoined (orbit : string)
  | ErrTopicPublish (e : string).

Record OrbitManager := {
  om_clusterPath : string;
  om_nodeID : string;
  om_orbits : gset string;          (** the joined orbits *)
  om_cancelled : bool               (** the manager's context *)
}.

Definition set_orbits (o : gset string) (m : OrbitManager) : OrbitManager :=
  {| om_clusterPath := om_clusterPath m; om_nodeID := om_nodeID m; om_orbits := o; om_cancelled := om_cancelled m |}.

Definition NewOrbitManager (clusterPath nodeID : string) : OrbitManager :=
  {| om_clusterPath := clusterPath; om_nodeID := nodeID; om_orbits := ∅; om_cancelled := false |}.

(** [joined] and [subscribed] are the answers of the PubSub library, whose
    topics and subscriptions are not modelled further. *)
Definition Orbit_Join (orbitName : string) (joined subscribed : result string unit)
  : ST OrbitManager (result OrbitError unit) := fun m =>
  if bool_decide (orbitName ∈ om_orbits m) then (Err (ErrAlreadyJoined orbitName), m)
  else
    let topicName := BuildOrbitTopic (om_clusterPath m) orbitName in
    match joined with
    | Err e => (Err (ErrJoinTopic topicName e), m)
    | Ok _ =>
        match subscribed with
        | Err e => (Err (ErrSubscribe topicName e), m)
        | Ok _ => (Ok tt, set_orbits ({[orbitName]} ∪ om_orbits m) m)
        end
    end.

Definition Orbit_Leave (orbitName : string) : ST OrbitManager (result OrbitError unit) := fun m =>
  if bool_decide (orbitName ∈ om_orbits m)
  then (Ok tt, set_orbits (om_orbits m ∖ {[orbitName]}) m)
  else (Err (ErrNotJoined orbitName), m).

Definition Orbit_LeaveAll (m : OrbitManager) : OrbitManager :=
  {| om_clusterPath := om_clusterPath m; om_nodeID := om_nodeID m; om_orbits := ∅;
     om_cancelled := true |}.

(** [sent] is the answer of the topic. *)
Definition Orbit_Publish (orbitName : string) (sent : result string unit) (m : OrbitManager) : result OrbitError unit :=
  if bool_decide (orbitName ∈ om_orbits m)
  then match sent with Ok _ => Ok tt | Err e => Err (ErrTopicPublish e) end
  else Err (ErrNotJoined orbitName).

Definition IsJoined (orbitName : string) (m : OrbitManager) : bool := bool_decide (orbitName ∈ om_orbits m).

(** One message of [messageLoop]: what the handler is called with. The loop of
    an orbit stops when its own context (cancelled by [Leave]) or the
    manager's is done. *)
Definition orbit_receive (orbitName : string) (data : bytes) (receivedFrom : string) (m : OrbitManager)
  : option (string * bytes * string) :=
  if om_cancelled m || negb (IsJoined orbitName m) then None
  else if receivedFrom =s om_nodeID m then None
  else Some (orbitName, data, receivedFrom).

(** ** Seen messages: [subscription.go] *)

(** [sha256.Sum256] *)
Class Sha256 := { Sum256 : bytes -> bytes }.

Record Deduplicator := { seen : gmap bytes Time; dd_maxAge : Duration }.

Definition NewDeduplicator : Deduplicator := {| seen := ∅; dd_maxAge := 5 * minute |}.
Definition WithDeduplicatorMaxAge (d : Duration) (dd : Deduplicator) : Deduplicator := {| seen := seen dd; dd_maxAge := d |}.

Definition IsDuplicate `{Sha256} (now : Time) (data : bytes) : ST Deduplicator bool := fun d =>
  let hash := Sum256 data in
  match seen d !! hash with
  | Some _ => (true, d)
  | None => (false, {| seen := <[hash := now]> (seen d); dd_maxAge := dd_maxAge d |})
  end.

Definition Cleanup (now : Time) (d : Deduplicator) : Deduplicator :=
  {| seen := filter (fun kv => (dd_maxAge d <? time_Sub now kv.2) = false) (seen d); dd_maxAge := dd_maxAge d |}.

(** ** Canonical content: [signing.go] *)

Record OrbitMessage := {
  msg_Type : string;
  msg_Payload : bytes;
  msg_SenderId : string;
  msg_Timestamp : option Time;
  msg_Signature : bytes
}.

Definition writeField (buf data : bytes) : bytes :=
  buf ++ big_endian 4 (uint32 (Z.of_nat (length data))) ++ data.

Definition orbit_canonicalContent (msg : OrbitMessage) : bytes :=
  let buf := writeField [] (list_ascii_of_string (msg_Type msg)) in
  let buf := writeField buf (msg_Payload msg) in
  let buf := writeField buf (list_ascii_of_string (msg_SenderId msg)) in
  let tsBytes := match msg_Timestamp msg with
                 | None => []
                 | Some t => big_endian 8 (uint64 (int64 t))
                 end in
  writeField buf tsBytes.

Definition MaxMessageAge : Duration := 30 * second.

(** ** Wire form of a capsule: [announcement.go]

    The message types, less the fields that neither side reads or writes. *)

Record PbResources := { pb_CpuCores : Z; pb_MemoryMb : Z; pb_DiskMb : Z }.
Record PbReplicaConfig := { pb_Min : Z; pb_Max : Z; pb_Exact : Z }.
Record PbScalingRule := {
  psr_Name : string; psr_Trigger : string; psr_Conditions : list string; psr_Action : string; psr_CooldownSeconds : Z }.
Record PbPlacementRule := {
  ppr_Name : string; ppr_Type : string; ppr_Mode : string; ppr_TargetNames : list string; ppr_Labels : Labels; ppr_Required : bool }.
Record PbMomentumConfig := {
  pmc_Base : Z; pmc_BoostOnTraffic : bool; pmc_ReduceOnIdle : bool; pmc_IdleTimeoutSeconds : Z }.
Record PbMomentumState := { pms_Current : Z; pms_Base : Z; pms_LastAdjusted : option Time }.
Record PbReplicaState := { prs_ReplicaId : string; prs_NodeId : string; prs_Status : string; prs_StartedAt : option Time }.
Record PbSpec := {
  ps_Name : string; ps_Image : string; ps_ImageDigest : string; ps_Orbit : string; ps_Tier : string; ps_Labels : Labels;
  ps_Resources : option PbResources; ps_Replicas : option PbReplicaConfig;
  ps_ScalingRules : list PbScalingRule; ps_PlacementRules : list PbPlacementRule;
  ps_RuntimeEnv : option Labels;   (** the runtime message, of which only the environment is used *)
  ps_MomentumConfig : option PbMomentumConfig }.
Record PbCapsule := {
  pc_Id : string; pc_ClusterId : string; pc_Spec : option PbSpec; pc_Status : string;
  pc_Replicas : list PbReplicaState; pc_Version : string; pc_CreatedAt : option Time; pc_UpdatedAt : option Time;
  pc_Momentum : option PbMomentumState }.

Section Conversions.
Context `{GoConv}.

(** [Duration.Seconds()] *)
Definition Duration_Seconds (d : Duration) : f64 :=
  (f64_of_Z (Z.quot d second) + f64_of_Z (Z.rem d second) / f64_of_Z 1000000000)%f64.

(** [int32(x)] *)
Definition f64_to_int32 (x : f64) : Z :=
  let i := f64_to_int64 x in if (- 2 ^ 31 <=? i) && (i <? 2 ^ 31) then i else int32 (conv_overflow x).

Definition replicaStatesToProto (replicas : list ReplicaState) : list PbReplicaState :=
  map (fun r => {| prs_ReplicaId := rs_ReplicaID r; prs_NodeId := rs_NodeID r; prs_Status := rs_Status r;
                   prs_StartedAt := Some (rs_StartedAt r) |}) replicas.

Definition specToProto (s : CapsuleSpec) : PbSpec := {|
  ps_Name := cs_Name s; ps_Image := cs_Image s; ps_ImageDigest := cs_ImageDigest s; ps_Orbit := cs_Orbit s;
  ps_Tier := cs_Tier s; ps_Labels := cs_Labels s;
  ps_Resources := Some {| pb_CpuCores := CPUCores (cs_Resources s); pb_MemoryMb := MemoryMB (cs_Resources s);
                          pb_DiskMb := DiskMB (cs_Resources s) |};
  ps_Replicas := Some {| pb_Min := Min (cs_Replicas s); pb_Max := Max (cs_Replicas s); pb_Exact := Exact (cs_Replicas s) |};
  ps_RuntimeEnv := Some (rc_Env (cs_Runtime s));
  ps_MomentumConfig := Some {| pmc_Base := mc_Base (cs_MomentumConfig s);
                               pmc_BoostOnTraffic := mc_BoostOnTraffic (cs_MomentumConfig s);
                               pmc_ReduceOnIdle := mc_ReduceOnIdle (cs_MomentumConfig s);
                               pmc_IdleTimeoutSeconds := f64_to_int32 (Duration_Seconds (mc_IdleTimeout (cs_MomentumConfig s))) |};
  ps_ScalingRules := map (fun rule => {| psr_Name := sr_Name rule; psr_Trigger := sr_Trigger rule;
                            psr_Conditions := sr_Conditions rule; psr_Action := sr_Action rule;
                            psr_CooldownSeconds := f64_to_int32 (Duration_Seconds (sr_Cooldown rule)) |}) (cs_ScalingRules s);
  ps_PlacementRules := map (fun rule => {| ppr_Name := pr_Name rule; ppr_Type := pr_Type rule; ppr_Mode := pr_Mode rule;
                            ppr_TargetNames := pr_Names rule; ppr_Labels := pr_Labels rule; ppr_Required := pr_Required rule |})
                          (cs_PlacementRules s) |}.

Definition capsuleToProto (c : Capsule) : PbCapsule := {|
  pc_Id := c_ID c; pc_ClusterId := c_ClusterID c; pc_Spec := Some (specToProto (c_Spec c)); pc_Status := c_Status c;
  pc_Replicas := replicaStatesToProto (c_Replicas c); pc_Version := c_Version c;
  pc_CreatedAt := Some (c_CreatedAt c); pc_UpdatedAt := Some (c_UpdatedAt c);
  pc_Momentum := Some {| pms_Current := ms_Current (c_Momentum c); pms_Base := ms_Base (c_Momentum c);
                         pms_LastAdjusted := Some (ms_LastAdjusted (c_Momentum c)) |} |}.

End Conversions.

(** ** Back from the wire: [protoToCapsule], [protoToSpec] of [node/capsule_handler.go] *)

Definition zero_resources : ResourceRequirements :=
  {| CPUCores := 0; CPUCoresMax := 0; MemoryMB := 0; MemoryMBMax := 0; DiskMB := 0 |}.
Definition zero_runtime : RuntimeConfig :=
  {| rc_Env := None; rc_Network := {| nc_Mode := ""; nc_Ports := [] |}; rc_HealthCheck := None;
     rc_FailurePolicy := {| fp_RestartLimit := 0; fp_MaxNodeAttempts := 0; fp_GracefulTimeout := 0 |};
     rc_LogRetention := {| lr_MaxFileSizeMB := 0; lr_MaxFiles := 0 |}; rc_StatsInterval := 0; rc_Registry := None;
     rc_SnapshotConfig := {| sc_MaxPerCapsule := 0; sc_TTL := 0 |} |}.
Definition with_env (env : Labels) (r : RuntimeConfig) : RuntimeConfig :=
  {| rc_Env := env; rc_Network := rc_Network r; rc_HealthCheck := rc_HealthCheck r; rc_FailurePolicy := rc_FailurePolicy r;
     rc_LogRetention := rc_LogRetention r; rc_StatsInterval := rc_StatsInterval r; rc_Registry := rc_Registry r;
     rc_SnapshotConfig := rc_SnapshotConfig r |}.
Definition zero_momentum_config : MomentumConfig :=
  {| mc_Base := 0; mc_BoostOnTraffic := false; mc_ReduceOnIdle := false; mc_IdleTimeout := 0 |}.
Definition zero_spec : CapsuleSpec :=
  {| cs_Name := ""; cs_Image := ""; cs_ImageAlias := ""; cs_ImageDigest := ""; cs_Orbit := ""; cs_Tier := ""; cs_Labels := None;
     cs_Resources := zero_resources; cs_Replicas := {| Min := 0; Max := 0; Exact := 0 |}; cs_ScalingRules := [];
     cs_PlacementRules := []; cs_Runtime := zero_runtime; cs_MomentumConfig := zero_momentum_config; cs_Command := [] |}.

Definition protoToSpec (pb : PbSpec) : CapsuleSpec := {|
  cs_Name := ps_Name pb; cs_Image := ps_Image pb; cs_ImageAlias := ""; cs_ImageDigest := ps_ImageDigest pb;
  cs_Orbit := ps_Orbit pb; cs_Tier := ps_Tier pb; cs_Labels := ps_Labels pb;
  cs_Resources := match ps_Resources pb with
                  | Some r => {| CPUCores := pb_CpuCores r; CPUCoresMax := 0; MemoryMB := pb_MemoryMb r; MemoryMBMax := 0;
                                 DiskMB := pb_DiskMb r |}
                  | None => zero_resources
                  end;
  cs_Replicas := match ps_Replicas pb with
                 | Some r => {| Min := pb_Min r; Max := pb_Max r; Exact := pb_Exact r |}
                 | None => {| Min := 0; Max := 0; Exact := 0 |}
                 end;
  cs_ScalingRules := map (fun rule => {| sr_Name := psr_Name rule; sr_Trigger := psr_Trigger rule;
                            sr_Conditions := psr_Conditions rule; sr_Action := psr_Action rule;
                            sr_Cooldown := int64 (psr_CooldownSeconds rule * second) |}) (ps_ScalingRules pb);
  cs_PlacementRules := map (fun rule => {| pr_Name := ppr_Name rule; pr_Type := ppr_Type rule; pr_Mode := ppr_Mode rule;
                            pr_Names := ppr_TargetNames rule; pr_Labels := ppr_Labels rule; pr_Required := ppr_Required rule |})
                          (ps_PlacementRules pb);
  cs_Runtime := match ps_RuntimeEnv pb with Some env => with_env env zero_runtime | None => zero_runtime end;
  cs_MomentumConfig := match ps_MomentumConfig pb with
                       | Some mc => {| mc_Base := pmc_Base mc; mc_BoostOnTraffic := pmc_BoostOnTraffic mc;
                                       mc_ReduceOnIdle := pmc_ReduceOnIdle mc;
                                       mc_IdleTimeout := int64 (pmc_IdleTimeoutSeconds mc * second) |}
                       | None => zero_momentum_config
                       end;
  cs_Command := [] |}.

(** [t.AsTime()] where the message is set, the zero time where it is nil. *)
Definition as_time (t : option Time) : Time := default zero_time t.

Definition protoToCapsule (pb : option PbCapsule) : option Capsule :=
  match pb with
  | None => None
  | Some pb => Some {|
      c_ID := pc_Id pb; c_ClusterID := pc_ClusterId pb; c_Status := pc_Status pb; c_Version := pc_Version pb;
      c_CreatedAt := as_time (pc_CreatedAt pb); c_UpdatedAt := as_time (pc_UpdatedAt pb);
      c_Momentum := match pc_Momentum pb with
                    | Some m => {| ms_Current := pms_Current m; ms_Base := pms_Base m; ms_LastAdjusted := as_time (pms_LastAdjusted m) |}
                    | None => {| ms_Current := 0; ms_Base := 0; ms_LastAdjusted := zero_time |}
                    end;
      c_Spec := match pc_Spec pb with Some s => protoToSpec s | None => zero_spec end;
      c_Replicas := map (fun r => {| rs_ReplicaID := prs_ReplicaId r; rs_NodeID := prs_NodeId r; rs_Status := prs_Status r;
                                     rs_StartedAt := as_time (prs_StartedAt r) |}) (pc_Replicas pb) |}
  end.

(** ** Announcer: [announcement.go] *)

Record CapsuleAnnouncement := { an_Capsule : option PbCapsule; an_AnnouncingNode : string }.
Record CapsuleStatusUpdate := {
  su_CapsuleId : string; su_Status : string; su_Replicas : list PbReplicaState;
  su_Momentum : option PbMomentumState; su_Timestamp : option Time }.
Record CapsuleWithdrawal := { wd_CapsuleId : string; wd_Reason : string }.

(** [proto.Marshal] and [proto.Unmarshal] of the message types. *)
Class OrbitCodec := {
  marshalOrbit : OrbitMessage -> option bytes;
  unmarshalOrbit : bytes -> option OrbitMessage;
  marshalAnnouncement : CapsuleAnnouncement -> option bytes;
  unmarshalAnnouncement : bytes -> option CapsuleAnnouncement;
  marshalStatus : CapsuleStatusUpdate -> option bytes;
  unmarshalStatus : bytes -> option CapsuleStatusUpdate;
  marshalWithdrawal : CapsuleWithdrawal -> option bytes;
  unmarshalWithdrawal : bytes -> option CapsuleWithdrawal
}.

(** An empty map has no encoding, it is decoded as nil. *)
Definition wire_map (l : Labels) : Labels := if bool_decide (entries l = ∅) then None else l.

Definition wire_placement (r : PbPlacementRule) : PbPlacementRule :=
  {| ppr_Name := ppr_Name r; ppr_Type := ppr_Type r; ppr_Mode := ppr_Mode r; ppr_TargetNames := ppr_TargetNames r;
     ppr_Labels := wire_map (ppr_Labels r); ppr_Required := ppr_Required r |}.
Definition wire_spec (s : PbSpec) : PbSpec :=
  {| ps_Name := ps_Name s; ps_Image := ps_Image s; ps_ImageDigest := ps_ImageDigest s; ps_Orbit := ps_Orbit s;
     ps_Tier := ps_Tier s; ps_Labels := wire_map (ps_Labels s); ps_Resources := ps_Resources s; ps_Replicas := ps_Replicas s;
     ps_ScalingRules := ps_ScalingRules s; ps_PlacementRules := map wire_placement (ps_PlacementRules s);
     ps_RuntimeEnv := wire_map <$> ps_RuntimeEnv s; ps_MomentumConfig := ps_MomentumConfig s |}.
Definition wire_capsule (c : PbCapsule) : PbCapsule :=
  {| pc_Id := pc_Id c; pc_ClusterId := pc_ClusterId c; pc_Spec := wire_spec <$> pc_Spec c; pc_Status := pc_Status c;
     pc_Replicas := pc_Replicas c; pc_Version := pc_Version c; pc_CreatedAt := pc_CreatedAt c;
     pc_UpdatedAt := pc_UpdatedAt c; pc_Momentum := pc_Momentum c |}.

(** What Protocol Buffers guarantee: decoding inverts encoding. *)
Class OrbitLaws (P : OrbitCodec) := {
  orbit_roundtrip : forall m b, marshalOrbit m = Some b -> unmarshalOrbit b = Some m;
  announcement_roundtrip : forall a b, marshalAnnouncement a = Some b ->
    unmarshalAnnouncement b = Some {| an_Capsule := wire_capsule <$> an_Capsule a; an_AnnouncingNode := an_AnnouncingNode a |};
  status_roundtrip : forall u b, marshalStatus u = Some b -> unmarshalStatus b = Some u;
  withdrawal_roundtrip : forall w b, marshalWithdrawal w = Some b -> unmarshalWithdrawal b = Some w
}.

Record Announcer := {
  a_manager : OrbitManager;
  a_dedup : Deduplicator;
  a_nodeID : string;
  a_signer : option Signer;
  a_verifier : option Verifier
}.

Definition NewAnnouncer (manager : OrbitManager) (nodeID : string) (signer : option Signer) (verifier : option Verifier) : Announcer :=
  {| a_manager := manager; a_dedup := NewDeduplicator; a_nodeID := nodeID; a_signer := signer; a_verifier := verifier |}.

Definition with_dedup (d : Deduplicator) (a : Announcer) : Announcer :=
  {| a_manager := a_manager a; a_dedup := d; a_nodeID := a_nodeID a; a_signer := a_signer a; a_verifier := a_verifier a |}.

Inductive AnnounceError :=
  | ErrMarshalContent | ErrSignMessage (e : string) | ErrMarshalMessage | ErrPublishMessage (e : OrbitError).

Inductive HandleError :=
  | ErrDuplicate | ErrMalformed | ErrStale | ErrMissingSignature | ErrInvalidSignature (sender : string)
  | ErrBadPayload | ErrUnknownType (type : string).

Inductive OrbitPayload :=
  | Announced (a : CapsuleAnnouncement) | StatusUpdated (u : CapsuleStatusUpdate) | Withdrawn (w : CapsuleWithdrawal).

Section Announcer.
Context `{OrbitCodec, Sha256, GoConv}.

Definition buildSignedMessage (now : Time) (msgType : string) (payload : bytes) (a : Announcer) : result AnnounceError bytes :=
  let msg := {| msg_Type := msgType; msg_Payload := payload; msg_SenderId := a_nodeID a; msg_Timestamp := Some now;
                msg_Signature := [] |} in
  match (match a_signer a with
         | None => Ok msg
         | Some signer =>
             match signer (orbit_canonicalContent msg) with
             | Err e => Err (ErrSignMessage e)
             | Ok sig => Ok {| msg_Type := msgType; msg_Payload := payload; msg_SenderId := a_nodeID a;
                               msg_Timestamp := Some now; msg_Signature := sig |}
             end
         end) with
  | Err e => Err e
  | Ok msg => match marshalOrbit msg with Some data => Ok data | None => Err ErrMarshalMessage end
  end.

(** The tail of [Announce], [UpdateStatus] and [Withdraw]; [Ok] carries the
    bytes that went out. *)
Definition send (now : Time) (msgType orbitName : string) (payload : option bytes) (sent : result string unit) (a : Announcer)
  : result AnnounceError bytes :=
  match payload with
  | None => Err ErrMarshalContent
  | Some payload =>
      match buildSignedMessage now msgType payload a with
      | Err e => Err e
      | Ok data =>
          match Orbit_Publish orbitName sent (a_manager a) with
          | Err e => Err (ErrPublishMessage e)
          | Ok _ => Ok data
          end
      end
  end.

Definition Announcer_Announce (now : Time) (c : Capsule) (sent : result string unit) (a : Announcer) : result AnnounceError bytes :=
  send now "announcement" (cs_Orbit (c_Spec c))
    (marshalAnnouncement {| an_Capsule := Some (capsuleToProto c); an_AnnouncingNode := a_nodeID a |}) sent a.

Definition UpdateStatus (now now' : Time) (c : Capsule) (sent : result string unit) (a : Announcer) : result AnnounceError bytes :=
  send now' "status" (cs_Orbit (c_Spec c))
    (marshalStatus {| su_CapsuleId := c_ID c; su_Status := c_Status c; su_Replicas := replicaStatesToProto (c_Replicas c);
                      su_Momentum := Some {| pms_Current := ms_Current (c_Momentum c); pms_Base := ms_Base (c_Momentum c);
                                             pms_LastAdjusted := Some (ms_LastAdjusted (c_Momentum c)) |};
                      su_Timestamp := Some now |}) sent a.

Definition Withdraw (now : Time) (orbitName : string) (id : CapsuleID) (reason : string) (sent : result string unit) (a : Announcer)
  : result AnnounceError bytes :=
  send now "withdrawal" orbitName (marshalWithdrawal {| wd_CapsuleId := id; wd_Reason := reason |}) sent a.

Definition unsigned (msg : OrbitMessage) : OrbitMessage :=
  {| msg_Type := msg_Type msg; msg_Payload := msg_Payload msg; msg_SenderId := msg_SenderId msg;
     msg_Timestamp := msg_Timestamp msg; msg_Signature := [] |}.

(** The checks on a decoded envelope. *)
Definition check_message (now : Time) (a : Announcer) (msg : OrbitMessage) : option HandleError :=
  if match msg_Timestamp msg with Some ts => MaxMessageAge <? time_Sub now ts | None => false end then Some ErrStale
  else match a_verifier a with
       | None => None
       | Some verify =>
           match msg_Signature msg with
           | [] => Some ErrMissingSignature
           | sig => if negb (verify (msg_SenderId msg) (orbit_canonicalContent (unsigned msg)) sig)
                    then Some (ErrInvalidSignature (msg_SenderId msg)) else None
           end
       end.

Definition decode_payload (msg : OrbitMessage) : result HandleError OrbitPayload :=
  if msg_Type msg =s "announcement" then
    match unmarshalAnnouncement (msg_Payload msg) with Some a => Ok (Announced a) | None => Err ErrBadPayload end
  else if msg_Type msg =s "status" then
    match unmarshalStatus (msg_Payload msg) with Some u => Ok (StatusUpdated u) | None => Err ErrBadPayload end
  else if msg_Type msg =s "withdrawal" then
    match unmarshalWithdrawal (msg_Payload msg) with Some w => Ok (Withdrawn w) | None => Err ErrBadPayload end
  else Err (ErrUnknownType (msg_Type msg)).

(** [now] is the clock reading of the deduplicator, [now'] the later one of
    the age check. *)
Definition HandleMessage (now now' : Time) (data : bytes) : ST Announcer (result HandleError OrbitPayload) := fun a =>
  let '(dup, d) := IsDuplicate now data (a_dedup a) in
  let a := with_dedup d a in
  if dup then (Err ErrDuplicate, a)
  else match unmarshalOrbit data with
       | None => (Err ErrMalformed, a)
       | Some msg => match check_message now' a msg with
                     | Some e => (Err e, a)
                     | None => (decode_payload msg, a)
                     end
       end.

End Announcer.

(** ** Replay protection *)

Section Replay.
Context `{OrbitCodec, Sha256, GoConv}.

(** What happens at an announcer after a message was handled. *)
Inductive inbox_op :=
  | OHandle (now now' : Time) (data : bytes)
  | OCleanup (now : Time).

Definition op_time (op : inbox_op) : Time := match op with OHandle _ now' _ => now' | OCleanup now => now end.

Definition run_inbox (a : Announcer) (op : inbox_op) : Announcer :=
  match op with
  | OHandle now now' data => snd (HandleMessage now now' data a)
  | OCleanup now => with_dedup (Cleanup now (a_dedup a)) a
  end.

Lemma HandleMessage_dedup now now' data a :
  a_dedup (snd (HandleMessage now now' data a)) = snd (IsDuplicate now data (a_dedup a)).
Proof.
  unfold HandleMessage. destruct (IsDuplicate now data (a_dedup a)) as [[] d]; [done|].
  destruct (unmarshalOrbit data) as [msg|]; [|done]. by destruct (check_message now' (with_dedup d a) msg).
Qed.

Lemma IsDuplicate_keeps now data d h t : seen d !! h = Some t -> seen (snd (IsDuplicate now data d)) !! h = Some t.
Proof.
  intros Hh. unfold IsDuplicate. destruct (seen d !! Sum256 data) eqn:E; [done|]. simpl.
  rewrite lookup_insert_ne; [done|]. congruence.
Qed.

(** Until [limit], a recorded hash can only go once it is older than the
    deduplicator's maximum age. *)
Definition remembered (h : bytes) (t limit : Time) (d : Deduplicator) : Prop :=
  seen d !! h = Some t \/ t + dd_maxAge d < limit.

Lemma Cleanup_remembers now d h t limit :
  min_int64 <= dd_maxAge d < max_int64 -> now <= limit -> remembered h t limit d -> remembered h t limit (Cleanup now d).
Proof.
  intros Hage Hnow [Hh|Hh]; [|by right]. unfold remembered, Cleanup. simpl.
  destruct (Z.ltb_spec (dd_maxAge d) (now - t)); [right; lia|]. left.
  apply map_lookup_filter_Some. split; [done|]. cbn [snd]. rewrite time_Sub_gt by done. by apply Z.ltb_ge.
Qed.

Lemma inbox_remembers ops a h t limit :
  min_int64 <= dd_maxAge (a_dedup a) < max_int64 -> Forall (fun op => op_time op <= limit) ops ->
  remembered h t limit (a_dedup a) ->
  remembered h t limit (a_dedup (fold_left run_inbox ops a)) /\
  dd_maxAge (a_dedup (fold_left run_inbox ops a)) = dd_maxAge (a_dedup a).
Proof.
  revert a. induction ops as [|op ops IH]; intros a Hage Hall Hr; [done|]. inversion_clear Hall. cbn [fold_left].
  assert (Hm : dd_maxAge (a_dedup (run_inbox a op)) = dd_maxAge (a_dedup a)).
  { destruct op; [|done]. simpl. rewrite HandleMessage_dedup. unfold IsDuplicate. by destruct (seen _ !! _). }
  destruct (IH (run_inbox a op)) as [IH1 IH2]; [by rewrite Hm|done| |by rewrite IH2].
  destruct op; simpl in *; [|by apply Cleanup_remembers].
  destruct Hr as [Hr|Hr]; [|right; by rewrite Hm]. left. rewrite HandleMessage_dedup. by apply IsDuplicate_keeps.
Qed.

Lemma HandleMessage_accepted now now' data a p a' :
  HandleMessage now now' data a = (Ok p, a') ->
  seen (a_dedup a) !! Sum256 data = None /\ a' = with_dedup (snd (IsDuplicate now data (a_dedup a))) a /\
  exists msg, unmarshalOrbit data = Some msg /\ check_message now' a msg = None /\ decode_payload msg = Ok p.
Proof.
  unfold HandleMessage, IsDuplicate. destruct (seen (a_dedup a) !! Sum256 data); [done|].
  destruct (unmarshalOrbit data) as [msg|]; [|done]. cbn [snd].
  change (check_message now' (with_dedup _ a) msg) with (check_message now' a msg).
  destruct (check_message now' a msg) eqn:Ec; [done|]. intros [= Hd <-]. split_and!; [done..|]. eauto.
Qed.

Lemma check_message_fresh now a msg ts :
  check_message now a msg = None -> msg_Timestamp msg = Some ts -> now - ts <= MaxMessageAge.
Proof.
  unfold check_message. intros Hc E. rewrite E in Hc.
  rewrite time_Sub_gt in Hc by (unfold MaxMessageAge, second, millisecond, microsecond, min_int64, max_int64; lia).
  destruct (Z.ltb_spec MaxMessageAge (now - ts)); [done|lia].
Qed.

(** A message is accepted once: after a node accepted a
    message whose timestamp is at most four and a half minutes ahead of its
    clock, it never accepts the same bytes again, whatever it handles and
    however often the deduplicator is cleaned up in between. *)
Theorem orbit_no_replay n1 n1' data a p a1 msg ts ops n2 n2'
    (Hfirst : HandleMessage n1 n1' data a = (Ok p, a1)) (Hage : dd_maxAge (a_dedup a) = 5 * minute)
    (Hmsg : unmarshalOrbit data = Some msg) (Hts : msg_Timestamp msg = Some ts)
    (Hskew : ts <= n1 + (4 * minute + 30 * second))
    (Hops : Forall (fun op => op_time op <= n2') ops) :
  is_ok (fst (HandleMessage n2 n2' data (fold_left run_inbox ops a1))) = false.
Proof.
  apply HandleMessage_accepted in Hfirst as (Hnew & -> & _).
  destruct (inbox_remembers ops (with_dedup (snd (IsDuplicate n1 data (a_dedup a))) a) (Sum256 data) n1 n2') as [Hr Hm];
    [|exact Hops| |].
  - unfold IsDuplicate. rewrite Hnew. simpl. rewrite Hage. vm_compute. split; congruence.
  - left. unfold IsDuplicate. rewrite Hnew. simpl. by rewrite lookup_insert_eq.
  - set (a2 := fold_left run_inbox ops _) in *.
    destruct (HandleMessage n2 n2' data a2) as [[p2|] a3] eqn:E2; [|done].
    apply HandleMessage_accepted in E2 as (Hnone & _ & msg2 & Hmsg2 & Hc & _). exfalso.
    rewrite Hmsg in Hmsg2. injection Hmsg2 as <-. pose proof (check_message_fresh n2' a2 msg ts Hc Hts) as Hfresh.
    destruct Hr as [Hr|Hr]; [congruence|].
    assert (Hm' : dd_maxAge (a_dedup a2) = 5 * minute).
    { rewrite Hm. unfold IsDuplicate. rewrite Hnew. exact Hage. }
    rewrite Hm' in Hr. unfold MaxMessageAge, minute, second, millisecond, microsecond in *. lia.
Qed.

End Replay.

(** ** The trip of a capsule *)

Definition whole_seconds (d : Duration) : Prop := exists k, 0 <= k < 2 ^ 31 /\ d = k * second.

(** A whole number of seconds is converted exactly. *)
Lemma Duration_Seconds_exact k : 0 <= k < 2 ^ 53 ->
  finite (Duration_Seconds (k * second)) /\ key (Duration_Seconds (k * second)) = k * 2 ^ scale.
Proof.
  intros Hk. unfold Duration_Seconds.
  assert (Hq : Z.quot (k * second) second = k) by (apply Z.quot_mul; done).
  assert (Hrem : Z.rem (k * second) second = 0) by (apply Z.rem_mul; done).
  rewrite Hq, Hrem. set (z := (f64_of_Z 0 / f64_of_Z 1000000000)%f64).
  assert (Hz : finite z) by (apply finiteb_finite; vm_compute; reflexivity).
  assert (Hkz : key z = 0) by (vm_compute; reflexivity).
  assert (Hf : finite (f64_of_Z k)) by (apply finite_of_int64; unfold in_int64, min_int64, max_int64; lia).
  destruct (f64_add_spec (f64_of_Z k) z Hf Hz) as [Hn Ha]. clearbody z.
  assert (Hkey : key (f64_of_Z k + z)%f64 = k * 2 ^ scale).
  { rewrite Ha, Hkz, Z.add_0_r, key_of_Z_exact by lia. rewrite <- (proj2 (f64_of_Z_spec k)). apply key_of_Z_exact. lia. }
  split; [|done]. apply number_finite; [done|]. rewrite Hkey, <- key_of_Z_exact by lia. by apply key_lt_big.
Qed.

(** [int64(d.Seconds())] of a whole number of seconds. *)
Lemma Duration_Seconds_int64 `{GoConv} k : 0 <= k < 2 ^ 53 -> f64_to_int64 (Duration_Seconds (k * second)) = k.
Proof.
  intros Hk. destruct (Duration_Seconds_exact k Hk) as [Hf Hkey]. pose proof scale_pos.
  rewrite f64_to_int64_spec; rewrite ?Hkey; [apply Z.div_mul; lia|done|nia|unfold max_int64; nia].
Qed.

Lemma Duration_Seconds_whole `{GoConv} k : 0 <= k < 2 ^ 31 -> f64_to_int32 (Duration_Seconds (k * second)) = k.
Proof.
  intros Hk. unfold f64_to_int32. rewrite Duration_Seconds_int64 by lia.
  destruct (Z.leb_spec (- 2 ^ 31) k), (Z.ltb_spec k (2 ^ 31)); lia || done.
Qed.

Lemma seconds_roundtrip `{GoConv} d : whole_seconds d -> int64 (f64_to_int32 (Duration_Seconds d) * second) = d.
Proof.
  intros (k & Hk & ->). rewrite Duration_Seconds_whole by done. apply int64_id.
  unfold in_int64, min_int64, max_int64, second, millisecond, microsecond. lia.
Qed.

(** What another node gets of a specification: everything the scheduler uses,
    the environment, and nothing else of how the container is to run. *)
Definition gossiped_spec (s : CapsuleSpec) : CapsuleSpec := {|
  cs_Name := cs_Name s; cs_Image := cs_Image s; cs_ImageAlias := ""; cs_ImageDigest := cs_ImageDigest s;
  cs_Orbit := cs_Orbit s; cs_Tier := cs_Tier s; cs_Labels := wire_map (cs_Labels s);
  cs_Resources := {| CPUCores := CPUCores (cs_Resources s); CPUCoresMax := 0; MemoryMB := MemoryMB (cs_Resources s);
                     MemoryMBMax := 0; DiskMB := DiskMB (cs_Resources s) |};
  cs_Replicas := cs_Replicas s; cs_ScalingRules := cs_ScalingRules s;
  cs_PlacementRules := map (fun r => {| pr_Name := pr_Name r; pr_Type := pr_Type r; pr_Mode := pr_Mode r; pr_Names := pr_Names r;
                                        pr_Labels := wire_map (pr_Labels r); pr_Required := pr_Required r |}) (cs_PlacementRules s);
  cs_Runtime := with_env (wire_map (rc_Env (cs_Runtime s))) zero_runtime;
  cs_MomentumConfig := cs_MomentumConfig s; cs_Command := [] |}.

Definition gossiped (c : Capsule) : Capsule := set_Spec (gossiped_spec (c_Spec c)) c.

Definition whole_durations (s : CapsuleSpec) : Prop :=
  whole_seconds (mc_IdleTimeout (cs_MomentumConfig s)) /\ Forall (fun r => whole_seconds (sr_Cooldown r)) (cs_ScalingRules s).

Lemma map_id_Forall {A} (f : A -> A) (P : A -> Prop) l : (forall x, P x -> f x = x) -> Forall P l -> map f l = l.
Proof. intros Hf Hl. induction Hl as [|x l Hx _ IH]; [done|]. simpl. by rewrite (Hf x Hx), IH. Qed.

Lemma spec_trip `{GoConv} s : whole_durations s -> protoToSpec (wire_spec (specToProto s)) = gossiped_spec s.
Proof.
  intros [Hm Hs]. unfold protoToSpec, gossiped_spec, wire_spec, specToProto. cbn. rewrite !map_map. cbn. f_equal.
  - by destruct (cs_Replicas s).
  - apply (map_id_Forall _ (fun r => whole_seconds (sr_Cooldown r))); [|done]. intros r Hr. rewrite seconds_roundtrip by done. by destruct r.
  - rewrite seconds_roundtrip by done. by destruct (cs_MomentumConfig s).
Qed.

Lemma capsule_trip `{GoConv} c :
  whole_durations (c_Spec c) -> protoToCapsule (Some (wire_capsule (capsuleToProto c))) = Some (gossiped c).
Proof.
  intros Hw. unfold protoToCapsule, wire_capsule, capsuleToProto, gossiped, set_Spec. cbn. rewrite spec_trip by done.
  unfold replicaStatesToProto. rewrite map_map. cbn. f_equal. f_equal; [|by destruct (c_Momentum c)].
  apply (map_id_Forall _ (fun _ => True)); [by intros []|]. by apply Forall_true.
Qed.

Section Trip.
Context `{P : OrbitCodec} `{L : !OrbitLaws P} `{Sha256, GoConv}.

(** [b] accepts what [a] signs. *)
Definition vouches (b a : Announcer) : Prop :=
  match a_verifier b with
  | None => True
  | Some verify => exists signer, a_signer a = Some signer /\
      forall content sig, signer content = Ok sig -> sig <> [] /\ verify (a_nodeID a) content sig = true
  end.

(** The envelope a signed message carries. *)
Lemma buildSignedMessage_spec now type payload a data :
  buildSignedMessage now type payload a = Ok data ->
  exists sig, unmarshalOrbit data = Some {| msg_Type := type; msg_Payload := payload; msg_SenderId := a_nodeID a;
                                            msg_Timestamp := Some now; msg_Signature := sig |} /\
    forall signer, a_signer a = Some signer ->
      signer (orbit_canonicalContent {| msg_Type := type; msg_Payload := payload; msg_SenderId := a_nodeID a;
                                        msg_Timestamp := Some now; msg_Signature := [] |}) = Ok sig.
Proof.
  unfold buildSignedMessage. destruct (a_signer a) as [signer|].
  - destruct (signer _) as [sig|] eqn:Es; [|done]. destruct (marshalOrbit _) as [d|] eqn:Em; [|done]. intros [= <-].
    exists sig. split; [by apply orbit_roundtrip|]. by intros ? [= <-].
  - destruct (marshalOrbit _) as [d|] eqn:Em; [|done]. intros [= <-]. exists []. split; [by apply orbit_roundtrip|done].
Qed.

(** A signed message passes the checks of a peer that trusts its sender. *)
Lemma signed_accepted now now' type payload a b data :
  buildSignedMessage now type payload a = Ok data -> vouches b a -> now' - now <= MaxMessageAge ->
  exists msg, unmarshalOrbit data = Some msg /\ check_message now' b msg = None /\ msg_Type msg = type /\ msg_Payload msg = payload.
Proof.
  intros (sig & Hun & Hsig)%buildSignedMessage_spec Hv Hage. eexists. split; [exact Hun|]. split; [|done].
  unfold check_message. cbn [msg_Timestamp msg_Signature msg_SenderId].
  rewrite time_Sub_gt by (unfold MaxMessageAge, second, millisecond, microsecond, min_int64, max_int64; lia).
  destruct (Z.ltb_spec MaxMessageAge (now' - now)); [lia|]. unfold vouches in Hv.
  destruct (a_verifier b) as [verify|]; [|done]. destruct Hv as (signer & Hs & Hok).
  destruct (Hok _ _ (Hsig signer Hs)) as [Hne Hver]. destruct sig as [|x sig]; [done|].
  unfold unsigned. cbn [msg_Type msg_Payload msg_SenderId msg_Timestamp]. by rewrite Hver.
Qed.

(** What a peer makes of an announcement it has not seen before. *)
Lemma announcement_accepted n1 n2 c sent a b data now :
  Announcer_Announce now c sent a = Ok data -> vouches b a -> seen (a_dedup b) !! Sum256 data = None ->
  (forall msg ts, unmarshalOrbit data = Some msg -> msg_Timestamp msg = Some ts -> n2 - ts <= MaxMessageAge) ->
  HandleMessage n1 n2 data b =
    (Ok (Announced {| an_Capsule := Some (wire_capsule (capsuleToProto c)); an_AnnouncingNode := a_nodeID a |}),
     with_dedup (snd (IsDuplicate n1 data (a_dedup b))) b).
Proof.
  unfold Announcer_Announce, send. destruct (marshalAnnouncement _) as [payload|] eqn:Em; [|done].
  destruct (buildSignedMessage now "announcement" payload a) as [d|] eqn:Eb; [|done].
  destruct (Orbit_Publish _ _ _); [|done]. intros [= ->] Hv Hnew Hage.
  destruct (buildSignedMessage_spec _ _ _ _ _ Eb) as (sig & Hun & _). specialize (Hage _ _ Hun eq_refl).
  destruct (signed_accepted now n2 _ _ a (with_dedup (snd (IsDuplicate n1 data (a_dedup b))) b) data Eb Hv Hage)
    as (msg & Hun' & Hc & Ht & Hp).
  unfold HandleMessage, IsDuplicate in *. rewrite Hnew in *. cbn [snd] in Hc. rewrite Hun', Hc.
  unfold decode_payload. rewrite Ht, Hp, (announcement_roundtrip _ _ Em). done.
Qed.

(** C40: an announced capsule arrives.  When the announcement is sent, a
    peer that trusts the sender and has not seen the message accepts it within
    30 seconds, and decodes the capsule, if its cooldowns and its idle timeout
    are whole numbers of seconds from 0 to 2^31 - 1 (others do not arrive as
    they are: the wire has seconds), with its identity, status, replicas,
    momentum, resources, rules and environment; but the image alias, the hard resource limits, the
    command and every other part of the runtime configuration (network,
    health check, failure policy, registry credentials) arrive empty. *)
Theorem orbit_announcement_trip now n1 n2 c sent a b data
    (Hsend : Announcer_Announce now c sent a = Ok data) (Hv : vouches b a)
    (Hnew : seen (a_dedup b) !! Sum256 data = None) (Hage : n2 - now <= MaxMessageAge)
    (Hwhole : whole_durations (c_Spec c)) :
  exists ann, fst (HandleMessage n1 n2 data b) = Ok (Announced ann) /\ an_AnnouncingNode ann = a_nodeID a /\
    protoToCapsule (an_Capsule ann) = Some (gossiped c).
Proof.
  rewrite (announcement_accepted n1 n2 c sent a b data now Hsend Hv Hnew).
  - eexists. split; [reflexivity|]. split; [reflexivity|]. by apply capsule_trip.
  - unfold Announcer_Announce, send in Hsend. destruct (marshalAnnouncement _); [|done].
    destruct (buildSignedMessage now _ _ a) as [d|] eqn:Eb; [|done]. destruct (Orbit_Publish _ _ _); [|done]. injection Hsend as ->.
    destruct (buildSignedMessage_spec _ _ _ _ _ Eb) as (sig & Hun & _). rewrite Hun. intros msg ts [= <-] [= <-]. exact Hage.
Qed.

End Trip.

(** The orbit and the election envelopes are signed over the same bytes, so
    the injectivity of one is the injectivity of the other. *)
Definition as_election (m : OrbitMessage) : ElectionMessage :=
  {| em_Type := msg_Type m; em_Payload := msg_Payload m; em_SenderId := msg_SenderId m; em_Timestamp := msg_Timestamp m;
     em_Signature := msg_Signature m |}.

Lemma orbit_content_same m : orbit_canonicalContent m = canonicalContent (as_election m).
Proof. done. Qed.

Lemma orbit_content_inj a b :
  fits (as_election a) -> fits (as_election b) -> orbit_canonicalContent a = orbit_canonicalContent b ->
  msg_Type a = msg_Type b /\ msg_Payload a = msg_Payload b /\ msg_SenderId a = msg_SenderId b /\ msg_Timestamp a = msg_Timestamp b.
Proof. intros Ha Hb E. exact (canonicalContent_inj (as_election a) (as_election b) Ha Hb E). Qed.

(** ** A concrete orbit *)

Module OrbitDemo.

#[export] Instance resources_eq_dec : EqDecision PbResources.
Proof. solve_decision. Defined.
#[export] Instance replica_config_eq_dec : EqDecision PbReplicaConfig.
Proof. solve_decision. Defined.
#[export] Instance scaling_rule_eq_dec : EqDecision PbScalingRule.
Proof. solve_decision. Defined.
#[export] Instance placement_rule_eq_dec : EqDecision PbPlacementRule.
Proof. solve_decision. Defined.
#[export] Instance momentum_config_eq_dec : EqDecision PbMomentumConfig.
Proof. solve_decision. Defined.
#[export] Instance momentum_state_eq_dec : EqDecision PbMomentumState.
Proof. solve_decision. Defined.
#[export] Instance replica_state_eq_dec : EqDecision PbReplicaState.
Proof. solve_decision. Defined.
#[export] Instance pb_spec_eq_dec : EqDecision PbSpec.
Proof. solve_decision. Defined.
#[export] Instance pb_capsule_eq_dec : EqDecision PbCapsule.
Proof. solve_decision. Defined.
#[export] Instance announcement_eq_dec : EqDecision CapsuleAnnouncement.
Proof. solve_decision. Defined.
#[export] Instance orbit_message_eq_dec : EqDecision OrbitMessage.
Proof. solve_decision. Defined.

Definition spec : CapsuleSpec := {|
  cs_Name := "web"; cs_Image := "web"; cs_ImageAlias := "web:latest"; cs_ImageDigest := "sha256:0"; cs_Orbit := "edge";
  cs_Tier := tierStandard; cs_Labels := Some ∅; cs_Resources := zero_resources; cs_Replicas := {| Min := 1; Max := 3; Exact := 0 |};
  cs_ScalingRules := []; cs_PlacementRules := []; cs_Runtime := zero_runtime;
  cs_MomentumConfig := {| mc_Base := 50; mc_BoostOnTraffic := true; mc_ReduceOnIdle := true; mc_IdleTimeout := 300 * second |};
  cs_Command := ["serve"] |}.
Definition web : Capsule := {|
  c_ID := "c1"; c_ClusterID := "prod"; c_Spec := spec; c_Status := capsuleStatusAnnounced; c_Replicas := [];
  c_Momentum := {| ms_Current := 50; ms_Base := 50; ms_LastAdjusted := 0 |}; c_Version := "1"; c_CreatedAt := 0; c_UpdatedAt := 0 |}.

Definition announcement : CapsuleAnnouncement := {| an_Capsule := Some (capsuleToProto web); an_AnnouncingNode := "n1" |}.
Definition envelope : OrbitMessage :=
  {| msg_Type := "announcement"; msg_Payload := ["a"%char]; msg_SenderId := "n1"; msg_Timestamp := Some 0; msg_Signature := [] |}.

(** A codec for this announcement; it refuses all other messages. *)
Definition demo_codec : OrbitCodec := {|
  marshalOrbit := fun m => if decide (m = envelope) then Some ["e"%char] else None;
  unmarshalOrbit := fun _ => Some envelope;
  marshalAnnouncement := fun a => if decide (a = announcement) then Some ["a"%char] else None;
  unmarshalAnnouncement := fun _ => Some {| an_Capsule := wire_capsule <$> an_Capsule announcement; an_AnnouncingNode := "n1" |};
  marshalStatus := fun _ => None; unmarshalStatus := fun _ => None;
  marshalWithdrawal := fun _ => None; unmarshalWithdrawal := fun _ => None |}.

#[local] Existing Instance demo_codec.

#[local] Instance demo_laws : OrbitLaws demo_codec.
Proof. split; simpl; intros *; try case_decide; naive_solver. Qed.

Definition demo_sha : Sha256 := {| Sum256 := fun data => data |}.
#[local] Existing Instance demo_sha.

Definition joined : OrbitManager := snd (Orbit_Join "edge" (Ok tt) (Ok tt) (NewOrbitManager "prod" "n1")).
Definition sender : Announcer := NewAnnouncer joined "n1" None None.
Definition peer : Announcer := NewAnnouncer (NewOrbitManager "prod" "n2") "n2" None None.

Lemma demo_sent : Announcer_Announce 0 web (Ok tt) sender = Ok ["e"%char].
Proof. vm_compute. reflexivity. Qed.

Lemma demo_whole : whole_durations spec.
Proof. split; [exists 300; split; [lia|reflexivity]|constructor]. Qed.

(** The command the user asked for does not reach the peer. *)
Lemma orbit_announcement_trip_witness :
  exists ann c', fst (HandleMessage 1 2 ["e"%char] peer) = Ok (Announced ann) /\
    protoToCapsule (an_Capsule ann) = Some c' /\ c_ID c' = "c1" /\ cs_Command (c_Spec web) = ["serve"] /\ cs_Command (c_Spec c') = [].
Proof.
  destruct (orbit_announcement_trip 0 1 2 web (Ok tt) sender peer ["e"%char] demo_sent I eq_refl ltac:(vm_compute; discriminate) demo_whole)
    as (ann & Hok & _ & Hc).
  exists ann, (gossiped web). split; [exact Hok|]. split; [exact Hc|]. split; [reflexivity|]. split; reflexivity.
Defined.

Lemma demo_accepted : exists p a1, HandleMessage 1 2 ["e"%char] peer = (Ok p, a1).
Proof. eexists _, _. reflexivity. Defined.

Lemma orbit_no_replay_witness :
  exists a1, is_ok (fst (HandleMessage (8 * minute) (8 * minute) ["e"%char] (fold_left run_inbox [OCleanup (7 * minute)] a1))) = false.
Proof.
  destruct demo_accepted as (p & a1 & Hacc). exists a1.
  apply (orbit_no_replay 1 2 ["e"%char] peer p a1 envelope 0 [OCleanup (7 * minute)] (8 * minute) (8 * minute) Hacc);
    [reflexivity..|vm_compute; discriminate|]. constructor; [vm_compute; discriminate|constructor].
Defined.

End OrbitDemo.
