(* ===== verification/Handler.v ===== *)
(** * The node's capsule and election handlers ([node/capsule_handler.go],
      [node/election_handler.go])

    The capsule handler owns the capsule manager, the orbits of each cluster
    and the scaling monitor, and joins them to the node's event bus: it turns
    manager events into announcements and election requests, orbit messages
    into manager operations, scaling events into election requests, and
    records the outcomes of elections.  The election handler passes the
    requests on to the election manager.

    The bus is the list of the events published on it; PubSub answers each
    publication from [h_net]; the messages that went out are [h_wire]. *)

From stdpp Require Import pretty list_numbers.
From S2P Require Import Prelude Float64 Strconv CapsuleTypes CapsuleSpec Lifecycle CapsuleStore Gravity Elector ElectionTopic.
From S2P Require ElectionManager.
From S2P Require Import Scaling Orbit CapsuleManager.
Local Open Scope string_scope.
Local Open Scope list_scope.
Local Open Scope Z_scope.

(** ** Bus events: [node/internal/events/events.go] *)

Module events.

Record ElectionRequested := {
  er_OccurredAt : Time; er_CapsuleID : string; er_ReplicaID : string; er_Reason : ElectionReason;
  er_ClusterPath : string; er_PreviousNodeID : string; er_Priority : Z
}.

(** The events the two handlers publish and subscribe to; the first field is
    [BaseEvent.OccurredAt]. *)
Inductive Event :=
  | EvCapsuleCreated (at_ : Time) (CapsuleID CapsuleName Orbit ClusterPath : string)
  | EvCapsuleUpdated (at_ : Time) (CapsuleID CapsuleName ClusterPath : string)
  | EvCapsuleReceived (at_ : Time) (CapsuleID CapsuleName Orbit ClusterPath : string)
  | EvCapsuleAnnounced (at_ : Time) (CapsuleID CapsuleName Orbit ClusterPath : string)
  | EvCapsuleWithdrawn (at_ : Time) (CapsuleID ClusterPath Reason : string)
  | EvCapsuleExecutionFailed (at_ : Time) (CapsuleID Reason : string)
  | EvScaleUpNeeded (at_ : Time) (CapsuleID RuleName ClusterPath : string)
  | EvScaleDownNeeded (at_ : Time) (CapsuleID RuleName ClusterPath : string)
  | EvScaleToZero (at_ : Time) (CapsuleID RuleName ClusterPath : string)
  | EvElectionRequested (e : ElectionRequested)
  | EvElectionWon (at_ : Time) (CapsuleID ReplicaID ClusterPath : string) (Score : f64) (NodeID : string)
  | EvElectionLost (at_ : Time) (CapsuleID ReplicaID ClusterPath WinnerNodeID : string)
  | EvElectionFailed (at_ : Time) (CapsuleID ReplicaID ClusterPath Reason : string)
  | EvClusterJoined (at_ : Time) (ClusterPath : string)
  | EvNodeFailed (at_ : Time) (NodeID ClusterPath : string).

End events.
Import events.

Definition priorityInitial : Z := 50.
Definition priorityScaleUp : Z := 60.
Definition priorityNodeFailure : Z := 100.

(** ** Replica slots *)

Definition initialReplicaCount (r : ReplicaConfig) : Z :=
  if 0 <? Exact r then Exact r else if 0 <? Min r then Min r else 1.

(** [fmt.Sprintf("%d", i)] *)
Definition replicaSlotID (i : Z) : string := pretty i.

(** [SkipSpace] of [fmt]: spaces other than newlines, which are errors. *)
Fixpoint scan_space (skip : nat) (s : string) : option string :=
  match skip, s with
  | S k, String _ s' => scan_space k s'
  | S _, EmptyString => Some EmptyString
  | O, EmptyString => Some EmptyString
  | O, String c s' =>
      match space_len s with
      | O => Some s
      | S k => if code c =? 10 then None else scan_space k s'
      end
  end.

(** The longest prefix of digits, with its value. *)
Fixpoint scan_digits (acc : Z) (s : string) : Z :=
  match s with
  | EmptyString => acc
  | String c s' => match digit c with Some d => scan_digits (acc * 10 + d) s' | None => acc end
  end.

(** [fmt.Sscanf(id, "%d", &n)]: an optional sign and at least one digit; what
    follows the digits is ignored. *)
Definition sscanf_d (s : string) : option Z :=
  match scan_space 0 s with
  | None => None
  | Some s =>
      let '(neg, s) := read_sign s in
      match s with
      | EmptyString => None
      | String c _ =>
          match digit c with
          | None => None
          | Some _ => let v := scan_digits 0 s in in_int (if neg then - v else v)
          end
      end
  end.

Definition parseReplicaSlot (id : string) : Z := default (-1) (sscanf_d id).

Definition highest_slot (rs : list ReplicaState) : Z :=
  fold_left (fun highest r => let idx := parseReplicaSlot (rs_ReplicaID r) in if highest <? idx then idx else highest) rs (-1).

Definition nextReplicaSlot (c : Capsule) : string := replicaSlotID (int32 (int64 (highest_slot (c_Replicas c) + 1))).

(** ** State *)

Section Handler.
Context `{R : GoRange} `{S : SqlTable} `{J : JsonCodec} `{L : StateMachineLib}.
Context `{P : OrbitCodec} `{H256 : Sha256} `{GC : GoConv}.

Record CapsuleHandler := {
  h_manager : Manager;
  h_clusters : gmap string Announcer;         (** [orbits], [announcers] and [dedups], filled and emptied together *)
  h_scalingMonitor : Monitor;
  h_eventBus : list Event;                    (** the events published, in order *)
  h_nodeID : string;
  h_signer : option Signer;                   (** made of the private key *)
  h_verifier : option (string -> Verifier);   (** made of the phonebook, per cluster *)
  h_electionForget : option (list CapsuleID); (** the calls of [ForgetCapsule] *)
  h_cancelled : bool;                         (** the handler's context *)
  h_net : nat -> result string unit;          (** the answers of PubSub *)
  h_sends : nat;
  h_wire : list (string * bytes)              (** topic and data sent *)
}.

Definition set_manager (m : Manager) (h : CapsuleHandler) : CapsuleHandler :=
  {| h_manager := m; h_clusters := h_clusters h; h_scalingMonitor := h_scalingMonitor h; h_eventBus := h_eventBus h;
     h_nodeID := h_nodeID h; h_signer := h_signer h; h_verifier := h_verifier h; h_electionForget := h_electionForget h;
     h_cancelled := h_cancelled h; h_net := h_net h; h_sends := h_sends h; h_wire := h_wire h |}.
Definition set_clusters (cs : gmap string Announcer) (h : CapsuleHandler) : CapsuleHandler :=
  {| h_manager := h_manager h; h_clusters := cs; h_scalingMonitor := h_scalingMonitor h; h_eventBus := h_eventBus h;
     h_nodeID := h_nodeID h; h_signer := h_signer h; h_verifier := h_verifier h; h_electionForget := h_electionForget h;
     h_cancelled := h_cancelled h; h_net := h_net h; h_sends := h_sends h; h_wire := h_wire h |}.
Definition set_monitor (m : Monitor) (h : CapsuleHandler) : CapsuleHandler :=
  {| h_manager := h_manager h; h_clusters := h_clusters h; h_scalingMonitor := m; h_eventBus := h_eventBus h;
     h_nodeID := h_nodeID h; h_signer := h_signer h; h_verifier := h_verifier h; h_electionForget := h_electionForget h;
     h_cancelled := h_cancelled h; h_net := h_net h; h_sends := h_sends h; h_wire := h_wire h |}.
Definition set_bus (b : list Event) (h : CapsuleHandler) : CapsuleHandler :=
  {| h_manager := h_manager h; h_clusters := h_clusters h; h_scalingMonitor := h_scalingMonitor h; h_eventBus := b;
     h_nodeID := h_nodeID h; h_signer := h_signer h; h_verifier := h_verifier h; h_electionForget := h_electionForget h;
     h_cancelled := h_cancelled h; h_net := h_net h; h_sends := h_sends h; h_wire := h_wire h |}.
Definition set_forget (f : option (list CapsuleID)) (h : CapsuleHandler) : CapsuleHandler :=
  {| h_manager := h_manager h; h_clusters := h_clusters h; h_scalingMonitor := h_scalingMonitor h; h_eventBus := h_eventBus h;
     h_nodeID := h_nodeID h; h_signer := h_signer h; h_verifier := h_verifier h; h_electionForget := f;
     h_cancelled := h_cancelled h; h_net := h_net h; h_sends := h_sends h; h_wire := h_wire h |}.
Definition set_sends (n : nat) (w : list (string * bytes)) (h : CapsuleHandler) : CapsuleHandler :=
  {| h_manager := h_manager h; h_clusters := h_clusters h; h_scalingMonitor := h_scalingMonitor h; h_eventBus := h_eventBus h;
     h_nodeID := h_nodeID h; h_signer := h_signer h; h_verifier := h_verifier h; h_electionForget := h_electionForget h;
     h_cancelled := h_cancelled h; h_net := h_net h; h_sends := n; h_wire := w |}.
Definition set_cancelled (b : bool) (h : CapsuleHandler) : CapsuleHandler :=
  {| h_manager := h_manager h; h_clusters := h_clusters h; h_scalingMonitor := h_scalingMonitor h; h_eventBus := h_eventBus h;
     h_nodeID := h_nodeID h; h_signer := h_signer h; h_verifier := h_verifier h; h_electionForget := h_electionForget h;
     h_cancelled := b; h_net := h_net h; h_sends := h_sends h; h_wire := h_wire h |}.

(** The handler wires itself to the manager it is given: [SetEventHandler]. *)
Definition NewCapsuleHandler (manager : Manager) (registry : option Registry) (nodeID : string) (signer : option Signer)
    (verifier : option (string -> Verifier)) (net : nat -> result string unit) : CapsuleHandler :=
  {| h_manager := manager; h_clusters := ∅; h_scalingMonitor := NewMonitor (Some (default ∅ registry)); h_eventBus := [];
     h_nodeID := nodeID; h_signer := signer; h_verifier := verifier; h_electionForget := None; h_cancelled := false;
     h_net := net; h_sends := 0; h_wire := [] |}.

Definition SetElectionForgetter (installed : bool) (h : CapsuleHandler) : CapsuleHandler :=
  set_forget (if installed then Some [] else None) h.

(** [for _, x := range l { f(x) }] *)
Fixpoint for_each {A} (f : A -> ST CapsuleHandler unit) (l : list A) : ST CapsuleHandler unit :=
  match l with
  | [] => mret tt
  | x :: l => _ ← f x; for_each f l
  end.

(** [time.Now()] *)
Definition h_now : ST CapsuleHandler Time := fun h =>
  let '(t, m) := on_store time_Now (h_manager h) in (t, set_manager m h).

Definition Publish (e : Event) : ST CapsuleHandler unit := modify (fun h => set_bus (h_eventBus h ++ [e]) h).

(** One publication on an orbit, whose answer is the next of [h_net]; [f]
    builds and sends the message. *)
Definition transmit (topic : string) (f : Time -> result string unit -> result AnnounceError bytes)
  : ST CapsuleHandler (result AnnounceError unit) :=
  now ← h_now;
  sent ← gets (fun h => h_net h (h_sends h));
  match f now sent with
  | Err e => _ ← modify (fun h => set_sends (Datatypes.S (h_sends h)) (h_wire h) h); mret (Err e)
  | Ok data => _ ← modify (fun h => set_sends (Datatypes.S (h_sends h)) (h_wire h ++ [(topic, data)]) h); mret (Ok tt)
  end.

(** ** Reactions to manager events *)

Definition requestElection (ev : ElectionRequested) : ST CapsuleHandler unit := Publish (EvElectionRequested ev).

Definition requestInitialElections (c : Capsule) : ST CapsuleHandler unit :=
  for_each (fun i =>
    now ← h_now;
    requestElection {| er_OccurredAt := now; er_CapsuleID := c_ID c; er_ReplicaID := replicaSlotID i;
                       er_Reason := reasonInitial; er_ClusterPath := c_ClusterID c; er_PreviousNodeID := "";
                       er_Priority := priorityInitial |})
    (seqZ 0 (initialReplicaCount (cs_Replicas (c_Spec c)))).

Definition announceCapsule (c : Capsule) : ST CapsuleHandler unit :=
  ann ← gets (fun h => h_clusters h !! c_ClusterID c);
  match ann with
  | None => mret tt
  | Some ann =>
      r ← transmit (BuildOrbitTopic (om_clusterPath (a_manager ann)) (cs_Orbit (c_Spec c)))
            (fun now sent => Announcer_Announce now c sent ann);
      match r with
      | Err _ => mret tt
      | Ok _ =>
          now ← h_now;
          Publish (EvCapsuleAnnounced now (c_ID c) (cs_Name (c_Spec c)) (cs_Orbit (c_Spec c)) (c_ClusterID c))
      end
  end.

Definition withdrawCapsule (c : Capsule) (reason : string) : ST CapsuleHandler unit :=
  ann ← gets (fun h => h_clusters h !! c_ClusterID c);
  match ann with
  | None => mret tt
  | Some ann =>
      _ ← transmit (BuildOrbitTopic (om_clusterPath (a_manager ann)) (cs_Orbit (c_Spec c)))
            (fun now sent => Withdraw now (cs_Orbit (c_Spec c)) (c_ID c) reason sent ann);
      mret tt
  end.

Definition registerScaling (c : Capsule) : ST CapsuleHandler unit :=
  match cs_ScalingRules (c_Spec c) with
  | [] => mret tt
  | specs =>
      match FromSpecList specs with
      | Err _ => mret tt
      | Ok rules => modify (fun h => set_monitor (Monitor_Register {| cm_CapsuleID := c_ID c; cm_Rules := rules; cm_Metrics := None |}
                                                   (h_scalingMonitor h)) h)
      end
  end.

(** The four cases of the switch on the event's type. *)
Definition onCreated (c : Capsule) : ST CapsuleHandler unit :=
  now ← h_now;
  _ ← Publish (EvCapsuleCreated now (c_ID c) (cs_Name (c_Spec c)) (cs_Orbit (c_Spec c)) (c_ClusterID c));
  _ ← announceCapsule c;
  requestInitialElections c.

Definition onUpdated (c : Capsule) : ST CapsuleHandler unit :=
  now ← h_now;
  _ ← Publish (EvCapsuleUpdated now (c_ID c) (cs_Name (c_Spec c)) (c_ClusterID c));
  announceCapsule c.

Definition onReceived (c : Capsule) : ST CapsuleHandler unit :=
  now ← h_now;
  _ ← Publish (EvCapsuleReceived now (c_ID c) (cs_Name (c_Spec c)) (cs_Orbit (c_Spec c)) (c_ClusterID c));
  _ ← registerScaling c;
  requestInitialElections c.

Definition onDeleted (c : Capsule) : ST CapsuleHandler unit :=
  now ← h_now;
  _ ← Publish (EvCapsuleWithdrawn now (c_ID c) (c_ClusterID c) "deleted");
  _ ← withdrawCapsule c "deleted";
  _ ← modify (fun h => set_monitor (Monitor_Unregister (c_ID c) (h_scalingMonitor h)) h);
  modify (fun h => match h_electionForget h with
                   | Some calls => set_forget (Some (calls ++ [c_ID c])) h
                   | None => h
                   end).

Definition onManagerEvent (e : ManagerEvent) : ST CapsuleHandler unit :=
  match me_Seen e with
  | None => mret tt   (* a nil capsule, which the manager never emits *)
  | Some c =>
      if me_Type e =s EventCapsuleCreated then onCreated c
      else if me_Type e =s EventCapsuleUpdated then onUpdated c
      else if me_Type e =s EventCapsuleReceived then onReceived c
      else if me_Type e =s EventCapsuleDeleted then onDeleted c
      else mret tt
  end.

(** A call of a manager method: the handler reacts to each event it emits. The
    reactions change nothing of the manager but the clock, so that they can
    run one after the other once the method has returned. *)
Definition call_manager {A} (f : ST Manager A) : ST CapsuleHandler A := fun h =>
  let '(a, m') := f (h_manager h) in
  (a, snd (for_each onManagerEvent (drop (length (m_events (h_manager h))) (m_events m')) (set_manager m' h))).

(** ** Clusters and orbits *)

Definition SetupCluster (clusterPath : string) : ST CapsuleHandler unit := modify (fun h =>
  match h_clusters h !! clusterPath with
  | Some _ => h
  | None =>
      let orbitMgr := {| om_clusterPath := clusterPath; om_nodeID := h_nodeID h; om_orbits := ∅; om_cancelled := h_cancelled h |} in
      set_clusters (<[clusterPath := NewAnnouncer orbitMgr (h_nodeID h) (h_signer h) ((fun v => v clusterPath) <$> h_verifier h)]>
                      (h_clusters h)) h
  end).

Definition LeaveCluster (clusterPath : string) : ST CapsuleHandler unit :=
  modify (fun h => set_clusters (delete clusterPath (h_clusters h)) h).

Definition with_orbits (om : OrbitManager) (a : Announcer) : Announcer :=
  {| a_manager := om; a_dedup := a_dedup a; a_nodeID := a_nodeID a; a_signer := a_signer a; a_verifier := a_verifier a |}.

Definition JoinOrbit (clusterPath orbitName : string) (joined subscribed : result string unit)
  : ST CapsuleHandler (option (result OrbitError unit)) :=
  _ ← SetupCluster clusterPath;
  ann ← gets (fun h => h_clusters h !! clusterPath);
  match ann with
  | None => mret None   (* SetupCluster has installed it *)
  | Some ann =>
      let '(r, om) := Orbit_Join orbitName joined subscribed (a_manager ann) in
      _ ← modify (fun h => set_clusters (<[clusterPath := with_orbits om ann]> (h_clusters h)) h);
      mret (Some r)
  end.

(** One tick of [dedupCleanupLoop]. *)
Definition cleanup_all (now : string -> Time) : ST CapsuleHandler unit :=
  modify (fun h => set_clusters (map_imap (fun cl ann => Some (with_dedup (Cleanup (now cl) (a_dedup ann)) ann)) (h_clusters h)) h).

Definition Handler_Stop : ST CapsuleHandler unit := modify (fun h =>
  set_cancelled true (set_clusters ((fun ann => with_orbits (Orbit_LeaveAll (a_manager ann)) ann) <$> h_clusters h) h)).

(** ** Orbit messages *)

Definition receiveCapsule (c : Capsule) : ST Manager (result ManagerError unit) :=
  p ← on_store (alloc c); Manager_Receive p.

(** The switch on the type of an accepted message. *)
Definition onPayload (payload : OrbitPayload) : ST CapsuleHandler unit :=
  match payload with
  | Announced announcement =>
      match protoToCapsule (an_Capsule announcement) with
      | None => mret tt
      | Some c => _ ← call_manager (receiveCapsule c); mret tt
      end
  | StatusUpdated update => _ ← call_manager (Manager_SyncStatus (su_CapsuleId update) (su_Status update)); mret tt
  | Withdrawn withdrawal => _ ← call_manager (Manager_Delete (wd_CapsuleId withdrawal)); mret tt
  end.

Definition onOrbitMessage (clusterPath : string) (data : bytes) : ST CapsuleHandler unit :=
  ann ← gets (fun h => h_clusters h !! clusterPath);
  match ann with
  | None => mret tt
  | Some ann =>
      now ← h_now;
      now' ← h_now;
      let '(r, ann') := HandleMessage now now' data ann in
      _ ← modify (fun h => set_clusters (<[clusterPath := ann']> (h_clusters h)) h);
      match r with
      | Err _ => mret tt
      | Ok payload => onPayload payload
      end
  end.

(** A message on an orbit of the cluster: the orbit's loop hands it over
    unless it is the node's own. *)
Definition orbit_delivery (clusterPath orbitName : string) (data : bytes) (receivedFrom : string) : ST CapsuleHandler unit :=
  ann ← gets (fun h => h_clusters h !! clusterPath);
  match ann with
  | None => mret tt
  | Some ann => match orbit_receive orbitName data receivedFrom (a_manager ann) with
                | None => mret tt
                | Some _ => onOrbitMessage clusterPath data
                end
  end.

(** ** Elections and failures *)

(** The inner loop of [onNodeFailed] and [handleContainerCrash]: one
    [ElectionRequested] for each of the replicas that [nodeID] runs. *)
Definition request_replicas (capsuleID : string) (replicas : list ReplicaState) (nodeID clusterPath previous : string)
  : ST CapsuleHandler unit :=
  for_each (fun replica =>
    if rs_NodeID replica <>s nodeID then mret tt
    else
      now ← h_now;
      requestElection {| er_OccurredAt := now; er_CapsuleID := capsuleID; er_ReplicaID := rs_ReplicaID replica;
                         er_Reason := reasonNodeFailure; er_ClusterPath := clusterPath; er_PreviousNodeID := previous;
                         er_Priority := priorityNodeFailure |})
    replicas.

Definition deref_in (p : loc) (h : CapsuleHandler) : option Capsule := deref (m_store (h_manager h)) p.

Definition onNodeFailed (nodeID clusterPath : string) : ST CapsuleHandler unit :=
  capsules ← gets (fun h => Manager_List (h_manager h));
  for_each (fun p =>
    c ← gets (deref_in p);
    match c with
    | None => mret tt
    | Some c => request_replicas (c_ID c) (c_Replicas c) nodeID clusterPath nodeID
    end) capsules.

Definition handleElectionWon (capsuleID replicaID nodeID : string) : ST CapsuleHandler unit :=
  _ ← call_manager (Manager_AssignReplica capsuleID replicaID nodeID); mret tt.

Definition handleElectionLost (capsuleID replicaID winnerNodeID : string) : ST CapsuleHandler unit :=
  _ ← call_manager (Manager_SyncStatus capsuleID capsuleStatusAssigned);
  if winnerNodeID <>s "" then
    _ ← call_manager (Manager_AssignReplica capsuleID replicaID winnerNodeID); mret tt
  else mret tt.

Definition handleElectionFailed (capsuleID : string) : ST CapsuleHandler unit :=
  _ ← call_manager (Manager_SyncStatus capsuleID capsuleStatusAnnounced); mret tt.

(** [manager.Get(id)], with what the pointer shows; also the [Get] of
    [electionStoreAdapter]. *)
Definition store_Get (m : Manager) (id : CapsuleID) : option Capsule := p ← Manager_Get id m; deref (m_store m) p.

Definition handleContainerCrash (capsuleID : string) : ST CapsuleHandler unit :=
  c ← gets (fun h => store_Get (h_manager h) capsuleID);
  match c with
  | None => mret tt
  | Some c =>
      self ← gets h_nodeID;
      request_replicas capsuleID (c_Replicas c) self (c_ClusterID c) ""
  end.

(** The subscriptions of [Start]. *)
Definition on_event (e : Event) : ST CapsuleHandler unit :=
  match e with
  | EvClusterJoined _ clusterPath => SetupCluster clusterPath
  | EvNodeFailed _ nodeID clusterPath => onNodeFailed nodeID clusterPath
  | EvElectionWon _ capsuleID replicaID _ _ nodeID => handleElectionWon capsuleID replicaID nodeID
  | EvElectionLost _ capsuleID replicaID _ winnerNodeID => handleElectionLost capsuleID replicaID winnerNodeID
  | EvElectionFailed _ capsuleID _ _ _ => handleElectionFailed capsuleID
  | EvCapsuleExecutionFailed _ capsuleID _ => handleContainerCrash capsuleID
  | _ => mret tt
  end.

(** ** Scaling *)

Definition onScaleEvent (event : ScaleEvent) : ST CapsuleHandler unit :=
  base ← h_now;
  c ← gets (fun h => store_Get (h_manager h) (se_CapsuleID event));
  let clusterPath := default "" (c_ClusterID <$> c) in
  if se_Action event =s scalingActionScaleUp then
    _ ← Publish (EvScaleUpNeeded base (se_CapsuleID event) (se_RuleName event) clusterPath);
    match c with
    | None => mret tt
    | Some c =>
        now ← h_now;
        requestElection {| er_OccurredAt := now; er_CapsuleID := se_CapsuleID event; er_ReplicaID := nextReplicaSlot c;
                           er_Reason := reasonScaleUp; er_ClusterPath := clusterPath; er_PreviousNodeID := "";
                           er_Priority := priorityScaleUp |}
    end
  else if se_Action event =s scalingActionScaleDown then
    Publish (EvScaleDownNeeded base (se_CapsuleID event) (se_RuleName event) clusterPath)
  else if se_Action event =s scalingActionScaleToZero then
    Publish (EvScaleToZero base (se_CapsuleID event) (se_RuleName event) clusterPath)
  else mret tt.

(** One tick of the monitor the handler owns. *)
Definition scaling_tick (now stamp : CapsuleID -> Time) : ST CapsuleHandler unit := fun h =>
  let mon := Monitor_evaluate now stamp (h_scalingMonitor h) in
  for_each onScaleEvent (drop (length (Scaling.events (h_scalingMonitor h))) (Scaling.events mon)) (set_monitor mon h).

(** ** The adapters of [election_handler.go] *)

Definition NodesRunningCapsule (m : Manager) (clusterPath capsuleName : string) : list string :=
  flat_map (fun p =>
    match deref (m_store m) p with
    | None => []
    | Some c =>
        if (c_ClusterID c <>s clusterPath) || (cs_Name (c_Spec c) <>s capsuleName) then []
        else List.filter (fun n => n <>s "") (map rs_NodeID (c_Replicas c))
    end) (Manager_List m).

Definition EmitWon (req : Request) (winnerNodeID : string) (score : f64) : ST CapsuleHandler unit :=
  now ← h_now; Publish (EvElectionWon now (rq_CapsuleID req) (rq_ReplicaID req) (rq_ClusterPath req) score winnerNodeID).
Definition EmitLost (req : Request) (winnerNodeID : string) : ST CapsuleHandler unit :=
  now ← h_now; Publish (EvElectionLost now (rq_CapsuleID req) (rq_ReplicaID req) (rq_ClusterPath req) winnerNodeID).
Definition EmitFailed (req : Request) (reason : string) : ST CapsuleHandler unit :=
  now ← h_now; Publish (EvElectionFailed now (rq_CapsuleID req) (rq_ReplicaID req) (rq_ClusterPath req) reason).

Definition to_request (ev : ElectionRequested) : Request :=
  {| rq_CapsuleID := er_CapsuleID ev; rq_ReplicaID := er_ReplicaID ev; rq_ClusterPath := er_ClusterPath ev;
     rq_Reason := er_Reason ev; rq_PreviousNodeID := er_PreviousNodeID ev; rq_Priority := er_Priority ev;
     rq_CreatedAt := er_OccurredAt ev |}.

Definition dispatch (ev : ElectionRequested) : ST ElectionManager.Manager unit := fun m =>
  (tt, snd (ElectionManager.HandleRequest (to_request ev) m)).

End Handler.

(** ** Replica slots: printing and parsing *)

Lemma digit_pretty x : (x < 10)%N -> digit (pretty_N_char x) = Some (Z.of_N x).
Proof.
  intros Hx. assert (x = 0 \/ x = 1 \/ x = 2 \/ x = 3 \/ x = 4 \/ x = 5 \/ x = 6 \/ x = 7 \/ x = 8 \/ x = 9)%N as Hc by lia.
  by destruct_or! Hc; subst.
Qed.

Lemma digits_pretty_go x s : digits 0 (pretty_N_go x s) = digits (Z.of_N x) s.
Proof.
  revert s. induction (N.lt_wf_0 x) as [x _ IH]; intros s.
  assert (x = 0 \/ 0 < x)%N as [->|Hx] by lia; [done|].
  rewrite pretty_N_go_step, IH by (done || by apply N.div_lt).
  cbn [digits]. rewrite digit_pretty by (by apply N.mod_lt). f_equal.
  rewrite (N.div_mod x 10) at 3 by done. lia.
Qed.

Lemma numeral_pretty i : 0 <= i -> numeral (pretty i) i.
Proof.
  intros Hi. destruct i as [|p|p]; [by split|split|lia].
  - intros Hn. unfold pretty, pretty_Z, pretty, pretty_positive, pretty, pretty_N in Hn. simpl in Hn.
    apply (f_equal (digits 0)) in Hn. rewrite digits_pretty_go in Hn. done.
  - unfold pretty, pretty_Z, pretty, pretty_positive, pretty, pretty_N. simpl. by rewrite digits_pretty_go.
Qed.

Lemma scan_digits_digits acc s v : digits acc s = Some v -> scan_digits acc s = v.
Proof.
  revert acc. induction s as [|c s IH]; simpl; intros acc; [by intros [= ->]|].
  destruct (digit c); [apply IH|done].
Qed.

Lemma scan_space_text c s : text 33 (String c EmptyString) = true -> scan_space 0 (String c s) = Some (String c s).
Proof. intros Ht. cbn [scan_space]. by rewrite space_len_word. Qed.

Lemma sscanf_numeral s v : numeral s v -> v <= max_int64 -> sscanf_d s = Some v.
Proof.
  intros Hn Hv. pose proof (numeral_sign s v Hn) as Hs. destruct Hn as [Hne Hd]. destruct s as [|c s]; [done|].
  pose proof (digits_text _ _ _ Hd) as Ht. apply text_cons in Ht as [Hc _].
  unfold sscanf_d. rewrite scan_space_text by done. rewrite Hs, (scan_digits_digits _ _ _ Hd).
  pose proof (digits_mono 0 _ _ ltac:(done) Hd). simpl in Hd. destruct (digit c); [|done].
  unfold in_int. rewrite (proj2 (Z.leb_le min_int64 v)), (proj2 (Z.leb_le v max_int64)) by (unfold min_int64; lia). done.
Qed.

Lemma slot_roundtrip i : 0 <= i <= max_int64 -> parseReplicaSlot (replicaSlotID i) = i.
Proof. intros Hi. unfold parseReplicaSlot, replicaSlotID. by rewrite (sscanf_numeral _ i) by (apply numeral_pretty || apply Hi; lia). Qed.

Lemma highest_slot_ge rs h0 :
  let go := fold_left (fun highest r => let idx := parseReplicaSlot (rs_ReplicaID r) in if highest <? idx then idx else highest) rs h0 in
  h0 <= go /\ (go = h0 \/ exists r, r ∈ rs /\ parseReplicaSlot (rs_ReplicaID r) = go) /\
  forall r, r ∈ rs -> parseReplicaSlot (rs_ReplicaID r) <= go.
Proof.
  revert h0. induction rs as [|r rs IH]; intros h0; cbn -[parseReplicaSlot].
  - split; [lia|]. split; [by left|]. intros r Hr. by apply elem_of_nil in Hr.
  - set (h1 := if h0 <? _ then _ else _). destruct (IH h1) as (Hge & Hin & Hall). clear IH.
    assert (Hh1 : h0 <= h1 /\ parseReplicaSlot (rs_ReplicaID r) <= h1 /\ (h1 = h0 \/ h1 = parseReplicaSlot (rs_ReplicaID r))).
    { unfold h1. destruct (Z.ltb_spec h0 (parseReplicaSlot (rs_ReplicaID r))); lia. }
    cbv zeta in *. set (go := fold_left _ rs h1) in *. clearbody go h1. split_and!.
    + lia.
    + destruct Hin as [->|(r' & Hr' & He)]; [|right; exists r'; split; [by right|done]].
      destruct Hh1 as (_ & _ & [->| ->]); [by left|right]. exists r. split; [by left|done].
    + intros r' [->|Hr']%elem_of_cons; [lia|by apply Hall].
Qed.

(** A scale-up asks for a slot that no replica has, one past the
    highest in use, as long as the slots in use stay below the largest
    [int32]; slots print and parse back to the same number. *)
Theorem handler_next_slot_fresh c
    (Hbound : Forall (fun r => parseReplicaSlot (rs_ReplicaID r) < 2 ^ 31 - 1) (c_Replicas c)) :
  (nextReplicaSlot c ∉ rs_ReplicaID <$> c_Replicas c) /\
  parseReplicaSlot (nextReplicaSlot c) = highest_slot (c_Replicas c) + 1 /\
  Forall (fun r => parseReplicaSlot (rs_ReplicaID r) < parseReplicaSlot (nextReplicaSlot c)) (c_Replicas c).
Proof.
  destruct (highest_slot_ge (c_Replicas c) (-1)) as (Hge & Hin & Hall). cbv zeta in *. fold (highest_slot (c_Replicas c)) in *.
  set (m := highest_slot (c_Replicas c)) in *.
  assert (Hm : m < 2 ^ 31 - 1).
  { destruct Hin as [He|(r & Hr & He)]; [lia|]. rewrite <- He.
    exact (proj1 (list.Forall_forall (fun r => parseReplicaSlot (rs_ReplicaID r) < 2 ^ 31 - 1) _) Hbound r Hr). }
  assert (Hp : parseReplicaSlot (nextReplicaSlot c) = m + 1).
  { unfold nextReplicaSlot. fold m. rewrite int64_id, int32_id by (unfold in_int32, in_int64, min_int64, max_int64; lia).
    apply slot_roundtrip. unfold max_int64. lia. }
  split; [|split; [done|]].
  - intros (r & Hr & Hin')%list_elem_of_fmap. pose proof (Hall r Hin'). rewrite <- Hr, Hp in H. lia.
  - apply list.Forall_forall. intros r Hr. rewrite Hp. specialize (Hall r Hr). lia.
Qed.

(** ** What the reactions touch *)

Create HintDb handler discriminated.

Section HandlerFacts.
Context `{R : GoRange} `{S : SqlTable} `{J : JsonCodec} `{L : StateMachineLib} `{!StateMachineLaws L}.
Context `{P : OrbitCodec} `{!OrbitLaws P} `{H256 : Sha256} `{GC : GoConv}.

(** A computation moves the handler only along a preorder. *)
Definition moves {A} (Q : relation CapsuleHandler) (f : ST CapsuleHandler A) : Prop := forall h, Q h (snd (f h)).

Section Moves.
Context (Q : relation CapsuleHandler) `{!PreOrder Q}.

Lemma moves_ret {A} (a : A) : moves Q (mret a).
Proof. intros h. reflexivity. Qed.
Lemma moves_gets {A} (v : CapsuleHandler -> A) : moves Q (gets v).
Proof. intros h. reflexivity. Qed.
Lemma moves_bind {A B} (f : ST CapsuleHandler A) (g : A -> ST CapsuleHandler B) :
  moves Q f -> (forall a, moves Q (g a)) -> moves Q (x ← f; g x).
Proof.
  intros Hf Hg h. specialize (Hf h). unfold mbind, ST_bind. destruct (f h) as [a h1]. etransitivity; [exact Hf|apply Hg].
Qed.
Lemma moves_for_each {A} (f : A -> ST CapsuleHandler unit) l : (forall x, moves Q (f x)) -> moves Q (for_each f l).
Proof. intros Hf. induction l as [|x l IH]; [apply moves_ret|]. apply moves_bind; [apply Hf|intros _; apply IH]. Qed.

End Moves.

Ltac moves_tac := repeat lazymatch goal with
  | |- moves _ (mbind _ _) => apply moves_bind; [typeclasses eauto| |intros ?]
  | |- moves _ (mret _) => apply moves_ret; typeclasses eauto
  | |- moves _ (gets _) => apply moves_gets; typeclasses eauto
  | |- moves _ (for_each _ _) => apply moves_for_each; [typeclasses eauto|intros ?]
  | |- moves _ (match _ with _ => _ end) => case_match
  | |- moves _ _ => solve [auto with handler]
  end.

(** Everything the reactions leave alone: the manager but for its clock, the
    clusters, the node's identity. *)
Definition keeps (h h' : CapsuleHandler) : Prop :=
  h_manager h' ≡ h_manager h /\ m_events (h_manager h') = m_events (h_manager h) /\
  h_clusters h' = h_clusters h /\ h_nodeID h' = h_nodeID h.

#[local] Instance keeps_preorder : PreOrder keeps.
Proof.
  split.
  - intros h. by split_and!.
  - intros h1 h2 h3 (A1 & B1 & C1 & D1) (A2 & B2 & C2 & D2). split_and!; try congruence. etransitivity; eassumption.
Qed.

Lemma now_keeps : moves keeps h_now.
Proof. intros h. by split_and!. Qed.
Lemma Publish_keeps e : moves keeps (Publish e).
Proof. intros h. by split_and!. Qed.
Lemma sends_keeps n w : moves keeps (modify (fun h => set_sends (n h) (w h) h)).
Proof. intros h. by split_and!. Qed.
Lemma monitor_keeps f : moves keeps (modify (fun h => set_monitor (f h) h)).
Proof. intros h. by split_and!. Qed.
Lemma forget_keeps f id : moves keeps (modify (fun h => match f h with Some calls => set_forget (Some (calls ++ [id])) h | None => h end)).
Proof. intros h. unfold modify. simpl. by destruct (f h). Qed.
#[local] Hint Resolve now_keeps Publish_keeps sends_keeps monitor_keeps forget_keeps : handler.

Lemma requestInitialElections_keeps c : moves keeps (requestInitialElections c).
Proof. unfold requestInitialElections, requestElection. moves_tac. Qed.
Lemma transmit_keeps topic f : moves keeps (transmit topic f).
Proof. unfold transmit. moves_tac. Qed.
#[local] Hint Resolve requestInitialElections_keeps transmit_keeps : handler.
Lemma announceCapsule_keeps c : moves keeps (announceCapsule c).
Proof. unfold announceCapsule. moves_tac. Qed.
Lemma withdrawCapsule_keeps c reason : moves keeps (withdrawCapsule c reason).
Proof. unfold withdrawCapsule. moves_tac. Qed.
Lemma registerScaling_keeps c : moves keeps (registerScaling c).
Proof. unfold registerScaling. moves_tac. Qed.
#[local] Hint Resolve announceCapsule_keeps withdrawCapsule_keeps registerScaling_keeps : handler.

Lemma onManagerEvent_keeps e : moves keeps (onManagerEvent e).
Proof. unfold onManagerEvent, onCreated, onUpdated, onReceived, onDeleted. moves_tac. Qed.

(** A manager call through the handler is the manager call. *)
Lemma call_manager_result {A} (f : ST Manager A) h : fst (call_manager f h) = fst (f (h_manager h)).
Proof. unfold call_manager. by destruct (f _). Qed.

Lemma call_manager_manager {A} (f : ST Manager A) h :
  h_manager (snd (call_manager f h)) ≡ snd (f (h_manager h)) /\ h_clusters (snd (call_manager f h)) = h_clusters h.
Proof.
  unfold call_manager. destruct (f _) as [a m']. cbn [snd].
  destruct (moves_for_each keeps onManagerEvent (drop (length (m_events (h_manager h))) (m_events m')) onManagerEvent_keeps
              (set_manager m' h)) as (Hm & _ & Hc & _).
  by split.
Qed.

(** ** Election requests *)

(** A request less the time it was made. *)
Definition unstamped (r : ElectionRequested) : ElectionRequested :=
  {| er_OccurredAt := 0; er_CapsuleID := er_CapsuleID r; er_ReplicaID := er_ReplicaID r; er_Reason := er_Reason r;
     er_ClusterPath := er_ClusterPath r; er_PreviousNodeID := er_PreviousNodeID r; er_Priority := er_Priority r |}.

Definition request_in (e : Event) : list ElectionRequested :=
  match e with EvElectionRequested r => [unstamped r] | _ => [] end.

(** The elections asked for on the bus, in order. *)
Definition asked (h : CapsuleHandler) : list ElectionRequested := flat_map request_in (h_eventBus h).

Lemma flat_map_single {A B} (f : A -> B) l : flat_map (fun x => [f x]) l = map f l.
Proof. induction l; simpl; congruence. Qed.

(** From states with [I], [f] asks for the elections [l] and ends with [I]. *)
Definition asks {A} (I : CapsuleHandler -> Prop) (l : list ElectionRequested) (f : ST CapsuleHandler A) : Prop :=
  forall h, I h -> I (snd (f h)) /\ asked (snd (f h)) = asked h ++ l.

Section Asks.
Context (I : CapsuleHandler -> Prop) (HI : forall h h', keeps h h' -> I h -> I h').

Lemma asks_ret {A} (a : A) : asks I [] (mret a).
Proof. intros h Hh. split; [done|]. by rewrite app_nil_r. Qed.

Lemma asks_bind {A B} l1 l2 (f : ST CapsuleHandler A) (g : A -> ST CapsuleHandler B) :
  asks I l1 f -> (forall a, asks I l2 (g a)) -> asks I (l1 ++ l2) (x ← f; g x).
Proof.
  intros Hf Hg h Hh. destruct (Hf h Hh) as [H1 E1]. unfold mbind, ST_bind. destruct (f h) as [a h1].
  destruct (Hg a h1 H1) as [H2 E2]. split; [done|]. cbn in *. by rewrite E2, E1, app_assoc.
Qed.

Lemma asks_gets {A B} l (v : CapsuleHandler -> A) (g : A -> ST CapsuleHandler B) :
  (forall h, I h -> asks I l (g (v h))) -> asks I l (x ← gets v; g x).
Proof. intros Hg h Hh. apply (Hg h Hh h Hh). Qed.

Lemma asks_for_each {A} (ls : A -> list ElectionRequested) (f : A -> ST CapsuleHandler unit) l :
  (forall x, x ∈ l -> asks I (ls x) (f x)) -> asks I (flat_map ls l) (for_each f l).
Proof.
  induction l as [|x l IH]; intros Hf; [apply asks_ret|]. apply asks_bind; [apply Hf; by left|].
  intros _. apply IH. intros y Hy. apply Hf. by right.
Qed.

(** What moves nothing but keeps the state asks for nothing. *)
Lemma asks_nothing {A} (f : ST CapsuleHandler A) :
  moves keeps f -> moves (fun h h' => asked h' = asked h) f -> asks I [] f.
Proof. intros Hk Ha h Hh. split; [exact (HI _ _ (Hk h) Hh)|]. by rewrite (Ha h), app_nil_r. Qed.

Lemma asks_now : asks I [] h_now.
Proof. apply asks_nothing; [apply now_keeps|]. intros h. reflexivity. Qed.

Lemma asks_Publish e : asks I (request_in e) (Publish e).
Proof.
  intros h Hh. split; [exact (HI _ _ (Publish_keeps e h) Hh)|]. 
  change (flat_map request_in (h_eventBus h ++ [e]) = asked h ++ request_in e). rewrite flat_map_app. simpl. by rewrite app_nil_r.
Qed.

(** One request, stamped with the time. *)
Lemma asks_request r : asks I [unstamped (r 0)] (now ← h_now; requestElection {|
    er_OccurredAt := now; er_CapsuleID := er_CapsuleID (r 0); er_ReplicaID := er_ReplicaID (r 0); er_Reason := er_Reason (r 0);
    er_ClusterPath := er_ClusterPath (r 0); er_PreviousNodeID := er_PreviousNodeID (r 0); er_Priority := er_Priority (r 0) |}).
Proof. change [unstamped (r 0)] with ([] ++ [unstamped (r 0)]). apply asks_bind; [apply asks_now|]. intros now. apply asks_Publish. Qed.

Definition initial_request (id cluster : string) (i : Z) : ElectionRequested :=
  {| er_OccurredAt := 0; er_CapsuleID := id; er_ReplicaID := replicaSlotID i; er_Reason := reasonInitial;
     er_ClusterPath := cluster; er_PreviousNodeID := ""; er_Priority := priorityInitial |}.

(** One request for each of the slots [0 .. n-1]. *)
Definition initial_requests (c : Capsule) : list ElectionRequested :=
  map (initial_request (c_ID c) (c_ClusterID c)) (seqZ 0 (initialReplicaCount (cs_Replicas (c_Spec c)))).

Lemma asks_initial c : asks I (initial_requests c) (requestInitialElections c).
Proof.
  unfold initial_requests. rewrite <- flat_map_single. apply asks_for_each. intros i _.
  exact (asks_request (fun _ => initial_request (c_ID c) (c_ClusterID c) i)).
Qed.

End Asks.

Definition replica_request (id cluster previous : string) (r : ReplicaState) : ElectionRequested :=
  {| er_OccurredAt := 0; er_CapsuleID := id; er_ReplicaID := rs_ReplicaID r; er_Reason := reasonNodeFailure;
     er_ClusterPath := cluster; er_PreviousNodeID := previous; er_Priority := priorityNodeFailure |}.

(** The requests for the replicas that [nodeID] runs. *)
Definition replica_requests (id nodeID cluster previous : string) (rs : list ReplicaState) : list ElectionRequested :=
  flat_map (fun r => if rs_NodeID r <>s nodeID then [] else [replica_request id cluster previous r]) rs.

Lemma asks_replicas I (HI : forall h h', keeps h h' -> I h -> I h') id rs nodeID cluster previous :
  asks I (replica_requests id nodeID cluster previous rs) (request_replicas id rs nodeID cluster previous).
Proof.
  apply asks_for_each. intros r _. destruct (rs_NodeID r <>s nodeID); [apply asks_ret|].
  exact (asks_request I HI (fun _ => replica_request id cluster previous r)).
Qed.

Lemma elem_of_replica_requests id nodeID cluster previous rs req :
  req ∈ replica_requests id nodeID cluster previous rs <->
  exists r, r ∈ rs /\ rs_NodeID r = nodeID /\ req = replica_request id cluster previous r.
Proof.
  unfold replica_requests. rewrite list_elem_of_In, in_flat_map. setoid_rewrite <- list_elem_of_In. split.
  - intros (r & Hr & Hin). destruct (String.eqb_spec (rs_NodeID r) nodeID); simpl in Hin; [|by apply elem_of_nil in Hin].
    apply list_elem_of_singleton in Hin. by exists r.
  - intros (r & Hr & Hn & ->). exists r. split; [done|]. rewrite Hn, String.eqb_refl. simpl. by apply list_elem_of_singleton.
Qed.

(** What [onNodeFailed] asks for, in the order of the loop. *)
Lemma onNodeFailed_asks h nodeID cluster :
  asked (snd (onNodeFailed nodeID cluster h)) = asked h ++
  flat_map (fun p => match deref_in p h with
                     | Some c => replica_requests (c_ID c) nodeID cluster nodeID (c_Replicas c)
                     | None => []
                     end) (Manager_List (h_manager h)).
Proof.
  set (I := fun h' => st_heap (m_store (h_manager h')) = st_heap (m_store (h_manager h))).
  assert (HI : forall h1 h2, keeps h1 h2 -> I h1 -> I h2).
  { unfold I. intros h1 h2 ((Hh & _) & _) H1. congruence. }
  refine (proj2 (asks_for_each I _ _ (Manager_List (h_manager h)) _ h eq_refl)).
  intros p _. apply asks_gets. intros h' Hh'. unfold deref_in, deref. unfold I in Hh'. rewrite Hh'.
  destruct (st_heap _ !! p); [by apply asks_replicas|apply asks_ret].
Qed.


Lemma onNodeFailed_keeps nodeID cluster : moves keeps (onNodeFailed nodeID cluster).
Proof. unfold onNodeFailed, request_replicas, requestElection, deref_in. moves_tac. Qed.

(** When a node fails, an election is asked for exactly the
    replicas that the local view places on it, each with top priority and
    naming the failed node; nothing else of the handler changes. Every request
    goes to the cluster of the failure, whatever the cluster of the capsule. *)
Theorem handler_node_failure_reelects h nodeID cluster (Hwf : store_wf (m_store (h_manager h))) :
  let h' := snd (onNodeFailed nodeID cluster h) in
  keeps h h' /\ exists new, asked h' = asked h ++ new /\
  forall req, req ∈ new <-> exists id c r,
    capsule_at (m_store (h_manager h)) id = Some c /\ r ∈ c_Replicas c /\ rs_NodeID r = nodeID /\
    req = replica_request id cluster nodeID r.
Proof.
  split; [apply onNodeFailed_keeps|]. eexists. split; [apply onNodeFailed_asks|]. intros req.
  rewrite list_elem_of_In, in_flat_map. setoid_rewrite <- list_elem_of_In.
  unfold Manager_List, Store_List, cached, deref_in, deref. split.
  - intros (p & Hp & Hreq). apply list_elem_of_fmap in Hp as ([id q] & -> & Hq%elem_of_range). simpl in Hreq.
    destruct (Hwf _ _ Hq) as (c & Hc & Hid). rewrite Hc in Hreq. apply elem_of_replica_requests in Hreq as (r & Hr & Hn & ->).
    exists id, c, r. split_and!; [by eapply capsule_at_get|done|done|by rewrite Hid].
  - intros (id & c & r & Hat & Hr & Hn & ->). unfold capsule_at, Store_Get, deref in Hat.
    destruct (st_capsules _ !! id) as [p|] eqn:Hp; [|done]. simpl in Hat. exists p. split.
    + apply list_elem_of_fmap. exists (id, p). split; [done|]. by apply elem_of_range.
    + rewrite Hat. apply elem_of_replica_requests. exists r. split_and!; [done|done|].
      destruct (Hwf _ _ Hp) as (c' & Hc' & <-). by simplify_eq.
Qed.

(** *** Creation *)

(** The events that the handler does not react to. *)
Definition quiet (e : ManagerEvent) : Prop := exists st, me_Type e = statusEventType st.

Lemma onManagerEvent_quiet e h : quiet e -> snd (onManagerEvent e h) = h.
Proof.
  intros [st He]. unfold onManagerEvent. destruct (me_Seen e); [|done]. rewrite He. unfold statusEventType.
  by repeat case_match.
Qed.

Lemma quiet_nothing evs h : Forall quiet evs -> snd (for_each onManagerEvent evs h) = h.
Proof.
  intros Hq. revert h. induction Hq as [|e evs He _ IH]; intros h; [done|]. simpl. unfold mbind, ST_bind.
  pose proof (onManagerEvent_quiet e h He) as E. destruct (onManagerEvent e h). simpl in E. subst. apply IH.
Qed.

Lemma call_manager_events {A} (f : ST Manager A) h evs :
  m_events (snd (f (h_manager h))) = m_events (h_manager h) ++ evs ->
  snd (call_manager f h) = snd (for_each onManagerEvent evs (set_manager (snd (f (h_manager h))) h)).
Proof. unfold call_manager. destruct (f _) as [a m']. simpl. intros ->. by rewrite drop_app_length. Qed.

(** The events a lifecycle step emits are quiet. *)
Lemma Fire_events id t m :
  exists evs, m_events (snd (Manager_Fire id t m)) = m_events m ++ evs /\ Forall quiet evs.
Proof.
  unfold Manager_Fire, mbind, ST_bind, gets, set_lifecycle, modify.
  destruct (m_lifecycles m !! id) as [lc|]; [|exists []; by rewrite app_nil_r].
  destruct (Lifecycle_Fire lc t) as [lc' [ev|e]]; [|exists []; by rewrite app_nil_r].
  rewrite onLifecycleTransition_unfold. destruct (Store_Get _ _) as [p|]; [|exists []; by rewrite app_nil_r].
  destruct (assign_and_save _ _ _) as [[u|e] s']; [|exists []; by rewrite app_nil_r].
  eexists [_]. split; [reflexivity|]. constructor; [|constructor]. by exists (le_To ev).
Qed.

Lemma created_manager_events m random cl s p :
  m_events (created_manager m random cl s p) = m_events m ++
  [{| me_Type := EventCapsuleCreated; me_CapsuleID := default "" (c_ID <$> deref s p); me_Capsule := p; me_Seen := deref s p;
      me_Timestamp := st_clock s (st_ticks s) |}].
Proof. reflexivity. Qed.

(** The event of a creation shows the capsule before it is announced. *)
Lemma Create_events random cl spec m p m' :
  store_wf (m_store m) -> Manager_Create random cl spec m = (Ok p, m') ->
  exists e t evs, m_events m' = m_events m ++ e :: evs /\ Forall quiet evs /\ me_Type e = EventCapsuleCreated /\
    me_Seen e = Some (set_UpdatedAt t (set_CreatedAt t (new_capsule random cl (DefaultSpec spec) (st_clock (m_store m) (st_ticks (m_store m)))))).
Proof.
  intros Hwf. rewrite Manager_Create_unfold. destruct (cl =s ""); [done|]. destruct (ValidateSpec _); [|done].
  unfold time_Now. set (s0 := Build_Store _ _ _ _ _). set (now := st_clock _ _). set (c0 := new_capsule _ _ _ _).
  pose proof (alloc_at s0 c0 Hwf) as Ha. destruct (alloc c0 s0) as [q s1]. destruct Ha as (Hwf1 & Hq & _).
  pose proof (Store_Create_at s1 q c0 Hwf1 Hq) as Hcr. destruct (Store_Create q s1) as [r s2].
  destruct Hcr as (_ & _ & Hr). destruct r as [u|e]; [|done]. destruct Hr as (_ & Hcap & t & Ht).
  intros [= <- <-]. destruct (Fire_events (NewCapsuleID random) TriggerAnnounce (created_manager m random cl s2 q)) as (evs & He & Hev).
  unfold Manager_Announce. rewrite He, created_manager_events, <- app_assoc.
  eexists _, t, evs. split_and!; [reflexivity|done|done|].
  cbn [me_Seen]. unfold capsule_at, Store_Get in Ht. rewrite Hcap in Ht. exact Ht.
Qed.

Lemma Create_fails random cl spec m e m' :
  Manager_Create random cl spec m = (Err e, m') -> m_events m' = m_events m.
Proof.
  rewrite Manager_Create_unfold. destruct (cl =s ""); [by intros [= _ <-]|]. destruct (ValidateSpec _); [|by intros [= _ <-]].
  destruct (time_Now _) as [now s0]. destruct (alloc _ _) as [p s1]. destruct (Store_Create p s1) as [[u|e'] s2]; [done|].
  by intros [= _ <-].
Qed.


(** No election asked for; nothing sent. *)
Definition silent (h h' : CapsuleHandler) : Prop := asked h' = asked h.
Definition still (h h' : CapsuleHandler) : Prop := h_wire h' = h_wire h.

#[local] Instance silent_preorder : PreOrder silent.
Proof. split; [done|]. unfold silent. intros ???; congruence. Qed.
#[local] Instance still_preorder : PreOrder still.
Proof. split; [done|]. unfold still. intros ???; congruence. Qed.

Lemma now_silent : moves silent h_now.
Proof. intros h. reflexivity. Qed.
Lemma Publish_silent e : request_in e = [] -> moves silent (Publish e).
Proof.
  intros He h. unfold silent. change (flat_map request_in (h_eventBus h ++ [e]) = asked h). rewrite flat_map_app. simpl.
  by rewrite He, !app_nil_r.
Qed.
Lemma sends_silent n w : moves silent (modify (fun h => set_sends (n h) (w h) h)).
Proof. intros h. reflexivity. Qed.
Lemma monitor_silent f : moves silent (modify (fun h => set_monitor (f h) h)).
Proof. intros h. reflexivity. Qed.
#[local] Hint Resolve now_silent Publish_silent sends_silent monitor_silent : handler.

Lemma now_still : moves still h_now.
Proof. intros h. reflexivity. Qed.
Lemma Publish_still e : moves still (Publish e).
Proof. intros h. reflexivity. Qed.
Lemma monitor_still f : moves still (modify (fun h => set_monitor (f h) h)).
Proof. intros h. reflexivity. Qed.
Lemma forget_still f id : moves still (modify (fun h => match f h with Some calls => set_forget (Some (calls ++ [id])) h | None => h end)).
Proof. intros h. unfold modify. simpl. by destruct (f h). Qed.
#[local] Hint Resolve now_still Publish_still monitor_still forget_still : handler.

Lemma transmit_silent topic f : moves silent (transmit topic f).
Proof. unfold transmit. moves_tac. Qed.
#[local] Hint Resolve transmit_silent : handler.
Lemma announceCapsule_silent c : moves silent (announceCapsule c).
Proof. unfold announceCapsule. moves_tac. Qed.
Lemma requestInitialElections_still c : moves still (requestInitialElections c).
Proof. unfold requestInitialElections, requestElection. moves_tac. Qed.
#[local] Hint Resolve requestInitialElections_still : handler.
Lemma onReceived_still c : moves still (onReceived c).
Proof. unfold onReceived, registerScaling. moves_tac. Qed.

(** One publication: nothing on the wire, or the message that [f] built. *)
Lemma transmit_wire topic f h :
  let '(r, h') := transmit topic f h in
  match r with
  | Err _ => h_wire h' = h_wire h
  | Ok _ => exists now data, f now (h_net h (h_sends h)) = Ok data /\ h_wire h' = h_wire h ++ [(topic, data)]
  end.
Proof.
  unfold transmit, mbind, ST_bind, h_now, gets, modify. destruct (on_store time_Now (h_manager h)) as [now m]. simpl.
  destruct (f now _) as [data|e] eqn:E; [|done]. by exists now, data.
Qed.

Lemma announceCapsule_wire c h :
  h_wire (snd (announceCapsule c h)) = h_wire h \/
  exists ann now data, h_clusters h !! c_ClusterID c = Some ann /\
    Announcer_Announce now c (h_net h (h_sends h)) ann = Ok data /\
    h_wire (snd (announceCapsule c h)) =
      h_wire h ++ [(BuildOrbitTopic (om_clusterPath (a_manager ann)) (cs_Orbit (c_Spec c)), data)].
Proof.
  unfold announceCapsule, mbind, ST_bind, gets. destruct (h_clusters h !! _) as [ann|] eqn:Ha; [|by left].
  pose proof (transmit_wire (BuildOrbitTopic (om_clusterPath (a_manager ann)) (cs_Orbit (c_Spec c)))
                (fun now sent => Announcer_Announce now c sent ann) h) as Ht.
  destruct (transmit _ _ h) as [[u|e] h1]; [|by left]. right. destruct Ht as (now & data & Hd & Hw). by exists ann, now, data.
Qed.

(** What a creation asks for and sends, for the capsule [c] of its event. *)
Lemma onCreated_asks c : asks (fun _ => True) (initial_requests c) (onCreated c).
Proof.
  assert (HI : forall h h' : CapsuleHandler, keeps h h' -> True -> True) by done.
  change (initial_requests c) with ([] ++ [] ++ [] ++ initial_requests c). unfold onCreated.
  apply asks_bind; [by apply asks_now|]. intros now. apply asks_bind; [by apply (asks_Publish _ HI)|]. intros _.
  apply asks_bind; [|by intros _; apply asks_initial].
  apply asks_nothing; [done|apply announceCapsule_keeps|apply announceCapsule_silent].
Qed.

Lemma onCreated_wire c h :
  h_wire (snd (onCreated c h)) = h_wire h \/
  exists ann now data, h_clusters h !! c_ClusterID c = Some ann /\
    Announcer_Announce now c (h_net h (h_sends h)) ann = Ok data /\
    h_wire (snd (onCreated c h)) =
      h_wire h ++ [(BuildOrbitTopic (om_clusterPath (a_manager ann)) (cs_Orbit (c_Spec c)), data)].
Proof.
  unfold onCreated, mbind, ST_bind. destruct (h_now h) as [now h0] eqn:E0. unfold h_now in E0.
  destruct (on_store _ _) as [t m]. injection E0 as <- <-. unfold Publish, modify.
  set (h1 := set_bus _ _). pose proof (announceCapsule_wire c h1) as Hw. destruct (announceCapsule c h1) as [[] h2].
  pose proof (requestInitialElections_still c h2) as Hs. unfold still in Hs. simpl in *. by rewrite Hs.
Qed.


(** The reaction to a creation is [onCreated] of the new capsule, as it was
    before its announcement. *)
Lemma Create_reacts random cl spec h p :
  store_wf (m_store (h_manager h)) -> fst (call_manager (Manager_Create random cl spec) h) = Ok p ->
  exists c m', c_ID c = NewCapsuleID random /\ c_ClusterID c = cl /\ c_Spec c = DefaultSpec spec /\
    c_Status c = capsuleStatusCreated /\
    snd (call_manager (Manager_Create random cl spec) h) = snd (onCreated c (set_manager m' h)).
Proof.
  intros Hwf. rewrite call_manager_result. destruct (Manager_Create random cl spec (h_manager h)) as [r m'] eqn:Em. simpl. intros ->.
  destruct (Create_events _ _ _ _ _ _ Hwf Em) as (e & t & evs & He & Hq & Ht & Hs).
  set (c := set_UpdatedAt _ _) in Hs. exists c, m'. split_and!; [done..|].
  rewrite (call_manager_events _ _ (e :: evs)) by (by rewrite Em). rewrite Em. cbn [snd for_each].
  unfold mbind, ST_bind. unfold onManagerEvent at 1. rewrite Hs, Ht. clearbody c. cbn -[onCreated for_each].
  destruct (onCreated _ _) as [[] h1]. cbn [snd]. by apply quiet_nothing.
Qed.

Lemma initialReplicaCount_pos r : 1 <= initialReplicaCount r.
Proof. unfold initialReplicaCount. destruct (Z.ltb_spec 0 (Exact r)); [lia|]. destruct (Z.ltb_spec 0 (Min r)); lia. Qed.

(** Creating a capsule asks for the election of exactly the
    slots [0 .. n-1] of its effective replica count (at least one), once each
    and in order, in its cluster; a rejected creation publishes nothing and
    asks for nothing. *)
Theorem handler_create_requests random cl spec h (Hwf : store_wf (m_store (h_manager h))) :
  let '(r, h') := call_manager (Manager_Create random cl spec) h in
  match r with
  | Ok _ =>
      let n := initialReplicaCount (cs_Replicas (DefaultSpec spec)) in
      asked h' = asked h ++ map (initial_request (NewCapsuleID random) cl) (seqZ 0 n) /\
      NoDup (map replicaSlotID (seqZ 0 n)) /\ 1 <= n
  | Err _ => h_eventBus h' = h_eventBus h /\ h_wire h' = h_wire h
  end.
Proof.
  destruct (call_manager _ h) as [r h'] eqn:Ec. destruct r as [p|e].
  - destruct (Create_reacts random cl spec h p Hwf) as (c & m' & Hid & Hcl & Hsp & _ & Hr); [by rewrite Ec|].
    rewrite Ec in Hr. cbn [snd] in Hr. subst h'.
    rewrite (proj2 (onCreated_asks c (set_manager m' h) Logic.I)). unfold initial_requests. rewrite Hid, Hcl, Hsp.
    split_and!; [done| |apply initialReplicaCount_pos]. apply NoDup_fmap_2; [apply pretty_Z_inj|apply NoDup_seqZ].
  - unfold call_manager in Ec. destruct (Manager_Create random cl spec (h_manager h)) as [r m'] eqn:Em.
    injection Ec as -> <-. rewrite (Create_fails _ _ _ _ _ _ Em), drop_ge by lia. done.
Qed.


(** *** Reception *)

(** A reading of the clock changes nothing else. *)
Definition ticked (h : CapsuleHandler) : CapsuleHandler := snd (h_now h).
Definition clock_of (h : CapsuleHandler) (i : nat) : Time :=
  st_clock (m_store (h_manager h)) (st_ticks (m_store (h_manager h)) + i)%nat.

Lemma onOrbitMessage_eq cl data h ann :
  h_clusters h !! cl = Some ann ->
  snd (onOrbitMessage cl data h) =
  let '(r, ann') := HandleMessage (clock_of h 0) (clock_of h 1) data ann in
  let h1 := set_clusters (<[cl := ann']> (h_clusters h)) (ticked (ticked h)) in
  match r with Err _ => h1 | Ok payload => snd (onPayload payload h1) end.
Proof.
  intros Ha. unfold onOrbitMessage, mbind, ST_bind, gets. rewrite Ha. unfold clock_of, ticked, h_now, on_store, time_Now. cbn.
  rewrite Nat.add_0_r, Nat.add_1_r. by destruct (HandleMessage _ _ _ _) as [[payload|] ann'].
Qed.

Lemma coherent_alloc m c :
  coherent m -> let '(p, s') := alloc c (m_store m) in
  coherent (with_store s' m) /\ st_heap s' !! p = Some c /\ st_capsules s' = st_capsules (m_store m) /\
  st_db s' = st_db (m_store m).
Proof.
  intros [Hwf Hag]. pose proof (alloc_at (m_store m) c Hwf) as Ha. destruct (alloc c (m_store m)) as [p s'].
  destruct Ha as (Hwf' & Hp & Hat & Hcap & Hdb & _). split_and!; try done. split; [done|]. intros id. simpl. rewrite Hat. apply Hag.
Qed.

(** The store has no database, or the database takes a row for this capsule. *)
Definition takes_row (s : Store) (id : CapsuleID) : Prop :=
  forall c, c_ID c = id -> is_Some (through_db (st_db s) (fun d => insertDB d c)).

(** A new capsule is stored with the status it came with. *)
Lemma receiveCapsule_new m c :
  coherent m -> CapsuleStatus_Valid (c_Status c) = true -> Manager_Get (c_ID c) m = None -> takes_row (m_store m) (c_ID c) ->
  let m' := snd (receiveCapsule c m) in
  coherent m' /\ status_of m' (c_ID c) = Some (c_Status c) /\
  exists e t, m_events m' = m_events m ++ [e] /\ me_Type e = EventCapsuleReceived /\
              me_Seen e = Some (set_UpdatedAt t (set_CreatedAt t c)).
Proof.
  intros Hco Hv Hnew Hdb. unfold receiveCapsule, mbind, ST_bind, on_store.
  pose proof (coherent_alloc m c Hco) as Ha. destruct (alloc c (m_store m)) as [p s1]. destruct Ha as (Hco1 & Hp & Hcap & Hdb1).
  assert (Hnew1 : Manager_Get (c_ID c) (with_store s1 m) = None).
  { unfold Manager_Get, Store_Get in *. simpl. by rewrite Hcap. }
  pose proof (Manager_Receive_new_coherent (with_store s1 m) p c Hco1 Hp Hnew1 Hv) as Hco2. split; [exact Hco2|]. clear Hco2.
  unfold Manager_Receive, mbind, ST_bind, gets, on_store, deref.
  change (st_heap (m_store (with_store s1 m))) with (st_heap s1). rewrite Hp, Hnew1. change (m_store (with_store s1 m)) with s1.
  pose proof (Store_Create_spec s1 p c Hp) as Hs. destruct (Store_Create p s1) as [r s2]. cbv zeta in Hs.
  unfold Manager_Get, Store_Get in Hnew1. simpl in Hnew1. rewrite Hnew1, Hdb1 in Hs. destruct Hs as (Hh & _ & _ & Hr).
  match type of Hr with context [through_db _ (fun d => insertDB d ?c')] => destruct (Hdb c' eq_refl) as [d Hd] end.
  rewrite Hd in Hr. destruct Hr as (-> & Hc2 & _).
  assert (Hat : capsule_at s2 (c_ID c) = Some (set_UpdatedAt (st_clock s1 (st_ticks s1)) (set_CreatedAt (st_clock s1 (st_ticks s1)) c))).
  { eapply capsule_at_get; [by rewrite Hc2, lookup_insert_eq|by rewrite Hh, lookup_insert_eq]. }
  split.
  - unfold status_of. cbn -[capsule_at]. change (c_Status <$> capsule_at s2 (c_ID c) = Some (c_Status c)). by rewrite Hat.
  - eexists _, _. split; [reflexivity|]. split; [reflexivity|]. cbn. unfold deref. by rewrite Hh, lookup_insert_eq.
Qed.

(** Where only [Announce] leads on, nothing else does. *)
Lemma stuck_created m id ts :
  coherent m -> status_of m id = Some capsuleStatusCreated -> (TriggerAnnounce ∉ ts) ->
  let m' := fold_left (fun m t => snd (Manager_Fire id t m)) ts m in
  status_of m' id = Some capsuleStatusCreated /\ store_wf (m_store m').
Proof.
  revert m. induction ts as [|t ts IH]; intros m Hco Hst Hna; [split; [done|apply Hco]|]. apply not_elem_of_cons in Hna as [Hne Hna].
  simpl. pose proof (Manager_Fire_spec m id t Hco) as HF. destruct (Manager_Fire id t m) as [r m']. destruct HF as (Hco' & _ & HF).
  apply IH; [done| |done]. unfold status_of in *. destruct (capsule_at (m_store m) id) as [c|] eqn:Hc; [|done].
  injection Hst as Hst. rewrite Hst in HF. destruct (permitted buildTable capsuleStatusCreated t) as [d|] eqn:Hp.
  - apply permitted_step in Hp. inversion Hp. by subst.
  - destruct HF as (_ & Hat & _). cbn [snd]. rewrite Hat. simpl. by rewrite Hst.
Qed.

(** Copying a status, by contrast, goes past the lifecycle. *)
Lemma SyncStatus_moves m id st c :
  store_wf (m_store m) -> capsule_at (m_store m) id = Some c -> CapsuleStatus_Valid st = true ->
  status_of (snd (Manager_SyncStatus id st m)) id = Some st.
Proof.
  intros Hwf Hat Hv. unfold Manager_SyncStatus. rewrite Hv. change (negb true) with false. cbv iota.
  unfold mbind, ST_bind, gets, Manager_Get. unfold capsule_at in Hat. destruct (Store_Get id (m_store m)) as [p|] eqn:Hp; [|done].
  pose proof (assign_and_save_spec (m_store m) id p c (set_Status st) Hwf Hp Hat eq_refl) as Hs. unfold on_store.
  destruct (assign_and_save _ _ _) as [r s']. destruct Hs as (_ & _ & [t Ht] & _).
  destruct r; (transitivity (c_Status <$> capsule_at s' id); [reflexivity|by rewrite Ht]).
Qed.

#[local] Instance status_of_proper : Proper ((≡) ==> eq ==> eq) status_of.
Proof. intros m1 m2 (Hh & Hc & _) id ? <-. unfold status_of, capsule_at, Store_Get, deref. by rewrite Hh, Hc. Qed.


Lemma onReceived_asks c : asks (fun _ => True) (initial_requests c) (onReceived c).
Proof.
  assert (HI : forall h h' : CapsuleHandler, keeps h h' -> True -> True) by done.
  change (initial_requests c) with ([] ++ [] ++ [] ++ initial_requests c). unfold onReceived.
  apply asks_bind; [by apply asks_now|]. intros now. apply asks_bind; [by apply (asks_Publish _ HI)|]. intros _.
  apply asks_bind; [|by intros _; apply asks_initial].
  apply asks_nothing; [done|apply registerScaling_keeps|]. unfold registerScaling. moves_tac.
Qed.



(** *** Assignments and eligibility *)

Lemma elem_of_NodesRunning m cl name node :
  store_wf (m_store m) ->
  node ∈ NodesRunningCapsule m cl name <-> exists id c r,
    capsule_at (m_store m) id = Some c /\ c_ClusterID c = cl /\ cs_Name (c_Spec c) = name /\
    r ∈ c_Replicas c /\ rs_NodeID r = node /\ node <> "".
Proof.
  intros Hwf. unfold NodesRunningCapsule, Manager_List, Store_List, cached, deref.
  rewrite list_elem_of_In, in_flat_map. split.
  - intros (p & Hp & Hn). apply list_elem_of_In, list_elem_of_fmap in Hp as ([id q] & -> & Hq%elem_of_range). simpl in Hn.
    destruct (Hwf _ _ Hq) as (c & Hc & Hid). rewrite Hc in Hn.
    destruct (String.eqb_spec (c_ClusterID c) cl), (String.eqb_spec (cs_Name (c_Spec c)) name); simpl in Hn; try done.
    apply filter_In in Hn as [Hn Hne]. apply in_map_iff in Hn as (r & Hr & Hin).
    exists id, c, r. split_and!; try done; [by eapply capsule_at_get|by apply list_elem_of_In|].
    destruct (String.eqb_spec node ""); done.
  - intros (id & c & r & Hat & <- & <- & Hr & <- & Hne). unfold capsule_at, Store_Get, deref in Hat.
    destruct (st_capsules _ !! id) as [p|] eqn:Hp; [|done]. simpl in Hat. exists p. split.
    + apply list_elem_of_In, list_elem_of_fmap. exists (id, p). split; [done|]. by apply elem_of_range.
    + rewrite Hat, !String.eqb_refl. simpl. apply filter_In. split; [|by apply String.eqb_neq in Hne; rewrite Hne].
      apply in_map, list_elem_of_In, Hr.
Qed.

Lemma running_excluded m c n :
  NodeID n ∈ NodesRunningCapsule m (ClusterPath n) (cs_Name (c_Spec c)) ->
  Reason (IsEligible c n (Some (NodesRunningCapsule m))) = ineligibilityExcluded.
Proof.
  intros Hin. unfold IsEligible, already_running.
  replace (containsString _ _) with true; [done|]. symmetry. apply existsb_exists. exists (NodeID n).
  split; [by apply list_elem_of_In|]. apply String.eqb_refl.
Qed.

Lemma assign_slot_hosts rid node now rs : exists r, r ∈ assign_slot rid node now rs /\ rs_NodeID r = node.
Proof.
  induction rs as [|r rs (r' & Hr' & Hn)]; simpl; [eexists; split; [by left|done]|].
  case_match; [eexists; split; [by left|done]|]. exists r'. split; [by right|done].
Qed.

(** What a manager operation may do to the capsule [id]: keep it stored, in
    its cluster and with its specification. *)
Definition still_there (id : CapsuleID) (c : Capsule) (m : Manager) : Prop :=
  store_wf (m_store m) /\ exists c', capsule_at (m_store m) id = Some c' /\ c_ClusterID c' = c_ClusterID c /\ c_Spec c' = c_Spec c.

Lemma SyncStatus_there id st c m :
  still_there id c m -> still_there id c (snd (Manager_SyncStatus id st m)).
Proof.
  intros (Hwf & c' & Hat & Hcl & Hsp). unfold Manager_SyncStatus. destruct (negb _); [by split; eauto|].
  unfold mbind, ST_bind, gets, Manager_Get. unfold capsule_at in Hat. destruct (Store_Get id (m_store m)) as [p|] eqn:Hp; [|done].
  pose proof (assign_and_save_spec (m_store m) id p c' (set_Status st) Hwf Hp Hat eq_refl) as Hs. unfold on_store.
  destruct (assign_and_save _ _ _) as [r s']. destruct Hs as (Hwf' & _ & [t Ht] & _).
  destruct r; (split; [exact Hwf'|]); eexists; (split; [exact Ht|done]).
Qed.

Lemma AssignReplica_hosts id rid node c m :
  still_there id c m -> node <> "" ->
  node ∈ NodesRunningCapsule (snd (Manager_AssignReplica id rid node m)) (c_ClusterID c) (cs_Name (c_Spec c)).
Proof.
  intros (Hwf & c' & Hat & Hcl & Hsp) Hne. rewrite Manager_AssignReplica_unfold. unfold capsule_at in Hat.
  unfold Manager_Get. destruct (Store_Get id (m_store m)) as [p|] eqn:Hp; [|done]. unfold time_Now.
  set (s1 := Build_Store _ _ _ _ _). set (now := st_clock _ _).
  pose proof (assign_and_save_spec s1 id p c' (assign_replica_in rid node now) Hwf Hp Hat eq_refl) as Hs.
  destruct (assign_and_save _ _ _) as [r s']. destruct Hs as (Hwf' & _ & [t Ht] & _).
  destruct (assign_slot_hosts rid node now (c_Replicas c')) as (rr & Hrr & Hn).
  apply elem_of_NodesRunning; [exact Hwf'|]. exists id, (set_UpdatedAt t (assign_replica_in rid node now c')), rr.
  split; [exact Ht|]. split_and!; try done. simpl. congruence.
Qed.

Lemma NodesRunning_equiv m1 m2 cl name : m1 ≡ m2 -> NodesRunningCapsule m1 cl name = NodesRunningCapsule m2 cl name.
Proof. intros (Hh & Hc & _). unfold NodesRunningCapsule, Manager_List, Store_List, cached, deref. by rewrite Hh, Hc. Qed.

Lemma still_there_equiv id c m1 m2 : m1 ≡ m2 -> still_there id c m1 -> still_there id c m2.
Proof. intros (Hh & Hc & _). unfold still_there, store_wf, capsule_at, Store_Get, deref. by rewrite Hh, Hc. Qed.

(** C12: recording the outcome of an election keeps replicas apart:
    once a won or lost election has named a winner for one replica, the
    winner is excluded from electing itself for any replica of a capsule of
    that name, in every view that has recorded the outcome. *)
Theorem handler_winner_excluded h id rid winner c ev t score n c'
    (Hwf : store_wf (m_store (h_manager h))) (Hc : capsule_at (m_store (h_manager h)) id = Some c)
    (Hev : ev = EvElectionWon t id rid (c_ClusterID c) score winner \/ ev = EvElectionLost t id rid (c_ClusterID c) winner)
    (Hne : winner <> "") (Hn : NodeID n = winner) (Hcl : ClusterPath n = c_ClusterID c)
    (Hname : cs_Name (c_Spec c') = cs_Name (c_Spec c)) :
  Reason (IsEligible c' n (Some (NodesRunningCapsule (h_manager (snd (on_event ev h)))))) = ineligibilityExcluded.
Proof.
  assert (Hth : still_there id c (h_manager h)) by (split; eauto). clear Hwf Hc.
  apply running_excluded. rewrite Hn, Hcl, Hname. destruct Hev as [->| ->]; simpl.
  - unfold handleElectionWon, mbind, ST_bind. pose proof (call_manager_manager (Manager_AssignReplica id rid winner) h) as [Hm _].
    destruct (call_manager _ h) as [r h']. simpl in *. rewrite (NodesRunning_equiv _ _ _ _ Hm). by apply AssignReplica_hosts.
  - unfold handleElectionLost, mbind, ST_bind. pose proof (call_manager_manager (Manager_SyncStatus id capsuleStatusAssigned) h) as [Hm _].
    destruct (call_manager _ h) as [r h1]. simpl in Hm. apply (SyncStatus_there _ capsuleStatusAssigned), (still_there_equiv _ _ _ _ (symmetry Hm)) in Hth.
    rewrite (proj2 (String.eqb_neq _ _) Hne). simpl.
    pose proof (call_manager_manager (Manager_AssignReplica id rid winner) h1) as [Hm1 _].
    destruct (call_manager _ h1) as [r1 h']. simpl in *. rewrite (NodesRunning_equiv _ _ _ _ Hm1). by apply AssignReplica_hosts.
Qed.

(** After the container of a local replica crashes, an
    election is asked for its slot, but the slot still names the local node,
    which is therefore excluded from it: the node that lost the container can
    never win it back, and in a cluster of one node nobody can. *)
Theorem handler_crash_excludes_self h id c r n
    (Hwf : store_wf (m_store (h_manager h))) (Hc : capsule_at (m_store (h_manager h)) id = Some c)
    (Hr : r ∈ c_Replicas c) (Hself : rs_NodeID r = h_nodeID h) (Hne : h_nodeID h <> "")
    (Hn : NodeID n = h_nodeID h) (Hcl : ClusterPath n = c_ClusterID c) :
  let h' := snd (handleContainerCrash id h) in
  (exists new, asked h' = asked h ++ new /\ replica_request id (c_ClusterID c) "" r ∈ new) /\
  Reason (IsEligible c n (Some (NodesRunningCapsule (h_manager h')))) = ineligibilityExcluded.
Proof.
  assert (Hk : moves keeps (handleContainerCrash id)).
  { unfold handleContainerCrash, request_replicas, requestElection. moves_tac. }
  split.
  - unfold handleContainerCrash, mbind, ST_bind, gets.
    assert (Hget : store_Get (h_manager h) id = Some c) by exact Hc. rewrite Hget. eexists.
    split; [exact (proj2 (asks_replicas (fun _ => True) ltac:(done) id (c_Replicas c) (h_nodeID h) (c_ClusterID c) "" h Logic.I))|].
    apply elem_of_replica_requests. by exists r.
  - apply running_excluded. rewrite (NodesRunning_equiv _ _ _ _ (proj1 (Hk h))), Hn, Hcl.
    apply elem_of_NodesRunning; [done|]. exists id, c, r. by rewrite Hself.
Qed.


(** *** Gossip *)

Definition received (e : ManagerEvent) : Prop := me_Type e = EventCapsuleReceived.

Lemma receiveCapsule_effect c m :
  store_wf (m_store m) -> let m' := snd (receiveCapsule c m) in
  store_wf (m_store m') /\ (Manager_Count m' <= Datatypes.S (Manager_Count m))%nat /\
  exists evs, m_events m' = m_events m ++ evs /\ Forall received evs.
Proof.
  intros Hwf. unfold receiveCapsule, mbind, ST_bind, on_store. pose proof (alloc_at (m_store m) c Hwf) as Ha.
  destruct (alloc c (m_store m)) as [p s1]. destruct Ha as (Hwf1 & Hp & _ & Hcap & _).
  unfold Manager_Count, Store_Count. rewrite <- Hcap.
  unfold Manager_Receive, mbind, ST_bind, gets, on_store, deref. change (m_store (with_store s1 m)) with s1. rewrite Hp.
  destruct (Manager_Get (c_ID c) (with_store s1 m)) as [q|] eqn:Hq.
  - pose proof (Store_Update_spec s1 p c Hp) as Hu. change (m_store (with_store s1 m)) with s1.
    destruct (Store_Update p s1) as [r s2] eqn:Eu. pose proof (Store_Update_wf _ _ _ _ Hwf1 Eu) as Hwf2.
    unfold Manager_Get, Store_Get in Hq. simpl in Hq. rewrite Hq in Hu. destruct Hu as (_ & _ & _ & Hu).
    assert (Hsz : size (st_capsules s2) = size (st_capsules s1)).
    { destruct (through_db _ _); destruct Hu as (_ & -> & _); [|done]. rewrite map_size_insert_Some by eauto. done. }
    destruct r; simpl; (split_and!; [exact Hwf2|lia|]); [eexists [_]|exists []]; (split; [by rewrite ?app_nil_r|]); by repeat constructor.
  - pose proof (Store_Create_spec s1 p c Hp) as Hu. change (m_store (with_store s1 m)) with s1.
    destruct (Store_Create p s1) as [r s2] eqn:Eu. pose proof (Store_Create_wf _ _ _ _ Hwf1 Eu) as Hwf2.
    unfold Manager_Get, Store_Get in Hq. simpl in Hq. rewrite Hq in Hu. destruct Hu as (_ & _ & _ & Hu).
    assert (Hsz : (size (st_capsules s2) <= Datatypes.S (size (st_capsules s1)))%nat).
    { destruct (through_db _ _); destruct Hu as (_ & -> & _); [|lia]. rewrite map_size_insert_None by done. lia. }
    destruct r; simpl; (split_and!; [exact Hwf2|lia|]); [eexists [_]|exists []]; (split; [by rewrite ?app_nil_r|]); by repeat constructor.
Qed.

Lemma SyncStatus_effect id st m :
  store_wf (m_store m) -> let m' := snd (Manager_SyncStatus id st m) in
  store_wf (m_store m') /\ Manager_Count m' = Manager_Count m /\
  exists evs, m_events m' = m_events m ++ evs /\ Forall quiet evs.
Proof.
  intros Hwf. assert (Hnone : exists evs, m_events m = m_events m ++ evs /\ Forall quiet evs) by (exists []; by rewrite app_nil_r).
  unfold Manager_SyncStatus. destruct (negb _); [done|]. unfold mbind, ST_bind, gets, Manager_Get.
  destruct (Store_Get id (m_store m)) as [p|] eqn:Hp; [|done]. destruct (Hwf _ _ Hp) as (c & Hc & _).
  pose proof (assign_and_save_spec (m_store m) id p c (set_Status st) Hwf Hp Hc eq_refl) as Hs. unfold on_store.
  destruct (assign_and_save _ _ _) as [r s']. destruct Hs as (Hwf' & Hcap & _). unfold Manager_Count, Store_Count.
  destruct r; simpl; (split_and!; [exact Hwf'|by rewrite Hcap|]); [|exact Hnone].
  eexists [_]. split; [done|]. constructor; [|constructor]. by exists st.
Qed.

Lemma Delete_effect id m :
  store_wf (m_store m) -> let m' := snd (Manager_Delete id m) in
  store_wf (m_store m') /\
  (m' = m \/ Manager_Count m = Datatypes.S (Manager_Count m') /\ capsule_at (m_store m') id = None /\
     exists e, m_events m' = m_events m ++ [e] /\ me_Type e = EventCapsuleDeleted).
Proof.
  intros Hwf. unfold Manager_Delete, mbind, ST_bind, gets, on_store.
  destruct (Manager_Get id m) as [p|] eqn:Hp; [|split; [done|by left]].
  destruct (Store_Delete id (m_store m)) as [r s'] eqn:Ed. pose proof (Store_Delete_wf _ _ _ _ Hwf Ed) as Hwf'.
  unfold Store_Delete in Ed. unfold Manager_Get, Store_Get in Hp. rewrite Hp in Ed.
  destruct (through_db _ _) as [d|]; injection Ed as <- <-; simpl; (split; [exact Hwf'|]); [right|by left; destruct m].
  unfold Manager_Count, Store_Count. simpl. split_and!.
  - rewrite map_size_delete_Some by eauto. assert (size (st_capsules (m_store m)) <> 0)%nat; [|lia].
    intros Hz%map_size_empty_inv. by rewrite Hz in Hp.
  - unfold capsule_at, Store_Get. simpl. by rewrite lookup_delete_eq.
  - by eexists.
Qed.

Lemma received_still e : received e -> moves still (onManagerEvent e).
Proof.
  intros He. unfold onManagerEvent. destruct (me_Seen e); [|moves_tac]. rewrite He. apply onReceived_still.
Qed.

(** A bound on what a computation sends. *)
Definition sends_at_most {A} (k : nat) (f : ST CapsuleHandler A) : Prop :=
  forall h, (length (h_wire (snd (f h))) <= length (h_wire h) + k)%nat.

Lemma sends_bind {A B} j k (f : ST CapsuleHandler A) (g : A -> ST CapsuleHandler B) :
  sends_at_most j f -> (forall a, sends_at_most k (g a)) -> sends_at_most (j + k) (x ← f; g x).
Proof.
  intros Hf Hg h. specialize (Hf h). unfold mbind, ST_bind. destruct (f h) as [a h1]. specialize (Hg a h1). simpl in *. lia.
Qed.

Lemma sends_still {A} (f : ST CapsuleHandler A) : moves still f -> sends_at_most 0 f.
Proof. intros Hf h. rewrite (Hf h). lia. Qed.

Lemma sends_transmit topic f : sends_at_most 1 (transmit topic f).
Proof.
  intros h. pose proof (transmit_wire topic f h) as Ht. destruct (transmit topic f h) as [[u|e] h']; simpl.
  - destruct Ht as (? & data & _ & ->). by rewrite length_app.
  - rewrite Ht. lia.
Qed.

Lemma sends_withdraw c reason : sends_at_most 1 (withdrawCapsule c reason).
Proof.
  change 1%nat with (0 + (1 + 0))%nat. unfold withdrawCapsule. apply sends_bind; [apply sends_still, moves_gets; apply _|].
  intros [ann|]; [|intros h; simpl; lia]. apply sends_bind; [apply sends_transmit|]. intros _ h. simpl. lia.
Qed.

Lemma sends_deleted e : me_Type e = EventCapsuleDeleted -> sends_at_most 1 (onManagerEvent e).
Proof.
  intros He. unfold onManagerEvent. destruct (me_Seen e) as [c|]; [|intros h; simpl; lia]. rewrite He. simpl.
  change 1%nat with (0 + (0 + (1 + 0)))%nat. unfold onDeleted.
  apply sends_bind; [apply sends_still, now_still|intros now]. apply sends_bind; [apply sends_still, Publish_still|intros _].
  apply sends_bind; [apply sends_withdraw|intros _]. apply sends_still. moves_tac.
Qed.

Definition is_announcement (data : bytes) : bool :=
  match unmarshalOrbit data with Some msg => msg_Type msg =s "announcement" | None => false end.

(** Messages sent and capsules stored, together. *)
Definition budget (h : CapsuleHandler) : nat := (length (h_wire h) + Manager_Count (h_manager h))%nat.

Lemma Count_equiv m1 m2 : m1 ≡ m2 -> Manager_Count m1 = Manager_Count m2.
Proof. intros (_ & Hc & _). unfold Manager_Count, Store_Count. by rewrite Hc. Qed.
Lemma store_wf_equiv m1 m2 : m1 ≡ m2 -> store_wf (m_store m1) -> store_wf (m_store m2).
Proof. intros (Hh & Hc & _). unfold store_wf. by rewrite Hh, Hc. Qed.

(** A manager call whose events make the handler send at most [k] messages. *)
Lemma call_budget {A} (f : ST Manager A) h evs k :
  m_events (snd (f (h_manager h))) = m_events (h_manager h) ++ evs -> sends_at_most k (for_each onManagerEvent evs) ->
  store_wf (m_store (snd (f (h_manager h)))) ->
  store_wf (m_store (h_manager (snd (call_manager f h)))) /\
  (budget (snd (call_manager f h)) <= length (h_wire h) + k + Manager_Count (snd (f (h_manager h))))%nat.
Proof.
  intros He Hk Hwf. destruct (call_manager_manager f h) as [Hm _]. split; [by eapply store_wf_equiv; [symmetry; exact Hm|]|].
  unfold budget. rewrite (Count_equiv _ _ Hm). rewrite (call_manager_events f h evs He). specialize (Hk (set_manager (snd (f (h_manager h))) h)).
  simpl in Hk. lia.
Qed.

Lemma onPayload_budget payload h :
  store_wf (m_store (h_manager h)) -> let h' := snd (onPayload payload h) in
  store_wf (m_store (h_manager h')) /\
  (budget h' <= budget h + match payload with Announced _ => 1 | _ => 0 end)%nat.
Proof.
  intros Hwf. destruct payload as [a|u|w]; simpl.
  - destruct (protoToCapsule _) as [c|]; [|split; [done|simpl; lia]]. unfold mbind, ST_bind.
    destruct (receiveCapsule_effect c (h_manager h) Hwf) as (Hwf' & Hn & evs & He & Hr).
    destruct (call_budget (receiveCapsule c) h evs 0 He) as [Hw Hb]; [|done|].
    { apply sends_still. clear He. induction Hr as [|e evs Hre _ IH]; [apply moves_ret; apply _|].
      apply moves_bind; [apply _|by apply received_still|intros _; exact IH]. }
    destruct (call_manager _ h) as [r h']. simpl in *. split; [done|]. unfold budget in *. lia.
  - unfold mbind, ST_bind. destruct (SyncStatus_effect (su_CapsuleId u) (su_Status u) (h_manager h) Hwf) as (Hwf' & Hn & evs & He & Hq).
    destruct (call_budget _ h evs 0 He) as [Hw Hb]; [|done|].
    { intros h'. rewrite quiet_nothing by done. lia. }
    destruct (call_manager _ h) as [r h']. simpl in *. split; [done|]. unfold budget in *. lia.
  - unfold mbind, ST_bind. destruct (Delete_effect (wd_CapsuleId w) (h_manager h) Hwf) as (Hwf' & Hd).
    destruct Hd as [Hm|(Hn & _ & e & He & Ht)].
    + destruct (call_budget (Manager_Delete (wd_CapsuleId w)) h [] 0) as [Hw Hb];
        [by rewrite Hm, app_nil_r|intros h'; simpl; lia|done|].
      destruct (call_manager _ h) as [r h']. simpl in *. rewrite Hm in Hb. split; [done|]. unfold budget in *. lia.
    + destruct (call_budget _ h [e] 1 He) as [Hw Hb]; [|done|].
      { change 1%nat with (1 + 0)%nat. apply sends_bind; [by apply sends_deleted|]. intros _ h'. simpl. lia. }
      destruct (call_manager _ h) as [r h']. simpl in *. split; [done|]. unfold budget in *. lia.
Qed.

Lemma accepted_announcement n1 n2 data ann a ann' :
  HandleMessage n1 n2 data ann = (Ok (Announced a), ann') -> is_announcement data = true.
Proof.
  unfold HandleMessage, is_announcement. destruct (IsDuplicate _ _ _) as [[] d]; [done|]. destruct (unmarshalOrbit data) as [msg|]; [|done].
  destruct (check_message _ _ _); [done|]. unfold decode_payload. destruct (msg_Type msg =s "announcement"); [done|].
  repeat case_match; intros; simplify_eq.
Qed.

Lemma onOrbitMessage_budget cl data h :
  store_wf (m_store (h_manager h)) -> let h' := snd (onOrbitMessage cl data h) in
  store_wf (m_store (h_manager h')) /\ (budget h' <= budget h + (if is_announcement data then 1 else 0))%nat.
Proof.
  intros Hwf. cbv zeta. destruct (h_clusters h !! cl) as [ann|] eqn:Ha.
  - rewrite (onOrbitMessage_eq _ _ _ _ Ha). destruct (HandleMessage _ _ data ann) as [[payload|e] ann'] eqn:Eh.
    + set (h1 := set_clusters _ _). destruct (onPayload_budget payload h1 Hwf) as [Hw Hb]. split; [exact Hw|].
      change (budget h1) with (budget h) in Hb. destruct payload; [rewrite (accepted_announcement _ _ _ _ _ _ Eh)|..]; cbv iota zeta in Hb |- *; lia.
    + split; [exact Hwf|]. change (budget _) with (budget h) at 1. lia.
  - unfold onOrbitMessage, mbind, ST_bind, gets. rewrite Ha. split; [done|]. simpl. lia.
Qed.

(** C13: gossip dies out: over any sequence of orbit messages a
    node sends at most one message for each capsule it has stored and one for
    each announcement it was sent, so echoed withdrawals cannot circulate for
    ever. *)
Theorem handler_gossip_bounded h (msgs : list (string * bytes)) (Hwf : store_wf (m_store (h_manager h))) :
  let h' := fold_left (fun h '(cl, data) => snd (onOrbitMessage cl data h)) msgs h in
  (length (h_wire h') <= length (h_wire h) + Manager_Count (h_manager h) + length (List.filter (fun m => is_announcement m.2) msgs))%nat.
Proof.
  assert (Hb : forall l h0, store_wf (m_store (h_manager h0)) ->
    (budget (fold_left (fun h '(cl, data) => snd (onOrbitMessage cl data h)) l h0) <= budget h0 + length (List.filter (fun m => is_announcement m.2) l))%nat).
  { induction l as [|[cl data] l IH]; intros h0 H0; simpl; [lia|]. destruct (onOrbitMessage_budget cl data h0 H0) as [H1 Hb].
    specialize (IH _ H1). simpl in *. destruct (is_announcement data); simpl; lia. }
  specialize (Hb msgs h Hwf). unfold budget in Hb. simpl. lia.
Qed.

End HandlerFacts.

(** ** Two concrete nodes *)

Module HandlerDemo.
Import OrbitDemo.
#[local] Existing Instance mem_table.
#[local] Existing Instance CapsuleStore.demo_codec.
#[local] Existing Instance demo_sha.

Definition prod : string := "us/dc1/prod".
Definition bytes1 : list ascii := ["a"%char].

Definition created : Capsule := set_UpdatedAt 0 (set_CreatedAt 0 (new_capsule bytes1 prod (DefaultSpec (demo_spec [])) 0)).
Definition created_announcement : CapsuleAnnouncement := {| an_Capsule := Some (capsuleToProto created); an_AnnouncingNode := "n1" |}.

(** A codec for the announcement of this capsule and for the envelope around
    it; it refuses all other messages. *)
Definition two_codec : OrbitCodec := {|
  marshalOrbit := fun m => if decide (m = envelope) then Some ["e"%char] else None;
  unmarshalOrbit := fun _ => Some envelope;
  marshalAnnouncement := fun a => if decide (a = created_announcement) then Some ["a"%char] else None;
  unmarshalAnnouncement := fun _ =>
    Some {| an_Capsule := wire_capsule <$> an_Capsule created_announcement; an_AnnouncingNode := "n1" |};
  marshalStatus := fun _ => None; unmarshalStatus := fun _ => None;
  marshalWithdrawal := fun _ => None; unmarshalWithdrawal := fun _ => None |}.
#[local] Existing Instance two_codec.

#[local] Instance two_laws : OrbitLaws two_codec.
Proof. split; simpl; intros *; try case_decide; naive_solver. Qed.

Definition empty_mem : Store := {| st_heap := ∅; st_capsules := ∅; st_db := None; st_clock := fun _ => 0; st_ticks := 0 |}.
Definition node (name : string) (s : Store) : CapsuleHandler :=
  snd (JoinOrbit prod "us" (Ok tt) (Ok tt) (NewCapsuleHandler (NewManager s) None name None None (fun _ => Ok tt))).
Definition n1 : CapsuleHandler := node "n1" empty_mem.
Definition n2 : CapsuleHandler := node "n2" empty_mem.

(** A node that knows the capsule [c1] with one replica, on [n1]. *)
Definition slot0 : ReplicaState := {| rs_ReplicaID := "0"; rs_NodeID := "n1"; rs_Status := capsuleStatusRunning; rs_StartedAt := 0 |}.
Definition hosted : Capsule := set_Replicas [slot0] (CapsuleStore.demo_capsule "c1" capsuleStatusRunning).
Definition hosting : Store :=
  {| st_heap := {[ 1%positive := hosted ]}; st_capsules := {[ "c1" := 1%positive ]}; st_db := None;
     st_clock := fun _ => 0; st_ticks := 0 |}.
Definition host : CapsuleHandler := node "n1" hosting.

Lemma hosting_wf : store_wf hosting.
Proof. intros id p. simpl. rewrite lookup_singleton. case_decide; [|done]. intros [= <-]. exists hosted. by subst. Qed.

Lemma empty_coherent : coherent (NewManager empty_mem).
Proof. apply NewManager_coherent; intros id x; unfold capsule_at, Store_Get; simpl; by rewrite lookup_empty. Qed.

Lemma handler_next_slot_fresh_witness : (nextReplicaSlot hosted ∉ ["0"]) /\ nextReplicaSlot hosted = "1".
Proof.
  split; [|reflexivity]. apply (handler_next_slot_fresh hosted). repeat constructor.
Defined.

Lemma handler_create_requests_witness :
  asked (snd (call_manager (Manager_Create bytes1 prod (demo_spec [])) n1)) = [initial_request "61" prod 0].
Proof.
  pose proof (handler_create_requests bytes1 prod (demo_spec []) n1 (proj1 empty_coherent)) as H.
  destruct (call_manager (Manager_Create bytes1 prod (demo_spec [])) n1) as [r h'] eqn:E.
  assert (is_ok r = true) as Hr by (apply (f_equal fst) in E; vm_compute in E; by subst r).
  destruct r; [|discriminate Hr]. destruct H as (H & _). exact H.
Defined.

Lemma handler_node_failure_reelects_witness :
  exists new, asked (snd (onNodeFailed "n1" prod n2)) = asked n2 ++ new /\
  exists new', asked (snd (onNodeFailed "n1" "eu" host)) = asked host ++ new' /\
    replica_request "c1" "eu" "n1" slot0 ∈ new'.
Proof.
  destruct (handler_node_failure_reelects n2 "n1" prod (proj1 empty_coherent)) as (_ & new & H & _).
  exists new. split; [exact H|].
  destruct (handler_node_failure_reelects host "n1" "eu" hosting_wf) as (_ & new' & H' & Hiff).
  exists new'. split; [exact H'|]. apply Hiff. exists "c1", hosted, slot0. split; [reflexivity|].
  split; [by left|]. split; reflexivity.
Defined.


Lemma handler_winner_excluded_witness :
  Reason (IsEligible hosted (GravityDemo.demo_node 8 0)
    (Some (NodesRunningCapsule (h_manager (snd (on_event (EvElectionLost 0 "c1" "1" prod "n1") (node "n2" hosting))))))) = ineligibilityExcluded.
Proof.
  apply (handler_winner_excluded (node "n2" hosting) "c1" "1" "n1" hosted (EvElectionLost 0 "c1" "1" prod "n1") 0 f0
           (GravityDemo.demo_node 8 0) hosted hosting_wf eq_refl);
    [right; reflexivity|discriminate|reflexivity..].
Defined.

Lemma handler_crash_excludes_self_witness :
  Reason (IsEligible hosted (GravityDemo.demo_node 8 0) (Some (NodesRunningCapsule (h_manager (snd (handleContainerCrash "c1" host)))))) = ineligibilityExcluded.
Proof.
  apply (handler_crash_excludes_self host "c1" hosted slot0 (GravityDemo.demo_node 8 0) hosting_wf eq_refl);
    [by left|reflexivity|discriminate|reflexivity..].
Defined.

Lemma handler_gossip_bounded_witness :
  (length (h_wire (snd (onOrbitMessage prod ["e"%char] n2))) <= 1)%nat.
Proof. exact (handler_gossip_bounded n2 [(prod, ["e"%char])] (proj1 empty_coherent)). Defined.

End HandlerDemo.
