(* ===== verification/Internals.v ===== *)
(** * Node internals ([node/internal], [node/auth/dedup.go])

    The sliding-window rate limiter, the message deduplicator of the
    authentication topics, the canonical signing buffer and the event bus.
    The first two are proved equivalent to their history-based definitions:
    a call is decided by what was accepted before, whatever the background
    clean-up removed in between. *)

From S2P Require Import Prelude ElectionTopic Orbit.
Local Open Scope string_scope.
Local Open Scope list_scope.
Local Open Scope Z_scope.

(** ** Rate limiter: [ratelimit/limiter.go] *)

Module ratelimit.

Record Limiter := { requests : gmap string (list Time); maxReqs : Z; window : Duration }.

Definition NewLimiter (maxReqs : Z) (window : Duration) : Limiter := {| requests := ∅; maxReqs := maxReqs; window := window |}.

Definition set_requests (r : gmap string (list Time)) (l : Limiter) : Limiter :=
  {| requests := r; maxReqs := maxReqs l; window := window l |}.

(** [now.Add(-l.window)] *)
Definition cutoff_at (now : Time) (l : Limiter) : Time := time_Add now (int64 (- window l)).

(** The loop that keeps the requests after the cutoff. *)
Definition in_window (cutoff : Time) (reqs : list Time) : list Time := List.filter (fun t => time_After t cutoff) reqs.

Definition Allow (now : Time) (key : string) : ST Limiter bool := fun l =>
  let valid := in_window (cutoff_at now l) (default [] (requests l !! key)) in
  if maxReqs l <=? Z.of_nat (length valid)
  then (false, set_requests (<[key := valid]> (requests l)) l)
  else (true, set_requests (<[key := valid ++ [now]]> (requests l)) l).

Definition cleanup (now : Time) (l : Limiter) : Limiter :=
  set_requests (omap (fun reqs => match in_window (cutoff_at now l) reqs with [] => None | valid => Some valid end) (requests l)) l.

(** *** Equivalence with the history *)

Inductive op := OAllow (now : Time) (key : string) | OCleanup (now : Time).
Definition op_now (o : op) : Time := match o with OAllow t _ | OCleanup t => t end.

(** The answers of the limiter to the calls of a sequence, and the requests
    it allowed on top of those of [hist]. *)
Fixpoint run (ops : list op) (l : Limiter) (hist : list (string * Time)) : list bool * list (string * Time) :=
  match ops with
  | [] => ([], hist)
  | OAllow now key :: ops =>
      let '(b, l) := Allow now key l in
      let '(bs, hist) := run ops l (if b then hist ++ [(key, now)] else hist) in (b :: bs, hist)
  | OCleanup now :: ops => run ops (cleanup now l) hist
  end.

(** The reference: a history of the requests allowed, newest last, and no
    clean-up. A request is allowed while fewer than [n] of its key were
    allowed in the [w] before it. *)
Definition times_of (key : string) (hist : list (string * Time)) : list Time :=
  map snd (List.filter (fun e => e.1 =s key) hist).
Definition count_between (key : string) (a b : Time) (hist : list (string * Time)) : Z :=
  Z.of_nat (length (List.filter (fun t => (a <? t) && (t <=? b)) (times_of key hist))).
Definition spec_allow (n : Z) (w : Duration) (now : Time) (key : string) (hist : list (string * Time)) : bool :=
  Z.of_nat (length (in_window (now - w) (times_of key hist))) <? n.

Fixpoint spec_run (n : Z) (w : Duration) (ops : list op) (hist : list (string * Time)) : list bool * list (string * Time) :=
  match ops with
  | [] => ([], hist)
  | OAllow now key :: ops =>
      let b := spec_allow n w now key hist in
      let '(bs, hist) := spec_run n w ops (if b then hist ++ [(key, now)] else hist) in (b :: bs, hist)
  | OCleanup _ :: ops => spec_run n w ops hist
  end.

(** The clock does not go back. *)
Fixpoint ordered (t : Time) (ops : list op) : Prop :=
  match ops with [] => True | o :: ops => t <= op_now o /\ ordered (op_now o) ops end.

Lemma in_window_idem c c' l : c' <= c -> in_window c (in_window c' l) = in_window c l.
Proof.
  intros Hc. induction l as [|t l IH]; [done|]. unfold in_window, time_After in *. simpl.
  destruct (Z.ltb_spec c' t); simpl; [by rewrite IH|]. rewrite IH. by destruct (Z.ltb_spec c t); [lia|].
Qed.

Lemma in_window_app c a b : in_window c (a ++ b) = in_window c a ++ in_window c b.
Proof. apply List.filter_app. Qed.

Lemma times_of_snoc key hist k t : times_of key (hist ++ [(k, t)]) = times_of key hist ++ if k =s key then [t] else [].
Proof. unfold times_of. rewrite List.filter_app, map_app. simpl. by destruct (k =s key). Qed.

(** After the last call at [t], limiter and history agree on every window that
    a later call can look at. *)
Definition tracks (t : Time) (hist : list (string * Time)) (l : Limiter) : Prop :=
  forall key c, t - window l <= c -> in_window c (default [] (requests l !! key)) = in_window c (times_of key hist).

Definition width_ok (w : Duration) : Prop := - max_int64 <= w <= max_int64.

Lemma cutoff_eq now l : width_ok (window l) -> cutoff_at now l = now - window l.
Proof. intros Hw. unfold cutoff_at, time_Add. rewrite int64_id; [lia|]. unfold width_ok, in_int64, max_int64, min_int64 in *. lia. Qed.

Lemma Allow_tracks t hist l now key :
  tracks t hist l -> t <= now -> width_ok (window l) ->
  let b := spec_allow (maxReqs l) (window l) now key hist in
  let '(r, l') := Allow now key l in
  r = b /\ maxReqs l' = maxReqs l /\ window l' = window l /\ tracks now (if b then hist ++ [(key, now)] else hist) l'.
Proof.
  intros Ht Hn Hw. unfold Allow, spec_allow. rewrite cutoff_eq by done. rewrite (Ht key (now - window l)) by lia.
  assert (Hkeep : forall k c, now - window l <= c ->
    in_window c (default [] (<[key := in_window (now - window l) (times_of key hist)]> (requests l) !! k)) = in_window c (times_of k hist)).
  { intros k c Hc. rewrite lookup_insert. case_decide; [subst; simpl; apply in_window_idem; lia|apply Ht; lia]. }
  rewrite Z.ltb_antisym. destruct (maxReqs l <=? _) eqn:Hfull; simpl; (split_and!; [done..|]).
  - exact Hkeep.
  - intros k c Hc. simpl in *. specialize (Hkeep k c Hc). rewrite times_of_snoc. rewrite lookup_insert in *.
    destruct (String.eqb_spec key k); case_decide; try done; simpl in *; rewrite ?in_window_app, ?app_nil_r, <- Hkeep; done.
Qed.

Lemma cleanup_tracks t hist l now :
  tracks t hist l -> t <= now -> width_ok (window l) -> tracks now hist (cleanup now l).
Proof.
  intros Ht Hn Hw key c Hc. simpl in Hc. unfold cleanup. simpl. rewrite lookup_omap, cutoff_eq by done.
  rewrite <- (Ht key c) by lia. destruct (requests l !! key) as [reqs|]; [|done]. simpl.
  rewrite <- (in_window_idem c (now - window l) reqs) by lia. by destruct (in_window (now - window l) reqs).
Qed.

Lemma run_spec n w ops t0 l hist :
  width_ok w -> ordered t0 ops -> tracks t0 hist l -> maxReqs l = n -> window l = w -> run ops l hist = spec_run n w ops hist.
Proof.
  intros Hw. revert t0 l hist. induction ops as [|[now key|now] ops IH]; intros t0 l hist Hord Ht Hm Hwin; [done|..];
    destruct Hord as [Hle Hord]; simpl in Hle, Hord; subst n w; simpl.
  - pose proof (Allow_tracks t0 hist l now key Ht Hle Hw) as HA. destruct (Allow now key l) as [r l'].
    destruct HA as (-> & Hm' & Hw' & Ht'). by rewrite (IH now l' _ Hord Ht' Hm' Hw').
  - apply (IH now); [done| |done|done]. by apply (cleanup_tracks t0).
Qed.

Lemma new_tracks t0 n w : tracks t0 [] (NewLimiter n w).
Proof. intros key c _. simpl. by rewrite lookup_empty. Qed.

(** The limiter answers every sequence of calls as the history
    does: whether a request is allowed depends on the requests of its key that
    were allowed in the window before it, and on nothing that clean-ups,
    rejected calls or other keys leave behind. *)
Theorem limiter_equals_history n w ops t0
    (Hw : width_ok w) (Hord : ordered t0 ops) :
  run ops (NewLimiter n w) [] = spec_run n w ops [].
Proof. by apply (run_spec n w ops t0); try apply new_tracks. Qed.

(** *** The bound *)

Definition not_after (t : Time) (hist : list (string * Time)) : Prop := forall k x, (k, x) ∈ hist -> x <= t.

Lemma count_snoc key a b hist k t :
  count_between key a b (hist ++ [(k, t)]) =
  count_between key a b hist + if (k =s key) && ((a <? t) && (t <=? b)) then 1 else 0.
Proof.
  unfold count_between. rewrite times_of_snoc, List.filter_app, length_app.
  destruct (k =s key); simpl; [destruct ((a <? t) && (t <=? b)); simpl; lia|lia].
Qed.

Lemma count_le_window key a b c hist : c <= a -> count_between key a b hist <= Z.of_nat (length (in_window c (times_of key hist))).
Proof.
  intros Hc. unfold count_between, in_window, time_After. induction (times_of key hist) as [|t l IH]; simpl; [lia|].
  destruct (Z.ltb_spec a t), (Z.leb_spec t b), (Z.ltb_spec c t); simpl; lia.
Qed.

(** No key is served more than [n] requests within any window of
    length [w], wherever it starts, over every sequence of calls. *)
Theorem limiter_window_bound n w ops t0 key u
    (Hn : 0 <= n) (Hw : width_ok w) (Hord : ordered t0 ops) :
  count_between key (u - w) u (snd (run ops (NewLimiter n w) [])) <= n.
Proof.
  rewrite (run_spec n w ops t0) by (done || apply new_tracks).
  assert (Hgen : forall hist, not_after t0 hist -> (forall v, count_between key (v - w) v hist <= n) ->
                 count_between key (u - w) u (snd (spec_run n w ops hist)) <= n).
  { revert t0 Hord. induction ops as [|[now k|now] ops IH]; intros t0 Hord hist Hna Hb; [by apply Hb|..];
      destruct Hord as [Hle Hord]; simpl in Hle, Hord; simpl.
    - assert (Hna' : not_after now hist) by (intros k' x Hx; specialize (Hna k' x Hx); lia).
      destruct (spec_allow n w now k hist) eqn:Ea.
      + specialize (IH now Hord (hist ++ [(k, now)])). destruct (spec_run n w ops _) as [bs h'] eqn:Es. apply IH.
        * intros k' x [Hx|Hx]%elem_of_app; [by eapply Hna'|]. apply list_elem_of_singleton in Hx as [= -> ->]. lia.
        * intros v. rewrite count_snoc. destruct (String.eqb_spec k key); [subst|specialize (Hb v); simpl; lia]. simpl.
          destruct (Z.ltb_spec (v - w) now), (Z.leb_spec now v); simpl; specialize (Hb v); try lia.
          unfold spec_allow in Ea. apply Z.ltb_lt in Ea. pose proof (count_le_window key (v - w) v (now - w) hist ltac:(lia)). lia.
      + specialize (IH now Hord hist Hna' Hb). by destruct (spec_run n w ops hist).
    - apply (IH now Hord); [|done]. intros k' x Hx. specialize (Hna k' x Hx). lia. }
  apply Hgen; [by intros k x Hx%elem_of_nil|]. intros v. unfold count_between. simpl. lia.
Qed.

(** Ten requests a minute: the eleventh of a key is refused, another key is not. *)
Definition ten : list op := map (fun t => OAllow (Z.of_nat t * second) "peer") (seq 0 11) ++ [OCleanup (20 * second); OAllow (30 * second) "other"].

Lemma ten_ordered : ordered 0 ten.
Proof. cbn. unfold second, millisecond, microsecond. lia. Qed.
Lemma minute_ok : width_ok minute.
Proof. unfold width_ok, max_int64, minute, second, millisecond, microsecond. lia. Qed.

Lemma limiter_equals_history_witness : fst (run ten (NewLimiter 10 minute) []) = repeat true 10 ++ [false; true].
Proof. rewrite (limiter_equals_history 10 minute ten 0 minute_ok ten_ordered). vm_compute. reflexivity. Defined.

Lemma limiter_window_bound_witness : count_between "peer" (minute - minute) minute (snd (run ten (NewLimiter 10 minute) [])) <= 10.
Proof. apply (limiter_window_bound 10 minute ten 0 "peer" minute); [lia|exact minute_ok|exact ten_ordered]. Defined.

End ratelimit.

(** ** Message deduplicator: [auth/dedup.go] *)

Module dedup.
Section Dedup.
Context `{Sha256}.

Record MessageDedup := { seen : gmap bytes Time; ttl : Duration }.

Definition NewMessageDedup (ttl : Duration) : MessageDedup := {| seen := ∅; ttl := ttl |}.

(** [now] is the reading of [time.Since], [now'] the later one of [time.Now]. *)
Definition IsDuplicate (now now' : Time) (data : bytes) : ST MessageDedup bool := fun d =>
  let fingerprint := Sum256 data in
  let fresh := {| seen := <[fingerprint := now']> (seen d); ttl := ttl d |} in
  match seen d !! fingerprint with
  | Some seenAt => if time_Sub now seenAt <=? ttl d then (true, d) else (false, fresh)
  | None => (false, fresh)
  end.

Definition evictExpired (now : Time) (d : MessageDedup) : MessageDedup :=
  {| seen := filter (fun kv => (ttl d <? time_Sub now kv.2) = false) (seen d); ttl := ttl d |}.

Definition Len (d : MessageDedup) : nat := size (seen d).

Inductive op := OMessage (now now' : Time) (data : bytes) | OEvict (now : Time).
Definition op_start (o : op) : Time := match o with OMessage t _ _ | OEvict t => t end.
Definition op_end (o : op) : Time := match o with OMessage _ t _ | OEvict t => t end.

Fixpoint run (ops : list op) (d : MessageDedup) : list bool :=
  match ops with
  | [] => []
  | OMessage now now' data :: ops => let '(b, d) := IsDuplicate now now' data d in b :: run ops d
  | OEvict now :: ops => run ops (evictExpired now d)
  end.

(** The reference: a message is a duplicate when one of the same fingerprint
    was accepted at most [w] ago. *)
Definition spec_dup (w : Duration) (now : Time) (f : bytes) (hist : list (bytes * Time)) : bool :=
  existsb (fun e => bool_decide (e.1 = f) && (now - e.2 <=? w)) hist.

Fixpoint spec_run (w : Duration) (ops : list op) (hist : list (bytes * Time)) : list bool :=
  match ops with
  | [] => []
  | OMessage now now' data :: ops =>
      let b := spec_dup w now (Sum256 data) hist in b :: spec_run w ops (if b then hist else (Sum256 data, now') :: hist)
  | OEvict _ :: ops => spec_run w ops hist
  end.

Fixpoint ordered (t : Time) (ops : list op) : Prop :=
  match ops with [] => True | o :: ops => t <= op_start o <= op_end o /\ ordered (op_end o) ops end.

(** At time [t] an entry of the cache is the last acceptance of its
    fingerprint, and what is not in the cache has expired. *)
Definition tracks (w : Duration) (t : Time) (hist : list (bytes * Time)) (s : gmap bytes Time) : Prop :=
  (forall f x, s !! f = Some x -> (f, x) ∈ hist /\ forall y, (f, y) ∈ hist -> y <= x) /\
  (forall f, s !! f = None -> forall y, (f, y) ∈ hist -> w < t - y) /\
  forall f y, (f, y) ∈ hist -> y <= t.

Lemma within_ttl now x w : min_int64 <= w < max_int64 -> (time_Sub now x <=? w) = (now - x <=? w).
Proof. intros Hw. rewrite !Z.leb_antisym, time_Sub_gt by lia. done. Qed.

Lemma spec_dup_true w now f hist : spec_dup w now f hist = true <-> exists y, (f, y) ∈ hist /\ now - y <= w.
Proof.
  unfold spec_dup. rewrite existsb_exists. split.
  - intros ([g y] & Hin & He). simpl in He. apply andb_true_iff in He as [Hg%bool_decide_eq_true Hle%Z.leb_le]. subst g.
    exists y. by rewrite list_elem_of_In.
  - intros (y & Hin & Hle). exists (f, y). rewrite <- list_elem_of_In. split; [done|]. simpl.
    rewrite bool_decide_eq_true_2 by done. by apply Z.leb_le.
Qed.

Lemma IsDuplicate_tracks t hist d now now' data :
  tracks (ttl d) t hist (seen d) -> t <= now <= now' -> 0 <= ttl d < max_int64 ->
  let b := spec_dup (ttl d) now (Sum256 data) hist in
  let '(r, d') := IsDuplicate now now' data d in
  r = b /\ ttl d' = ttl d /\ tracks (ttl d) now' (if b then hist else (Sum256 data, now') :: hist) (seen d').
Proof.
  intros (Hin & Hout & Hle) Hn Hw. set (f := Sum256 data). cbv zeta.
  assert (Hlater : tracks (ttl d) now' hist (seen d)).
  { split_and!; [done| |]; [intros g Hg y Hy; specialize (Hout g Hg y Hy)|intros g y Hy; specialize (Hle g y Hy)]; lia. }
  assert (Hnew : spec_dup (ttl d) now f hist = false -> tracks (ttl d) now' ((f, now') :: hist) (<[f := now']> (seen d))).
  { intros Hb. split_and!.
    - intros g x. rewrite lookup_insert. case_decide as Hg.
      + subst g. intros [= <-]. split; [by left|]. intros y [[= ->]|Hy]%elem_of_cons; [lia|]. specialize (Hle _ y Hy). lia.
      + intros Hx. destruct (Hin g x Hx) as [H1 H2]. split; [by right|]. intros y [[= <- _]|Hy]%elem_of_cons; [done|auto].
    - intros g. rewrite lookup_insert. case_decide as Hg; [done|]. intros Hx y [[= <- _]|Hy]%elem_of_cons; [done|].
      specialize (Hout g Hx y Hy). lia.
    - intros g y [[= _ ->]|Hy]%elem_of_cons; [lia|]. specialize (Hle g y Hy). lia. }
  unfold IsDuplicate. fold f. destruct (seen d !! f) as [x|] eqn:Hx.
  - destruct (Hin f x Hx) as [Hxin Hlast]. rewrite within_ttl by (unfold min_int64; lia).
    destruct (Z.leb_spec (now - x) (ttl d)) as [Hd|Hd].
    + assert (Hb : spec_dup (ttl d) now f hist = true) by (apply spec_dup_true; eauto). rewrite Hb. done.
    + assert (Hb : spec_dup (ttl d) now f hist = false).
      { apply not_true_iff_false. intros (y & Hy & Hyw)%spec_dup_true. specialize (Hlast y Hy). lia. }
      rewrite Hb. split_and!; [done|done|by apply Hnew].
  - assert (Hb : spec_dup (ttl d) now f hist = false).
    { apply not_true_iff_false. intros (y & Hy & Hyw)%spec_dup_true. specialize (Hout f Hx y Hy). lia. }
    rewrite Hb. split_and!; [done|done|by apply Hnew].
Qed.

Lemma evict_tracks t hist d now :
  tracks (ttl d) t hist (seen d) -> t <= now -> 0 <= ttl d < max_int64 -> tracks (ttl d) now hist (seen (evictExpired now d)).
Proof.
  intros (Hin & Hout & Hle) Hn Hw. split_and!.
  - intros f x [Hx _]%map_lookup_filter_Some. by apply Hin.
  - intros f [Hf|Hf]%map_lookup_filter_None y Hy; [specialize (Hout f Hf y Hy); lia|].
    destruct (seen d !! f) as [x|] eqn:Hx; [|specialize (Hout f Hx y Hy); lia]. destruct (Hin f x Hx) as [_ Hlast].
    specialize (Hf x eq_refl). specialize (Hlast y Hy). simpl in Hf. rewrite time_Sub_gt in Hf by (unfold min_int64; lia).
    apply not_false_is_true, Z.ltb_lt in Hf. lia.
  - intros f y Hy. specialize (Hle f y Hy). lia.
Qed.

(** The authentication messages are deduplicated exactly: over
    every sequence of messages and clean-ups a message is rejected when, and
    only when, one with the same fingerprint was accepted at most the
    time-to-live before it. *)
Theorem dedup_equals_history w ops t0 (Hw : 0 <= w < max_int64) (Hord : ordered t0 ops) :
  run ops (NewMessageDedup w) = spec_run w ops [].
Proof.
  assert (Hgen : forall d hist, ttl d = w -> tracks w t0 hist (seen d) -> run ops d = spec_run w ops hist).
  { revert t0 Hord. induction ops as [|[now now' data|now] ops IH]; intros t0 Hord d hist Hd Ht; [done|..];
      destruct Hord as [Hle Hord]; simpl in Hle, Hord; subst w; simpl.
    - pose proof (IsDuplicate_tracks t0 hist d now now' data Ht Hle Hw) as Hi. destruct (IsDuplicate now now' data d) as [r d'].
      destruct Hi as (-> & Hd' & Ht'). f_equal. by apply (IH now').
    - apply (IH now); [done|done|]. apply (evict_tracks t0); [done|lia|done]. }
  apply Hgen; [done|]. split_and!; [intros f x Hx; simpl in Hx; by rewrite lookup_empty in Hx|intros f _ y Hy%elem_of_nil; done|intros f y Hy%elem_of_nil; done].
Qed.

End Dedup.

(** A message repeated after three seconds is a duplicate, after seven not. *)
Lemma dedup_equals_history_witness :
  let data := ["m"%char] in
  @run OrbitDemo.demo_sha [OMessage 0 0 data; OMessage (3 * second) (3 * second) data; OEvict (6 * second); OMessage (7 * second) (7 * second) data]
    (NewMessageDedup (5 * second)) = [false; true; false].
Proof.
  cbv zeta. rewrite (@dedup_equals_history OrbitDemo.demo_sha (5 * second) _ 0);
    [vm_compute; reflexivity|unfold max_int64, second, millisecond, microsecond; lia|].
  cbn. unfold second, millisecond, microsecond. lia.
Defined.

End dedup.

(** ** Signing buffer: [signing/buffer.go] *)

Module signing.

(** The buffer is the bytes written so far. *)
Definition WriteField (data : bytes) (b : bytes) : bytes := b ++ big_endian 4 (uint32 (Z.of_nat (length data))) ++ data.
Definition WriteString (s : string) (b : bytes) : bytes := WriteField (list_ascii_of_string s) b.
Definition WriteBool (v : bool) (b : bytes) : bytes := b ++ [if v then Ascii.one else Ascii.zero].
Definition WriteStrings (ss : list string) (b : bytes) : bytes :=
  fold_left (fun b s => WriteString s b) ss (b ++ big_endian 4 (uint32 (Z.of_nat (length ss)))).
Definition WriteTimeBinary (timeBytes b : bytes) : bytes := WriteField timeBytes b.

(** What a caller writes, in order. *)
Inductive field := FField (data : bytes) | FString (s : string) | FBool (v : bool) | FStrings (ss : list string).

Definition write (b : bytes) (f : field) : bytes :=
  match f with
  | FField data => WriteField data b
  | FString s => WriteString s b
  | FBool v => WriteBool v b
  | FStrings ss => WriteStrings ss b
  end.
Definition encode (fs : list field) : bytes := fold_left write fs [].

(** Fields below 4 GiB and lists below 2^32 strings. *)
Definition fits (f : field) : Prop :=
  match f with
  | FField data => short data
  | FString s => short (list_ascii_of_string s)
  | FBool _ => True
  | FStrings ss => Z.of_nat (length ss) < 2 ^ 32 /\ Forall (fun s => short (list_ascii_of_string s)) ss
  end.

Definition same_kind (f g : field) : Prop :=
  match f, g with
  | FField _, FField _ | FString _, FString _ | FBool _, FBool _ | FStrings _, FStrings _ => True
  | _, _ => False
  end.

(** The bytes one field adds. *)
Definition bytes_of (f : field) : bytes := write [] f.

Lemma WriteField_eq data b : WriteField data b = b ++ WriteField data [].
Proof. done. Qed.

Lemma strings_eq ss b : fold_left (fun b s => WriteString s b) ss b = b ++ fold_left (fun b s => WriteString s b) ss [].
Proof.
  revert b. induction ss as [|s ss IH]; intros b; simpl; [by rewrite app_nil_r|].
  rewrite (IH (WriteString s b)), (IH (WriteString s [])). unfold WriteString. rewrite (WriteField_eq _ b). by rewrite app_assoc.
Qed.

Lemma write_eq b f : write b f = b ++ bytes_of f.
Proof.
  destruct f; simpl; [apply WriteField_eq|apply WriteField_eq|done|].
  unfold WriteStrings. rewrite strings_eq, (strings_eq ss ([] ++ _)). by rewrite <- app_assoc.
Qed.

Lemma encode_cons f fs : encode (f :: fs) = bytes_of f ++ encode fs.
Proof.
  unfold encode. simpl. unfold bytes_of. generalize (write [] f). intros b. revert b.
  induction fs as [|g fs IH]; intros b; simpl; [by rewrite app_nil_r|]. rewrite (IH (write b g)), (IH (write [] g)), write_eq.
  by rewrite app_assoc.
Qed.

Lemma strings_inj ss tt x y :
  length ss = length tt -> Forall (fun s => short (list_ascii_of_string s)) ss -> Forall (fun s => short (list_ascii_of_string s)) tt ->
  fold_left (fun b s => WriteString s b) ss [] ++ x = fold_left (fun b s => WriteString s b) tt [] ++ y -> ss = tt /\ x = y.
Proof.
  revert tt. induction ss as [|s ss IH]; intros [|t tt] Hl Hs Ht E; try done. inversion Hs as [|? ? Hs1 Hs2]. inversion Ht as [|? ? Ht1 Ht2]. subst.
  simpl in E. rewrite (strings_eq ss), (strings_eq tt) in E. unfold WriteString at 1 3, WriteField in E. simpl in E. rewrite <- !app_assoc in E.
  apply field_inj in E as [E1 E]; [|done..]. apply list_ascii_inj in E1. apply IH in E as [-> ->]; [by subst|by injection Hl|done|done].
Qed.

Lemma field_bytes_inj f g x y : same_kind f g -> fits f -> fits g -> bytes_of f ++ x = bytes_of g ++ y -> f = g /\ x = y.
Proof.
  destruct f as [a|a|a|a], g as [b|b|b|b]; try done; intros _ Ha Hb; unfold bytes_of, write, WriteStrings; cbn [app];
    [unfold WriteField|unfold WriteString, WriteField|unfold WriteBool|]; cbn [app]; rewrite <- ?app_assoc; intros E.
  - apply field_inj in E as [-> ->]; done.
  - apply field_inj in E as [Es ->]; [|done..]. by apply list_ascii_inj in Es as ->.
  - injection E as E ->. split; [|done]. by destruct a, b.
  - rewrite (strings_eq a), (strings_eq b), <- !app_assoc in E.
    destruct Ha as [La Ha], Hb as [Lb Hb].
    apply app_inj_1 in E as [E1 E]; [|by rewrite !big_endian_length]. unfold uint32 in E1. rewrite !Z.mod_small in E1 by lia.
    apply (big_endian_inj 4) in E1; [|simpl; lia..]. apply strings_inj in E as [-> ->]; [done|lia|done|done].
Qed.

(** The canonical buffer has no collisions between messages of
    one layout: two sequences of fields of the same kinds that encode to the
    same bytes are the same fields. Across layouts there are collisions: an
    empty string, an empty list and four false flags all encode alike. *)
Theorem signing_buffer_injective fs gs
    (Hkind : Forall2 same_kind fs gs) (Hf : Forall fits fs) (Hg : Forall fits gs) (Heq : encode fs = encode gs) :
  fs = gs /\ encode [FString ""] = encode [FStrings []] /\ encode [FString ""] = encode [FBool false; FBool false; FBool false; FBool false].
Proof.
  split; [|split; vm_compute; reflexivity].
  revert Hf Hg Heq. induction Hkind as [|f g fs gs Hk _ IH]; intros Hf Hg E; [done|].
  inversion Hf; inversion Hg; subst. rewrite !encode_cons in E. apply field_bytes_inj in E as [-> E]; [|done..]. f_equal. by apply IH.
Qed.

Lemma signing_buffer_injective_witness :
  [FString "ab"; FField ["c"%char; "d"%char]; FBool true] = [FString "ab"; FField ["c"%char; "d"%char]; FBool true] /\
  encode [FString "ab"; FString "cd"] <> encode [FString "a"; FString "bcd"].
Proof.
  split; [|intros E; enough ([FString "ab"; FString "cd"] = [FString "a"; FString "bcd"]) by discriminate].
  - refine (proj1 (signing_buffer_injective _ _ _ _ _ eq_refl)); repeat constructor.
  - refine (proj1 (signing_buffer_injective _ _ _ _ _ E)); repeat constructor.
Defined.

End signing.

(** ** Event bus: [events/bus.go]

    A parent context that is cancelled without [Close] only stops the
    dispatcher and is not modelled. *)

Module eventbus.
Section Bus.
Context {E : Type} (EventType : E -> string).

Record Chan := { cap : nat; queue : list E; ch_closed : bool }.

Record bus := {
  inputCh : list E; bufferSize : nat;
  subscribers : gmap string (list positive);  (** channel identities *)
  allSubs : list positive;
  chans : gmap positive Chan;
  closed : bool;                              (** also: the context is cancelled, [inputCh] is closed *)
  droppedCount : Z;                           (** [uint64] *)
  panicked : bool
}.

Definition NewBus (size : nat) : bus :=
  {| inputCh := []; bufferSize := size; subscribers := ∅; allSubs := []; chans := ∅; closed := false; droppedCount := 0;
     panicked := false |}.

Definition set_input (l : list E) (b : bus) : bus :=
  {| inputCh := l; bufferSize := bufferSize b; subscribers := subscribers b; allSubs := allSubs b; chans := chans b;
     closed := closed b; droppedCount := droppedCount b; panicked := panicked b |}.
Definition set_tables (s : gmap string (list positive)) (a : list positive) (c : gmap positive Chan) (b : bus) : bus :=
  {| inputCh := inputCh b; bufferSize := bufferSize b; subscribers := s; allSubs := a; chans := c; closed := closed b;
     droppedCount := droppedCount b; panicked := panicked b |}.
Definition set_chans (c : gmap positive Chan) (b : bus) : bus := set_tables (subscribers b) (allSubs b) c b.
Definition panic (b : bus) : bus :=
  {| inputCh := inputCh b; bufferSize := bufferSize b; subscribers := subscribers b; allSubs := allSubs b; chans := chans b;
     closed := closed b; droppedCount := droppedCount b; panicked := true |}.

(** [ch <- event] where the channel has room. *)
Definition enqueue (e : E) (c : Chan) : Chan := {| cap := cap c; queue := queue c ++ [e]; ch_closed := ch_closed c |}.

(** *** Publishing

    [Publish] checks [closed] under the lock and sends after releasing it: two
    steps. [pickSend] is the choice of the select when both the send and
    [ctx.Done] are ready; sending on the closed channel panics. *)
Definition Publish_check (b : bus) : bool := negb (closed b).

Definition Publish_send (pickSend : bool) (e : E) (b : bus) : bus :=
  if closed b then if pickSend then panic b else b
  else if (length (inputCh b) <? bufferSize b)%nat then set_input (inputCh b ++ [e]) b
  else b.

(** Both steps without interruption. *)
Definition Publish (e : E) (b : bus) : bus := if Publish_check b then Publish_send true e b else b.

(** *** Subscriptions *)

Definition DefaultSubscriberBufferSize : nat := 100.

(** [WithSubscriberBufferSize] and its default. *)
Definition buffer_of (size : option Z) : nat :=
  match size with Some n => if 0 <? n then Z.to_nat n else DefaultSubscriberBufferSize | None => DefaultSubscriberBufferSize end.

Definition new_chan (size : option Z) : Chan := {| cap := buffer_of size; queue := []; ch_closed := false |}.

Definition Subscribe (eventType : string) (size : option Z) : ST bus positive := fun b =>
  let id := fresh (dom (chans b)) in
  (id, set_tables (<[eventType := default [] (subscribers b !! eventType) ++ [id]]> (subscribers b)) (allSubs b)
         (<[id := new_chan size]> (chans b)) b).

Definition SubscribeAll (size : option Z) : ST bus positive := fun b =>
  let id := fresh (dom (chans b)) in
  (id, set_tables (subscribers b) (allSubs b ++ [id]) (<[id := new_chan size]> (chans b)) b).

(** [close(ch)], which panics on a closed channel. *)
Definition close_chan (id : positive) (b : bus) : bus :=
  match chans b !! id with
  | Some c => if ch_closed c then panic b
              else set_chans (<[id := {| cap := cap c; queue := queue c; ch_closed := true |}]> (chans b)) b
  | None => b
  end.

(** Removes the first occurrence of [id]. *)
Fixpoint remove_first (id : positive) (l : list positive) : list positive :=
  match l with [] => [] | x :: l => if Pos.eqb x id then l else x :: remove_first id l end.

Definition Unsubscribe (eventType : string) (id : positive) (b : bus) : bus :=
  let subs := default [] (subscribers b !! eventType) in
  if existsb (Pos.eqb id) subs
  then close_chan id (set_tables (<[eventType := remove_first id subs]> (subscribers b)) (allSubs b) (chans b) b)
  else b.

(** *** Dispatching *)

Definition recordDrop (b : bus) : bus :=
  {| inputCh := inputCh b; bufferSize := bufferSize b; subscribers := subscribers b; allSubs := allSubs b; chans := chans b;
     closed := closed b; droppedCount := uint64 (droppedCount b + 1); panicked := panicked b |}.

Definition offer (e : E) (b : bus) (id : positive) : bus :=
  match chans b !! id with
  | None => b
  | Some c => if ch_closed c then panic b
              else if (length (queue c) <? cap c)%nat then set_chans (<[id := enqueue e c]> (chans b)) b
              else recordDrop b
  end.

Definition fanout (e : E) (b : bus) : bus :=
  fold_left (offer e) (allSubs b) (fold_left (offer e) (default [] (subscribers b !! EventType e)) b).

(** One turn of the loop of [dispatch]; it has ended once the bus is closed. *)
Definition dispatch (b : bus) : bus :=
  if closed b then b
  else match inputCh b with
       | [] => b
       | e :: rest => fanout e (set_input rest b)
       end.

(** A subscriber receives. *)
Definition recv (id : positive) (b : bus) : option E * bus :=
  match chans b !! id with
  | Some c => match queue c with
              | e :: q => (Some e, set_chans (<[id := {| cap := cap c; queue := q; ch_closed := ch_closed c |}]> (chans b)) b)
              | [] => (None, b)
              end
  | None => (None, b)
  end.

Definition Close `{GoRange} (b : bus) : bus :=
  if closed b then b
  else
    let b := {| inputCh := inputCh b; bufferSize := bufferSize b; subscribers := subscribers b; allSubs := allSubs b;
                chans := chans b; closed := true; droppedCount := droppedCount b; panicked := panicked b |} in
    fold_left (fun b id => close_chan id b) (flat_map snd (range (subscribers b)) ++ allSubs b) b.

(** *** Well-formed tables *)

(** Every registered channel is open and registered once. *)
Record tables_ok (b : bus) : Prop := {
  ok_subs_open : forall ty l id, subscribers b !! ty = Some l -> id ∈ l -> exists c, chans b !! id = Some c /\ ch_closed c = false;
  ok_all_open : forall id, id ∈ allSubs b -> exists c, chans b !! id = Some c /\ ch_closed c = false;
  ok_subs_nodup : forall ty l, subscribers b !! ty = Some l -> NoDup l;
  ok_all_nodup : NoDup (allSubs b);
  ok_one_type : forall ty ty' l l' id, subscribers b !! ty = Some l -> subscribers b !! ty' = Some l' -> id ∈ l -> id ∈ l' -> ty = ty';
  ok_not_both : forall ty l id, subscribers b !! ty = Some l -> id ∈ l -> (id ∉ allSubs b)
}.

Definition bus_ok (b : bus) : Prop := panicked b = false /\ (closed b = false -> tables_ok b).

(** What an offer does to a channel. *)
Definition push (e : E) (c : Chan) : Chan := if (length (queue c) <? cap c)%nat then enqueue e c else c.

Lemma offer_tables e b id :
  subscribers (offer e b id) = subscribers b /\ allSubs (offer e b id) = allSubs b /\ closed (offer e b id) = closed b /\
  inputCh (offer e b id) = inputCh b.
Proof. unfold offer. by repeat case_match. Qed.

Lemma offer_chan e b id id' c :
  chans b !! id' = Some c -> ch_closed c = false ->
  chans (offer e b id) !! id' = Some (if decide (id = id') then push e c else c).
Proof.
  intros Hc Ho. unfold offer, push. destruct (decide (id = id')) as [->|Hne].
  - rewrite Hc, Ho. destruct (_ <? _)%nat; [by simpl; rewrite lookup_insert_eq|done].
  - destruct (chans b !! id) as [d|]; [|done]. destruct (ch_closed d); [done|].
    destruct (_ <? _)%nat; [by simpl; rewrite lookup_insert_ne|done].
Qed.

Lemma push_open e c : ch_closed (push e c) = ch_closed c.
Proof. unfold push. by case_match. Qed.

Lemma offers_tables e ids b :
  let b' := fold_left (offer e) ids b in
  subscribers b' = subscribers b /\ allSubs b' = allSubs b /\ closed b' = closed b /\ inputCh b' = inputCh b.
Proof.
  revert b. induction ids as [|i ids IH]; intros b; [done|]. simpl.
  destruct (IH (offer e b i)) as (H1 & H2 & H3 & H4), (offer_tables e b i) as (G1 & G2 & G3 & G4). split_and!; congruence.
Qed.

Lemma offers_chan e ids b id c :
  NoDup ids -> chans b !! id = Some c -> ch_closed c = false ->
  chans (fold_left (offer e) ids b) !! id = Some (if decide (id ∈ ids) then push e c else c).
Proof.
  revert b c. induction ids as [|i ids IH]; intros b c Hnd Hc Ho; [by rewrite decide_False by (by intros ?%elem_of_nil)|].
  apply list.NoDup_cons in Hnd as [Hni Hnd]. simpl.
  rewrite (IH _ (if decide (i = id) then push e c else c) Hnd); [|by apply offer_chan|by (destruct (decide (i = id)); rewrite ?push_open)].
  destruct (decide (i = id)) as [->|Hne].
  - rewrite (decide_False (P := id ∈ ids)), decide_True by (done || by left). done.
  - destruct (decide (id ∈ ids)); [rewrite decide_True by (by right)|rewrite decide_False by (by intros [?|?]%elem_of_cons)]; done.
Qed.

Lemma offers_panicked e ids b :
  (forall id, id ∈ ids -> exists c, chans b !! id = Some c /\ ch_closed c = false) -> panicked b = false ->
  panicked (fold_left (offer e) ids b) = false.
Proof.
  revert b. induction ids as [|i ids IH]; intros b Hop Hp; [done|]. simpl. apply IH.
  - intros id Hid. destruct (Hop id) as (c & Hc & Ho); [by right|]. eexists. split; [by apply offer_chan|]. case_decide; by rewrite ?push_open.
  - destruct (Hop i) as (c & Hc & Ho); [by left|]. unfold offer. rewrite Hc, Ho. by case_match.
Qed.

(** The events of interest to a channel. *)
Definition wants (b : bus) (id : positive) (e : E) : bool :=
  bool_decide (id ∈ default [] (subscribers b !! EventType e)) || bool_decide (id ∈ allSubs b).

Lemma fanout_tables e b :
  subscribers (fanout e b) = subscribers b /\ allSubs (fanout e b) = allSubs b /\ closed (fanout e b) = closed b /\
  inputCh (fanout e b) = inputCh b.
Proof.
  unfold fanout. destruct (offers_tables e (default [] (subscribers b !! EventType e)) b) as (H1 & H2 & H3 & H4).
  set (b1 := fold_left _ (default _ _) b) in *. destruct (offers_tables e (allSubs b) b1) as (G1 & G2 & G3 & G4). split_and!; congruence.
Qed.

Lemma fanout_chan e b id c :
  tables_ok b -> chans b !! id = Some c -> ch_closed c = false ->
  chans (fanout e b) !! id = Some (if wants b id e then push e c else c).
Proof.
  intros Hok Hc Ho. unfold fanout, wants. set (subs := default [] _).
  assert (Hnd : NoDup subs).
  { unfold subs. destruct (subscribers b !! EventType e) eqn:Hs; [by eapply ok_subs_nodup|constructor]. }
  rewrite (offers_chan e (allSubs b) _ id (if decide (id ∈ subs) then push e c else c));
    [|by apply ok_all_nodup|by apply offers_chan|by (destruct (decide _); rewrite ?push_open)].
  destruct (decide (id ∈ subs)) as [Hs|Hs].
  - rewrite bool_decide_eq_true_2 by done. simpl. rewrite decide_False; [done|].
    unfold subs in Hs. destruct (subscribers b !! EventType e) eqn:He; [by eapply ok_not_both|by apply elem_of_nil in Hs].
  - rewrite (bool_decide_eq_false_2 (id ∈ subs)) by done. simpl. by case_decide; [rewrite bool_decide_eq_true_2|rewrite bool_decide_eq_false_2].
Qed.

Lemma tables_ok_chans b b' :
  tables_ok b -> subscribers b' = subscribers b -> allSubs b' = allSubs b ->
  (forall id c, chans b !! id = Some c -> ch_closed c = false -> exists c', chans b' !! id = Some c' /\ ch_closed c' = false) -> tables_ok b'.
Proof.
  intros [H1 H2 H3 H4 H5 H6] Hs Ha Hc. split; rewrite ?Hs, ?Ha; try done.
  - intros ty l id Hl Hid. destruct (H1 _ _ _ Hl Hid) as (c & ? & ?). eauto.
  - intros id Hid. destruct (H2 _ Hid) as (c & ? & ?). eauto.
Qed.

Lemma fanout_ok e b : tables_ok b -> tables_ok (fanout e b).
Proof.
  intros Hok. destruct (fanout_tables e b) as (Hs & Ha & _). apply (tables_ok_chans b); [done..|].
  intros id c Hc Ho. eexists. split; [by apply fanout_chan|]. case_match; by rewrite ?push_open.
Qed.

(** [n] turns of the dispatch loop. *)
Definition dispatches (n : nat) (b : bus) : bus := Nat.iter n dispatch b.

Lemma push_all evs c :
  fold_left (fun c e => push e c) evs c =
  {| cap := cap c; queue := queue c ++ take (cap c - length (queue c)) evs; ch_closed := ch_closed c |}.
Proof.
  revert c. induction evs as [|e evs IH]; intros [k q o]; [by rewrite take_nil, app_nil_r|]. simpl. rewrite IH. unfold push. simpl.
  destruct (Nat.ltb_spec (length q) k); simpl.
  - replace (k - length q)%nat with (Datatypes.S (k - length (q ++ [e]))) by (rewrite length_app; simpl; lia). simpl.
    by rewrite <- app_assoc.
  - replace (k - length q)%nat with 0%nat by lia. by rewrite !take_0.
Qed.

Lemma dispatch_chan b id c :
  tables_ok b -> closed b = false -> chans b !! id = Some c -> ch_closed c = false ->
  let b' := dispatch b in
  tables_ok b' /\ closed b' = false /\ inputCh b' = tail (inputCh b) /\ subscribers b' = subscribers b /\ allSubs b' = allSubs b /\
  chans b' !! id = Some (fold_left (fun c e => push e c) (List.filter (wants b id) (take 1 (inputCh b))) c).
Proof.
  intros Hok Hcl Hc Ho. unfold dispatch. rewrite Hcl. destruct (inputCh b) as [|e rest] eqn:Hi; [by rewrite Hi|].
  set (b0 := set_input rest b). assert (Hok0 : tables_ok b0) by (by apply (tables_ok_chans b); eauto).
  destruct (fanout_tables e b0) as (Hs & Ha & Hc' & Hi'). cbv zeta. split_and!; [by apply fanout_ok|by rewrite Hc'|by rewrite Hi'|by rewrite Hs|by rewrite Ha|].
  rewrite (fanout_chan e b0 id c Hok0 Hc Ho). change (wants b0 id e) with (wants b id e). simpl. by destruct (wants b id e).
Qed.

(** The bus delivers in order and without duplicates: after [n]
    turns of the dispatch loop the buffer of every registered channel has grown
    by exactly the published events it subscribed to among the first [n], in
    the order of publication, up to its capacity; only what exceeds the
    capacity is dropped. *)
Theorem bus_delivers_in_order n b id c
    (Hok : tables_ok b) (Hopen : closed b = false) (Hc : chans b !! id = Some c) (Hco : ch_closed c = false) :
  exists c', chans (dispatches n b) !! id = Some c' /\
    queue c' = queue c ++ take (cap c - length (queue c)) (List.filter (wants b id) (take n (inputCh b))).
Proof.
  assert (Hgen : tables_ok (dispatches n b) /\ closed (dispatches n b) = false /\ inputCh (dispatches n b) = drop n (inputCh b) /\
    subscribers (dispatches n b) = subscribers b /\ allSubs (dispatches n b) = allSubs b /\
    chans (dispatches n b) !! id = Some (fold_left (fun c e => push e c) (List.filter (wants b id) (take n (inputCh b))) c)).
  { induction n as [|n (IH1 & IH2 & IH3 & IH4 & IH5 & IH6)]; [by rewrite take_0|].
    set (b1 := dispatches n b) in *. change (dispatches (Datatypes.S n) b) with (dispatch b1).
    destruct (dispatch_chan b1 id _ IH1 IH2 IH6) as (H1 & H2 & H3 & H4 & H5 & H6); [by rewrite push_all|].
    assert (Hw : wants b1 id = wants b id) by (unfold wants; by rewrite IH4, IH5).
    split_and!; [done|done| |congruence|congruence|].
    - rewrite H3, IH3, <- Nat.add_1_r, <- drop_drop. by destruct (drop n (inputCh b)).
    - rewrite H6, Hw, IH3, <- fold_left_app, <- List.filter_app. by rewrite take_take_drop, Nat.add_1_r. }
  destruct Hgen as (_ & _ & _ & _ & _ & Hq). eexists. split; [exact Hq|]. by rewrite push_all.
Qed.


(** *** Panics *)

Context `{GoRange}.

Inductive bop :=
  | BPublish (e : E) | BSubscribe (ty : string) (size : option Z) | BSubscribeAll (size : option Z)
  | BUnsubscribe (ty : string) (id : positive) | BDispatch | BRecv (id : positive) | BClose.

Definition step (b : bus) (o : bop) : bus :=
  match o with
  | BPublish e => Publish e b
  | BSubscribe ty size => snd (Subscribe ty size b)
  | BSubscribeAll size => snd (SubscribeAll size b)
  | BUnsubscribe ty id => Unsubscribe ty id b
  | BDispatch => dispatch b
  | BRecv id => snd (recv id b)
  | BClose => Close b
  end.

(** Nobody unsubscribes once the bus is closed. *)
Fixpoint polite (closed : bool) (ops : list bop) : Prop :=
  match ops with
  | [] => True
  | BClose :: ops => polite true ops
  | BUnsubscribe _ _ :: ops => closed = false /\ polite closed ops
  | _ :: ops => polite closed ops
  end.

Lemma remove_first_elem id x l : x ∈ remove_first id l -> x ∈ l.
Proof.
  induction l as [|y l IH]; simpl; [done|]. destruct (Pos.eqb_spec y id); [by right|].
  intros [->|Hx]%elem_of_cons; [by left|right; auto].
Qed.

Lemma remove_first_nodup id l : NoDup l -> NoDup (remove_first id l) /\ (id ∉ remove_first id l).
Proof.
  induction l as [|y l IH]; simpl; [intros _; split; [constructor|by intros ?%elem_of_nil]|].
  intros [Hy Hl]%list.NoDup_cons. destruct (IH Hl) as [H1 H2]. destruct (Pos.eqb_spec y id); [by subst|]. split.
  - apply list.NoDup_cons. split; [|done]. intros Hx%remove_first_elem. done.
  - intros [?|?]%elem_of_cons; congruence.
Qed.

Lemma Subscribe_ok ty size b : tables_ok b -> tables_ok (snd (Subscribe ty size b)).
Proof.
  intros [H1 H2 H3 H4 H5 H6]. unfold Subscribe. set (id := fresh (dom (chans b))).
  assert (Hf : chans b !! id = None) by (apply not_elem_of_dom, is_fresh).
  assert (Hn1 : forall ty' l, subscribers b !! ty' = Some l -> (id ∉ l)).
  { intros ty' l Hl Hid. destruct (H1 _ _ _ Hl Hid) as (c & Hc & _). congruence. }
  assert (Hn2 : id ∉ allSubs b) by (intros Hid; destruct (H2 _ Hid) as (c & Hc & _); congruence).
  assert (Hl : forall ty' l', <[ty := default [] (subscribers b !! ty) ++ [id]]> (subscribers b) !! ty' = Some l' ->
    forall x, x ∈ l' -> (x = id /\ ty' = ty) \/ exists l, subscribers b !! ty' = Some l /\ x ∈ l).
  { intros ty' l'. rewrite lookup_insert. case_decide; [subst|intros Hl' x Hx; right; eauto].
    intros [= <-] x [Hx|Hx%list_elem_of_singleton]%elem_of_app; [|by left].
    destruct (subscribers b !! ty') eqn:Hs; [by right; eauto|by apply elem_of_nil in Hx]. }
  split; simpl.
  - intros ty' l' x Hl' Hx. rewrite lookup_insert. case_decide; [eexists; by split|].
    destruct (Hl _ _ Hl' _ Hx) as [[? _]|(l & Hs & Hxl)]; [congruence|eauto].
  - intros x Hx. rewrite lookup_insert. case_decide; [eexists; by split|eauto].
  - intros ty' l'. rewrite lookup_insert. case_decide; [subst|apply H3]. intros [= <-].
    apply list.NoDup_app. split_and!; [|intros x Hx ->%list_elem_of_singleton|apply NoDup_singleton].
    + destruct (subscribers b !! ty') eqn:Hs; [by eapply H3|constructor].
    + destruct (subscribers b !! ty') eqn:Hs; [by eapply Hn1|by apply elem_of_nil in Hx].
  - done.
  - intros t1 t2 l1 l2 x Hl1 Hl2 Hx1 Hx2.
    destruct (Hl _ _ Hl1 _ Hx1) as [[-> ->]|(m1 & Hm1 & Hy1)], (Hl _ _ Hl2 _ Hx2) as [[Hid ->]|(m2 & Hm2 & Hy2)]; eauto; exfalso.
    + by eapply Hn1.
    + subst. by eapply Hn1.
  - intros ty' l' x Hl' Hx. destruct (Hl _ _ Hl' _ Hx) as [[-> _]|(m & Hm & Hy)]; eauto.
Qed.

Lemma SubscribeAll_ok size b : tables_ok b -> tables_ok (snd (SubscribeAll size b)).
Proof.
  intros [H1 H2 H3 H4 H5 H6]. unfold SubscribeAll. set (id := fresh (dom (chans b))).
  assert (Hf : chans b !! id = None) by (apply not_elem_of_dom, is_fresh).
  assert (Hn1 : forall ty' l, subscribers b !! ty' = Some l -> (id ∉ l)).
  { intros ty' l Hl Hid. destruct (H1 _ _ _ Hl Hid) as (c & Hc & _). congruence. }
  assert (Hn2 : id ∉ allSubs b) by (intros Hid; destruct (H2 _ Hid) as (c & Hc & _); congruence).
  split; simpl; [| |done| |done|].
  - intros ty' l' x Hl' Hx. rewrite lookup_insert. case_decide; [eexists; by split|eauto].
  - intros x Hx. rewrite lookup_insert. case_decide as Hd; [eexists; by split|]. apply elem_of_app in Hx as [Hx|Hx%list_elem_of_singleton]; [auto|congruence].
  - apply list.NoDup_app. split_and!; [done|by intros x Hx ->%list_elem_of_singleton|apply NoDup_singleton].
  - intros ty' l' x Hl' Hx [Hy| ->%list_elem_of_singleton]%elem_of_app; [by eapply H6|by eapply Hn1].
Qed.

Lemma Unsubscribe_ok ty id b :
  tables_ok b -> panicked b = false -> tables_ok (Unsubscribe ty id b) /\ panicked (Unsubscribe ty id b) = false /\ closed (Unsubscribe ty id b) = closed b.
Proof.
  intros Hok Hp. unfold Unsubscribe. destruct (existsb _ _) eqn:Hex; [|done].
  apply existsb_exists in Hex as (x & Hx & ->%Pos.eqb_eq%eq_sym). apply list_elem_of_In in Hx.
  destruct (subscribers b !! ty) as [l|] eqn:Hl; [|by apply elem_of_nil in Hx]. simpl in Hx. destruct Hok as [H1 H2 H3 H4 H5 H6].
  destruct (H1 _ _ _ Hl Hx) as (c & Hc & Ho). unfold close_chan. simpl. rewrite Hc, Ho. split_and!; [|done|done].
  destruct (remove_first_nodup id l (H3 _ _ Hl)) as [Hnd Hni].
  assert (Hsub : forall ty' l', <[ty := remove_first id l]> (subscribers b) !! ty' = Some l' ->
    exists m, subscribers b !! ty' = Some m /\ NoDup l' /\ forall y, y ∈ l' -> y ∈ m /\ y <> id).
  { intros ty' l'. rewrite lookup_insert. case_decide as Ht.
    - subst ty'. intros [= <-]. exists l. split_and!; [done|done|]. intros y Hy. split; [by eapply remove_first_elem|]. by intros ->.
    - intros Hl'. exists l'. split_and!; [done|by eapply H3|]. intros y Hy. split; [done|]. intros ->. by apply Ht, (H5 _ _ _ _ id Hl Hl'). }
  split; simpl.
  - intros ty' l' y Hl' Hy. destruct (Hsub _ _ Hl') as (m & Hm & _ & Hin). destruct (Hin y Hy) as [Hym Hyi].
    rewrite lookup_insert_ne by done. eauto.
  - intros y Hy. rewrite lookup_insert_ne; [eauto|]. intros <-. by eapply H6.
  - intros ty' l' Hl'. by destruct (Hsub _ _ Hl') as (m & Hm & ? & Hin).
  - done.
  - intros t1 t2 l1 l2 y Hl1 Hl2 Hy1 Hy2. destruct (Hsub _ _ Hl1) as (m1 & Hm1 & _ & Hi1), (Hsub _ _ Hl2) as (m2 & Hm2 & _ & Hi2).
    eapply H5; [exact Hm1|exact Hm2|by apply Hi1|by apply Hi2].
  - intros ty' l' y Hl' Hy. destruct (Hsub _ _ Hl') as (m & Hm & _ & Hin). eapply H6; [exact Hm|by apply Hin].
Qed.

Lemma close_all ids b :
  NoDup ids -> (forall id, id ∈ ids -> exists c, chans b !! id = Some c /\ ch_closed c = false) -> panicked b = false ->
  let b' := fold_left (fun b id => close_chan id b) ids b in panicked b' = false /\ closed b' = closed b.
Proof.
  revert b. induction ids as [|i ids IH]; intros b Hnd Hop Hp; [done|]. apply list.NoDup_cons in Hnd as [Hi Hnd]. simpl.
  destruct (Hop i) as (c & Hc & Ho); [by left|]. unfold close_chan at 2 4. rewrite Hc, Ho.
  refine (IH (set_chans _ b) Hnd _ Hp). intros id Hid. simpl. rewrite lookup_insert_ne by (intros ->; done). apply Hop. by right.
Qed.

Lemma registered_nodup b : tables_ok b -> NoDup (flat_map snd (range (subscribers b)) ++ allSubs b).
Proof.
  intros Hok. apply list.NoDup_app. split_and!; [|intros id Hid Ha|by apply ok_all_nodup].
  - assert (Hin : forall ty l, (ty, l) ∈ range (subscribers b) -> subscribers b !! ty = Some l) by (intros; by apply elem_of_range).
    pose proof (NoDup_range_fst (subscribers b)) as Hnd. revert Hin Hnd. generalize (range (subscribers b)).
    intros L. induction L as [|[ty l] L IH]; intros Hin Hnd; [constructor|]. simpl in *. apply list.NoDup_cons in Hnd as [Hty Hnd].
    apply list.NoDup_app. split_and!; [eapply ok_subs_nodup, Hin; [done|by left]| |apply IH; [intros; apply Hin; by right|done]].
    intros id Hid Hid'. apply list_elem_of_In, in_flat_map in Hid' as ([ty' l'] & Hin' & Hid'). simpl in Hid'.
    apply list_elem_of_In in Hin', Hid'. apply Hty.
    rewrite (ok_one_type b Hok ty ty' l l' id); [|apply Hin; by left|apply Hin; by right|done|done].
    apply list_elem_of_fmap. by exists (ty', l').
  - apply list_elem_of_In, in_flat_map in Hid as ([ty l] & Hin & Hid). apply list_elem_of_In, elem_of_range in Hin.
    apply list_elem_of_In in Hid. by eapply ok_not_both.
Qed.

Lemma step_ok b o : bus_ok b -> (forall ty id, o = BUnsubscribe ty id -> closed b = false) ->
  bus_ok (step b o) /\ closed (step b o) = match o with BClose => true | _ => closed b end.
Proof.
  intros Hb Hpol. destruct (Hb) as [Hp Hok]. destruct o as [e|ty size|size|ty id| |id|]; simpl.
  - unfold Publish, Publish_check, Publish_send. destruct (closed b) eqn:Hc; simpl; [by split|].
    destruct (_ <? _)%nat; [|by split]. split; [|done]. split; [done|]. intros _. by apply (tables_ok_chans b); eauto.
  - split; [|done]. split; [done|]. intros Hc. by apply Subscribe_ok, Hok.
  - split; [|done]. split; [done|]. intros Hc. by apply SubscribeAll_ok, Hok.
  - specialize (Hpol ty id eq_refl). destruct (Unsubscribe_ok ty id b (Hok Hpol) Hp) as (H1 & H2 & H3). split; [by split|done].
  - unfold dispatch. destruct (closed b) eqn:Hc; [by split|]. destruct (inputCh b) as [|e rest]; [by split|].
    set (b0 := set_input rest b). assert (Hok0 : tables_ok b0) by (by apply (tables_ok_chans b); eauto).
    destruct (fanout_tables e b0) as (_ & _ & Hcl & _). split; [|by rewrite Hcl]. split; [|intros _; by apply fanout_ok].
    unfold fanout. set (subs := default _ _). assert (Hs : forall id, id ∈ subs -> exists c, chans b0 !! id = Some c /\ ch_closed c = false).
    { unfold subs. intros id. destruct (subscribers b0 !! _) eqn:Hs; [by eapply ok_subs_open|by intros ?%elem_of_nil]. }
    apply offers_panicked; [|by apply offers_panicked]. intros id Hid. destruct (ok_all_open _ Hok0 id Hid) as (c & Hch & Ho).
    eexists. split; [apply offers_chan; [|done|done]|by (destruct (decide _); rewrite ?push_open)].
    unfold subs. destruct (subscribers b0 !! _) eqn:Hsb; [by eapply ok_subs_nodup|constructor].
  - unfold recv. destruct (chans b !! id) as [c|] eqn:Hch; [|by split]. destruct (queue c) as [|e q]; [by split|]. split; [|done].
    split; [done|]. intros Hc. apply (tables_ok_chans b); [by apply Hok|done|done|]. intros id' c' Hc' Ho'. simpl. rewrite lookup_insert.
    case_decide; [subst; eexists; split; [done|]; simpl; congruence|eauto].
  - unfold Close. destruct (closed b) eqn:Hc; [by split|]. specialize (Hok eq_refl). set (b0 := Build_bus _ _ _ _ _ _ _ _).
    destruct (close_all (flat_map snd (range (subscribers b0)) ++ allSubs b0) b0) as [H1 H2]; [exact (registered_nodup b Hok)|..|done|].
    + intros id [Hid|Hid]%elem_of_app; [|by apply (ok_all_open _ Hok)].
      apply list_elem_of_In, in_flat_map in Hid as ([ty l] & Hin & Hid). apply list_elem_of_In, elem_of_range in Hin.
      apply list_elem_of_In in Hid. by apply (ok_subs_open _ Hok ty l id).
    + split; [|exact H2]. split; [exact H1|]. intros Hf. by rewrite H2 in Hf.
Qed.

(** No sequence of bus operations panics (no send on or double
    close of a closed channel), as long as nobody unsubscribes after [Close]
    and no [Publish] is split by it. *)
Theorem bus_never_panics ops size (Hpol : polite false ops) :
  panicked (fold_left step ops (NewBus size)) = false.
Proof.
  assert (Hgen : forall b, bus_ok b -> polite (closed b) ops -> bus_ok (fold_left step ops b)).
  { clear Hpol. induction ops as [|o ops IH]; intros b Hok Hpol; [done|]. simpl.
    destruct (step_ok b o Hok) as [Hok' Hcl]; [intros ty id ->; by destruct Hpol|].
    apply IH; [done|]. rewrite Hcl. destruct o; try done; by destruct Hpol. }
  apply Hgen; [|done]. split; [done|]. intros _.
  split; simpl; try (intros *; rewrite lookup_empty; done); try constructor; by intros ? ?%elem_of_nil.
Qed.

End Bus.

(** *** A concrete bus *)

(** Events are their own types. *)
Definition demo : bus (E := string) :=
  fold_left (step (fun e => e)) [BSubscribe "won" (Some 2); BSubscribeAll None; BPublish "won"; BPublish "lost"; BPublish "won"; BPublish "won"]
    (NewBus 1000).

Lemma demo_tables : tables_ok demo.
Proof.
  apply (step_ok (fun e => e) (fold_left (step (fun e => e)) [BSubscribe "won" (Some 2); BSubscribeAll None; BPublish "won"; BPublish "lost"; BPublish "won"]
    (NewBus 1000)) (BPublish "won")); [|done|done].
  apply (step_ok (fun e => e)); [|done]. apply (step_ok (fun e => e)); [|done]. apply (step_ok (fun e => e)); [|done].
  apply (step_ok (fun e => e)); [|done]. apply (step_ok (fun e => e)); [|done]. split; [done|]. intros _.
  split; simpl; try (intros *; rewrite lookup_empty; done); try constructor; by intros ? ?%elem_of_nil.
Qed.

(** The third event of a type whose subscriber buffers two is dropped. *)
Lemma bus_delivers_in_order_witness :
  exists c', chans (dispatches (fun e => e) 4 demo) !! 1%positive = Some c' /\ queue c' = ["won"; "won"].
Proof.
  destruct (bus_delivers_in_order (fun e => e) 4 demo 1 {| cap := 2; queue := []; ch_closed := false |} demo_tables) as (c' & Hc & Hq);
    [vm_compute; reflexivity..|].
  exists c'. split; [exact Hc|]. rewrite Hq. vm_compute. reflexivity.
Defined.

Lemma bus_never_panics_witness :
  panicked (fold_left (step (fun e => e)) [BSubscribe "won" None; BPublish "won"; BClose; BPublish "won"; BDispatch; BClose] (NewBus 10)) = false.
Proof. apply (bus_never_panics (fun e => e)). simpl. done. Defined.

(** Unsubscribing after [Close], and a [Publish] that [Close] interrupts, do
    panic: both close or send on a closed channel. *)
Lemma bus_panics_after_close :
  panicked (Unsubscribe "won" 1 (Close (snd (Subscribe "won" None (NewBus (E := string) 1))))) = true /\
  let b := NewBus (E := string) 1 in Publish_check b = true /\ panicked (Publish_send true "won" (Close b)) = true.
Proof. split; [|split]; vm_compute; reflexivity. Qed.

End eventbus.
