(* ===== verification/Shared.v ===== *)
(** * Shared utilities ([shared/paths.go], [shared/retry.go], [shared/proto.go])

    Cluster paths and topic names, retries, and the length-prefixed framing of
    messages on streams. *)

From S2P Require Import Prelude Float64 ElectionTopic.
Local Open Scope string_scope.
Local Open Scope list_scope.
Local Open Scope Z_scope.

(** ** Cluster paths: [paths.go] *)

Definition DefaultRegion : string := "default".
Definition DefaultDatacenter : string := "default".

Record ClusterPath := { cp_Region : string; cp_Datacenter : string; cp_Cluster : string }.
Definition empty_path : ClusterPath := {| cp_Region := ""; cp_Datacenter := ""; cp_Cluster := "" |}.

Definition ClusterPath_String (cp : ClusterPath) : string :=
  cp_Region cp +:+ "/" +:+ cp_Datacenter cp +:+ "/" +:+ cp_Cluster cp.

(** [strings.Split(s, sep)] with a separator of one byte: never empty. *)
Fixpoint Split (sep : ascii) (s : string) : list string :=
  match s with
  | EmptyString => [""]
  | String c s =>
      if Ascii.eqb c sep then "" :: Split sep s
      else match Split sep s with
           | [] => [String c ""]   (* not reached *)
           | part :: parts => String c part :: parts
           end
  end.

Inductive PathError := ErrPathFormat (path : string) | ErrPathEmptyComponent (path : string).

Definition ParseClusterPath (path : string) : result PathError ClusterPath :=
  match Split "/" path with
  | [a; b; c] =>
      if (a =s "") || (b =s "") || (c =s "") then Err (ErrPathEmptyComponent path)
      else Ok {| cp_Region := a; cp_Datacenter := b; cp_Cluster := c |}
  | _ => Err (ErrPathFormat path)
  end.

Definition extract (f : ClusterPath -> string) (path : string) : string :=
  match ParseClusterPath path with Ok cp => f cp | Err _ => "" end.
Definition ExtractRegion : string -> string := extract cp_Region.
Definition ExtractDatacenter : string -> string := extract cp_Datacenter.
Definition ExtractCluster : string -> string := extract cp_Cluster.

Definition BuildClusterPath (region datacenter cluster : string) : string :=
  let region := if region =s "" then DefaultRegion else region in
  let datacenter := if datacenter =s "" then DefaultDatacenter else datacenter in
  region +:+ "/" +:+ datacenter +:+ "/" +:+ cluster.

Definition BuildHealthTopic (clusterPath : string) : string := "falak/" +:+ clusterPath +:+ "/health".
Definition BuildAuthTopic (clusterPath : string) : string := "falak/" +:+ clusterPath +:+ "/auth".
Definition BuildMetricsTopic (clusterPath : string) : string := "falak/" +:+ clusterPath +:+ "/metrics".

(** *** Parsing is the inverse of building *)

(** No separator in the string. *)
Fixpoint no_slash (s : string) : bool :=
  match s with EmptyString => true | String c s => negb (Ascii.eqb c "/") && no_slash s end.

Lemma string_app_cons c a b : String c a +:+ b = String c (a +:+ b).
Proof. reflexivity. Qed.

Lemma Split_part a : no_slash a = true -> Split "/" a = [a].
Proof.
  induction a as [|c a IH]; [done|]. simpl. rewrite andb_true_iff, negb_true_iff. intros [-> Ha]. by rewrite IH.
Qed.

Lemma Split_app a b : no_slash a = true -> Split "/" (a +:+ "/" +:+ b) = a :: Split "/" b.
Proof.
  induction a as [|c a IH]; [done|]. rewrite string_app_cons. cbn [no_slash Split].
  rewrite andb_true_iff, negb_true_iff. intros [-> Ha]. by rewrite (IH Ha).
Qed.

(** The parts have no separator and, joined, are the string. *)
Lemma Split_parts s : Forall (fun p => no_slash p = true) (Split "/" s) /\ String.concat "/" (Split "/" s) = s /\ Split "/" s <> [].
Proof.
  induction s as [|c s (IH1 & IH2 & IH3)]; [split_and!; [by repeat constructor|done..]|]. simpl.
  destruct (Ascii.eqb_spec c "/") as [->|Hc].
  - split_and!; [by constructor| |done]. destruct (Split "/" s) as [|p ps]; [done|].
    change (String "/" (String.concat "/" (p :: ps)) = String "/" s). by rewrite IH2.
  - destruct (Split "/" s) as [|p ps]; [done|]. inversion_clear IH1 as [|? ? Hp Hps]. split_and!; [| |done].
    + constructor; [|done]. simpl. by destruct (Ascii.eqb_spec c "/").
    + rewrite <- IH2. destruct ps; done.
Qed.

Definition path_component (s : string) : bool := negb (s =s "") && no_slash s.

(** [ParseClusterPath] is exactly the inverse of joining three
    components: it returns [cp] if and only if [cp] has non-empty components
    without slashes and the path is their join; every other path is an error. *)
Theorem cluster_path_parse_exact path cp :
  ParseClusterPath path = Ok cp <->
  path_component (cp_Region cp) = true /\ path_component (cp_Datacenter cp) = true /\
  path_component (cp_Cluster cp) = true /\ path = ClusterPath_String cp.
Proof.
  unfold path_component. rewrite !andb_true_iff, !negb_true_iff. split.
  - unfold ParseClusterPath. destruct (Split_parts path) as (Hf & Hj & _).
    destruct (Split "/" path) as [|a [|b [|c [|]]]] eqn:E; try discriminate.
    destruct (a =s "") eqn:Ea, (b =s "") eqn:Eb, (c =s "") eqn:Ec; simpl; try discriminate.
    intros [= <-]. cbn [cp_Region cp_Datacenter cp_Cluster] in *. inversion Hf as [|? ? ? Hf2]; subst. inversion Hf2 as [|? ? ? Hf3]; subst. inversion Hf3; subst.
    split_and!; try done.
  - intros ((Ha & Ha') & (Hb & Hb') & (Hc & Hc') & ->). destruct cp as [a b c]; cbn in *.
    unfold ParseClusterPath, ClusterPath_String. cbn. rewrite !Split_app, Split_part by done.
    by rewrite Ha, Hb, Hc.
Qed.

(** Building from components and parsing gives them back, with the defaults
    filled in. *)
Lemma cluster_path_build_parse r d c :
  no_slash r = true -> no_slash d = true -> path_component c = true ->
  ParseClusterPath (BuildClusterPath r d c) =
  Ok {| cp_Region := if r =s "" then DefaultRegion else r;
        cp_Datacenter := if d =s "" then DefaultDatacenter else d; cp_Cluster := c |}.
Proof.
  unfold path_component. rewrite andb_true_iff, negb_true_iff. intros Hr Hd [Hc Hc'].
  unfold ParseClusterPath, BuildClusterPath.
  set (r' := if r =s "" then _ else _). set (d' := if d =s "" then _ else _).
  assert (no_slash r' = true /\ (r' =s "") = false) as [Hr1 Hr2] by (unfold r'; by destruct (r =s "") eqn:E).
  assert (no_slash d' = true /\ (d' =s "") = false) as [Hd1 Hd2] by (unfold d'; by destruct (d =s "") eqn:E).
  rewrite !Split_app, Split_part by done. by rewrite Hr2, Hd2, Hc.
Qed.

(** ** Retries: [retry.go] *)

Module retry.

Record RetryConfig := { MaxRetries : Z; Delay : Duration }.
Definition DefaultRetryConfig : RetryConfig := {| MaxRetries := 3; Delay := 100 * millisecond |}.

Section Retry.
Context {W E A : Type}.
(** The function to retry changes the world it runs in; [done w] tells
    whether the context is done when the wait after an attempt begins or
    before it ends; [ctxErr] is [ctx.Err()]. *)
Variables (fn : ST W (result E A)) (ctx_done : W -> bool) (ctxErr : E).

(** The attempts from [attempt] on, [left] of them; [lastErr] is nil before
    the first one. *)
Fixpoint attempts (left : nat) (lastErr : option E) : ST W (result E (option A)) := fun w =>
  match left with
  | O => (match lastErr with Some e => Err e | None => Ok None end, w)
  | S left' =>
      match fn w with
      | (Ok a, w) => (Ok (Some a), w)
      | (Err e, w) =>
          match left' with
          | O => attempts left' (Some e) w          (* no wait after the last attempt *)
          | S _ => if ctx_done w then (Err ctxErr, w) else attempts left' (Some e) w
          end
      end
  end.

(** [RetryWithResult]; [Ok None] is the zero result with a nil error. *)
Definition RetryWithResult (cfg : RetryConfig) : ST W (result E (option A)) :=
  attempts (Z.to_nat (MaxRetries cfg)) None.

End Retry.

(** [Retry] is the same loop over a function without result. *)
Definition Retry {W E} (fn : ST W (result E unit)) (ctx_done : W -> bool) (ctxErr : E) (cfg : RetryConfig) : ST W (result E unit) :=
  fun w => match RetryWithResult fn ctx_done ctxErr cfg w with (Ok _, w) => (Ok tt, w) | (Err e, w) => (Err e, w) end.

(** The worlds seen by the attempts: the n-th one runs after n failures. *)
Fixpoint after {W E A} (fn : ST W (result E A)) (n : nat) (w : W) : W :=
  match n with O => w | S n => after fn n (snd (fn w)) end.

Definition fails {W E A} (fn : ST W (result E A)) (w : W) : Prop := exists e, fst (fn w) = Err e.

Lemma attempts_fail {W E A} (fn : ST W (result E A)) ctx_done ctxErr left last (w : W) :
  fails fn w -> ctx_done (snd (fn w)) = false ->
  exists e, attempts fn ctx_done ctxErr (S (S left)) last w = attempts fn ctx_done ctxErr (S left) (Some e) (snd (fn w)).
Proof.
  intros [e He] Hd. exists e. cbn [attempts]. destruct (fn w) as [r w']. simpl in *. subst r. by rewrite Hd.
Qed.

Lemma attempts_last {W E A} (fn : ST W (result E A)) ctx_done ctxErr left last (w : W) :
  match fst (fn w) with
  | Ok a => attempts fn ctx_done ctxErr (S left) last w = (Ok (Some a), snd (fn w))
  | Err e => attempts fn ctx_done ctxErr 1 last w = (Err e, snd (fn w))
  end.
Proof. cbn [attempts]. by destruct (fn w) as [[a|e] w']. Qed.

(** A retried call stops at the first attempt that succeeds: when
    attempts [0 .. n-1] fail without the context being done, attempt [n]
    succeeds and [n] is less than [MaxRetries], the result is that of attempt
    [n] and the function has run exactly [n + 1] times. *)
Theorem retry_first_success {W E A} (fn : ST W (result E A)) ctx_done ctxErr cfg (w : W) n a
    (Hn : Z.of_nat n < MaxRetries cfg)
    (Hfail : forall i, (i < n)%nat -> fails fn (after fn i w) /\ ctx_done (after fn (S i) w) = false)
    (Hok : fst (fn (after fn n w)) = Ok a) :
  RetryWithResult fn ctx_done ctxErr cfg w = (Ok (Some a), after fn (S n) w).
Proof.
  unfold RetryWithResult. assert (Hle : (n < Z.to_nat (MaxRetries cfg))%nat) by lia.
  clear Hn. revert w Hfail Hok Hle. generalize (@None E) as last, (Z.to_nat (MaxRetries cfg)) as left.
  induction n as [|n IH]; intros last [|left] w Hfail Hok Hle; try lia.
  - pose proof (attempts_last fn ctx_done ctxErr left last w) as H. simpl in Hok. by rewrite Hok in H.
  - destruct (Hfail 0%nat) as [Hf Hd]; [lia|]. destruct left as [|left]; [lia|].
    destruct (attempts_fail fn ctx_done ctxErr left last w Hf Hd) as [e ->].
    apply IH; [intros i Hi; apply (Hfail (S i)); lia|done|lia].
Qed.

(** With no attempts left over, the error is that of the last attempt. *)
Lemma retry_all_fail {W E A} (fn : ST W (result E A)) ctx_done ctxErr cfg (w : W) n e :
  MaxRetries cfg = Z.of_nat (S n) ->
  (forall i, (i < n)%nat -> fails fn (after fn i w) /\ ctx_done (after fn (S i) w) = false) ->
  fst (fn (after fn n w)) = Err e ->
  RetryWithResult fn ctx_done ctxErr cfg w = (Err e, after fn (S n) w).
Proof.
  unfold RetryWithResult. intros ->. rewrite Nat2Z.id. revert w. generalize (@None E) as last.
  induction n as [|n IH]; intros last w Hfail He.
  - pose proof (attempts_last fn ctx_done ctxErr 0 last w) as H. simpl in He. by rewrite He in H.
  - destruct (Hfail 0%nat) as [Hf Hd]; [lia|].
    destruct (attempts_fail fn ctx_done ctxErr n last w Hf Hd) as [e' ->].
    apply IH; [intros i Hi; apply (Hfail (S i)); lia|done].
Qed.

(** Without attempts the function is never called and the error is nil. *)
Lemma retry_zero_is_success {W E} (fn : ST W (result E unit)) ctx_done ctxErr cfg (w : W) :
  MaxRetries cfg <= 0 -> Retry fn ctx_done ctxErr cfg w = (Ok tt, w).
Proof. intros H. unfold Retry, RetryWithResult. by replace (Z.to_nat (MaxRetries cfg)) with O by lia. Qed.

(** A call that succeeds from its third run on. *)
Definition flaky : ST nat (result string nat) := fun w => (if (2 <=? w)%nat then Ok (w * 10)%nat else Err "busy", S w).

Lemma retry_first_success_witness :
  RetryWithResult flaky (fun _ => false) "cancelled" DefaultRetryConfig O = (Ok (Some 20%nat), 3%nat).
Proof.
  apply (retry_first_success flaky (fun _ => false) "cancelled" DefaultRetryConfig O 2 20%nat); [reflexivity| |reflexivity].
  intros [|[|i]] Hi; [..|lia]; (split; [exists "busy"|]; reflexivity).
Defined.

End retry.

(** ** Framing: [proto.go] *)

Module framing.

Definition MaxMessageSize : Z := 10 * 1024 * 1024.

Inductive ProtoError := ErrMarshal | ErrWriteLength | ErrWriteData | ErrReadLength | ErrTooLarge (length : Z) | ErrReadData | ErrUnmarshal.

Section Framing.
(** A message type with its codec; a writer whose [Write] may fail; a reader
    is the bytes that will still arrive. *)
Context {M W : Type} (Marshal : M -> option bytes) (Unmarshal : bytes -> option M) (Write : bytes -> ST W bool).

Definition WriteProto (msg : M) : ST W (result ProtoError unit) := fun w =>
  match Marshal msg with
  | None => (Err ErrMarshal, w)
  | Some data =>
      let '(ok, w) := Write (big_endian 4 (uint32 (Z.of_nat (length data)))) w in
      if negb ok then (Err ErrWriteLength, w) else
      let '(ok, w) := Write data w in
      if negb ok then (Err ErrWriteData, w) else (Ok tt, w)
  end.

(** [binary.BigEndian.Uint32] *)
Definition Uint32 (b : bytes) : Z := fold_left (fun a c => a * 256 + Z.of_N (N_of_ascii c)) b 0.

(** [io.ReadFull]: [None] when the stream ends first, after consuming it. *)
Definition ReadFull (n : Z) : ST bytes (option bytes) := fun r =>
  if Z.of_nat (length r) <? n then (None, []) else (Some (take (Z.to_nat n) r), drop (Z.to_nat n) r).

Definition ReadProto : ST bytes (result ProtoError M) := fun r =>
  match ReadFull 4 r with
  | (None, r) => (Err ErrReadLength, r)
  | (Some lenBuf, r) =>
      let length := Uint32 lenBuf in
      if MaxMessageSize <? length then (Err (ErrTooLarge length), r) else
      match ReadFull length r with
      | (None, r) => (Err ErrReadData, r)
      | (Some data, r) =>
          match Unmarshal data with None => (Err ErrUnmarshal, r) | Some msg => (Ok msg, r) end
      end
  end.

(** Reads [n] messages in a row. *)
Fixpoint ReadAll (n : nat) (r : bytes) : list (result ProtoError M) * bytes :=
  match n with
  | O => ([], r)
  | S n => let '(m, r) := ReadProto r in let '(ms, r) := ReadAll n r in (m :: ms, r)
  end.

Fixpoint WriteAll (msgs : list M) (w : W) : bool * W :=
  match msgs with
  | [] => (true, w)
  | msg :: msgs => match WriteProto msg w with (Ok _, w) => WriteAll msgs w | (Err _, w) => (false, w) end
  end.

End Framing.

(** A buffer as a writer that never fails. *)
Definition buffer_Write (b : bytes) : ST bytes bool := fun w => (true, w ++ b).

Lemma Uint32_app a c : Uint32 (a ++ [c]) = Uint32 a * 256 + Z.of_N (N_of_ascii c).
Proof. unfold Uint32. by rewrite fold_left_app. Qed.

Lemma Uint32_big_endian n z : 0 <= z < 256 ^ Z.of_nat n -> Uint32 (big_endian n z) = z.
Proof.
  revert z. induction n as [|n IH]; intros z Hz; [change (256 ^ Z.of_nat 0) with 1 in Hz; cbn; lia|]. cbn [big_endian]. rewrite Uint32_app.
  rewrite IH.
  - pose proof (Z.mod_pos_bound z 256 ltac:(lia)). pose proof (Z.div_mod z 256 ltac:(lia)).
    rewrite N_ascii_embedding by lia. lia.
  - replace (Z.of_nat (S n)) with (Z.of_nat n + 1) in Hz by lia. rewrite Z.pow_add_r in Hz by lia.
    split; [apply Z.div_pos; lia|]. apply Z.div_lt_upper_bound; lia.
Qed.

Lemma ReadFull_app a r : ReadFull (Z.of_nat (length a)) (a ++ r) = (Some a, r).
Proof.
  unfold ReadFull. rewrite length_app. destruct (Z.ltb_spec (Z.of_nat (length a + length r)) (Z.of_nat (length a))); [lia|].
  by rewrite Nat2Z.id, take_app_length, drop_app_length.
Qed.

Definition frame (data : bytes) : bytes := big_endian 4 (uint32 (Z.of_nat (length data))) ++ data.

Lemma ReadProto_frame {M} (Unmarshal : bytes -> option M) data r :
  Z.of_nat (length data) < 2 ^ 32 ->
  ReadProto Unmarshal (frame data ++ r) =
  if MaxMessageSize <? Z.of_nat (length data) then (Err (ErrTooLarge (Z.of_nat (length data))), data ++ r)
  else (match Unmarshal data with Some m => Ok m | None => Err ErrUnmarshal end, r).
Proof.
  intros Hlen. unfold ReadProto, frame, uint32. rewrite Z.mod_small by lia. rewrite <- app_assoc.
  set (hd := big_endian 4 (Z.of_nat (length data))).
  replace 4 with (Z.of_nat (length hd)) by (unfold hd; by rewrite big_endian_length). rewrite ReadFull_app.
  unfold hd. rewrite Uint32_big_endian by (change (256 ^ Z.of_nat 4) with (2 ^ 32); lia).
  destruct (Z.ltb_spec MaxMessageSize (Z.of_nat (length data))); [done|]. rewrite ReadFull_app. by destruct (Unmarshal data).
Qed.

Lemma WriteAll_buffer {M} (Marshal : M -> option bytes) msgs datas w :
  Marshal <$> msgs = Some <$> datas ->
  WriteAll Marshal buffer_Write msgs w = (true, w ++ flat_map frame datas).
Proof.
  revert datas w. induction msgs as [|m msgs IH]; intros [|d datas] w; try discriminate; [by simpl; rewrite app_nil_r|].
  intros [= Hm Hms]. simpl. unfold WriteProto. rewrite Hm. cbn [buffer_Write negb fst snd].
  rewrite (IH datas) by done. unfold frame. by rewrite <- !app_assoc.
Qed.

Lemma ReadAll_frames {M} (Unmarshal : bytes -> option M) msgs datas rest :
  Unmarshal <$> datas = Some <$> msgs -> Forall (fun d => Z.of_nat (length d) <= MaxMessageSize) datas ->
  ReadAll Unmarshal (length datas) (flat_map frame datas ++ rest) = (Ok <$> msgs, rest).
Proof.
  revert msgs. induction datas as [|d datas IH]; intros [|m msgs]; try discriminate; [done|].
  intros [= Hm Hms] Hf. inversion_clear Hf as [|? ? Hd Hf']. cbn [flat_map length ReadAll].
  rewrite <- app_assoc, ReadProto_frame by (unfold MaxMessageSize in Hd; lia).
  destruct (Z.ltb_spec MaxMessageSize (Z.of_nat (length d))); [lia|]. rewrite Hm, (IH msgs) by done. done.
Qed.

(** Messages written one after another on a stream are read back
    in order, each as it was written, and nothing beyond them is consumed,
    whatever follows; for messages of at most [MaxMessageSize] bytes. *)
Theorem framing_stream_roundtrip {M} (Marshal : M -> option bytes) (Unmarshal : bytes -> option M) msgs stream rest
    (Hcodec : forall m d, m ∈ msgs -> Marshal m = Some d -> Unmarshal d = Some m)
    (Hsize : forall m, m ∈ msgs -> exists d, Marshal m = Some d /\ Z.of_nat (length d) <= MaxMessageSize)
    (Hwrite : WriteAll Marshal buffer_Write msgs [] = (true, stream)) :
  ReadAll Unmarshal (length msgs) (stream ++ rest) = (Ok <$> msgs, rest).
Proof.
  assert (exists datas, Marshal <$> msgs = Some <$> datas /\ Unmarshal <$> datas = Some <$> msgs /\
            Forall (fun d => Z.of_nat (length d) <= MaxMessageSize) datas /\ length datas = length msgs)
    as (datas & H1 & H2 & H3 & H4).
  { clear Hwrite. induction msgs as [|m msgs IH]; [by exists []|].
    destruct IH as (ds & E1 & E2 & E3 & E4); [intros; eapply Hcodec; [by right|done]|intros; by apply Hsize; right|].
    destruct (Hsize m) as (d & Hd & Hl); [by left|]. exists (d :: ds). rewrite !fmap_cons, E1, E2, Hd.
    rewrite (Hcodec m d) by (by left || done). split_and!; [done..|by constructor|simpl; by rewrite E4]. }
  rewrite (WriteAll_buffer _ _ datas) in Hwrite by done. injection Hwrite as <-. rewrite <- H4.
  by apply ReadAll_frames.
Qed.

(** A larger message is written without complaint and refused by the reader,
    which leaves its body on the stream. *)
Lemma framing_oversized_refused {M} (Unmarshal : bytes -> option M) data r :
  MaxMessageSize < Z.of_nat (length data) < 2 ^ 32 ->
  ReadProto Unmarshal (frame data ++ r) = (Err (ErrTooLarge (Z.of_nat (length data))), data ++ r).
Proof. intros [H1 H2]. rewrite ReadProto_frame by done. by destruct (Z.ltb_spec MaxMessageSize (Z.of_nat (length data))); [|lia]. Qed.

(** A stream that ends inside a frame gives an error, never a message. *)
Lemma framing_truncated {M} (Unmarshal : bytes -> option M) data cut :
  Z.of_nat (length data) <= MaxMessageSize -> (cut < length (frame data))%nat ->
  exists e, fst (ReadProto Unmarshal (take cut (frame data))) = Err e.
Proof.
  intros Hd Hc. unfold frame in *. rewrite length_app, big_endian_length in Hc.
  unfold ReadProto, ReadFull at 1. rewrite length_take, length_app, big_endian_length.
  destruct (Z.ltb_spec (Z.of_nat (cut `min` (4 + length data))) 4) as [|H4]; [by eexists|].
  change (Z.to_nat 4) with 4%nat.
  assert (Ht : take 4 (take cut (big_endian 4 (uint32 (Z.of_nat (length data))) ++ data)) = big_endian 4 (uint32 (Z.of_nat (length data)))).
  { rewrite take_take, Nat.min_l by lia. by rewrite take_app_le, take_ge by (rewrite big_endian_length; lia). }
  rewrite Ht. unfold uint32, MaxMessageSize in *. rewrite Z.mod_small by lia.
  rewrite Uint32_big_endian by (change (256 ^ Z.of_nat 4) with (2 ^ 32); lia).
  destruct (Z.ltb_spec (10 * 1024 * 1024) (Z.of_nat (length data))); [lia|].
  unfold ReadFull. rewrite length_drop, length_take, length_app, big_endian_length.
  destruct (Z.ltb_spec (Z.of_nat (cut `min` (4 + length data) - 4)) (Z.of_nat (length data))); [by eexists|lia].
Qed.

Definition raw_Marshal (m : string) : option bytes := Some (list_ascii_of_string m).
Definition raw_Unmarshal (b : bytes) : option string := Some (string_of_list_ascii b).

Lemma framing_stream_roundtrip_witness :
  exists stream, WriteAll raw_Marshal buffer_Write ["ping"; ""; "ack"] [] = (true, stream) /\
    ReadAll raw_Unmarshal 3 (stream ++ ["x"%char]) = ([Ok "ping"; Ok ""; Ok "ack"], ["x"%char]).
Proof.
  eexists. split; [reflexivity|].
  apply (framing_stream_roundtrip raw_Marshal raw_Unmarshal ["ping"; ""; "ack"]).
  - intros m d _ [= <-]. unfold raw_Unmarshal. by rewrite string_of_list_ascii_of_string.
  - intros m Hm. repeat (apply elem_of_cons in Hm as [->|Hm]; [eexists; split; [reflexivity|vm_compute; discriminate]|]).
    by apply not_elem_of_nil in Hm.
  - reflexivity.
Defined.

End framing.

(** ** A codec for evaluation

    Any countable type has a total encoding into bytes with its inverse; the
    examples use it where the program uses Protocol Buffers. *)

Module wire.

Fixpoint pos_bytes (p : positive) : bytes :=
  match p with xH => [] | xO p => Ascii.zero :: pos_bytes p | xI p => Ascii.one :: pos_bytes p end.
Fixpoint bytes_pos (b : bytes) : positive :=
  match b with [] => xH | c :: b => if Ascii.eqb c Ascii.zero then xO (bytes_pos b) else xI (bytes_pos b) end.

Lemma pos_bytes_inv p : bytes_pos (pos_bytes p) = p.
Proof. induction p as [p IH|p IH|]; simpl; by rewrite ?IH. Qed.

Section Wire.
Context {A : Type} `{Countable A}.
Definition to_wire (a : A) : option bytes := Some (pos_bytes (encode a)).
Definition of_wire (b : bytes) : option A := decode (bytes_pos b).

Lemma wire_roundtrip a b : to_wire a = Some b -> of_wire b = Some a.
Proof. intros [= <-]. unfold of_wire. by rewrite pos_bytes_inv, decode_encode. Qed.

Lemma wire_total a : is_Some (to_wire a).
Proof. by eexists. Qed.
End Wire.

(** Byte strings one after the other: each byte follows a one, a zero ends a
    string. *)
Fixpoint esc (b : bytes) : bytes := match b with [] => [Ascii.zero] | c :: b => Ascii.one :: c :: esc b end.
Fixpoint unesc (b : bytes) : option (bytes * bytes) :=
  match b with
  | m :: b => if Ascii.eqb m Ascii.zero then Some ([], b)
              else match b with c :: b => match unesc b with Some (x, r) => Some (c :: x, r) | None => None end | [] => None end
  | [] => None
  end.
Lemma unesc_esc a r : unesc (esc a ++ r) = Some (a, r).
Proof. induction a as [|c a IH]; [done|]. cbn. by rewrite IH. Qed.

#[export] Instance f64_eq_dec : EqDecision f64.
Proof. solve_decision. Defined.
#[export] Instance f64_countable : Countable f64.
Proof.
  refine (inj_countable' (fun x => match x with NaN => inl tt | Inf s => inr (inl s) | Fin s m e => inr (inr (s, m, e)) end)
            (fun x => match x with inl _ => NaN | inr (inl s) => Inf s | inr (inr (s, m, e)) => Fin s m e end) _).
  by intros [].
Defined.

End wire.
