(* ===== verification/Phonebook.v ===== *)
(** * Phonebook ([node/phonebook])

    The table of known peers: one row per node and cluster, in SQLite, behind
    the interface [IPhonebook] that the other components of the node use; and
    the subscriber that fills it from membership events.

    The SQL statements of [sqlite.go] are functions on a finite map from the
    primary key to rows; [None] in a column is SQL NULL.  SQLite itself
    contributes what the text of a statement does not fix: whether it fails
    ([pb_fault]), in which order a query without ORDER BY yields its rows
    ([SqlOrder]) and how a double is stored ([SqliteReal]).  [encoding/json]
    is the interface [PbJson]. *)

From stdpp Require Import sorting.
From S2P Require Import Prelude Float64 Shared.
Local Open Scope string_scope.
Local Open Scope list_scope.
Local Open Scope Z_scope.

(** ** Data: [phonebook.go] *)

Abbreviation NodeStatus := string (only parsing).
Definition nodeStatusActive : NodeStatus := "active".
Definition nodeStatusSuspected : NodeStatus := "suspected".
Definition nodeStatusQuarantined : NodeStatus := "quarantined".
Definition nodeStatusFailed : NodeStatus := "failed".

Record Capabilities := {
  cap_CPUCores : Z; cap_MemoryMB : Z; cap_DiskGB : Z; cap_Datacenter : string;
  cap_Tags : list string; cap_Metadata : option (gmap string string)
}.

Record Entry := {
  e_NodeID : string; e_ClusterPath : string;
  e_PublicKey : list ascii; e_Addresses : list string; e_Region : string; e_Datacenter : string;
  e_Capabilities : option Capabilities;
  e_FirstSeen : Time; e_LastSeen : Time; e_LastConnected : Time; e_UpdatedAt : Time;
  e_ConnectionAttempts : Z; e_ConnectionSuccess : Z; e_SuccessRate : f64; e_ConsecutiveFails : Z;
  e_ReliabilityScore : f64; e_LastProbeTime : Time; e_LastProbeSuccess : bool; e_Status : NodeStatus;
  e_IsConnected : bool
}.

Definition e_key (e : Entry) : string * string := (e_NodeID e, e_ClusterPath e).

(** ** The interface *)

Inductive PbError :=
  | ErrSql               (** the statement failed *)
  | ErrConflict          (** INSERT on an existing primary key *)
  | ErrScan              (** a NULL or a too large number in a scanned column *)
  | ErrJson.

(** [IPhonebook]: the operations, over an opaque state. *)
Class IPhonebook := {
  PB : Type;
  pb_Get : string -> string -> ST PB (result PbError (option Entry));
  pb_Exists : string -> string -> ST PB (result PbError bool);
  pb_GetByCluster : string -> ST PB (result PbError (list Entry));
  pb_GetByNode : string -> ST PB (result PbError (list Entry));
  pb_GetBestPeers : string -> Z -> ST PB (result PbError (list Entry));
  pb_Add : Entry -> ST PB (result PbError unit);
  pb_Update : Entry -> ST PB (result PbError unit);
  pb_Remove : string -> string -> ST PB (result PbError unit);
  pb_RemoveAllForNode : string -> ST PB (result PbError unit);
  pb_RecordConnectionAttempt : string -> string -> bool -> ST PB (result PbError unit);
  pb_RecordDisconnect : string -> string -> ST PB (result PbError unit);
  pb_SetReliabilityScore : string -> string -> f64 -> ST PB (result PbError unit);
  pb_SetStatus : string -> string -> NodeStatus -> ST PB (result PbError unit);
  pb_GetByStatus : string -> NodeStatus -> ST PB (result PbError (list Entry));
  pb_RecordProbe : string -> string -> bool -> ST PB (result PbError unit);
  pb_Prune : Duration -> Z -> ST PB (result PbError Z);
  pb_Count : ST PB (result PbError Z);
  pb_CountByCluster : string -> ST PB (result PbError Z)
}.

(** ** SQLite and JSON *)

(** How SQLite stores a double bound to a REAL column: a NaN becomes NULL;
    the sign of a zero may be lost; other values are kept. *)
Class SqliteReal := {
  bind_real : f64 -> option f64;
  bind_nan : bind_real NaN = None;
  bind_number : forall x, number x -> (forall e, x <> Fin true 0 e) -> bind_real x = Some x;
  bind_negative_zero : forall e, exists s, bind_real (Fin true 0 e) = Some (f64_zero s)
}.

#[export, refine] Instance plain_real : SqliteReal | 100 :=
  {| bind_real := fun x => match x with NaN => None | Fin true 0 _ => Some (f64_zero false) | _ => Some x end |}.
Proof.
  - done.
  - intros [|s|[] [] e] [_ Hn] Hz; try done. by destruct (Hz e).
  - intros e. by exists false.
Defined.

Abbreviation key2 := (string * string)%type (only parsing).

Section Rows.

(** The columns of the table, grouped as the statements update them. *)
Record InfoCols := {
  c_public_key : list ascii; c_addresses : string; c_region : string; c_datacenter : string; c_capabilities : string;
  c_first_seen : Z
}.
Record ConnCols := {
  c_last_seen : Z; c_last_connected : Z; c_conn_attempts : Z; c_conn_success : Z; c_success_rate : option f64;
  c_consec_fails : Z; c_is_connected : Z
}.
Record HealthCols := { c_reliability_score : option f64; c_last_probe_time : Z; c_last_probe_success : Z; c_status : string }.
Record Row := {
  c_node_id : string; c_cluster_path : string; c_info : InfoCols; c_conn : ConnCols; c_health : HealthCols; c_updated_at : Z
}.

End Rows.

(** The rows of a query in the order SQLite yields them; it may differ from
    statement to statement (the first argument). *)
Class SqlOrder := {
  scan_order : nat -> gmap key2 Row -> list Row;
  scan_order_perm : forall n m, scan_order n m ≡ₚ (map_to_list m).*2
}.
#[export, refine] Instance key_order : SqlOrder | 100 := {| scan_order := fun _ m => (map_to_list m).*2 |}.
Proof. reflexivity. Defined.

(** [json.Marshal] and [json.Unmarshal] (which leaves the zero value on an
    error the code ignores). *)
Class PbJson := {
  marshal_addresses : list string -> option string;
  unmarshal_addresses : string -> list string;
  marshal_capabilities : Capabilities -> option string;
  unmarshal_capabilities : string -> Capabilities;
  (** a JSON object is never the empty text *)
  marshal_capabilities_text : forall c s, marshal_capabilities c = Some s -> s <> ""
}.

(** ** The implementation: [sqlite.go] *)

(** The table, the failures of the statements to come and the clock. *)
Record Phonebook := {
  pb_rows : gmap key2 Row; pb_fault : nat -> bool; pb_stmts : nat; pb_clock : nat -> Time; pb_ticks : nat
}.

Definition tick_stmt (p : Phonebook) : Phonebook :=
  {| pb_rows := pb_rows p; pb_fault := pb_fault p; pb_stmts := S (pb_stmts p); pb_clock := pb_clock p; pb_ticks := pb_ticks p |}.
Definition with_rows (rows : gmap key2 Row) (p : Phonebook) : Phonebook :=
  {| pb_rows := rows; pb_fault := pb_fault p; pb_stmts := pb_stmts p; pb_clock := pb_clock p; pb_ticks := pb_ticks p |}.

(** [time.Now()] *)
Definition pb_now : ST Phonebook Time := fun p =>
  (pb_clock p (pb_ticks p),
   {| pb_rows := pb_rows p; pb_fault := pb_fault p; pb_stmts := pb_stmts p; pb_clock := pb_clock p; pb_ticks := S (pb_ticks p) |}).

(** [db.Exec]: the statement fails without effect or changes the rows. *)
Definition exec (f : gmap key2 Row -> gmap key2 Row) : ST Phonebook (result PbError unit) := fun p =>
  if pb_fault p (pb_stmts p) then (Err ErrSql, tick_stmt p) else (Ok tt, with_rows (f (pb_rows p)) (tick_stmt p)).

(** [db.Query]: the statement fails or answers from the rows. *)
Definition query {A} (f : nat -> gmap key2 Row -> result PbError A) : ST Phonebook (result PbError A) := fun p =>
  (if pb_fault p (pb_stmts p) then Err ErrSql else f (pb_stmts p) (pb_rows p), tick_stmt p).

(** [Open] on a database file with the given rows (none in a new file);
    [migrate] creates only what is missing. *)
Definition migrate : ST Phonebook (result PbError unit) := exec (fun rows => rows).
Definition Open (file : gmap key2 Row) (fault : nat -> bool) (clock : nat -> Time) : result PbError Phonebook :=
  let p := {| pb_rows := file; pb_fault := fault; pb_stmts := 0; pb_clock := clock; pb_ticks := 0 |} in
  match migrate p with (Ok _, p) => Ok p | (Err e, _) => Err e end.

(** [Close]: every later statement fails. *)
Definition pb_Close (p : Phonebook) : Phonebook :=
  {| pb_rows := pb_rows p; pb_fault := fun _ => true; pb_stmts := pb_stmts p; pb_clock := pb_clock p; pb_ticks := pb_ticks p |}.

Definition boolToInt (b : bool) : Z := if b then 1 else 0.

(** Integer columns hold 64 bits; [x + 1] at the maximum is the REAL 2^63,
    which further increments leave unchanged and which does not scan into an
    integer. *)
Definition sql_incr (z : Z) : Z := Z.min (2 ^ 63) (z + 1).
Definition scan_int (z : Z) : result PbError Z := if z =? 2 ^ 63 then Err ErrScan else Ok z.

Section Sqlite.
Context `{SqliteReal} `{SqlOrder} `{PbJson}.

(** [CAST(a AS REAL) / CAST(b AS REAL)]: division by zero is NULL. *)
Definition sql_rate (a b : Z) : option f64 :=
  if f64_eq (f64_of_Z b) (f64_zero false) then None else bind_real (f64_div (f64_of_Z a) (f64_of_Z b)).

(** [scanEntry] on a row found; [scanEntries] scans each row the same way. *)
Definition scanEntry (r : Row) : result PbError Entry :=
  let i := c_info r in let c := c_conn r in let h := c_health r in
  match scan_int (c_conn_attempts c), scan_int (c_conn_success c), c_success_rate c,
        scan_int (c_consec_fails c), c_reliability_score h with
  | Ok attempts, Ok success, Some rate, Ok fails, Some score =>
      Ok {| e_NodeID := c_node_id r; e_ClusterPath := c_cluster_path r;
            e_PublicKey := c_public_key i; e_Addresses := unmarshal_addresses (c_addresses i);
            e_Region := c_region i; e_Datacenter := c_datacenter i;
            e_Capabilities := if c_capabilities i =s "" then None else Some (unmarshal_capabilities (c_capabilities i));
            e_FirstSeen := of_UnixMilli (c_first_seen i); e_LastSeen := of_UnixMilli (c_last_seen c);
            e_LastConnected := of_UnixMilli (c_last_connected c); e_UpdatedAt := of_UnixMilli (c_updated_at r);
            e_ConnectionAttempts := attempts; e_ConnectionSuccess := success; e_SuccessRate := rate;
            e_ConsecutiveFails := fails;
            e_ReliabilityScore := score; e_LastProbeTime := of_UnixMilli (c_last_probe_time h);
            e_LastProbeSuccess := c_last_probe_success h =? 1; e_Status := c_status h;
            e_IsConnected := c_is_connected c =? 1 |}
  | _, _, _, _, _ => Err ErrScan
  end.

Fixpoint scanEntries (rows : list Row) : result PbError (list Entry) :=
  match rows with
  | [] => Ok []
  | r :: rows =>
      match scanEntry r with
      | Err e => Err e
      | Ok entry => match scanEntries rows with Err e => Err e | Ok entries => Ok (entry :: entries) end
      end
  end.

(** *** Queries *)

Definition Get (nodeID clusterPath : string) : ST Phonebook (result PbError (option Entry)) :=
  query (fun _ rows => match rows !! (nodeID, clusterPath) with
                       | None => Ok None
                       | Some r => match scanEntry r with Ok e => Ok (Some e) | Err err => Err err end
                       end).

Definition Exists (nodeID clusterPath : string) : ST Phonebook (result PbError bool) :=
  query (fun _ rows => Ok (bool_decide (is_Some (rows !! (nodeID, clusterPath))))).

Definition select (where_ : Row -> bool) (n : nat) (rows : gmap key2 Row) : list Row := List.filter where_ (scan_order n rows).

Definition GetByCluster (clusterPath : string) : ST Phonebook (result PbError (list Entry)) :=
  query (fun n rows => scanEntries (select (fun r => c_cluster_path r =s clusterPath) n rows)).

Definition GetByNode (nodeID : string) : ST Phonebook (result PbError (list Entry)) :=
  query (fun n rows => scanEntries (select (fun r => c_node_id r =s nodeID) n rows)).

(** [ORDER BY success_rate DESC, last_seen DESC]; NULL is less than any
    number. *)
Definition rate_lt (a b : option f64) : bool :=
  match a, b with Some x, Some y => f64_lt x y | None, Some _ => true | _, None => false end.
Definition ranks_before (a b : Row) : bool :=
  let ra := c_success_rate (c_conn a) in let rb := c_success_rate (c_conn b) in
  if rate_lt rb ra then true else if rate_lt ra rb then false
  else c_last_seen (c_conn b) <=? c_last_seen (c_conn a).

(** [LIMIT n]: a negative limit is none. *)
Definition sql_limit {A} (n : Z) (l : list A) : list A := if n <? 0 then l else take (Z.to_nat n) l.

Definition best_rows (clusterPath : string) (limit : Z) (n : nat) (rows : gmap key2 Row) : list Row :=
  sql_limit limit (merge_sort (fun a b => Is_true (ranks_before a b))
    (select (fun r => (c_cluster_path r =s clusterPath) && (c_status (c_health r) =s "active")) n rows)).

Definition GetBestPeers (clusterPath : string) (limit : Z) : ST Phonebook (result PbError (list Entry)) :=
  query (fun n rows => scanEntries (best_rows clusterPath limit n rows)).

Definition GetByStatus (clusterPath : string) (status : NodeStatus) : ST Phonebook (result PbError (list Entry)) :=
  query (fun n rows => scanEntries (select (fun r => (c_cluster_path r =s clusterPath) && (c_status (c_health r) =s status)) n rows)).

Definition count_where (where_ : Row -> bool) (rows : gmap key2 Row) : Z :=
  Z.of_nat (size (filter (fun kr => where_ kr.2 = true) rows)).

Definition Count : ST Phonebook (result PbError Z) := query (fun _ rows => Ok (count_where (fun _ => true) rows)).
Definition CountByCluster (clusterPath : string) : ST Phonebook (result PbError Z) :=
  query (fun _ rows => Ok (count_where (fun r => c_cluster_path r =s clusterPath) rows)).

(** *** Mutations *)

(** The JSON columns of an entry. *)
Definition json_cols (e : Entry) : option (string * string) :=
  addrsJSON ← marshal_addresses (e_Addresses e);
  capsJSON ← match e_Capabilities e with Some c => marshal_capabilities c | None => Some "" end;
  Some (addrsJSON, capsJSON).

(** The columns both statements write. *)
Definition conn_cols (e : Entry) (lastSeen : Z) : ConnCols :=
  {| c_last_seen := lastSeen; c_last_connected := UnixMilli (e_LastConnected e);
     c_conn_attempts := e_ConnectionAttempts e; c_conn_success := e_ConnectionSuccess e;
     c_success_rate := bind_real (e_SuccessRate e); c_consec_fails := e_ConsecutiveFails e;
     c_is_connected := boolToInt (e_IsConnected e) |}.
Definition health_cols (e : Entry) (status : string) : HealthCols :=
  {| c_reliability_score := bind_real (e_ReliabilityScore e); c_last_probe_time := UnixMilli (e_LastProbeTime e);
     c_last_probe_success := boolToInt (e_LastProbeSuccess e); c_status := status |}.
Definition info_cols (e : Entry) (addrs caps : string) (firstSeen : Z) : InfoCols :=
  {| c_public_key := e_PublicKey e; c_addresses := addrs; c_region := e_Region e; c_datacenter := e_Datacenter e;
     c_capabilities := caps; c_first_seen := firstSeen |}.

Definition Add (e : Entry) : ST Phonebook (result PbError unit) := fun p =>
  match json_cols e with
  | None => (Err ErrJson, p)
  | Some (addrs, caps) =>
      let '(now, p) := pb_now p in
      let now := UnixMilli now in
      let firstSeen := if UnixMilli (e_FirstSeen e) =? 0 then now else UnixMilli (e_FirstSeen e) in
      let lastSeen := if UnixMilli (e_LastSeen e) =? 0 then now else UnixMilli (e_LastSeen e) in
      let status := if e_Status e =s "" then nodeStatusActive else e_Status e in
      let row := {| c_node_id := e_NodeID e; c_cluster_path := e_ClusterPath e;
                    c_info := info_cols e addrs caps firstSeen; c_conn := conn_cols e lastSeen;
                    c_health := health_cols e status; c_updated_at := now |} in
      match pb_rows p !! e_key e with
      | Some _ => (Err ErrConflict, tick_stmt p)
      | None => exec (insert (e_key e) row) p
      end
  end.

(** [UPDATE phonebook SET ... WHERE node_id = ? AND cluster_path = ?] *)
Definition update_row (nodeID clusterPath : string) (f : Row -> Row) : ST Phonebook (result PbError unit) :=
  exec (alter f (nodeID, clusterPath)).

Definition with_conn (now : Z) (c : ConnCols) (r : Row) : Row :=
  {| c_node_id := c_node_id r; c_cluster_path := c_cluster_path r; c_info := c_info r; c_conn := c;
     c_health := c_health r; c_updated_at := now |}.
Definition with_health (now : Z) (h : HealthCols) (r : Row) : Row :=
  {| c_node_id := c_node_id r; c_cluster_path := c_cluster_path r; c_info := c_info r; c_conn := c_conn r;
     c_health := h; c_updated_at := now |}.

Definition Update (e : Entry) : ST Phonebook (result PbError unit) := fun p =>
  match json_cols e with
  | None => (Err ErrJson, p)
  | Some (addrs, caps) =>
      let '(now, p) := pb_now p in
      update_row (e_NodeID e) (e_ClusterPath e)
        (fun r => {| c_node_id := c_node_id r; c_cluster_path := c_cluster_path r;
                     c_info := info_cols e addrs caps (c_first_seen (c_info r));
                     c_conn := conn_cols e (UnixMilli (e_LastSeen e));
                     c_health := health_cols e (e_Status e); c_updated_at := UnixMilli now |}) p
  end.

Definition Remove (nodeID clusterPath : string) : ST Phonebook (result PbError unit) := exec (delete (nodeID, clusterPath)).
Definition RemoveAllForNode (nodeID : string) : ST Phonebook (result PbError unit) :=
  exec (filter (fun kr => (c_node_id kr.2 =s nodeID) = false)).

Definition attempt_cols (success : bool) (now : Z) (c : ConnCols) : ConnCols :=
  if success then
    {| c_last_seen := now; c_last_connected := now; c_conn_attempts := sql_incr (c_conn_attempts c);
       c_conn_success := sql_incr (c_conn_success c);
       c_success_rate := sql_rate (sql_incr (c_conn_success c)) (sql_incr (c_conn_attempts c));
       c_consec_fails := 0; c_is_connected := 1 |}
  else
    {| c_last_seen := c_last_seen c; c_last_connected := c_last_connected c;
       c_conn_attempts := sql_incr (c_conn_attempts c); c_conn_success := c_conn_success c;
       c_success_rate := sql_rate (c_conn_success c) (sql_incr (c_conn_attempts c));
       c_consec_fails := sql_incr (c_consec_fails c); c_is_connected := c_is_connected c |}.

Definition RecordConnectionAttempt (nodeID clusterPath : string) (success : bool) : ST Phonebook (result PbError unit) := fun p =>
  let '(now, p) := pb_now p in
  update_row nodeID clusterPath (fun r => with_conn (UnixMilli now) (attempt_cols success (UnixMilli now) (c_conn r)) r) p.

Definition disconnect_cols (now : Z) (c : ConnCols) : ConnCols :=
  {| c_last_seen := now; c_last_connected := c_last_connected c; c_conn_attempts := c_conn_attempts c;
     c_conn_success := c_conn_success c; c_success_rate := c_success_rate c; c_consec_fails := c_consec_fails c;
     c_is_connected := 0 |}.

Definition RecordDisconnect (nodeID clusterPath : string) : ST Phonebook (result PbError unit) := fun p =>
  let '(now, p) := pb_now p in
  update_row nodeID clusterPath (fun r => with_conn (UnixMilli now) (disconnect_cols (UnixMilli now) (c_conn r)) r) p.

Definition score_cols (score : f64) (h : HealthCols) : HealthCols :=
  {| c_reliability_score := bind_real score; c_last_probe_time := c_last_probe_time h;
     c_last_probe_success := c_last_probe_success h; c_status := c_status h |}.
Definition status_cols (status : string) (h : HealthCols) : HealthCols :=
  {| c_reliability_score := c_reliability_score h; c_last_probe_time := c_last_probe_time h;
     c_last_probe_success := c_last_probe_success h; c_status := status |}.
Definition probe_cols (success : bool) (now : Z) (h : HealthCols) : HealthCols :=
  {| c_reliability_score := c_reliability_score h; c_last_probe_time := now;
     c_last_probe_success := boolToInt success; c_status := c_status h |}.

(** An UPDATE of health columns. *)
Definition update_health (nodeID clusterPath : string) (f : Z -> HealthCols -> HealthCols) : ST Phonebook (result PbError unit) := fun p =>
  let '(now, p) := pb_now p in
  update_row nodeID clusterPath (fun r => with_health (UnixMilli now) (f (UnixMilli now) (c_health r)) r) p.

Definition SetReliabilityScore (nodeID clusterPath : string) (score : f64) : ST Phonebook (result PbError unit) :=
  update_health nodeID clusterPath (fun _ => score_cols score).
Definition SetStatus (nodeID clusterPath : string) (status : NodeStatus) : ST Phonebook (result PbError unit) :=
  update_health nodeID clusterPath (fun _ => status_cols status).
Definition RecordProbe (nodeID clusterPath : string) (success : bool) : ST Phonebook (result PbError unit) :=
  update_health nodeID clusterPath (probe_cols success).

Definition prunable (cutoff maxFails : Z) (r : Row) : bool :=
  (c_last_seen (c_conn r) <? cutoff) && (maxFails <? c_consec_fails (c_conn r)).

Definition Prune (maxAge : Duration) (maxConsecutiveFails : Z) : ST Phonebook (result PbError Z) := fun p =>
  let '(now, p) := pb_now p in
  let cutoff := UnixMilli (time_Add now (int64 (- maxAge))) in
  let count := count_where (prunable cutoff maxConsecutiveFails) (pb_rows p) in
  match exec (filter (fun kr => prunable cutoff maxConsecutiveFails kr.2 = false)) p with
  | (Err e, p) => (Err e, p)
  | (Ok _, p) => (Ok count, p)
  end.

(** [*Phonebook] implements [IPhonebook]. *)
#[export] Instance sqlite_phonebook : IPhonebook := {|
  PB := Phonebook; pb_Get := Get; pb_Exists := Exists; pb_GetByCluster := GetByCluster; pb_GetByNode := GetByNode;
  pb_GetBestPeers := GetBestPeers; pb_Add := Add; pb_Update := Update; pb_Remove := Remove;
  pb_RemoveAllForNode := RemoveAllForNode; pb_RecordConnectionAttempt := RecordConnectionAttempt;
  pb_RecordDisconnect := RecordDisconnect; pb_SetReliabilityScore := SetReliabilityScore; pb_SetStatus := SetStatus;
  pb_GetByStatus := GetByStatus; pb_RecordProbe := RecordProbe; pb_Prune := Prune; pb_Count := Count;
  pb_CountByCluster := CountByCluster |}.

End Sqlite.

(** ** The subscriber: [subscriber.go] *)

Module Import subscriber.

(** [events.Capabilities] and the membership events of [events.go]. *)
Record EvCapabilities := {
  ec_CPUCores : Z; ec_MemoryMB : Z; ec_DiskGB : Z; ec_Datacenter : string; ec_Tags : list string;
  ec_Metadata : option (gmap string string)
}.
Record MemberInfo := {
  mi_NodeID : string; mi_Addresses : list string; mi_PublicKey : list ascii; mi_Capabilities : option EvCapabilities
}.
Inductive MemberEvent :=
  | NewMemberAnnounced (clusterPath : string) (m : MemberInfo)
  | NewMemberReceived (clusterPath : string) (m : MemberInfo)
  | ClusterMembersReceived (clusterPath : string) (members : list MemberInfo).

Section Subscriber.
Context `{IPhonebook}.

Definition caps_of (c : EvCapabilities) : Capabilities :=
  {| cap_CPUCores := ec_CPUCores c; cap_MemoryMB := ec_MemoryMB c; cap_DiskGB := ec_DiskGB c;
     cap_Datacenter := ec_Datacenter c; cap_Tags := ec_Tags c; cap_Metadata := ec_Metadata c |}.

(** The entry built for a member; the two readings of the clock are arguments. *)
Definition member_entry (now1 now2 : Time) (clusterPath : string) (m : MemberInfo) : Entry :=
  let cp := match ParseClusterPath clusterPath with Ok cp => cp | Err _ => empty_path end in
  {| e_NodeID := mi_NodeID m; e_ClusterPath := clusterPath; e_PublicKey := mi_PublicKey m; e_Addresses := mi_Addresses m;
     e_Region := cp_Region cp; e_Datacenter := cp_Datacenter cp; e_Capabilities := caps_of <$> mi_Capabilities m;
     e_FirstSeen := now1; e_LastSeen := now2; e_LastConnected := zero_time; e_UpdatedAt := zero_time;
     e_ConnectionAttempts := 0; e_ConnectionSuccess := 0; e_SuccessRate := f64_zero false; e_ConsecutiveFails := 0;
     e_ReliabilityScore := f64_zero false; e_LastProbeTime := zero_time; e_LastProbeSuccess := false;
     e_Status := nodeStatusActive; e_IsConnected := false |}.

(** An error of [Exists] is ignored, and counts as absence; errors of the
    writes are logged. *)
Definition addOrUpdateEntry (now1 now2 : Time) (clusterPath : string) (m : MemberInfo) : ST PB unit := fun p =>
  let entry := member_entry now1 now2 clusterPath m in
  let '(r, p) := pb_Exists (mi_NodeID m) clusterPath p in
  let exists_ := match r with Ok b => b | Err _ => false end in
  (tt, snd ((if exists_ : bool then pb_Update entry else pb_Add entry) p)).

(** The handlers of the three event channels; [now i] are the two clock
    readings for the i-th member. *)
Definition onMemberEvent (now : nat -> Time * Time) (ev : MemberEvent) : ST PB unit := fun p =>
  match ev with
  | NewMemberAnnounced c m | NewMemberReceived c m => addOrUpdateEntry (now O).1 (now O).2 c m p
  | ClusterMembersReceived c ms =>
      (tt, fold_left (fun p im => snd (addOrUpdateEntry (now im.1).1 (now im.1).2 c im.2 p)) (zip (seq 0 (length ms)) ms) p)
  end.

End Subscriber.
End subscriber.

(** ** What the phonebook promises to its clients

    [members] is the table as entries.  While no statement fails and every
    row scans ([sound]), queries answer from [members] and mutations change
    exactly the entry they name. *)

Definition with_score (score : f64) (at_ : Time) (e : Entry) : Entry :=
  {| e_NodeID := e_NodeID e; e_ClusterPath := e_ClusterPath e; e_PublicKey := e_PublicKey e; e_Addresses := e_Addresses e;
     e_Region := e_Region e; e_Datacenter := e_Datacenter e; e_Capabilities := e_Capabilities e;
     e_FirstSeen := e_FirstSeen e; e_LastSeen := e_LastSeen e; e_LastConnected := e_LastConnected e; e_UpdatedAt := at_;
     e_ConnectionAttempts := e_ConnectionAttempts e; e_ConnectionSuccess := e_ConnectionSuccess e;
     e_SuccessRate := e_SuccessRate e; e_ConsecutiveFails := e_ConsecutiveFails e; e_ReliabilityScore := score;
     e_LastProbeTime := e_LastProbeTime e; e_LastProbeSuccess := e_LastProbeSuccess e; e_Status := e_Status e;
     e_IsConnected := e_IsConnected e |}.
Definition with_status (status : NodeStatus) (at_ : Time) (e : Entry) : Entry :=
  {| e_NodeID := e_NodeID e; e_ClusterPath := e_ClusterPath e; e_PublicKey := e_PublicKey e; e_Addresses := e_Addresses e;
     e_Region := e_Region e; e_Datacenter := e_Datacenter e; e_Capabilities := e_Capabilities e;
     e_FirstSeen := e_FirstSeen e; e_LastSeen := e_LastSeen e; e_LastConnected := e_LastConnected e; e_UpdatedAt := at_;
     e_ConnectionAttempts := e_ConnectionAttempts e; e_ConnectionSuccess := e_ConnectionSuccess e;
     e_SuccessRate := e_SuccessRate e; e_ConsecutiveFails := e_ConsecutiveFails e;
     e_ReliabilityScore := e_ReliabilityScore e; e_LastProbeTime := e_LastProbeTime e;
     e_LastProbeSuccess := e_LastProbeSuccess e; e_Status := status; e_IsConnected := e_IsConnected e |}.

(** A value that SQLite stores as it is. *)
Definition storable (x : f64) : Prop := number x /\ forall e, x <> Fin true 0 e.

Class IPhonebookLaws (I : IPhonebook) := {
  sound : PB -> Prop;
  members : PB -> gmap key2 Entry;
  members_key : forall p k e, sound p -> members p !! k = Some e -> e_key e = k;
  Get_law : forall n c p, sound p -> exists p',
    pb_Get n c p = (Ok (members p !! (n, c)), p') /\ sound p' /\ members p' = members p;
  GetByCluster_law : forall c p, sound p -> exists l p',
    pb_GetByCluster c p = (Ok l, p') /\ sound p' /\ members p' = members p /\
    l ≡ₚ (map_to_list (filter (fun ke => e_ClusterPath ke.2 = c) (members p))).*2;
  GetByStatus_law : forall c st p, sound p -> exists l p',
    pb_GetByStatus c st p = (Ok l, p') /\ sound p' /\ members p' = members p /\
    l ≡ₚ (map_to_list (filter (fun ke => e_ClusterPath ke.2 = c /\ e_Status ke.2 = st) (members p))).*2;
  SetReliabilityScore_law : forall n c x p, sound p -> storable x -> exists p' at_,
    pb_SetReliabilityScore n c x p = (Ok tt, p') /\ sound p' /\ members p' = alter (with_score x at_) (n, c) (members p);
  SetStatus_law : forall n c st p, sound p -> exists p' at_,
    pb_SetStatus n c st p = (Ok tt, p') /\ sound p' /\ members p' = alter (with_status st at_) (n, c) (members p);
  Remove_law : forall n c p, sound p -> exists p',
    pb_Remove n c p = (Ok tt, p') /\ sound p' /\ members p' = delete (n, c) (members p)
}.

(** ** The table is kept well formed *)

Section Laws.
Context `{R : SqliteReal} `{O : SqlOrder} `{J : PbJson}.

Definition stored_number (x : option f64) : Prop := match x with Some x => number x | None => True end.

Definition counter_ok (z : Z) : Prop := min_int64 <= z <= 2 ^ 63.
Definition flag_ok (z : Z) : Prop := z = 0 \/ z = 1.

(** Every column holds a value of its type. *)
Record conn_ok (c : ConnCols) : Prop := {
  conn_rate : stored_number (c_success_rate c);
  conn_counters : counter_ok (c_conn_attempts c) /\ counter_ok (c_conn_success c) /\ counter_ok (c_consec_fails c);
  conn_flag : flag_ok (c_is_connected c)
}.
Record health_ok (h : HealthCols) : Prop := {
  health_score : stored_number (c_reliability_score h);
  health_flag : flag_ok (c_last_probe_success h)
}.
Record row_ok (k : key2) (r : Row) : Prop := {
  row_key : (c_node_id r, c_cluster_path r) = k;
  row_conn : conn_ok (c_conn r);
  row_health : health_ok (c_health r)
}.
Definition rows_ok (rows : gmap key2 Row) : Prop := map_Forall row_ok rows.

Lemma number_zero s : number (f64_zero s).
Proof. apply finite_number, f64_zero_finite. Qed.

Lemma bind_real_stored x : f64_wf x -> stored_number (bind_real x).
Proof.
  intros Hx. destruct (nan_or_number x Hx) as [->|Hn]; [by rewrite bind_nan|].
  assert (Hd : (exists e, x = Fin true 0 e) \/ forall e, x <> Fin true 0 e).
  { destruct x as [|s|[] [|m|m] e]; try (right; intros e'; congruence). left. eauto. }
  destruct Hd as [[e ->]|Hz]; [|by rewrite bind_number].
  destruct (bind_negative_zero e) as [s ->]. apply number_zero.
Qed.

Lemma sql_rate_stored a b : stored_number (sql_rate a b).
Proof. unfold sql_rate. case_match; [done|]. apply bind_real_stored, f64_div_wf; apply f64_of_Z_wf. Qed.

(** An entry whose fields are values of their Go types. *)
Definition entry_wf (e : Entry) : Prop :=
  f64_wf (e_SuccessRate e) /\ f64_wf (e_ReliabilityScore e) /\
  in_int64 (e_ConnectionAttempts e) /\ in_int64 (e_ConnectionSuccess e) /\ in_int64 (e_ConsecutiveFails e).

Lemma int_counter z : in_int64 z -> counter_ok z.
Proof. unfold in_int64, counter_ok, max_int64. lia. Qed.

Lemma incr_counter z : counter_ok z -> counter_ok (sql_incr z).
Proof. unfold counter_ok, sql_incr, min_int64. lia. Qed.

Lemma bool_flag b : flag_ok (boolToInt b).
Proof. destruct b; [by right|by left]. Qed.

Lemma conn_cols_ok e t : entry_wf e -> conn_ok (conn_cols e t).
Proof.
  intros (H1 & _ & H2 & H3 & H4). split; [by apply bind_real_stored|split_and!; by apply int_counter|apply bool_flag].
Qed.

Lemma health_cols_ok e st : entry_wf e -> health_ok (health_cols e st).
Proof. intros (_ & H & _). split; [by apply bind_real_stored|apply bool_flag]. Qed.

Lemma attempt_cols_ok b now c : conn_ok c -> conn_ok (attempt_cols b now c).
Proof.
  intros [_ (H1 & H2 & H3) H4]. assert (counter_ok 0) by (unfold counter_ok, min_int64; lia).
  destruct b; split; simpl; try apply sql_rate_stored; try (by right); try done; split_and!; by repeat apply incr_counter.
Qed.

Lemma exec_ok f p : (forall rows, rows_ok rows -> rows_ok (f rows)) -> rows_ok (pb_rows p) -> rows_ok (pb_rows (snd (exec f p))).
Proof. intros Hf Hp. unfold exec. destruct (pb_fault p (pb_stmts p)); simpl; auto. Qed.

Lemma alter_rows_ok f k rows :
  (forall r, row_ok k r -> row_ok k (f r)) -> rows_ok rows -> rows_ok (alter f k rows).
Proof.
  intros Hf Hr k' r'. rewrite lookup_alter. destruct (decide (k = k')) as [<-|]; [|apply Hr].
  destruct (rows !! k) as [r|] eqn:E; [|done]. intros [= <-]. apply Hf, Hr, E.
Qed.

Lemma filter_rows_ok (P : key2 * Row -> Prop) `{!forall x, Decision (P x)} rows : rows_ok rows -> rows_ok (filter P rows).
Proof. intros Hr k r [Hk _]%map_lookup_filter_Some. by apply Hr. Qed.

Lemma update_health_ok n c f p :
  (forall now h, health_ok h -> health_ok (f now h)) ->
  rows_ok (pb_rows p) -> rows_ok (pb_rows (snd (update_health n c f p))).
Proof.
  intros Hf Hp. unfold update_health, pb_now. cbn zeta beta iota. apply exec_ok; [|done].
  intros rows. apply alter_rows_ok. intros r [? ? ?]. split; simpl; auto.
Qed.

Inductive pb_op :=
  | PAdd (e : Entry) | PUpdate (e : Entry) | PRemove (n c : string) | PRemoveAll (n : string)
  | PAttempt (n c : string) (success : bool) | PDisconnect (n c : string)
  | PScore (n c : string) (x : f64) | PStatus (n c : string) (st : NodeStatus) | PProbe (n c : string) (success : bool)
  | PPrune (maxAge : Duration) (maxFails : Z).

Definition pb_step (p : Phonebook) (o : pb_op) : Phonebook :=
  match o with
  | PAdd e => snd (Add e p)
  | PUpdate e => snd (Update e p)
  | PRemove n c => snd (Remove n c p)
  | PRemoveAll n => snd (RemoveAllForNode n p)
  | PAttempt n c b => snd (RecordConnectionAttempt n c b p)
  | PDisconnect n c => snd (RecordDisconnect n c p)
  | PScore n c x => snd (SetReliabilityScore n c x p)
  | PStatus n c st => snd (SetStatus n c st p)
  | PProbe n c b => snd (RecordProbe n c b p)
  | PPrune age fails => snd (Prune age fails p)
  end.

Definition op_wf (o : pb_op) : Prop :=
  match o with PAdd e | PUpdate e => entry_wf e | PScore _ _ x => f64_wf x | _ => True end.

Lemma pb_step_rows_ok p o : op_wf o -> rows_ok (pb_rows p) -> rows_ok (pb_rows (pb_step p o)).
Proof.
  destruct o as [e|e|n c|n|n c b|n c|n c x|n c st|n c b|age fails]; simpl; intros Ho Hp.
  - unfold Add. destruct (json_cols e) as [[addrs caps]|]; [|done]. unfold pb_now. cbn zeta beta iota. simpl.
    destruct (pb_rows p !! e_key e) eqn:E; [done|]. apply exec_ok; [|done]. intros rows Hr.
    apply map_Forall_insert_2; [|done]. split; [done|by apply conn_cols_ok|by apply health_cols_ok].
  - unfold Update. destruct (json_cols e) as [[addrs caps]|]; [|done]. unfold pb_now. cbn zeta beta iota.
    apply exec_ok; [|done]. intros rows. apply alter_rows_ok. intros r [? ? ?].
    split; [done|by apply conn_cols_ok|by apply health_cols_ok].
  - apply exec_ok; [|done]. intros rows. apply map_Forall_delete.
  - apply exec_ok; [|done]. intros rows. apply filter_rows_ok.
  - unfold RecordConnectionAttempt, pb_now. cbn zeta beta iota. apply exec_ok; [|done]. intros rows. apply alter_rows_ok.
    intros r [? ? ?]. split; [done|by apply attempt_cols_ok|done].
  - unfold RecordDisconnect, pb_now. cbn zeta beta iota. apply exec_ok; [|done]. intros rows. apply alter_rows_ok.
    intros r [? [? ? ?] ?]. split; [done|split; [done..|by left]|done].
  - apply update_health_ok; [|done]. intros _ h [? ?]. split; [by apply bind_real_stored|done].
  - apply update_health_ok; [|done]. by intros _ h [? ?].
  - apply update_health_ok; [|done]. intros t h [? ?]. split; [done|apply bool_flag].
  - unfold Prune, pb_now. cbn zeta beta iota. set (q := {| pb_rows := _ |}).
    assert (Hq : rows_ok (pb_rows (snd (exec (filter (fun kr =>
      prunable (UnixMilli (time_Add (pb_clock p (pb_ticks p)) (int64 (- age)))) fails kr.2 = false)) q))))
      by (apply exec_ok; [intros rows; apply filter_rows_ok|done]).
    destruct (exec _ q) as [[]]; done.
Qed.

(** Whatever happens to the table, with failing statements, NaN
    scores and counters at their limit included, each row is stored under its
    own key, its reals are numbers or NULL, its counters fit 64 bits or are
    the REAL 2^63, and its flags are 0 or 1. *)
Theorem phonebook_rows_typed ops p (Hops : Forall op_wf ops) (Hp : rows_ok (pb_rows p)) : rows_ok (pb_rows (fold_left pb_step ops p)).
Proof.
  revert p Hp. induction Hops as [|o ops Ho _ IH]; intros p Hp; [done|]. simpl. apply IH. by apply pb_step_rows_ok.
Qed.

(** *** Values without a sign *)

Definition unsigned (x : f64) : Prop := match x with Fin s _ _ | Inf s => s = false | NaN => False end.

Lemma unsigned_storable x : number x -> unsigned x -> storable x.
Proof. intros Hn Hu. split; [done|]. intros e ->. by simpl in Hu. Qed.

Lemma round_unsigned n d x : unsigned (f64_round false n d x).
Proof. unfold f64_round. cbv zeta. by repeat case_match. Qed.

Lemma round_Z_unsigned n x : 0 <= n -> unsigned (f64_round_Z false n x).
Proof.
  intros Hn. unfold f64_round_Z. destruct (Z.eqb_spec n 0); [done|].
  destruct (Z.ltb_spec n 0); [lia|]. apply round_unsigned.
Qed.

Lemma of_Z_unsigned i : 0 <= i -> unsigned (f64_of_Z i).
Proof. apply round_Z_unsigned. Qed.

Lemma add_unsigned x y : f64_wf x -> f64_wf y -> unsigned x -> unsigned y -> unsigned (f64_add x y).
Proof.
  destruct x as [|s|s m e], y as [|t|t n f]; simpl; try done; intros Hx Hy; intros; subst; [done..|].
  destruct (n =? 0); [by destruct (m =? 0)|]. destruct (m =? 0); [done|]. apply round_Z_unsigned.
  apply Z.add_nonneg_nonneg; apply Z.mul_nonneg_nonneg; try lia; apply Z.pow_nonneg; lia.
Qed.

Lemma div_unsigned x y : finite x -> finite y -> unsigned x -> unsigned y -> 0 < key y -> unsigned (f64_div x y).
Proof.
  destruct x as [|s|s m e], y as [|t|t n f]; simpl; try done. intros Hx Hy -> -> Hk.
  destruct (Z.eqb_spec n 0) as [->|]; [simpl in Hk; lia|]. destruct (m =? 0); [done|]. apply round_unsigned.
Qed.

(** The rate of a positive number of attempts is their quotient. *)
Lemma sql_rate_value a b : 0 <= a <= 2 ^ 63 -> 0 < b <= 2 ^ 63 -> sql_rate a b = Some (f64_div (f64_of_Z a) (f64_of_Z b)).
Proof.
  intros Ha Hb. assert (Hbig : forall i, 0 <= i <= 2 ^ 63 -> finite (f64_of_Z i)).
  { intros i Hi. destruct (decide (i = 2 ^ 63)) as [->|Hne]; [by apply finiteb_finite|].
    apply finite_of_int64. unfold in_int64, min_int64, max_int64. lia. }
  pose proof (key_of_Z_pos b ltac:(lia)) as Hk. unfold sql_rate.
  rewrite f64_eq_spec by (apply finite_number; first [apply Hbig; lia|apply f64_zero_finite]).
  destruct (Z.eqb_spec (key (f64_of_Z b)) (key (f64_zero false))) as [E|_]; [change (key (f64_zero false)) with 0 in E; lia|].
  assert (Hs : storable (f64_div (f64_of_Z a) (f64_of_Z b))); [|destruct Hs; by apply bind_number].
  apply unsigned_storable.
  - apply f64_div_spec; [apply Hbig; lia..|done].
  - apply div_unsigned; [apply Hbig; lia..| | |done]; apply of_Z_unsigned; lia.
Qed.
(** *** The laws hold *)

Definition to_option {E A} (r : result E A) : option A := match r with Ok a => Some a | Err _ => None end.
Definition entry_of (r : Row) : option Entry := to_option (scanEntry r).

Definition pb_members (p : Phonebook) : gmap key2 Entry := omap entry_of (pb_rows p).

Record pb_sound (p : Phonebook) : Prop := {
  sound_stmts : forall n, (pb_stmts p <= n)%nat -> pb_fault p n = false;
  sound_rows : rows_ok (pb_rows p);
  sound_scan : forall k r, pb_rows p !! k = Some r -> is_Some (entry_of r)
}.

Lemma entry_of_key r e : entry_of r = Some e -> e_key e = (c_node_id r, c_cluster_path r).
Proof. unfold entry_of, scanEntry. repeat case_match; try done; by intros [= <-]. Qed.

Lemma entry_of_Some r e : entry_of r = Some e <-> scanEntry r = Ok e.
Proof. unfold entry_of. destruct (scanEntry r); simpl; naive_solver. Qed.

Lemma pb_members_key p k e : rows_ok (pb_rows p) -> pb_members p !! k = Some e -> e_key e = k.
Proof.
  intros Hr. unfold pb_members. rewrite lookup_omap. destruct (pb_rows p !! k) as [r|] eqn:E; [|done]. simpl.
  intros ->%entry_of_key. apply (row_key _ _ (Hr _ _ E)).
Qed.

Lemma exec_sound f p :
  pb_sound p -> rows_ok (f (pb_rows p)) -> (forall k r, f (pb_rows p) !! k = Some r -> is_Some (entry_of r)) ->
  exec f p = (Ok tt, with_rows (f (pb_rows p)) (tick_stmt p)) /\ pb_sound (with_rows (f (pb_rows p)) (tick_stmt p)).
Proof.
  intros [Hs Hr Hc] Hr' Hc'. unfold exec. rewrite Hs by lia. split; [done|]. split; [|done..].
  simpl. intros n Hn. apply Hs. lia.
Qed.

Lemma query_sound {A} (f : nat -> gmap key2 Row -> result PbError A) p :
  pb_sound p -> query f p = (f (pb_stmts p) (pb_rows p), tick_stmt p).
Proof. intros [Hs Hr Hc]. unfold query. by rewrite Hs by lia. Qed.

Lemma tick_sound p : pb_sound p -> pb_sound (tick_stmt p).
Proof. intros [Hs Hr Hc]. split; [|done..]. simpl. intros n Hn. apply Hs. lia. Qed.

Lemma pb_now_sound p t p' : pb_sound p -> pb_now p = (t, p') -> pb_sound p' /\ pb_rows p' = pb_rows p /\ pb_members p' = pb_members p.
Proof. intros [Hs Hr Hc] [= <- <-]. by split_and!. Qed.

(** An UPDATE that a function on entries describes. *)
Lemma update_row_sound n c f g p :
  pb_sound p -> (forall r, row_ok (n, c) r -> row_ok (n, c) (f r)) ->
  (forall r e, pb_rows p !! (n, c) = Some r -> entry_of r = Some e -> entry_of (f r) = Some (g e)) ->
  exists p', update_row n c f p = (Ok tt, p') /\ pb_sound p' /\ pb_members p' = alter g (n, c) (pb_members p).
Proof.
  intros Hs Hok Hg. destruct (exec_sound (alter f (n, c)) p Hs) as [E Hs'].
  - apply alter_rows_ok; [done|apply Hs].
  - intros k r. rewrite lookup_alter. destruct (decide ((n, c) = k)) as [<-|]; [|apply Hs].
    destruct (pb_rows p !! (n, c)) as [r0|] eqn:E; [|done]. intros [= <-].
    destruct (sound_scan _ Hs _ _ E) as [e He]. rewrite (Hg _ _ eq_refl He). eauto.
  - eexists. split; [exact E|]. split; [exact Hs'|]. apply map_eq. intros k. unfold pb_members; simpl.
    rewrite lookup_omap, !lookup_alter. destruct (decide ((n, c) = k)) as [<-|]; rewrite lookup_omap; [|done].
    destruct (pb_rows p !! (n, c)) as [r|] eqn:Er; [|done]. simpl.
    destruct (sound_scan _ Hs _ _ Er) as [e He]. by rewrite He, (Hg _ _ eq_refl He).
Qed.

Lemma scanEntries_omap rows : (forall r, r ∈ rows -> is_Some (entry_of r)) -> scanEntries rows = Ok (omap entry_of rows).
Proof.
  induction rows as [|r rows IH]; intros Hr; [done|]. destruct (Hr r) as [e He]; [by left|].
  cbn [scanEntries omap list_omap]. rewrite He. apply entry_of_Some in He as ->.
  by rewrite IH by (intros; apply Hr; by right).
Qed.

Definition pick (w : Row -> bool) (kr : key2 * Row) : option (key2 * Entry) :=
  if w kr.2 then pair kr.1 <$> entry_of kr.2 else None.

Lemma omap_pick w (l : list (key2 * Row)) : omap entry_of (List.filter w l.*2) = (omap (pick w) l).*2.
Proof.
  induction l as [|[k r] l IH]; [done|]. change ((k, r) :: l).*2 with (r :: l.*2).
  cbn [List.filter omap list_omap]. unfold pick at 1; cbn [snd fst]. destruct (w r); [|done].
  cbn [omap list_omap]. destruct (entry_of r); cbn [fmap option_fmap option_map]; [|done]. by rewrite fmap_cons, IH.
Qed.

Lemma pick_NoDup w (l : list (key2 * Row)) : NoDup l.*1 -> NoDup (omap (pick w) l).
Proof.
  induction l as [|[k r] l IH]; intros Hnd; [constructor|]. rewrite fmap_cons in Hnd. apply list.NoDup_cons in Hnd as [Hni Hnd].
  simpl. destruct (pick w (k, r)) as [[k' e]|] eqn:E; [|auto]. apply list.NoDup_cons. split; [|auto].
  unfold pick in E; simpl in E. destruct (w r); [|done]. destruct (entry_of r); [|done]. injection E as <- <-.
  intros ([k2 r2] & Hin & E2)%list_elem_of_omap. unfold pick in E2; simpl in E2. destruct (w r2); [|done].
  destruct (entry_of r2); [|done]. injection E2 as -> ->. apply Hni, list_elem_of_fmap. by exists (k, r2).
Qed.

Lemma list_filter_perm {A} (f : A -> bool) l k : l ≡ₚ k -> List.filter f l ≡ₚ List.filter f k.
Proof.
  induction 1 as [|x l k _ IH|x y l|l1 l2 l3 _ IH1 _ IH2]; simpl; [done| | |by rewrite IH1].
  - destruct (f x); by rewrite IH.
  - destruct (f x), (f y); try done. apply Permutation_swap.
Qed.

(** A query with a WHERE clause yields the members that satisfy it. *)
Lemma select_members (w : Row -> bool) (P : key2 * Entry -> Prop) `{!forall x, Decision (P x)} n p :
  pb_sound p -> (forall k r e, entry_of r = Some e -> w r = true <-> P (k, e)) ->
  exists l, scanEntries (select w n (pb_rows p)) = Ok l /\ l ≡ₚ (map_to_list (filter P (pb_members p))).*2.
Proof.
  intros Hs HP. exists (omap entry_of (select w n (pb_rows p))). split.
  - apply scanEntries_omap. intros r. unfold select. rewrite list_elem_of_In, filter_In, <- list_elem_of_In. intros [Hr _].
    rewrite scan_order_perm in Hr. apply list_elem_of_fmap in Hr as ([k r'] & -> & Hin%elem_of_map_to_list).
    by eapply (sound_scan _ Hs).
  - unfold select. assert (Hf : List.filter w (scan_order n (pb_rows p)) ≡ₚ List.filter w (map_to_list (pb_rows p)).*2)
      by (apply list_filter_perm, scan_order_perm).
    rewrite Hf, omap_pick. apply fmap_Permutation. apply NoDup_Permutation.
    + apply pick_NoDup, NoDup_fst_map_to_list.
    + apply NoDup_map_to_list.
    + intros [k e]. rewrite list_elem_of_omap, elem_of_map_to_list, map_lookup_filter_Some.
      unfold pb_members. rewrite lookup_omap. split.
      * intros ([k' r] & Hin%elem_of_map_to_list & E). unfold pick in E; simpl in E. destruct (w r) eqn:Ew; [|done].
        destruct (entry_of r) as [e'|] eqn:Ee; [|done]. injection E as -> ->. rewrite Hin. simpl. split; [done|]. by eapply HP.
      * intros [Hl HPe]. destruct (pb_rows p !! k) as [r|] eqn:Er; [|done]. simpl in Hl. exists (k, r).
        split; [by apply elem_of_map_to_list|]. unfold pick; simpl. rewrite (proj2 (HP k r e Hl) HPe). by rewrite Hl.
Qed.

Lemma update_health_sound n c f g p :
  pb_sound p ->
  (forall now h, health_ok h -> health_ok (f now h)) ->
  (forall now r e, entry_of r = Some e -> entry_of (with_health now (f now (c_health r)) r) = Some (g (of_UnixMilli now) e)) ->
  exists p' at_, update_health n c f p = (Ok tt, p') /\ pb_sound p' /\ pb_members p' = alter (g at_) (n, c) (pb_members p).
Proof.
  intros Hs Hf Hg. unfold update_health. destruct (pb_now p) as [t q] eqn:E.
  destruct (pb_now_sound _ _ _ Hs E) as (Hq & _ & Hm).
  destruct (update_row_sound n c (fun r => with_health (UnixMilli t) (f (UnixMilli t) (c_health r)) r)
              (g (of_UnixMilli (UnixMilli t))) q Hq) as (p' & E' & Hs' & Hm').
  - intros r [? ? ?]. split; simpl; auto.
  - intros r e _. apply Hg.
  - exists p', (of_UnixMilli (UnixMilli t)). by rewrite Hm', Hm.
Qed.

Lemma SetReliabilityScore_sound n c x p : pb_sound p -> storable x -> exists p' at_,
  SetReliabilityScore n c x p = (Ok tt, p') /\ pb_sound p' /\ pb_members p' = alter (with_score x at_) (n, c) (pb_members p).
Proof.
  intros Hs [Hx Hz]. apply update_health_sound; [done| |].
  - intros _ h [? ?]. split; [|done]. simpl. by rewrite bind_number.
  - intros now r e. unfold entry_of, scanEntry. simpl. rewrite bind_number by done.
    repeat case_match; try done; by intros [= <-].
Qed.

Lemma SetStatus_sound n c st p : pb_sound p -> exists p' at_,
  SetStatus n c st p = (Ok tt, p') /\ pb_sound p' /\ pb_members p' = alter (with_status st at_) (n, c) (pb_members p).
Proof.
  intros Hs. apply update_health_sound; [done|by intros _ h [? ?]|]. intros now r e. unfold entry_of, scanEntry. simpl.
  repeat case_match; try done; by intros [= <-].
Qed.

Lemma Get_sound n c p : pb_sound p -> Get n c p = (Ok (pb_members p !! (n, c)), tick_stmt p) /\ pb_sound (tick_stmt p).
Proof.
  intros Hs. unfold Get. rewrite query_sound by done. split; [|by apply tick_sound]. f_equal.
  unfold pb_members. rewrite lookup_omap. destruct (pb_rows p !! (n, c)) as [r|] eqn:E; [|done]. simpl.
  destruct (sound_scan _ Hs _ _ E) as [e He]. rewrite He. by apply entry_of_Some in He as ->.
Qed.

Lemma Remove_sound n c p : pb_sound p -> exists p',
  Remove n c p = (Ok tt, p') /\ pb_sound p' /\ pb_members p' = delete (n, c) (pb_members p).
Proof.
  intros Hs. destruct (exec_sound (delete (n, c)) p Hs) as [E Hs'].
  - apply map_Forall_delete, Hs.
  - intros k r [_ Hr]%lookup_delete_Some. by apply (sound_scan _ Hs k).
  - eexists. split; [exact E|]. split; [done|]. apply map_eq. intros k. unfold pb_members; simpl.
    rewrite lookup_omap, !lookup_delete, lookup_omap. by destruct (decide ((n, c) = k)).
Qed.

(** The SQLite table keeps the promises of [IPhonebook]. *)
#[export, refine] Instance sqlite_laws : IPhonebookLaws sqlite_phonebook :=
  {| sound := pb_sound : @PB sqlite_phonebook -> Prop; members := pb_members : @PB sqlite_phonebook -> _ |}.
Proof.
  - intros p k e Hs. apply pb_members_key, Hs.
  - intros n c p Hs. destruct (Get_sound n c p Hs) as [E Ht]. by exists (tick_stmt p).
  - intros c p Hs. edestruct (select_members (fun r => c_cluster_path r =s c) (fun ke => e_ClusterPath ke.2 = c) (pb_stmts p) p Hs)
      as (l & El & Hl).
    { intros k r e [= _ He]%entry_of_key. simpl. rewrite He. apply String.eqb_eq. }
    exists l, (tick_stmt p). simpl. unfold GetByCluster. rewrite query_sound by done. pose proof (tick_sound p Hs). by rewrite El.
  - intros c st p Hs.
    edestruct (select_members (fun r => (c_cluster_path r =s c) && (c_status (c_health r) =s st))
                 (fun ke => e_ClusterPath ke.2 = c /\ e_Status ke.2 = st) (pb_stmts p) p Hs) as (l & El & Hl).
    { intros k r e He. pose proof (entry_of_key _ _ He) as [= _ Hc]. simpl. rewrite andb_true_iff, !String.eqb_eq, Hc.
      assert (e_Status e = c_status (c_health r)) as ->; [|done].
      revert He. unfold entry_of, scanEntry. repeat case_match; try done; by intros [= <-]. }
    exists l, (tick_stmt p). simpl. unfold GetByStatus. rewrite query_sound by done. pose proof (tick_sound p Hs). by rewrite El.
  - exact SetReliabilityScore_sound.
  - exact SetStatus_sound.
  - exact Remove_sound.
Defined.

(** *** Best peers *)

Definition peer_better (a b : Entry) : bool :=
  if f64_lt (e_SuccessRate b) (e_SuccessRate a) then true
  else if f64_lt (e_SuccessRate a) (e_SuccessRate b) then false
  else e_LastSeen b <=? e_LastSeen a.

Definition scans (r : Row) (e : Entry) : Prop := scanEntry r = Ok e.

Lemma scanEntries_Forall2 rows l : Forall2 scans rows l -> scanEntries rows = Ok l.
Proof. induction 1 as [|r e rows l Hr _ IH]; [done|]. simpl. by rewrite Hr, IH. Qed.

Lemma scans_all rows : (forall r, r ∈ rows -> is_Some (entry_of r)) -> Forall2 scans rows (omap entry_of rows).
Proof.
  induction rows as [|r rows IH]; intros Hr; [constructor|]. destruct (Hr r) as [e He]; [by left|].
  cbn [omap list_omap]. rewrite He. constructor; [by apply entry_of_Some|]. apply IH. intros r' Hr'. apply Hr. by right.
Qed.

Lemma scans_rank r1 e1 r2 e2 : scans r1 e1 -> scans r2 e2 -> ranks_before r1 r2 = peer_better e1 e2.
Proof.
  unfold scans, scanEntry, ranks_before, peer_better.
  destruct (scan_int (c_conn_attempts (c_conn r1))), (scan_int (c_conn_success (c_conn r1))),
    (c_success_rate (c_conn r1)), (scan_int (c_consec_fails (c_conn r1))), (c_reliability_score (c_health r1)); try done.
  intros [= <-].
  destruct (scan_int (c_conn_attempts (c_conn r2))), (scan_int (c_conn_success (c_conn r2))),
    (c_success_rate (c_conn r2)), (scan_int (c_consec_fails (c_conn r2))), (c_reliability_score (c_health r2)); try done.
  intros [= <-]. simpl. destruct (f64_lt _ _); [done|]. destruct (f64_lt _ _); [done|].
  unfold of_UnixMilli, millisecond, microsecond. split_bools; lia.
Qed.

(** Rows with a rate SQLite can hold. *)
Definition rate_ok (r : Row) : Prop := stored_number (c_success_rate (c_conn r)).

Lemma ranks_before_total a b : ranks_before a b = true \/ ranks_before b a = true.
Proof.
  unfold ranks_before. destruct (rate_lt (c_success_rate (c_conn b)) (c_success_rate (c_conn a))),
    (rate_lt (c_success_rate (c_conn a)) (c_success_rate (c_conn b))); auto.
  destruct (Z.le_ge_cases (c_last_seen (c_conn b)) (c_last_seen (c_conn a))); [left|right]; by apply Z.leb_le.
Qed.

Definition rate_key (r : Row) : Z := match c_success_rate (c_conn r) with Some x => key x | None => - big - 1 end.

Lemma key_range x : number x -> - big <= key x <= big.
Proof.
  intros Hn. destruct x as [|s|s m e]; [by destruct Hn|..].
  - pose proof big_pos. unfold key. destruct s; unfold signed; lia.
  - pose proof (key_lt_big (Fin s m e) ltac:(by destruct Hn)). lia.
Qed.

Lemma rate_lt_key a b : rate_ok a -> rate_ok b -> rate_lt (c_success_rate (c_conn a)) (c_success_rate (c_conn b)) = (rate_key a <? rate_key b).
Proof.
  unfold rate_ok, rate_key. destruct (c_success_rate (c_conn a)) as [x|], (c_success_rate (c_conn b)) as [y|]; simpl; intros Ha Hb.
  - by rewrite f64_lt_spec.
  - pose proof (key_range _ Ha). symmetry. apply Z.ltb_ge. lia.
  - pose proof (key_range _ Hb). symmetry. apply Z.ltb_lt. lia.
  - by rewrite Z.ltb_irrefl.
Qed.

Lemma ranks_before_trans a b c :
  rate_ok a -> rate_ok b -> rate_ok c -> ranks_before a b = true -> ranks_before b c = true -> ranks_before a c = true.
Proof.
  intros Ha Hb Hc. unfold ranks_before. rewrite !rate_lt_key by done. split_bools; first [done|intros; first [done|exfalso; lia]].
Qed.

Lemma sort_strongly (rows : list Row) : Forall rate_ok rows ->
  StronglySorted (fun a b => Is_true (ranks_before a b)) (merge_sort (fun a b => Is_true (ranks_before a b)) rows).
Proof.
  intros Hok. set (Rk := fun a b => Is_true (ranks_before a b)).
  assert (Hok' : Forall rate_ok (merge_sort Rk rows)) by (by rewrite merge_sort_Permutation).
  assert (Hs : Sorted Rk (merge_sort Rk rows)).
  { apply Sorted_merge_sort. intros a b. unfold Rk. destruct (ranks_before_total a b) as [E|E]; [left|right]; by rewrite E. }
  induction Hs as [|a l Hs IH Hhd]; [constructor|]. inversion_clear Hok' as [|? ? Ha Hl]. specialize (IH Hl).
  constructor; [done|]. destruct Hhd as [|b l Hab]; [constructor|]. inversion_clear IH as [|? ? _ Hb].
  inversion_clear Hl as [|? ? Hbo Hlo]. constructor; [done|].
  rewrite list.Forall_forall in *. intros x Hx. unfold Rk in *. apply Is_true_true.
  eapply (ranks_before_trans a b x); [done|done|by apply Hlo|by apply Is_true_true..|]. apply Is_true_true. by apply Hb.
Qed.

Lemma sorted_scans rows l :
  Forall2 scans rows l -> StronglySorted (fun a b => Is_true (ranks_before a b)) rows ->
  StronglySorted (fun a b => peer_better a b = true) l.
Proof.
  induction 1 as [|r e rows l Hr Hrl IH]; intros Hs; [constructor|]. inversion_clear Hs as [|? ? Hs' Hf].
  constructor; [auto|]. clear IH Hs'. induction Hrl as [|r' e' rows l Hr' _ IH]; [constructor|].
  inversion_clear Hf as [|? ? H1 H2]. constructor; [|auto]. rewrite <- (scans_rank _ _ _ _ Hr Hr'). by apply Is_true_true.
Qed.

Lemma limit_scans n rows l : Forall2 scans rows l -> Forall2 scans (sql_limit n rows) (sql_limit n l).
Proof. intros H. unfold sql_limit. destruct (n <? 0); [done|]. by apply Forall2_take. Qed.

(** The best peers of a cluster are its active members in order of
    success rate, then of the time they were last seen, cut at the limit (a
    negative limit does not cut). *)
Theorem phonebook_best_peers clusterPath limit p (Hs : pb_sound p) :
  exists ranking, fst (GetBestPeers clusterPath limit p) = Ok (sql_limit limit ranking) /\
    ranking ≡ₚ (map_to_list (filter (fun ke => e_ClusterPath ke.2 = clusterPath /\ e_Status ke.2 = nodeStatusActive) (pb_members p))).*2 /\
    StronglySorted (fun a b => peer_better a b = true) ranking.
Proof.
  set (w := fun r => (c_cluster_path r =s clusterPath) && (c_status (c_health r) =s "active")).
  set (rows := select w (pb_stmts p) (pb_rows p)).
  set (sorted := merge_sort (fun a b => Is_true (ranks_before a b)) rows).
  assert (Hperm : sorted ≡ₚ rows) by apply merge_sort_Permutation.
  assert (Hin : forall r, r ∈ rows -> is_Some (entry_of r) /\ rate_ok r).
  { intros r. unfold rows, select. rewrite list_elem_of_In, filter_In, <- list_elem_of_In. intros [Hr _].
    rewrite scan_order_perm in Hr. apply list_elem_of_fmap in Hr as ([k r'] & -> & Hk%elem_of_map_to_list).
    split; [by eapply (sound_scan _ Hs)|apply (conn_rate _ (row_conn _ _ (sound_rows _ Hs _ _ Hk)))]. }
  assert (Hsc : Forall2 scans sorted (omap entry_of sorted)).
  { apply scans_all. intros r. rewrite Hperm. apply Hin. }
  exists (omap entry_of sorted). split_and!.
  - unfold GetBestPeers. rewrite query_sound by done. simpl. apply scanEntries_Forall2. unfold best_rows. by apply limit_scans.
  - edestruct (select_members w (fun ke => e_ClusterPath ke.2 = clusterPath /\ e_Status ke.2 = nodeStatusActive) (pb_stmts p) p Hs)
      as (l & El & Hl).
    { intros k r e He. pose proof (entry_of_key _ _ He) as [= _ Hc]. unfold w. simpl. rewrite andb_true_iff, !String.eqb_eq, Hc.
      assert (e_Status e = c_status (c_health r)) as ->; [|done].
      revert He. unfold entry_of, scanEntry. repeat case_match; try done; by intros [= <-]. }
    rewrite <- Hl. rewrite scanEntries_omap in El by apply Hin. injection El as <-. by rewrite Hperm.
  - eapply sorted_scans; [exact Hsc|]. apply sort_strongly, list.Forall_forall. apply Hin.
Qed.

(** *** Adding and reading back *)

Definition truncated (t : Time) : Time := of_UnixMilli (UnixMilli t).

(** The entry as the table returns it: times in milliseconds, the time of the
    change, and the defaults that [Add] fills in. *)
Definition as_added (now : Time) (e : Entry) : Entry :=
  {| e_NodeID := e_NodeID e; e_ClusterPath := e_ClusterPath e; e_PublicKey := e_PublicKey e; e_Addresses := e_Addresses e;
     e_Region := e_Region e; e_Datacenter := e_Datacenter e; e_Capabilities := e_Capabilities e;
     e_FirstSeen := if UnixMilli (e_FirstSeen e) =? 0 then truncated now else truncated (e_FirstSeen e);
     e_LastSeen := if UnixMilli (e_LastSeen e) =? 0 then truncated now else truncated (e_LastSeen e);
     e_LastConnected := truncated (e_LastConnected e); e_UpdatedAt := truncated now;
     e_ConnectionAttempts := e_ConnectionAttempts e; e_ConnectionSuccess := e_ConnectionSuccess e;
     e_SuccessRate := e_SuccessRate e; e_ConsecutiveFails := e_ConsecutiveFails e;
     e_ReliabilityScore := e_ReliabilityScore e; e_LastProbeTime := truncated (e_LastProbeTime e);
     e_LastProbeSuccess := e_LastProbeSuccess e;
     e_Status := if e_Status e =s "" then nodeStatusActive else e_Status e; e_IsConnected := e_IsConnected e |}.

(** The codec keeps this entry's structured columns. *)
Definition json_faithful (e : Entry) : Prop :=
  exists addrs caps, json_cols e = Some (addrs, caps) /\ unmarshal_addresses addrs = e_Addresses e /\
    forall c, e_Capabilities e = Some c -> unmarshal_capabilities caps = c.

Record entry_plain (e : Entry) : Prop := {
  plain_rate : storable (e_SuccessRate e); plain_score : storable (e_ReliabilityScore e);
  plain_counts : in_int64 (e_ConnectionAttempts e) /\ in_int64 (e_ConnectionSuccess e) /\ in_int64 (e_ConsecutiveFails e);
  plain_json : json_faithful e
}.

Lemma scan_int_id z : in_int64 z -> scan_int z = Ok z.
Proof. unfold in_int64, max_int64, scan_int. intros. by destruct (Z.eqb_spec z (2 ^ 63)); [lia|]. Qed.

Lemma caps_column e addrs caps : json_cols e = Some (addrs, caps) ->
  (forall c, e_Capabilities e = Some c -> unmarshal_capabilities caps = c) ->
  (if caps =s "" then None else Some (unmarshal_capabilities caps)) = e_Capabilities e.
Proof.
  unfold json_cols. destruct (marshal_addresses (e_Addresses e)); [|done]. cbn [mbind option_bind].
  destruct (e_Capabilities e) as [c|]; cbn [mbind option_bind].
  - destruct (marshal_capabilities c) as [t|] eqn:E; [|done]. cbn [mbind option_bind]. intros [= _ <-] Hc. rewrite (Hc c) by done.
    apply marshal_capabilities_text in E. by apply String.eqb_neq in E as ->.
  - by intros [= _ <-] _.
Qed.

Lemma bool_column b : (boolToInt b =? 1) = b.
Proof. by destruct b. Qed.

(** An entry that was added is read back as it was, with its times
    cut to milliseconds, the defaults filled in and the time of the insertion;
    it is there and it was not there before. *)
Theorem phonebook_add_get e p p' (Hplain : entry_plain e) (Hadd : Add e p = (Ok tt, p')) (Hup : pb_fault p' (pb_stmts p') = false) :
  fst (Get (e_NodeID e) (e_ClusterPath e) p') = Ok (Some (as_added (pb_clock p (pb_ticks p)) e)) /\
  pb_rows p !! e_key e = None /\ fst (Exists (e_NodeID e) (e_ClusterPath e) p') = Ok true.
Proof.
  destruct Hplain as [[Hr1 Hr2] [Hs1 Hs2] (Hc1 & Hc2 & Hc3) (addrs & caps & Hj & Ha & Hc)].
  unfold Add in Hadd. rewrite Hj in Hadd. unfold pb_now in Hadd. cbn zeta beta iota in Hadd. simpl pb_rows in Hadd.
  destruct (pb_rows p !! e_key e) as [r0|] eqn:E0; [done|]. unfold exec in Hadd. simpl in Hadd.
  destruct (pb_fault p (pb_stmts p)); [done|]. injection Hadd as <-. simpl in Hup.
  unfold Get, Exists, query. simpl. rewrite Hup. simpl. fold (e_key e). rewrite lookup_insert_eq. split_and!; [|done|].
  - unfold scanEntry. cbn [c_info c_conn c_health conn_cols health_cols info_cols c_conn_attempts c_conn_success c_success_rate c_consec_fails
      c_reliability_score c_capabilities c_addresses].
    rewrite !scan_int_id, !bind_number by done. unfold as_added. simpl. rewrite !bool_column, Ha, (caps_column e addrs caps) by done.
    unfold truncated. by destruct (UnixMilli (e_FirstSeen e) =? 0), (UnixMilli (e_LastSeen e) =? 0).
  - by rewrite bool_decide_eq_true_2 by eauto.
Qed.

(** *** Counting connection attempts *)

(** The attempts after the last success. *)
Definition trailing_fails (l : list bool) : Z := fold_left (fun n b => if b : bool then 0 else n + 1) l 0.
Definition successes (l : list bool) : Z := Z.of_nat (length (List.filter id l)).

(** What happens between the node and a member. *)
Inductive Contact := Tried (success : bool) | Dropped.
Definition tried (l : list Contact) : list bool := omap (fun a => match a with Tried b => Some b | Dropped => None end) l.
(** Connected by the last success, unless disconnected since. *)
Definition connected (l : list Contact) : bool := fold_left (fun f a => match a with Tried true => true | Tried false => f | Dropped => false end) l false.

Definition counted (l : list Contact) (c : ConnCols) : Prop :=
  let tried := tried l in c_is_connected c = boolToInt (connected l) /\
  c_conn_attempts c = Z.of_nat (length tried) /\ c_conn_success c = successes tried /\ c_consec_fails c = trailing_fails tried /\
  (tried <> [] -> c_success_rate c = Some (f64_div (f64_of_Z (successes tried)) (f64_of_Z (Z.of_nat (length tried))))).

Lemma successes_bound l : 0 <= successes l <= Z.of_nat (length l).
Proof. unfold successes. pose proof (List.filter_length_le id l). lia. Qed.

Lemma trailing_snoc l b : trailing_fails (l ++ [b]) = if b then 0 else trailing_fails l + 1.
Proof. unfold trailing_fails. by rewrite fold_left_app. Qed.

Lemma successes_snoc l b : successes (l ++ [b]) = successes l + boolToInt b.
Proof. unfold successes. rewrite List.filter_app, length_app. destruct b; simpl; lia. Qed.

Lemma trailing_bound l : 0 <= trailing_fails l <= Z.of_nat (length l).
Proof.
  induction l as [|b l IH] using rev_ind; [done|]. rewrite trailing_snoc, length_app. simpl. destruct b; lia.
Qed.

Lemma tried_length l : (length (tried l) <= length l)%nat.
Proof. induction l as [|[]]; simpl; lia. Qed.

Lemma tried_app l k : tried (l ++ k) = tried l ++ tried k.
Proof. apply omap_app. Qed.

Lemma connected_snoc l a : connected (l ++ [a]) = match a with Tried true => true | Tried false => connected l | Dropped => false end.
Proof. unfold connected. by rewrite fold_left_app. Qed.

Lemma disconnect_counted l now c : counted l c -> counted (l ++ [Dropped]) (disconnect_cols now c).
Proof. unfold counted. rewrite connected_snoc, tried_app, app_nil_r. by intros (_ & ?). Qed.

Lemma attempt_counted l b now c : Z.of_nat (length l) < 2 ^ 63 -> counted l c -> counted (l ++ [Tried b]) (attempt_cols b now c).
Proof.
  intros Hl (Hc & Ha & Hs & Hf & _). unfold counted. rewrite connected_snoc, tried_app. cbn zeta. pose proof (tried_length l) as Hl'.
  assert (Hlen : Z.of_nat (length (tried l)) < 2 ^ 63) by lia. clear Hl Hl'. split; [by destruct b|]. clear Hc.
  change (tried [Tried b]) with [b]. set (tr := tried l) in *. clearbody tr. pose proof (successes_bound tr). pose proof (trailing_bound tr).
  assert (Hi : forall z, z < 2 ^ 63 -> sql_incr z = z + 1) by (unfold sql_incr; lia).
  rewrite successes_snoc, trailing_snoc, length_app. simpl length.
  replace (Z.of_nat (length tr + 1)) with (Z.of_nat (length tr) + 1) by lia.
  destruct b; simpl; rewrite Ha, Hs, ?Hf, !Hi by lia; split_and!; try lia; try done; intros _.
  - apply sql_rate_value; lia.
  - rewrite Z.add_0_r. apply sql_rate_value; lia.
Qed.

(** Operations that leave the row [k] in place. *)
Definition leaves (k : key2) (o : pb_op) : Prop :=
  match o with
  | PUpdate e => e_key e <> k
  | PRemove n c => (n, c) <> k
  | PRemoveAll n => n <> k.1
  | PPrune _ _ => False
  | _ => True
  end.
Definition contacts (k : key2) (ops : list pb_op) : list Contact :=
  omap (fun o => match o with PAttempt n c b => if decide ((n, c) = k) then Some (Tried b) else None
                            | PDisconnect n c => if decide ((n, c) = k) then Some Dropped else None | _ => None end) ops.

Definition no_faults (p : Phonebook) : Prop := forall n, pb_fault p n = false.

Lemma exec_no_fault f p : no_faults p -> exec f p = (Ok tt, with_rows (f (pb_rows p)) (tick_stmt p)).
Proof. intros H. unfold exec. by rewrite H. Qed.

Lemma step_no_faults p o : no_faults p -> no_faults (pb_step p o).
Proof.
  intros H. destruct o as [e|e|n c|n|n c b|n c|n c x|n c st|n c b|age fails]; cbn [pb_step];
    unfold Add, Update, RecordConnectionAttempt, RecordDisconnect, SetReliabilityScore, SetStatus, RecordProbe, update_health,
      update_row, Prune, Remove, RemoveAllForNode, pb_now; try (destruct (json_cols e) as [[]|]; [|done]);
    cbn zeta beta iota; try (destruct (pb_rows _ !! e_key e); [done|]); rewrite exec_no_fault by exact H; exact H.
Qed.

(** The row [k] is there and has counted [tried]. *)
Definition has (k : key2) (tried : list Contact) (rows : gmap key2 Row) : Prop :=
  exists r, rows !! k = Some r /\ c_node_id r = k.1 /\ counted tried (c_conn r).

Lemma has_alter k k' tried tried' f rows :
  (forall r, c_node_id (f r) = c_node_id r) -> (forall r, counted tried (c_conn r) -> counted tried' (c_conn (f r))) ->
  has k tried rows -> has k (if decide (k' = k) then tried' else tried) (alter f k' rows).
Proof.
  intros Hid Hf (r & Hr & Hk & Hc). unfold has. rewrite lookup_alter. destruct (decide (k' = k)) as [->|]; [|eauto].
  rewrite Hr. exists (f r). simpl. rewrite Hid. auto.
Qed.

Lemma has_filter k tried (P : key2 * Row -> Prop) `{!forall x, Decision (P x)} rows :
  (forall r, c_node_id r = k.1 -> P (k, r)) -> has k tried rows -> has k tried (filter P rows).
Proof. intros HP (r & Hr & Hk & Hc). exists r. rewrite map_lookup_filter_Some. auto. Qed.

Lemma has_health k tried n c f p :
  no_faults p -> has k tried (pb_rows p) -> has k tried (pb_rows (snd (update_health n c f p))).
Proof.
  intros Hn Hh. unfold update_health, pb_now, update_row. cbn zeta beta iota. rewrite exec_no_fault by exact Hn. simpl.
  pose proof (has_alter k (n, c) tried tried (fun r => with_health (UnixMilli (pb_clock p (pb_ticks p)))
                (f (UnixMilli (pb_clock p (pb_ticks p))) (c_health r)) r) (pb_rows p)) as H.
  destruct (decide ((n, c) = k)); by apply H.
Qed.

Lemma step_has k tried p o :
  no_faults p -> leaves k o -> Z.of_nat (length tried) < 2 ^ 63 ->
  has k tried (pb_rows p) -> has k (tried ++ contacts k [o]) (pb_rows (pb_step p o)).
Proof.
  intros Hn Hl Hlen Hh. destruct o as [e|e|n c|n|n c b|n c|n c x|n c st|n c b|age fails]; cbn [pb_step contacts omap list_omap];
    rewrite ?app_nil_r; try (by apply has_health).
  - unfold Add, pb_now. destruct (json_cols e) as [[addrs caps]|]; [|done]. cbn zeta beta iota. simpl pb_rows.
    destruct (pb_rows p !! e_key e) as [r0|] eqn:E; [done|]. rewrite exec_no_fault by exact Hn. simpl.
    destruct Hh as (r & Hr & Hk & Hc). exists r. rewrite lookup_insert_ne by congruence. auto.
  - unfold Update, pb_now, update_row. destruct (json_cols e) as [[addrs caps]|]; [|done]. cbn zeta beta iota.
    rewrite exec_no_fault by exact Hn. simpl. destruct Hh as (r & Hr & Hk & Hc). exists r.
    rewrite lookup_alter_ne by done. auto.
  - unfold Remove. rewrite exec_no_fault by exact Hn. destruct Hh as (r & Hr & Hk & Hc). exists r. simpl.
    by rewrite lookup_delete_ne.
  - unfold RemoveAllForNode. rewrite exec_no_fault by exact Hn. simpl. apply has_filter; [|done].
    intros r Hr. simpl in *. rewrite Hr. apply String.eqb_neq. congruence.
  - unfold RecordConnectionAttempt, pb_now, update_row. cbn zeta beta iota. rewrite exec_no_fault by exact Hn. simpl.
    set (now := UnixMilli _).
    pose proof (has_alter k (n, c) tried (tried ++ [Tried b]) (fun r => with_conn now (attempt_cols b now (c_conn r)) r) (pb_rows p)) as H.
    destruct (decide ((n, c) = k)); [|rewrite app_nil_r]; apply H; try done; intros r Hc; by apply attempt_counted.
  - unfold RecordDisconnect, pb_now, update_row. cbn zeta beta iota. rewrite exec_no_fault by exact Hn. simpl.
    set (now := UnixMilli _).
    pose proof (has_alter k (n, c) tried (tried ++ [Dropped]) (fun r => with_conn now (disconnect_cols now (c_conn r)) r) (pb_rows p)) as H.
    destruct (decide ((n, c) = k)); [|rewrite app_nil_r]; apply H; try done; intros r Hc; by apply disconnect_counted.
  - done.
Qed.

Lemma contacts_cons k o ops : contacts k (o :: ops) = contacts k [o] ++ contacts k ops.
Proof. unfold contacts. cbn [omap list_omap]. by destruct o; try done; destruct (decide _). Qed.


(** *** Members *)

(** An entry after an update: everything is overwritten but the key and the
    time it was first seen. *)
Definition as_updated (now : Time) (e old : Entry) : Entry :=
  {| e_NodeID := e_NodeID old; e_ClusterPath := e_ClusterPath old; e_PublicKey := e_PublicKey e;
     e_Addresses := e_Addresses e; e_Region := e_Region e; e_Datacenter := e_Datacenter e;
     e_Capabilities := e_Capabilities e; e_FirstSeen := e_FirstSeen old; e_LastSeen := truncated (e_LastSeen e);
     e_LastConnected := truncated (e_LastConnected e); e_UpdatedAt := truncated now;
     e_ConnectionAttempts := e_ConnectionAttempts e; e_ConnectionSuccess := e_ConnectionSuccess e;
     e_SuccessRate := e_SuccessRate e; e_ConsecutiveFails := e_ConsecutiveFails e;
     e_ReliabilityScore := e_ReliabilityScore e; e_LastProbeTime := truncated (e_LastProbeTime e);
     e_LastProbeSuccess := e_LastProbeSuccess e; e_Status := e_Status e; e_IsConnected := e_IsConnected e |}.

Lemma entry_plain_wf e : entry_plain e -> entry_wf e.
Proof. intros [[[? ?] ?] [[? ?] ?] (? & ? & ?) ?]. by split_and!. Qed.

(** The row of a plain entry scans to it. *)
Lemma scan_plain e addrs caps firstSeen lastSeen status node cluster now :
  entry_plain e -> json_cols e = Some (addrs, caps) ->
  unmarshal_addresses addrs = e_Addresses e -> (forall c, e_Capabilities e = Some c -> unmarshal_capabilities caps = c) ->
  exists e', entry_of {| c_node_id := node; c_cluster_path := cluster; c_info := info_cols e addrs caps firstSeen;
                         c_conn := conn_cols e lastSeen; c_health := health_cols e status; c_updated_at := now |} = Some e' /\
    e' = {| e_NodeID := node; e_ClusterPath := cluster; e_PublicKey := e_PublicKey e; e_Addresses := e_Addresses e;
            e_Region := e_Region e; e_Datacenter := e_Datacenter e; e_Capabilities := e_Capabilities e;
            e_FirstSeen := of_UnixMilli firstSeen; e_LastSeen := of_UnixMilli lastSeen;
            e_LastConnected := truncated (e_LastConnected e); e_UpdatedAt := of_UnixMilli now;
            e_ConnectionAttempts := e_ConnectionAttempts e; e_ConnectionSuccess := e_ConnectionSuccess e;
            e_SuccessRate := e_SuccessRate e; e_ConsecutiveFails := e_ConsecutiveFails e;
            e_ReliabilityScore := e_ReliabilityScore e; e_LastProbeTime := truncated (e_LastProbeTime e);
            e_LastProbeSuccess := e_LastProbeSuccess e; e_Status := status; e_IsConnected := e_IsConnected e |}.
Proof.
  intros [[Hr1 Hr2] [Hs1 Hs2] (Hc1 & Hc2 & Hc3) _] Hj Ha Hc. eexists. split; [|reflexivity]. apply entry_of_Some.
  unfold scanEntry. cbn [c_info c_conn c_health conn_cols health_cols info_cols c_conn_attempts c_conn_success c_success_rate
    c_consec_fails c_reliability_score c_capabilities c_addresses].
  rewrite !scan_int_id, !bind_number by done. simpl. by rewrite !bool_column, Ha, (caps_column e addrs caps) by done.
Qed.

Lemma Update_sound e p : pb_sound p -> entry_plain e -> exists p' now,
  Update e p = (Ok tt, p') /\ pb_sound p' /\ pb_members p' = alter (as_updated now e) (e_key e) (pb_members p).
Proof.
  intros Hs Hp. destruct (plain_json _ Hp) as (addrs & caps & Hj & Ha & Hc). unfold Update. rewrite Hj.
  destruct (pb_now p) as [t q] eqn:E. destruct (pb_now_sound _ _ _ Hs E) as (Hq & _ & Hm).
  destruct (update_row_sound (e_NodeID e) (e_ClusterPath e)
    (fun r => {| c_node_id := c_node_id r; c_cluster_path := c_cluster_path r;
                 c_info := info_cols e addrs caps (c_first_seen (c_info r)); c_conn := conn_cols e (UnixMilli (e_LastSeen e));
                 c_health := health_cols e (e_Status e); c_updated_at := UnixMilli t |}) (as_updated t e) q Hq) as (p' & E' & Hs' & Hm').
  - intros r [? ? ?]. pose proof (entry_plain_wf _ Hp). split; [done|by apply conn_cols_ok|by apply health_cols_ok].
  - intros r e0 _ He0. edestruct (scan_plain e addrs caps) as (e' & -> & ->); [done..|]. f_equal.
    revert He0. unfold entry_of, scanEntry. repeat case_match; try done; by intros [= <-].
  - exists p', t. by rewrite Hm', Hm.
Qed.

Lemma Add_sound e p : pb_sound p -> entry_plain e -> pb_members p !! e_key e = None -> exists p' now,
  Add e p = (Ok tt, p') /\ pb_sound p' /\ pb_members p' = <[e_key e := as_added now e]> (pb_members p).
Proof.
  intros Hs Hp Hnone. destruct (plain_json _ Hp) as (addrs & caps & Hj & Ha & Hc). unfold Add. rewrite Hj.
  destruct (pb_now p) as [t q] eqn:E. destruct (pb_now_sound _ _ _ Hs E) as (Hq & Hrq & Hm). rewrite Hrq.
  destruct (pb_rows p !! e_key e) as [r|] eqn:Er.
  { unfold pb_members in Hnone. rewrite lookup_omap, Er in Hnone. simpl in Hnone.
    destruct (sound_scan _ Hs _ _ Er) as [? He]. by rewrite He in Hnone. }
  set (row := {| c_node_id := _ |}).
  assert (Hrow : entry_of row = Some (as_added t e)).
  { unfold row. edestruct (scan_plain e addrs caps) as (e' & -> & ->); [done..|]. unfold as_added, truncated.
    by destruct (UnixMilli (e_FirstSeen e) =? 0), (UnixMilli (e_LastSeen e) =? 0). }
  destruct (exec_sound (insert (e_key e) row) q Hq) as [E' Hs'].
  - apply map_Forall_insert_2; [|apply Hq]. pose proof (entry_plain_wf _ Hp). split; [done|by apply conn_cols_ok|by apply health_cols_ok].
  - intros k r. rewrite lookup_insert. destruct (decide (e_key e = k)); [intros [= <-]; eauto|]. apply (sound_scan _ Hq).
  - exists (with_rows (<[e_key e := row]> (pb_rows q)) (tick_stmt q)), t. split; [exact E'|]. split; [exact Hs'|].
    rewrite <- Hm. unfold pb_members. simpl. by rewrite omap_insert, Hrow.
Qed.

Lemma Exists_sound n c p : pb_sound p ->
  Exists n c p = (Ok (bool_decide (is_Some (pb_members p !! (n, c)))), tick_stmt p).
Proof.
  intros Hs. unfold Exists. rewrite query_sound by done. do 2 f_equal. apply bool_decide_ext. unfold pb_members.
  rewrite lookup_omap. destruct (pb_rows p !! (n, c)) as [r|] eqn:E; simpl; [|done].
  destruct (sound_scan _ Hs _ _ E) as [e ->]. split; eauto.
Qed.

(** A membership event leaves exactly that member changed: it is
    in the phonebook, active, with score 0 and without counted connections,
    whether it is new or known; only a known member's first-seen time stays. *)
Theorem subscriber_upserts now1 now2 clusterPath m p
    (Hs : pb_sound p) (Hplain : entry_plain (member_entry now1 now2 clusterPath m)) :
  exists p' e, addOrUpdateEntry now1 now2 clusterPath m p = (tt, p') /\ pb_sound p' /\
    pb_members p' = <[(mi_NodeID m, clusterPath) := e]> (pb_members p) /\
    e_Status e = nodeStatusActive /\ e_ReliabilityScore e = f64_zero false /\ e_ConnectionAttempts e = 0 /\
    e_IsConnected e = false /\ e_Addresses e = mi_Addresses m /\ e_PublicKey e = mi_PublicKey m /\
    (forall old, pb_members p !! (mi_NodeID m, clusterPath) = Some old -> e_FirstSeen e = e_FirstSeen old).
Proof.
  unfold addOrUpdateEntry. cbn [pb_Exists pb_Update pb_Add sqlite_phonebook]. rewrite Exists_sound by done. apply tick_sound in Hs as Ht.
  set (e0 := member_entry now1 now2 clusterPath m) in *.
  destruct (pb_members p !! (mi_NodeID m, clusterPath)) as [old|] eqn:E.
  - rewrite bool_decide_eq_true_2 by eauto. destruct (Update_sound e0 (tick_stmt p) Ht Hplain) as (p' & t & E' & Hs' & Hm).
    rewrite E'. exists p', (as_updated t e0 old). split; [done|]. split; [done|]. split; [|by split_and!; try done; intros ? [= <-]].
    rewrite Hm. apply map_eq. intros k. rewrite lookup_alter, lookup_insert. change (e_key e0) with (mi_NodeID m, clusterPath).
    destruct (decide ((mi_NodeID m, clusterPath) = k)) as [<-|]; [|done]. change (pb_members (tick_stmt p)) with (pb_members p). by rewrite E.
  - rewrite bool_decide_eq_false_2 by (by intros [? ?]).
    destruct (Add_sound e0 (tick_stmt p) Ht Hplain E) as (p' & t & E' & Hs' & Hm). rewrite E'.
    exists p', (as_added t e0). split; [done|]. split; [done|]. by split_and!.
Qed.

(** *** Attempts, as the entries show them *)

(** An entry after a connection attempt. *)
Definition as_attempted (success : bool) (now : Time) (e : Entry) : Entry :=
  {| e_NodeID := e_NodeID e; e_ClusterPath := e_ClusterPath e; e_PublicKey := e_PublicKey e; e_Addresses := e_Addresses e;
     e_Region := e_Region e; e_Datacenter := e_Datacenter e; e_Capabilities := e_Capabilities e;
     e_FirstSeen := e_FirstSeen e; e_LastSeen := if success then truncated now else e_LastSeen e;
     e_LastConnected := if success then truncated now else e_LastConnected e; e_UpdatedAt := truncated now;
     e_ConnectionAttempts := e_ConnectionAttempts e + 1; e_ConnectionSuccess := e_ConnectionSuccess e + boolToInt success;
     e_SuccessRate := f64_div (f64_of_Z (e_ConnectionSuccess e + boolToInt success)) (f64_of_Z (e_ConnectionAttempts e + 1));
     e_ConsecutiveFails := if success then 0 else e_ConsecutiveFails e + 1;
     e_ReliabilityScore := e_ReliabilityScore e; e_LastProbeTime := e_LastProbeTime e;
     e_LastProbeSuccess := e_LastProbeSuccess e; e_Status := e_Status e; e_IsConnected := success || e_IsConnected e |}.

(** Counters that can still be incremented. *)
Definition countable (e : Entry) : Prop :=
  0 <= e_ConnectionAttempts e < max_int64 /\ 0 <= e_ConnectionSuccess e < max_int64 /\ 0 <= e_ConsecutiveFails e < max_int64.

Lemma RecordConnectionAttempt_sound n c b p : pb_sound p -> (forall e, pb_members p !! (n, c) = Some e -> countable e) ->
  exists p' now, RecordConnectionAttempt n c b p = (Ok tt, p') /\ pb_sound p' /\
    pb_members p' = alter (as_attempted b now) (n, c) (pb_members p).
Proof.
  intros Hs Hc. unfold RecordConnectionAttempt. destruct (pb_now p) as [t q] eqn:E.
  destruct (pb_now_sound _ _ _ Hs E) as (Hq & Hr & Hm).
  destruct (update_row_sound n c (fun r => with_conn (UnixMilli t) (attempt_cols b (UnixMilli t) (c_conn r)) r) (as_attempted b t) q Hq)
    as (p' & E' & Hs' & Hm').
  - intros r [? ? ?]. split; [done|by apply attempt_cols_ok|done].
  - intros r e Hrow He. assert (Hce : countable e).
    { apply Hc. unfold pb_members. rewrite lookup_omap, <- Hr, Hrow. exact He. }
    revert He Hce. unfold entry_of, scanEntry, countable. cbn [with_conn c_conn c_info c_health].
    assert (Hsc : forall z z', scan_int z = Ok z' -> z' = z) by (intros z z'; unfold scan_int; case_match; [done|by intros [= <-]]).
    destruct (scan_int (c_conn_attempts (c_conn r))) as [a|] eqn:Ha; [|done]. destruct (scan_int (c_conn_success (c_conn r))) as [s|] eqn:Es; [|done].
    destruct (c_success_rate (c_conn r)) as [rate|]; [|done]. destruct (scan_int (c_consec_fails (c_conn r))) as [f|] eqn:Ef; [|done].
    destruct (c_reliability_score (c_health r)) as [score|]; [|done]. cbn [to_option]. intros [= <-]. cbn. intros (H1 & H2 & H3).
    apply Hsc in Ha, Es, Ef. subst a s f. unfold max_int64 in *.
    assert (Hi : forall z, 0 <= z < 2 ^ 63 - 1 -> sql_incr z = z + 1 /\ scan_int (z + 1) = Ok (z + 1)).
    { intros z Hz. split; [unfold sql_incr; lia|]. apply scan_int_id. unfold in_int64, max_int64, min_int64. lia. }
    destruct (Hi _ H1) as [E1 A1], (Hi _ H2) as [E2 A2], (Hi _ H3) as [E3 A3].
    assert (Hz : forall z, 0 <= z < 2 ^ 63 - 1 -> scan_int z = Ok z) by (intros z ?; apply scan_int_id; unfold in_int64, max_int64, min_int64; lia).
    destruct b; cbn; rewrite ?E1, ?E2, ?E3, A1, ?A2, ?A3, sql_rate_value, ?(Hz (c_conn_success (c_conn r))) by lia; unfold as_attempted; cbn;
      rewrite ?Z.add_0_r; reflexivity.
  - exists p', t. by rewrite Hm', Hm.
Qed.

End Laws.

(** ** A concrete phonebook, for evaluation *)

Module PhonebookDemo.

(** A codec for entries with at most one address. *)
#[export, refine] Instance demo_json : PbJson | 100 := {|
  marshal_addresses := fun l => match l with [] => Some "null" | [a] => Some ("[" +:+ a +:+ "]") | _ => None end;
  unmarshal_addresses := fun s => if s =s "[/ip4/10.0.0.1/tcp/4001]" then ["/ip4/10.0.0.1/tcp/4001"] else [];
  marshal_capabilities := fun _ => None;
  unmarshal_capabilities := fun _ => {| cap_CPUCores := 0; cap_MemoryMB := 0; cap_DiskGB := 0; cap_Datacenter := ""; cap_Tags := []; cap_Metadata := None |} |}.
Proof. done. Defined.

Definition demo_clock (n : nat) : Time := (1700000000 + Z.of_nat n) * second.
Definition new_book : Phonebook :=
  {| pb_rows := ∅; pb_fault := fun _ => false; pb_stmts := 0; pb_clock := demo_clock; pb_ticks := 0 |}.

Definition member (id : string) : MemberInfo :=
  {| mi_NodeID := id; mi_Addresses := ["/ip4/10.0.0.1/tcp/4001"]; mi_PublicKey := []; mi_Capabilities := None |}.
Definition cluster : string := "eu/dc1/prod".
Definition entry (id : string) : Entry := member_entry (demo_clock 0) (demo_clock 0) cluster (member id).

Lemma zero_storable : storable (f64_zero false).
Proof. split; [apply number_zero|by intros e]. Qed.

Lemma entry_is_plain id : entry_plain (entry id).
Proof.
  split; try apply zero_storable; [by vm_compute|]. eexists _, _. split; [reflexivity|]. split; [reflexivity|]. by intros c [=].
Qed.

Lemma new_book_sound : pb_sound new_book.
Proof. split; [done|by intros k r Hk; simpl in Hk; rewrite lookup_empty in Hk..]. Qed.

Definition join (id : string) (p : Phonebook) : Phonebook := snd (addOrUpdateEntry (demo_clock 0) (demo_clock 0) cluster (member id) p).
Definition book : Phonebook := join "n3" (join "n2" (join "n1" new_book)).

Lemma join_sound id p : pb_sound p -> pb_sound (join id p).
Proof.
  intros Hs. unfold join, addOrUpdateEntry. cbn [pb_Exists pb_Update pb_Add sqlite_phonebook]. rewrite Exists_sound by done.
  fold (entry id). apply tick_sound in Hs as Ht. destruct (pb_members p !! (mi_NodeID (member id), cluster)) as [old|] eqn:E.
  - rewrite bool_decide_eq_true_2 by eauto. by destruct (Update_sound (entry id) (tick_stmt p) Ht (entry_is_plain id)) as (p' & t & -> & Hs' & _).
  - rewrite bool_decide_eq_false_2 by (by intros [? ?]).
    by destruct (Add_sound (entry id) (tick_stmt p) Ht (entry_is_plain id) E) as (p' & t & -> & Hs' & _).
Qed.

Lemma book_sound : pb_sound book.
Proof. do 3 apply join_sound. apply new_book_sound. Qed.

Lemma phonebook_add_get_witness :
  fst (Get "n1" cluster (snd (Add (entry "n1") new_book))) = Ok (Some (as_added (demo_clock 0) (entry "n1"))).
Proof.
  apply (phonebook_add_get (entry "n1") new_book (snd (Add (entry "n1") new_book))); [apply entry_is_plain|reflexivity..].
Defined.

Lemma subscriber_upserts_witness :
  exists p' e, addOrUpdateEntry (demo_clock 0) (demo_clock 0) cluster (member "n2") book = (tt, p') /\
    pb_members p' !! ("n2", cluster) = Some e /\ e_Status e = nodeStatusActive.
Proof.
  destruct (subscriber_upserts (demo_clock 0) (demo_clock 0) cluster (member "n2") book book_sound (entry_is_plain "n2"))
    as (p' & e & H1 & _ & H2 & H3 & _).
  exists p', e. split; [exact H1|]. split; [|exact H3]. rewrite H2. apply lookup_insert_eq.
Defined.

(** Two attempts of [n1] succeed and one of [n2] fails, among other operations,
    and [n1] disconnects. *)
Definition traffic : list pb_op :=
  [PAttempt "n1" cluster true; PStatus "n3" cluster nodeStatusSuspected; PAttempt "n2" cluster false; PAttempt "n1" cluster true;
   PProbe "n1" cluster true; PDisconnect "n1" cluster; PAttempt "n1" cluster false].


Definition busy_book : Phonebook := fold_left pb_step traffic book.

Lemma busy_sound : pb_sound busy_book.
Proof.
  assert (Hr : forall ops p, Forall op_wf ops -> rows_ok (pb_rows p) -> rows_ok (pb_rows (fold_left pb_step ops p))).
  { induction ops as [|o ops IH]; intros p Hf Hp; [done|]. inversion_clear Hf. simpl. apply IH; [done|]. by apply pb_step_rows_ok. }
  split.
  - intros n _. reflexivity.
  - apply Hr; [by repeat constructor|apply book_sound].
  - assert (Hall : map_Forall (fun _ r => is_Some (entry_of r)) (pb_rows busy_book)).
    { apply map_Forall_to_list. vm_compute map_to_list. repeat constructor; eexists; reflexivity. }
    intros k r Hk. by apply (Hall k).
Qed.

(** The two members that are still active, the one that answered first. *)
Lemma phonebook_best_peers_witness :
  exists ranking, fst (GetBestPeers cluster 5 busy_book) = Ok (sql_limit 5 ranking) /\
    StronglySorted (fun a b => peer_better a b = true) ranking /\
    (map e_NodeID <$> to_option (fst (GetBestPeers cluster 5 busy_book))) = Some ["n1"; "n2"].
Proof.
  destruct (phonebook_best_peers cluster 5 busy_book busy_sound) as (ranking & E & _ & Hs).
  exists ranking. split; [exact E|]. split; [exact Hs|]. vm_compute. reflexivity.
Defined.

End PhonebookDemo.
