(* ===== verification/HealthScore.v ===== *)
(** * Reliability scores ([node/health/score.go])

    Every failed probe of a peer adds to its score in the phonebook, a
    successful one resets it.  Crossing a threshold changes the peer's status
    to suspected or quarantined; a peer that stays quarantined too long is
    failed.  The thresholds depend on the size of the cluster.

    The tracker is modelled over the interface [IPhonebook]; the theorems use
    its laws, so they hold for the SQLite implementation. *)

From S2P Require Import Prelude Float64 Phonebook.
Local Open Scope string_scope.
Local Open Scope list_scope.
Local Open Scope Z_scope.

(** ** Configuration *)

Definition DefaultScoreIncrement : f64 := f64_const 1 2.
Definition DefaultSuspectedThreshold : f64 := f64_const 4 1.
Definition DefaultQuarantineThreshold : f64 := f64_const 10 1.
Definition DefaultQuarantineTimeout : Duration := 30 * second.

Record ClusterSizeScaleBand := { MinNodes : Z; ThresholdScale : f64; TimeoutScale : f64 }.
Definition zero_band : ClusterSizeScaleBand := {| MinNodes := 0; ThresholdScale := f64_zero false; TimeoutScale := f64_zero false |}.

Definition DefaultScaleBands : list ClusterSizeScaleBand :=
  [ {| MinNodes := 0; ThresholdScale := f64_const 3 10; TimeoutScale := f64_const 33 100 |};
    {| MinNodes := 3; ThresholdScale := f64_const 5 10; TimeoutScale := f64_const 5 10 |};
    {| MinNodes := 6; ThresholdScale := f64_const 7 10; TimeoutScale := f64_const 67 100 |};
    {| MinNodes := 11; ThresholdScale := f64_const 1 1; TimeoutScale := f64_const 1 1 |} ].

Record ScoreConfig := {
  ScoreIncrement : f64; SuspectedThreshold : f64; QuarantineThreshold : f64; QuarantineTimeout : Duration;
  ScaleBands : list ClusterSizeScaleBand
}.

Definition DefaultScoreConfig : ScoreConfig := {|
  ScoreIncrement := DefaultScoreIncrement; SuspectedThreshold := DefaultSuspectedThreshold;
  QuarantineThreshold := DefaultQuarantineThreshold; QuarantineTimeout := DefaultQuarantineTimeout;
  ScaleBands := DefaultScaleBands |}.

Record effectiveThresholds := { eff_Suspected : f64; eff_Quarantine : f64; eff_Timeout : Duration }.

(** The last band whose minimum the size reaches. *)
Definition band_for (clusterSize : Z) (bands : list ClusterSizeScaleBand) : ClusterSizeScaleBand :=
  fold_left (fun band b => if MinNodes b <=? clusterSize then b else band) bands zero_band.

Definition computeEffective `{GoConv} (cfg : ScoreConfig) (clusterSize : Z) : effectiveThresholds :=
  let bands := match ScaleBands cfg with [] => DefaultScaleBands | bands => bands end in
  let band := band_for clusterSize bands in
  {| eff_Suspected := f64_mul (SuspectedThreshold cfg) (ThresholdScale band);
     eff_Quarantine := f64_mul (QuarantineThreshold cfg) (ThresholdScale band);
     eff_Timeout := f64_to_int64 (f64_mul (f64_of_Z (QuarantineTimeout cfg)) (TimeoutScale band)) |}.

(** ** Bus events *)

Inductive HealthEvent :=
  | EvNodeSuspected (at_ : Time) (NodeID ClusterPath : string) (Score : f64)
  | EvNodeQuarantined (at_ : Time) (NodeID ClusterPath : string) (Score : f64)
  | EvNodeFailed (at_ : Time) (NodeID ClusterPath : string)
  | EvNodeRecovered (at_ : Time) (NodeID ClusterPath PreviousStatus : string)
  | EvNodeProbeResult (at_ : Time) (NodeID ClusterPath : string) (Success : bool) (ProbeType : string) (Score : f64).

(** ** The tracker *)

Section Tracker.
Context `{I : IPhonebook} `{R : GoRange} `{C : GoConv}.

Record ScoreTracker := {
  st_config : ScoreConfig;
  st_clusterPath : string;
  st_phonebook : PB;
  st_timers : gmap string Time;           (** quarantineTimers *)
  st_bus : list HealthEvent;              (** published so far *)
  st_clock : nat -> Time; st_ticks : nat  (** the n-th [time.Now()] *)
}.

Definition NewScoreTracker (clusterPath : string) (pb : PB) (config : ScoreConfig) (clock : nat -> Time) : ScoreTracker :=
  {| st_config := config; st_clusterPath := clusterPath; st_phonebook := pb; st_timers := ∅; st_bus := [];
     st_clock := clock; st_ticks := 0 |}.

Definition with_pb (pb : PB) (t : ScoreTracker) : ScoreTracker :=
  {| st_config := st_config t; st_clusterPath := st_clusterPath t; st_phonebook := pb; st_timers := st_timers t;
     st_bus := st_bus t; st_clock := st_clock t; st_ticks := st_ticks t |}.
Definition with_timers (timers : gmap string Time) (t : ScoreTracker) : ScoreTracker :=
  {| st_config := st_config t; st_clusterPath := st_clusterPath t; st_phonebook := st_phonebook t; st_timers := timers;
     st_bus := st_bus t; st_clock := st_clock t; st_ticks := st_ticks t |}.

(** A call of the phonebook. *)
Definition call {A} (f : ST PB A) : ST ScoreTracker A := fun t =>
  let '(a, pb) := f (st_phonebook t) in (a, with_pb pb t).

Definition st_now : ST ScoreTracker Time := fun t =>
  (st_clock t (st_ticks t),
   {| st_config := st_config t; st_clusterPath := st_clusterPath t; st_phonebook := st_phonebook t; st_timers := st_timers t;
      st_bus := st_bus t; st_clock := st_clock t; st_ticks := S (st_ticks t) |}).

(** [eventBus.Publish] of an event stamped with the current time. *)
Definition st_publish (ev : Time -> HealthEvent) : ST ScoreTracker unit := fun t =>
  let '(now, t) := st_now t in
  (tt, {| st_config := st_config t; st_clusterPath := st_clusterPath t; st_phonebook := st_phonebook t; st_timers := st_timers t;
          st_bus := st_bus t ++ [ev now]; st_clock := st_clock t; st_ticks := st_ticks t |}).

Definition clusterSize : ST ScoreTracker Z := fun t =>
  match call (pb_GetByCluster (st_clusterPath t)) t with
  | (Err _, t) => (1, t)
  | (Ok entries, t) => (Z.of_nat (length entries), t)
  end.

Definition effective : ST ScoreTracker effectiveThresholds := fun t =>
  let '(n, t) := clusterSize t in (computeEffective (st_config t) n, t).

Definition set_timer (nodeID : string) (at_ : Time) (t : ScoreTracker) : ScoreTracker := with_timers (<[nodeID := at_]> (st_timers t)) t.
Definition drop_timer (nodeID : string) (t : ScoreTracker) : ScoreTracker := with_timers (delete nodeID (st_timers t)) t.

(** The log lines of a crossing ask for the cluster size once more. *)
Definition checkThresholds (nodeID : string) (oldScore newScore : f64) (reason : string) : ST ScoreTracker unit := fun t =>
  let c := st_clusterPath t in
  let '(eff, t) := effective t in
  if f64_lt oldScore (eff_Quarantine eff) && f64_ge newScore (eff_Quarantine eff) then
    let '(_, t) := call (pb_SetStatus nodeID c nodeStatusQuarantined) t in
    let '(now, t) := st_now t in
    let t := set_timer nodeID now t in
    let '(_, t) := clusterSize t in
    st_publish (fun at_ => EvNodeQuarantined at_ nodeID c newScore) t
  else
    let t :=
      if f64_lt oldScore (eff_Suspected eff) && f64_ge newScore (eff_Suspected eff) then
        let '(_, t) := call (pb_SetStatus nodeID c nodeStatusSuspected) t in
        let '(_, t) := clusterSize t in
        snd (st_publish (fun at_ => EvNodeSuspected at_ nodeID c newScore) t)
      else t in
    st_publish (fun at_ => EvNodeProbeResult at_ nodeID c false reason newScore) t.

Definition RecordFailure (nodeID reason : string) : ST ScoreTracker f64 := fun t =>
  let c := st_clusterPath t in
  match call (pb_Get nodeID c) t with
  | (Ok (Some entry), t) =>
      let oldScore := e_ReliabilityScore entry in
      let newScore := f64_add oldScore (ScoreIncrement (st_config t)) in
      match call (pb_SetReliabilityScore nodeID c newScore) t with
      | (Err _, t) => (oldScore, t)
      | (Ok _, t) => let '(_, t) := checkThresholds nodeID oldScore newScore reason t in (newScore, t)
      end
  | (_, t) => (f64_zero false, t)
  end.

Definition degraded (status : NodeStatus) : bool := (status =s nodeStatusSuspected) || (status =s nodeStatusQuarantined).

Definition RecordSuccess (nodeID reason : string) : ST ScoreTracker unit := fun t =>
  let c := st_clusterPath t in
  match call (pb_Get nodeID c) t with
  | (Ok (Some entry), t) =>
      let oldStatus := e_Status entry in
      match call (pb_SetReliabilityScore nodeID c (f64_zero false)) t with
      | (Err _, t) => (tt, t)
      | (Ok _, t) =>
          match call (pb_SetStatus nodeID c nodeStatusActive) t with
          | (Err _, t) => (tt, t)
          | (Ok _, t) =>
              let t := drop_timer nodeID t in
              let t := if degraded oldStatus then snd (st_publish (fun at_ => EvNodeRecovered at_ nodeID c oldStatus) t) else t in
              st_publish (fun at_ => EvNodeProbeResult at_ nodeID c true reason (f64_zero false)) t
          end
      end
  | (_, t) => (tt, t)
  end.

Definition SetScore (nodeID : string) (score : f64) (alive : bool) (reason : string) : ST ScoreTracker unit := fun t =>
  let c := st_clusterPath t in
  if alive then
    let '(r, t) := call (pb_Get nodeID c) t in
    let '(_, t) := call (pb_SetReliabilityScore nodeID c (f64_zero false)) t in
    let '(_, t) := call (pb_SetStatus nodeID c nodeStatusActive) t in
    let t := drop_timer nodeID t in
    match r with
    | Ok (Some oldEntry) =>
        if degraded (e_Status oldEntry) then st_publish (fun at_ => EvNodeRecovered at_ nodeID c (e_Status oldEntry)) t else (tt, t)
    | _ => (tt, t)
    end
  else
    match call (pb_Get nodeID c) t with
    | (Ok (Some entry), t) =>
        let '(_, t) := call (pb_SetReliabilityScore nodeID c score) t in
        checkThresholds nodeID (e_ReliabilityScore entry) score reason t
    | (_, t) => (tt, t)
    end.

Definition GetScore (nodeID : string) : ST ScoreTracker f64 := fun t =>
  match call (pb_Get nodeID (st_clusterPath t)) t with
  | (Ok (Some entry), t) => (e_ReliabilityScore entry, t)
  | (_, t) => (f64_zero false, t)
  end.

(** The body of the loop over the timers; deleting the current key of a map
    that is being ranged over is safe. *)
Definition check_timer (eff : effectiveThresholds) (now : Time) (acc : list string * ScoreTracker) (timer : string * Time) : list string * ScoreTracker :=
  let '(failed, t) := acc in
  let '(nodeID, quarantinedAt) := timer in
  if time_Sub now quarantinedAt <=? eff_Timeout eff then (failed, t)
  else match call (pb_SetStatus nodeID (st_clusterPath t) nodeStatusFailed) t with
       | (Err _, t) => (failed, t)
       | (Ok _, t) =>
           let t := drop_timer nodeID t in
           (failed ++ [nodeID], snd (st_publish (fun at_ => EvNodeFailed at_ nodeID (st_clusterPath t)) t))
       end.

Definition CheckQuarantineTimeouts : ST ScoreTracker (list string) := fun t =>
  let '(eff, t) := effective t in
  let '(now, t) := st_now t in
  fold_left (check_timer eff now) (range (st_timers t)) ([], t).

End Tracker.

(** ** Behaviour over a sound phonebook *)

Section Behaviour.
Context `{I : IPhonebook} `{L : !IPhonebookLaws I} `{R : GoRange} `{C : GoConv}.

Abbreviation key2 := (string * string)%type (only parsing).

Definition peers (t : ScoreTracker) : gmap key2 Entry := members (st_phonebook t).
Definition peer (t : ScoreTracker) (n : string) : option Entry := peers t !! (n, st_clusterPath t).

Definition in_cluster (c : string) (m : gmap key2 Entry) : gmap key2 Entry := filter (fun ke => e_ClusterPath ke.2 = c) m.
Definition size_of (t : ScoreTracker) : Z := Z.of_nat (size (in_cluster (st_clusterPath t) (peers t))).
Definition eff_of (t : ScoreTracker) : effectiveThresholds := computeEffective (st_config t) (size_of t).

(** [t'] has the given members and timers, and a sound phonebook. *)
Record after (t t' : ScoreTracker) (m : gmap key2 Entry) (timers : gmap string Time) : Prop := {
  after_sound : sound (st_phonebook t');
  after_peers : peers t' = m;
  after_timers : st_timers t' = timers;
  after_config : st_config t' = st_config t;
  after_cluster : st_clusterPath t' = st_clusterPath t
}.

Definition unchanged (t t' : ScoreTracker) : Prop := after t t' (peers t) (st_timers t).

Lemma clusterSize_spec t : sound (st_phonebook t) -> exists t', clusterSize t = (size_of t, t') /\ unchanged t t'.
Proof.
  intros Hs. unfold clusterSize, call. destruct (GetByCluster_law (st_clusterPath t) _ Hs) as (l & p' & E & Hs' & Hm & Hl).
  rewrite E. exists (with_pb p' t). split; [|by split]. by rewrite Hl, length_fmap, length_map_to_list.
Qed.

Lemma effective_spec t : sound (st_phonebook t) -> exists t', effective t = (eff_of t, t') /\ unchanged t t'.
Proof.
  intros Hs. unfold effective. destruct (clusterSize_spec t Hs) as (t' & -> & H). exists t'. split; [|done].
  by rewrite (after_config _ _ _ _ H).
Qed.

Lemma publish_spec ev t : sound (st_phonebook t) -> unchanged t (snd (st_publish ev t)).
Proof. by split. Qed.

Lemma Get_spec n t : sound (st_phonebook t) -> exists t', call (pb_Get n (st_clusterPath t)) t = (Ok (peer t n), t') /\ unchanged t t'.
Proof.
  intros Hs. unfold call. destruct (Get_law n (st_clusterPath t) _ Hs) as (p' & E & Hs' & Hm). rewrite E.
  eexists. by split.
Qed.

Lemma SetScore_pb_spec n x t : sound (st_phonebook t) -> storable x -> exists t' at_,
  call (pb_SetReliabilityScore n (st_clusterPath t) x) t = (Ok tt, t') /\
  after t t' (alter (with_score x at_) (n, st_clusterPath t) (peers t)) (st_timers t).
Proof.
  intros Hs Hx. unfold call. destruct (SetReliabilityScore_law n (st_clusterPath t) x _ Hs Hx) as (p' & at_ & E & Hs' & Hm).
  rewrite E. eexists _, at_. by split.
Qed.

Lemma SetStatus_pb_spec n st t : sound (st_phonebook t) -> exists t' at_,
  call (pb_SetStatus n (st_clusterPath t) st) t = (Ok tt, t') /\
  after t t' (alter (with_status st at_) (n, st_clusterPath t) (peers t)) (st_timers t).
Proof.
  intros Hs. unfold call. destruct (SetStatus_law n (st_clusterPath t) st _ Hs) as (p' & at_ & E & Hs' & Hm).
  rewrite E. eexists _, at_. by split.
Qed.

Lemma in_cluster_alter c g k m :
  (forall e, e_ClusterPath (g e) = e_ClusterPath e) -> in_cluster c (alter g k m) = alter g k (in_cluster c m).
Proof.
  intros Hg. apply map_eq. intros i. unfold in_cluster. rewrite map_lookup_filter, !lookup_alter.
  destruct (decide (k = i)) as [<-|]; rewrite map_lookup_filter; [|done]. destruct (m !! k) as [e|]; [|done]. simpl.
  destruct (decide (e_ClusterPath e = c)) as [E|E]; [rewrite option_guard_True by (by rewrite Hg)|rewrite option_guard_False by (by rewrite Hg)].
  - by rewrite option_guard_True.
  - by rewrite option_guard_False.
Qed.

Lemma size_alter c g k m : (forall e, e_ClusterPath (g e) = e_ClusterPath e) -> size (in_cluster c (alter g k m)) = size (in_cluster c m).
Proof. intros Hg. rewrite in_cluster_alter by done. by rewrite <- !size_dom, dom_alter_L. Qed.

(** Status after a change of score: the status set at a crossing, or the old one. *)
Definition crosses (threshold old new : f64) : bool := f64_lt old threshold && f64_ge new threshold.
Definition status_after (eff : effectiveThresholds) (old new : f64) (status : NodeStatus) : NodeStatus :=
  if crosses (eff_Quarantine eff) old new then nodeStatusQuarantined
  else if crosses (eff_Suspected eff) old new then nodeStatusSuspected else status.

(** What the health operations leave alone in an entry. *)
Definition same_identity (e e' : Entry) : Prop :=
  e_NodeID e' = e_NodeID e /\ e_ClusterPath e' = e_ClusterPath e /\ e_FirstSeen e' = e_FirstSeen e /\ e_PublicKey e' = e_PublicKey e.

Lemma alter_insert_at {K A} `{Countable K} (f : A -> A) (k : K) (m : gmap K A) x : m !! k = Some x -> alter f k m = <[k := f x]> m.
Proof.
  intros Hx. apply map_eq. intros i. rewrite lookup_alter, lookup_insert. destruct (decide (k = i)) as [<-|]; [by rewrite Hx|done].
Qed.

Lemma alter_alter {K A} `{Countable K} (f g : A -> A) (k : K) (m : gmap K A) : alter f k (alter g k m) = alter (fun x => f (g x)) k m.
Proof.
  apply map_eq. intros i. rewrite !lookup_alter. destruct (decide (k = i)) as [<-|]; [rewrite decide_True by done|done]. by destruct (m !! k).
Qed.

Lemma checkThresholds_spec n old new reason t e :
  sound (st_phonebook t) -> peer t n = Some e ->
  exists t' e' now, checkThresholds n old new reason t = (tt, t') /\
    e_ReliabilityScore e' = e_ReliabilityScore e /\ e_Status e' = status_after (eff_of t) old new (e_Status e) /\ same_identity e e' /\
    after t t' (<[(n, st_clusterPath t) := e']> (peers t))
      (if crosses (eff_Quarantine (eff_of t)) old new then <[n := now]> (st_timers t) else st_timers t).
Proof.
  intros Hs He. unfold checkThresholds, status_after. destruct (effective_spec t Hs) as (t1 & E & [Hs1 Hp1 Ht1 Hc1 Hcl1]). rewrite E.
  fold (crosses (eff_Quarantine (eff_of t)) old new). fold (crosses (eff_Suspected (eff_of t)) old new).
  destruct (crosses (eff_Quarantine (eff_of t)) old new).
  - destruct (SetStatus_pb_spec n nodeStatusQuarantined t1 Hs1) as (t2 & at_ & E2 & [Hs2 Hp2 Ht2 Hc2 Hcl2]).
    rewrite Hcl1 in *. rewrite E2. destruct (st_now t2) as [now t3] eqn:E3. injection E3 as <- <-.
    set (t3 := set_timer n _ _). assert (Hs3 : sound (st_phonebook t3)) by exact Hs2.
    destruct (clusterSize_spec t3 Hs3) as (t4 & E4 & [Hs4 Hp4 Ht4 Hc4 Hcl4]). rewrite E4.
    eexists _, (with_status nodeStatusQuarantined at_ e), (st_clock t2 (st_ticks t2)). split; [reflexivity|].
    split_and!; [done..|]. split; try done.
    + unfold peers in *; simpl. rewrite Hp4. change (members (st_phonebook t3)) with (members (st_phonebook t2)). rewrite Hp2, Hp1.
      by apply alter_insert_at.
    + simpl. rewrite Ht4. simpl. by rewrite Ht2, Ht1.
    + simpl. rewrite Hc4. simpl. by rewrite Hc2.
    + simpl. rewrite Hcl4. simpl. by rewrite Hcl2.
  - destruct (crosses (eff_Suspected (eff_of t)) old new).
    + destruct (SetStatus_pb_spec n nodeStatusSuspected t1 Hs1) as (t2 & at_ & E2 & [Hs2 Hp2 Ht2 Hc2 Hcl2]).
      rewrite Hcl1 in *. rewrite E2. destruct (clusterSize_spec t2 Hs2) as (t4 & E4 & [Hs4 Hp4 Ht4 Hc4 Hcl4]). rewrite E4.
      eexists _, (with_status nodeStatusSuspected at_ e), 0. split; [reflexivity|]. split_and!; [done..|]. split; simpl; try congruence; try done.
      unfold peers in *; simpl. rewrite Hp4, Hp2, Hp1. by apply alter_insert_at.
    + eexists _, e, 0. split; [reflexivity|]. split_and!; [done..|]. split; simpl; try congruence; try done.
      unfold peers in *; simpl. rewrite Hp1. symmetry. by apply insert_id.
Qed.

Lemma RecordFailure_spec n reason t e :
  sound (st_phonebook t) -> peer t n = Some e -> storable (f64_add (e_ReliabilityScore e) (ScoreIncrement (st_config t))) ->
  let old := e_ReliabilityScore e in let new := f64_add old (ScoreIncrement (st_config t)) in
  exists t' e' now, RecordFailure n reason t = (new, t') /\
    e_ReliabilityScore e' = new /\ e_Status e' = status_after (eff_of t) old new (e_Status e) /\ same_identity e e' /\
    after t t' (<[(n, st_clusterPath t) := e']> (peers t))
      (if crosses (eff_Quarantine (eff_of t)) old new then <[n := now]> (st_timers t) else st_timers t).
Proof.
  intros Hs He Hst old new. unfold RecordFailure. destruct (Get_spec n t Hs) as (t1 & E1 & [Hs1 Hp1 Ht1 Hc1 Hcl1]).
  rewrite E1, He. fold old. rewrite Hc1. fold new.
  destruct (SetScore_pb_spec n new t1 Hs1 Hst) as (t2 & at_ & E2 & [Hs2 Hp2 Ht2 Hc2 Hcl2]). rewrite Hcl1 in *. rewrite E2.
  assert (Heff : eff_of t2 = eff_of t).
  { unfold eff_of, size_of. rewrite Hc2, Hc1, Hcl2, Hp2, Hp1. by rewrite size_alter. }
  assert (He2 : peer t2 n = Some (with_score new at_ e)).
  { unfold peer. rewrite Hcl2, Hp2, Hp1, lookup_alter. rewrite decide_True by done. unfold peer in He. by rewrite He. }
  destruct (checkThresholds_spec n old new reason t2 _ Hs2 He2) as (t3 & e' & now & E3 & Hsc & Hstat & Hid & [Hs3 Hp3 Ht3 Hc3 Hcl3]).
  rewrite Heff in *. rewrite E3. exists t3, e', now. split; [done|]. split; [done|]. split; [done|]. split; [done|].
  split; try congruence.
  - rewrite Hp3, Hcl2, Hp2, Hp1. rewrite (alter_insert_at _ _ _ e He). apply insert_insert_eq.
  - rewrite Ht3. by rewrite Ht2, Ht1.
Qed.

Lemma RecordSuccess_spec n reason t e :
  sound (st_phonebook t) -> peer t n = Some e ->
  exists t' e', RecordSuccess n reason t = (tt, t') /\
    e_ReliabilityScore e' = f64_zero false /\ e_Status e' = nodeStatusActive /\ same_identity e e' /\
    after t t' (<[(n, st_clusterPath t) := e']> (peers t)) (delete n (st_timers t)).
Proof.
  intros Hs He. unfold RecordSuccess. destruct (Get_spec n t Hs) as (t1 & E1 & [Hs1 Hp1 Ht1 Hc1 Hcl1]). rewrite E1, He.
  destruct (SetScore_pb_spec n (f64_zero false) t1 Hs1) as (t2 & a2 & E2 & [Hs2 Hp2 Ht2 Hc2 Hcl2]).
  { split; [apply finite_number, f64_zero_finite|done]. }
  rewrite Hcl1 in *. rewrite E2.
  destruct (SetStatus_pb_spec n nodeStatusActive t2 Hs2) as (t3 & a3 & E3 & [Hs3 Hp3 Ht3 Hc3 Hcl3]). rewrite Hcl2 in *. rewrite E3.
  eexists _, (with_status nodeStatusActive a3 (with_score (f64_zero false) a2 e)).
  split; [reflexivity|]. split; [done|]. split; [done|]. split; [done|].
  assert (Hm : peers t3 = <[(n, st_clusterPath t) := with_status nodeStatusActive a3 (with_score (f64_zero false) a2 e)]> (peers t)).
  { rewrite Hp3, Hp2, Hp1. rewrite (alter_insert_at _ _ _ e He).
    rewrite (alter_insert_at _ _ _ (with_score (f64_zero false) a2 e)) by apply lookup_insert_eq. apply insert_insert_eq. }
  destruct (degraded (e_Status e)); split; simpl; try congruence; try done.
Qed.

Lemma SetScore_alive_spec n x reason t :
  sound (st_phonebook t) ->
  exists t' e', SetScore n x true reason t = (tt, t') /\
    (forall e, peer t n = Some e -> e_ReliabilityScore e' = f64_zero false /\ e_Status e' = nodeStatusActive /\ same_identity e e') /\
    after t t' (alter (fun _ => e') (n, st_clusterPath t) (peers t)) (delete n (st_timers t)).
Proof.
  intros Hs. unfold SetScore. destruct (Get_spec n t Hs) as (t1 & E1 & [Hs1 Hp1 Ht1 Hc1 Hcl1]). rewrite E1.
  destruct (SetScore_pb_spec n (f64_zero false) t1 Hs1) as (t2 & a2 & E2 & [Hs2 Hp2 Ht2 Hc2 Hcl2]).
  { split; [apply finite_number, f64_zero_finite|done]. }
  rewrite Hcl1 in *. rewrite E2.
  destruct (SetStatus_pb_spec n nodeStatusActive t2 Hs2) as (t3 & a3 & E3 & [Hs3 Hp3 Ht3 Hc3 Hcl3]). rewrite Hcl2 in *. rewrite E3.
  assert (Hm : peers t3 = alter (fun e => with_status nodeStatusActive a3 (with_score (f64_zero false) a2 e)) (n, st_clusterPath t) (peers t)).
  { rewrite Hp3, Hp2, Hp1. apply alter_alter. }
  destruct (peer t n) as [e|] eqn:He.
  - exists (if degraded (e_Status e) then snd (st_publish (fun at_ => EvNodeRecovered at_ n (st_clusterPath t) (e_Status e)) (drop_timer n t3))
            else drop_timer n t3), (with_status nodeStatusActive a3 (with_score (f64_zero false) a2 e)).
    split; [by destruct (degraded (e_Status e))|]. split; [by intros ? [= <-]|].
    assert (Hm' : peers t3 = alter (fun _ => with_status nodeStatusActive a3 (with_score (f64_zero false) a2 e)) (n, st_clusterPath t) (peers t)).
    { rewrite Hm. by rewrite !(alter_insert_at _ _ _ e He). }
    destruct (degraded (e_Status e)); split; simpl; try congruence; try done.
  - exists (drop_timer n t3), (with_status nodeStatusActive a3 {|
      e_NodeID := ""; e_ClusterPath := ""; e_PublicKey := []; e_Addresses := []; e_Region := ""; e_Datacenter := ""; e_Capabilities := None;
      e_FirstSeen := 0; e_LastSeen := 0; e_LastConnected := 0; e_UpdatedAt := 0; e_ConnectionAttempts := 0; e_ConnectionSuccess := 0;
      e_SuccessRate := f64_zero false; e_ConsecutiveFails := 0; e_ReliabilityScore := f64_zero false; e_LastProbeTime := 0;
      e_LastProbeSuccess := false; e_Status := ""; e_IsConnected := false |}).
    split; [done|]. split; [done|]. split; simpl; try congruence; try done. unfold peers in *; simpl. rewrite Hm.
    apply map_eq. intros i. rewrite !lookup_alter. destruct (decide ((n, st_clusterPath t) = i)) as [<-|]; [|done].
    unfold peer, peers in He. by rewrite He.
Qed.

(** *** Scores and thresholds as numbers *)

Definition level (eff : effectiveThresholds) (score : f64) : NodeStatus :=
  if f64_ge score (eff_Quarantine eff) then nodeStatusQuarantined
  else if f64_ge score (eff_Suspected eff) then nodeStatusSuspected else nodeStatusActive.

(** A score is a number without sign: zero and what failures add to it. *)
Definition score_ok (x : f64) : Prop := number x /\ unsigned x.

Lemma unsigned_key x : f64_wf x -> unsigned x -> 0 <= key x.
Proof.
  destruct x as [|s|s m e]; simpl; [done| |]; intros Hw ->; simpl.
  - pose proof big_pos. lia.
  - apply Z.mul_nonneg_nonneg; [lia|]. apply Z.pow_nonneg. lia.
Qed.

Lemma unsigned_number x : f64_wf x -> unsigned x -> number x.
Proof. by destruct x. Qed.

Lemma add_score x y : score_ok x -> score_ok y -> score_ok (f64_add x y) /\ key x <= key (f64_add x y).
Proof.
  intros [[Hx Hx'] Ux] [[Hy Hy'] Uy].
  assert (Hw : f64_wf (f64_add x y)) by (by apply f64_add_wf).
  assert (Hu : unsigned (f64_add x y)) by (by apply add_unsigned).
  split; [by split; [apply unsigned_number|]|].
  clear Hw Hu. pose proof (unsigned_key y Hy Uy) as Ky. destruct x as [|s|s m e]; [done| |]; destruct y as [|s'|s' m' e']; try done.
  - simpl in Ux, Uy. subst. reflexivity.
  - simpl in Uy. subst. change (f64_add (Fin s m e) (Inf false)) with (Inf false). change (key (Inf false)) with big.
    pose proof (key_lt_big (Fin s m e) Hx). lia.
  - rewrite key_add by done. apply key_round_ge; [done|lia|lia].
Qed.

Lemma score_storable x : score_ok x -> storable x.
Proof. intros [? ?]. by apply unsigned_storable. Qed.

Lemma zero_score_ok : score_ok (f64_zero false).
Proof. split; [apply finite_number, f64_zero_finite|done]. Qed.

(** A configuration whose thresholds are ordered numbers. *)
Record thresholds_ok (eff : effectiveThresholds) : Prop := {
  th_suspected : number (eff_Suspected eff); th_quarantine : number (eff_Quarantine eff);
  th_order : key (eff_Suspected eff) <= key (eff_Quarantine eff); th_positive : 0 < key (eff_Suspected eff)
}.

Lemma level_key eff x : thresholds_ok eff -> number x ->
  level eff x = if key (eff_Quarantine eff) <=? key x then nodeStatusQuarantined
                else if key (eff_Suspected eff) <=? key x then nodeStatusSuspected else nodeStatusActive.
Proof. intros [? ? ? ?] Hx. unfold level, f64_ge. by rewrite !f64_le_spec. Qed.

Lemma crosses_key th old new : number th -> number old -> number new -> crosses th old new = (key old <? key th) && (key th <=? key new).
Proof. intros. unfold crosses, f64_ge. by rewrite f64_lt_spec, f64_le_spec. Qed.

(** A rising score moves the status to its level. *)
Lemma status_after_level eff old new : thresholds_ok eff -> number old -> number new -> key old <= key new ->
  status_after eff old new (level eff old) = level eff new.
Proof.
  intros Hth Ho Hn Hle. destruct Hth as [H1 H2 H3 H4] eqn:E. rewrite !level_key by done. unfold status_after.
  rewrite !crosses_key by done. split_bools; simpl; try done; lia.
Qed.

(** *** The status follows the score *)

Record graded (t : ScoreTracker) : Prop := {
  graded_sound : sound (st_phonebook t);
  graded_peer : forall n e, peer t n = Some e ->
    score_ok (e_ReliabilityScore e) /\ e_Status e = level (eff_of t) (e_ReliabilityScore e) /\
    (is_Some (st_timers t !! n) <-> e_Status e = nodeStatusQuarantined)
}.

Lemma size_insert_same (c : string) (k : key2) (e e' : Entry) (m : gmap key2 Entry) :
  m !! k = Some e -> e_ClusterPath e' = e_ClusterPath e -> size (in_cluster c (<[k := e']> m)) = size (in_cluster c m).
Proof.
  intros Hk Hc. rewrite <- !size_dom. f_equal. apply set_eq. intros i. rewrite !elem_of_dom. unfold is_Some, in_cluster.
  setoid_rewrite map_lookup_filter_Some. rewrite lookup_insert. destruct (decide (k = i)) as [<-|]; [|done]. simpl. rewrite Hk.
  split; intros (x & [= <-] & Hx); eauto with congruence.
Qed.

Lemma eff_insert t t' n e e' timers :
  peer t n = Some e -> same_identity e e' -> after t t' (<[(n, st_clusterPath t) := e']> (peers t)) timers -> eff_of t' = eff_of t.
Proof.
  intros He (_ & Hc & _) [_ Hp _ Hcf Hcl]. unfold eff_of, size_of. rewrite Hcf, Hcl, Hp. by rewrite (size_insert_same _ _ e).
Qed.

(** One peer's entry and timer change, to a state that is graded again. *)
Lemma graded_insert t t' n e e' timers :
  graded t -> peer t n = Some e -> same_identity e e' ->
  after t t' (<[(n, st_clusterPath t) := e']> (peers t)) timers ->
  (forall m, m <> n -> timers !! m = st_timers t !! m) ->
  score_ok (e_ReliabilityScore e') -> e_Status e' = level (eff_of t) (e_ReliabilityScore e') ->
  (is_Some (timers !! n) <-> e_Status e' = nodeStatusQuarantined) ->
  graded t' /\ eff_of t' = eff_of t.
Proof.
  intros [Hs Hg] He Hid Ha Htm Hok Hlev Hti. pose proof (eff_insert _ _ _ _ _ _ He Hid Ha) as Heff. destruct Ha as [Hs' Hp Ht Hcf Hcl].
  split; [|done]. split; [done|]. intros m em. unfold peer. rewrite Hcl, Hp, Heff, Ht, lookup_insert.
  destruct (decide ((n, st_clusterPath t) = (m, st_clusterPath t))) as [[= <-]|Hne]; [by intros [= <-]|].
  intros Hm. rewrite Htm by congruence. by apply Hg.
Qed.

Inductive tracker_op := TFail (n reason : string) | TSuccess (n reason : string) | TAlive (n : string) (score : f64) (reason : string).

Definition tracker_step (t : ScoreTracker) (o : tracker_op) : ScoreTracker :=
  match o with
  | TFail n r => snd (RecordFailure n r t)
  | TSuccess n r => snd (RecordSuccess n r t)
  | TAlive n x r => snd (SetScore n x true r t)
  end.

Lemma active_level eff : thresholds_ok eff -> level eff (f64_zero false) = nodeStatusActive.
Proof.
  intros Hth. rewrite level_key by (done || apply zero_score_ok). destruct Hth as [? ? ? ?].
  change (key (f64_zero false)) with 0. split_bools; try done; lia.
Qed.

Lemma unknown_unchanged t n t1 r : sound (st_phonebook t) -> peer t n = None -> call (pb_Get n (st_clusterPath t)) t = (r, t1) ->
  r = Ok None /\ unchanged t t1.
Proof. intros Hs Hn E. destruct (Get_spec n t Hs) as (t' & E' & Hu). rewrite Hn in E'. rewrite E' in E. by injection E as <- <-. Qed.

Lemma graded_unchanged t t' : graded t -> unchanged t t' -> graded t' /\ eff_of t' = eff_of t.
Proof.
  intros [Hs Hg] [Hs' Hp Ht Hcf Hcl]. assert (eff_of t' = eff_of t) as Heff by (unfold eff_of, size_of; by rewrite Hcf, Hcl, Hp).
  split; [|done]. split; [done|]. intros n e. unfold peer. rewrite Heff, Hcl, Hp, Ht. apply Hg.
Qed.

(** The timer starts when the level becomes quarantined. *)
Lemma timer_crossing eff old new n now (timers : gmap string Time) :
  thresholds_ok eff -> number old -> number new -> key old <= key new ->
  (is_Some (timers !! n) <-> level eff old = nodeStatusQuarantined) ->
  is_Some ((if crosses (eff_Quarantine eff) old new then <[n := now]> timers else timers) !! n) <-> level eff new = nodeStatusQuarantined.
Proof.
  intros Hth Ho Hn Hle. rewrite !level_key by done. rewrite crosses_key by (done || apply Hth).
  destruct (Z.ltb_spec (key old) (key (eff_Quarantine eff))), (Z.leb_spec (key (eff_Quarantine eff)) (key new)),
    (Z.leb_spec (key (eff_Quarantine eff)) (key old)); simpl; try lia; intros Ht.
  - rewrite lookup_insert_eq. split; eauto.
  - rewrite Ht. split_bools; split; intros; discriminate.
  - done.
Qed.

(** A peer that is reset is active without a timer. *)
Lemma reset_graded t t' n e e' :
  thresholds_ok (eff_of t) -> graded t -> peer t n = Some e -> same_identity e e' ->
  e_ReliabilityScore e' = f64_zero false -> e_Status e' = nodeStatusActive ->
  after t t' (<[(n, st_clusterPath t) := e']> (peers t)) (delete n (st_timers t)) -> graded t' /\ eff_of t' = eff_of t.
Proof.
  intros Hth Hg He Hid Hsc Hst Ha. eapply graded_insert; try done.
  - intros m Hm. by rewrite lookup_delete_ne.
  - rewrite Hsc. apply zero_score_ok.
  - by rewrite Hsc, Hst, active_level.
  - rewrite lookup_delete_eq, Hst. split; [by intros [? [=]]|discriminate].
Qed.

Lemma fail_graded t n r e :
  score_ok (ScoreIncrement (st_config t)) -> thresholds_ok (eff_of t) -> graded t -> peer t n = Some e ->
  exists t' e', RecordFailure n r t = (f64_add (e_ReliabilityScore e) (ScoreIncrement (st_config t)), t') /\
    graded t' /\ eff_of t' = eff_of t /\ st_config t' = st_config t /\ st_clusterPath t' = st_clusterPath t /\
    peer t' n = Some e' /\ e_ReliabilityScore e' = f64_add (e_ReliabilityScore e) (ScoreIncrement (st_config t)).
Proof.
  intros Hinc Hth Hg He. destruct (graded_peer _ Hg _ _ He) as (Hok & Hlev & Hti). destruct (add_score _ _ Hok Hinc) as [Hok' Hle].
  destruct (RecordFailure_spec n r t e (graded_sound _ Hg) He (score_storable _ Hok')) as (t' & e' & now & E & Hsc & Hst & Hid & Ha).
  rewrite Hlev, status_after_level in Hst by (done || apply Hok || apply Hok').
  destruct (graded_insert _ _ _ _ _ _ Hg He Hid Ha) as [Hg' Heff].
  - intros m Hm. destruct (crosses _ _ _); [|done]. by rewrite lookup_insert_ne.
  - by rewrite Hsc.
  - by rewrite Hsc.
  - rewrite Hst. apply timer_crossing; try done; [apply Hok|apply Hok'|]. by rewrite <- Hlev.
  - exists t', e'. destruct Ha as [_ Hp _ Hcf Hcl]. split_and!; try done. unfold peer. rewrite Hcl, Hp. apply lookup_insert_eq.
Qed.

Lemma step_graded t o :
  score_ok (ScoreIncrement (st_config t)) -> thresholds_ok (eff_of t) -> graded t ->
  graded (tracker_step t o) /\ eff_of (tracker_step t o) = eff_of t /\ st_config (tracker_step t o) = st_config t.
Proof.
  intros Hinc Hth Hg. pose proof (graded_sound _ Hg) as Hs. destruct o as [n r|n r|n x r]; cbn [tracker_step].
  - destruct (peer t n) as [e|] eqn:He; [by destruct (fail_graded t n r e Hinc Hth Hg He) as (t' & e' & -> & H1 & H2 & H3 & _)|].
    unfold RecordFailure. destruct (call (pb_Get n (st_clusterPath t)) t) as [r1 t1] eqn:E.
    destruct (unknown_unchanged _ _ _ _ Hs He E) as [-> Hu]. simpl. destruct (graded_unchanged _ _ Hg Hu). by split_and!; [..|apply Hu].
  - destruct (peer t n) as [e|] eqn:He.
    + destruct (RecordSuccess_spec n r t e Hs He) as (t' & e' & -> & Hsc & Hst & Hid & Ha). simpl.
      destruct (reset_graded _ _ _ _ _ Hth Hg He Hid Hsc Hst Ha). by split_and!; [..|apply (after_config _ _ _ _ Ha)].
    + unfold RecordSuccess. destruct (call (pb_Get n (st_clusterPath t)) t) as [r1 t1] eqn:E.
      destruct (unknown_unchanged _ _ _ _ Hs He E) as [-> Hu]. simpl. destruct (graded_unchanged _ _ Hg Hu). by split_and!; [..|apply Hu].
  - destruct (SetScore_alive_spec n x r t Hs) as (t' & e' & -> & He' & Ha). simpl. destruct (peer t n) as [e|] eqn:He.
    + destruct (He' e eq_refl) as (Hsc & Hst & Hid). rewrite (alter_insert_at _ _ _ e He) in Ha.
      destruct (reset_graded _ _ _ _ _ Hth Hg He Hid Hsc Hst Ha). by split_and!; [..|apply (after_config _ _ _ _ Ha)].
    + assert (Hp : alter (fun _ => e') (n, st_clusterPath t) (peers t) = peers t).
      { apply map_eq. intros i. rewrite lookup_alter. destruct (decide ((n, st_clusterPath t) = i)) as [<-|]; [|done].
        unfold peer in He. by rewrite He. }
      rewrite Hp in Ha. destruct Ha as [Hs' Hp' Ht Hcf Hcl].
      assert (Heff : eff_of t' = eff_of t) by (unfold eff_of, size_of; by rewrite Hcf, Hcl, Hp').
      split_and!; [|done..]. split; [done|]. intros m em. unfold peer. rewrite Heff, Hcl, Hp', Ht. intros Hm.
      rewrite lookup_delete_ne; [by apply (graded_peer _ Hg)|]. intros <-. unfold peer in He. congruence.
Qed.

(** C37: the status of every peer stays the level of its score.  Take a
    tracker whose phonebook executes every statement, whose score increment is
    not NaN and has no minus sign, and whose two thresholds for the size of
    its cluster are not NaN, positive and in order (as they are when a scale
    band covers the size), and let every peer have the level of its score as its status:
    active below the suspected threshold, quarantined from the quarantine
    threshold on, suspected in between; and let exactly the quarantined peers
    have a running timer.  This is so again after any sequence of failed and
    successful probes and of news that peers are alive, and the thresholds
    are the same, while the membership does not change. *)
Theorem health_status_graded ops t
    (Hinc : score_ok (ScoreIncrement (st_config t))) (Hth : thresholds_ok (eff_of t)) (Hg : graded t) :
  graded (fold_left tracker_step ops t) /\ eff_of (fold_left tracker_step ops t) = eff_of t.
Proof.
  revert t Hinc Hth Hg. induction ops as [|o ops IH]; intros t Hinc Hth Hg; [done|]. simpl.
  destruct (step_graded t o Hinc Hth Hg) as (Hg' & He & Hc). destruct (IH (tracker_step t o)) as [H1 H2]; [by rewrite Hc|by rewrite He|done|].
  split; [done|]. by rewrite H2.
Qed.

(** *** How many failed probes it takes *)

Fixpoint failures (k : nat) (n reason : string) (t : ScoreTracker) : ScoreTracker :=
  match k with O => t | S k => snd (RecordFailure n reason (failures k n reason t)) end.

(** Failed probes until a peer is suspected and quarantined, by cluster size. *)
Definition probes_to (size : Z) : Z * Z :=
  if size <? 3 then (3, 6) else if size <? 6 then (4, 10) else if size <? 11 then (6, 14) else (8, 20).

Definition half : Z := 2 ^ (scale - 1).

Lemma half_scale : 2 * half = 2 ^ scale.
Proof. unfold half, scale. rewrite <- Z.pow_succ_r; [done|lia]. Qed.

Lemma threshold_reached th k q : 0 < half -> (q - 1) * half < key th <= q * half -> (key th <=? k * half) = (q <=? k).
Proof. intros Hh Ht. destruct (Z.leb_spec q k); [apply Z.leb_le|apply Z.leb_gt]; nia. Qed.

Lemma half_pos : 0 < half.
Proof. unfold half, scale. apply Z.pow_pos_nonneg; lia. Qed.

(** The thresholds of the default configuration, in half points. *)
Definition default_bounds (size : Z) : bool :=
  let eff := computeEffective DefaultScoreConfig size in let '(s, q) := probes_to size in
  finiteb (eff_Suspected eff) && finiteb (eff_Quarantine eff) &&
  ((s - 1) * half <? key (eff_Suspected eff)) && (key (eff_Suspected eff) <=? s * half) &&
  ((q - 1) * half <? key (eff_Quarantine eff)) && (key (eff_Quarantine eff) <=? q * half).

Lemma default_bounds_all size : 0 <= size -> default_bounds size = true.
Proof.
  intros Hs. assert (Hb : band_for size DefaultScaleBands = band_for (if size <? 3 then 0 else if size <? 6 then 3 else if size <? 11 then 6 else 11) DefaultScaleBands).
  { unfold band_for, DefaultScaleBands. cbn [fold_left MinNodes]. destruct (Z.leb_spec 0 size); [|lia].
    destruct (Z.leb_spec 3 size), (Z.ltb_spec size 3); try lia; destruct (Z.leb_spec 6 size), (Z.ltb_spec size 6); try lia;
      destruct (Z.leb_spec 11 size), (Z.ltb_spec size 11); try lia; reflexivity. }
  assert (He : forall size', band_for size DefaultScaleBands = band_for size' DefaultScaleBands ->
            computeEffective DefaultScoreConfig size = computeEffective DefaultScoreConfig size').
  { intros size' E. unfold computeEffective. cbn [ScaleBands DefaultScoreConfig DefaultScaleBands].
    fold DefaultScaleBands. by rewrite E. }
  unfold default_bounds, probes_to. rewrite (He _ Hb).
  destruct (size <? 3); [by vm_compute|]. destruct (size <? 6); [by vm_compute|]. destruct (size <? 11); by vm_compute.
Qed.

Lemma default_thresholds size : 0 <= size -> thresholds_ok (computeEffective DefaultScoreConfig size).
Proof.
  intros Hs. pose proof (default_bounds_all size Hs) as H. unfold default_bounds in H. pose proof half_pos.
  destruct (probes_to size) as [s q] eqn:E. rewrite !andb_true_iff, !Z.ltb_lt, !Z.leb_le in H.
  destruct H as (((((H1 & H2) & H3) & H4) & H5) & H6). apply finiteb_finite in H1, H2.
  assert (1 < s /\ s < q) by (unfold probes_to in E; repeat case_match; simplify_eq; lia).
  split; [by apply finite_number..| |]; nia.
Qed.

Lemma default_increment : DefaultScoreIncrement = Fin false 4503599627370496 (-53).
Proof. by vm_compute. Qed.

Lemma default_increment_ok : score_ok DefaultScoreIncrement.
Proof. rewrite default_increment. split; [split; [unfold f64_wf, emin, emax; lia|done]|done]. Qed.

Lemma add_half x k : 0 <= k < 2 ^ 52 -> score_ok x -> key x = k * half ->
  score_ok (f64_add x DefaultScoreIncrement) /\ key (f64_add x DefaultScoreIncrement) = (k + 1) * half.
Proof.
  intros Hk Hx Hkey. assert (Hinc : finite DefaultScoreIncrement) by (by apply finiteb_finite).
  destruct (add_score x DefaultScoreIncrement Hx) as [Hok _]; [exact default_increment_ok|]. split; [done|].
  pose proof half_pos.
  assert (Hf : finite x). { apply number_finite; [apply Hx|]. rewrite Hkey. assert (half * 2 ^ 53 < big) by by vm_compute. nia. }
  rewrite key_add by done. change (key DefaultScoreIncrement) with half. rewrite Hkey.
  assert (Hv : key (Fin false (k + 1) (-1)) = (k + 1) * half) by done.
  replace (k * half + half) with ((k + 1) * half) by lia. rewrite <- Hv, <- (Z.mul_1_r (key (Fin false (k + 1) (-1)))) at 1.
  rewrite key_round_id; [done| |lia]. simpl. unfold emin, emax. lia.
Qed.

Lemma failures_score k n reason t e :
  st_config t = DefaultScoreConfig -> graded t -> peer t n = Some e -> e_ReliabilityScore e = f64_zero false -> Z.of_nat k < 2 ^ 52 ->
  exists e', graded (failures k n reason t) /\ eff_of (failures k n reason t) = eff_of t /\
    st_config (failures k n reason t) = DefaultScoreConfig /\
    peer (failures k n reason t) n = Some e' /\ score_ok (e_ReliabilityScore e') /\ key (e_ReliabilityScore e') = Z.of_nat k * half.
Proof.
  intros Hcfg Hg He H0 Hk. induction k as [|k IH].
  - exists e. rewrite H0. split_and!; first [done|apply zero_score_ok].
  - destruct IH as (e1 & Hg1 & Heff1 & Hc1 & He1 & Hok1 & Hk1); [lia|]. cbn [failures].
    assert (Hth : thresholds_ok (eff_of (failures k n reason t))) by (rewrite Heff1; unfold eff_of; rewrite Hcfg; apply default_thresholds; unfold size_of; lia).
    destruct (add_half (e_ReliabilityScore e1) (Z.of_nat k)) as [Hok2 Hk2]; [lia|done..|].
    destruct (fail_graded (failures k n reason t) n reason e1) as (t' & e' & E & Hg' & Heff' & Hc' & Hcl' & Hp' & Hs'); try done.
    { rewrite Hc1. exact default_increment_ok. }
    rewrite E. simpl. rewrite Hc1 in Hs'. exists e'. rewrite Hs'. split_and!; try done; try congruence.
    cbn [ScoreIncrement DefaultScoreConfig]. rewrite Hk2. f_equal. lia.
Qed.

(** C38: with the default configuration a peer that was healthy is
    suspected and quarantined after exactly so many failed probes: 3 and 6 in
    a cluster of up to 2 nodes, 4 and 10 up to 5, 6 and 14 up to 10, 8 and 20
    above; rounding of the scaled thresholds included. *)
Theorem health_default_probes k n reason t e
    (Hcfg : st_config t = DefaultScoreConfig) (Hg : graded t) (He : peer t n = Some e)
    (H0 : e_ReliabilityScore e = f64_zero false) (Hk : Z.of_nat k < 2 ^ 52) :
  exists e', peer (failures k n reason t) n = Some e' /\
    e_Status e' = (let '(suspect, quarantine) := probes_to (size_of t) in
                   if Z.of_nat k <? suspect then nodeStatusActive
                   else if Z.of_nat k <? quarantine then nodeStatusSuspected else nodeStatusQuarantined).
Proof.
  destruct (failures_score k n reason t e Hcfg Hg He H0 Hk) as (e' & Hg' & Heff & _ & He' & Hok & Hkey).
  exists e'. split; [done|]. destruct (graded_peer _ Hg' _ _ He') as (_ & -> & _). rewrite Heff.
  assert (Hsz : 0 <= size_of t) by (unfold size_of; lia). unfold eff_of. rewrite Hcfg.
  rewrite level_key; [|by apply default_thresholds|exact (proj1 Hok)]. rewrite Hkey.
  pose proof (default_bounds_all (size_of t) Hsz) as H. unfold default_bounds in H.
  destruct (probes_to (size_of t)) as [s q] eqn:E. rewrite !andb_true_iff, !Z.ltb_lt, !Z.leb_le in H.
  destruct H as (((((_ & _) & H3) & H4) & H5) & H6).
  assert (s < q) by (unfold probes_to in E; repeat case_match; simplify_eq; lia).
  rewrite (threshold_reached _ _ q half_pos) by done. rewrite (threshold_reached _ _ s half_pos) by done.
  split_bools; try done; lia.
Qed.

(** *** Beyond the threshold *)

(** Failures of a peer whose score is past both thresholds change nothing but
    the score. *)
Lemma failure_past_threshold n reason t e :
  sound (st_phonebook t) -> score_ok (ScoreIncrement (st_config t)) -> thresholds_ok (eff_of t) ->
  peer t n = Some e -> score_ok (e_ReliabilityScore e) -> key (eff_Quarantine (eff_of t)) <= key (e_ReliabilityScore e) ->
  let t' := snd (RecordFailure n reason t) in
  exists e', peer t' n = Some e' /\ e_Status e' = e_Status e /\ st_timers t' = st_timers t /\ eff_of t' = eff_of t /\
    sound (st_phonebook t') /\ st_config t' = st_config t /\
    score_ok (e_ReliabilityScore e') /\ key (e_ReliabilityScore e) <= key (e_ReliabilityScore e').
Proof.
  intros Hs Hinc Hth He Hok Hq t'. destruct (add_score _ _ Hok Hinc) as [Hok' Hle].
  destruct (RecordFailure_spec n reason t e Hs He (score_storable _ Hok')) as (t1 & e1 & now & E & Hsc & Hst & Hid & Ha).
  assert (t' = t1) as -> by (unfold t'; by rewrite E). exists e1. pose proof (eff_insert _ _ _ _ _ _ He Hid Ha) as Heff.
  unfold status_after in Hst. rewrite !crosses_key in Hst by (apply Hth || apply Hok || apply Hok').
  destruct Ha as [Hs' Hp Ht Hcf Hcl]. rewrite crosses_key in Ht by (apply Hth || apply Hok || apply Hok').
  destruct Hth as [? ? Ho ?]. destruct (Z.ltb_spec (key (e_ReliabilityScore e)) (key (eff_Quarantine (eff_of t)))); [lia|].
  destruct (Z.ltb_spec (key (e_ReliabilityScore e)) (key (eff_Suspected (eff_of t)))); [lia|]. simpl in Hst, Ht.
  rewrite Hsc. split_and!; try done; try congruence. unfold peer. rewrite Hcl, Hp. apply lookup_insert_eq.
Qed.

(** A peer whose score is already at or above the quarantine
    threshold is never quarantined by further failures: after any number of
    failed probes it keeps its status and has no new timer.  When a cluster
    shrinks into a band with lower thresholds, a suspected peer is in this
    state, and an unreachable node is neither quarantined nor failed. *)
Theorem health_past_threshold_stuck k n reason t e
    (Hs : sound (st_phonebook t)) (Hinc : score_ok (ScoreIncrement (st_config t))) (Hth : thresholds_ok (eff_of t))
    (He : peer t n = Some e) (Hok : score_ok (e_ReliabilityScore e))
    (Hq : f64_ge (e_ReliabilityScore e) (eff_Quarantine (eff_of t)) = true) :
  exists e', peer (failures k n reason t) n = Some e' /\ e_Status e' = e_Status e /\ st_timers (failures k n reason t) = st_timers t.
Proof.
  unfold f64_ge in Hq. rewrite f64_le_spec in Hq by (apply Hth || apply Hok). apply Z.leb_le in Hq.
  assert (H : exists e', peer (failures k n reason t) n = Some e' /\ e_Status e' = e_Status e /\
    st_timers (failures k n reason t) = st_timers t /\ eff_of (failures k n reason t) = eff_of t /\
    sound (st_phonebook (failures k n reason t)) /\ st_config (failures k n reason t) = st_config t /\
    score_ok (e_ReliabilityScore e') /\ key (e_ReliabilityScore e) <= key (e_ReliabilityScore e')).
  { induction k as [|k (e1 & H1 & H2 & H3 & H4 & H5 & H6 & H7 & H8)]; [by exists e|]. cbn [failures].
    destruct (failure_past_threshold n reason (failures k n reason t) e1) as (e2 & G1 & G2 & G3 & G4 & G5 & G6 & G7 & G8);
      [done|by rewrite H6|by rewrite H4|done|done|rewrite H4; lia|].
    exists e2. split_and!; try done; try congruence. lia. }
  destruct H as (e' & H1 & H2 & H3 & _). eauto.
Qed.

(** *** Timeouts *)

Definition overdue (timeout : Duration) (now : Time) (timer : string * Time) : bool := negb (time_Sub now timer.2 <=? timeout).

Definition failure_news (ev : HealthEvent) : option string := match ev with EvNodeFailed _ n _ => Some n | _ => None end.

(** The effect of failing the peers of [ns] on one peer and its timer. *)
Record failed_exactly (ns : list string) (t t' : ScoreTracker) : Prop := {
  fe_sound : sound (st_phonebook t');
  fe_timers : forall n, st_timers t' !! n = if bool_decide (n ∈ ns) then None else st_timers t !! n;
  fe_peers : forall n, match peer t n with
                       | None => peer t' n = None
                       | Some e => exists e', peer t' n = Some e' /\ same_identity e e' /\ e_ReliabilityScore e' = e_ReliabilityScore e /\
                                     e_Status e' = if bool_decide (n ∈ ns) then nodeStatusFailed else e_Status e
                       end;
  fe_news : omap failure_news (st_bus t') = omap failure_news (st_bus t) ++ ns;
  fe_cluster : st_clusterPath t' = st_clusterPath t
}.

Lemma failed_exactly_nil t t' : sound (st_phonebook t') -> members (st_phonebook t') = members (st_phonebook t) ->
  st_timers t' = st_timers t -> st_bus t' = st_bus t -> st_clusterPath t' = st_clusterPath t -> failed_exactly [] t t'.
Proof.
  intros Hs Hm Ht Hb Hc. split; [done| | |by rewrite Hb, app_nil_r|done].
  - intros n. by rewrite Ht.
  - intros n. unfold peer, peers. rewrite Hc, Hm. destruct (members (st_phonebook t) !! (n, st_clusterPath t)) as [e|]; [|done].
    exists e. by split_and!.
Qed.

Lemma failed_exactly_trans ns n1 t t1 t2 :
  failed_exactly ns t t1 -> failed_exactly [n1] t1 t2 -> failed_exactly (ns ++ [n1]) t t2.
Proof.
  intros [_ Ht1 Hp1 Hb1 Hc1] [Hs2 Ht2 Hp2 Hb2 Hc2].
  assert (Hin : forall n, bool_decide (n ∈ ns ++ [n1]) = bool_decide (n ∈ [n1]) || bool_decide (n ∈ ns)).
  { intros n. rewrite <- bool_decide_or. apply bool_decide_ext. rewrite elem_of_app. tauto. }
  split; [done| | | |congruence].
  - intros n. rewrite Ht2, Ht1, Hin. by destruct (bool_decide (n ∈ [n1])).
  - intros n. specialize (Hp1 n). specialize (Hp2 n). destruct (peer t n) as [e|].
    + destruct Hp1 as (e1 & E1 & (Hi1 & Hi2 & Hi3 & Hi4) & Hsc1 & Hst1). rewrite E1 in Hp2.
      destruct Hp2 as (e2 & E2 & (Hj1 & Hj2 & Hj3 & Hj4) & Hsc2 & Hst2).
      exists e2. unfold same_identity. split_and!; try congruence. rewrite Hst2, Hin, Hst1. by destruct (bool_decide (n ∈ [n1])).
    + by rewrite Hp1 in Hp2.
  - rewrite Hb2, Hb1. by rewrite app_assoc.
Qed.

Lemma check_timer_spec eff now failed t timer : sound (st_phonebook t) ->
  exists t', check_timer eff now (failed, t) timer =
               (failed ++ (if overdue (eff_Timeout eff) now timer then [timer.1] else []), t') /\
    failed_exactly (if overdue (eff_Timeout eff) now timer then [timer.1] else []) t t'.
Proof.
  intros Hs. destruct timer as [n at_]. unfold check_timer, overdue. simpl. destruct (time_Sub now at_ <=? eff_Timeout eff); simpl.
  - exists t. rewrite app_nil_r. split; [done|]. by apply failed_exactly_nil.
  - destruct (SetStatus_pb_spec n nodeStatusFailed t Hs) as (t1 & a1 & E & [Hs1 Hp1 Ht1 Hcf1 Hcl1]).
    assert (Hb1 : st_bus t1 = st_bus t) by (unfold call in E; destruct (pb_SetStatus _ _ _ _); by injection E as _ <-).
    rewrite E. eexists. split; [reflexivity|]. split; simpl; try done.
    + intros m. rewrite lookup_delete, Ht1. destruct (decide (n = m)) as [<-|Hne].
      * by rewrite bool_decide_eq_true_2 by (by apply list_elem_of_singleton).
      * by rewrite bool_decide_eq_false_2 by (rewrite list_elem_of_singleton; congruence).
    + intros m. unfold peer, peers in *; simpl. rewrite Hcl1, Hp1, lookup_alter.
      destruct (decide ((n, st_clusterPath t) = (m, st_clusterPath t))) as [[= <-]|Hne].
      * rewrite bool_decide_eq_true_2 by (by apply list_elem_of_singleton).
        destruct (members (st_phonebook t) !! (n, st_clusterPath t)) as [e|]; [|done]. by exists (with_status nodeStatusFailed a1 e).
      * rewrite bool_decide_eq_false_2 by (rewrite list_elem_of_singleton; congruence).
        destruct (members (st_phonebook t) !! (m, st_clusterPath t)) as [e|]; [|done]. by exists e.
    + rewrite omap_app, Hb1. done.
Qed.

Lemma check_timers_spec eff now l failed t0 t :
  sound (st_phonebook t) -> failed_exactly failed t0 t ->
  exists t', fold_left (check_timer eff now) l (failed, t) = (failed ++ (List.filter (overdue (eff_Timeout eff) now) l).*1, t') /\
    failed_exactly (failed ++ (List.filter (overdue (eff_Timeout eff) now) l).*1) t0 t'.
Proof.
  revert failed t. induction l as [|timer l IH]; intros failed t Hs Hf; [exists t; simpl; by rewrite app_nil_r|].
  cbn [fold_left List.filter]. destruct (check_timer_spec eff now failed t timer Hs) as (t1 & -> & H1).
  destruct (overdue (eff_Timeout eff) now timer).
  - destruct (IH (failed ++ [timer.1]) t1 (fe_sound _ _ _ H1) (failed_exactly_trans _ _ _ _ _ Hf H1)) as (t' & E & H').
    exists t'. rewrite fmap_cons. by rewrite <- app_assoc in E, H'.
  - rewrite app_nil_r. apply IH; [apply H1|]. destruct Hf as [_ Ht Hp Hb Hc], H1 as [Hs1 Ht1 Hp1 Hb1 Hc1]. split; [done| | | |congruence].
    + intros n. by rewrite Ht1, Ht.
    + intros n. specialize (Hp n). specialize (Hp1 n). destruct (peer t0 n) as [e|]; [|by rewrite Hp in Hp1].
      destruct Hp as (e1 & E1 & (? & ? & ? & ?) & Hsc & Hst). rewrite E1 in Hp1. destruct Hp1 as (e2 & E2 & (? & ? & ? & ?) & Hsc2 & Hst2).
      exists e2. unfold same_identity. split_and!; try congruence. by rewrite Hst2, Hst.
    + by rewrite Hb1, Hb, app_nil_r.
Qed.

Lemma effective_pb t : exists p, snd (effective t) = with_pb p t.
Proof.
  unfold effective, clusterSize, call. destruct (pb_GetByCluster (st_clusterPath t) (st_phonebook t)) as [[l|e] p]; by exists p.
Qed.

(** A check fails exactly the peers whose quarantine has lasted
    longer than the effective timeout: it returns each of them once, sets
    their status, drops their timers and publishes one failure each; every
    other peer and timer is untouched. *)
Lemma health_timeouts_exact t (Hs : sound (st_phonebook t)) :
  exists failed t', CheckQuarantineTimeouts t = (failed, t') /\ NoDup failed /\ failed_exactly failed t t' /\
    forall n, n ∈ failed <-> exists at_, st_timers t !! n = Some at_ /\ eff_Timeout (eff_of t) < time_Sub (st_clock t (st_ticks t)) at_.
Proof.
  unfold CheckQuarantineTimeouts. destruct (effective_spec t Hs) as (t1 & E & Hu). destruct (effective_pb t) as [p Ep].
  rewrite E in *. simpl in Ep. subst t1. destruct Hu as [Hs1 Hp1 Ht1 Hcf1 Hcl1]. cbn [st_now with_pb st_clock st_ticks].
  set (t2 := {| st_config := _ |}). set (now := st_clock t (st_ticks t)).
  assert (H0 : failed_exactly [] t t2) by (by apply failed_exactly_nil).
  destruct (check_timers_spec (eff_of t) now (range (st_timers t)) [] t t2 Hs1 H0) as (t' & E' & H').
  exists (List.filter (overdue (eff_Timeout (eff_of t)) now) (range (st_timers t))).*1, t'. split; [exact E'|]. split; [|split; [exact H'|]].
  - pose proof (NoDup_range_fst (st_timers t)) as Hnd. revert Hnd. generalize (range (st_timers t)) as l.
    induction l as [|x l IH]; intros Hnd; [constructor|]. rewrite fmap_cons in Hnd. apply list.NoDup_cons in Hnd as [Hni Hnd].
    simpl. destruct (overdue _ _ x); [|auto]. rewrite fmap_cons. apply list.NoDup_cons. split; [|auto].
    intros (y & Hy & Hin)%list_elem_of_fmap. apply Hni, list_elem_of_fmap. exists y. split; [done|].
    apply list_elem_of_In, filter_In in Hin as [Hin _]. by apply list_elem_of_In.
  - intros n. rewrite list_elem_of_fmap. split.
    + intros ([n' at_] & -> & Hin). apply list_elem_of_In, filter_In in Hin as [Hin%list_elem_of_In Ho]. apply elem_of_range in Hin.
      exists at_. split; [done|]. unfold overdue in Ho. simpl in Ho. apply negb_true_iff, Z.leb_gt in Ho. done.
    + intros (at_ & Hin & Ho). exists (n, at_). split; [done|]. apply list_elem_of_In, filter_In. split; [by apply list_elem_of_In, elem_of_range|].
      unfold overdue. simpl. apply negb_true_iff, Z.leb_gt. done.
Qed.

End Behaviour.

(** ** A cluster of eleven nodes, for evaluation *)

Module HealthDemo.
Import PhonebookDemo.

Definition names : list string := ["n1"; "n2"; "n3"; "n4"; "n5"; "n6"; "n7"; "n8"; "n9"; "n10"; "n11"].
Definition eleven : Phonebook := fold_right join new_book names.
Definition tracker : ScoreTracker (I := sqlite_phonebook) :=
  NewScoreTracker cluster (eleven : @PB sqlite_phonebook) DefaultScoreConfig demo_clock.

Lemma eleven_sound : pb_sound eleven.
Proof. unfold eleven, names. cbn [fold_right]. do 11 apply join_sound. apply new_book_sound. Qed.

Lemma tracker_size : size_of tracker = 11.
Proof. vm_compute. reflexivity. Qed.

Lemma tracker_fresh : map_Forall (fun _ e => e_ReliabilityScore e = f64_zero false /\ e_Status e = nodeStatusActive) (peers tracker).
Proof. apply map_Forall_to_list. vm_compute. repeat constructor. Qed.

Lemma fresh_peer n e : peer tracker n = Some e -> e_ReliabilityScore e = f64_zero false /\ e_Status e = nodeStatusActive.
Proof. unfold peer. intros He. exact (tracker_fresh (n, st_clusterPath tracker) e He). Qed.

Lemma n5_known : exists e, peer tracker "n5" = Some e /\ e_ReliabilityScore e = f64_zero false.
Proof.
  destruct (peer tracker "n5") as [e|] eqn:E; [exists e; split; [done|by apply (fresh_peer "n5")]|].
  exfalso. revert E. vm_compute. discriminate.
Qed.

Lemma tracker_thresholds : thresholds_ok (eff_of tracker).
Proof. unfold eff_of. rewrite tracker_size. apply default_thresholds. lia. Qed.

Lemma tracker_graded : graded tracker.
Proof.
  split; [exact eleven_sound|]. intros n e He. destruct (fresh_peer n e He) as [Hs Ha]. rewrite Hs, Ha.
  split; [apply zero_score_ok|]. rewrite active_level by exact tracker_thresholds. split; [done|].
  split; [intros [? [=]]|discriminate].
Qed.

Definition probes : list tracker_op :=
  [TFail "n2" "direct"; TFail "n3" "direct"; TFail "n2" "direct"; TSuccess "n2" "direct"; TAlive "n3" (f64_zero false) "peer"].

Lemma health_status_graded_witness : graded (fold_left tracker_step probes tracker).
Proof.
  apply (health_status_graded probes tracker); [exact default_increment_ok|exact tracker_thresholds|exact tracker_graded].
Defined.

Lemma health_default_probes_witness :
  exists e, peer (failures 20 "n5" "direct" tracker) "n5" = Some e /\ e_Status e = nodeStatusQuarantined.
Proof.
  destruct n5_known as (e & He & H0).
  destruct (health_default_probes 20 "n5" "direct" tracker e) as (e' & H1 & H2);
    [reflexivity|exact tracker_graded|exact He|exact H0|reflexivity|].
  exists e'. split; [exact H1|]. rewrite H2, tracker_size. reflexivity.
Defined.

(** After 16 failures n5 is suspected with score 8; then n11 leaves. *)
Definition suspected : ScoreTracker (I := sqlite_phonebook) := failures 16 "n5" "direct" tracker.
Definition shrunk : ScoreTracker (I := sqlite_phonebook) :=
  with_pb (I := sqlite_phonebook) (snd (Remove "n11" cluster (st_phonebook (I := sqlite_phonebook) suspected))) suspected.

Lemma shrunk_facts : exists e, peer shrunk "n5" = Some e /\ e_Status e = nodeStatusSuspected /\
  e_ReliabilityScore e = Fin false 4503599627370496 (-49) /\ size_of shrunk = 10 /\
  f64_ge (e_ReliabilityScore e) (eff_Quarantine (eff_of shrunk)) = true.
Proof. eexists. split; [vm_compute; reflexivity|]. repeat split; vm_compute; reflexivity. Qed.

Lemma shrunk_sound : pb_sound (st_phonebook (I := sqlite_phonebook) shrunk).
Proof.
  assert (Hs : pb_sound (st_phonebook (I := sqlite_phonebook) suspected)).
  { destruct n5_known as (e & He & H0).
    destruct (failures_score 16 "n5" "direct" tracker e) as (e' & Hg & _); [done|exact tracker_graded|exact He|exact H0|done|].
    apply Hg. }
  destruct (Remove_sound "n11" cluster _ Hs) as (p' & E & Hs' & _). unfold shrunk. rewrite E. exact Hs'.
Qed.

Lemma health_past_threshold_stuck_witness :
  exists e, peer (failures 1000 "n5" "direct" shrunk) "n5" = Some e /\ e_Status e = nodeStatusSuspected.
Proof.
  destruct shrunk_facts as (e & He & Hst & Hsc & Hsz & Hq).
  destruct (health_past_threshold_stuck 1000 "n5" "direct" shrunk e) as (e' & H1 & H2 & _);
    [exact shrunk_sound|exact default_increment_ok|unfold eff_of; rewrite Hsz; apply default_thresholds; lia|exact He
    |rewrite Hsc; split; [split; [unfold f64_wf, emin, emax; lia|reflexivity]|reflexivity]|exact Hq|].
  exists e'. split; [exact H1|]. rewrite H2. exact Hst.
Defined.

(** n5 is quarantined; 31 seconds later the check fails it. *)
Definition late_clock (n : nat) : Time := demo_clock (40 + n).
Definition with_clock (clock : nat -> Time) (t : ScoreTracker (I := sqlite_phonebook)) : ScoreTracker (I := sqlite_phonebook) :=
  {| st_config := st_config t; st_clusterPath := st_clusterPath t; st_phonebook := st_phonebook t; st_timers := st_timers t;
     st_bus := st_bus t; st_clock := clock; st_ticks := st_ticks t |}.
Definition quarantined : ScoreTracker (I := sqlite_phonebook) := with_clock late_clock (failures 20 "n5" "direct" tracker).

Lemma with_clock_sound clock t : graded t -> sound (st_phonebook (with_clock clock t)).
Proof. by intros [Hs _]. Qed.

Lemma quarantined_sound : sound (st_phonebook quarantined).
Proof.
  destruct n5_known as (e & He & H0).
  destruct (failures_score 20 "n5" "direct" tracker e) as (e' & Hg & _); [done|exact tracker_graded|exact He|exact H0|done|].
  exact (with_clock_sound late_clock _ Hg).
Qed.

Lemma quarantined_times_out :
  exists failed t', CheckQuarantineTimeouts quarantined = (failed, t') /\ failed_exactly failed quarantined t' /\ "n5" ∈ failed.
Proof.
  destruct (health_timeouts_exact quarantined quarantined_sound) as (failed & t' & E & _ & Hf & Hin).
  exists failed, t'. split; [exact E|]. split; [exact Hf|]. apply Hin. eexists. split; [vm_compute; reflexivity|vm_compute; reflexivity].
Defined.

(** A quarantined node that joins again is active in the phonebook, but its
    timer is still running, and the next check fails it. *)
Definition rejoined : ScoreTracker (I := sqlite_phonebook) :=
  with_pb (I := sqlite_phonebook) (join "n5" (st_phonebook (I := sqlite_phonebook) quarantined)) quarantined.

Lemma rejoined_member_failed :
  (e_Status <$> peer rejoined "n5") = Some nodeStatusActive /\ fst (CheckQuarantineTimeouts rejoined) = ["n5"].
Proof. split; vm_compute; reflexivity. Qed.

(** A score received from a peer replaces the local one: a lower score leaves
    the peer quarantined with its timer running. *)
Lemma lowered_score_stays_quarantined :
  let t := snd (SetScore "n5" (f64_const 1 1) false "remote" quarantined) in
  (e_Status <$> peer t "n5") = Some nodeStatusQuarantined /\ (e_ReliabilityScore <$> peer t "n5") = Some (f64_const 1 1) /\
  is_Some (st_timers t !! "n5").
Proof. split_and!; [vm_compute; reflexivity..|]. vm_compute. eexists. reflexivity. Qed.

(** A NaN received as a score makes the row unreadable: the size of the
    cluster counts as one, and no entry of the cluster can be read. *)
Lemma nan_score_blinds :
  let t := snd (SetScore "n5" NaN false "remote" tracker) in
  fst (clusterSize t) = 1 /\ fst (GetByCluster cluster (st_phonebook (I := sqlite_phonebook) t)) = Err ErrScan.
Proof. split; vm_compute; reflexivity. Qed.

End HealthDemo.
