(* ===== verification/HealthMonitor.v ===== *)
(** * Health monitor ([node/health/monitor.go], [pubsub.go])

    The failure detector of a node: it probes a random peer every period,
    gossips the changes of scores, asks other nodes to probe unreachable peers
    and removes the peers whose quarantine timed out.

    A handler runs as one step.  PubSub, the ping protocol, random numbers and
    UUIDs answer from the streams of the state; [m_wire] is what was sent. *)

From stdpp Require Import sorting.
From S2P Require Import Prelude Float64 ElectionTopic Internals Shared Phonebook HealthScore.
Import signing.
Local Open Scope string_scope.
Local Open Scope list_scope.
Local Open Scope Z_scope.

(** ** Messages *)

Record HealthMessage := {
  hm_Type : string; hm_Payload : bytes; hm_SenderId : string; hm_Timestamp : option Time; hm_Signature : bytes
}.
Record ScoreUpdate := {
  su_TargetNodeId : string; su_Score : f64; su_Alive : bool; su_UpdatedBy : string; su_Timestamp : option Time; su_Reason : string
}.
Record PingRequest := { pr_TargetNodeId : string; pr_RequesterId : string; pr_RequestId : string; pr_Timestamp : option Time }.
Record ThresholdCrossed := { tc_TargetNodeId : string; tc_Score : f64; tc_ReportedBy : string; tc_Timestamp : option Time }.

(** Protocol Buffers. *)
Class HealthCodec := {
  marshalHealth : HealthMessage -> option bytes; unmarshalHealth : bytes -> option HealthMessage;
  marshalScore : ScoreUpdate -> option bytes; unmarshalScore : bytes -> option ScoreUpdate;
  marshalPing : PingRequest -> option bytes; unmarshalPing : bytes -> option PingRequest;
  marshalCrossed : ThresholdCrossed -> option bytes; unmarshalCrossed : bytes -> option ThresholdCrossed
}.
Class HealthLaws (P : HealthCodec) := {
  health_roundtrip : forall m b, marshalHealth m = Some b -> unmarshalHealth b = Some m;
  score_roundtrip : forall m b, marshalScore m = Some b -> unmarshalScore b = Some m;
  ping_roundtrip : forall m b, marshalPing m = Some b -> unmarshalPing b = Some m;
  crossed_roundtrip : forall m b, marshalCrossed m = Some b -> unmarshalCrossed b = Some m
}.

(** [sort.Slice]: elements that compare equal come in any order. *)
Class GoSort := {
  sort_Slice : forall {A : Type}, (A -> A -> bool) -> list A -> list A;
  sort_perm : forall A (less : A -> A -> bool) l, sort_Slice less l ≡ₚ l;
  sort_sorted : forall A (f : A -> Z) l, StronglySorted (fun a b => f a <= f b) (sort_Slice (fun a b => f a <? f b) l)
}.

#[export, refine] Instance merge_sort_slice : GoSort | 100 :=
  {| sort_Slice := fun A less l => merge_sort (fun a b => Is_true (negb (less b a))) l |}.
Proof.
  - intros A less l. apply merge_sort_Permutation.
  - intros A f l. set (Rk := fun a b => Is_true (negb (f b <? f a))).
    assert (Ht : Total Rk) by (intros a b; unfold Rk; destruct (Z.ltb_spec (f b) (f a)), (Z.ltb_spec (f a) (f b)); simpl; auto; lia).
    pose proof (Sorted_merge_sort Rk l) as Hs. apply Sorted_StronglySorted in Hs.
    + induction Hs as [|a k Hs IH Hf]; constructor; [done|]. eapply Forall_impl; [|exact Hf]. intros b. unfold Rk.
      destruct (Z.ltb_spec (f b) (f a)); simpl; [done|]. lia.
    + intros a b c. unfold Rk. destruct (Z.ltb_spec (f b) (f a)), (Z.ltb_spec (f c) (f b)), (Z.ltb_spec (f c) (f a)); simpl; auto; lia.
Defined.

(** [time.Time.MarshalBinary] of a UTC time: version, seconds since year 1,
    nanoseconds, and -1 for the zone. *)
Definition MarshalBinary (t : Time) : bytes :=
  big_endian 1 1 ++ big_endian 8 (uint64 (t / second + 62135596800)) ++ big_endian 4 (t mod second) ++ big_endian 2 65535.

(** The bytes that are signed. *)
Definition health_content (msg : HealthMessage) : bytes :=
  let buf := WriteString (hm_Type msg) [] in
  let buf := WriteField (hm_Payload msg) buf in
  let buf := WriteString (hm_SenderId msg) buf in
  match hm_Timestamp msg with Some t => WriteTimeBinary (MarshalBinary t) buf | None => WriteField [] buf end.

Definition DefaultMaxMessageAge : Duration := 30 * second.
Definition DefaultPublishMaxRetries : Z := 3.
Definition DefaultMaxResponders : Z := 2.

(** ** The monitor *)

Section Monitor.
Context `{I : IPhonebook} `{R : GoRange} `{C : GoConv} `{P : HealthCodec} `{G : GoSort}.
(** [peer.Decode]; the node's signature; verification with a marshalled
    public key (false when the key does not parse). *)
Variables (Decode : string -> option string) (Sign : bytes -> option bytes) (Verify : bytes -> bytes -> bytes -> bool).

Record Monitor := {
  m_self : string; m_maxResponders : Z; m_refresher : bool; m_maxMessageAge : Duration; m_maxRetries : Z;
  m_joined : bool;                          (** the topic was joined *)
  m_scores : ScoreTracker;
  m_refreshed : list string;                (** calls of the session refresher *)
  m_peerstore : list (string * list string);
  m_wire : list bytes; m_net : nat -> bool; m_sends : nat;
  m_ping : nat -> Z -> option Z;            (** the sequence acknowledged by the n-th peer pinged, when an ack was read *)
  m_pinged : list string;
  m_uuid : nat -> string; m_uuids : nat; m_rand : nat -> nat; m_rands : nat
}.

Definition upd (scores : ScoreTracker) (refreshed : list string) (peerstore : list (string * list string)) (wire : list bytes) (sends : nat)
    (pinged : list string) (uuids rands : nat) (m : Monitor) : Monitor :=
  {| m_self := m_self m; m_maxResponders := m_maxResponders m; m_refresher := m_refresher m; m_maxMessageAge := m_maxMessageAge m;
     m_maxRetries := m_maxRetries m; m_joined := m_joined m; m_scores := scores; m_refreshed := refreshed; m_peerstore := peerstore;
     m_wire := wire; m_net := m_net m; m_sends := sends; m_ping := m_ping m; m_pinged := pinged; m_uuid := m_uuid m; m_uuids := uuids;
     m_rand := m_rand m; m_rands := rands |}.

Definition m_cluster (m : Monitor) : string := st_clusterPath (m_scores m).

(** A call of the score tracker; the phonebook and the clock are shared with it. *)
Definition scores {A} (f : ST ScoreTracker A) : ST Monitor A := fun m =>
  let '(a, t) := f (m_scores m) in
  (a, upd t (m_refreshed m) (m_peerstore m) (m_wire m) (m_sends m) (m_pinged m) (m_uuids m) (m_rands m) m).
Definition book {A} (f : ST PB A) : ST Monitor A := scores (call f).
Definition now : ST Monitor Time := scores st_now.

Definition refreshSession (m : Monitor) : Monitor :=
  if m_refresher m then
    upd (m_scores m) (m_refreshed m ++ [m_cluster m]) (m_peerstore m) (m_wire m) (m_sends m) (m_pinged m) (m_uuids m) (m_rands m) m
  else m.

(** The addresses are parsed by the multiaddr library, which is left out. *)
Definition addPeerAddresses (peerID : string) (addresses : list string) (m : Monitor) : Monitor :=
  upd (m_scores m) (m_refreshed m) (m_peerstore m ++ [(peerID, addresses)]) (m_wire m) (m_sends m) (m_pinged m) (m_uuids m) (m_rands m) m.

(** [handlePingStream]: the peer's answer to a ping is the ping's sequence. *)
Definition handlePingStream (sequence : Z) : Z := sequence.

(** [pingHandler.Ping]: whether an ack with the ping's sequence came back
    ([None]: the stream could not be opened, written or read). *)
Definition Ping (peerID : string) : ST Monitor bool := fun m =>
  let '(t, m) := now m in
  let sequence := int64 t in
  (bool_decide (m_ping m (length (m_pinged m)) sequence = Some sequence),
   upd (m_scores m) (m_refreshed m) (m_peerstore m) (m_wire m) (m_sends m) (m_pinged m ++ [peerID]) (m_uuids m) (m_rands m) m).

Definition newUUID : ST Monitor string := fun m =>
  (m_uuid m (m_uuids m), upd (m_scores m) (m_refreshed m) (m_peerstore m) (m_wire m) (m_sends m) (m_pinged m) (S (m_uuids m)) (m_rands m) m).

(** *** Publishing: [pubsub.go] *)

(** [topic.Publish] *)
Definition topic_Publish (data : bytes) : ST Monitor bool := fun m =>
  let ok := m_net m (m_sends m) in
  (ok, upd (m_scores m) (m_refreshed m) (m_peerstore m) (if ok then m_wire m ++ [data] else m_wire m) (S (m_sends m)) (m_pinged m)
         (m_uuids m) (m_rands m) m).

Fixpoint publish_retry (attempts : nat) (data : bytes) (m : Monitor) : Monitor :=
  match attempts with
  | O => m
  | S attempts => let '(ok, m) := topic_Publish data m in if ok : bool then m else publish_retry attempts data m
  end.

(** [publish]; the callers ignore its error.  A failed signature is sent as
    an empty one. *)
Definition hp_publish (msgType : string) (payload : option bytes) (m : Monitor) : Monitor :=
  if negb (m_joined m) then m else
  match payload with
  | None => m
  | Some payloadBytes =>
      let '(ts, m) := now m in
      let envelope := {| hm_Type := msgType; hm_Payload := payloadBytes; hm_SenderId := m_self m; hm_Timestamp := Some ts; hm_Signature := [] |} in
      let sig := default [] (Sign (health_content envelope)) in
      match marshalHealth {| hm_Type := msgType; hm_Payload := payloadBytes; hm_SenderId := m_self m; hm_Timestamp := Some ts; hm_Signature := sig |} with
      | None => m
      | Some data => publish_retry (Z.to_nat (m_maxRetries m)) data m
      end
  end.

Definition PublishScoreUpdate (u : ScoreUpdate) : Monitor -> Monitor := hp_publish "score_update" (marshalScore u).
Definition PublishPingRequest (r : PingRequest) : Monitor -> Monitor := hp_publish "ping_request" (marshalPing r).
Definition PublishThresholdCrossed (c : ThresholdCrossed) : Monitor -> Monitor := hp_publish "threshold_crossed" (marshalCrossed c).

(** The updates the monitor publishes about a target. *)
Definition publish_update (target : string) (score : f64) (alive : bool) (reason : string) (m : Monitor) : Monitor :=
  let '(ts, m) := now m in
  PublishScoreUpdate {| su_TargetNodeId := target; su_Score := score; su_Alive := alive; su_UpdatedBy := m_self m;
                        su_Timestamp := Some ts; su_Reason := reason |} m.
Definition publish_ping_request (target : string) (m : Monitor) : Monitor :=
  let '(id, m) := newUUID m in
  let '(ts, m) := now m in
  PublishPingRequest {| pr_TargetNodeId := target; pr_RequesterId := m_self m; pr_RequestId := id; pr_Timestamp := Some ts |} m.

(** [ThresholdCrossed] when the target is quarantined in the phonebook. *)
Definition publish_if_quarantined (target : string) (score : f64) (m : Monitor) : Monitor :=
  match book (pb_Get target (m_cluster m)) m with
  | (Ok (Some entry), m) =>
      if e_Status entry =s nodeStatusQuarantined then
        let '(ts, m) := now m in
        PublishThresholdCrossed {| tc_TargetNodeId := target; tc_Score := score; tc_ReportedBy := m_self m; tc_Timestamp := Some ts |} m
      else m
  | (_, m) => m
  end.

(** *** Probing *)

Definition probe_candidate (self : string) (e : Entry) : bool :=
  negb (e_NodeID e =s self) && negb (e_Status e =s nodeStatusQuarantined) && negb (e_Status e =s nodeStatusFailed).

Definition selectRandomActivePeer : ST Monitor (option Entry) := fun m =>
  match book (pb_GetByCluster (m_cluster m)) m with
  | (Err _, m) => (None, m)
  | (Ok peers, m) =>
      match List.filter (probe_candidate (m_self m)) peers with
      | [] => (None, m)
      | candidates =>
          (candidates !! Nat.modulo (m_rand m (m_rands m)) (length candidates),
           upd (m_scores m) (m_refreshed m) (m_peerstore m) (m_wire m) (m_sends m) (m_pinged m) (m_uuids m) (S (m_rands m)) m)
      end
  end.

Definition onProbeSuccess (nodeID : string) (m : Monitor) : Monitor :=
  let '(_, m) := scores (RecordSuccess nodeID "direct") m in
  publish_update nodeID (f64_zero false) true "direct_ping_success" (refreshSession m).

Definition onDirectPingFail (nodeID : string) (m : Monitor) : Monitor :=
  let '(newScore, m) := scores (RecordFailure nodeID "direct_ping_fail") m in
  let m := publish_update nodeID newScore false "direct_ping_fail" m in
  let m := publish_ping_request nodeID m in
  publish_if_quarantined nodeID newScore m.

Definition runProtocolPeriod (m : Monitor) : Monitor :=
  match selectRandomActivePeer m with
  | (None, m) => m
  | (Some target, m) =>
      match Decode (e_NodeID target) with
      | None => m
      | Some targetID =>
          let m := addPeerAddresses targetID (e_Addresses target) m in
          let '(success, m) := Ping targetID m in
          if success : bool then onProbeSuccess (e_NodeID target) m else onDirectPingFail (e_NodeID target) m
      end
  end.

(** *** Incoming messages *)

Definition onScoreUpdate (u : ScoreUpdate) (m : Monitor) : Monitor :=
  let '(_, m) := scores (SetScore (su_TargetNodeId u) (su_Score u) (su_Alive u) (su_Reason u)) m in
  if su_Alive u then refreshSession m else m.

(** The walk of [isTopResponder] over the peers, longest-lived first. *)
Fixpoint top_responder (self : string) (excludeTarget : string) (maxResponders position : Z) (sorted : list Entry) : bool :=
  match sorted with
  | [] => false
  | p :: sorted =>
      if bool_decide (Decode (e_NodeID p) = Some excludeTarget) then top_responder self excludeTarget maxResponders position sorted
      else if e_Status p <>s nodeStatusActive then top_responder self excludeTarget maxResponders position sorted
      else if e_NodeID p =s self then position <? maxResponders
      else if maxResponders <=? position + 1 then false
      else top_responder self excludeTarget maxResponders (position + 1) sorted
  end.

Definition isTopResponder (excludeTarget : string) : ST Monitor bool := fun m =>
  match book (pb_GetByCluster (m_cluster m)) m with
  | (Err _, m) => (false, m)
  | (Ok peers, m) =>
      (top_responder (m_self m) excludeTarget (m_maxResponders m) 0
         (sort_Slice (fun a b => e_FirstSeen a <? e_FirstSeen b) peers), m)
  end.

Definition onPingRequest (req : PingRequest) (m : Monitor) : Monitor :=
  let target := pr_TargetNodeId req in
  if pr_RequesterId req =s m_self m then m else
  match Decode target with
  | None => m
  | Some targetID =>
      let '(top, m) := isTopResponder targetID m in
      if negb top then m else
      let '(r, m) := book (pb_Get target (m_cluster m)) m in
      let m := match r with Ok (Some entry) => addPeerAddresses targetID (e_Addresses entry) m | _ => m end in
      let '(_, m) := scores (RecordFailure target "indirect_pre_probe") m in
      let '(success, m) := Ping targetID m in
      if success : bool then
        let '(_, m) := scores (RecordSuccess target "indirect_ping_success") m in
        publish_update target (f64_zero false) true "indirect_ping_success" m
      else
        let '(newScore, m) := scores (GetScore target) m in
        let m := publish_update target newScore false "indirect_ping_fail" m in
        publish_if_quarantined target newScore m
  end.

Definition onThresholdCrossed (c : ThresholdCrossed) (m : Monitor) : Monitor :=
  match Decode (tc_TargetNodeId c) with
  | None => m
  | Some targetID =>
      let '(success, m) := Ping targetID m in
      if success : bool then
        let '(_, m) := scores (RecordSuccess (tc_TargetNodeId c) "final_confirmation_success") m in
        publish_update (tc_TargetNodeId c) (f64_zero false) true "final_confirmation_success" m
      else m
  end.

Definition verifySignature (msg : HealthMessage) : ST Monitor bool := fun m =>
  match hm_Signature msg with
  | [] => (false, m)
  | sig =>
      match book (pb_Get (hm_SenderId msg) (m_cluster m)) m with
      | (Ok (Some entry), m) => (Verify (e_PublicKey entry) (health_content msg) sig, m)
      | (_, m) => (false, m)
      end
  end.

Definition dispatch_health (msg : HealthMessage) (m : Monitor) : Monitor :=
  if hm_Type msg =s "score_update" then match unmarshalScore (hm_Payload msg) with Some u => onScoreUpdate u m | None => m end
  else if hm_Type msg =s "ping_request" then match unmarshalPing (hm_Payload msg) with Some r => onPingRequest r m | None => m end
  else if hm_Type msg =s "threshold_crossed" then match unmarshalCrossed (hm_Payload msg) with Some c => onThresholdCrossed c m | None => m end
  else m.

Definition handleMessage (data : bytes) (m : Monitor) : Monitor :=
  match unmarshalHealth data with
  | None => m
  | Some msg =>
      match hm_Timestamp msg with
      | None => m
      | Some ts =>
          let '(t, m) := now m in
          if m_maxMessageAge m <? time_Sub t ts then m else
          let '(ok, m) := verifySignature msg m in
          if negb ok then m else dispatch_health msg m
      end
  end.

(** A message from the topic; the node's own messages are skipped. *)
Definition messageLoop (receivedFrom : string) (data : bytes) (m : Monitor) : Monitor :=
  if receivedFrom =s m_self m then m else handleMessage data m.

(** *** Quarantine *)

(** One tick of [quarantineCheckLoop]. *)
Definition quarantineCheck (m : Monitor) : Monitor :=
  let '(failed, m) := scores CheckQuarantineTimeouts m in
  fold_left (fun m nodeID => snd (book (pb_Remove nodeID (m_cluster m)) m)) failed m.

Definition probeQuarantinedPeers (m : Monitor) : Monitor :=
  match book (pb_GetByStatus (m_cluster m) nodeStatusQuarantined) m with
  | (Ok quarantined, m) => fold_left (fun m e => publish_ping_request (e_NodeID e) m) quarantined m
  | (Err _, m) => m
  end.

End Monitor.

(** ** Behaviour over a sound phonebook *)

Section MonitorBehaviour.
Context `{I : IPhonebook} `{L : !IPhonebookLaws I} `{R : GoRange} `{C : GoConv} `{P : HealthCodec} `{PL : !HealthLaws P} `{G : GoSort}.
Variables (Decode : string -> option string) (Sign : bytes -> option bytes) (Verify : bytes -> bytes -> bytes -> bool).

Definition m_sound (m : Monitor) : Prop := sound (st_phonebook (m_scores m)).

(** Nothing but clocks, messages and counters changed. *)
Record quiet (m m' : Monitor) : Prop := {
  q_scores : unchanged (m_scores m) (m_scores m');
  q_pinged : m_pinged m' = m_pinged m;
  q_self : m_self m' = m_self m
}.

Lemma unchanged_refl t : sound (st_phonebook t) -> unchanged t t.
Proof. by split. Qed.

Lemma after_trans t1 t2 t3 m tm m' tm' : after t1 t2 m tm -> after t2 t3 m' tm' -> after t1 t3 m' tm'.
Proof. intros [_ _ _ Hc Hl] [Hs Hp Ht Hc' Hl']. split; congruence. Qed.

Lemma unchanged_after t1 t2 t3 m tm : unchanged t1 t2 -> after t2 t3 m tm -> after t1 t3 m tm.
Proof. apply after_trans. Qed.

Lemma after_unchanged t1 t2 t3 m tm : after t1 t2 m tm -> unchanged t2 t3 -> after t1 t3 m tm.
Proof. intros [Hs Hp Ht Hc Hl] [Hs' Hp' Ht' Hc' Hl']. split; congruence. Qed.

Lemma quiet_trans m1 m2 m3 : quiet m1 m2 -> quiet m2 m3 -> quiet m1 m3.
Proof.
  intros [H1 H2 H3] [H4 H5 H6]. split; [|congruence..]. destruct H1 as [Hs Hp Ht Hc Hl], H4 as [Hs' Hp' Ht' Hc' Hl']. split; congruence.
Qed.

Lemma quiet_sound m m' : quiet m m' -> m_sound m'.
Proof. intros [[Hs _ _ _ _] _ _]. exact Hs. Qed.

Lemma quiet_same m m' : m_sound m -> m_scores m' = m_scores m -> m_pinged m' = m_pinged m -> m_self m' = m_self m -> quiet m m'.
Proof. intros Hs E1 E2 E3. split; [|done..]. rewrite E1. by apply unchanged_refl. Qed.

Lemma now_quiet m t m' : m_sound m -> now m = (t, m') -> quiet m m'.
Proof. intros Hs [= <- <-]. split; [|done..]. by split. Qed.

Lemma publish_retry_quiet k data m : m_sound m -> quiet m (publish_retry k data m).
Proof.
  revert m. induction k as [|k IH]; intros m Hs; [by apply quiet_same|]. cbn [publish_retry]. unfold topic_Publish. cbv zeta beta iota.
  set (m1 := upd _ _ _ _ _ _ _ _ _). assert (Hq : quiet m m1) by (by apply quiet_same).
  destruct (m_net m (m_sends m)); [done|]. eapply quiet_trans; [exact Hq|]. apply IH, (quiet_sound _ _ Hq).
Qed.

Lemma hp_publish_quiet ty payload m : m_sound m -> quiet m (hp_publish Sign ty payload m).
Proof.
  intros Hs. unfold hp_publish. destruct (m_joined m); [|by apply quiet_same]. destruct payload as [b|]; [|by apply quiet_same]. cbn [negb].
  destruct (now m) as [ts m1] eqn:E. pose proof (now_quiet _ _ _ Hs E) as Hq. destruct (marshalHealth _); [|done].
  eapply quiet_trans; [exact Hq|]. apply publish_retry_quiet, (quiet_sound _ _ Hq).
Qed.

Lemma publish_update_quiet n x alive reason m : m_sound m -> quiet m (publish_update Sign n x alive reason m).
Proof.
  intros Hs. unfold publish_update. destruct (now m) as [ts m1] eqn:E. pose proof (now_quiet _ _ _ Hs E) as Hq.
  eapply quiet_trans; [exact Hq|]. apply hp_publish_quiet, (quiet_sound _ _ Hq).
Qed.

Lemma publish_ping_quiet n m : m_sound m -> quiet m (publish_ping_request Sign n m).
Proof.
  intros Hs. unfold publish_ping_request, newUUID. cbv zeta beta iota. set (m0 := upd _ _ _ _ _ _ _ _ _).
  assert (Hq0 : quiet m m0) by (by apply quiet_same). destruct (now m0) as [ts m1] eqn:E.
  pose proof (now_quiet _ _ _ (quiet_sound _ _ Hq0) E) as Hq. eapply quiet_trans; [exact Hq0|]. eapply quiet_trans; [exact Hq|].
  apply hp_publish_quiet, (quiet_sound _ _ Hq).
Qed.

Lemma book_Get_quiet n m : m_sound m -> exists m', book (pb_Get n (m_cluster m)) m = (Ok (peer (m_scores m) n), m') /\ quiet m m' /\ m_wire m' = m_wire m.
Proof.
  intros Hs. unfold book, scores, m_cluster. destruct (Get_spec n (m_scores m) Hs) as (t & E & Hu). rewrite E.
  eexists. split; [reflexivity|]. by split.
Qed.

Lemma publish_if_quarantined_quiet n x m : m_sound m -> quiet m (publish_if_quarantined Sign n x m).
Proof.
  intros Hs. unfold publish_if_quarantined. destruct (book_Get_quiet n m Hs) as (m1 & -> & Hq & _).
  destruct (peer (m_scores m) n) as [e|]; [|done]. destruct (e_Status e =s nodeStatusQuarantined); [|done].
  destruct (now m1) as [ts m2] eqn:E. pose proof (now_quiet _ _ _ (quiet_sound _ _ Hq) E) as Hq2.
  eapply quiet_trans; [exact Hq|]. eapply quiet_trans; [exact Hq2|]. apply hp_publish_quiet, (quiet_sound _ _ Hq2).
Qed.

Lemma refresh_quiet m : m_sound m -> quiet m (refreshSession m).
Proof. intros Hs. unfold refreshSession. destruct (m_refresher m); by apply quiet_same. Qed.

(** *** Who answers a ping request *)

Definition responder (target : string) (e : Entry) : bool :=
  negb (bool_decide (Decode (e_NodeID e) = Some target)) && (e_Status e =s nodeStatusActive).

Lemma top_responder_spec self target max position sorted :
  0 <= position ->
  top_responder Decode self target max position sorted =
  bool_decide (self ∈ take (Z.to_nat (max - position)) (e_NodeID <$> List.filter (responder target) sorted)).
Proof.
  revert position. induction sorted as [|p sorted IH]; intros position Hpos; [cbn; by rewrite take_nil|].
  cbn [top_responder List.filter]. destruct (responder target p) eqn:Er; unfold responder in Er;
    destruct (bool_decide (Decode (e_NodeID p) = Some target)), (e_Status p =s nodeStatusActive); try discriminate Er; cbn [negb];
    try by apply IH. clear Er. rewrite fmap_cons.
  destruct (String.eqb_spec (e_NodeID p) self) as [Hself|Hself].
  - destruct (Z.ltb_spec position max).
    + replace (Z.to_nat (max - position)) with (S (Z.to_nat (max - position - 1))) by lia. cbn [take].
      rewrite bool_decide_eq_true_2; [done|]. rewrite Hself. by left.
    + replace (Z.to_nat (max - position)) with O by lia. cbn [take]. by rewrite bool_decide_eq_false_2 by apply not_elem_of_nil.
  - destruct (Z.leb_spec max (position + 1)).
    + rewrite bool_decide_eq_false_2; [done|]. assert (Z.to_nat (max - position) <= 1)%nat by lia.
      destruct (Z.to_nat (max - position)) as [|[|]]; [cbn; apply not_elem_of_nil| |lia]. cbn [take].
      rewrite list_elem_of_singleton. congruence.
    + rewrite IH by lia. replace (Z.to_nat (max - position)) with (S (Z.to_nat (max - (position + 1)))) by lia. cbn [take].
      apply bool_decide_ext. rewrite elem_of_cons. split; [by right|]. intros [->|]; [done|done].
Qed.

(** A node answers a ping request exactly when it is among the
    first [maxResponders] active members of the cluster other than the target,
    in the order in which its phonebook first saw them. *)
Theorem monitor_responders_exact target m (Hs : m_sound m) :
  exists ranking,
    ranking ≡ₚ (map_to_list (in_cluster (m_cluster m) (peers (m_scores m)))).*2 /\
    StronglySorted (fun a b => e_FirstSeen a <= e_FirstSeen b) ranking /\
    fst (isTopResponder Decode target m) =
      bool_decide (m_self m ∈ take (Z.to_nat (m_maxResponders m)) (e_NodeID <$> List.filter (responder target) ranking)).
Proof.
  unfold isTopResponder, book, scores, call, m_cluster. destruct (GetByCluster_law (st_clusterPath (m_scores m)) _ Hs) as (l & p' & E & _ & _ & Hl).
  rewrite E. exists (sort_Slice (fun a b => e_FirstSeen a <? e_FirstSeen b) l). split_and!.
  - by rewrite sort_perm.
  - apply sort_sorted.
  - simpl. rewrite top_responder_spec by lia. by rewrite Z.sub_0_r.
Qed.

(** *** Messages that do not verify *)

(** A message whose sender is not a member of the cluster, or
    whose signature does not verify with that member's key, changes no score,
    status or timer, sends nothing and pings nobody. *)
Theorem monitor_ignores_unverified data m (Hs : m_sound m)
    (Hbad : forall msg e, unmarshalHealth data = Some msg -> peer (m_scores m) (hm_SenderId msg) = Some e ->
              Verify (e_PublicKey e) (health_content msg) (hm_Signature msg) = false) :
  quiet m (handleMessage Decode Sign Verify data m) /\ m_wire (handleMessage Decode Sign Verify data m) = m_wire m.
Proof.
  unfold handleMessage. destruct (unmarshalHealth data) as [msg|]; [|by split; [apply quiet_same|]].
  destruct (hm_Timestamp msg) as [ts|]; [|by split; [apply quiet_same|]].
  destruct (now m) as [t m1] eqn:E. pose proof (now_quiet _ _ _ Hs E) as Hq. injection E as _ <-. set (m1 := upd _ _ _ _ _ _ _ _ _) in *.
  destruct (m_maxMessageAge m1 <? time_Sub t ts); [by split|]. unfold verifySignature.
  destruct (hm_Signature msg) as [|c sig] eqn:Esig; [by split|].
  destruct (book_Get_quiet (hm_SenderId msg) m1 (quiet_sound _ _ Hq)) as (m2 & -> & Hq2 & Hw).
  assert (Hp : peer (m_scores m1) (hm_SenderId msg) = peer (m_scores m) (hm_SenderId msg)) by done. rewrite Hp.
  destruct (peer (m_scores m) (hm_SenderId msg)) as [e|] eqn:He; [|split; [by eapply quiet_trans|done]].
  rewrite <- Esig, (Hbad msg e eq_refl He). split; [by eapply quiet_trans|done].
Qed.

(** *** A protocol period *)

Lemma cluster_members c pb l e : sound pb ->
  l ≡ₚ (map_to_list (filter (fun ke => e_ClusterPath ke.2 = c) (members pb))).*2 ->
  e ∈ l <-> members pb !! (e_NodeID e, c) = Some e.
Proof.
  intros Hs ->. rewrite list_elem_of_fmap. split.
  - intros ([k e'] & -> & Hin%elem_of_map_to_list). apply map_lookup_filter_Some in Hin as [Hin Hc]. simpl in *.
    pose proof (members_key _ _ _ Hs Hin) as Hk. unfold e_key in Hk. by rewrite Hc in Hk; subst k.
  - intros Hin. exists ((e_NodeID e, c), e). split; [done|]. apply elem_of_map_to_list, map_lookup_filter_Some. split; [done|].
    pose proof (members_key _ _ _ Hs Hin) as Hk. unfold e_key in Hk. by injection Hk.
Qed.

Lemma select_peer_spec m : m_sound m -> exists r m', selectRandomActivePeer m = (r, m') /\ quiet m m' /\ m_ping m' = m_ping m /\
  st_clock (m_scores m') = st_clock (m_scores m) /\ st_ticks (m_scores m') = st_ticks (m_scores m) /\
  match r with
  | None => forall n e, peer (m_scores m) n = Some e -> probe_candidate (m_self m) e = false
  | Some e => peer (m_scores m) (e_NodeID e) = Some e /\ probe_candidate (m_self m) e = true
  end.
Proof.
  intros Hs. unfold selectRandomActivePeer, book, scores, call, m_cluster.
  destruct (GetByCluster_law (st_clusterPath (m_scores m)) _ Hs) as (l & p' & E & Hs' & Hm & Hl). rewrite E. cbn [m_self upd].
  set (m1 := upd _ _ _ _ _ _ _ _ _). assert (Hq : quiet m m1) by (split; [by split|done..]).
  destruct (List.filter (probe_candidate (m_self m)) l) as [|c cs] eqn:Ef.
  - exists None, m1. split_and!; try done. intros n e He. destruct (probe_candidate (m_self m) e) eqn:Ec; [|done]. exfalso.
    pose proof (members_key _ _ _ Hs He) as Hk. unfold e_key in Hk. injection Hk as Hn _.
    assert (Hin : e ∈ l) by (apply (cluster_members (st_clusterPath (m_scores m)) _ _ _ Hs Hl); by rewrite Hn).
    assert (In e (List.filter (probe_candidate (m_self m)) l)) as Hf by (apply filter_In; split; [by apply list_elem_of_In|done]).
    by rewrite Ef in Hf.
  - set (cands := c :: cs) in *. destruct (cands !! Nat.modulo (m_rand m (m_rands m)) (length cands)) as [e|] eqn:El.
    + eexists (Some e), _. split; [change (m_rand m1 (m_rands m1)) with (m_rand m (m_rands m)); rewrite El; reflexivity|]. split_and!; try done.
      * assert (Hin : In e (List.filter (probe_candidate (m_self m)) l)) by (rewrite Ef; apply list_elem_of_In; by eapply list_elem_of_lookup_2).
        apply filter_In in Hin as [Hin _]. apply list_elem_of_In in Hin. by apply (cluster_members (st_clusterPath (m_scores m)) _ _ _ Hs Hl).
      * assert (Hin : In e (List.filter (probe_candidate (m_self m)) l)) by (rewrite Ef; apply list_elem_of_In; by eapply list_elem_of_lookup_2).
        by apply filter_In in Hin as [_ Hin].
    + apply lookup_ge_None in El. pose proof (Nat.mod_upper_bound (m_rand m (m_rands m)) (length cands) ltac:(done)). lia.
Qed.

(** Whether the next ping is answered. *)
Definition ping_answered (m : Monitor) : bool :=
  let sequence := int64 (st_clock (m_scores m) (st_ticks (m_scores m))) in
  bool_decide (m_ping m (length (m_pinged m)) sequence = Some sequence).

(** The effect of a probe on the tracker. *)
Definition probed (success : bool) (t t' : ScoreTracker) (e : Entry) : Prop :=
  let n := e_NodeID e in let old := e_ReliabilityScore e in let new := f64_add old (ScoreIncrement (st_config t)) in
  exists e' now, same_identity e e' /\
    (if success then
       e_ReliabilityScore e' = f64_zero false /\ e_Status e' = nodeStatusActive /\
       after t t' (<[(n, st_clusterPath t) := e']> (peers t)) (delete n (st_timers t))
     else
       e_ReliabilityScore e' = new /\ e_Status e' = status_after (eff_of t) old new (e_Status e) /\
       after t t' (<[(n, st_clusterPath t) := e']> (peers t))
         (if crosses (eff_Quarantine (eff_of t)) old new then <[n := now]> (st_timers t) else st_timers t)).

Lemma probe_outcome success m e :
  m_sound m -> peer (m_scores m) (e_NodeID e) = Some e -> score_ok (e_ReliabilityScore e) -> score_ok (ScoreIncrement (st_config (m_scores m))) ->
  let m' := if success : bool then onProbeSuccess Sign (e_NodeID e) m else onDirectPingFail Sign (e_NodeID e) m in
  probed success (m_scores m) (m_scores m') e /\ m_pinged m' = m_pinged m.
Proof.
  intros Hs He Hok Hinc m'. unfold m', onProbeSuccess, onDirectPingFail, scores. destruct success.
  - destruct (RecordSuccess_spec (e_NodeID e) "direct" (m_scores m) e Hs He) as (t & e' & E & Hsc & Hst & Hid & Ha). rewrite E.
    set (m1 := upd _ _ _ _ _ _ _ _ _). assert (Hs1 : m_sound m1) by apply Ha.
    pose proof (refresh_quiet m1 Hs1) as Hq1. pose proof (publish_update_quiet (e_NodeID e) (f64_zero false) true "direct_ping_success" _ (quiet_sound _ _ Hq1)) as Hq2.
    pose proof (quiet_trans _ _ _ Hq1 Hq2) as [Hu Hp _]. split; [|by rewrite Hp]. exists e', 0. split_and!; try done.
    by eapply after_unchanged.
  - destruct (add_score _ _ Hok Hinc) as [Hok' _].
    destruct (RecordFailure_spec (e_NodeID e) "direct_ping_fail" (m_scores m) e Hs He (score_storable _ Hok')) as (t & e' & tm & E & Hsc & Hst & Hid & Ha).
    rewrite E. set (m1 := upd _ _ _ _ _ _ _ _ _). assert (Hs1 : m_sound m1) by apply Ha.
    set (new := f64_add _ _) in *.
    pose proof (publish_update_quiet (e_NodeID e) new false "direct_ping_fail" m1 Hs1) as Hq1.
    pose proof (publish_ping_quiet (e_NodeID e) _ (quiet_sound _ _ Hq1)) as Hq2.
    pose proof (publish_if_quarantined_quiet (e_NodeID e) new _ (quiet_sound _ _ Hq2)) as Hq3.
    pose proof (quiet_trans _ _ _ Hq1 (quiet_trans _ _ _ Hq2 Hq3)) as [Hu Hp _]. split; [|by rewrite Hp].
    exists e', tm. split_and!; try done. by eapply after_unchanged.
Qed.

(** A protocol period probes one member of the cluster that is not
    the node itself and neither quarantined nor failed, whenever there is one;
    an answer resets its score and status, a failure adds one increment and
    applies the thresholds; no other member's entry or timer changes. *)
Theorem monitor_period_probes m (Hs : m_sound m) (Hinc : score_ok (ScoreIncrement (st_config (m_scores m))))
    (Hok : forall n e, peer (m_scores m) n = Some e -> score_ok (e_ReliabilityScore e))
    (Hdec : forall n e, peer (m_scores m) n = Some e -> is_Some (Decode n)) :
  let m' := runProtocolPeriod Decode Sign m in
  (m_pinged m' = m_pinged m /\ unchanged (m_scores m) (m_scores m') /\
   forall n e, peer (m_scores m) n = Some e -> probe_candidate (m_self m) e = false) \/
  exists e id, peer (m_scores m) (e_NodeID e) = Some e /\ probe_candidate (m_self m) e = true /\ Decode (e_NodeID e) = Some id /\
    m_pinged m' = m_pinged m ++ [id] /\ probed (ping_answered m) (m_scores m) (m_scores m') e.
Proof.
  intros m'. unfold m', runProtocolPeriod. destruct (select_peer_spec m Hs) as (r & m1 & E & Hq & Hping & Hck & Htk & Hr). rewrite E.
  destruct r as [e|]; [right|left; split_and!; [apply Hq|apply Hq|done]]. destruct Hr as [He Hc].
  destruct (Hdec _ _ He) as [id Hid]. rewrite Hid. unfold addPeerAddresses, Ping, now, scores, st_now. cbv zeta beta iota.
  cbn [m_ping m_pinged m_scores upd]. rewrite Hping, (q_pinged _ _ Hq), Hck, Htk. fold (ping_answered m).
  set (m2 := upd _ _ _ _ _ _ _ _ _).
  assert (Hu : unchanged (m_scores m) (m_scores m2)) by (destruct Hq as [[? ? ? ? ?] _ _]; by split).
  assert (Hs2 : m_sound m2) by apply Hu.
  assert (Hpeer : forall n, peer (m_scores m2) n = peer (m_scores m) n).
  { intros n. unfold peer. by rewrite (after_cluster _ _ _ _ Hu), (after_peers _ _ _ _ Hu). }
  assert (Hcfg : st_config (m_scores m2) = st_config (m_scores m)) by apply (after_config _ _ _ _ Hu).
  destruct (probe_outcome (ping_answered m) m2 e) as [Hpr Hpg]; [done|by rewrite Hpeer|by eapply Hok|by rewrite Hcfg|].
  exists e, id. split; [done|]. split; [done|]. split; [done|]. split; [by rewrite Hpg|].
  destruct Hpr as (e' & tm & Hsame & Hpr). exists e', tm. split; [done|].
  assert (Heff : eff_of (m_scores m2) = eff_of (m_scores m)).
  { unfold eff_of, size_of. destruct Hu as [_ Hp' _ Hc' Hl']. by rewrite Hc', Hl', Hp'. }
  rewrite Heff, Hcfg in Hpr. rewrite (after_cluster _ _ _ _ Hu), (after_peers _ _ _ _ Hu), (after_timers _ _ _ _ Hu) in Hpr.
  destruct (ping_answered m); destruct Hpr as (H1 & H2 & H3); split_and!; try done; by eapply unchanged_after.
Qed.

(** *** News of a live peer *)

Lemma hp_publish_wire ty b sig data m :
  m_joined m = true -> 0 < m_maxRetries m -> m_net m (m_sends m) = true ->
  let ts := st_clock (m_scores m) (st_ticks (m_scores m)) in
  Sign (health_content {| hm_Type := ty; hm_Payload := b; hm_SenderId := m_self m; hm_Timestamp := Some ts; hm_Signature := [] |}) = Some sig ->
  marshalHealth {| hm_Type := ty; hm_Payload := b; hm_SenderId := m_self m; hm_Timestamp := Some ts; hm_Signature := sig |} = Some data ->
  m_wire (hp_publish Sign ty (Some b) m) = m_wire m ++ [data].
Proof.
  intros Hj Hr Hn ts Hsig Hd. unfold hp_publish. rewrite Hj. cbn [negb]. unfold now, scores, st_now. cbv zeta beta iota. cbn [m_self upd m_maxRetries].
  fold ts. rewrite Hsig. change (default [] (Some sig)) with sig. rewrite Hd. destruct (Z.to_nat (m_maxRetries m)) as [|k] eqn:E; [lia|].
  cbn [publish_retry]. unfold topic_Publish. cbn [m_net m_sends upd m_wire]. rewrite Hn. done.
Qed.

(** A signed update with [Alive] set, taken from the wire, resets the target. *)
Lemma handle_alive SignB data msg u eS eT m :
  m_sound m -> unmarshalHealth data = Some msg -> hm_Type msg = "score_update" -> unmarshalScore (hm_Payload msg) = Some u -> su_Alive u = true ->
  (exists ts, hm_Timestamp msg = Some ts /\ time_Sub (st_clock (m_scores m) (st_ticks (m_scores m))) ts <= m_maxMessageAge m) ->
  hm_Signature msg <> [] -> peer (m_scores m) (hm_SenderId msg) = Some eS -> Verify (e_PublicKey eS) (health_content msg) (hm_Signature msg) = true ->
  peer (m_scores m) (su_TargetNodeId u) = Some eT ->
  exists e', peer (m_scores (handleMessage Decode SignB Verify data m)) (su_TargetNodeId u) = Some e' /\
    e_ReliabilityScore e' = f64_zero false /\ e_Status e' = nodeStatusActive /\
    st_timers (m_scores (handleMessage Decode SignB Verify data m)) !! su_TargetNodeId u = None.
Proof.
  intros Hs Hmsg Hty Hu Hal (ts & Hts & Hage) Hsig HS HV HT. unfold handleMessage. rewrite Hmsg, Hts.
  destruct (now m) as [t m1] eqn:E. pose proof (now_quiet _ _ _ Hs E) as Hq. injection E as Et E. rewrite <- Et.
  assert (Hage' : m_maxMessageAge m1 = m_maxMessageAge m) by (by rewrite <- E). rewrite Hage'.
  destruct (Z.ltb_spec (m_maxMessageAge m) (time_Sub (st_clock (m_scores m) (st_ticks (m_scores m))) ts)); [lia|].
  unfold verifySignature. destruct (hm_Signature msg) as [|c0 sig0] eqn:Esig; [done|].
  destruct (book_Get_quiet (hm_SenderId msg) m1 (quiet_sound _ _ Hq)) as (m2 & E2 & Hq2 & _). rewrite E2.
  assert (Hp1 : forall n, peer (m_scores m1) n = peer (m_scores m) n).
  { intros n. destruct Hq as [[_ Hp _ _ Hl] _ _]. unfold peer. by rewrite Hp, Hl. }
  rewrite Hp1, HS, HV. cbn [negb]. unfold dispatch_health. rewrite Hty. cbn [String.eqb Ascii.eqb Bool.eqb]. rewrite Hu. unfold onScoreUpdate, scores.
  rewrite Hal. pose proof (quiet_trans _ _ _ Hq Hq2) as Hq12. assert (Hp2 : peer (m_scores m2) (su_TargetNodeId u) = Some eT).
  { destruct Hq12 as [[_ Hp _ _ Hl] _ _]. unfold peer in *. by rewrite Hp, Hl. }
  destruct (SetScore_alive_spec (su_TargetNodeId u) (su_Score u) (su_Reason u) (m_scores m2) (quiet_sound _ _ Hq12)) as (t' & e' & E3 & He' & Ha).
  rewrite E3. destruct (He' _ Hp2) as (Hsc & Hst & _). set (m3 := upd _ _ _ _ _ _ _ _ _). assert (Hs3 : m_sound m3) by apply Ha.
  pose proof (refresh_quiet m3 Hs3) as [[_ Hpr Htr _ Hlr] _ _]. destruct Ha as [_ Hp Ht _ Hl].
  exists e'. split_and!; [|done..|rewrite Htr; change (m_scores m3) with t'; rewrite Ht; apply lookup_delete_eq].
  unfold peer. rewrite Hlr, Hpr. change (m_scores m3) with t'. rewrite Hl, Hp, lookup_alter, decide_True by done. unfold peer in Hp2. by rewrite Hp2.
Qed.

(** When a probe of a peer succeeds, the update goes out, and every
    node of the cluster that knows the sender and receives it while it is
    fresh has the peer active with score 0 and without a quarantine timer. *)
Theorem monitor_alive_news SignB mA mB n eA eT
    (Hjoin : m_joined mA = true) (Hret : 0 < m_maxRetries mA) (Hnet : m_net mA (m_sends mA) = true)
    (Hcodec : (forall u, is_Some (marshalScore u)) /\ forall h, is_Some (marshalHealth h))
    (Hsign : forall b, exists sig, Sign b = Some sig /\ sig <> [] /\ Verify (e_PublicKey eA) b sig = true)
    (HB : m_sound mB) (Hself : m_self mA <> m_self mB)
    (HeA : peer (m_scores mB) (m_self mA) = Some eA) (HeT : peer (m_scores mB) n = Some eT)
    (Hfresh : let tA := snd (RecordSuccess n "direct" (m_scores mA)) in
              time_Sub (st_clock (m_scores mB) (st_ticks (m_scores mB))) (st_clock tA (S (st_ticks tA))) <= m_maxMessageAge mB) :
  exists data e', m_wire (onProbeSuccess Sign n mA) = m_wire mA ++ [data] /\
    peer (m_scores (messageLoop Decode SignB Verify (m_self mA) data mB)) n = Some e' /\
    e_ReliabilityScore e' = f64_zero false /\ e_Status e' = nodeStatusActive /\
    st_timers (m_scores (messageLoop Decode SignB Verify (m_self mA) data mB)) !! n = None.
Proof.
  unfold onProbeSuccess. destruct (scores (RecordSuccess n "direct") mA) as [u1 m1] eqn:E1.
  assert (H1 : m_joined (refreshSession m1) = true /\ m_maxRetries (refreshSession m1) = m_maxRetries mA /\ m_wire (refreshSession m1) = m_wire mA /\
               m_self (refreshSession m1) = m_self mA /\ m_net (refreshSession m1) = m_net mA /\ m_sends (refreshSession m1) = m_sends mA /\
               m_scores (refreshSession m1) = snd (RecordSuccess n "direct" (m_scores mA))).
  { unfold scores in E1. destruct (RecordSuccess n "direct" (m_scores mA)). injection E1 as _ <-. unfold refreshSession. by destruct (m_refresher _). }
  destruct H1 as (J & Rt & W & Sf & N & Sd & Sc). cbv zeta in Hfresh. rewrite <- Sc in Hfresh. unfold publish_update, now, scores, st_now. cbv zeta beta iota.
  set (mr := refreshSession m1) in *. set (m2 := upd _ _ _ _ _ _ _ _ _). set (u := {| su_TargetNodeId := n |}).
  destruct (proj1 Hcodec u) as [b Hb]. unfold PublishScoreUpdate. rewrite Hb.
  set (ts := st_clock (m_scores m2) (st_ticks (m_scores m2))).
  destruct (Hsign (health_content {| hm_Type := "score_update"; hm_Payload := b; hm_SenderId := m_self m2; hm_Timestamp := Some ts; hm_Signature := [] |}))
    as (sig & Hsig & Hne & Hver).
  set (msg := {| hm_Type := "score_update"; hm_Payload := b; hm_SenderId := m_self m2; hm_Timestamp := Some ts; hm_Signature := sig |}).
  destruct (proj2 Hcodec msg) as [data Hdata]. assert (Sf2 : m_self m2 = m_self mA) by exact Sf.
  destruct (handle_alive SignB data msg u eA eT mB) as (e' & He' & Hsc & Hst & Htm); try done.
  - by apply health_roundtrip.
  - by apply score_roundtrip.
  - exists ts. split; [done|]. apply Hfresh.
  - change (hm_SenderId msg) with (m_self m2). by rewrite Sf2.
  - exists data, e'. unfold messageLoop. destruct (String.eqb_spec (m_self mA) (m_self mB)); [done|].
    split; [|done]. rewrite <- W. change (m_wire mr) with (m_wire m2).
    apply (hp_publish_wire "score_update" b sig data m2); [done|by rewrite <- Rt in Hret|by change (m_net m2 (m_sends m2)) with (m_net mr (m_sends mr)); rewrite N, Sd|exact Hsig|exact Hdata].
Qed.

(** *** Removing failed peers *)

Lemma remove_all ns m : m_sound m ->
  let m' := fold_left (fun m nodeID => snd (book (pb_Remove nodeID (m_cluster m)) m)) ns m in
  m_sound m' /\ m_cluster m' = m_cluster m /\ st_timers (m_scores m') = st_timers (m_scores m) /\ st_bus (m_scores m') = st_bus (m_scores m) /\
  forall n, peer (m_scores m') n = if bool_decide (n ∈ ns) then None else peer (m_scores m) n.
Proof.
  clear Decode Sign Verify. revert m. induction ns as [|n0 ns IH]; intros m Hs m'; [by split_and!|]. unfold m'. cbn [fold_left].
  set (m1 := snd (book (pb_Remove n0 (m_cluster m)) m)).
  assert (H1 : m_sound m1 /\ m_cluster m1 = m_cluster m /\ st_timers (m_scores m1) = st_timers (m_scores m) /\ st_bus (m_scores m1) = st_bus (m_scores m) /\
               peers (m_scores m1) = delete (n0, m_cluster m) (peers (m_scores m))).
  { unfold m1, book, scores, call, m_cluster. destruct (Remove_law n0 (st_clusterPath (m_scores m)) _ Hs) as (p' & -> & Hs' & Hm). by split_and!. }
  destruct H1 as (Hs1 & Hc1 & Ht1 & Hb1 & Hp1). destruct (IH m1 Hs1) as (Hs2 & Hc2 & Ht2 & Hb2 & Hp2).
  split_and!; [done|congruence..|]. intros n. rewrite Hp2. unfold peer, m_cluster in *. rewrite Hc1, Hp1, lookup_delete.
  destruct (decide (n = n0)) as [->|Hne].
  - rewrite decide_True by done. rewrite (bool_decide_eq_true_2 (n0 ∈ n0 :: ns)) by (by left). by destruct (bool_decide (n0 ∈ ns)).
  - rewrite decide_False by congruence. assert (bool_decide (n ∈ n0 :: ns) = bool_decide (n ∈ ns)) as ->; [|done].
    apply bool_decide_ext. rewrite elem_of_cons. tauto.
Qed.

(** A tick of the quarantine check removes from the phonebook
    exactly the peers whose quarantine timed out, with their timers, and
    publishes one failure for each; the others keep score, status and timer. *)
Theorem monitor_check_removes m (Hs : m_sound m) :
  let t := m_scores m in let t' := m_scores (quarantineCheck m) in
  exists failed, (forall n, n ∈ failed <-> exists at_, st_timers t !! n = Some at_ /\ eff_Timeout (eff_of t) < time_Sub (st_clock t (st_ticks t)) at_) /\
    NoDup failed /\ omap failure_news (st_bus t') = omap failure_news (st_bus t) ++ failed /\
    forall n, if bool_decide (n ∈ failed) then peer t' n = None /\ st_timers t' !! n = None
              else st_timers t' !! n = st_timers t !! n /\
                   match peer t n with
                   | None => peer t' n = None
                   | Some e => exists e', peer t' n = Some e' /\ same_identity e e' /\ e_ReliabilityScore e' = e_ReliabilityScore e /\ e_Status e' = e_Status e
                   end.
Proof.
  clear Decode Sign Verify. intros t t'. unfold t', quarantineCheck, scores. fold t. destruct (health_timeouts_exact t Hs) as (failed & t1 & E & Hnd & [Hs1 Ht1 Hp1 Hb1 Hc1] & Hin).
  rewrite E. set (m1 := upd _ _ _ _ _ _ _ _ _). destruct (remove_all failed m1 Hs1) as (_ & _ & Ht2 & Hb2 & Hp2).
  exists failed. split; [done|]. split; [done|]. split; [by rewrite Hb2|]. intros n. specialize (Ht1 n). specialize (Hp1 n). specialize (Hp2 n).
  change (m_scores m1) with t1 in *. rewrite Ht2. destruct (bool_decide (n ∈ failed)) eqn:En; [by split|]. split; [done|].
  rewrite Hp2. by destruct (peer t n) as [e|].
Qed.

End MonitorBehaviour.

(** ** Two monitors, for evaluation *)

Module MonitorDemo.
Import PhonebookDemo HealthDemo wire.

#[local] Instance health_message_dec : EqDecision HealthMessage.
Proof. solve_decision. Defined.
#[local] Instance health_message_countable : Countable HealthMessage.
Proof.
  refine (inj_countable' (fun m => (hm_Type m, hm_Payload m, hm_SenderId m, hm_Timestamp m, hm_Signature m))
            (fun '(a, b, c, d, e) => {| hm_Type := a; hm_Payload := b; hm_SenderId := c; hm_Timestamp := d; hm_Signature := e |}) _). by intros [].
Defined.
#[local] Instance score_update_dec : EqDecision ScoreUpdate.
Proof. solve_decision. Defined.
#[local] Instance score_update_countable : Countable ScoreUpdate.
Proof.
  refine (inj_countable' (fun m => (su_TargetNodeId m, su_Score m, su_Alive m, su_UpdatedBy m, su_Timestamp m, su_Reason m))
            (fun '(a, b, c, d, e, f) => {| su_TargetNodeId := a; su_Score := b; su_Alive := c; su_UpdatedBy := d; su_Timestamp := e; su_Reason := f |}) _).
  by intros [].
Defined.
#[local] Instance ping_request_dec : EqDecision PingRequest.
Proof. solve_decision. Defined.
#[local] Instance ping_request_countable : Countable PingRequest.
Proof.
  refine (inj_countable' (fun m => (pr_TargetNodeId m, pr_RequesterId m, pr_RequestId m, pr_Timestamp m))
            (fun '(a, b, c, d) => {| pr_TargetNodeId := a; pr_RequesterId := b; pr_RequestId := c; pr_Timestamp := d |}) _). by intros [].
Defined.
#[local] Instance crossed_dec : EqDecision ThresholdCrossed.
Proof. solve_decision. Defined.
#[local] Instance crossed_countable : Countable ThresholdCrossed.
Proof.
  refine (inj_countable' (fun m => (tc_TargetNodeId m, tc_Score m, tc_ReportedBy m, tc_Timestamp m))
            (fun '(a, b, c, d) => {| tc_TargetNodeId := a; tc_Score := b; tc_ReportedBy := c; tc_Timestamp := d |}) _). by intros [].
Defined.

#[local] Instance demo_codec : HealthCodec := {|
  marshalHealth := to_wire; unmarshalHealth := of_wire; marshalScore := to_wire; unmarshalScore := of_wire;
  marshalPing := to_wire; unmarshalPing := of_wire; marshalCrossed := to_wire; unmarshalCrossed := of_wire |}.
#[local] Instance demo_laws : HealthLaws demo_codec.
Proof. split; simpl; intros m b; apply wire_roundtrip. Qed.

(** One key for everybody. *)
Definition demo_sign (b : bytes) : option bytes := Some (Ascii.one :: b).
Definition demo_verify (_ b sig : bytes) : bool := bool_decide (sig = Ascii.one :: b).
Definition demo_decode (s : string) : option string := Some s.

Definition monitor (self : string) (t : ScoreTracker (I := sqlite_phonebook)) (answers : bool) : Monitor (I := sqlite_phonebook) := {|
  m_self := self; m_maxResponders := DefaultMaxResponders; m_refresher := true; m_maxMessageAge := DefaultMaxMessageAge;
  m_maxRetries := DefaultPublishMaxRetries; m_joined := true; m_scores := t; m_refreshed := []; m_peerstore := []; m_wire := [];
  m_net := fun _ => true; m_sends := 0; m_ping := fun _ sequence => if answers : bool then Some (handlePingStream sequence) else None; m_pinged := []; m_uuid := fun _ => "id"; m_uuids := 0;
  m_rand := fun n => n; m_rands := 0 |}.

Definition mA : Monitor (I := sqlite_phonebook) := monitor "n1" (with_clock late_clock tracker) true.
Definition mB : Monitor (I := sqlite_phonebook) := monitor "n2" quarantined false.

Lemma known (t : ScoreTracker (I := sqlite_phonebook)) n : bool_decide (is_Some (peer t n)) = true -> exists e, peer t n = Some e.
Proof. intros H. by apply bool_decide_eq_true in H. Qed.

(** n1 reaches n5, which n2 has in quarantine. *)
Lemma monitor_alive_news_witness :
  exists data e', m_wire (onProbeSuccess demo_sign "n5" mA) = [data] /\
    peer (m_scores (messageLoop demo_decode demo_sign demo_verify "n1" data mB)) "n5" = Some e' /\ e_Status e' = nodeStatusActive.
Proof.
  destruct (known (m_scores mB) "n1") as [eA HA]; [vm_compute; reflexivity|].
  destruct (known (m_scores mB) "n5") as [eT HT]; [vm_compute; reflexivity|].
  destruct (monitor_alive_news demo_decode demo_sign demo_verify demo_sign mA mB "n5" eA eT) as (data & e' & H1 & H2 & _ & H3 & _);
    [reflexivity|reflexivity|reflexivity|split; intros x; apply wire_total| |exact quarantined_sound|discriminate|exact HA|exact HT|vm_compute; discriminate|].
  - intros b. exists (Ascii.one :: b). split; [reflexivity|]. split; [discriminate|]. by apply bool_decide_eq_true_2.
  - exists data, e'. split; [exact H1|]. split; [exact H2|exact H3].
Defined.

Lemma tracker_m_sound self answers : m_sound (monitor self tracker answers).
Proof. exact (graded_sound _ tracker_graded). Qed.

Lemma monitor_responders_exact_witness :
  exists ranking, StronglySorted (fun a b => e_FirstSeen a <= e_FirstSeen b) ranking /\
    fst (isTopResponder demo_decode "n5" (monitor "n1" tracker true)) =
      bool_decide ("n1" ∈ take 2 (e_NodeID <$> List.filter (responder demo_decode "n5") ranking)).
Proof.
  destruct (monitor_responders_exact demo_decode "n5" (monitor "n1" tracker true) (tracker_m_sound _ _)) as (ranking & _ & H1 & H2).
  exists ranking. split; [exact H1|exact H2].
Defined.

(** n9 is forged as the sender of a message signed by nobody. *)
Definition forgery : HealthMessage :=
  {| hm_Type := "score_update"; hm_Payload := []; hm_SenderId := "n9"; hm_Timestamp := Some (demo_clock 0); hm_Signature := [Ascii.zero] |}.
Definition forged : bytes := default [] (to_wire forgery).

Lemma monitor_ignores_unverified_witness :
  quiet (monitor "n1" tracker true) (handleMessage demo_decode demo_sign demo_verify forged (monitor "n1" tracker true)).
Proof.
  apply (monitor_ignores_unverified demo_decode demo_sign demo_verify forged (monitor "n1" tracker true) (tracker_m_sound _ _)).
  intros msg e Hm _. assert (Hf : unmarshalHealth forged = Some forgery) by (apply wire_roundtrip; reflexivity).
  rewrite Hf in Hm. injection Hm as <-. apply bool_decide_eq_false_2. discriminate.
Defined.

Lemma monitor_period_probes_witness :
  let m := monitor "n1" tracker false in
  (forall n e, peer (m_scores m) n = Some e -> probe_candidate "n1" e = false) \/
  exists e id, peer tracker (e_NodeID e) = Some e /\ m_pinged (runProtocolPeriod demo_decode demo_sign m) = [id] /\
    probed false tracker (m_scores (runProtocolPeriod demo_decode demo_sign m)) e.
Proof.
  intros m. destruct (monitor_period_probes demo_decode demo_sign m) as [(_ & _ & H)|(e & id & H1 & _ & _ & H2 & H3)].
  - exact (graded_sound _ tracker_graded).
  - exact default_increment_ok.
  - intros n e He. exact (proj1 (graded_peer _ tracker_graded n e He)).
  - intros n e _. exists n. reflexivity.
  - left. exact H.
  - right. exists e, id. split; [exact H1|]. split; [exact H2|exact H3].
Defined.

Lemma monitor_check_removes_witness :
  peer (m_scores (quarantineCheck mB)) "n5" = None /\ st_timers (m_scores (quarantineCheck mB)) !! "n5" = None.
Proof.
  destruct (monitor_check_removes mB quarantined_sound) as (failed & Hin & _ & _ & H). specialize (H "n5").
  rewrite bool_decide_eq_true_2 in H; [exact H|]. apply Hin. eexists. split; [vm_compute; reflexivity|vm_compute; reflexivity].
Defined.

(** A signed update with a NaN, from any member, makes every member of the
    cluster unreadable: nobody is probed any more. *)
Definition nan_update : ScoreUpdate :=
  {| su_TargetNodeId := "n5"; su_Score := NaN; su_Alive := false; su_UpdatedBy := "n3"; su_Timestamp := None; su_Reason := "" |}.
Lemma nan_update_stops_probing :
  fst (selectRandomActivePeer (onScoreUpdate nan_update (monitor "n1" tracker true))) = None /\
  fst (selectRandomActivePeer (monitor "n1" tracker true)) <> None.
Proof. split; [vm_compute; reflexivity|vm_compute; discriminate]. Qed.

End MonitorDemo.
