(* ===== verification/SnapshotStore.v ===== *)
(** * Snapshot store ([snapshot/store.go])

    The table of the checkpoints a node keeps: one row per capsule and image
    tag, in SQLite, with the rules that evict rows.  As in [Phonebook], a
    statement is a function on a finite map from the primary key to rows that
    may fail at any time, and the readings of the clock are a stream.

    SQLite contributes the order of the rows of a query ([SnapOrder]) and the
    date arithmetic of [EvictExpired] ([SqlJulian]).  Times are stored as
    text; the node writes all of them with one offset from UTC, so that their
    order as text is their order in time. *)

From stdpp Require Import sorting.
From S2P Require Import Prelude Float64 Orbit.
Local Open Scope string_scope.
Local Open Scope list_scope.
Local Open Scope Z_scope.

(** ** Data *)

Record Record_ := {
  r_CapsuleID : string; r_Tag : string;
  r_Size : Z;             (** int64, bytes *)
  r_Path : string; r_Checksum : string;
  r_CreatedAt : Time; r_LastAccessed : Time; r_TTL : Duration;
  r_InUse : bool
}.

(** The columns of the table [snapshots]. *)
Record SnapRow := {
  s_capsule_id : string; s_tag : string; s_size : Z; s_path : string; s_checksum : string;
  s_created_at : Time; s_last_accessed : Time;
  s_ttl_seconds : Z; s_in_use : Z
}.

Abbreviation SnapKey := (string * string)%type (only parsing).
Definition s_key (r : SnapRow) : SnapKey := (s_capsule_id r, s_tag r).

Inductive SnapError := ErrSnapSql.

(** The order of the rows of a query that does not fix it. *)
Class SnapOrder := {
  snap_order : nat -> gmap SnapKey SnapRow -> list SnapRow;
  snap_order_perm : forall n m, snap_order n m ≡ₚ (map_to_list m).*2
}.
#[export, refine] Instance snap_key_order : SnapOrder | 100 := {| snap_order := fun _ m => (map_to_list m).*2 |}.
Proof. reflexivity. Defined.

(** [(julianday(now) - julianday(last)) * 86400 > ttl]: SQLite computes with
    milliseconds and doubles, so the answer is exact up to a second. *)
Class SqlJulian := {
  elapsed_gt : Time -> Time -> Z -> bool;
  elapsed_gt_yes : forall now last ttl, (ttl + 1) * second < now - last -> elapsed_gt now last ttl = true;
  elapsed_gt_no : forall now last ttl, now - last < (ttl - 1) * second -> elapsed_gt now last ttl = false
}.
#[export, refine] Instance exact_julian : SqlJulian | 100 := {| elapsed_gt := fun now last ttl => ttl * second <? now - last |}.
Proof.
  - intros now last ttl H. apply Z.ltb_lt. unfold second, millisecond, microsecond in *. lia.
  - intros now last ttl H. apply Z.ltb_ge. unfold second, millisecond, microsecond in *. lia.
Defined.

(** ** The store *)

Record Store := {
  ss_rows : gmap SnapKey SnapRow;
  ss_dir : string;                            (** base directory on disk *)
  ss_fault : nat -> bool; ss_stmts : nat;     (** which statements fail *)
  ss_clock : nat -> Time; ss_ticks : nat
}.

Definition set_rows (rows : gmap SnapKey SnapRow) (s : Store) : Store :=
  {| ss_rows := rows; ss_dir := ss_dir s; ss_fault := ss_fault s; ss_stmts := S (ss_stmts s);
     ss_clock := ss_clock s; ss_ticks := ss_ticks s |}.

(** [time.Now()] *)
Definition ss_now : ST Store Time := fun s =>
  (ss_clock s (ss_ticks s),
   {| ss_rows := ss_rows s; ss_dir := ss_dir s; ss_fault := ss_fault s; ss_stmts := ss_stmts s;
      ss_clock := ss_clock s; ss_ticks := S (ss_ticks s) |}).

(** [db.Exec] and [db.Query]. *)
Definition snap_exec (f : gmap SnapKey SnapRow -> gmap SnapKey SnapRow) : ST Store (result SnapError unit) := fun s =>
  if ss_fault s (ss_stmts s) then (Err ErrSnapSql, set_rows (ss_rows s) s) else (Ok tt, set_rows (f (ss_rows s)) s).
Definition snap_query {A} (f : nat -> gmap SnapKey SnapRow -> A) : ST Store (result SnapError A) := fun s =>
  (if ss_fault s (ss_stmts s) then Err ErrSnapSql else Ok (f (ss_stmts s) (ss_rows s)), set_rows (ss_rows s) s).

(** [New] on a database file with the given rows. *)
Definition New (file : gmap SnapKey SnapRow) (baseDir : string) (fault : nat -> bool) (clock : nat -> Time) : result SnapError Store :=
  let s := {| ss_rows := file; ss_dir := baseDir; ss_fault := fault; ss_stmts := 0; ss_clock := clock; ss_ticks := 0 |} in
  match snap_exec (fun rows => rows) s with (Ok _, s) => Ok s | (Err e, _) => Err e end.

Definition Close (s : Store) : Store :=
  {| ss_rows := ss_rows s; ss_dir := ss_dir s; ss_fault := fun _ => true; ss_stmts := ss_stmts s;
     ss_clock := ss_clock s; ss_ticks := ss_ticks s |}.

Definition boolToInt (b : bool) : Z := if b then 1 else 0.

Section Statements.
Context `{C : GoConv} `{SO : SnapOrder} `{J : SqlJulian}.

Definition row_of (rec : Record_) : SnapRow :=
  {| s_capsule_id := r_CapsuleID rec; s_tag := r_Tag rec; s_size := r_Size rec; s_path := r_Path rec;
     s_checksum := r_Checksum rec; s_created_at := r_CreatedAt rec; s_last_accessed := r_LastAccessed rec;
     s_ttl_seconds := f64_to_int64 (Duration_Seconds (r_TTL rec)); s_in_use := boolToInt (r_InUse rec) |}.

Definition Put (rec : Record_) : ST Store (result SnapError unit) :=
  snap_exec (<[(r_CapsuleID rec, r_Tag rec) := row_of rec]>).

Definition scanRecord (r : SnapRow) : Record_ :=
  {| r_CapsuleID := s_capsule_id r; r_Tag := s_tag r; r_Size := s_size r; r_Path := s_path r; r_Checksum := s_checksum r;
     r_CreatedAt := s_created_at r; r_LastAccessed := s_last_accessed r;
     r_TTL := int64 (s_ttl_seconds r * second); r_InUse := negb (s_in_use r =? 0) |}.

Definition Get (capsuleID tag : string) : ST Store (result SnapError (option Record_)) :=
  snap_query (fun _ rows => scanRecord <$> rows !! (capsuleID, tag)).

(** [WHERE capsule_id = ? ORDER BY created_at DESC] *)
Definition newest_first (a b : SnapRow) : Prop := s_created_at b <= s_created_at a.
#[export] Instance newest_first_dec a b : Decision (newest_first a b) := decide (s_created_at b <= s_created_at a).
Definition by_capsule (capsuleID : string) (n : nat) (rows : gmap SnapKey SnapRow) : list SnapRow :=
  merge_sort newest_first (List.filter (fun r => s_capsule_id r =s capsuleID) (snap_order n rows)).

Definition ListByCapsule (capsuleID : string) : ST Store (result SnapError (list Record_)) :=
  snap_query (fun n rows => scanRecord <$> by_capsule capsuleID n rows).

Definition touch (now : Time) (r : SnapRow) : SnapRow :=
  {| s_capsule_id := s_capsule_id r; s_tag := s_tag r; s_size := s_size r; s_path := s_path r; s_checksum := s_checksum r;
     s_created_at := s_created_at r; s_last_accessed := now; s_ttl_seconds := s_ttl_seconds r; s_in_use := s_in_use r |}.
Definition TouchAccess (capsuleID tag : string) : ST Store (result SnapError unit) := fun s =>
  let '(now, s) := ss_now s in snap_exec (alter (touch now) (capsuleID, tag)) s.

Definition in_use (b : bool) (r : SnapRow) : SnapRow :=
  {| s_capsule_id := s_capsule_id r; s_tag := s_tag r; s_size := s_size r; s_path := s_path r; s_checksum := s_checksum r;
     s_created_at := s_created_at r; s_last_accessed := s_last_accessed r; s_ttl_seconds := s_ttl_seconds r;
     s_in_use := boolToInt b |}.
Definition SetInUse (capsuleID tag : string) (inUse : bool) : ST Store (result SnapError unit) :=
  snap_exec (alter (in_use inUse) (capsuleID, tag)).

Definition Delete (capsuleID tag : string) : ST Store (result SnapError unit) := snap_exec (delete (capsuleID, tag)).
Definition DeleteByCapsule (capsuleID : string) : ST Store (result SnapError unit) :=
  snap_exec (filter (fun kr => (s_capsule_id kr.2 =s capsuleID) = false)).

(** The DELETE statements of the evictions, whose errors are ignored. *)
Definition evict (rec : Record_) (s : Store) : Store := snd (Delete (r_CapsuleID rec) (r_Tag rec) s).

Definition expired (now : Time) (r : SnapRow) : bool :=
  (s_in_use r =? 0) && elapsed_gt now (s_last_accessed r) (s_ttl_seconds r).

Definition EvictExpired : ST Store (result SnapError (list Record_)) := fun s =>
  let '(now, s) := ss_now s in
  match snap_query (fun n rows => scanRecord <$> List.filter (expired now) (snap_order n rows)) s with
  | (Err e, s) => (Err e, s)
  | (Ok evicted, s) => (Ok evicted, fold_left (fun s rec => evict rec s) evicted s)
  end.

(** The loop of [EvictOverCap]. *)
Fixpoint over_cap (maxPerCapsule kept : Z) (all : list Record_) (evicted : list Record_) (s : Store) : list Record_ * Store :=
  match all with
  | [] => (evicted, s)
  | rec :: all =>
      if ((kept <? maxPerCapsule) || r_InUse rec) && (negb (r_InUse rec) || (kept <? maxPerCapsule))
      then over_cap maxPerCapsule (kept + 1) all evicted s
      else over_cap maxPerCapsule kept all (evicted ++ [rec]) (evict rec s)
  end.

Definition EvictOverCap (capsuleID : string) (maxPerCapsule : Z) : ST Store (result SnapError (list Record_)) := fun s =>
  match ListByCapsule capsuleID s with
  | (Err e, s) => (Err e, s)
  | (Ok all, s) => let '(evicted, s) := over_cap maxPerCapsule 0 all [] s in (Ok evicted, s)
  end.

End Statements.

(** ** What the store keeps *)

Definition rows_keyed (rows : gmap SnapKey SnapRow) : Prop := map_Forall (fun k r => s_key r = k) rows.
Definition no_faults (s : Store) : Prop := forall n, ss_fault s n = false.

Section Facts.
Context `{C : GoConv} `{SO : SnapOrder} `{J : SqlJulian}.

Lemma snap_exec_ok f s : no_faults s -> snap_exec f s = (Ok tt, set_rows (f (ss_rows s)) s).
Proof. intros H. unfold snap_exec. by rewrite H. Qed.

Lemma alter_keyed f k rows : (forall r, s_key (f r) = s_key r) -> rows_keyed rows -> rows_keyed (alter f k rows).
Proof.
  intros Hf Hr k' r'. rewrite lookup_alter. destruct (decide (k = k')) as [<-|]; [|apply Hr].
  destruct (rows !! k) as [r|] eqn:E; [|done]. intros [= <-]. rewrite Hf. by apply Hr.
Qed.

Lemma snap_exec_keyed f s :
  (forall rows, rows_keyed rows -> rows_keyed (f rows)) -> rows_keyed (ss_rows s) -> rows_keyed (ss_rows (snd (snap_exec f s))).
Proof. intros Hf Hs. unfold snap_exec. destruct (ss_fault _ _); simpl; auto. Qed.

(** What an eviction of a list of records does to the table. *)
Lemma evict_rows rec s k :
  ss_rows (evict rec s) !! k = ss_rows s !! k \/
  (ss_rows (evict rec s) !! k = None /\ k = (r_CapsuleID rec, r_Tag rec)).
Proof.
  unfold evict, Delete, snap_exec. destruct (ss_fault _ _); simpl; [by left|].
  destruct (decide ((r_CapsuleID rec, r_Tag rec) = k)) as [<-|Hk]; [rewrite lookup_delete_eq; by right|].
  rewrite lookup_delete_ne by done. by left.
Qed.

Lemma evict_all_rows l s k :
  ss_rows (fold_left (fun s rec => evict rec s) l s) !! k = ss_rows s !! k \/
  (ss_rows (fold_left (fun s rec => evict rec s) l s) !! k = None /\ k ∈ (fun rec => (r_CapsuleID rec, r_Tag rec)) <$> l).
Proof.
  revert s. induction l as [|rec l IH]; intros s; simpl; [by left|].
  destruct (IH (evict rec s)) as [E|[E Hk]].
  - rewrite E. destruct (evict_rows rec s k) as [|[? ->]]; [by left|right]. split; [done|]. by constructor.
  - right. split; [done|]. by constructor.
Qed.

Lemma evict_no_faults rec s : no_faults s ->
  no_faults (evict rec s) /\ ss_rows (evict rec s) = delete (r_CapsuleID rec, r_Tag rec) (ss_rows s).
Proof. intros H. unfold evict, Delete. by rewrite snap_exec_ok. Qed.

Lemma evict_all_gone l s k : no_faults s -> k ∈ (fun rec => (r_CapsuleID rec, r_Tag rec)) <$> l ->
  ss_rows (fold_left (fun s rec => evict rec s) l s) !! k = None.
Proof.
  revert s. induction l as [|rec l IH]; intros s Hs; simpl; [by intros ?%not_elem_of_nil|].
  destruct (evict_no_faults rec s Hs) as [Hs' Hr]. intros [->|Hk]%elem_of_cons; [|by apply IH].
  destruct (evict_all_rows l (evict rec s) (r_CapsuleID rec, r_Tag rec)) as [E|[E _]]; [|done].
  rewrite E, Hr. apply lookup_delete_eq.
Qed.

Lemma scan_keys (l : list SnapRow) : (fun rec => (r_CapsuleID rec, r_Tag rec)) <$> (scanRecord <$> l) = s_key <$> l.
Proof. rewrite <- list_fmap_compose. reflexivity. Qed.

Lemma elem_of_snap_order n rows r : r ∈ snap_order n rows <-> exists k, rows !! k = Some r.
Proof.
  rewrite snap_order_perm, list_elem_of_fmap. split.
  - intros ([k r'] & -> & Hk). exists k. by apply elem_of_map_to_list.
  - intros [k Hk]. exists (k, r). by rewrite elem_of_map_to_list.
Qed.

Lemma expired_key now n rows k :
  rows_keyed rows ->
  k ∈ s_key <$> List.filter (expired now) (snap_order n rows) <-> exists r, rows !! k = Some r /\ expired now r = true.
Proof.
  intros Hk. rewrite list_elem_of_fmap. setoid_rewrite list_elem_of_In. setoid_rewrite filter_In.
  setoid_rewrite <- list_elem_of_In. setoid_rewrite elem_of_snap_order. split.
  - intros (r & -> & [k' Hr] & He). pose proof (Hk _ _ Hr) as <-. eauto.
  - intros (r & Hr & He). exists r. pose proof (Hk _ _ Hr) as <-. eauto.
Qed.

(** Expiry is exact and safe.  When its query succeeds,
    [EvictExpired] returns the records of exactly the rows that are not in use
    and whose time has run out; whatever the DELETE statements do, every other
    row stays as it is; and when they succeed, all those rows are gone. *)
Theorem snapshot_expired_exact s
    (Hk : rows_keyed (ss_rows s)) (Hq : ss_fault s (ss_stmts s) = false) :
  let now := ss_clock s (ss_ticks s) in
  let '(res, s') := EvictExpired s in
  res = Ok (scanRecord <$> List.filter (expired now) (snap_order (ss_stmts s) (ss_rows s))) /\
  (forall k r, ss_rows s !! k = Some r -> expired now r = false -> ss_rows s' !! k = Some r) /\
  (forall k, ss_rows s !! k = None -> ss_rows s' !! k = None) /\
  (no_faults s -> forall k r, ss_rows s !! k = Some r -> expired now r = true -> ss_rows s' !! k = None).
Proof.
  cbv zeta. unfold EvictExpired, ss_now, snap_query. cbn [ss_fault ss_stmts ss_rows ss_clock ss_ticks ss_dir]. rewrite Hq.
  set (now := ss_clock s (ss_ticks s)). set (l := List.filter (expired now) _). set (s1 := set_rows _ _).
  assert (Hkey : forall k, k ∈ s_key <$> l -> exists r, ss_rows s !! k = Some r /\ expired now r = true)
    by (intros k; by apply expired_key).
  split; [done|]. split_and!.
  - intros k r Hr He. destruct (evict_all_rows (scanRecord <$> l) s1 k) as [E|[_ Hin]]; [by rewrite E|].
    rewrite scan_keys in Hin. destruct (Hkey k Hin) as (r' & Hr' & He'). simplify_eq. congruence.
  - intros k Hr. destruct (evict_all_rows (scanRecord <$> l) s1 k) as [E|[E _]]; rewrite E; done.
  - intros Hnf k r Hr He. apply evict_all_gone; [done|]. rewrite scan_keys. apply expired_key; eauto.
Qed.

(** *** The cap *)

Lemma over_cap_test a u : (a || u) && (negb u || a) = a.
Proof. by destruct a, u. Qed.

Lemma over_cap_drop cap all kept evicted s : 0 <= kept ->
  over_cap cap kept all evicted s =
  (evicted ++ drop (Z.to_nat (cap - kept)) all, fold_left (fun s rec => evict rec s) (drop (Z.to_nat (cap - kept)) all) s).
Proof.
  revert kept evicted s. induction all as [|rec all IH]; intros kept evicted s Hkept; cbn [over_cap].
  - rewrite drop_nil. by rewrite app_nil_r.
  - rewrite over_cap_test. destruct (Z.ltb_spec kept cap) as [Hlt|Hge].
    + rewrite IH by lia. replace (Z.to_nat (cap - kept)) with (S (Z.to_nat (cap - (kept + 1)))) by lia. done.
    + rewrite IH by lia. replace (Z.to_nat (cap - kept)) with 0%nat by lia. rewrite !drop_0. by rewrite <- app_assoc.
Qed.

Lemma by_capsule_key cap n rows k (l : list SnapRow) :
  rows_keyed rows -> l = by_capsule cap n rows -> k ∈ s_key <$> l -> exists r, rows !! k = Some r /\ s_capsule_id r = cap.
Proof.
  intros Hk ->. rewrite list_elem_of_fmap. unfold by_capsule. intros (r & -> & Hr).
  rewrite merge_sort_Permutation in Hr. apply list_elem_of_In, filter_In in Hr as [Hr Hc].
  apply list_elem_of_In, elem_of_snap_order in Hr as [k Hr]. pose proof (Hk _ _ Hr) as <-.
  exists r. split; [done|]. by apply String.eqb_eq.
Qed.

#[export] Instance newest_first_total : Total newest_first.
Proof. intros a b. unfold newest_first. lia. Qed.
#[export] Instance newest_first_trans : Transitive newest_first.
Proof. intros a b c. unfold newest_first. lia. Qed.

(** The cap is by age alone.  [EvictOverCap] removes and returns
    exactly the records past the newest [maxPerCapsule] of the capsule, and
    being in use protects none of them, although its comment says it does. *)
Theorem snapshot_cap_exact capsuleID cap s (Hk : rows_keyed (ss_rows s)) (Hf : no_faults s) :
  let newest := by_capsule capsuleID (ss_stmts s) (ss_rows s) in
  let '(res, s') := EvictOverCap capsuleID cap s in
  newest ≡ₚ List.filter (fun r => s_capsule_id r =s capsuleID) (snap_order (ss_stmts s) (ss_rows s)) /\
  StronglySorted newest_first newest /\
  res = Ok (scanRecord <$> drop (Z.to_nat cap) newest) /\
  (forall k, ss_rows s' !! k = if decide (k ∈ s_key <$> drop (Z.to_nat cap) newest) then None else ss_rows s !! k).
Proof.
  cbv zeta. unfold EvictOverCap, ListByCapsule, snap_query. rewrite Hf.
  set (newest := by_capsule capsuleID _ _). rewrite over_cap_drop by lia. rewrite Z.sub_0_r, <- fmap_drop.
  split; [apply merge_sort_Permutation|]. split; [apply (StronglySorted_merge_sort _)|]. split; [done|].
  intros k. rewrite <- scan_keys. set (s1 := set_rows _ _).
  assert (Hs1 : no_faults s1) by done.
  case_decide as Hd; [by apply evict_all_gone|].
  by destruct (evict_all_rows (scanRecord <$> drop (Z.to_nat cap) newest) s1 k) as [E|[_ Hin]]; [rewrite E|].
Qed.

(** ** Reading back *)

(** A record that the table represents exactly: a TTL of whole seconds. *)
Definition storable_ttl (d : Duration) : Prop := in_int64 d /\ exists k, 0 <= k /\ d = k * second.

Lemma scan_row_of rec : storable_ttl (r_TTL rec) -> scanRecord (row_of rec) = rec.
Proof.
  destruct rec as [cap tag size path sum created accessed ttl use]. unfold storable_ttl. cbn [r_TTL]. intros [Hd (k & Hk0 & ->)].
  unfold scanRecord, row_of.
  assert (Hk : 0 <= k < 2 ^ 53) by (unfold in_int64, min_int64, max_int64, second, millisecond, microsecond in Hd; lia).
  cbn. rewrite Duration_Seconds_int64 by done. f_equal; [by apply int64_id|by destruct use].
Qed.

(** What is put is read back.  After a [Put] whose statement
    succeeds, [Get] of the same capsule and tag returns the record, and [Get]
    of any other key answers as before. *)
Theorem snapshot_put_get rec s (Hf : no_faults s) (Httl : storable_ttl (r_TTL rec)) :
  let '(res, s') := Put rec s in
  res = Ok tt /\
  fst (Get (r_CapsuleID rec) (r_Tag rec) s') = Ok (Some rec) /\
  (forall c t, (c, t) <> (r_CapsuleID rec, r_Tag rec) -> fst (Get c t s') = fst (Get c t s)).
Proof.
  unfold Put. rewrite snap_exec_ok by done. split; [done|]. unfold Get, snap_query. cbn [fst ss_fault set_rows ss_rows ss_stmts].
  rewrite !Hf. split.
  - rewrite lookup_insert_eq. simpl. by rewrite scan_row_of.
  - intros c t Hne. by rewrite lookup_insert_ne by congruence.
Qed.

(** *** Every operation keeps the rows under their keys *)

Inductive snap_op :=
  | SPut (rec : Record_) | STouch (c t : string) | SInUse (c t : string) (b : bool) | SDelete (c t : string)
  | SDeleteCapsule (c : string) | SExpire | SCap (c : string) (cap : Z).

Definition snap_step (s : Store) (o : snap_op) : Store :=
  match o with
  | SPut rec => snd (Put rec s)
  | STouch c t => snd (TouchAccess c t s)
  | SInUse c t b => snd (SetInUse c t b s)
  | SDelete c t => snd (Delete c t s)
  | SDeleteCapsule c => snd (DeleteByCapsule c s)
  | SExpire => snd (EvictExpired s)
  | SCap c cap => snd (EvictOverCap c cap s)
  end.

Lemma evict_all_keyed l s : rows_keyed (ss_rows s) -> rows_keyed (ss_rows (fold_left (fun s rec => evict rec s) l s)).
Proof. intros Hs k r. destruct (evict_all_rows l s k) as [->|[-> _]]; [apply Hs|done]. Qed.

Lemma snap_step_keyed s o : rows_keyed (ss_rows s) -> rows_keyed (ss_rows (snap_step s o)).
Proof.
  intros Hs. destruct o; cbn [snap_step].
  - apply snap_exec_keyed; [|done]. intros rows Hr. by apply map_Forall_insert_2.
  - unfold TouchAccess, ss_now. cbn zeta beta iota. apply snap_exec_keyed; [|done]. intros rows. by apply alter_keyed.
  - apply snap_exec_keyed; [|done]. intros rows. by apply alter_keyed.
  - apply snap_exec_keyed; [|done]. intros rows. apply map_Forall_delete.
  - apply snap_exec_keyed; [|done]. intros rows Hr k r [Hk _]%map_lookup_filter_Some. by apply Hr.
  - unfold EvictExpired, ss_now, snap_query. cbn zeta beta iota. cbn [ss_fault]. destruct (ss_fault _ _); cbn [snd]; [done|].
    by apply evict_all_keyed.
  - unfold EvictOverCap, ListByCapsule, snap_query. destruct (ss_fault _ _); [done|].
    rewrite over_cap_drop by lia. by apply evict_all_keyed.
Qed.

(** A protected row can only be lost to an explicit deletion or to the cap:
    the expiry keeps every row in use. *)
Definition used (rows : gmap SnapKey SnapRow) (k : SnapKey) : Prop := exists r, rows !! k = Some r /\ s_in_use r <> 0.

Lemma expire_keeps_used s k : rows_keyed (ss_rows s) -> used (ss_rows s) k -> used (ss_rows (snd (EvictExpired s))) k.
Proof.
  intros Hs (r & Hr & Hu). exists r. split; [|done].
  unfold EvictExpired, ss_now, snap_query. cbn zeta beta iota. cbn [ss_fault ss_stmts ss_rows ss_clock ss_ticks ss_dir].
  destruct (ss_fault _ _); cbn [snd]; [done|].
  destruct (evict_all_rows (scanRecord <$> List.filter (expired (ss_clock s (ss_ticks s))) (snap_order (ss_stmts s) (ss_rows s)))
    (set_rows (ss_rows s) {| ss_rows := ss_rows s; ss_dir := ss_dir s; ss_fault := ss_fault s; ss_stmts := ss_stmts s;
      ss_clock := ss_clock s; ss_ticks := S (ss_ticks s) |}) k) as [E|[_ Hin]]; [by rewrite E|].
  rewrite scan_keys, expired_key in Hin by done. destruct Hin as (r' & Hr' & He). simplify_eq.
  unfold expired in He. by destruct (Z.eqb_spec (s_in_use r) 0).
Qed.

End Facts.

(** ** A table with a snapshot in use *)

Module SnapDemo.

(** Version [i] of the image of the capsule ["web"], captured at hour [i],
    with a TTL of 72 hours. *)
Definition version (i : Z) (tag : string) (use : bool) : Record_ :=
  {| r_CapsuleID := "web"; r_Tag := tag; r_Size := 4096; r_Path := "/snap/web/" +:+ tag; r_Checksum := "c0ffee";
     r_CreatedAt := i * hour; r_LastAccessed := i * hour; r_TTL := 72 * hour; r_InUse := use |}.

Definition fresh (now : Time) : Store :=
  {| ss_rows := ∅; ss_dir := "/snap"; ss_fault := fun _ => false; ss_stmts := 0; ss_clock := fun _ => now; ss_ticks := 0 |}.

(** The oldest of three versions is the one a container runs from. *)
Definition three (now : Time) : Store :=
  fold_left (fun s rec => snd (Put rec s)) [version 1 "v1" true; version 2 "v2" false; version 3 "v3" false] (fresh now).

Lemma three_keyed now : rows_keyed (ss_rows (three now)).
Proof. unfold three. repeat (apply (snap_step_keyed _ (SPut _))). apply map_Forall_empty. Qed.

Definition tags (res : result SnapError (list Record_)) : list string :=
  match res with Ok l => r_Tag <$> l | Err _ => ["failed"] end.

(** With a cap of two the version in use is the one that is evicted. *)
Lemma snapshot_cap_exact_witness :
  fst (EvictOverCap "web" 2 (three 0)) = Ok [version 1 "v1" true] /\
  ss_rows (snd (EvictOverCap "web" 2 (three 0))) !! ("web", "v1") = None.
Proof.
  pose proof (snapshot_cap_exact "web" 2 (three 0) (three_keyed 0) (fun _ => eq_refl)) as H.
  cbv zeta in H. destruct (EvictOverCap "web" 2 (three 0)) as [res s'].
  destruct H as (_ & _ & Hres & Hrows). split.
  - cbn [fst]. rewrite Hres. vm_compute. reflexivity.
  - cbn [snd]. rewrite Hrows. vm_compute. reflexivity.
Defined.

(** After 80 hours the versions that are not in use have expired; the one in
    use stays. *)
Lemma snapshot_expired_exact_witness :
  tags (fst (EvictExpired (three (80 * hour)))) = ["v3"; "v2"] /\
  ss_rows (snd (EvictExpired (three (80 * hour)))) !! ("web", "v1") = Some (row_of (version 1 "v1" true)).
Proof.
  pose proof (snapshot_expired_exact (three (80 * hour)) (three_keyed _) eq_refl) as H. cbv zeta in H.
  destruct (EvictExpired (three (80 * hour))) as [res s']. destruct H as (Hres & Hkeep & _). split.
  - cbn [fst]. rewrite Hres. vm_compute. reflexivity.
  - apply Hkeep; vm_compute; reflexivity.
Defined.

Lemma snapshot_put_get_witness :
  fst (Get "web" "v4" (snd (Put (version 4 "v4" false) (three 0)))) = Ok (Some (version 4 "v4" false)).
Proof.
  assert (Httl : storable_ttl (r_TTL (version 4 "v4" false))).
  { split; [split; vm_compute; discriminate|]. exists 259200. split; [lia|reflexivity]. }
  pose proof (snapshot_put_get (version 4 "v4" false) (three 0) (fun _ => eq_refl) Httl) as H.
  destruct (Put (version 4 "v4" false) (three 0)) as [res s']. destruct H as (_ & H & _). exact H.
Defined.

End SnapDemo.
