(* ===== verification/Discovery.v ===== *)
(** * Snapshot discovery ([snapshot/discovery.go])

    Which node has which snapshot: signed announcements over a gossip topic
    fill an index, and a query protocol asks the peers directly when the index
    has no candidate.  JSON is the interface [SnapJson]; signing and verifying
    are functions of the discovery, absent when the options are not given; a
    published message and the answers of the peers are values of the model. *)

From S2P Require Import Prelude Float64 ElectionTopic Shared SnapshotStore.
Local Open Scope string_scope.
Local Open Scope list_scope.
Local Open Scope Z_scope.

(** ** Messages *)

Record SnapshotAvailable := {
  sa_CapsuleID : string; sa_Tag : string; sa_NodeID : string;
  sa_Size : Z; sa_Checksum : string;
  sa_Timestamp : Z                     (** unix millis *)
}.
Definition zero_available : SnapshotAvailable :=
  {| sa_CapsuleID := ""; sa_Tag := ""; sa_NodeID := ""; sa_Size := 0; sa_Checksum := ""; sa_Timestamp := 0 |}.

Record SnapshotQuery := { sq_CapsuleID : string; sq_Tag : string }.
Record SnapshotQueryResponse := { sqr_Available : bool; sqr_Size : Z; sqr_Checksum : string }.

Record signedMessage := { sm_Payload : bytes; sm_Signature : bytes; sm_SenderID : string }.

(** [json.Marshal] and [json.Unmarshal] of the two gossip messages. *)
Class SnapJson := {
  marshal_available : SnapshotAvailable -> option bytes;
  unmarshal_available : bytes -> option SnapshotAvailable;
  marshal_signed : signedMessage -> option bytes;
  unmarshal_signed : bytes -> option signedMessage
}.

(** JSON keeps texts of valid UTF-8 and all numbers and byte strings. *)
Class SnapJsonLaws (P : SnapJson) := {
  json_text : string -> Prop;
  json_available : forall m b, marshal_available m = Some b -> json_text (sa_CapsuleID m) -> json_text (sa_Tag m) ->
    json_text (sa_NodeID m) -> json_text (sa_Checksum m) -> unmarshal_available b = Some m /\ b <> [];
  json_signed : forall m b, marshal_signed m = Some b -> json_text (sm_SenderID m) -> unmarshal_signed b = Some m
}.

(** ** State *)

Abbreviation indexKey := (string * string)%type (only parsing).
Record indexEntry := { ie_NodeID : string; ie_Size : Z; ie_Checksum : string; ie_Timestamp : Time }.

Record Discovery := {
  d_host : string;                                        (** the node's own ID *)
  d_signer : option (bytes -> option bytes);
  d_verifier : option (string -> bytes -> bytes -> bool);
  d_index : gmap indexKey (list indexEntry)
}.

Definition NewDiscovery (hostID : string) signer verifier : Discovery :=
  {| d_host := hostID; d_signer := signer; d_verifier := verifier; d_index := ∅ |}.
Definition with_index (i : gmap indexKey (list indexEntry)) (d : Discovery) : Discovery :=
  {| d_host := d_host d; d_signer := d_signer d; d_verifier := d_verifier d; d_index := i |}.

Definition topic_name (clusterPath : string) : string := "falak/" +:+ clusterPath +:+ "/snapshot".

Inductive DiscoveryError := ErrDiscMarshal | ErrDiscSign | ErrDiscMarshalSigned.

(** ** Index *)

Definition entry_of (a : SnapshotAvailable) : indexEntry :=
  {| ie_NodeID := sa_NodeID a; ie_Size := sa_Size a; ie_Checksum := sa_Checksum a; ie_Timestamp := of_UnixMilli (sa_Timestamp a) |}.

(** The loop of [addToIndex]: replace the first entry of the node, or append. *)
Fixpoint upsert (e : indexEntry) (entries : list indexEntry) : list indexEntry :=
  match entries with
  | [] => [e]
  | e' :: entries => if ie_NodeID e' =s ie_NodeID e then e :: entries else e' :: upsert e entries
  end.

Definition addToIndex (avail : SnapshotAvailable) (d : Discovery) : Discovery :=
  let key := (sa_CapsuleID avail, sa_Tag avail) in
  with_index (<[key := upsert (entry_of avail) (default [] (d_index d !! key))]> (d_index d)) d.

Definition FindHolders (capsuleID tag : string) (d : Discovery) : list string :=
  ie_NodeID <$> default [] (d_index d !! (capsuleID, tag)).

Section Messages.
Context `{P : SnapJson}.

(** ** Gossip *)

(** [BroadcastAvailable] up to [topic.Publish]: the bytes to publish. *)
Definition BroadcastAvailable (capsuleID tag checksum : string) (size : Z) (now : Time) (d : Discovery) : result DiscoveryError bytes :=
  let msg := {| sa_CapsuleID := capsuleID; sa_Tag := tag; sa_NodeID := d_host d; sa_Size := size; sa_Checksum := checksum;
                sa_Timestamp := UnixMilli now |} in
  match marshal_available msg with
  | None => Err ErrDiscMarshal
  | Some payload =>
      match d_signer d with
      | None => Ok payload
      | Some Sign =>
          match Sign payload with
          | None => Err ErrDiscSign
          | Some sig =>
              match marshal_signed {| sm_Payload := payload; sm_Signature := sig; sm_SenderID := d_host d |} with
              | None => Err ErrDiscMarshalSigned
              | Some data => Ok data
              end
          end
      end
  end.

Definition parseAndVerify (data : bytes) (d : Discovery) : SnapshotAvailable * bool :=
  match d_verifier d with
  | Some Verify =>
      match unmarshal_signed data with
      | None => (zero_available, false)
      | Some signed =>
          if (length (sm_Payload signed) =? 0)%nat then (zero_available, false)
          else if negb (Verify (sm_SenderID signed) (sm_Payload signed) (sm_Signature signed)) then (zero_available, false)
          else match unmarshal_available (sm_Payload signed) with
               | None => (zero_available, false)
               | Some avail => (avail, true)
               end
      end
  | None =>
      match unmarshal_available data with
      | None => (zero_available, false)
      | Some avail => (avail, true)
      end
  end.

(** One turn of [consumeGossip] for a message of the topic. *)
Definition consumeGossip (receivedFrom : string) (data : bytes) (d : Discovery) : Discovery :=
  if receivedFrom =s d_host d then d
  else let '(avail, ok) := parseAndVerify data d in if ok then addToIndex avail d else d.

End Messages.

(** ** Queries *)

(** [handleQuery] on a request that decodes; [None] stands for one that does
    not, after which nothing is written. *)
Definition handleQuery `{GoConv} (req : option SnapshotQuery) : ST Store (option SnapshotQueryResponse) := fun s =>
  match req with
  | None => (None, s)
  | Some q =>
      match Get (sq_CapsuleID q) (sq_Tag q) s with
      | (Ok (Some rec), s) => (Some {| sqr_Available := true; sqr_Size := r_Size rec; sqr_Checksum := r_Checksum rec |}, s)
      | (_, s) => (Some {| sqr_Available := false; sqr_Size := 0; sqr_Checksum := "" |}, s)
      end
  end.

Inductive QueryError := ErrNoPeers | ErrNoPeerHas | ErrQueryCancelled.

(** What the loop of [QueryFirstResponder] can receive: the answer of a peer,
    [false] when the peer is unreachable or lacks the snapshot, or the end of
    the context. *)
Inductive qevent := QResult (peerID : string) (ok : bool) | QDone.

Fixpoint await (remaining : nat) (evs : list qevent) : option (result QueryError string) :=
  match remaining with
  | O => Some (Err ErrNoPeerHas)
  | S r =>
      match evs with
      | [] => None                       (* still waiting *)
      | QResult p true :: _ => Some (Ok p)
      | QResult _ false :: evs => await r evs
      | QDone :: _ => Some (Err ErrQueryCancelled)
      end
  end.

Definition QueryFirstResponder (peers : list string) (evs : list qevent) : option (result QueryError string) :=
  if (length peers =? 0)%nat then Some (Err ErrNoPeers) else await (length peers) evs.

(** ** The index is a function of the history *)

(** The announcements of one snapshot, in order. *)
Definition about (key : indexKey) (hist : list SnapshotAvailable) : list SnapshotAvailable :=
  List.filter (fun a => bool_decide ((sa_CapsuleID a, sa_Tag a) = key)) hist.

(** The nodes of a history, each at its first occurrence. *)
Definition first_seen (hist : list SnapshotAvailable) : list string :=
  fold_left (fun acc a => if bool_decide (sa_NodeID a ∈ acc) then acc else acc ++ [sa_NodeID a]) hist [].

(** The last announcement of a node. *)
Definition last_from (n : string) (hist : list SnapshotAvailable) : option SnapshotAvailable :=
  list.last (List.filter (fun a => sa_NodeID a =s n) hist).

Definition index_all (hist : list SnapshotAvailable) (d : Discovery) : Discovery := fold_left (fun d a => addToIndex a d) hist d.

Lemma upsert_nodes e entries :
  ie_NodeID <$> upsert e entries =
  if bool_decide (ie_NodeID e ∈ ie_NodeID <$> entries) then ie_NodeID <$> entries else (ie_NodeID <$> entries) ++ [ie_NodeID e].
Proof.
  induction entries as [|x l IH]; [done|]. cbn [upsert]. destruct (String.eqb_spec (ie_NodeID x) (ie_NodeID e)) as [Heq|Hne].
  - rewrite bool_decide_eq_true_2 by (rewrite fmap_cons, Heq; left). rewrite !fmap_cons. by rewrite Heq.
  - rewrite !fmap_cons, IH. case_bool_decide as H1; case_bool_decide as H2; rewrite elem_of_cons in H2; naive_solver.
Qed.

Lemma upsert_find e entries n :
  list_find (fun x => ie_NodeID x = n) (upsert e entries) ≫= (fun p => Some p.2) =
  if decide (ie_NodeID e = n) then Some e else list_find (fun x => ie_NodeID x = n) entries ≫= (fun p => Some p.2).
Proof.
  induction entries as [|x l IH]; cbn [upsert list_find]; [by case_decide|].
  destruct (String.eqb_spec (ie_NodeID x) (ie_NodeID e)) as [Heq|Hne]; cbn [list_find].
  - rewrite Heq. by case_decide.
  - destruct (decide (ie_NodeID x = n)) as [Hx|Hx]; [case_decide; [congruence|done]|].
    destruct (list_find _ (upsert e l)) as [[? ?]|] eqn:E1, (list_find _ l) as [[? ?]|] eqn:E2; simpl in *; done.
Qed.

Lemma index_all_app h1 h2 d : index_all (h1 ++ h2) d = index_all h2 (index_all h1 d).
Proof. apply fold_left_app. Qed.

Lemma addToIndex_lookup a d k :
  default [] (d_index (addToIndex a d) !! k) =
  if bool_decide ((sa_CapsuleID a, sa_Tag a) = k) then upsert (entry_of a) (default [] (d_index d !! k)) else default [] (d_index d !! k).
Proof.
  unfold addToIndex. cbn [d_index with_index]. case_bool_decide as H; [subst; by rewrite lookup_insert_eq|by rewrite lookup_insert_ne].
Qed.

Lemma about_snoc key hist a :
  about key (hist ++ [a]) = about key hist ++ (if bool_decide ((sa_CapsuleID a, sa_Tag a) = key) then [a] else []).
Proof. unfold about. rewrite List.filter_app. cbn. by case_bool_decide. Qed.

Lemma first_seen_snoc hist a :
  first_seen (hist ++ [a]) = if bool_decide (sa_NodeID a ∈ first_seen hist) then first_seen hist else first_seen hist ++ [sa_NodeID a].
Proof. unfold first_seen. by rewrite fold_left_app. Qed.

Definition holder (n capsuleID tag : string) (d : Discovery) : option indexEntry :=
  list_find (fun x => ie_NodeID x = n) (default [] (d_index d !! (capsuleID, tag))) ≫= (fun p => Some p.2).

(** C19: the index is what the announcements say.  After any sequence
    of announcements, the holders of a snapshot are the nodes that announced
    it, each once and in the order of their first announcements, and the entry
    of a node is that of its last announcement. *)
Theorem discovery_index_history hist hostID signer verifier capsuleID tag n :
  let d := index_all hist (NewDiscovery hostID signer verifier) in
  FindHolders capsuleID tag d = first_seen (about (capsuleID, tag) hist) /\
  NoDup (FindHolders capsuleID tag d) /\
  holder n capsuleID tag d = entry_of <$> last_from n (about (capsuleID, tag) hist).
Proof.
  cbv zeta. set (d0 := NewDiscovery _ _ _). set (key := (capsuleID, tag)).
  assert (Hnd : forall h, NoDup (first_seen h)).
  { induction h as [|a h IH] using rev_ind; [by constructor|]. rewrite first_seen_snoc. case_bool_decide; [done|].
    apply list.NoDup_app. split_and!; [done| |apply NoDup_singleton]. intros x Hx ->%list_elem_of_singleton. done. }
  assert (H : FindHolders capsuleID tag (index_all hist d0) = first_seen (about key hist) /\
              holder n capsuleID tag (index_all hist d0) = entry_of <$> last_from n (about key hist)).
  { unfold FindHolders, holder. fold key. induction hist as [|a hist [IH1 IH2]] using rev_ind; [done|].
    rewrite index_all_app, about_snoc. cbn [index_all fold_left]. rewrite addToIndex_lookup.
    case_bool_decide; [|by rewrite app_nil_r]. split.
    - rewrite upsert_nodes, IH1, first_seen_snoc. done.
    - rewrite upsert_find, IH2. unfold last_from. rewrite List.filter_app. cbn.
      destruct (decide (sa_NodeID a = n)) as [<-|Hne].
      + rewrite String.eqb_refl. by rewrite list.last_snoc.
      + rewrite (proj2 (String.eqb_neq _ _) Hne). by rewrite app_nil_r. }
  destruct H as [H1 H2]. rewrite H1. auto.
Qed.

(** ** Announcements arrive *)

Section Gossip.
Context `{P : SnapJson} `{L : !SnapJsonLaws P}.

Lemma addToIndex_holder a d : sa_NodeID a ∈ FindHolders (sa_CapsuleID a) (sa_Tag a) (addToIndex a d).
Proof.
  unfold FindHolders. rewrite addToIndex_lookup, bool_decide_eq_true_2 by done. rewrite upsert_nodes.
  case_bool_decide; [done|]. apply elem_of_app. right. by left.
Qed.

(** A broadcast reaches the index.  When a node announces a
    snapshot, every other node that verifies its signatures lists it as a
    holder after the message, whichever neighbour it came from; and a node
    that verifies accepts nothing whose signature does not verify. *)
Theorem discovery_broadcast_indexed A B Sign Verify capsuleID tag checksum size now data from
    (HA : d_signer A = Some Sign) (HB : d_verifier B = Some Verify)
    (Htext : json_text capsuleID /\ json_text tag /\ json_text checksum /\ json_text (d_host A))
    (Hsig : forall payload sig, Sign payload = Some sig -> Verify (d_host A) payload sig = true)
    (Hpub : BroadcastAvailable capsuleID tag checksum size now A = Ok data)
    (Hfrom : from <> d_host B) :
  d_host A ∈ FindHolders capsuleID tag (consumeGossip from data B) /\
  (forall data', (forall m, unmarshal_signed data' = Some m -> Verify (sm_SenderID m) (sm_Payload m) (sm_Signature m) = false) ->
     consumeGossip from data' B = B).
Proof.
  destruct Htext as (Hc & Ht & Hs & Hh). split.
  - unfold BroadcastAvailable in Hpub. destruct (marshal_available _) as [payload|] eqn:Em; [|done].
    rewrite HA in Hpub. destruct (Sign payload) as [sig|] eqn:Es; [|done].
    destruct (marshal_signed _) as [data'|] eqn:Ed; [|done]. injection Hpub as <-.
    destruct (json_available _ _ Em Hc Ht Hh Hs) as [Eu Hne].
    unfold consumeGossip, parseAndVerify. rewrite (proj2 (String.eqb_neq _ _) Hfrom), HB.
    rewrite (json_signed _ _ Ed Hh). cbn [sm_Payload sm_SenderID sm_Signature].
    rewrite (proj2 (Nat.eqb_neq _ _)) by (by destruct payload). rewrite (Hsig _ _ Es), Eu. cbn [negb].
    apply (addToIndex_holder {| sa_CapsuleID := capsuleID; sa_Tag := tag; sa_NodeID := d_host A; sa_Size := size;
      sa_Checksum := checksum; sa_Timestamp := UnixMilli now |}).
  - intros data' Hno. unfold consumeGossip, parseAndVerify. rewrite (proj2 (String.eqb_neq _ _) Hfrom), HB.
    destruct (unmarshal_signed data') as [m|]; [|done]. destruct (_ =? _)%nat; [done|]. by rewrite (Hno m eq_refl).
Qed.

(** The signature does not bind the holder.  Whoever can sign a
    message as itself can make every verifying node list a third node as a
    holder of a snapshot of its choice, although the comment of
    [BroadcastAvailable] says that signing prevents fake availability. *)
Theorem discovery_forged_holder B Verify sender victim capsuleID tag checksum size ts payload sig data from
    (HB : d_verifier B = Some Verify)
    (Htext : json_text capsuleID /\ json_text tag /\ json_text checksum /\ json_text victim /\ json_text sender)
    (Hpay : marshal_available {| sa_CapsuleID := capsuleID; sa_Tag := tag; sa_NodeID := victim; sa_Size := size;
                                 sa_Checksum := checksum; sa_Timestamp := ts |} = Some payload)
    (Hsig : Verify sender payload sig = true)
    (Hdata : marshal_signed {| sm_Payload := payload; sm_Signature := sig; sm_SenderID := sender |} = Some data)
    (Hfrom : from <> d_host B) :
  victim ∈ FindHolders capsuleID tag (consumeGossip from data B).
Proof.
  destruct Htext as (Hc & Ht & Hs & Hv & Hse). destruct (json_available _ _ Hpay Hc Ht Hv Hs) as [Eu Hne].
  unfold consumeGossip, parseAndVerify. rewrite (proj2 (String.eqb_neq _ _) Hfrom), HB, (json_signed _ _ Hdata Hse).
  cbn [sm_Payload sm_SenderID sm_Signature]. rewrite (proj2 (Nat.eqb_neq _ _)) by (by destruct payload).
  rewrite Hsig, Eu. cbn [negb].
  apply (addToIndex_holder {| sa_CapsuleID := capsuleID; sa_Tag := tag; sa_NodeID := victim; sa_Size := size;
    sa_Checksum := checksum; sa_Timestamp := ts |}).
Qed.

End Gossip.

(** ** Queries find a holder *)

Lemma await_positive evs n p :
  await n evs = Some (Ok p) -> QResult p true ∈ evs.
Proof.
  revert n. induction evs as [|[q []|] evs IH]; intros [|n]; cbn [await]; try done.
  - intros [= ->]. by left.
  - intros H. right. eauto.
Qed.

Lemma await_all answers :
  await (length answers) ((fun a => QResult a.1 a.2) <$> answers) =
  Some (match List.filter (fun a : string * bool => a.2) answers with [] => Err ErrNoPeerHas | a :: _ => Ok a.1 end).
Proof. induction answers as [|[p []] l IH]; [done..|]. cbn. apply IH. Qed.

(** The fallback query is complete and sound.  When every peer
    answers, in any order, [QueryFirstResponder] returns; it returns the first
    peer that says it has the snapshot, and an error exactly when none does. *)
Theorem discovery_query_complete (peers : list string) answers
    (Hall : answers.*1 ≡ₚ peers) (Hne : peers <> []) :
  exists res, QueryFirstResponder peers ((fun a => QResult a.1 a.2) <$> answers) = Some res /\
  match res with
  | Ok p => (p, true) ∈ answers
  | Err e => e = ErrNoPeerHas /\ forall p, p ∈ peers -> (p, false) ∈ answers
  end.
Proof.
  eexists. split.
  - unfold QueryFirstResponder. rewrite (proj2 (Nat.eqb_neq _ _)) by (by destruct peers).
    rewrite <- (Permutation_length Hall), length_fmap. apply await_all.
  - destruct (List.filter _ answers) as [|[p b] l] eqn:E.
    + split; [done|]. intros p. rewrite <- Hall, list_elem_of_fmap. intros ([q []] & -> & Hq); [|done].
      assert (Hin : In (q, true) []) by (rewrite <- E; apply filter_In; by rewrite <- list_elem_of_In). done.
    + assert (Hin : In (p, b) ((p, b) :: l)) by (by left). rewrite <- E in Hin. apply filter_In in Hin as [Hin Hb].
      simpl in Hb. subst b. by apply list_elem_of_In.
Qed.

(** ** Two nodes and a third one *)

Module DiscoveryDemo.

#[local] Instance available_eq_dec : EqDecision SnapshotAvailable.
Proof. solve_decision. Defined.
#[local] Instance available_countable : Countable SnapshotAvailable.
Proof.
  refine (inj_countable' (fun a => (sa_CapsuleID a, sa_Tag a, sa_NodeID a, sa_Size a, sa_Checksum a, sa_Timestamp a))
    (fun '(c, t, n, z, s, ts) => {| sa_CapsuleID := c; sa_Tag := t; sa_NodeID := n; sa_Size := z; sa_Checksum := s; sa_Timestamp := ts |}) _).
  by intros [].
Defined.

Definition put_signed (m : signedMessage) : bytes :=
  wire.esc (sm_Payload m) ++ wire.esc (sm_Signature m) ++ list_ascii_of_string (sm_SenderID m).
Definition get_signed (b : bytes) : option signedMessage :=
  match wire.unesc b with
  | Some (p, b) => match wire.unesc b with
                   | Some (s, b) => Some {| sm_Payload := p; sm_Signature := s; sm_SenderID := string_of_list_ascii b |}
                   | None => None
                   end
  | None => None
  end.
Lemma get_put_signed m : get_signed (put_signed m) = Some m.
Proof. destruct m. unfold get_signed, put_signed. cbn [sm_Payload sm_Signature sm_SenderID]. by rewrite !wire.unesc_esc, string_of_list_ascii_of_string. Qed.

(** A codec whose messages start with a brace. *)
Definition brace (b : bytes) : bytes := "{"%char :: b.
Definition unbrace {A} (f : bytes -> option A) (b : bytes) : option A := match b with _ :: b => f b | [] => None end.
#[local] Instance demo_json : SnapJson := {|
  marshal_available := fun m => brace <$> wire.to_wire m; unmarshal_available := unbrace wire.of_wire;
  marshal_signed := fun m => Some (put_signed m); unmarshal_signed := get_signed |}.
#[local, refine] Instance demo_json_laws : SnapJsonLaws demo_json := {| json_text := fun _ => True |}.
Proof.
  - intros m b H _ _ _ _. destruct (wire.to_wire m) as [b'|] eqn:E; [|done]. injection H as <-. cbn.
    split; [by apply wire.wire_roundtrip|done].
  - intros m b [= <-] _. apply get_put_signed.
Defined.

(** A signature is the name of the signer. *)
Definition sign (me : string) (b : bytes) : option bytes := Some (list_ascii_of_string me).
Definition verify (sender : string) (b sig : bytes) : bool := bool_decide (list_ascii_of_string sender = sig).
Definition node (me : string) : Discovery := NewDiscovery me (Some (sign me)) (Some verify).

Definition announced : bytes :=
  match BroadcastAvailable "web" "v1" "c0ffee" 4096 0 (node "n1") with Ok d => d | Err _ => [] end.

Lemma verify_own me payload sig : sign me payload = Some sig -> verify me payload sig = true.
Proof. intros [= <-]. by apply bool_decide_eq_true. Qed.

Lemma announced_eq : BroadcastAvailable "web" "v1" "c0ffee" 4096 0 (node "n1") = Ok announced.
Proof. vm_compute. reflexivity. Qed.

Lemma discovery_broadcast_indexed_witness :
  "n1" ∈ FindHolders "web" "v1" (consumeGossip "n3" announced (node "n2")).
Proof.
  exact (proj1 (discovery_broadcast_indexed (node "n1") (node "n2") (sign "n1") verify "web" "v1" "c0ffee" 4096 0 announced "n3"
    eq_refl eq_refl (conj I (conj I (conj I I))) (verify_own "n1") announced_eq ltac:(discriminate))).
Defined.

(** ["mallory"] announces a snapshot of ["n9"]. *)
Definition forged_payload : bytes :=
  default [] (marshal_available {| sa_CapsuleID := "web"; sa_Tag := "v1"; sa_NodeID := "n9"; sa_Size := 1; sa_Checksum := ""; sa_Timestamp := 0 |}).
Definition forged : bytes :=
  default [] (marshal_signed {| sm_Payload := forged_payload; sm_Signature := list_ascii_of_string "mallory"; sm_SenderID := "mallory" |}).

Lemma forged_payload_eq :
  marshal_available {| sa_CapsuleID := "web"; sa_Tag := "v1"; sa_NodeID := "n9"; sa_Size := 1; sa_Checksum := ""; sa_Timestamp := 0 |} = Some forged_payload.
Proof. vm_compute. reflexivity. Qed.
Lemma forged_eq :
  marshal_signed {| sm_Payload := forged_payload; sm_Signature := list_ascii_of_string "mallory"; sm_SenderID := "mallory" |} = Some forged.
Proof. vm_compute. reflexivity. Qed.

Lemma discovery_forged_holder_witness :
  "n9" ∈ FindHolders "web" "v1" (consumeGossip "mallory" forged (node "n2")).
Proof.
  exact (discovery_forged_holder (node "n2") verify "mallory" "n9" "web" "v1" "" 1 0 forged_payload (list_ascii_of_string "mallory") forged
    "mallory" eq_refl (conj I (conj I (conj I (conj I I)))) forged_payload_eq (bool_decide_eq_true_2 _ eq_refl) forged_eq ltac:(discriminate)).
Defined.

Lemma discovery_query_complete_witness :
  QueryFirstResponder ["n1"; "n2"; "n3"] [QResult "n3" false; QResult "n1" true; QResult "n2" true] = Some (Ok "n1").
Proof.
  destruct (discovery_query_complete ["n1"; "n2"; "n3"] [("n3", false); ("n1", true); ("n2", true)]) as (res & E & _);
    [apply (Permutation_cons_append ["n1"; "n2"] "n3")|discriminate|].
  vm_compute in E. injection E as <-. vm_compute. reflexivity.
Defined.

End DiscoveryDemo.
