(* ===== verification/FilePath.v ===== *)
(** * Paths and files (Go's [path/filepath] and [os])

    What the program uses of slash-separated paths and of a file tree.  A
    path names a place of the tree by its elements; a relative path starts at
    the root of the modelled tree, and the tree has no symbolic links.  An
    operation on the tree may fail at any time without effect ([fs_fault]). *)

From stdpp Require Import sorting.
From S2P Require Import Prelude ElectionTopic Shared.
Local Open Scope string_scope.
Local Open Scope list_scope.

(** ** [path/filepath] *)

Definition IsAbs (p : string) : bool := match p with String c _ => Ascii.eqb c "/" | EmptyString => false end.

(** The loop of [Clean] over the elements of a path; the elements kept so far
    are in reverse order. *)
Fixpoint clean_loop (rooted : bool) (out : list string) (parts : list string) : list string :=
  match parts with
  | [] => out
  | p :: parts =>
      if (p =s "") || (p =s ".") then clean_loop rooted out parts
      else if p =s ".." then
        match out with
        | top :: below => if top =s ".." then clean_loop rooted (".." :: out) parts else clean_loop rooted below parts
        | [] => clean_loop rooted (if rooted then [] else [".."]) parts
        end
      else clean_loop rooted (p :: out) parts
  end.

Definition clean_elems (rooted : bool) (p : string) : list string := rev (clean_loop rooted [] (Split "/" p)).

Definition Clean (p : string) : string :=
  let body := String.concat "/" (clean_elems (IsAbs p) p) in
  if IsAbs p then "/" +:+ body else if body =s "" then "." else body.

(** Leading empty elements are ignored. *)
Fixpoint Join (elem : list string) : string :=
  match elem with
  | [] => ""
  | e :: rest => if e =s "" then Join rest else Clean (String.concat "/" elem)
  end.

(** [filepath.Separator] is the slash. *)
Definition HasPrefix (s prefix : string) : bool := String.prefix prefix s.

(** The place a path names. *)
Definition elems (p : string) : list string := clean_elems true p.

(** *** Elements *)

(** A name of one element, as directories list them. *)
Definition name_ok (s : string) : bool := negb ((s =s "") || (s =s ".") || (s =s "..")) && no_slash s.

Lemma name_ok_spec s : name_ok s = true <-> s <> "" /\ s <> "." /\ s <> ".." /\ no_slash s = true.
Proof.
  unfold name_ok. rewrite andb_true_iff, negb_true_iff, !orb_false_iff, !String.eqb_neq. naive_solver.
Qed.

Lemma names_no_slash l : Forall (fun s => name_ok s = true) l -> Forall (fun s => no_slash s = true) l.
Proof. induction 1 as [|s l Hs _ IH]; constructor; [|done]. by apply name_ok_spec in Hs as (_ & _ & _ & ?). Qed.

Lemma clean_loop_app r out a b : clean_loop r out (a ++ b) = clean_loop r (clean_loop r out a) b.
Proof.
  revert out. induction a as [|p a IH]; intros out; [done|]. cbn [app clean_loop].
  destruct (_ || _); [apply IH|]. destruct (p =s ".."); [|apply IH]. destruct out as [|top below]; [apply IH|].
  destruct (top =s ".."); apply IH.
Qed.

(** Names are kept as they are. *)
Lemma clean_loop_names r out names :
  Forall (fun s => name_ok s = true) names -> clean_loop r out names = rev names ++ out.
Proof.
  intros H. revert out. induction H as [|p names Hp H IH]; intros out; [done|]. cbn [clean_loop rev].
  apply name_ok_spec in Hp as (H1 & H2 & H3 & _).
  rewrite (proj2 (String.eqb_neq _ _) H1), (proj2 (String.eqb_neq _ _) H2), (proj2 (String.eqb_neq _ _) H3). cbn [orb].
  rewrite IH, <- app_assoc. done.
Qed.

(** A rooted path has only names. *)
Lemma clean_loop_rooted out parts :
  Forall (fun p => no_slash p = true) parts -> Forall (fun s => name_ok s = true) out ->
  Forall (fun s => name_ok s = true) (clean_loop true out parts).
Proof.
  intros Hp. revert out. induction Hp as [|p parts Hs Hp IH]; intros out Hout; [done|]. cbn [clean_loop].
  destruct (String.eqb_spec p "") as [?|He]; [by apply IH|]. destruct (String.eqb_spec p ".") as [?|Hd]; [by apply IH|]. cbn [orb].
  destruct (String.eqb_spec p "..").
  - destruct out as [|top below]; [by apply IH|]. inversion_clear Hout as [|? ? Ht Hb].
    apply name_ok_spec in Ht as (_ & _ & H3 & _). rewrite (proj2 (String.eqb_neq _ _) H3). by apply IH.
  - apply IH. constructor; [|done]. by apply name_ok_spec.
Qed.

Lemma elems_names p : Forall (fun s => name_ok s = true) (elems p).
Proof. apply Forall_rev. apply clean_loop_rooted; [apply Split_parts|constructor]. Qed.

(** A relative path keeps leading [".."]; below the root they vanish. *)
Definition up (s : string) : bool := s =s "..".
Definition strip (out : list string) : list string := List.filter (fun s => negb (up s)) out.

(** Names on top of [".."]s, as the relative loop builds them. *)
Inductive rel_stack : list string -> Prop :=
  | rs_ups n : rel_stack (repeat ".." n)
  | rs_name s out : name_ok s = true -> rel_stack out -> rel_stack (s :: out).

Lemma strip_name s out : name_ok s = true -> strip (s :: out) = s :: strip out.
Proof. intros (_ & _ & H & _)%name_ok_spec. unfold strip, up. cbn. by rewrite (proj2 (String.eqb_neq _ _) H). Qed.

Lemma strip_ups n : strip (repeat ".." n) = [].
Proof. by induction n. Qed.

Lemma rel_stack_ups_top out : rel_stack (".." :: out) -> exists n, out = repeat ".." n.
Proof.
  inversion 1 as [n E|s o Hs _ E]; [destruct n as [|n]; [done|]; injection E as <-; eauto|].
  apply name_ok_spec in Hs as (_ & _ & H3 & _). done.
Qed.

Lemma clean_loop_strip out parts :
  Forall (fun p => no_slash p = true) parts -> rel_stack out ->
  rel_stack (clean_loop false out parts) /\ strip (clean_loop false out parts) = clean_loop true (strip out) parts.
Proof.
  intros Hp. revert out. induction Hp as [|p parts Hs Hp IH]; intros out Hout; [done|]. cbn [clean_loop].
  destruct (String.eqb_spec p "") as [?|He]; [by apply IH|]. destruct (String.eqb_spec p ".") as [?|Hd]; [by apply IH|]. cbn [orb].
  destruct (String.eqb_spec p "..") as [->|Hup].
  - destruct out as [|top below]; [cbn [strip List.filter]; apply (IH [".."]), (rs_ups 1)|].
    destruct (String.eqb_spec top "..") as [->|Ht].
    + destruct (rel_stack_ups_top _ Hout) as [n ->]. destruct (IH (repeat ".." (S (S n))) (rs_ups _)) as [H1 H2].
      split; [exact H1|]. cbn [repeat] in H2. rewrite H2.
      change (".." :: repeat ".." n) with (repeat ".." (S n)). change (".." :: repeat ".." (S n)) with (repeat ".." (S (S n))).
      by rewrite !strip_ups.
    + inversion Hout as [n E|s o Hn Ho E]; [destruct n; naive_solver|]. simplify_eq. rewrite strip_name by done.
      cbn [clean_loop]. rewrite (proj2 (String.eqb_neq _ _) Ht). by apply IH.
  - assert (Hn : name_ok p = true) by (by apply name_ok_spec).
    destruct (IH (p :: out) (rs_name _ _ Hn Hout)) as [H1 H2]. split; [done|]. by rewrite H2, strip_name.
Qed.

(** Elements without slashes survive joining and splitting. *)
Lemma Split_concat (l : list string) : l <> [] -> Forall (fun s => no_slash s = true) l -> Split "/" (String.concat "/" l) = l.
Proof.
  intros Hne H. induction H as [|s l Hs H IH]; [done|]. destruct l as [|t l]; [by apply Split_part|].
  change (String.concat "/" (s :: t :: l)) with (s +:+ "/" +:+ String.concat "/" (t :: l)).
  rewrite Split_app by done. by rewrite IH.
Qed.

Lemma elems_concat l : Forall (fun s => no_slash s = true) l -> elems (String.concat "/" l) = rev (clean_loop true [] l).
Proof.
  intros H. unfold elems, clean_elems. destruct l as [|s l]; [done|]. by rewrite Split_concat.
Qed.

Lemma rel_stack_no_slash out : rel_stack out -> Forall (fun s => no_slash s = true) out.
Proof.
  induction 1 as [n|s out Hs _ IH]; [by induction n; constructor|]. constructor; [by apply name_ok_spec in Hs as (_ & _ & _ & ?)|done].
Qed.

Lemma clean_loop_ups n : clean_loop true [] (repeat ".." n) = [].
Proof. by induction n. Qed.

Lemma rel_stack_elems out : rel_stack out -> clean_loop true [] (rev out) = strip out.
Proof.
  induction 1 as [n|s out Hs _ IH].
  - rewrite strip_ups. replace (rev (repeat ".." n)) with (repeat ".." n); [apply clean_loop_ups|].
    induction n as [|n IH]; [done|]. cbn [repeat rev]. rewrite <- IH. clear IH. induction n as [|n IH]; [done|]. cbn. by rewrite <- IH.
  - cbn [rev]. rewrite clean_loop_app, IH, strip_name by done. by rewrite clean_loop_names by (by constructor).
Qed.

(** Cleaning a path does not change the place it names. *)
Lemma elems_Clean p : elems (Clean p) = elems p.
Proof.
  unfold Clean. destruct (IsAbs p) eqn:Habs.
  - unfold clean_elems. fold (elems p). change (rev (clean_loop true [] (Split "/" p))) with (elems p).
    pose proof (elems_names p) as Hn.
    assert (Hs : Forall (fun s => no_slash s = true) (elems p)) by (by apply names_no_slash).
    unfold elems at 1, clean_elems.
    destruct (decide (elems p = [])) as [->|Hne]; [done|].
    change ("/" +:+ String.concat "/" (elems p)) with ("" +:+ "/" +:+ String.concat "/" (elems p)).
    rewrite Split_app, Split_concat by done. cbn [clean_loop String.eqb orb].
    rewrite clean_loop_names by done. by rewrite app_nil_r, rev_involutive.
  - destruct (clean_loop_strip [] (Split "/" p)) as [Hr Hs]; [apply Split_parts|apply (rs_ups 0)|].
    unfold clean_elems. set (out := clean_loop false [] (Split "/" p)) in *.
    assert (E : elems (String.concat "/" (rev out)) = elems p).
    { rewrite elems_concat by (apply Forall_rev, rel_stack_no_slash, Hr). rewrite rel_stack_elems by done. unfold elems, clean_elems. by rewrite Hs. }
    destruct (String.eqb_spec (String.concat "/" (rev out)) ""); [|done]. rewrite <- E. by rewrite e.
Qed.

(** *** Joining *)

Lemma Split_slash a b : Split "/" (a +:+ "/" +:+ b) = Split "/" a ++ Split "/" b.
Proof.
  induction a as [|c a IH]; [done|]. rewrite string_app_cons. cbn [Split]. rewrite IH.
  destruct (Ascii.eqb c "/"); [done|]. destruct (Split_parts a) as (_ & _ & Hne). by destruct (Split "/" a).
Qed.

(** Joining continues the walk at the place of the first path. *)
Lemma elems_Join a b : elems (Join [a; b]) = rev (clean_loop true (rev (elems a)) (Split "/" b)).
Proof.
  cbn [Join]. destruct (String.eqb_spec a "") as [->|Ha].
  - destruct (String.eqb_spec b "") as [->|Hb]; [done|]. change (String.concat "/" [b]) with b. by rewrite elems_Clean.
  - rewrite elems_Clean. change (String.concat "/" [a; b]) with (a +:+ "/" +:+ b). unfold elems, clean_elems.
    by rewrite Split_slash, clean_loop_app, rev_involutive.
Qed.

(** The test of [receiveFile] on a cleaned name. *)
Definition traverses (cleanName : string) : bool :=
  (cleanName =s "..") || HasPrefix cleanName "../" || IsAbs cleanName.

Lemma rel_stack_cases out : rel_stack out ->
  Forall (fun s => name_ok s = true) out \/ exists names, out = names ++ [".."].
Proof.
  induction 1 as [[|n]|s out Hs _ [IH|[names ->]]].
  - by left.
  - right. exists (repeat ".." n). change [".."] with (repeat ".." 1). rewrite <- repeat_app. by rewrite Nat.add_comm.
  - left. by constructor.
  - right. by exists (s :: names).
Qed.

(** A name that passes the test only goes down: joined to a directory it is a
    place at or below it. *)
Lemma Join_confined dest name :
  traverses (Clean name) = false ->
  elems (Join [dest; Clean name]) = elems dest ++ elems name.
Proof.
  intros Ht. rewrite elems_Join. unfold traverses in Ht. apply orb_false_iff in Ht as [Ht Habs]. apply orb_false_iff in Ht as [Hup Hpre].
  unfold Clean in *. destruct (IsAbs name) eqn:Hn; [done|].
  destruct (clean_loop_strip [] (Split "/" name)) as [Hr Hs]; [apply Split_parts|apply (rs_ups 0)|].
  unfold clean_elems in *. set (out := clean_loop false [] (Split "/" name)) in *.
  destruct (rel_stack_cases out Hr) as [Hnames|[names E]].
  - assert (Hel : elems name = rev out).
    { unfold elems, clean_elems. change (clean_loop true [] (Split "/" name)) with (clean_loop true (strip []) (Split "/" name)).
      rewrite <- Hs. f_equal. clear -Hnames. induction Hnames as [|s l Hl H IH]; [done|]. by rewrite strip_name, IH. }
    rewrite Hel. pose proof (Forall_rev Hnames) as Hrn. destruct (decide (rev out = [])) as [E|Hne].
    + rewrite E. cbn. by rewrite rev_involutive, app_nil_r.
    + assert (Hc : (String.concat "/" (rev out) =s "") = false).
      { apply String.eqb_neq. intros Hc. pose proof (Split_concat (rev out) Hne (names_no_slash _ Hrn)) as Hsp.
        rewrite Hc in Hsp. rewrite <- Hsp in Hrn. inversion_clear Hrn as [|? ? Hx _]. by apply name_ok_spec in Hx as [? _]. }
      rewrite Hc, (Split_concat (rev out) Hne (names_no_slash _ Hrn)), clean_loop_names by done.
      rewrite rev_app_distr, !rev_involutive. done.
  - exfalso. rewrite E, rev_app_distr in *. cbn [rev app] in *. destruct (rev names) as [|x l]; [done|].
    change (String.concat "/" (".." :: x :: l)) with (".." +:+ "/" +:+ String.concat "/" (x :: l)) in *.
    revert Hpre. generalize (String.concat "/" (x :: l)). intros [|c tail] Hpre; discriminate Hpre.
Qed.

(** ** Files *)

Inductive fsnode := Dir | File (content : bytes).

Record FS := { fs_tree : gmap (list string) fsnode; fs_fault : nat -> bool; fs_ops : nat }.

(** The root is a directory. *)
Definition fs_get (t : gmap (list string) fsnode) (p : list string) : option fsnode :=
  match p with [] => Some Dir | _ => t !! p end.
Definition set_tree (t : gmap (list string) fsnode) (f : FS) : FS :=
  {| fs_tree := t; fs_fault := fs_fault f; fs_ops := S (fs_ops f) |}.

(** An operation: it fails, by its own conditions or for another reason, or
    changes the tree. *)
Definition fs_do (op : gmap (list string) fsnode -> option (gmap (list string) fsnode)) : ST FS bool := fun f =>
  match (if fs_fault f (fs_ops f) then None else op (fs_tree f)) with
  | Some t => (true, set_tree t f)
  | None => (false, set_tree (fs_tree f) f)
  end.

(** [os.MkdirAll]: every missing ancestor becomes a directory. *)
Fixpoint mkdirs (here rest : list string) (t : gmap (list string) fsnode) : option (gmap (list string) fsnode) :=
  match rest with
  | [] => Some t
  | x :: rest =>
      let p := here ++ [x] in
      match t !! p with
      | Some (File _) => None
      | Some Dir => mkdirs p rest t
      | None => mkdirs p rest (<[p := Dir]> t)
      end
  end.
Definition MkdirAll (p : list string) : ST FS bool := fs_do (mkdirs [] p).

(** [filepath.Dir] of a place. *)
Definition parent (p : list string) : list string := removelast p.

(** [os.Create]: truncates an existing file. *)
Definition Create (p : list string) : ST FS bool :=
  fs_do (fun t => match fs_get t p, fs_get t (parent p) with
                  | Some Dir, _ => None
                  | _, Some Dir => Some (<[p := File []]> t)
                  | _, _ => None
                  end).

(** Writing the content of an open file. *)
Definition WriteFile (p : list string) (content : bytes) : ST FS bool := fs_do (fun t => Some (<[p := File content]> t)).

Fixpoint strip_prefix (p k : list string) : option (list string) :=
  match p, k with
  | [], _ => Some k
  | x :: p, y :: k => if x =s y then strip_prefix p k else None
  | _ :: _, [] => None
  end.

(** [os.RemoveAll] *)
Definition RemoveAll (p : list string) : ST FS bool :=
  fs_do (fun t => Some (filter (fun kn => strip_prefix p kn.1 = None) t)).

(** [filepath.Walk] visits the names of a directory in lexical order. *)
Fixpoint rel_leb (a b : list string) : bool :=
  match a, b with
  | [], _ => true
  | _ :: _, [] => false
  | x :: a, y :: b => if x <s y then true else if y <s x then false else rel_leb a b
  end.
Definition walk_le (a b : list string * bytes) : Prop := rel_leb a.1 b.1 = true.
#[export] Instance walk_le_dec a b : Decision (walk_le a b) := decide (rel_leb a.1 b.1 = true).

Definition file_below (p : list string) (kn : list string * fsnode) : option (list string * bytes) :=
  match strip_prefix p kn.1, kn.2 with Some rel, File c => Some (rel, c) | _, _ => None end.

(** The files at or below a place, by their relative paths; an error when
    there is nothing. *)
Definition Walk (p : list string) (t : gmap (list string) fsnode) : option (list (list string * bytes)) :=
  match fs_get t p with
  | None => None
  | Some (File c) => Some [([], c)]
  | Some Dir => Some (merge_sort walk_le (omap (file_below p) (map_to_list t)))
  end.

(** [filepath.Rel] of a place below another: ["."] for the place itself. *)
Definition rel_name (rel : list string) : string := match rel with [] => "." | _ => String.concat "/" rel end.

(** *** Facts about the tree *)

Lemma strip_prefix_spec p k rel : strip_prefix p k = Some rel <-> k = p ++ rel.
Proof.
  revert k. induction p as [|x p IH]; intros k; [cbn; naive_solver|]. destruct k as [|y k]; [cbn; naive_solver|].
  cbn [strip_prefix app]. destruct (String.eqb_spec x y) as [->|Hne]; [rewrite IH|]; naive_solver.
Qed.

Lemma strip_prefix_None p k : strip_prefix p k = None <-> forall rel, k <> p ++ rel.
Proof.
  split.
  - intros E rel ->. by rewrite (proj2 (strip_prefix_spec p _ rel) eq_refl) in E.
  - intros H. destruct (strip_prefix p k) as [rel|] eqn:E; [|done]. apply strip_prefix_spec in E. by destruct (H rel).
Qed.

(** Making directories only adds directories on the way. *)
Lemma mkdirs_spec here rest t t' : mkdirs here rest t = Some t' ->
  (forall k, t' !! k = t !! k \/ (t !! k = None /\ t' !! k = Some Dir /\ exists a b, rest = a ++ b /\ a <> [] /\ k = here ++ a)) /\
  (rest <> [] -> t' !! (here ++ rest) = Some Dir).
Proof.
  revert here t. induction rest as [|x rest IH]; intros here t; cbn [mkdirs].
  - intros [= ->]. split; [by left|done].
  - set (p := here ++ [x]).
    assert (Happ : here ++ x :: rest = p ++ rest) by (unfold p; by rewrite <- app_assoc).
    assert (Hstep : forall t1, (t1 = t /\ t !! p = Some Dir) \/ (t !! p = None /\ t1 = <[p := Dir]> t) -> mkdirs p rest t1 = Some t' ->
      (forall k, t' !! k = t !! k \/ (t !! k = None /\ t' !! k = Some Dir /\ exists a b, x :: rest = a ++ b /\ a <> [] /\ k = here ++ a)) /\
      (x :: rest <> [] -> t' !! (here ++ x :: rest) = Some Dir)).
    { intros t1 Ht1 H. destruct (IH _ _ H) as [H1 H2]. assert (Hp1 : t1 !! p = Some Dir).
      { destruct Ht1 as [[-> ?]|[_ ->]]; [done|apply lookup_insert_eq]. }
      assert (Hp : t' !! p = Some Dir) by (destruct (H1 p) as [->|(? & ? & _)]; done).
      split.
      - intros k. destruct (decide (k = p)) as [->|Hk].
        + destruct Ht1 as [[-> E]|[E ->]]; [left; by rewrite Hp|right]. split_and!; [done..|]. by exists [x], rest.
        + assert (Ek : t1 !! k = t !! k) by (destruct Ht1 as [[-> _]|[_ ->]]; [done|by rewrite lookup_insert_ne]).
          destruct (H1 k) as [E|(E & E' & a & b & -> & Ha & ->)]; [left; by rewrite E|right].
          split_and!; [by rewrite <- Ek|done|]. exists (x :: a), b. unfold p. by rewrite <- app_assoc.
      - intros _. rewrite Happ. destruct rest as [|y rest]; [by rewrite app_nil_r|by apply H2]. }
    destruct (t !! p) as [[|c]|] eqn:E; [|done|]; intros H; (eapply Hstep; [|exact H]); auto.
Qed.

Lemma mkdirs_ok here rest t :
  (forall a b c, rest = a ++ b -> a <> [] -> t !! (here ++ a) <> Some (File c)) -> is_Some (mkdirs here rest t).
Proof.
  revert here t. induction rest as [|x rest IH]; intros here t Hno; cbn [mkdirs]; [by eexists|].
  set (p := here ++ [x]). pose proof (fun c => Hno [x] rest c eq_refl ltac:(done)) as Hp. fold p in Hp.
  assert (Hrest : forall t1 : gmap (list string) fsnode, (forall k, k <> p -> t1 !! k = t !! k) ->
    forall a b c, rest = a ++ b -> a <> [] -> t1 !! (p ++ a) <> Some (File c)).
  { intros t1 Ht1 a b c -> Ha. rewrite Ht1.
    - unfold p. rewrite <- app_assoc. apply (Hno (x :: a) b c); done.
    - intros E%(f_equal length). rewrite length_app in E. destruct a; [done|]. cbn in E. lia. }
  destruct (t !! p) as [[|c]|] eqn:E.
  - apply IH, Hrest. done.
  - by destruct (Hp c).
  - apply IH, Hrest. intros k Hk. by rewrite lookup_insert_ne.
Qed.
