(* ===== verification/Transfer.v ===== *)
(** * Snapshot transfer ([snapshot/transfer.go], and the puller of
    [node/runtime_handler.go])

    A node that lacks a snapshot asks a peer for it: the server sends a JSON
    header and the files of the snapshot in one zstd stream, the client writes
    them below its own snapshot path, checks their SHA-256 and records the
    snapshot.

    JSON and zstd are the interface [TransferCodec].  A stream is the bytes
    that arrive; [taken] is how many of them the JSON decoder reads before the
    zstd reader takes over, since a decoder may read past its value. *)

From stdpp Require Import sorting.
From S2P Require Import Prelude Float64 CapsuleTypes ElectionTopic Orbit Shared SnapshotStore Discovery FilePath.
Local Open Scope string_scope.
Local Open Scope list_scope.
Local Open Scope Z_scope.

(** ** Messages *)

Record TransferRequest := { tr_CapsuleID : string; tr_Tag : string }.
Record TransferHeader := {
  th_CapsuleID : string; th_Tag : string; th_Checksum : string; th_TotalSize : Z; th_FileCount : Z
}.
Record FileHeader := { fh_Name : string; fh_Size : Z }.

(** The header that says "not found". *)
Definition empty_header : TransferHeader :=
  {| th_CapsuleID := ""; th_Tag := ""; th_Checksum := ""; th_TotalSize := 0; th_FileCount := 0 |}.

(** [json.NewEncoder(stream).Encode], [Decode] of the first value of some
    bytes, [json.Marshal] of a file header, and the zstd writer and reader;
    the reader yields what it can decompress. *)
Class TransferCodec := {
  enc_request : TransferRequest -> bytes;
  dec_request : bytes -> option TransferRequest;
  enc_header : TransferHeader -> bytes;
  dec_header : bytes -> option TransferHeader;
  marshal_file : FileHeader -> option bytes;
  unmarshal_file : bytes -> option FileHeader;
  zstd_write : bytes -> bytes;
  zstd_read : bytes -> option bytes
}.

Class TransferLaws (P : TransferCodec) := {
  transfer_text : string -> Prop;      (** valid UTF-8 *)
  request_law : forall r, transfer_text (tr_CapsuleID r) -> transfer_text (tr_Tag r) -> dec_request (enc_request r) = Some r;
  header_law : forall h, transfer_text (th_CapsuleID h) -> transfer_text (th_Tag h) -> transfer_text (th_Checksum h) ->
    dec_header (enc_header h) = Some h;
  hex_text : forall b, transfer_text (hex_EncodeToString b);
  file_law : forall h b, marshal_file h = Some b -> transfer_text (fh_Name h) -> unmarshal_file b = Some h;
  zstd_law : forall b, zstd_read (zstd_write b) = Some b
}.

(** [Store.SnapshotPath] *)
Definition SnapshotPath (s : Store) (capsuleID tag : string) : string := Join [ss_dir s; capsuleID; tag].

Section Transfer.
Context `{P : TransferCodec} `{H256 : Sha256} `{C : GoConv}.

Definition EnsureDir (s : Store) (capsuleID tag : string) : ST FS bool := MkdirAll (elems (SnapshotPath s capsuleID tag)).
Definition RemoveDir (s : Store) (capsuleID tag : string) : ST FS bool := RemoveAll (elems (SnapshotPath s capsuleID tag)).

(** ** Sending *)

Record fileEntry := { fe_Name : string; fe_Size : Z }.

Definition content_of (files : list (list string * bytes)) : bytes := concat (snd <$> files).

(** [collectFiles]: the files in the order of the walk, their total size and
    the checksum of their contents. *)
Definition collectFiles (snapPath : string) (f : FS) : option (list fileEntry * Z * string) :=
  files ← Walk (elems snapPath) (fs_tree f);
  Some ((fun rc => {| fe_Name := rel_name rc.1; fe_Size := Z.of_nat (length rc.2) |}) <$> files,
        int64 (Z.of_nat (length (content_of files))),
        hex_EncodeToString (Sum256 (content_of files))).

(** [io.CopyN]: a count that is not positive copies nothing; [None] when the
    source ends first. *)
Definition CopyN (n : Z) (r : bytes) : option (bytes * bytes) :=
  if n <=? 0 then Some ([], r)
  else if Z.of_nat (length r) <? n then None
  else Some (take (Z.to_nat n) r, drop (Z.to_nat n) r).

(** [sendFile]: the bytes written; what was written before an error stays. *)
Definition sendFile (snapPath : string) (fe : fileEntry) (f : FS) : bytes * bool :=
  match marshal_file {| fh_Name := fe_Name fe; fh_Size := fe_Size fe |} with
  | None => ([], false)
  | Some hdrBytes =>
      let head := framing.frame hdrBytes in
      match fs_get (fs_tree f) (elems (Join [snapPath; fe_Name fe])) with
      | Some (File content) =>
          match CopyN (fe_Size fe) content with
          | Some (sent, _) => (head ++ sent, true)
          | None => (head ++ content, false)
          end
      | _ => (head, false)
      end
  end.

Fixpoint sendFiles (snapPath : string) (files : list fileEntry) (f : FS) : bytes :=
  match files with
  | [] => []
  | fe :: files => let '(b, ok) := sendFile snapPath fe f in if ok then b ++ sendFiles snapPath files f else b
  end.

Record TransferServer := { ts_store : Store; ts_fs : FS; ts_sending : gmap string bool }.

(** [handleStream]: the bytes of the response.  The path is in [sending]
    while the files are sent; nothing else reads that map. *)
Definition handleStream (request : bytes) : ST TransferServer bytes := fun s =>
  match dec_request request with
  | None => ([], s)
  | Some req =>
      match Get (tr_CapsuleID req) (tr_Tag req) (ts_store s) with
      | (Ok (Some _), store) =>
          let snapPath := SnapshotPath store (tr_CapsuleID req) (tr_Tag req) in
          let s' := {| ts_store := store; ts_fs := ts_fs s; ts_sending := delete snapPath (ts_sending s) |} in
          match collectFiles snapPath (ts_fs s) with
          | None => (enc_header empty_header, s')
          | Some (files, totalSize, checksum) =>
              let hdr := {| th_CapsuleID := tr_CapsuleID req; th_Tag := tr_Tag req; th_Checksum := checksum;
                            th_TotalSize := totalSize; th_FileCount := Z.of_nat (length files) |} in
              (enc_header hdr ++ zstd_write (sendFiles snapPath files (ts_fs s)), s')
          end
      | (_, store) =>
          (enc_header empty_header, {| ts_store := store; ts_fs := ts_fs s; ts_sending := ts_sending s |})
      end
  end.

(** ** Receiving *)

Inductive ReceiveError :=
  | ErrReadHeaderLength | ErrReadHeader | ErrFileHeader | ErrTraversal (name : string) | ErrMkdir | ErrCreate | ErrContent.

(** [receiveFile]: the rest of the stream, the bytes hashed so far and the
    tree change. *)
Definition receiveFile (destPath : string) (r h : bytes) (f : FS) : result ReceiveError Z * bytes * bytes * FS :=
  match framing.ReadFull 4 r with
  | (None, r) => (Err ErrReadHeaderLength, r, h, f)
  | (Some lenBuf, r) =>
  match framing.ReadFull (framing.Uint32 lenBuf) r with
  | (None, r) => (Err ErrReadHeader, r, h, f)
  | (Some hdrBytes, r) =>
  match unmarshal_file hdrBytes with
  | None => (Err ErrFileHeader, r, h, f)
  | Some hdr =>
      let cleanName := Clean (fh_Name hdr) in
      if traverses cleanName then (Err (ErrTraversal (fh_Name hdr)), r, h, f) else
      let filePath := elems (Join [destPath; cleanName]) in
      let '(ok, f) := MkdirAll (parent filePath) f in
      if negb ok then (Err ErrMkdir, r, h, f) else
      let '(ok, f) := Create filePath f in
      if negb ok then (Err ErrCreate, r, h, f) else
      match CopyN (fh_Size hdr) r with
      | None => let '(_, f) := WriteFile filePath r f in (Err ErrContent, [], h ++ r, f)
      | Some (content, r) =>
          let '(ok, f) := WriteFile filePath content f in
          if negb ok then (Err ErrContent, r, h, f)
          else (Ok (Z.of_nat (length content)), r, h ++ content, f)
      end
  end end end.

(** The loop of [PullSnapshot]: [more] more files after the first [i]. *)
Fixpoint receiveFiles (destPath : string) (more : nat) (i : Z) (total : Z) (r h : bytes) (f : FS)
  : result (Z * ReceiveError) Z * bytes * FS :=
  match more with
  | O => (Ok total, h, f)
  | S more =>
      let '(res, r, h, f) := receiveFile destPath r h f in
      match res with
      | Err e => (Err (i + 1, e), h, f)
      | Ok n => receiveFiles destPath more (i + 1) (int64 (total + n)) r h f
      end
  end.

Inductive PullError :=
  | ErrOpenStream | ErrDecodeHeader | ErrPeerLacks | ErrEnsureDir | ErrZstd
  | ErrReceive (i : Z) (e : ReceiveError) | ErrChecksum (got want : string) | ErrStorePut.

(** [PullSnapshot] on the answer of the peer ([None]: the stream cannot be
    opened or the request not sent); [taken] bytes of it go to the decoder. *)
Definition PullSnapshot (answer : option bytes) (taken : nat) (capsuleID tag : string)
  : ST (Store * FS) (result PullError Record_) := fun w =>
  let '(s, f) := w in
  match answer with
  | None => (Err ErrOpenStream, w)
  | Some stream =>
  match dec_header (take taken stream) with
  | None => (Err ErrDecodeHeader, w)
  | Some hdr =>
      if th_FileCount hdr =? 0 then (Err ErrPeerLacks, w) else
      let '(ok, f) := EnsureDir s capsuleID tag f in
      if negb ok then (Err ErrEnsureDir, (s, f)) else
      let destPath := SnapshotPath s capsuleID tag in
      match zstd_read (drop taken stream) with
      | None => (Err ErrZstd, (s, (RemoveDir s capsuleID tag f).2))
      | Some r =>
          match receiveFiles destPath (Z.to_nat (th_FileCount hdr)) 0 0 r [] f with
          | (Err (i, e), _, f) => (Err (ErrReceive i e), (s, (RemoveDir s capsuleID tag f).2))
          | (Ok totalReceived, h, f) =>
              let gotChecksum := hex_EncodeToString (Sum256 h) in
              if gotChecksum <>s th_Checksum hdr
              then (Err (ErrChecksum gotChecksum (th_Checksum hdr)), (s, (RemoveDir s capsuleID tag f).2))
              else
                let '(now, s) := ss_now s in
                let rec := {| r_CapsuleID := capsuleID; r_Tag := tag; r_Size := totalReceived; r_Path := destPath;
                              r_Checksum := gotChecksum; r_CreatedAt := now; r_LastAccessed := now;
                              r_TTL := 72 * hour; r_InUse := false |} in
                match Put rec s with
                | (Err _, s) => (Err ErrStorePut, (s, f))
                | (Ok _, s) => (Ok rec, (s, f))
                end
          end
      end
  end end.

(** ** The puller of the node: [runtimeSnapshotPullerAdapter.Pull] *)

Inductive PullerError := ErrNoPeerHasIt | ErrPullFrom (peerID : string) (e : PullError).

(** How a peer answers a request, and how much of it its decoder takes;
    [decode] is [peer.Decode] of a node ID. *)
Variables (ask : string -> option bytes * nat) (decode : string -> bool).

Fixpoint pull_holders (holders : list string) (capsuleID tag : string) : ST (Store * FS) (option string) := fun w =>
  match holders with
  | [] => (None, w)
  | h :: holders =>
      if negb (decode h) then pull_holders holders capsuleID tag w
      else match PullSnapshot (ask h).1 (ask h).2 capsuleID tag w with
           | (Ok rec, w) => (Some (r_Path rec), w)
           | (Err _, w) => pull_holders holders capsuleID tag w
           end
  end.

(** [first] is the answer of [QueryFirstResponder]. *)
Definition Pull (d : Discovery) (first : result QueryError string) (capsuleID tag : string)
  : ST (Store * FS) (result PullerError string) := fun w =>
  match pull_holders (FindHolders capsuleID tag d) capsuleID tag w with
  | (Some path, w) => (Ok path, w)
  | (None, w) =>
      match first with
      | Err _ => (Err ErrNoPeerHasIt, w)
      | Ok p =>
          match PullSnapshot (ask p).1 (ask p).2 capsuleID tag w with
          | (Ok rec, w) => (Ok (r_Path rec), w)
          | (Err e, w) => (Err (ErrPullFrom p e), w)
          end
      end
  end.

End Transfer.

(** ** Writes stay below the snapshot's path *)

Definition below (d k : list string) : Prop := exists rel, k = d ++ rel.
Definition on_the_way (d k : list string) : Prop := k <> [] /\ exists rel, d = k ++ rel.

(** Outside of [d] the tree is unchanged, up to directories made on the way
    to it. *)
Definition confined (d : list string) (t t' : gmap (list string) fsnode) : Prop :=
  forall k, ~ below d k -> t' !! k = t !! k \/ (t !! k = None /\ t' !! k = Some Dir /\ on_the_way d k).

#[export] Instance confined_refl d : Reflexive (confined d).
Proof. intros t k _. by left. Qed.
#[export] Instance confined_trans d : Transitive (confined d).
Proof.
  intros t1 t2 t3 H12 H23 k Hk. destruct (H12 k Hk) as [E|(E1 & E2 & Hw)], (H23 k Hk) as [E'|(E1' & E2' & Hw')].
  - left. congruence.
  - right. split_and!; congruence || done.
  - right. split_and!; congruence || done.
  - congruence.
Qed.

Lemma fs_do_confined d op f :
  (forall t', op (fs_tree f) = Some t' -> confined d (fs_tree f) t') ->
  confined d (fs_tree f) (fs_tree (snd (fs_do op f))).
Proof. intros H. unfold fs_do. destruct (fs_fault f (fs_ops f)); [done|]. destruct (op _) eqn:E; cbn; [by apply H|done]. Qed.

(** A prefix of a place below [d] is on the way to [d] or below it. *)
Lemma prefix_cases (d rel a b : list string) : d ++ rel = a ++ b -> a <> [] -> on_the_way d a \/ below d a.
Proof.
  intros E Ha. destruct (app_eq_inv _ _ _ _ E) as [(k & -> & _)|(k & -> & _)].
  - left. split; [done|]. by exists k.
  - right. by exists k.
Qed.

Lemma mkdirs_confined d p t t' :
  (exists rel, p = d ++ rel) \/ (exists rel, d = p ++ rel) -> mkdirs [] p t = Some t' -> confined d t t'.
Proof.
  intros Hp H k Hk. destruct (mkdirs_spec _ _ _ _ H) as [H1 _]. destruct (H1 k) as [E|(E1 & E2 & a & b & -> & Ha & ->)]; [by left|].
  right. split_and!; [done..|]. destruct Hp as [[rel Ep]|[rel ->]].
  - destruct (prefix_cases d rel a b (eq_sym Ep) Ha) as [Hw|Hb]; [done|]. by destruct Hk.
  - split; [done|]. exists (b ++ rel). by rewrite <- app_assoc.
Qed.

Lemma insert_confined d rel n t : confined d t (<[d ++ rel := n]> t).
Proof. intros k Hk. left. apply lookup_insert_ne. intros <-. destruct Hk. by exists rel. Qed.

Lemma parent_cases (d rel : list string) :
  (exists r, parent (d ++ rel) = d ++ r) \/ (exists r, d = parent (d ++ rel) ++ r).
Proof.
  unfold parent. destruct (decide (rel = [])) as [->|Hne].
  - right. rewrite app_nil_r. destruct d as [|x d] using rev_ind; [by exists []|]. rewrite removelast_last. by exists [x].
  - left. rewrite removelast_app by done. by exists (removelast rel).
Qed.

Section Confinement.
Context `{P : TransferCodec} `{H256 : Sha256} `{C : GoConv}.

Lemma MkdirAll_confined d p f :
  (exists rel, p = d ++ rel) \/ (exists rel, d = p ++ rel) -> confined d (fs_tree f) (fs_tree (snd (MkdirAll p f))).
Proof. intros Hp. apply fs_do_confined. intros t' Ht. by apply (mkdirs_confined d p). Qed.

Lemma Create_confined d rel f : confined d (fs_tree f) (fs_tree (snd (Create (d ++ rel) f))).
Proof. apply fs_do_confined. intros t'. repeat case_match; try done; intros [= <-]; apply insert_confined. Qed.

Lemma WriteFile_confined d rel c f : confined d (fs_tree f) (fs_tree (snd (WriteFile (d ++ rel) c f))).
Proof. apply fs_do_confined. intros t' [= <-]. apply insert_confined. Qed.

Lemma RemoveAll_confined d f : confined d (fs_tree f) (fs_tree (snd (RemoveAll d f))).
Proof.
  apply fs_do_confined. intros t' [= <-] k Hk. left.
  assert (Hs : strip_prefix d k = None) by (apply strip_prefix_None; intros rel ->; destruct Hk; by exists rel).
  destruct (fs_tree f !! k) as [n|] eqn:E.
  - by apply map_lookup_filter_Some_2.
  - apply map_lookup_filter_None_2. by left.
Qed.

Lemma receiveFile_confined dest r h f :
  let '(_, _, _, f') := receiveFile dest r h f in confined (elems dest) (fs_tree f) (fs_tree f').
Proof.
  unfold receiveFile. destruct (framing.ReadFull 4 r) as [[lenBuf|] r1]; [|done].
  destruct (framing.ReadFull _ r1) as [[hdrBytes|] r2]; [|done]. destruct (unmarshal_file hdrBytes) as [hdr|]; [|done].
  destruct (traverses _) eqn:Ht; [done|]. rewrite (Join_confined dest _ Ht). set (rel := elems (fh_Name hdr)).
  pose proof (MkdirAll_confined (elems dest) _ f (parent_cases (elems dest) rel)) as H1.
  destruct (MkdirAll _ f) as [ok1 f1]. cbn [snd] in H1. destruct ok1; cbn [negb]; [|done].
  pose proof (Create_confined (elems dest) rel f1) as H2. destruct (Create _ f1) as [ok2 f2]. cbn [snd] in H2.
  destruct ok2; cbn [negb]; [|by etrans].
  destruct (CopyN (fh_Size hdr) r2) as [[content r3]|].
  - pose proof (WriteFile_confined (elems dest) rel content f2) as H3. destruct (WriteFile _ content f2) as [ok3 f3].
    cbn [snd] in H3. destruct ok3; cbn [negb]; by do 2 etrans.
  - pose proof (WriteFile_confined (elems dest) rel r2 f2) as H3. destruct (WriteFile _ r2 f2) as [ok3 f3].
    cbn [snd] in H3. by do 2 etrans.
Qed.

Lemma receiveFiles_confined dest more i total r h f :
  let '(_, _, f') := receiveFiles dest more i total r h f in confined (elems dest) (fs_tree f) (fs_tree f').
Proof.
  revert i total r h f. induction more as [|more IH]; intros i total r h f; cbn [receiveFiles]; [done|].
  pose proof (receiveFile_confined dest r h f) as H. destruct (receiveFile dest r h f) as [[[[n|e] r1] h1] f1]; [|done].
  specialize (IH (i + 1) (int64 (total + n)) r1 h1 f1). destruct (receiveFiles _ _ _ _ _ _ _) as [[res h2] f2]. by etrans.
Qed.

(** C17: a pull is contained whatever the peer sends.  For
    arbitrary answers, read boundaries, failing files and failing statements,
    [PullSnapshot] changes the file tree only at and below the path of the
    requested snapshot (and makes the directories on the way to it); on an
    error the table keeps its rows, and on success exactly the row of the
    requested capsule and tag is written, with the checksum the peer
    announced. *)
Theorem transfer_pull_contained answer taken capsuleID tag s f :
  let '(res, (s', f')) := PullSnapshot answer taken capsuleID tag (s, f) in
  confined (elems (SnapshotPath s capsuleID tag)) (fs_tree f) (fs_tree f') /\
  match res with
  | Err _ => ss_rows s' = ss_rows s
  | Ok rec => (r_CapsuleID rec, r_Tag rec, r_Path rec) = (capsuleID, tag, SnapshotPath s capsuleID tag) /\
      ss_rows s' = <[(capsuleID, tag) := row_of rec]> (ss_rows s) /\
      exists stream hdr, answer = Some stream /\ dec_header (take taken stream) = Some hdr /\ r_Checksum rec = th_Checksum hdr
  end.
Proof.
  unfold PullSnapshot. destruct answer as [stream|]; [|done]. destruct (dec_header _) as [hdr|] eqn:Eh; [|done].
  destruct (th_FileCount hdr =? 0); [done|]. set (dest := SnapshotPath s capsuleID tag).
  pose proof (MkdirAll_confined (elems dest) (elems dest) f (or_introl (ex_intro _ [] (eq_sym (app_nil_r _))))) as H1.
  unfold EnsureDir, RemoveDir. fold dest. destruct (MkdirAll (elems dest) f) as [ok1 f1]. cbn [snd] in H1.
  destruct ok1; cbn [negb]; [|done].
  destruct (zstd_read _) as [r|]; [|split; [|done]; etrans; [exact H1|apply RemoveAll_confined]].
  pose proof (receiveFiles_confined dest (Z.to_nat (th_FileCount hdr)) 0 0 r [] f1) as H2.
  destruct (receiveFiles _ _ _ _ _ _ _) as [[[total|[i e]] h] f2].
  - destruct (String.eqb_spec (hex_EncodeToString (Sum256 h)) (th_Checksum hdr)) as [Esum|]; cbn [negb].
    + unfold ss_now, Put, snap_exec. cbn [ss_fault ss_stmts ss_rows r_CapsuleID r_Tag]. destruct (ss_fault _ _); cbn.
      * split; [by etrans|done].
      * split; [by etrans|]. split; [done|]. split; [done|]. by exists stream, hdr.
    + split; [|done]. etrans; [exact H1|]. etrans; [exact H2|apply RemoveAll_confined].
  - split; [|done]. etrans; [exact H1|]. etrans; [exact H2|apply RemoveAll_confined].
Qed.

End Confinement.

(** ** Names on the wire *)

Lemma names_concat_cases (rel : list string) : rel <> [] -> Forall (fun s => name_ok s = true) rel ->
  Split "/" (String.concat "/" rel) = rel.
Proof. intros Hne H. apply Split_concat; [done|by apply names_no_slash]. Qed.

Lemma Split_cons_slash s : Split "/" (String "/" s) = "" :: Split "/" s.
Proof. done. Qed.

Lemma names_not_abs rel : rel <> [] -> Forall (fun s => name_ok s = true) rel -> IsAbs (String.concat "/" rel) = false.
Proof.
  intros Hne H. pose proof (names_concat_cases rel Hne H) as E. destruct (String.concat "/" rel) as [|c s]; [done|]. cbn.
  destruct (Ascii.eqb_spec c "/") as [->|]; [|done]. rewrite Split_cons_slash in E. rewrite <- E in H.
  inversion_clear H as [|? ? Hx _]. by apply name_ok_spec in Hx as [? _].
Qed.

Lemma names_Clean rel : rel <> [] -> Forall (fun s => name_ok s = true) rel -> Clean (String.concat "/" rel) = String.concat "/" rel.
Proof.
  intros Hne H. unfold Clean, clean_elems. rewrite names_not_abs, names_concat_cases, clean_loop_names by done.
  rewrite app_nil_r, rev_involutive. destruct (String.eqb_spec (String.concat "/" rel) "") as [E|]; [|done].
  pose proof (names_concat_cases rel Hne H) as Es. rewrite E in Es. rewrite <- Es in H.
  inversion_clear H as [|? ? Hx _]. by apply name_ok_spec in Hx as [? _].
Qed.

Lemma prefix_up s : HasPrefix s "../" = true -> exists tail, s = ".." +:+ "/" +:+ tail.
Proof.
  unfold HasPrefix. destruct s as [|c1 s]; cbn [String.prefix]; [done|]. destruct (ascii_dec "." c1) as [<-|]; [|done].
  destruct s as [|c2 s]; cbn [String.prefix]; [done|]. destruct (ascii_dec "." c2) as [<-|]; [|done].
  destruct s as [|c3 s]; cbn [String.prefix]; [done|]. destruct (ascii_dec "/" c3) as [<-|]; [|done]. intros _. by exists s.
Qed.

Lemma names_stay rel : rel <> [] -> Forall (fun s => name_ok s = true) rel -> traverses (String.concat "/" rel) = false.
Proof.
  intros Hne H. unfold traverses. rewrite (names_not_abs _ Hne H), orb_false_r. pose proof (names_concat_cases rel Hne H) as E.
  apply orb_false_iff. split.
  - apply String.eqb_neq. intros Eq. rewrite Eq in E. rewrite <- E in H. inversion_clear H as [|? ? Hx _].
    by apply name_ok_spec in Hx as (_ & _ & ? & _).
  - destruct (HasPrefix _ _) eqn:Hp; [|done]. apply prefix_up in Hp as [tail Eq]. rewrite Eq, Split_app in E by done.
    rewrite <- E in H. inversion_clear H as [|? ? Hx _]. by apply name_ok_spec in Hx as (_ & _ & ? & _).
Qed.

Lemma elems_names_concat rel : rel <> [] -> Forall (fun s => name_ok s = true) rel -> elems (String.concat "/" rel) = rel.
Proof.
  intros Hne H. unfold elems, clean_elems. rewrite names_concat_cases, clean_loop_names by done.
  by rewrite app_nil_r, rev_involutive.
Qed.

Lemma elems_Join_names d rel : rel <> [] -> Forall (fun s => name_ok s = true) rel ->
  elems (Join [d; String.concat "/" rel]) = elems d ++ rel.
Proof.
  intros Hne H. rewrite elems_Join, names_concat_cases, clean_loop_names by done.
  by rewrite rev_app_distr, !rev_involutive.
Qed.

(** ** A stream of files *)

Section Receive.
Context `{P : TransferCodec} `{L : !TransferLaws P} `{H256 : Sha256} `{C : GoConv}.

Definition file_header (rc : list string * bytes) : FileHeader :=
  {| fh_Name := rel_name rc.1; fh_Size := Z.of_nat (length rc.2) |}.

(** The header of a file fits its length field, and its name is text. *)
Definition sendable (rc : list string * bytes) : Prop :=
  transfer_text (rel_name rc.1) /\ exists b, marshal_file (file_header rc) = Some b /\ Z.of_nat (length b) < 2 ^ 32.

Definition file_bytes (rc : list string * bytes) : bytes := framing.frame (default [] (marshal_file (file_header rc))) ++ rc.2.

Lemma CopyN_all (c r : bytes) : CopyN (Z.of_nat (length c)) (c ++ r) = Some (c, r).
Proof.
  unfold CopyN. destruct (Z.leb_spec (Z.of_nat (length c)) 0); [destruct c; [done|cbn in *; lia]|].
  rewrite length_app. destruct (Z.ltb_spec (Z.of_nat (length c + length r)) (Z.of_nat (length c))); [lia|].
  by rewrite Nat2Z.id, take_app_length, drop_app_length.
Qed.

(** The reading of a file header. *)
Lemma receiveFile_header dest rc r h f : sendable rc ->
  receiveFile dest (file_bytes rc ++ r) h f =
  (let cleanName := Clean (rel_name rc.1) in
   if traverses cleanName then (Err (ErrTraversal (rel_name rc.1)), rc.2 ++ r, h, f) else
   let filePath := elems (Join [dest; cleanName]) in
   let '(ok, f) := MkdirAll (parent filePath) f in
   if negb ok then (Err ErrMkdir, rc.2 ++ r, h, f) else
   let '(ok, f) := Create filePath f in
   if negb ok then (Err ErrCreate, rc.2 ++ r, h, f) else
   let '(ok, f) := WriteFile filePath rc.2 f in
   if negb ok then (Err ErrContent, r, h, f) else (Ok (Z.of_nat (length rc.2)), r, h ++ rc.2, f)).
Proof.
  intros (Ht & b & Eb & Hb). unfold file_bytes. rewrite Eb. change (default [] (Some b)) with b. unfold receiveFile, framing.frame.
  rewrite <- !app_assoc. set (hd := big_endian 4 (uint32 (Z.of_nat (length b)))).
  assert (Hhd : length hd = 4%nat) by (unfold hd; by rewrite big_endian_length).
  replace 4 with (Z.of_nat (length hd)) by (rewrite Hhd; done). rewrite framing.ReadFull_app.
  assert (Hu : framing.Uint32 hd = Z.of_nat (length b)).
  { unfold hd, uint32. rewrite Z.mod_small by lia. apply framing.Uint32_big_endian. change (256 ^ Z.of_nat 4) with (2 ^ 32). lia. }
  cbv beta iota. rewrite Hu, framing.ReadFull_app. cbv beta iota. rewrite (file_law _ _ Eb Ht). unfold file_header. cbn [fh_Name fh_Size].
  destruct (traverses _); [done|]. destruct (MkdirAll _ f) as [[] f1]; cbn [negb]; [|done].
  destruct (Create _ f1) as [[] f2]; cbn [negb]; [|done]. rewrite CopyN_all. done.
Qed.

(** What a server that has the row answers. *)
Definition sent_header (server : TransferServer) (capsuleID tag : string) : TransferHeader :=
  match collectFiles (SnapshotPath (ts_store server) capsuleID tag) (ts_fs server) with
  | None => empty_header
  | Some (files, totalSize, checksum) =>
      {| th_CapsuleID := capsuleID; th_Tag := tag; th_Checksum := checksum; th_TotalSize := totalSize;
         th_FileCount := Z.of_nat (length files) |}
  end.

(** The row is there and the statement that reads it succeeds. *)
Definition serves (server : TransferServer) (capsuleID tag : string) : Prop :=
  is_Some (ss_rows (ts_store server) !! (capsuleID, tag)) /\
  ss_fault (ts_store server) (ss_stmts (ts_store server)) = false /\
  transfer_text capsuleID /\ transfer_text tag.

Definition answer_of (server : TransferServer) (capsuleID tag : string) : bytes :=
  fst (handleStream (enc_request {| tr_CapsuleID := capsuleID; tr_Tag := tag |}) server).

Lemma handleStream_answer server capsuleID tag files total sum : serves server capsuleID tag ->
  collectFiles (SnapshotPath (ts_store server) capsuleID tag) (ts_fs server) = Some (files, total, sum) ->
  answer_of server capsuleID tag = enc_header (sent_header server capsuleID tag) ++
    zstd_write (sendFiles (SnapshotPath (ts_store server) capsuleID tag) files (ts_fs server)).
Proof.
  intros ([r Hr] & Hq & Hc & Ht) Hcol. unfold answer_of, handleStream, sent_header. rewrite request_law by done. cbn [tr_CapsuleID tr_Tag].
  unfold Get, snap_query. rewrite Hq, Hr. cbv beta iota. cbn [fmap option_fmap option_map].
  change (SnapshotPath (set_rows _ (ts_store server)) capsuleID tag) with (SnapshotPath (ts_store server) capsuleID tag).
  by rewrite Hcol.
Qed.

Lemma sent_header_text server capsuleID tag files total sum : serves server capsuleID tag ->
  collectFiles (SnapshotPath (ts_store server) capsuleID tag) (ts_fs server) = Some (files, total, sum) ->
  sent_header server capsuleID tag =
    {| th_CapsuleID := capsuleID; th_Tag := tag; th_Checksum := sum; th_TotalSize := total; th_FileCount := Z.of_nat (length files) |} /\
  dec_header (enc_header (sent_header server capsuleID tag)) = Some (sent_header server capsuleID tag).
Proof.
  intros (_ & _ & Hc & Ht) Hcol. unfold sent_header. rewrite Hcol. split; [done|]. apply header_law; [done..|].
  unfold collectFiles in Hcol. destruct (Walk _ _); [|done]. injection Hcol as _ _ <-. apply hex_text.
Qed.

(** A file is sent as its header and its content. *)
Lemma sendFile_bytes snapPath rc f : sendable rc ->
  fs_get (fs_tree f) (elems (Join [snapPath; rel_name rc.1])) = Some (File rc.2) ->
  sendFile snapPath {| fe_Name := rel_name rc.1; fe_Size := Z.of_nat (length rc.2) |} f = (file_bytes rc, true).
Proof.
  intros (_ & b & Eb & _) Hf. unfold sendFile. cbn [fe_Name fe_Size]. unfold file_bytes. unfold file_header in Eb |- *.
  rewrite Eb, Hf. change (default [] (Some b)) with b.
  pose proof (CopyN_all rc.2 []) as Hcp. rewrite app_nil_r in Hcp. by rewrite Hcp.
Qed.

Lemma sendFiles_bytes snapPath files f :
  Forall sendable files ->
  Forall (fun rc => fs_get (fs_tree f) (elems (Join [snapPath; rel_name rc.1])) = Some (File rc.2)) files ->
  sendFiles snapPath ((fun rc => {| fe_Name := rel_name rc.1; fe_Size := Z.of_nat (length rc.2) |}) <$> files) f =
  concat (file_bytes <$> files).
Proof.
  induction 1 as [|rc files Hs _ IH]; inversion_clear 1; [done|]. rewrite !fmap_cons. cbn [sendFiles concat].
  rewrite sendFile_bytes by done. by rewrite IH.
Qed.

(** Making directories succeeds only if the place becomes one. *)
Lemma MkdirAll_dir p f : fst (MkdirAll p f) = true -> fs_get (fs_tree (snd (MkdirAll p f))) p = Some Dir.
Proof.
  unfold MkdirAll, fs_do. destruct (fs_fault _ _); [done|]. destruct (mkdirs [] p (fs_tree f)) as [t|] eqn:E; [|done]. intros _. cbn.
  destruct p as [|x p]; [done|]. apply (mkdirs_spec _ _ _ _ E). done.
Qed.

Lemma MkdirAll_keeps_dir p q f : fs_get (fs_tree f) q = Some Dir -> fs_get (fs_tree (snd (MkdirAll p f))) q = Some Dir.
Proof.
  intros Hq. unfold MkdirAll, fs_do. destruct (fs_fault _ _); [done|]. destruct (mkdirs [] p (fs_tree f)) as [t|] eqn:E; [|done]. cbn.
  destruct q as [|x q]; [done|]. cbn [fs_get] in *. destruct (mkdirs_spec _ _ _ _ E) as [H _].
  destruct (H (x :: q)) as [->|(Hn & _)]; [done|congruence].
Qed.

Lemma Create_on_dir p f : fs_get (fs_tree f) p = Some Dir -> fst (Create p f) = false.
Proof. intros Hp. unfold Create, fs_do. destruct (fs_fault _ _); [done|]. by rewrite Hp. Qed.

Lemma elems_Join_dot d : elems (Join [d; "."]) = elems d.
Proof. rewrite elems_Join. cbn. apply rev_involutive. Qed.

(** A captured snapshot cannot be sent.  The runtime's
    checkpoint writes the archive as a file at the snapshot's path; pulling
    such a snapshot fails, whatever the state of the client: the server sends
    one file named ["."], which the client tries to create over the directory
    it has just made. *)
Theorem transfer_captured_fails server capsuleID tag c s f
    (Hserves : serves server capsuleID tag)
    (Hfile : fs_get (fs_tree (ts_fs server)) (elems (SnapshotPath (ts_store server) capsuleID tag)) = Some (File c))
    (Hsend : sendable ([], c)) :
  exists e, fst (PullSnapshot (Some (answer_of server capsuleID tag)) (length (enc_header (sent_header server capsuleID tag)))
    capsuleID tag (s, f)) = Err e.
Proof.
  set (path := SnapshotPath (ts_store server) capsuleID tag) in *.
  assert (Hcol : exists total sum, collectFiles path (ts_fs server) =
    Some ((fun rc => {| fe_Name := rel_name rc.1; fe_Size := Z.of_nat (length rc.2) |}) <$> [([], c)], total, sum)).
  { unfold collectFiles, Walk. rewrite Hfile. do 2 eexists. reflexivity. }
  destruct Hcol as (total & sum & Hcol).
  rewrite (handleStream_answer _ _ _ _ _ _ Hserves Hcol). fold path. rewrite sendFiles_bytes; [|by constructor|].
  2: { constructor; [|constructor]. cbn [fst snd rel_name]. rewrite elems_Join_dot. exact Hfile. }
  destruct (sent_header_text _ _ _ _ _ _ Hserves Hcol) as [Ehdr Edec].
  unfold PullSnapshot. rewrite take_app_length, drop_app_length, Edec, Ehdr. cbn [th_FileCount]. cbn [length fmap list_fmap].
  change (Z.of_nat 1 =? 0) with false. cbv beta iota. unfold EnsureDir.
  pose proof (MkdirAll_dir (elems (SnapshotPath s capsuleID tag)) f) as Hd.
  destruct (MkdirAll (elems (SnapshotPath s capsuleID tag)) f) as [[] f1]; cbn [negb]; [|by eexists].
  rewrite zstd_law. cbn [concat list_fmap fmap]. change (Z.to_nat (Z.of_nat 1)) with 1%nat. cbn [receiveFiles].
  rewrite receiveFile_header by done. cbn [rel_name fst]. change (Clean ".") with ".". change (traverses ".") with false.
  cbv beta iota zeta. rewrite elems_Join_dot.
  pose proof (MkdirAll_keeps_dir (parent (elems (SnapshotPath s capsuleID tag))) _ f1 (Hd eq_refl)) as Hd2.
  destruct (MkdirAll (parent _) f1) as [[] f2]; cbn [negb]; [|by eexists].
  pose proof (Create_on_dir _ _ Hd2) as Hcr. destruct (Create _ _) as [ok f3]. cbn [fst] in Hcr. subst ok. cbn [negb]. by eexists.
Qed.

(** ** A directory of files arrives *)

(** The tree of an operating system: places are names, and what holds a place
    is a directory. *)
Record tree_wf (t : gmap (list string) fsnode) : Prop := {
  tree_names : forall k n, t !! k = Some n -> k <> [] /\ Forall (fun s => name_ok s = true) k;
  tree_parents : forall a b n, t !! (a ++ b) = Some n -> a <> [] -> b <> [] -> t !! a = Some Dir
}.

Definition files_at (p : list string) (t : gmap (list string) fsnode) (files : list (list string * bytes)) : Prop :=
  NoDup files.*1 /\ forall rel c, (rel, c) ∈ files <-> t !! (p ++ rel) = Some (File c).

Lemma Walk_dir p t : tree_wf t -> fs_get t p = Some Dir ->
  exists files, Walk p t = Some files /\ files_at p t files /\ Forall (fun rc => rc.1 <> []) files.
Proof.
  intros Hwf Hp. unfold Walk. rewrite Hp. eexists. split; [done|]. set (l := omap (file_below p) (map_to_list t)).
  assert (Hin : forall rel c, (rel, c) ∈ merge_sort walk_le l <-> t !! (p ++ rel) = Some (File c)).
  { intros rel c. rewrite merge_sort_Permutation. unfold l. rewrite list_elem_of_omap. split.
    - intros ([k n] & Hk & Hb). apply elem_of_map_to_list in Hk. unfold file_below in Hb. cbn [fst snd] in Hb.
      destruct (strip_prefix p k) as [rel'|] eqn:E, n as [|c']; simplify_eq. by apply strip_prefix_spec in E as ->.
    - intros Ht. exists (p ++ rel, File c). split; [by apply elem_of_map_to_list|]. unfold file_below. cbn [fst snd].
      by rewrite (proj2 (strip_prefix_spec p (p ++ rel) rel) eq_refl). }
  assert (Hnd : NoDup l.*1).
  { unfold l. clear Hin. pose proof (NoDup_fst_map_to_list t) as Hnd. induction (map_to_list t) as [|[k n] m IH]; [constructor|].
    cbn [fmap list_fmap fst] in Hnd. apply list.NoDup_cons in Hnd as [Hk Hm]. cbn [omap list_omap].
    destruct (file_below p (k, n)) as [[rel c]|] eqn:E; [|by apply IH]. rewrite fmap_cons. apply list.NoDup_cons. split; [|by apply IH].
    unfold file_below in E. cbn [fst snd] in E. destruct (strip_prefix p k) as [rel'|] eqn:Es, n; simplify_eq.
    apply strip_prefix_spec in Es. intros Hin. apply list_elem_of_fmap in Hin as ([rel2 c2] & E2 & Hin). cbn in E2. subst rel2.
    apply list_elem_of_omap in Hin as ([k2 n2] & Hk2 & Hb). unfold file_below in Hb. cbn [fst snd] in Hb.
    destruct (strip_prefix p k2) as [r2|] eqn:Es2, n2; simplify_eq. apply strip_prefix_spec in Es2. subst.
    apply Hk. by apply (list_elem_of_fmap_2 fst) in Hk2. }
  split; [split|].
  - by rewrite merge_sort_Permutation.
  - done.
  - apply list.Forall_forall. intros [rel c] Hrc Hnil. cbn in Hnil. subst rel. apply Hin in Hrc. rewrite app_nil_r in Hrc.
    destruct p as [|x p]; [by destruct (tree_names _ Hwf _ _ Hrc)|]. cbn [fs_get] in Hp. congruence.
Qed.

(** No file is above another. *)
Lemma files_prefix_free p t files rel c rel' c' x : tree_wf t -> files_at p t files -> rel <> [] ->
  (rel, c) ∈ files -> (rel', c') ∈ files -> rel' = rel ++ x -> x = [].
Proof.
  intros Hwf [_ Hf] Hne H1%Hf H2%Hf ->. destruct (decide (x = [])) as [|Hx]; [done|]. rewrite app_assoc in H2.
  assert (Hp : p ++ rel <> []) by (intros [_ ?]%app_eq_nil; done).
  pose proof (tree_parents _ Hwf _ _ _ H2 Hp Hx). congruence.
Qed.

Definition quiet_fs (f : FS) : Prop := forall n, fs_fault f n = false.

Lemma fs_do_quiet op f t : quiet_fs f -> op (fs_tree f) = Some t -> fs_do op f = (true, set_tree t f).
Proof. intros Hq E. unfold fs_do. by rewrite Hq, E. Qed.

(** The tree while files arrive at [d]: [done] are there, and the directories
    below [d] are those of the files to come or there. *)
Record arrived (d : list string) (files done : list (list string * bytes)) (t : gmap (list string) fsnode) : Prop := {
  arr_files : forall rel c, t !! (d ++ rel) = Some (File c) <-> (rel, c) ∈ done;
  arr_dirs : forall rel, t !! (d ++ rel) = Some Dir -> rel = [] \/ exists rel' c x, (rel', c) ∈ files /\ rel' = rel ++ x /\ x <> [];
  arr_way : forall a b, d = a ++ b -> a <> [] -> t !! a = Some Dir
}.

Lemma removelast_split (l : list string) : l <> [] -> exists x, l = removelast l ++ [x].
Proof. intros Hne. destruct l as [|x l] using rev_ind; [done|]. exists x. by rewrite removelast_last. Qed.

Lemma removelast_below (d rel : list string) : rel <> [] -> parent (d ++ rel) = d ++ removelast rel.
Proof. intros Hne. unfold parent. by apply removelast_app. Qed.

Section Arriving.
Variables (d : list string) (files : list (list string * bytes)).
Hypothesis prefix_free : forall rel c rel' c' x, (rel, c) ∈ files -> (rel', c') ∈ files -> rel' = rel ++ x -> x = [].

(** Nothing is in the way of the directory of a file to come. *)
Lemma arrived_way_free done_ t rel c dir last : arrived d files done_ t -> (forall x, x ∈ done_ -> x ∈ files) ->
  (rel, c) ∈ files -> rel = dir ++ [last] -> is_Some (mkdirs [] (d ++ dir) t).
Proof.
  intros [Hfiles _ Hway] Hsub Hin Erel. apply mkdirs_ok. intros a b c' E Ha. cbn [app]. intros Ht.
  destruct (prefix_cases d dir a b E Ha) as [[_ [x Ed]]|[x ->]].
  - by rewrite (Hway a x Ed Ha) in Ht.
  - apply Hfiles, Hsub in Ht. rewrite <- app_assoc in E. apply app_inv_head in E. rewrite E, <- app_assoc in Erel.
    pose proof (prefix_free _ _ _ _ _ Ht Hin Erel) as Hb. by apply app_eq_nil in Hb as [_ ?].
Qed.

Lemma arrived_mkdirs done_ t rel c dir last t1 : (rel, c) ∈ files -> rel = dir ++ [last] ->
  mkdirs [] (d ++ dir) t = Some t1 -> arrived d files done_ t -> arrived d files done_ t1.
Proof.
  intros Hin Erel E1 [Hfiles Hdirs Hway]. destruct (mkdirs_spec _ _ _ _ E1) as [Hmk _]. split.
  - intros rel0 c0. rewrite <- Hfiles. destruct (Hmk (d ++ rel0)) as [->|(-> & -> & _)]; naive_solver.
  - intros rel0 Ht. destruct (Hmk (d ++ rel0)) as [E|(_ & _ & a & b & E & _ & Ek)]; [rewrite E in Ht; by apply Hdirs|].
    right. cbn [app] in Ek. rewrite <- Ek, <- app_assoc in E. apply app_inv_head in E.
    exists rel, c, (b ++ [last]). split_and!; [done| |by destruct b]. rewrite Erel, E. by rewrite app_assoc.
  - intros a b Ed Ha. destruct (Hmk a) as [E|(_ & E & _)]; [rewrite E; by apply (Hway a b)|done].
Qed.

(** The place of a file to come is not a directory. *)
Lemma arrived_not_dir done_ t rel c : arrived d files done_ t -> (rel, c) ∈ files -> rel <> [] -> t !! (d ++ rel) <> Some Dir.
Proof.
  intros [_ Hdirs _] Hin Hne Ht. destruct (Hdirs _ Ht) as [|(rel' & c' & x & Hin' & E' & Hx)]; [done|].
  by rewrite (prefix_free _ _ _ _ _ Hin Hin' E') in Hx.
Qed.

Lemma arrived_insert done_ t rel c : arrived d files done_ t -> rel <> [] -> rel ∉ done_.*1 ->
  arrived d files (done_ ++ [(rel, c)]) (<[d ++ rel := File c]> t).
Proof.
  intros [Hfiles Hdirs Hway] Hne Hnew. split.
  - intros rel0 c0. rewrite elem_of_app, list_elem_of_singleton. destruct (decide (rel0 = rel)) as [->|Hrel].
    + rewrite lookup_insert_eq. split; [intros [= ->]; by right|]. intros [Hd|[= ->]]; [|done].
      destruct Hnew. by apply (list_elem_of_fmap_2 fst) in Hd.
    + rewrite lookup_insert_ne by (intros ?%app_inv_head; congruence). rewrite Hfiles. naive_solver.
  - intros rel0. destruct (decide (rel0 = rel)) as [->|Hrel]; [by rewrite lookup_insert_eq|].
    rewrite lookup_insert_ne by (intros ?%app_inv_head; congruence). apply Hdirs.
  - intros a b Ed Ha. rewrite lookup_insert_ne; [by apply (Hway a b)|].
    intros E%(f_equal length). rewrite Ed, !length_app in E. destruct rel; [done|]. cbn in E. lia.
Qed.

End Arriving.

Lemma Create_quiet p f : quiet_fs f -> p <> [] -> fs_tree f !! p <> Some Dir -> fs_get (fs_tree f) (parent p) = Some Dir ->
  Create p f = (true, set_tree (<[p := File []]> (fs_tree f)) f).
Proof.
  intros Hq Hne Hnd Hpar. apply (fs_do_quiet _ _ _ Hq). rewrite Hpar.
  assert (fs_get (fs_tree f) p = fs_tree f !! p) as -> by (by destruct p). by destruct (fs_tree f !! p) as [[]|].
Qed.

(** One more file. *)
Lemma receiveFile_step dest files done_ rel c r h f
    (prefix_free : forall rel c rel' c' x, (rel, c) ∈ files -> (rel', c') ∈ files -> rel' = rel ++ x -> x = []) :
  quiet_fs f -> rel <> [] -> Forall (fun s => name_ok s = true) rel -> sendable (rel, c) ->
  (forall x, x ∈ done_ -> x ∈ files) -> (rel, c) ∈ files -> rel ∉ done_.*1 ->
  arrived (elems dest) files done_ (fs_tree f) ->
  exists f', receiveFile dest (file_bytes (rel, c) ++ r) h f = (Ok (Z.of_nat (length c)), r, h ++ c, f') /\
    quiet_fs f' /\ arrived (elems dest) files (done_ ++ [(rel, c)]) (fs_tree f').
Proof.
  intros Hq Hne Hnames Hsend Hsub Hin Hnew Harr. set (d := elems dest) in *.
  assert (Ername : rel_name rel = String.concat "/" rel) by (by destruct rel).
  rewrite receiveFile_header by done. cbn [fst snd]. rewrite Ername, names_Clean, names_stay, elems_Join_names by done. fold d.
  cbv zeta. destruct (removelast_split rel Hne) as [last Erel].
  destruct (arrived_way_free d files prefix_free done_ _ rel c _ last Harr Hsub Hin Erel) as [t1 E1].
  rewrite (removelast_below d rel Hne). unfold MkdirAll. rewrite (fs_do_quiet _ _ _ Hq E1). cbn [negb].
  pose proof (arrived_mkdirs d files done_ _ rel c _ last t1 Hin Erel E1 Harr) as Harr1.
  rewrite Create_quiet; [|done|intros [_ ?]%app_eq_nil; done|by apply (arrived_not_dir d files prefix_free done_ _ _ c)|].
  2: { rewrite removelast_below by done. destruct (d ++ removelast rel) as [|y l] eqn:Ed; [done|].
       by apply (mkdirs_spec _ _ _ _ E1). }
  cbn [negb]. unfold WriteFile. erewrite (fs_do_quiet (fun t => Some (<[d ++ rel := File c]> t))) by done. cbn [negb].
  eexists. split; [reflexivity|]. split; [done|]. cbn [fs_tree set_tree]. rewrite insert_insert_eq. by apply arrived_insert.
Qed.

Lemma int64_add_l a b : int64 (int64 a + b) = int64 (a + b).
Proof.
  unfold int64, wrap. change (2 ^ (64 - 1)) with (2 ^ 63). f_equal.
  replace ((a + 2 ^ 63) mod 2 ^ 64 - 2 ^ 63 + b + 2 ^ 63) with ((a + 2 ^ 63) mod 2 ^ 64 + b) by lia.
  rewrite Z.add_mod_idemp_l by lia. f_equal. lia.
Qed.

(** All of them. *)
Lemma receiveFiles_all dest files todo done_ i total h f
    (prefix_free : forall rel c rel' c' x, (rel, c) ∈ files -> (rel', c') ∈ files -> rel' = rel ++ x -> x = []) :
  quiet_fs f -> files = done_ ++ todo -> NoDup files.*1 ->
  Forall (fun rc => rc.1 <> [] /\ Forall (fun s => name_ok s = true) rc.1 /\ sendable rc) todo ->
  arrived (elems dest) files done_ (fs_tree f) ->
  exists f', receiveFiles dest (length todo) i (int64 total) (concat (file_bytes <$> todo)) h f =
      (Ok (int64 (total + Z.of_nat (length (content_of todo)))), h ++ content_of todo, f') /\
    quiet_fs f' /\ arrived (elems dest) files files (fs_tree f').
Proof.
  intros Hq E Hnd Htodo. revert done_ i total h f Hq E.
  induction Htodo as [|[rel c] todo (Hne & Hnames & Hs) Htodo IH]; intros done_ i total h f Hq E Harr.
  - exists f. cbn. rewrite Z.add_0_r, app_nil_r. rewrite app_nil_r in E. by subst.
  - cbn [length receiveFiles fmap list_fmap concat].
    destruct (receiveFile_step dest files done_ rel c (concat (file_bytes <$> todo)) h f) as (f1 & Er & Hq1 & Harr1); [done..| | | |done|].
    { intros x Hx. rewrite E. apply elem_of_app. by left. }
    { rewrite E. apply elem_of_app. right. by left. }
    { rewrite E, fmap_app in Hnd. apply list.NoDup_app in Hnd as (_ & Hd & _). intros Hr. apply (Hd _ Hr). by left. }
    rewrite Er. cbv beta iota. rewrite int64_add_l.
    destruct (IH (done_ ++ [(rel, c)]) (i + 1) (total + Z.of_nat (length c)) (h ++ c) f1) as (f2 & Er2 & Hq2 & Harr2);
      [done|rewrite E; by rewrite <- app_assoc|done|].
    exists f2. rewrite Er2. split_and!; [|done..]. unfold content_of. cbn [fmap list_fmap concat snd].
    rewrite length_app. f_equal. f_equal; [do 2 f_equal; lia|by rewrite <- app_assoc].
Qed.

(** The directory made for a snapshot that is not there yet. *)
Lemma arrived_start d files t t1 : (forall rel, t !! (d ++ rel) = None) -> mkdirs [] d t = Some t1 -> arrived d files [] t1.
Proof.
  intros Hfree E1. destruct (mkdirs_spec _ _ _ _ E1) as [Hmk Hd]. split.
  - intros rel c. split; [|by intros ?%not_elem_of_nil]. intros Ht. destruct (Hmk (d ++ rel)) as [E|(_ & E & _)]; [|congruence].
    rewrite E, Hfree in Ht. done.
  - intros rel Ht. left. destruct (Hmk (d ++ rel)) as [E|(_ & _ & a & b & E & _ & Ek)]; [rewrite E, Hfree in Ht; done|].
    cbn [app] in Ek. rewrite <- Ek in E. rewrite <- app_assoc in E. rewrite <- (app_nil_r d) in E at 1. apply app_inv_head in E.
    by apply eq_sym, app_eq_nil in E as [? _].
  - clear Hmk Hfree. intros a b -> Ha. clear Hd. revert E1. replace a with ([] ++ a) at 2 by done. generalize ([] : list string). revert t Ha.
    induction a as [|x a IH]; intros t Ha here; [done|]. cbn [app mkdirs]. set (p := here ++ [x]).
    assert (Hgo : forall t2, t2 !! p = Some Dir -> mkdirs p (a ++ b) t2 = Some t1 -> t1 !! (here ++ x :: a) = Some Dir).
    { intros t2 Hp E. destruct (decide (a = [])) as [->|Hne].
      - destruct (mkdirs_spec _ _ _ _ E) as [Hmk _]. change (here ++ [x]) with p. destruct (Hmk p) as [->|(? & _)]; congruence.
      - replace (here ++ x :: a) with (p ++ a) by (unfold p; by rewrite <- app_assoc). by apply (IH t2). }
    destruct (t !! p) as [[|c]|] eqn:Ep; [by apply Hgo|done|]. apply Hgo, lookup_insert_eq.
Qed.

(** C18: a snapshot directory arrives as it is, when the JSON decoder
    takes the header and no more. The server has the row and reads it, and at
    the snapshot's path is a directory with at least one file (an empty one is
    answered like a missing one); the identifiers and the names of the files are
    text, and the header of each file fits its 32-bit length. On the client
    nothing is at the snapshot's path and no file is on the way to it, and no
    operation and no statement fails. If the reads of the decoder of the header
    end where the header ends (it may also read on into the compressed stream,
    which then begins in its middle), the pull succeeds: below the client's path
    are exactly the server's files, with their contents, and the table records
    the announced checksum and size. *)
Theorem transfer_roundtrip server capsuleID tag files s f taken
    (Htaken : taken = length (enc_header (sent_header server capsuleID tag)))
    (Hserves : serves server capsuleID tag)
    (Hwf : tree_wf (fs_tree (ts_fs server)))
    (Hdir : fs_get (fs_tree (ts_fs server)) (elems (SnapshotPath (ts_store server) capsuleID tag)) = Some Dir)
    (Hwalk : Walk (elems (SnapshotPath (ts_store server) capsuleID tag)) (fs_tree (ts_fs server)) = Some files)
    (Hsome : files <> []) (Hsend : Forall sendable files)
    (Hq : quiet_fs f) (Hput : no_faults s)
    (Hfree : forall rel, fs_tree f !! (elems (SnapshotPath s capsuleID tag) ++ rel) = None)
    (Hway : forall a b c, elems (SnapshotPath s capsuleID tag) = a ++ b -> fs_tree f !! a <> Some (File c)) :
  exists rec s' f',
    PullSnapshot (Some (answer_of server capsuleID tag)) taken capsuleID tag (s, f) = (Ok rec, (s', f')) /\
    r_Checksum rec = th_Checksum (sent_header server capsuleID tag) /\
    r_Size rec = th_TotalSize (sent_header server capsuleID tag) /\
    ss_rows s' !! (capsuleID, tag) = Some (row_of rec) /\
    (forall rel c, fs_tree f' !! (elems (SnapshotPath s capsuleID tag) ++ rel) = Some (File c) <->
       fs_tree (ts_fs server) !! (elems (SnapshotPath (ts_store server) capsuleID tag) ++ rel) = Some (File c)).
Proof.
  subst taken. set (path := SnapshotPath (ts_store server) capsuleID tag) in *. set (dest := SnapshotPath s capsuleID tag) in *.
  destruct (Walk_dir _ _ Hwf Hdir) as (files' & Ew & Hat & Hne). rewrite Hwalk in Ew. injection Ew as <-.
  pose proof Hat as [Hnd Hfiles].
  assert (Hok : Forall (fun rc => rc.1 <> [] /\ Forall (fun s => name_ok s = true) rc.1 /\ sendable rc) files).
  { rewrite list.Forall_forall in Hne, Hsend |- *. intros [rel c] Hrc. split_and!; [by apply Hne in Hrc| |by apply Hsend].
    apply Hfiles in Hrc. destruct (tree_names _ Hwf _ _ Hrc) as [_ Hn]. by apply list.Forall_app in Hn as [_ Hn]. }
  set (h := content_of files).
  assert (Hcol : collectFiles path (ts_fs server) =
    Some ((fun rc => {| fe_Name := rel_name rc.1; fe_Size := Z.of_nat (length rc.2) |}) <$> files, int64 (Z.of_nat (length h)), hex_EncodeToString (Sum256 h)))
    by (unfold collectFiles; by rewrite Hwalk).
  rewrite (handleStream_answer _ _ _ _ _ _ Hserves Hcol). fold path. rewrite sendFiles_bytes; [|done|].
  2: { apply list.Forall_forall. intros [rel c] Hrc. pose proof (proj1 (list.Forall_forall _ _) Hok _ Hrc) as (H1 & H2 & _). cbn [fst snd] in *.
       replace (rel_name rel) with (String.concat "/" rel) by (by destruct rel). rewrite elems_Join_names by done.
       apply Hfiles in Hrc. destruct (elems path ++ rel) eqn:E; [by apply app_eq_nil in E as [_ ?]|done]. }
  destruct (sent_header_text _ _ _ _ _ _ Hserves Hcol) as [Ehdr Edec].
  unfold PullSnapshot. rewrite take_app_length, drop_app_length, Edec, Ehdr. cbn [th_FileCount th_Checksum th_TotalSize]. rewrite length_fmap.
  destruct (Z.eqb_spec (Z.of_nat (length files)) 0) as [E0|_]; [by destruct files|].
  destruct (mkdirs_ok [] (elems dest) (fs_tree f)) as [t1 E1]; [intros a b c E _; by apply (Hway a b c)|].
  unfold EnsureDir, MkdirAll. fold dest. rewrite (fs_do_quiet _ _ _ Hq E1). cbn [negb]. rewrite zstd_law, Nat2Z.id.
  destruct (receiveFiles_all dest files files [] 0 0 [] (set_tree t1 f)) as (f2 & Er & Hq2 & Harr);
    [intros rel c rel' c' x H1 H2; apply (files_prefix_free _ _ files rel c rel' c' x Hwf Hat); [|done..];
     by apply (proj1 (list.Forall_forall _ _) Hne (rel, c))|done|done|done|done|by apply (arrived_start _ _ (fs_tree f))|].
  change (int64 0) with 0 in Er. rewrite Er. cbn [app]. fold h. rewrite String.eqb_refl. cbn [negb]. unfold ss_now, Put.
  rewrite snap_exec_ok by done. do 3 eexists. split; [reflexivity|]. cbn [r_Checksum r_Size r_CapsuleID r_Tag]. split_and!; [done|done| |].
  - cbn. apply lookup_insert_eq.
  - intros rel c. rewrite (arr_files _ _ _ _ Harr). apply Hfiles.
Qed.

End Receive.

(** ** Examples *)

(** A tree is well formed when every entry has a name and a directory above. *)
Definition tree_ok (t : gmap (list string) fsnode) : bool :=
  forallb (fun kn => negb (bool_decide (kn.1 = [])) && forallb name_ok kn.1 &&
                     match fs_get t (parent kn.1) with Some Dir => true | _ => false end) (map_to_list t).

Lemma tree_ok_wf t : tree_ok t = true -> tree_wf t.
Proof.
  intros H. assert (Hk : forall k n, t !! k = Some n -> k <> [] /\ Forall (fun s => name_ok s = true) k /\ fs_get t (parent k) = Some Dir).
  { intros k n Hk. unfold tree_ok in H. rewrite forallb_elem in H. specialize (H (k, n)). rewrite elem_of_map_to_list in H.
    specialize (H Hk). cbn [fst] in H. rewrite !andb_true_iff, negb_true_iff, bool_decide_eq_false in H. destruct H as [[H1 H2] H3].
    split_and!; [done| |by destruct (fs_get t (parent k)) as [[]|]]. by apply list.Forall_forall, forallb_elem. }
  split; [intros k n Hn; destruct (Hk k n Hn) as (? & ? & _); done|].
  intros a b. revert a. induction b as [|x b IH] using rev_ind; [done|]. intros a n Hn Ha _.
  destruct (Hk _ _ Hn) as (_ & _ & Hp). unfold parent in Hp. rewrite app_assoc, removelast_last in Hp.
  assert (Hne : a ++ b <> []) by (by destruct a). destruct (a ++ b) as [|y l] eqn:E; [done|]. rewrite <- E in *.
  assert (Hget : fs_get t (a ++ b) = t !! (a ++ b)) by (rewrite E; done). rewrite Hget in Hp.
  destruct (decide (b = [])) as [->|Hb]; [by rewrite app_nil_r in Hp|by apply (IH a Dir)].
Qed.

Module TransferDemo.

#[local] Instance req_eq_dec : EqDecision TransferRequest.
Proof. solve_decision. Defined.
#[local] Instance req_countable : Countable TransferRequest.
Proof.
  refine (inj_countable' (fun r => (tr_CapsuleID r, tr_Tag r)) (fun '(c, t) => {| tr_CapsuleID := c; tr_Tag := t |}) _). by intros [].
Defined.
#[local] Instance hdr_eq_dec : EqDecision TransferHeader.
Proof. solve_decision. Defined.
#[local] Instance hdr_countable : Countable TransferHeader.
Proof.
  refine (inj_countable' (fun h => (th_CapsuleID h, th_Tag h, th_Checksum h, th_TotalSize h, th_FileCount h))
    (fun '(c, t, s, z, n) => {| th_CapsuleID := c; th_Tag := t; th_Checksum := s; th_TotalSize := z; th_FileCount := n |}) _). by intros [].
Defined.
#[local] Instance fh_eq_dec : EqDecision FileHeader.
Proof. solve_decision. Defined.
#[local] Instance fh_countable : Countable FileHeader.
Proof.
  refine (inj_countable' (fun h => (fh_Name h, fh_Size h)) (fun '(n, z) => {| fh_Name := n; fh_Size := z |}) _). by intros [].
Defined.

(** A codec whose compressed streams start with a mark, and a checksum. *)
Definition mark : ascii := "("%char.
Definition first_value {A} `{Countable A} (b : bytes) : option A := p ← wire.unesc b; wire.of_wire p.1.
Lemma first_value_law {A} `{Countable A} (a : A) : first_value (wire.esc (default [] (wire.to_wire a))) = Some a.
Proof.
  unfold first_value. pose proof (wire.unesc_esc (default [] (wire.to_wire a)) []) as E. rewrite app_nil_r in E. rewrite E. cbn [mbind option_bind fst].
  by apply wire.wire_roundtrip.
Qed.
#[local] Instance demo_codec : TransferCodec := {|
  enc_request := fun r => wire.esc (default [] (wire.to_wire r)); dec_request := first_value;
  enc_header := fun h => wire.esc (default [] (wire.to_wire h)); dec_header := first_value;
  marshal_file := wire.to_wire; unmarshal_file := wire.of_wire;
  zstd_write := fun b => mark :: b;
  zstd_read := fun b => match b with c :: b => Some (if Ascii.eqb c mark then b else []) | [] => Some [] end |}.
#[local, refine] Instance demo_laws : TransferLaws demo_codec := {| transfer_text := fun _ => True |}.
Proof.
  - intros r _ _. apply first_value_law.
  - intros h _ _ _. apply first_value_law.
  - done.
  - intros h b E _. by apply wire.wire_roundtrip.
  - done.
Defined.
#[local] Instance demo_sum : Sha256 := {| Sum256 := fun b => [ascii_of_nat (length b mod 256); hd Ascii.zero b] |}.

Definition text (s : string) : bytes := list_ascii_of_string s.
Definition row (tag : string) : SnapRow :=
  {| s_capsule_id := "web"; s_tag := tag; s_size := 8; s_path := "/snap/web/" +:+ tag; s_checksum := "";
     s_created_at := 0; s_last_accessed := 0; s_ttl_seconds := 259200; s_in_use := 0 |}.
Definition store (rows : gmap SnapKey SnapRow) : Store :=
  {| ss_rows := rows; ss_dir := "/snap"; ss_fault := fun _ => false; ss_stmts := 0; ss_clock := fun _ => 0; ss_ticks := 0 |}.
Definition disk (t : gmap (list string) fsnode) : FS := {| fs_tree := t; fs_fault := fun _ => false; fs_ops := 0 |}.

(** The server has a directory for tag ["v1"] and an archive for ["v2"]. *)
Definition server_tree : gmap (list string) fsnode := list_to_map [
  (["snap"], Dir); (["snap"; "web"], Dir); (["snap"; "web"; "v1"], Dir);
  (["snap"; "web"; "v1"; "config"], File (text "cfg")); (["snap"; "web"; "v1"; "pages"], Dir);
  (["snap"; "web"; "v1"; "pages"; "p1"], File (text "pages"));
  (["snap"; "web"; "v2"], File (text "archive"))].
Definition server : TransferServer :=
  {| ts_store := store {[ ("web", "v1") := row "v1"; ("web", "v2") := row "v2" ]}; ts_fs := disk server_tree; ts_sending := ∅ |}.
Definition v1_files : list (list string * bytes) := [(["config"], text "cfg"); (["pages"; "p1"], text "pages")].

Lemma demo_serves tag : is_Some (ss_rows (ts_store server) !! ("web", tag)) -> serves server "web" tag.
Proof. intros H. by repeat split. Qed.

Lemma demo_sendable rc b : marshal_file (file_header rc) = Some b -> (Z.of_nat (length b) <? 2 ^ 32) = true -> sendable rc.
Proof. intros E Hb. split; [done|]. exists b. split; [done|]. by apply Z.ltb_lt. Qed.

Definition pull (tag : string) (s : Store) (f : FS) : result PullError Record_ * (Store * FS) :=
  PullSnapshot (Some (answer_of server "web" tag)) (length (enc_header (sent_header server "web" tag))) "web" tag (s, f).

Lemma v1_sendable : Forall sendable v1_files.
Proof. repeat constructor; (eexists; split; [reflexivity|apply Z.ltb_lt; vm_compute; reflexivity]). Qed.

Lemma transfer_roundtrip_witness :
  exists rec s' f', pull "v1" (store ∅) (disk ∅) = (Ok rec, (s', f')) /\
    fs_tree f' !! ["snap"; "web"; "v1"; "pages"; "p1"] = Some (File (text "pages")).
Proof.
  destruct (transfer_roundtrip server "web" "v1" v1_files (store ∅) (disk ∅) _ eq_refl) as (rec & s' & f' & E & _ & _ & _ & H).
  - apply demo_serves. by eexists.
  - apply tree_ok_wf. vm_compute. reflexivity.
  - vm_compute. reflexivity.
  - vm_compute. reflexivity.
  - discriminate.
  - exact v1_sendable.
  - done.
  - done.
  - intros rel. apply lookup_empty.
  - intros a b c _. cbn [fs_tree disk]. by rewrite lookup_empty.
  - exists rec, s', f'. split; [exact E|]. apply (H ["pages"; "p1"] (text "pages")). vm_compute. reflexivity.
Defined.

Lemma transfer_captured_fails_witness : exists e, fst (pull "v2" (store ∅) (disk ∅)) = Err e.
Proof.
  apply (transfer_captured_fails server "web" "v2" (text "archive") (store ∅) (disk ∅)).
  - apply demo_serves. by eexists.
  - vm_compute. reflexivity.
  - split; [done|]. eexists. split; [reflexivity|]. apply Z.ltb_lt. vm_compute. reflexivity.
Defined.

(** A decoder that takes one byte of the compressed stream with the header
    makes the pull of the good snapshot fail. *)
Example decoder_overread :
  fst (PullSnapshot (Some (answer_of server "web" "v1")) (S (length (enc_header (sent_header server "web" "v1")))) "web" "v1"
    (store ∅, disk ∅)) = Err (ErrReceive 1 ErrReadHeaderLength).
Proof. vm_compute. reflexivity. Qed.

(** The tag is the image name of the specification, which only has to be non
    empty: with [".."] the snapshot's path leaves the base directory, and a
    failed pull removes what is there. *)
Definition etc : FS := disk (list_to_map [(["etc"], Dir); (["etc"; "passwd"], File (text "root"))]).
Example tag_escapes :
  SnapshotPath (store ∅) "web" "../../etc" = "/etc" /\
  exists s' f', PullSnapshot (Some (answer_of server "web" "v2")) (length (enc_header (sent_header server "web" "v2"))) "web" "../../etc"
    (store ∅, etc) = (Err (ErrReceive 1 ErrCreate), (s', f')) /\ fs_tree f' !! ["etc"; "passwd"] = None.
Proof. split; [vm_compute; reflexivity|]. eexists _, _. split; vm_compute; reflexivity. Qed.

End TransferDemo.
