(* ===== verification/Runtime.v ===== *)
(** * Container runtime: interface and health checks ([runtime/runtime.go],
    [runtime/healthcheck.go], [runtime/mock/runtime.go])

    The interface [Runtime] through which the node runs containers, its
    functional options, the checker that probes a container, and the in-memory
    implementation.  An operation of the interface takes whether its context
    is done, and changes the state of the implementation.  [Logs] is used by
    no other component and is not part of the class. *)

From stdpp Require Import pretty.
From S2P Require Import Prelude Float64.
Local Open Scope string_scope.
Local Open Scope list_scope.
Local Open Scope Z_scope.

Module runtime.

(** ** Data *)

Abbreviation ContainerStatus := string (only parsing).
Definition containerStatusCreated : ContainerStatus := "created".
Definition containerStatusRunning : ContainerStatus := "running".
Definition containerStatusStopped : ContainerStatus := "stopped".
Definition containerStatusCheckpoint : ContainerStatus := "checkpointed".
Definition containerStatusFailed : ContainerStatus := "failed".
Definition containerStatusUnknown : ContainerStatus := "unknown".

Definition networkModeBridge : string := "bridge".
Definition networkModeHost : string := "host".
Definition healthCheckHTTP : string := "http".
Definition healthCheckTCP : string := "tcp".

Record PortMapping := { p_Name : string; p_ContainerPort : Z; p_HostPort : Z; p_Protocol : string }.

Record ResourceLimits := { rl_CPUCores : f64; rl_CPUCoresMax : f64; rl_MemoryMB : Z; rl_MemoryMBMax : Z }.
Definition no_limits : ResourceLimits :=
  {| rl_CPUCores := f64_zero false; rl_CPUCoresMax := f64_zero false; rl_MemoryMB := 0; rl_MemoryMBMax := 0 |}.

Definition EffectiveCPUMax (r : ResourceLimits) : f64 :=
  if f64_gt (rl_CPUCoresMax r) (f64_zero false) then rl_CPUCoresMax r else rl_CPUCores r.
Definition EffectiveMemoryMax (r : ResourceLimits) : Z :=
  if 0 <? rl_MemoryMBMax r then rl_MemoryMBMax r else rl_MemoryMB r.

Record HealthCheck := {
  h_Type : string; h_Path : string; h_Port : Z; h_Interval : Duration; h_Timeout : Duration; h_Retries : Z;
  h_InitialDelay : Duration
}.

Record Stats := { st_CPUPercent : f64; st_MemoryMB : Z; st_MemoryMax : Z; st_NetworkRx : Z; st_NetworkTx : Z; st_DiskRead : Z; st_DiskWrite : Z }.

Record LogRetention := { l_MaxFileSizeMB : Z; l_MaxFiles : Z }.

Record ContainerInfo := {
  ci_ID : string; ci_Name : string; ci_Image : string;
  ci_Status : ContainerStatus; ci_CreatedAt : Time; ci_StartedAt : Time; ci_FinishedAt : Time; ci_ExitCode : Z; ci_Pid : Z; ci_RestartCount : Z;
  ci_IP : string; ci_Ports : list PortMapping; ci_Hostname : string; ci_DNS : list string;
  ci_CPULimit : f64; ci_MemoryLimit : Z;
  ci_Labels : gmap string string; ci_Env : gmap string string
}.

(** ** Functional options *)

Record PullConfig := { pc_Username : string; pc_Password : string; pc_ForcePull : bool }.
Definition PullOption : Type := PullConfig -> PullConfig.
Definition WithRegistryAuth (username password : string) : PullOption :=
  fun c => {| pc_Username := username; pc_Password := password; pc_ForcePull := pc_ForcePull c |}.
Definition WithForcePull : PullOption :=
  fun c => {| pc_Username := pc_Username c; pc_Password := pc_Password c; pc_ForcePull := true |}.
Definition ApplyPullOptions (opts : list PullOption) : PullConfig :=
  fold_left (fun c opt => opt c) opts {| pc_Username := ""; pc_Password := ""; pc_ForcePull := false |}.

Record CreateConfig := {
  cc_NetworkMode : string; cc_Ports : list PortMapping; cc_Resources : ResourceLimits; cc_Env : gmap string string;
  cc_Labels : gmap string string; cc_WorkingDir : string; cc_Command : list string; cc_LogRetention : LogRetention
}.
Definition CreateOption : Type := CreateConfig -> CreateConfig.
Definition WithNetworkMode (mode : string) : CreateOption := fun c =>
  {| cc_NetworkMode := mode; cc_Ports := cc_Ports c; cc_Resources := cc_Resources c; cc_Env := cc_Env c; cc_Labels := cc_Labels c;
     cc_WorkingDir := cc_WorkingDir c; cc_Command := cc_Command c; cc_LogRetention := cc_LogRetention c |}.
Definition WithPortMappings (ports : list PortMapping) : CreateOption := fun c =>
  {| cc_NetworkMode := cc_NetworkMode c; cc_Ports := ports; cc_Resources := cc_Resources c; cc_Env := cc_Env c; cc_Labels := cc_Labels c;
     cc_WorkingDir := cc_WorkingDir c; cc_Command := cc_Command c; cc_LogRetention := cc_LogRetention c |}.
Definition WithResourceLimits (limits : ResourceLimits) : CreateOption := fun c =>
  {| cc_NetworkMode := cc_NetworkMode c; cc_Ports := cc_Ports c; cc_Resources := limits; cc_Env := cc_Env c; cc_Labels := cc_Labels c;
     cc_WorkingDir := cc_WorkingDir c; cc_Command := cc_Command c; cc_LogRetention := cc_LogRetention c |}.
Definition WithEnv (env : gmap string string) : CreateOption := fun c =>
  {| cc_NetworkMode := cc_NetworkMode c; cc_Ports := cc_Ports c; cc_Resources := cc_Resources c; cc_Env := env; cc_Labels := cc_Labels c;
     cc_WorkingDir := cc_WorkingDir c; cc_Command := cc_Command c; cc_LogRetention := cc_LogRetention c |}.
Definition WithLabels (labels : gmap string string) : CreateOption := fun c =>
  {| cc_NetworkMode := cc_NetworkMode c; cc_Ports := cc_Ports c; cc_Resources := cc_Resources c; cc_Env := cc_Env c; cc_Labels := labels;
     cc_WorkingDir := cc_WorkingDir c; cc_Command := cc_Command c; cc_LogRetention := cc_LogRetention c |}.
Definition WithWorkingDir (dir : string) : CreateOption := fun c =>
  {| cc_NetworkMode := cc_NetworkMode c; cc_Ports := cc_Ports c; cc_Resources := cc_Resources c; cc_Env := cc_Env c; cc_Labels := cc_Labels c;
     cc_WorkingDir := dir; cc_Command := cc_Command c; cc_LogRetention := cc_LogRetention c |}.
Definition WithCommand (cmd : list string) : CreateOption := fun c =>
  {| cc_NetworkMode := cc_NetworkMode c; cc_Ports := cc_Ports c; cc_Resources := cc_Resources c; cc_Env := cc_Env c; cc_Labels := cc_Labels c;
     cc_WorkingDir := cc_WorkingDir c; cc_Command := cmd; cc_LogRetention := cc_LogRetention c |}.
Definition WithLogRetention (retention : LogRetention) : CreateOption := fun c =>
  {| cc_NetworkMode := cc_NetworkMode c; cc_Ports := cc_Ports c; cc_Resources := cc_Resources c; cc_Env := cc_Env c; cc_Labels := cc_Labels c;
     cc_WorkingDir := cc_WorkingDir c; cc_Command := cc_Command c; cc_LogRetention := retention |}.
Definition default_create : CreateConfig :=
  {| cc_NetworkMode := networkModeBridge; cc_Ports := []; cc_Resources := no_limits; cc_Env := ∅; cc_Labels := ∅;
     cc_WorkingDir := ""; cc_Command := []; cc_LogRetention := {| l_MaxFileSizeMB := 10; l_MaxFiles := 10 |} |}.
Definition ApplyCreateOptions (opts : list CreateOption) : CreateConfig := fold_left (fun c opt => opt c) opts default_create.

Record StopConfig := { sc_GracePeriod : Duration }.
Definition StopOption : Type := StopConfig -> StopConfig.
Definition WithGracePeriod (d : Duration) : StopOption := fun _ => {| sc_GracePeriod := d |}.
Definition ApplyStopOptions (opts : list StopOption) : StopConfig :=
  fold_left (fun c opt => opt c) opts {| sc_GracePeriod := 10 * second |}.

Record RestoreConfig := { rc_NetworkMode : string; rc_Ports : list PortMapping; rc_Env : gmap string string }.
Definition RestoreOption : Type := RestoreConfig -> RestoreConfig.
Definition WithRestoreNetworkMode (mode : string) : RestoreOption :=
  fun c => {| rc_NetworkMode := mode; rc_Ports := rc_Ports c; rc_Env := rc_Env c |}.
Definition WithRestorePortMappings (ports : list PortMapping) : RestoreOption :=
  fun c => {| rc_NetworkMode := rc_NetworkMode c; rc_Ports := ports; rc_Env := rc_Env c |}.
Definition WithRestoreEnv (env : gmap string string) : RestoreOption :=
  fun c => {| rc_NetworkMode := rc_NetworkMode c; rc_Ports := rc_Ports c; rc_Env := env |}.
Definition ApplyRestoreOptions (opts : list RestoreOption) : RestoreConfig :=
  fold_left (fun c opt => opt c) opts {| rc_NetworkMode := ""; rc_Ports := []; rc_Env := ∅ |}.

(** ** The interface *)

(** The text of an error. *)
Abbreviation RtError := string (only parsing).

(** The first argument of an operation: is its context done? *)
Class Runtime := {
  RT : Type;
  Pull : bool -> string -> list PullOption -> ST RT (result RtError unit);
  Create : bool -> string -> string -> list CreateOption -> ST RT (result RtError unit);
  Start : bool -> string -> ST RT (result RtError unit);
  Stop : bool -> string -> list StopOption -> ST RT (result RtError unit);
  Remove : bool -> string -> ST RT (result RtError unit);
  Checkpoint : bool -> string -> string -> ST RT (result RtError unit);
  Restore : bool -> string -> string -> list RestoreOption -> ST RT (result RtError unit);
  OpenStats : bool -> string -> ST RT (result RtError unit);   (** the samples come later *)
  Inspect : bool -> string -> ST RT (result RtError ContainerInfo)
}.

(** What the interface promises: an operation on one container leaves the
    others alone; a container that was started and has not stopped since is
    running; a removed container is gone. *)
Class RuntimeLaws (R : Runtime) := {
  status : RT -> string -> option ContainerStatus;     (** [None]: no such container *)
  Inspect_status : forall d id w info, fst (Inspect d id w) = Ok info -> status w id = Some (ci_Status info);
  Inspect_frame : forall d id w x, status (snd (Inspect d id w)) x = status w x;
  OpenStats_frame : forall d id w x, status (snd (OpenStats d id w)) x = status w x;
  Pull_frame : forall d image opts w x, status (snd (Pull d image opts w)) x = status w x;
  Create_frame : forall d id image opts w x, x <> id -> status (snd (Create d id image opts w)) x = status w x;
  Create_error : forall d id image opts w e x, fst (Create d id image opts w) = Err e -> status (snd (Create d id image opts w)) x = status w x;
  Create_ok : forall d id image opts w, fst (Create d id image opts w) = Ok tt ->
    status w id = None /\ is_Some (status (snd (Create d id image opts w)) id);
  Start_frame : forall d id w x, x <> id -> status (snd (Start d id w)) x = status w x;
  Start_ok : forall d id w, fst (Start d id w) = Ok tt -> is_Some (status w id) /\ status (snd (Start d id w)) id = Some containerStatusRunning;
  Stop_frame : forall d id opts w x, x <> id -> status (snd (Stop d id opts w)) x = status w x;
  Stop_missing : forall d id opts w, status w id = None ->
    (exists e, fst (Stop d id opts w) = Err e) /\ status (snd (Stop d id opts w)) id = None;
  Remove_frame : forall d id w x, x <> id -> status (snd (Remove d id w)) x = status w x;
  Remove_ok : forall d id w, fst (Remove d id w) = Ok tt -> status (snd (Remove d id w)) id = None;
  Remove_missing : forall d id w, status w id = None -> status (snd (Remove d id w)) id = None;
  Checkpoint_frame : forall d id path w x, x <> id -> status (snd (Checkpoint d id path w)) x = status w x;
  Restore_frame : forall d id path opts w x, x <> id -> status (snd (Restore d id path opts w)) x = status w x;
  Restore_ok : forall d id path opts w, fst (Restore d id path opts w) = Ok tt ->
    status (snd (Restore d id path opts w)) id = Some containerStatusRunning
}.

(** An implementation that gives up when its context is done. *)
Class HonoursContext (R : Runtime) := {
  Inspect_done : forall id w, exists e, fst (Inspect true id w) = Err e
}.

(** ** Health checks: [healthcheck.go] *)

Section HealthChecker.

(** A probe is a request the network answers: the status code of an HTTP
    response, or whether a connection was made. *)
Inductive Probe := ProbeHTTP (url : string) | ProbeTCP (target : string) | ProbeUnknown.
Inductive Answer := Response (code : Z) | Connected | NoAnswer.

Definition probe_of (config : HealthCheck) (addr : string) : Probe :=
  if h_Type config =s healthCheckHTTP then ProbeHTTP ("http://" +:+ addr +:+ ":" +:+ pretty (h_Port config) +:+ h_Path config)
  else if h_Type config =s healthCheckTCP then ProbeTCP (addr +:+ ":" +:+ pretty (h_Port config))
  else ProbeUnknown.

Definition probe (config : HealthCheck) (addr : string) (ans : Answer) : bool :=
  match probe_of config addr, ans with
  | ProbeHTTP _, Response code => (200 <=? code) && (code <? 300)
  | ProbeTCP _, Connected => true
  | _, _ => false
  end.

(** One turn of the loop of [run]: [inl] is the new count of consecutive
    failures, [inr] the end of the loop after [onUnhealthy]. *)
Definition tick_probe (config : HealthCheck) (healthy : bool) (consecutiveFailures : Z) : Z + unit :=
  if healthy then inl 0
  else let n := consecutiveFailures + 1 in if h_Retries config <=? n then inr tt else inl n.

(** The loop over the results of the probes; the number of probes after which
    [onUnhealthy] is called. *)
Fixpoint run (config : HealthCheck) (consecutiveFailures : Z) (probes : list bool) : option nat :=
  match probes with
  | [] => None
  | p :: probes =>
      match tick_probe config p consecutiveFailures with
      | inr _ => Some 1%nat
      | inl n => S <$> run config n probes
      end
  end.

End HealthChecker.

(** *** When a container is declared unhealthy *)

(** The last [k] of the first [n] probes failed. *)
Definition failed_run (k n : nat) (probes : list bool) : Prop :=
  (k <= n <= length probes)%nat /\ forall i, (n - k <= i < n)%nat -> probes !! i = Some false.

Definition needed (config : HealthCheck) : nat := Z.to_nat (Z.max 1 (h_Retries config)).

(** The failures at the end of some probes. *)
Definition streak (count : Z) (probes : list bool) : Z := fold_left (fun n p => if p : bool then 0 else n + 1) probes count.

Lemma streak_failed probes K :
  Z.of_nat K <= streak 0 probes <-> failed_run K (length probes) probes.
Proof.
  revert K. induction probes as [|p l IH] using rev_ind; intros K.
  - unfold streak, failed_run. cbn. split; [intros; split; [lia|intros; lia]|intros [? _]; lia].
  - unfold streak. rewrite fold_left_app. cbn [fold_left]. fold (streak 0 l). unfold failed_run. rewrite length_app. cbn [length].
    assert (Hlast : (l ++ [p]) !! length l = Some p) by (rewrite lookup_app_r, Nat.sub_diag by lia; done).
    destruct p.
    + split; [intros; split; [lia|intros; lia]|]. intros [Hk Hall]. destruct K; [lia|].
      specialize (Hall (length l) ltac:(lia)). congruence.
    + destruct K as [|K]; [split; [intros _; split; [lia|intros; lia]|intros _]; unfold streak|].
      { assert (H0 : forall m c, 0 <= c -> 0 <= fold_left (fun n p => if p : bool then 0 else n + 1) m c).
        { induction m as [|[] m IHm]; intros c Hc; cbn; [done|by apply IHm|apply IHm; lia]. }
        specialize (H0 l 0). lia. }
      transitivity (Z.of_nat K <= streak 0 l); [lia|]. rewrite IH. unfold failed_run. split; intros [Hk Hall]; (split; [lia|]); intros i Hi.
      * destruct (decide (i = length l)) as [->|]; [done|]. rewrite lookup_app_l by lia. apply Hall. lia.
      * specialize (Hall i ltac:(lia)). rewrite lookup_app_l in Hall by lia. done.
Qed.

Lemma streak_cons c p l : streak c (p :: l) = streak (if p then 0 else c + 1) l.
Proof. done. Qed.
Lemma streak_nil c : streak c [] = c.
Proof. done. Qed.

(** [n] is the first length at which the streak reaches [K]. *)
Definition first_reach (K count : Z) (probes : list bool) (n : nat) : Prop :=
  (1 <= n <= length probes)%nat /\ K <= streak count (take n probes) /\
  forall m, (1 <= m < n)%nat -> streak count (take m probes) < K.

Lemma first_reach_cons K c (p : bool) l n : (if p then 0 else c + 1) < K ->
  first_reach K c (p :: l) (S n) <-> first_reach K (if p then 0 else c + 1) l n.
Proof.
  intros Hlt. unfold first_reach. cbn [take length]. rewrite streak_cons. split; intros (H1 & H2 & H3); (split; [|split; [done|]]).
  - destruct n; [cbn [take] in H2; rewrite streak_nil in H2|]; lia.
  - intros m Hm. apply (H3 (S m)). lia.
  - lia.
  - intros [|m] Hm; [lia|]. cbn [take]. rewrite streak_cons. destruct m as [|m]; [cbn [take]; by rewrite streak_nil|]. apply H3. lia.
Qed.

Lemma run_streak config count probes n : 0 <= count ->
  run config count probes = Some n <-> first_reach (Z.max 1 (h_Retries config)) count probes n.
Proof.
  revert count n. induction probes as [|p l IH]; intros count n Hc; cbn [run].
  - split; [done|]. intros [? _]. cbn in *. lia.
  - assert (Hgo : forall c', c' = (if p then 0 else count + 1) -> c' < Z.max 1 (h_Retries config) ->
      S <$> run config c' l = Some n <-> first_reach (Z.max 1 (h_Retries config)) count (p :: l) n).
    { intros c' -> Hlt. destruct n as [|n]; [split; [by destruct (run _ _ _)|intros [? _]; lia]|].
      rewrite first_reach_cons by done. rewrite <- IH by (destruct p; lia). destruct (run _ _ _); naive_solver. }
    destruct p; cbn [tick_probe]; [apply Hgo; lia|].
    destruct (Z.leb_spec (h_Retries config) (count + 1)) as [Hle|Hgt]; [|apply Hgo; lia].
    unfold first_reach. split; [intros [= <-]; cbn [take length]; rewrite streak_cons, streak_nil; split_and!; lia|]. intros (H1 & H2 & H3).
    destruct (decide (n = 1%nat)) as [->|]; [done|]. specialize (H3 1%nat ltac:(lia)).
    cbn [take] in H3. rewrite streak_cons, streak_nil in H3. lia.
Qed.

Lemma failed_run_take k n probes : (n <= length probes)%nat -> failed_run k n probes <-> failed_run k (length (take n probes)) (take n probes).
Proof.
  intros Hn. unfold failed_run. rewrite length_take. replace (n `min` length probes)%nat with n by lia.
  split; intros [H1 H2]; (split; [lia|]); intros i Hi.
  - rewrite lookup_take_lt by lia. by apply H2.
  - specialize (H2 i Hi). by rewrite lookup_take_lt in H2 by lia.
Qed.

(** The health checker is exact.  Over any sequence of probe
    results, [onUnhealthy] fires at the first probe that completes [Retries]
    consecutive failures (one, when [Retries] is not positive), and never when
    there is no such run. *)
Theorem health_check_exact config probes n :
  run config 0 probes = Some n <->
  failed_run (needed config) n probes /\ forall m, (m < n)%nat -> ~ failed_run (needed config) m probes.
Proof.
  rewrite run_streak by lia. assert (Hneed : Z.of_nat (needed config) = Z.max 1 (h_Retries config)) by (unfold needed; lia).
  assert (Heq : forall m, (m <= length probes)%nat -> Z.max 1 (h_Retries config) <= streak 0 (take m probes) <-> failed_run (needed config) m probes).
  { intros m Hm. rewrite <- Hneed, streak_failed. by rewrite <- failed_run_take. }
  split.
  - intros (H1 & H2 & H3). split; [by apply Heq; [lia|]|]. intros m Hm Hf.
    destruct (decide (m = 0%nat)) as [->|]; [destruct Hf; lia|]. specialize (H3 m ltac:(lia)). apply Heq in Hf; lia.
  - intros [Hf Hno]. assert (Hn : (n <= length probes)%nat) by (destruct Hf; lia).
    split; [destruct Hf; lia|]. split; [by apply Heq|]. intros m Hm. apply Z.nle_gt. intros Hle. apply (Hno m); [lia|]. apply Heq; [lia|done].
Qed.

(** A checker with three retries: two failures and a success reset it. *)
Definition three_retries : HealthCheck :=
  {| h_Type := healthCheckHTTP; h_Path := "/health"; h_Port := 8080; h_Interval := 10 * second; h_Timeout := 3 * second;
     h_Retries := 3; h_InitialDelay := 5 * second |}.
Example third_failure_fires :
  run three_retries 0 [false; false; true; false; false; false; true] = Some 6%nat /\
  probe_of three_retries "10.0.0.7" = ProbeHTTP "http://10.0.0.7:8080/health".
Proof. split; vm_compute; reflexivity. Qed.

End runtime.

(** ** The in-memory implementation: [mock/runtime.go] *)

Module mock.
Import runtime.

Record container := {
  k_id : string; k_image : string; k_config : option CreateConfig; k_status : ContainerStatus;
  k_createdAt : Time; k_startedAt : Time; k_exitCode : Z; k_checkpoints : gmap string bool
}.

Record Event := { ev_Method : string; ev_ID : string; ev_Image : string; ev_Path : string; ev_At : Time }.

Record Mock := {
  containers : gmap string container; pulled : gmap string bool;
  pullErr : option string; createErr : option string; startErr : option string; stopErr : option string;
  checkpointErr : option string; restoreErr : option string; removeErr : option string;
  Events : list Event;
  m_clock : nat -> Time; m_ticks : nat          (** [time.Now] *)
}.

Definition Option_ : Type := Mock -> Mock.
Definition WithPullError (e : string) : Option_ := fun m =>
  {| containers := containers m; pulled := pulled m; pullErr := Some e; createErr := createErr m; startErr := startErr m; stopErr := stopErr m;
     checkpointErr := checkpointErr m; restoreErr := restoreErr m; removeErr := removeErr m; Events := Events m; m_clock := m_clock m; m_ticks := m_ticks m |}.
Definition WithCreateError (e : string) : Option_ := fun m =>
  {| containers := containers m; pulled := pulled m; pullErr := pullErr m; createErr := Some e; startErr := startErr m; stopErr := stopErr m;
     checkpointErr := checkpointErr m; restoreErr := restoreErr m; removeErr := removeErr m; Events := Events m; m_clock := m_clock m; m_ticks := m_ticks m |}.
Definition WithStartError (e : string) : Option_ := fun m =>
  {| containers := containers m; pulled := pulled m; pullErr := pullErr m; createErr := createErr m; startErr := Some e; stopErr := stopErr m;
     checkpointErr := checkpointErr m; restoreErr := restoreErr m; removeErr := removeErr m; Events := Events m; m_clock := m_clock m; m_ticks := m_ticks m |}.
Definition WithStopError (e : string) : Option_ := fun m =>
  {| containers := containers m; pulled := pulled m; pullErr := pullErr m; createErr := createErr m; startErr := startErr m; stopErr := Some e;
     checkpointErr := checkpointErr m; restoreErr := restoreErr m; removeErr := removeErr m; Events := Events m; m_clock := m_clock m; m_ticks := m_ticks m |}.
Definition WithCheckpointError (e : string) : Option_ := fun m =>
  {| containers := containers m; pulled := pulled m; pullErr := pullErr m; createErr := createErr m; startErr := startErr m; stopErr := stopErr m;
     checkpointErr := Some e; restoreErr := restoreErr m; removeErr := removeErr m; Events := Events m; m_clock := m_clock m; m_ticks := m_ticks m |}.
Definition WithRestoreError (e : string) : Option_ := fun m =>
  {| containers := containers m; pulled := pulled m; pullErr := pullErr m; createErr := createErr m; startErr := startErr m; stopErr := stopErr m;
     checkpointErr := checkpointErr m; restoreErr := Some e; removeErr := removeErr m; Events := Events m; m_clock := m_clock m; m_ticks := m_ticks m |}.
Definition New (clock : nat -> Time) (opts : list Option_) : Mock :=
  fold_left (fun m opt => opt m) opts
    {| containers := ∅; pulled := ∅; pullErr := None; createErr := None; startErr := None; stopErr := None; checkpointErr := None;
       restoreErr := None; removeErr := None; Events := []; m_clock := clock; m_ticks := 0 |}.

Definition set_containers (cs : gmap string container) (m : Mock) : Mock :=
  {| containers := cs; pulled := pulled m; pullErr := pullErr m; createErr := createErr m; startErr := startErr m; stopErr := stopErr m;
     checkpointErr := checkpointErr m; restoreErr := restoreErr m; removeErr := removeErr m; Events := Events m; m_clock := m_clock m; m_ticks := m_ticks m |}.
Definition set_pulled (p : gmap string bool) (m : Mock) : Mock :=
  {| containers := containers m; pulled := p; pullErr := pullErr m; createErr := createErr m; startErr := startErr m; stopErr := stopErr m;
     checkpointErr := checkpointErr m; restoreErr := restoreErr m; removeErr := removeErr m; Events := Events m; m_clock := m_clock m; m_ticks := m_ticks m |}.
Definition now : ST Mock Time := fun m => (m_clock m (m_ticks m),
  {| containers := containers m; pulled := pulled m; pullErr := pullErr m; createErr := createErr m; startErr := startErr m; stopErr := stopErr m;
     checkpointErr := checkpointErr m; restoreErr := restoreErr m; removeErr := removeErr m; Events := Events m; m_clock := m_clock m; m_ticks := S (m_ticks m) |}).

Definition record (method id image path : string) (m : Mock) : Mock :=
  let '(t, m) := now m in
  {| containers := containers m; pulled := pulled m; pullErr := pullErr m; createErr := createErr m; startErr := startErr m; stopErr := stopErr m;
     checkpointErr := checkpointErr m; restoreErr := restoreErr m; removeErr := removeErr m;
     Events := Events m ++ [{| ev_Method := method; ev_ID := id; ev_Image := image; ev_Path := path; ev_At := t |}];
     m_clock := m_clock m; m_ticks := m_ticks m |}.

Definition not_found (id : string) : string := "mock: container " +:+ id +:+ " not found".
Definition set_status (st : ContainerStatus) (started : option Time) (code : option Z) (c : container) : container :=
  {| k_id := k_id c; k_image := k_image c; k_config := k_config c; k_status := st; k_createdAt := k_createdAt c;
     k_startedAt := default (k_startedAt c) started; k_exitCode := default (k_exitCode c) code; k_checkpoints := k_checkpoints c |}.

Definition Pull (_ : bool) (image : string) (_ : list PullOption) : ST Mock (result string unit) := fun m =>
  let m := record "Pull" "" image "" m in
  match pullErr m with Some e => (Err e, m) | None => (Ok tt, set_pulled (<[image := true]> (pulled m)) m) end.

Definition Create (_ : bool) (id image : string) (opts : list CreateOption) : ST Mock (result string unit) := fun m =>
  let m := record "Create" id image "" m in
  match createErr m with
  | Some e => (Err e, m)
  | None =>
      match containers m !! id with
      | Some _ => (Err ("mock: container " +:+ id +:+ " already exists"), m)
      | None =>
          let '(t, m) := now m in
          (Ok tt, set_containers (<[id := {| k_id := id; k_image := image; k_config := Some (ApplyCreateOptions opts);
             k_status := containerStatusCreated; k_createdAt := t; k_startedAt := zero_time; k_exitCode := 0; k_checkpoints := ∅ |}]> (containers m)) m)
      end
  end.

Definition Start (_ : bool) (id : string) : ST Mock (result string unit) := fun m =>
  let m := record "Start" id "" "" m in
  match startErr m with
  | Some e => (Err e, m)
  | None =>
      match containers m !! id with
      | None => (Err (not_found id), m)
      | Some c => let '(t, m) := now m in
                  (Ok tt, set_containers (<[id := set_status containerStatusRunning (Some t) None c]> (containers m)) m)
      end
  end.

Definition Stop (_ : bool) (id : string) (_ : list StopOption) : ST Mock (result string unit) := fun m =>
  let m := record "Stop" id "" "" m in
  match stopErr m with
  | Some e => (Err e, m)
  | None =>
      match containers m !! id with
      | None => (Err (not_found id), m)
      | Some c => (Ok tt, set_containers (<[id := set_status containerStatusStopped None (Some 0) c]> (containers m)) m)
      end
  end.

Definition Remove (_ : bool) (id : string) : ST Mock (result string unit) := fun m =>
  let m := record "Remove" id "" "" m in
  match removeErr m with
  | Some e => (Err e, m)
  | None =>
      match containers m !! id with
      | None => (Err (not_found id), m)
      | Some _ => (Ok tt, set_containers (delete id (containers m)) m)
      end
  end.

Definition Checkpoint (_ : bool) (id snapshotPath : string) : ST Mock (result string unit) := fun m =>
  let m := record "Checkpoint" id "" snapshotPath m in
  match checkpointErr m with
  | Some e => (Err e, m)
  | None =>
      match containers m !! id with
      | None => (Err (not_found id), m)
      | Some c =>
          if k_status c <>s containerStatusRunning
          then (Err ("mock: container " +:+ id +:+ " is not running (status: " +:+ k_status c +:+ ")"), m)
          else (Ok tt, set_containers (<[id := {| k_id := k_id c; k_image := k_image c; k_config := k_config c;
                  k_status := containerStatusCheckpoint; k_createdAt := k_createdAt c; k_startedAt := k_startedAt c; k_exitCode := k_exitCode c;
                  k_checkpoints := <[snapshotPath := true]> (k_checkpoints c) |}]> (containers m)) m)
      end
  end.

(** Any path is valid. *)
Definition Restore (_ : bool) (id snapshotPath : string) (_ : list RestoreOption) : ST Mock (result string unit) := fun m =>
  let m := record "Restore" id "" snapshotPath m in
  match restoreErr m with
  | Some e => (Err e, m)
  | None =>
      let '(t1, m) := now m in let '(t2, m) := now m in
      (Ok tt, set_containers (<[id := {| k_id := id; k_image := ""; k_config := None; k_status := containerStatusRunning;
         k_createdAt := t1; k_startedAt := t2; k_exitCode := 0; k_checkpoints := ∅ |}]> (containers m)) m)
  end.

Definition OpenStats (_ : bool) (id : string) : ST Mock (result string unit) := fun m =>
  let m := record "Stats" id "" "" m in
  (match containers m !! id with None => Err (not_found id) | Some _ => Ok tt end, m).

Definition info_of (c : container) : ContainerInfo :=
  {| ci_ID := k_id c; ci_Name := ""; ci_Image := k_image c; ci_Status := k_status c; ci_CreatedAt := k_createdAt c; ci_StartedAt := k_startedAt c;
     ci_FinishedAt := zero_time; ci_ExitCode := k_exitCode c; ci_Pid := 0; ci_RestartCount := 0; ci_IP := ""; ci_Ports := []; ci_Hostname := "";
     ci_DNS := []; ci_CPULimit := f64_zero false; ci_MemoryLimit := 0; ci_Labels := ∅; ci_Env := ∅ |}.
Definition Inspect (_ : bool) (id : string) : ST Mock (result string ContainerInfo) := fun m =>
  let m := record "Inspect" id "" "" m in
  (match containers m !! id with None => Err (not_found id) | Some c => Ok (info_of c) end, m).

(** The one line that [Logs] sends. *)
Definition Logs (id : string) : ST Mock (result string (Time * string * string)) := fun m =>
  let m := record "Logs" id "" "" m in
  match containers m !! id with
  | None => (Err (not_found id), m)
  | Some _ => let '(t, m) := now m in (Ok (t, "stdout", "mock log line"), m)
  end.

Definition ContainerCount (m : Mock) : Z := Z.of_nat (size (containers m)).
Definition ContainerStatus_ (id : string) (m : Mock) : ContainerStatus :=
  match containers m !! id with None => containerStatusUnknown | Some c => k_status c end.
Definition HasPulled (image : string) (m : Mock) : bool := default false (pulled m !! image).

Definition SimulateCrash (id : string) (exitCode : Z) : ST Mock (result string unit) := fun m =>
  match containers m !! id with
  | None => (Err (not_found id), m)
  | Some c => (Ok tt, set_containers (<[id := set_status containerStatusFailed None (Some exitCode) c]> (containers m)) m)
  end.

#[export] Instance mock_runtime : Runtime := {|
  RT := Mock; runtime.Pull := Pull; runtime.Create := Create; runtime.Start := Start; runtime.Stop := Stop; runtime.Remove := Remove;
  runtime.Checkpoint := Checkpoint; runtime.Restore := Restore; runtime.OpenStats := OpenStats; runtime.Inspect := Inspect |}.

Definition mock_status (m : Mock) (id : string) : option ContainerStatus := k_status <$> containers m !! id.

Ltac mock_cases :=
  intros; unfold mock_status in *; cbn in *; unfold Pull, Create, Start, Stop, Remove, Checkpoint, Restore, OpenStats, Inspect in *; cbn in *; repeat (case_match; cbn in *; simplify_eq);
  rewrite ?lookup_insert_eq, ?lookup_insert_ne, ?lookup_delete_eq, ?lookup_delete_ne in * by done; simplify_eq; cbn in *; eauto.

(** The implementation keeps the promises of the interface. *)
#[export, refine] Instance mock_laws : RuntimeLaws mock_runtime := {| status := mock_status |}.
Proof. all: mock_cases; simplify_option_eq; eauto. Defined.

End mock.
