(* ===== verification/RuntimeHandler.v ===== *)
(** * Runtime handler ([runtime/handler.go])

    What turns a won election into a container: the handler restores or cold
    starts the container, reports the outcome, and watches it.  The containers
    are behind the interface [Runtime]; what the handler uses of the rest of
    the node (specifications, snapshots, lifecycle, statistics) is the
    interface [Collaborators].

    The goroutines of the handler are entries of its state: a watcher per
    started container with its health checker and its statistics reader, and a
    capture per cold start, in two halves around the restart of the container.
    Each method and each turn of a loop is one step; steps of all goroutines
    interleave, the containers change on their own in between ([SContainers]),
    and a turn may still be taken after its context is done, since a select
    with two ready cases takes either. *)

From stdpp Require Import pretty.
From S2P Require Import Prelude Float64 Runtime.
Import runtime.
Local Open Scope string_scope.
Local Open Scope list_scope.
Local Open Scope Z_scope.

(** ** Data *)

Record ElectionWon := { ew_CapsuleID : string; ew_ReplicaID : string; ew_ClusterPath : string; ew_Score : f64; ew_NodeID : string }.

(** [CapsuleSpec] of the package [runtime]. *)
Record RtSpec := {
  x_Name : string; x_Image : string; x_ImageDigest : string; x_Env : gmap string string; x_NetworkMode : string;
  x_Ports : list PortMapping; x_Resources : ResourceLimits; x_Command : list string; x_LogRetention : LogRetention;
  x_SnapshotTTL : Duration; x_MaxSnapshots : Z; x_HealthCheck : option HealthCheck;
  x_RestartLimit : Z; x_MaxNodeAttempts : Z; x_GracefulTimeout : Duration;
  x_RegistryUsername : string; x_RegistryPassword : string
}.

(** [CapsuleStore], [SnapshotStore], [SnapshotPuller], [LifecycleNotifier],
    [SnapshotBroadcaster], [StatsRegistry] and [computeFileChecksum], over one
    state; the [has_] fields say which optional ones are wired (the node wires
    a puller only together with a snapshot store). *)
Class Collaborators := {
  ENV : Type;
  has_snapshots : bool; has_puller : bool; has_broadcaster : bool; has_stats : bool;
  GetSpec : string -> ST ENV (result string RtSpec);
  HasLocal : string -> string -> ST ENV bool;
  SnapPath : ENV -> string -> string -> string;
  RecordSnapshot : string -> string -> string -> string -> Z -> Duration -> ST ENV (result string unit);
  MarkInUse : string -> string -> bool -> ST ENV (result string unit);
  TouchAccess : string -> string -> ST ENV (result string unit);
  PullSnapshot : bool -> string -> string -> ST ENV (result string string);
  BroadcastAvailable : string -> string -> string -> Z -> ST ENV (result string unit);
  fileChecksum : ENV -> string -> string * Z;
  MarkRunning : string -> ST ENV (result string unit);
  MarkFailed : string -> string -> ST ENV (result string unit);
  MarkStopped : string -> ST ENV (result string unit);
  RegisterStats : string -> nat -> ST ENV unit;      (** the watcher whose values are read *)
  UnregisterStats : string -> ST ENV unit
}.

Definition containerID (capsuleID replicaID : string) : string := "falak-" +:+ capsuleID +:+ "-" +:+ replicaID.

(** ** State *)

(** A turn of [watchContainer]: it waits for the ticker; it has seen that the
    container exited, with this code; it gives up, and is about to lock and
    remove the registration; it is about to report the failure. *)
Inductive Turn := Ticking | Inspected (code : Z) | Leaving (code : Z) | Reporting (code : Z).

(** The goroutines of [onContainerRunning] for one container. *)
Record Watcher := {
  w_cID : string; w_capsuleID : string; w_restartLimit : Z;
  w_localRestarts : Z;
  w_cancelled : bool;                                   (** [watchCancel] was called *)
  w_exited : bool;                                      (** [watchContainer] left its loop *)
  w_turn : Turn;                                        (** where it is in a turn of the loop *)
  w_checker : option (HealthCheck * string * Z);        (** its probes: address and consecutive failures *)
  w_stats : bool;                                       (** the statistics reader runs *)
  w_lastCPU : f64; w_lastMem : f64
}.

Inductive Stage := Checkpointing | Restarting (checksum : string) (size : Z).
Record Capture := { g_capsuleID : string; g_cID : string; g_tag : string; g_spec : RtSpec; g_stage : Stage }.

(** What the handler told the lifecycle. *)
Inductive Report := Running (capsuleID : string) | Failed (capsuleID reason : string) | Stopped (capsuleID : string).

Section Handler.
Context `{R : Runtime} `{C : Collaborators}.

Record Handler := {
  h_runtime : RT; h_env : ENV;
  h_running : gmap string nat;          (** container -> its watcher *)
  h_watchers : list Watcher;
  h_captures : list Capture;
  h_stopped : bool;                     (** the handler's context is done *)
  h_reports : list Report               (** every report so far *)
}.

(** [NewHandler] and [Start]. *)
Definition NewHandler (rt : RT) (env : ENV) : Handler :=
  {| h_runtime := rt; h_env := env; h_running := ∅; h_watchers := []; h_captures := []; h_stopped := false; h_reports := [] |}.

Definition set_runtime (rt : RT) (h : Handler) : Handler :=
  {| h_runtime := rt; h_env := h_env h; h_running := h_running h; h_watchers := h_watchers h; h_captures := h_captures h;
     h_stopped := h_stopped h; h_reports := h_reports h |}.
Definition set_env (env : ENV) (h : Handler) : Handler :=
  {| h_runtime := h_runtime h; h_env := env; h_running := h_running h; h_watchers := h_watchers h; h_captures := h_captures h;
     h_stopped := h_stopped h; h_reports := h_reports h |}.
Definition set_running (r : gmap string nat) (h : Handler) : Handler :=
  {| h_runtime := h_runtime h; h_env := h_env h; h_running := r; h_watchers := h_watchers h; h_captures := h_captures h;
     h_stopped := h_stopped h; h_reports := h_reports h |}.
Definition set_watchers (ws : list Watcher) (h : Handler) : Handler :=
  {| h_runtime := h_runtime h; h_env := h_env h; h_running := h_running h; h_watchers := ws; h_captures := h_captures h;
     h_stopped := h_stopped h; h_reports := h_reports h |}.
Definition set_captures (cs : list Capture) (h : Handler) : Handler :=
  {| h_runtime := h_runtime h; h_env := h_env h; h_running := h_running h; h_watchers := h_watchers h; h_captures := cs;
     h_stopped := h_stopped h; h_reports := h_reports h |}.

(** Calls of the runtime and of the collaborators. *)
Definition rt {A} (f : ST RT A) : ST Handler A := fun h => let '(a, r) := f (h_runtime h) in (a, set_runtime r h).
Definition collab {A} (f : ST ENV A) : ST Handler A := fun h => let '(a, e) := f (h_env h) in (a, set_env e h).

(** A call of the lifecycle. *)
Definition report (r : Report) (h : Handler) : Handler :=
  let f := match r with Running c => MarkRunning c | Failed c why => MarkFailed c why | Stopped c => MarkStopped c end in
  let h := snd (collab f h) in
  {| h_runtime := h_runtime h; h_env := h_env h; h_running := h_running h; h_watchers := h_watchers h; h_captures := h_captures h;
     h_stopped := h_stopped h; h_reports := h_reports h ++ [r] |}.

Definition cancel_watcher (w : Watcher) : Watcher :=
  {| w_cID := w_cID w; w_capsuleID := w_capsuleID w; w_restartLimit := w_restartLimit w; w_localRestarts := w_localRestarts w;
     w_cancelled := true; w_exited := w_exited w; w_turn := w_turn w; w_checker := w_checker w; w_stats := w_stats w; w_lastCPU := w_lastCPU w; w_lastMem := w_lastMem w |}.
Definition exit_watcher (w : Watcher) : Watcher :=
  {| w_cID := w_cID w; w_capsuleID := w_capsuleID w; w_restartLimit := w_restartLimit w; w_localRestarts := w_localRestarts w;
     w_cancelled := w_cancelled w; w_exited := true; w_turn := w_turn w; w_checker := w_checker w; w_stats := w_stats w; w_lastCPU := w_lastCPU w; w_lastMem := w_lastMem w |}.
Definition count_restart (w : Watcher) : Watcher :=
  {| w_cID := w_cID w; w_capsuleID := w_capsuleID w; w_restartLimit := w_restartLimit w; w_localRestarts := w_localRestarts w + 1;
     w_cancelled := w_cancelled w; w_exited := w_exited w; w_turn := w_turn w; w_checker := w_checker w; w_stats := w_stats w; w_lastCPU := w_lastCPU w; w_lastMem := w_lastMem w |}.
Definition set_checker (c : option (HealthCheck * string * Z)) (w : Watcher) : Watcher :=
  {| w_cID := w_cID w; w_capsuleID := w_capsuleID w; w_restartLimit := w_restartLimit w; w_localRestarts := w_localRestarts w;
     w_cancelled := w_cancelled w; w_exited := w_exited w; w_turn := w_turn w; w_checker := c; w_stats := w_stats w; w_lastCPU := w_lastCPU w; w_lastMem := w_lastMem w |}.
Definition set_stats (on : bool) (cpu mem : f64) (w : Watcher) : Watcher :=
  {| w_cID := w_cID w; w_capsuleID := w_capsuleID w; w_restartLimit := w_restartLimit w; w_localRestarts := w_localRestarts w;
     w_cancelled := w_cancelled w; w_exited := w_exited w; w_turn := w_turn w; w_checker := w_checker w; w_stats := on; w_lastCPU := cpu; w_lastMem := mem |}.

Definition set_turn (t : Turn) (w : Watcher) : Watcher :=
  {| w_cID := w_cID w; w_capsuleID := w_capsuleID w; w_restartLimit := w_restartLimit w; w_localRestarts := w_localRestarts w;
     w_cancelled := w_cancelled w; w_exited := w_exited w; w_turn := t; w_checker := w_checker w; w_stats := w_stats w; w_lastCPU := w_lastCPU w; w_lastMem := w_lastMem w |}.

Definition on_watcher (i : nat) (f : Watcher -> Watcher) (h : Handler) : Handler := set_watchers (alter f i (h_watchers h)) h.

(** [if cancel, ok := h.running[cID]; ok { cancel(); delete(h.running, cID) }] *)
Definition cancel_running (cID : string) (h : Handler) : Handler :=
  match h_running h !! cID with
  | Some i => set_running (delete cID (h_running h)) (on_watcher i cancel_watcher h)
  | None => h
  end.

(** The context of a watcher is done. *)
Definition ctx_done (w : Watcher) (h : Handler) : bool := w_cancelled w || h_stopped h.

(** ** Starting *)

Definition probe_address (cID : string) (mode : string) : ST Handler string := fun h =>
  if mode =s networkModeBridge then
    match rt (Inspect (h_stopped h) cID) h with
    | (Ok info, h) => ((if ci_IP info <>s "" then ci_IP info else "127.0.0.1"), h)
    | (Err _, h) => ("127.0.0.1", h)
    end
  else ("127.0.0.1", h).

Definition onContainerRunning (cID capsuleID : string) (spec : RtSpec) (h : Handler) : Handler :=
  let h := report (Running capsuleID) h in
  let i := length (h_watchers h) in
  let h := match h_running h !! cID with Some old => on_watcher old cancel_watcher h | None => h end in
  let h := set_running (<[cID := i]> (h_running h)) h in
  let '(checker, h) :=
    match x_HealthCheck spec with
    | Some hc => let '(addr, h) := probe_address cID (x_NetworkMode spec) h in (Some (hc, addr, 0), h)
    | None => (None, h)
    end in
  let '(stats, h) :=
    if has_stats then
      let '(_, h) := collab (RegisterStats capsuleID i) h in
      match rt (OpenStats (h_stopped h) cID) h with
      | (Ok _, h) => (true, h)
      | (Err _, h) => let '(_, h) := collab (UnregisterStats capsuleID) h in (false, h)
      end
    else (false, h) in
  set_watchers (h_watchers h ++ [
    {| w_cID := cID; w_capsuleID := capsuleID; w_restartLimit := x_RestartLimit spec; w_localRestarts := 0; w_cancelled := false;
       w_exited := false; w_turn := Ticking; w_checker := checker; w_stats := stats; w_lastCPU := f64_zero false; w_lastMem := f64_zero false |}]) h.

Definition create_opts (spec : RtSpec) (ports : bool) : list CreateOption :=
  [WithNetworkMode (x_NetworkMode spec)] ++ (if ports then [WithPortMappings (x_Ports spec)] else []) ++
  [WithResourceLimits (x_Resources spec); WithEnv (x_Env spec); WithLogRetention (x_LogRetention spec)] ++
  (if (0 <? length (x_Command spec))%nat then [WithCommand (x_Command spec)] else []).

Definition coldStart (cID capsuleID tag : string) (spec : RtSpec) (h : Handler) : Handler :=
  let pullOpts := if x_RegistryUsername spec <>s "" then [WithRegistryAuth (x_RegistryUsername spec) (x_RegistryPassword spec)] else [] in
  match rt (Pull (h_stopped h) (x_Image spec) pullOpts) h with
  | (Err e, h) => report (Failed capsuleID ("image pull failed: " +:+ e)) h
  | (Ok _, h) =>
  match rt (Create (h_stopped h) cID (x_Image spec) (create_opts spec true)) h with
  | (Err e, h) => report (Failed capsuleID ("create failed: " +:+ e)) h
  | (Ok _, h) =>
  match rt (Start (h_stopped h) cID) h with
  | (Err e, h) =>
      let '(_, h) := rt (Remove (h_stopped h) cID) h in
      report (Failed capsuleID ("start failed: " +:+ e)) h
  | (Ok _, h) =>
      let h := onContainerRunning cID capsuleID spec h in
      if has_snapshots
      then set_captures (h_captures h ++ [{| g_capsuleID := capsuleID; g_cID := cID; g_tag := tag; g_spec := spec; g_stage := Checkpointing |}]) h
      else h
  end end end.

Definition restoreFromSnapshot (cID capsuleID tag : string) (spec : RtSpec) (h : Handler) : Handler :=
  let snapPath := SnapPath (h_env h) capsuleID tag in
  match rt (Restore (h_stopped h) cID snapPath
    [WithRestoreNetworkMode (x_NetworkMode spec); WithRestorePortMappings (x_Ports spec); WithRestoreEnv (x_Env spec)]) h with
  | (Err _, h) => coldStart cID capsuleID tag spec h
  | (Ok _, h) =>
      let '(_, h) := collab (MarkInUse capsuleID tag true) h in
      let '(_, h) := collab (TouchAccess capsuleID tag) h in
      onContainerRunning cID capsuleID spec h
  end.

Definition spec_tag (spec : RtSpec) : string := if x_ImageDigest spec =s "" then x_Image spec else x_ImageDigest spec.

(** [HandleElectionWon] runs [startContainer] in a goroutine of its own. *)
Definition startContainer (event : ElectionWon) (h : Handler) : Handler :=
  let capsuleID := ew_CapsuleID event in
  let cID := containerID capsuleID (ew_ReplicaID event) in
  match collab (GetSpec capsuleID) h with
  | (Err e, h) => report (Failed capsuleID ("spec lookup failed: " +:+ e)) h
  | (Ok spec, h) =>
      let tag := spec_tag spec in
      let '(local, h) := if has_snapshots then collab (HasLocal capsuleID tag) h else (false, h) in
      if local : bool then restoreFromSnapshot cID capsuleID tag spec h
      else
        let '(path, h) := if has_puller then collab (PullSnapshot (h_stopped h) capsuleID tag) h else (Err "", h) in
        match path with
        | Ok path => if path <>s "" then restoreFromSnapshot cID capsuleID tag spec h else coldStart cID capsuleID tag spec h
        | Err _ => coldStart cID capsuleID tag spec h
        end
  end.

(** ** Capturing *)

(** [captureSnapshot] up to the checkpoint; it ends there on an error. *)
Definition capture_checkpoint (k : nat) (h : Handler) : Handler :=
  match h_captures h !! k with
  | Some ({| g_stage := Checkpointing |} as g) =>
      let snapPath := SnapPath (h_env h) (g_capsuleID g) (g_tag g) in
      match rt (Checkpoint (h_stopped h) (g_cID g) snapPath) h with
      | (Err _, h) => set_captures (delete k (h_captures h)) h
      | (Ok _, h) =>
          let ttl := if x_SnapshotTTL (g_spec g) =? 0 then 72 * hour else x_SnapshotTTL (g_spec g) in
          let '(checksum, size) := fileChecksum (h_env h) snapPath in
          let '(_, h) := collab (RecordSnapshot (g_capsuleID g) (g_tag g) checksum snapPath size ttl) h in
          set_captures (<[k := {| g_capsuleID := g_capsuleID g; g_cID := g_cID g; g_tag := g_tag g; g_spec := g_spec g;
                                  g_stage := Restarting checksum size |}]> (h_captures h)) h
      end
  | _ => h
  end.

(** From the restart of the container on. *)
Definition capture_restart (k : nat) (h : Handler) : Handler :=
  match h_captures h !! k with
  | Some ({| g_stage := Restarting checksum size |} as g) =>
      let h := set_captures (delete k (h_captures h)) h in
      match rt (Start (h_stopped h) (g_cID g)) h with
      | (Err e, h) => report (Failed (g_capsuleID g) ("restart after checkpoint failed: " +:+ e)) (cancel_running (g_cID g) h)
      | (Ok _, h) =>
          if has_broadcaster then snd (collab (BroadcastAvailable (g_capsuleID g) (g_tag g) checksum size) h) else h
      end
  | _ => h
  end.

(** ** Watching *)

Definition has_exited (st : ContainerStatus) : bool := (st =s containerStatusFailed) || (st =s containerStatusStopped).

Definition exit_reason (code restarts : Z) : string :=
  "container exited with code " +:+ pretty code +:+ " after " +:+ pretty restarts +:+ " local restarts".

(** [watchContainer] from one call or lock to the next: other goroutines run
    between the inspection, the restart, the removal of the registration (of
    whichever watcher it is by then) and the report. *)
Definition watch_step (i : nat) (h : Handler) : Handler :=
  match h_watchers h !! i with
  | None => h
  | Some w =>
      match w_turn w with
      | Ticking =>
          if w_exited w then h else
          match rt (Inspect (ctx_done w h) (w_cID w)) h with
          | (Err _, h) => h
          | (Ok info, h) =>
              if negb (has_exited (ci_Status info)) then h else on_watcher i (set_turn (Inspected (ci_ExitCode info))) h
          end
      | Inspected code =>
          if w_localRestarts w <? w_restartLimit w then
            match rt (Start (ctx_done w h) (w_cID w)) (on_watcher i count_restart h) with
            | (Ok _, h) => on_watcher i (set_turn Ticking) h
            | (Err _, h) => on_watcher i (set_turn (Leaving code)) h
            end
          else on_watcher i (set_turn (Leaving code)) h
      | Leaving code =>
          on_watcher i (fun w => set_turn (Reporting code) (exit_watcher w)) (set_running (delete (w_cID w) (h_running h)) h)
      | Reporting code =>
          report (Failed (w_capsuleID w) (exit_reason code (w_localRestarts w))) (on_watcher i (set_turn Ticking) h)
      end
  end.

(** A whole turn with nothing in between. *)
Definition watch_turn (i : nat) (h : Handler) : Handler := watch_step i (watch_step i (watch_step i (watch_step i h))).

(** The watcher, its checker or its reader sees that the context is done. *)
Definition watch_done (i : nat) (h : Handler) : Handler :=
  match h_watchers h !! i with
  | Some w => match w_turn w with
              | Ticking => if ctx_done w h then on_watcher i exit_watcher h else h
              | _ => h
              end
  | None => h
  end.

(** A turn of the health checker; once the context is done a probe gets no
    answer. *)
Definition health_tick (i : nat) (ans : Answer) (h : Handler) : Handler :=
  match h_watchers h !! i with
  | Some w =>
      match w_checker w with
      | Some (hc, addr, failures) =>
          let healthy := probe hc addr (if ctx_done w h then NoAnswer else ans) in
          match tick_probe hc healthy failures with
          | inl n => on_watcher i (set_checker (Some (hc, addr, n))) h
          | inr _ =>
              on_watcher i cancel_watcher
                (report (Failed (w_capsuleID w) "health check exhausted retries") (on_watcher i (set_checker None) h))
          end
      | None => h
      end
  | None => h
  end.

Definition health_done (i : nat) (h : Handler) : Handler :=
  match h_watchers h !! i with
  | Some w => if ctx_done w h then on_watcher i (set_checker None) h else h
  | None => h
  end.

(** A sample of the statistics, and the end of their channel. *)
Definition stats_sample (i : nat) (s : Stats) (h : Handler) : Handler :=
  match h_watchers h !! i with
  | Some w => if w_stats w then on_watcher i (set_stats true (st_CPUPercent s) (f64_of_Z (st_MemoryMB s))) h else h
  | None => h
  end.
Definition stats_end (i : nat) (h : Handler) : Handler :=
  match h_watchers h !! i with
  | Some w =>
      if w_stats w
      then let '(_, h) := collab (UnregisterStats (w_capsuleID w)) (on_watcher i (set_stats false (w_lastCPU w) (w_lastMem w)) h) in h
      else h
  | None => h
  end.

(** ** Updating and stopping *)

Inductive UpdateError :=
  | ErrUpPull (e : string) | ErrUpCreate (e : string) | ErrUpStart (e : string) | ErrUpNotHealthyAfterWindow | ErrUpHealthFailed | ErrUpNotHealthy.

(** What ends the wait for the new container: the probe window, or the
    context of its health check. *)
Inductive Wait := Window | CheckFailed.

Definition cleanup (cID : string) (h : Handler) : Handler :=
  let '(_, h) := rt (Stop false cID []) h in snd (rt (Remove false cID) h).

Definition new_running (cID : string) : ST Handler bool := fun h =>
  match rt (Inspect (h_stopped h) cID) h with
  | (Ok info, h) => (ci_Status info =s containerStatusRunning, h)
  | (Err _, h) => (false, h)
  end.

(** The wait for the new container. *)
Definition await_healthy (cID : string) (spec : RtSpec) (wait : Wait) : ST Handler (result UpdateError unit) := fun h =>
  match x_HealthCheck spec with
  | Some _ =>
      let '(_, h) := probe_address cID (x_NetworkMode spec) h in
      match wait with
      | CheckFailed => (Err ErrUpHealthFailed, h)
      | Window => let '(ok, h) := new_running cID h in (if ok : bool then Ok tt else Err ErrUpNotHealthyAfterWindow, h)
      end
  | None => let '(ok, h) := new_running cID h in (if ok : bool then Ok tt else Err ErrUpNotHealthy, h)
  end.

Definition RollingUpdate (capsuleID replicaID : string) (newSpec : RtSpec) (wait : Wait) : ST Handler (result UpdateError unit) := fun h =>
  let oldCID := containerID capsuleID replicaID in
  let newCID := containerID capsuleID replicaID +:+ "-new" in
  match rt (Pull (h_stopped h) (x_Image newSpec) []) h with
  | (Err e, h) => (Err (ErrUpPull e), h)
  | (Ok _, h) =>
  match rt (Create (h_stopped h) newCID (x_Image newSpec) (create_opts newSpec false)) h with
  | (Err e, h) => (Err (ErrUpCreate e), h)
  | (Ok _, h) =>
  match rt (Start (h_stopped h) newCID) h with
  | (Err e, h) => let '(_, h) := rt (Remove (h_stopped h) newCID) h in (Err (ErrUpStart e), h)
  | (Ok _, h) =>
      match await_healthy newCID newSpec wait h with
      | (Err e, h) => (Err e, cleanup newCID h)
      | (Ok _, h) =>
          let h := cancel_running oldCID h in
          let '(_, h) := rt (Stop (h_stopped h) oldCID [WithGracePeriod (10 * second)]) h in
          let '(_, h) := rt (Remove (h_stopped h) oldCID) h in
          (Ok tt, onContainerRunning newCID capsuleID newSpec h)
      end
  end end end.

Definition StopContainer (capsuleID replicaID : string) (gracePeriod : Duration) : ST Handler (result string unit) := fun h =>
  let cID := containerID capsuleID replicaID in
  let h := cancel_running cID h in
  match rt (Stop (h_stopped h) cID [WithGracePeriod gracePeriod]) h with
  | (Err e, h) => (Err ("runtime: stop " +:+ cID +:+ ": " +:+ e), h)
  | (Ok _, h) =>
      let '(_, h) := rt (Remove (h_stopped h) cID) h in
      (Ok tt, report (Stopped capsuleID) h)
  end.

(** [Stop] of the handler: every registered watcher is cancelled. *)
Definition StopHandler (h : Handler) : Handler :=
  let ids := snd <$> map_to_list (h_running h) in
  let h := set_running ∅ (fold_left (fun h i => on_watcher i cancel_watcher h) ids h) in
  {| h_runtime := h_runtime h; h_env := h_env h; h_running := h_running h; h_watchers := h_watchers h; h_captures := h_captures h;
     h_stopped := true; h_reports := h_reports h |}.

(** ** Steps *)

Inductive step_label :=
  | SStart (event : ElectionWon)
  | SCheckpoint (k : nat) | SRestart (k : nat)
  | SWatch (i : nat) | SWatchDone (i : nat)
  | SHealth (i : nat) (ans : Answer) | SHealthDone (i : nat)
  | SSample (i : nat) (s : Stats) | SStatsEnd (i : nat)
  | SUpdate (capsuleID replicaID : string) (spec : RtSpec) (wait : Wait)
  | SStopContainer (capsuleID replicaID : string) (grace : Duration)
  | SStop
  | SContainers (f : RT -> RT) | SNode (f : ENV -> ENV).

Definition do_step (l : step_label) (h : Handler) : Handler :=
  match l with
  | SStart e => startContainer e h
  | SCheckpoint k => capture_checkpoint k h
  | SRestart k => capture_restart k h
  | SWatch i => watch_step i h
  | SWatchDone i => watch_done i h
  | SHealth i a => health_tick i a h
  | SHealthDone i => health_done i h
  | SSample i s => stats_sample i s h
  | SStatsEnd i => stats_end i h
  | SUpdate c r spec w => snd (RollingUpdate c r spec w h)
  | SStopContainer c r g => snd (StopContainer c r g h)
  | SStop => StopHandler h
  | SContainers f => set_runtime (f (h_runtime h)) h
  | SNode f => set_env (f (h_env h)) h
  end.

Definition run_steps (ls : list step_label) (h : Handler) : Handler := fold_left (fun h l => do_step l h) ls h.

(** A watcher that gives up finds its own registration, or none. *)
Definition removes_own (l : step_label) (h : Handler) : bool :=
  match l with
  | SWatch i =>
      match h_watchers h !! i with
      | Some w => match w_turn w, h_running h !! w_cID w with Leaving _, Some j => Nat.eqb i j | _, _ => true end
      | None => true
      end
  | _ => true
  end.

Fixpoint orderly (ls : list step_label) (h : Handler) : bool :=
  match ls with [] => true | l :: ls => removes_own l h && orderly ls (do_step l h) end.

End Handler.

(** ** Calls change only what they call *)

Section Frames.
Context `{R : Runtime} `{C : Collaborators}.

(** Everything of the handler but the runtime's and the collaborators' state. *)
Definition book (h : Handler) := (h_running h, h_watchers h, h_captures h, h_stopped h, h_reports h).

Lemma rt_eq {A} (f : ST RT A) h : rt f h = (fst (f (h_runtime h)), set_runtime (snd (f (h_runtime h))) h).
Proof. unfold rt. by destruct (f (h_runtime h)). Qed.

Lemma collab_eq {A} (f : ST ENV A) h : collab f h = (fst (f (h_env h)), set_env (snd (f (h_env h))) h).
Proof. unfold collab. by destruct (f (h_env h)). Qed.

Definition note (r : Report) (h : Handler) : Handler :=
  {| h_runtime := h_runtime h; h_env := h_env h; h_running := h_running h; h_watchers := h_watchers h; h_captures := h_captures h;
     h_stopped := h_stopped h; h_reports := h_reports h ++ [r] |}.

Lemma report_note r h : exists e, report r h = note r (set_env e h).
Proof. unfold report. rewrite collab_eq. by eexists. Qed.

Lemma report_book r h : book (report r h) = (h_running h, h_watchers h, h_captures h, h_stopped h, h_reports h ++ [r]).
Proof. destruct (report_note r h) as [e ->]. done. Qed.

Lemma report_runtime r h : h_runtime (report r h) = h_runtime h.
Proof. by destruct (report_note r h) as [e ->]. Qed.

Lemma probe_address_book cID mode h : book (snd (probe_address cID mode h)) = book h.
Proof. unfold probe_address. destruct (mode =s _); [|done]. rewrite rt_eq. by destruct (fst _). Qed.

Definition live (w : Watcher) : Prop := w_cancelled w = false /\ w_exited w = false.

(** Taking a container over: the old watcher is cancelled, the new one is
    registered and live. *)
Lemma onContainerRunning_book cID capsuleID spec h : exists w,
  book (onContainerRunning cID capsuleID spec h) =
    (<[cID := length (h_watchers h)]> (h_running h),
     match h_running h !! cID with Some old => alter cancel_watcher old (h_watchers h) | None => h_watchers h end ++ [w],
     h_captures h, h_stopped h, h_reports h ++ [Running capsuleID]) /\
  live w /\ w_cID w = cID /\ w_capsuleID w = capsuleID /\ w_restartLimit w = x_RestartLimit spec /\ w_localRestarts w = 0 /\
  (forall hc, x_HealthCheck spec = Some hc -> exists addr, w_checker w = Some (hc, addr, 0)).
Proof.
  unfold onContainerRunning. pose proof (report_book (Running capsuleID) h) as Hb. destruct (report (Running capsuleID) h) as [r e ru ws cs st rs].
  unfold book in Hb. cbn in Hb. injection Hb as -> -> -> -> ->. cbn [h_running h_watchers].
  set (h1 := set_running _ _).
  assert (Hb1 : book h1 = (<[cID := length (h_watchers h)]> (h_running h),
     match h_running h !! cID with Some old => alter cancel_watcher old (h_watchers h) | None => h_watchers h end,
     h_captures h, h_stopped h, h_reports h ++ [Running capsuleID])) by (unfold h1, book; by destruct (h_running h !! cID)).
  set (p := match x_HealthCheck spec with Some hc => _ | None => _ end).
  assert (Hp : book (snd p) = book h1 /\ forall hc, x_HealthCheck spec = Some hc -> exists addr, fst p = Some (hc, addr, 0)).
  { unfold p. destruct (x_HealthCheck spec) as [hc|]; [|done]. pose proof (probe_address_book cID (x_NetworkMode spec) h1) as Hpa.
    destruct (probe_address _ _ h1) as [addr h2]. split; [exact Hpa|]. intros hc' [= <-]. by eexists. }
  destruct p as [checker h2]. destruct Hp as [Hp1 Hp2]. cbn [fst snd] in Hp1, Hp2.
  set (q := if has_stats then _ else _).
  assert (Hq : book (snd q) = book h2).
  { unfold q. destruct has_stats; [|done]. rewrite collab_eq, rt_eq. destruct (fst (OpenStats _ _ _)); [done|]. by rewrite collab_eq. }
  destruct q as [stats h3]. cbn [snd] in Hq. rewrite Hp1, Hb1 in Hq. unfold book in Hq. injection Hq as E1 E2 E3 E4 E5.
  eexists. split; [unfold book; cbn; rewrite E1, E2, E3, E4, E5; reflexivity|]. by split_and!.
Qed.

End Frames.

(** ** Starting reports exactly once *)

Section Starting.
Context `{R : Runtime} `{L : !RuntimeLaws R} `{C : Collaborators}.

Definition containers (h : Handler) : string -> option ContainerStatus := status (h_runtime h).

Lemma containers_rt {A} (f : ST RT A) h : containers (snd (rt f h)) = status (snd (f (h_runtime h))).
Proof. by rewrite rt_eq. Qed.

Lemma containers_collab {A} (f : ST ENV A) h : containers (snd (collab f h)) = containers h.
Proof. by rewrite collab_eq. Qed.

Lemma containers_report r h : containers (report r h) = containers h.
Proof. unfold containers. by rewrite report_runtime. Qed.

Lemma containers_probe_address cID mode h x : containers (snd (probe_address cID mode h)) x = containers h x.
Proof.
  unfold probe_address. destruct (mode =s _); [|done]. rewrite rt_eq. unfold containers.
  destruct (fst _); apply Inspect_frame.
Qed.

(** Taking a container over leaves all containers as they are. *)
Lemma onContainerRunning_containers cID capsuleID spec h x :
  containers (onContainerRunning cID capsuleID spec h) x = containers h x.
Proof.
  unfold onContainerRunning. transitivity (containers (report (Running capsuleID) h) x); [|by rewrite containers_report].
  set (h0 := report _ h). set (h1 := set_running _ _).
  assert (E1 : containers h1 x = containers h0 x) by (unfold h1; by destruct (h_running h0 !! cID)). rewrite <- E1. clearbody h1. clear E1.
  set (p := match x_HealthCheck spec with Some hc => _ | None => _ end).
  assert (Ep : containers (snd p) x = containers h1 x).
  { unfold p. destruct (x_HealthCheck spec); [|done]. pose proof (containers_probe_address cID (x_NetworkMode spec) h1 x) as E.
    by destruct (probe_address _ _ h1). }
  destruct p as [checker h2]. cbn [snd] in Ep. rewrite <- Ep. clear Ep.
  unfold containers. destruct has_stats; [|done]. rewrite collab_eq, rt_eq. destruct (fst (OpenStats _ _ _)).
  - cbn. apply OpenStats_frame.
  - rewrite collab_eq. cbn. apply OpenStats_frame.
Qed.

(** The two outcomes of a start. *)
Definition start_failed (cID capsuleID : string) (h h' : Handler) : Prop :=
  (exists why, book h' = (h_running h, h_watchers h, h_captures h, h_stopped h, h_reports h ++ [Failed capsuleID why])) /\
  (forall x, x <> cID -> containers h' x = containers h x).
Definition started (cID capsuleID : string) (h h' : Handler) : Prop :=
  h_reports h' = h_reports h ++ [Running capsuleID] /\
  h_running h' = <[cID := length (h_watchers h)]> (h_running h) /\
  (exists w, h_watchers h' !! length (h_watchers h) = Some w /\ live w /\ w_cID w = cID /\ w_capsuleID w = capsuleID) /\
  containers h' cID = Some containerStatusRunning /\
  (forall x, x <> cID -> containers h' x = containers h x).

(** What came before a start changed only the runtime and the node. *)
Definition prelude (cID : string) (h h1 : Handler) : Prop :=
  book h1 = book h /\ forall x, x <> cID -> containers h1 x = containers h x.

Lemma failed_after cID capsuleID why h h1 : prelude cID h h1 -> start_failed cID capsuleID h (report (Failed capsuleID why) h1).
Proof.
  intros [Hb Hc]. unfold book in Hb. injection Hb as E1 E2 E3 E4 E5. split.
  - exists why. rewrite report_book. by rewrite E1, E2, E3, E4, E5.
  - intros x Hx. rewrite containers_report. by apply Hc.
Qed.

Lemma running_after cID capsuleID spec h h1 : prelude cID h h1 -> containers h1 cID = Some containerStatusRunning ->
  started cID capsuleID h (onContainerRunning cID capsuleID spec h1).
Proof.
  intros [Hb Hc] Hr. destruct (onContainerRunning_book cID capsuleID spec h1) as (w & Hw & Hlive & E1 & E2 & _).
  unfold book in Hb, Hw. injection Hb as B1 B2 B3 B4 B5. injection Hw as W1 W2 W3 W4 W5. split_and!.
  - by rewrite W5, B5.
  - by rewrite W1, B1, B2.
  - exists w. split; [|done]. rewrite W2, B1, B2. rewrite lookup_app_r.
    + destruct (h_running h !! cID); by rewrite ?length_alter, Nat.sub_diag.
    + destruct (h_running h !! cID); by rewrite ?length_alter.
  - by rewrite onContainerRunning_containers.
  - intros x Hx. rewrite onContainerRunning_containers. by apply Hc.
Qed.

Lemma prelude_refl cID h : prelude cID h h.
Proof. done. Qed.

Lemma prelude_collab cID {A} (f : ST ENV A) h h1 : prelude cID h h1 -> prelude cID h (snd (collab f h1)).
Proof. intros [Hb Hc]. rewrite collab_eq. done. Qed.

Lemma prelude_rt cID {A} (f : ST RT A) h h1 : (forall w x, x <> cID -> status (snd (f w)) x = status w x) ->
  prelude cID h h1 -> prelude cID h (snd (rt f h1)).
Proof.
  intros Hf [Hb Hc]. split; [by rewrite rt_eq|]. intros x Hx. rewrite containers_rt, Hf by done. by apply Hc.
Qed.

Lemma coldStart_outcome cID capsuleID tag spec h h1 : prelude cID h h1 ->
  start_failed cID capsuleID h (coldStart cID capsuleID tag spec h1) \/ started cID capsuleID h (coldStart cID capsuleID tag spec h1).
Proof.
  intros Hp. unfold coldStart. set (opts := if x_RegistryUsername spec <>s "" then _ else _). clearbody opts.
  pose proof (prelude_rt cID (Pull (h_stopped h1) (x_Image spec) opts) h h1 (fun w x _ => Pull_frame _ _ _ w x) Hp) as Hp2.
  destruct (rt (Pull _ _ _) h1) as [[[]|e] h2]; cbn [snd] in Hp2; [|left; by apply failed_after]. clear Hp h1.
  pose proof (prelude_rt cID (Create (h_stopped h2) cID (x_Image spec) (create_opts spec true)) h h2 (fun w x => Create_frame _ _ _ _ w x) Hp2) as Hp3.
  destruct (rt (Create _ _ _ _) h2) as [[[]|e] h3]; cbn [snd] in Hp3; [|left; by apply failed_after]. clear Hp2 h2.
  pose proof (prelude_rt cID (Start (h_stopped h3) cID) h h3 (fun w x => Start_frame _ _ w x) Hp3) as Hp4.
  pose proof (Start_ok (h_stopped h3) cID (h_runtime h3)) as Hs. rewrite rt_eq in Hp4 |- *.
  destruct (fst (Start _ _ _)) as [[]|e].
  - right. destruct (Hs eq_refl) as [_ Hr]. set (h4 := set_runtime _ _) in *.
    pose proof (running_after cID capsuleID spec h h4 Hp4 Hr) as (H1 & H2 & H3 & H4 & H5).
    destruct has_snapshots; by split_and!.
  - left. set (h4 := set_runtime _ _) in *.
    pose proof (prelude_rt cID (Remove (h_stopped h4) cID) h h4 (fun w x => Remove_frame _ _ w x) Hp4) as Hp5.
    destruct (rt (Remove _ _) h4) as [r h5]. by apply failed_after.
Qed.

Lemma restore_outcome cID capsuleID tag spec h h1 : prelude cID h h1 ->
  start_failed cID capsuleID h (restoreFromSnapshot cID capsuleID tag spec h1) \/ started cID capsuleID h (restoreFromSnapshot cID capsuleID tag spec h1).
Proof.
  intros Hp. unfold restoreFromSnapshot. set (path := SnapPath _ _ _). set (opts := [WithRestoreNetworkMode _; _; _]). clearbody path opts.
  pose proof (prelude_rt cID (Restore (h_stopped h1) cID path opts) h h1 (fun w x => Restore_frame _ _ _ _ w x) Hp) as Hp2.
  pose proof (Restore_ok (h_stopped h1) cID path opts (h_runtime h1)) as Hs. rewrite rt_eq in Hp2 |- *.
  destruct (fst (Restore _ _ _ _ _)) as [[]|e]; [|by apply coldStart_outcome].
  right. specialize (Hs eq_refl). set (h2 := set_runtime _ _) in *.
  pose proof (prelude_collab cID (MarkInUse capsuleID tag true) h h2 Hp2) as Hp3. rewrite collab_eq in Hp3 |- *.
  set (h3 := set_env _ _) in *. pose proof (prelude_collab cID (TouchAccess capsuleID tag) h h3 Hp3) as Hp4. rewrite collab_eq in Hp4 |- *.
  by apply running_after.
Qed.

(** C16: a won election is reported exactly once.  [startContainer]
    ends in one of two ways: one [MarkFailed], with the handler's tables as
    before; or one [MarkRunning], with the container running, registered and
    watched.  No other container changes, restore, peer snapshot and cold
    start included. *)
Theorem runtime_start_reports_once event h :
  let cID := containerID (ew_CapsuleID event) (ew_ReplicaID event) in
  start_failed cID (ew_CapsuleID event) h (startContainer event h) \/ started cID (ew_CapsuleID event) h (startContainer event h).
Proof.
  cbv zeta. set (cID := containerID _ _). set (capsuleID := ew_CapsuleID event). unfold startContainer. fold capsuleID. fold cID.
  pose proof (prelude_collab cID (GetSpec capsuleID) h h (prelude_refl cID h)) as Hp1.
  destruct (collab (GetSpec capsuleID) h) as [[spec|e] h1]; cbn [snd] in Hp1; [|left; by apply failed_after].
  set (p := if has_snapshots then _ else _).
  assert (Hp2 : prelude cID h (snd p)) by (unfold p; destruct has_snapshots; [by apply prelude_collab|done]).
  destruct p as [[] h2]; cbn [snd] in Hp2; [by apply restore_outcome|].
  set (q := if has_puller then _ else _).
  assert (Hp3 : prelude cID h (snd q)) by (unfold q; destruct has_puller; [by apply prelude_collab|done]).
  destruct q as [[path|e] h3]; cbn [snd] in Hp3; [|by apply coldStart_outcome].
  destruct (path <>s ""); [by apply restore_outcome|by apply coldStart_outcome].
Qed.

End Starting.

(** ** One watcher per container *)

Section Invariant.
Context `{R : Runtime} `{C : Collaborators}.

Definition restarts_ok (w : Watcher) : Prop := 0 <= w_localRestarts w <= Z.max 0 (w_restartLimit w).

(** Every live watcher is the registered one of its container, and none has
    restarted its container more often than its limit. *)
Record tables_ok (running : gmap string nat) (ws : list Watcher) : Prop := {
  ok_running : forall c i, running !! c = Some i -> exists w, ws !! i = Some w /\ w_cID w = c;
  ok_live : forall i w, ws !! i = Some w -> live w -> running !! w_cID w = Some i;
  ok_restarts : forall i w, ws !! i = Some w -> restarts_ok w
}.
Definition handler_ok (h : Handler) : Prop := tables_ok (h_running h) (h_watchers h).

Lemma handler_ok_book h h' : book h' = book h -> handler_ok h -> handler_ok h'.
Proof. unfold book, handler_ok. intros E. injection E as -> -> _ _ _. done. Qed.

Lemma lookup_alter_Some {A} (f : A -> A) i (ws : list A) j w : alter f i ws !! j = Some w ->
  exists w0, ws !! j = Some w0 /\ ((i = j /\ w = f w0) \/ (i <> j /\ w = w0)).
Proof.
  destruct (decide (i = j)) as [<-|Hne].
  - rewrite list_lookup_alter_eq. destruct (ws !! i) as [w0|]; [|done]. intros [= <-]. eauto.
  - rewrite list_lookup_alter_ne by done. eauto.
Qed.

(** A change of one watcher that does not wake it. *)
Lemma tables_alter running ws i f :
  (forall w, ws !! i = Some w -> w_cID (f w) = w_cID w /\ (live (f w) -> live w) /\ (restarts_ok w -> restarts_ok (f w))) ->
  tables_ok running ws -> tables_ok running (alter f i ws).
Proof.
  intros Hf [H1 H2 H3]. split.
  - intros c j Hc. destruct (H1 c j Hc) as (w & Hw & <-). destruct (decide (i = j)) as [<-|Hne].
    + exists (f w). rewrite list_lookup_alter_eq, Hw. split; [done|]. by apply Hf.
    + exists w. by rewrite list_lookup_alter_ne.
  - intros j w Hw Hl. destruct (lookup_alter_Some _ _ _ _ _ Hw) as (w0 & Hw0 & [[-> ->]|[_ ->]]); [|by apply H2].
    destruct (Hf _ Hw0) as (-> & Hl0 & _). auto.
  - intros j w Hw. destruct (lookup_alter_Some _ _ _ _ _ Hw) as (w0 & Hw0 & [[-> ->]|[_ ->]]); [|by apply (H3 j)].
    apply (Hf _ Hw0). by apply (H3 j).
Qed.

(** A registered watcher is put to rest and its entry removed. *)
Lemma tables_retire running ws c i f :
  running !! c = Some i ->
  (forall w, w_cID (f w) = w_cID w /\ ~ live (f w) /\ (restarts_ok w -> restarts_ok (f w))) ->
  tables_ok running ws -> tables_ok (delete c running) (alter f i ws).
Proof.
  intros Hi Hf Hok. pose proof (ok_running _ _ Hok c i Hi) as (wi & Hwi & Hci).
  destruct (tables_alter running ws i f) as [H1 H2 H3]; [|done|].
  { intros w _. destruct (Hf w) as (? & ? & ?). split_and!; [done|by intros|done]. }
  split; [|intros j w Hw Hl|done].
  - intros c' j [Hne Hc]%lookup_delete_Some. by apply H1.
  - pose proof (H2 j w Hw Hl) as Hr. apply lookup_delete_Some. split; [|done]. intros Hc. rewrite <- Hc, Hi in Hr. injection Hr as <-.
    rewrite list_lookup_alter_eq, Hwi in Hw. injection Hw as <-. by destruct (Hf wi) as (_ & ? & _).
Qed.

Lemma cancel_rest w : w_cID (cancel_watcher w) = w_cID w /\ ~ live (cancel_watcher w) /\ (restarts_ok w -> restarts_ok (cancel_watcher w)).
Proof. split_and!; [done|by intros [? _]|done]. Qed.
Lemma exit_rest w : w_cID (exit_watcher w) = w_cID w /\ ~ live (exit_watcher w) /\ (restarts_ok w -> restarts_ok (exit_watcher w)).
Proof. split_and!; [done|by intros [_ ?]|done]. Qed.

(** A new watcher replaces the registered one. *)
Lemma tables_register running ws c w : live w -> w_cID w = c -> restarts_ok w -> tables_ok running ws ->
  tables_ok (<[c := length ws]> running)
            (match running !! c with Some old => alter cancel_watcher old ws | None => ws end ++ [w]).
Proof.
  intros Hl Hc Hr Hok. set (ws' := match running !! c with Some old => _ | None => _ end).
  assert (Hlen : length ws' = length ws) by (unfold ws'; destruct (running !! c); by rewrite ?length_alter).
  assert (Hok' : tables_ok (delete c running) ws').
  { unfold ws'. destruct (running !! c) as [old|] eqn:E; [by apply tables_retire; [|apply cancel_rest|]|]. by rewrite delete_id. }
  destruct Hok' as [H1 H2 H3]. split.
  - intros c' i. destruct (decide (c = c')) as [<-|Hne].
    + rewrite lookup_insert_eq. intros [= <-]. exists w. split; [|done]. rewrite <- Hlen. by rewrite lookup_app_r, Nat.sub_diag.
    + rewrite lookup_insert_ne by done. intros Hi. destruct (H1 c' i) as (w' & Hw' & Ec); [by rewrite lookup_delete_ne|].
      exists w'. split; [|done]. by apply lookup_app_l_Some.
  - intros i w' [Hw'|[Hi Hw']]%lookup_app_Some Hl'.
    + pose proof (H2 i w' Hw' Hl') as [Hne Hr']%lookup_delete_Some. by rewrite lookup_insert_ne.
    + apply list_lookup_singleton_Some in Hw' as [Hi0 <-]. rewrite Hc, lookup_insert_eq. f_equal. lia.
  - intros i w' [Hw'|[Hi Hw']]%lookup_app_Some; [by apply (H3 i)|]. apply list_lookup_singleton_Some in Hw' as [_ <-]. done.
Qed.

Lemma onContainerRunning_ok cID capsuleID spec h : handler_ok h -> handler_ok (onContainerRunning cID capsuleID spec h).
Proof.
  intros Hok. destruct (onContainerRunning_book cID capsuleID spec h) as (w & Hb & Hl & Ec & _ & _ & Er & _).
  unfold book in Hb. injection Hb as E1 E2 _ _ _. unfold handler_ok. rewrite E1, E2. apply tables_register; [done..| |done].
  unfold restarts_ok. lia.
Qed.

Lemma rt_ok {A} (f : ST RT A) h : handler_ok h -> handler_ok (snd (rt f h)).
Proof. rewrite rt_eq. done. Qed.
Lemma collab_ok {A} (f : ST ENV A) h : handler_ok h -> handler_ok (snd (collab f h)).
Proof. rewrite collab_eq. done. Qed.
Lemma report_ok r h : handler_ok h -> handler_ok (report r h).
Proof. destruct (report_note r h) as [e ->]. done. Qed.
Lemma probe_address_ok cID mode h : handler_ok h -> handler_ok (snd (probe_address cID mode h)).
Proof. apply handler_ok_book, probe_address_book. Qed.

Lemma cancel_running_ok cID h : handler_ok h -> handler_ok (cancel_running cID h).
Proof.
  intros Hok. unfold cancel_running. destruct (h_running h !! cID) as [i|] eqn:E; [|done].
  by apply (tables_retire _ _ cID i); [|apply cancel_rest|].
Qed.

Lemma on_watcher_ok i f h :
  (forall w, w_cID (f w) = w_cID w /\ (live (f w) -> live w) /\ (restarts_ok w -> restarts_ok (f w))) ->
  handler_ok h -> handler_ok (on_watcher i f h).
Proof. intros Hf. apply tables_alter. auto. Qed.

(** Destructs the next call of the goal and keeps the invariant. *)
Ltac call_ok :=
  match goal with
  | |- context [rt ?f ?h] =>
      let H := fresh "Hok" in pose proof (rt_ok f h ltac:(assumption)) as H; destruct (rt f h) as [? ?]; cbn [snd] in H
  | |- context [collab ?f ?h] =>
      let H := fresh "Hok" in pose proof (collab_ok f h ltac:(assumption)) as H; destruct (collab f h) as [? ?]; cbn [snd] in H
  | |- context [probe_address ?c ?m ?h] =>
      let H := fresh "Hok" in pose proof (probe_address_ok c m h ltac:(assumption)) as H; destruct (probe_address c m h) as [? ?]; cbn [snd] in H
  end.

Lemma coldStart_ok cID capsuleID tag spec h : handler_ok h -> handler_ok (coldStart cID capsuleID tag spec h).
Proof.
  intros Hok. unfold coldStart. call_ok. case_match; [|by apply report_ok]. call_ok. case_match; [|by apply report_ok].
  call_ok. case_match.
  - destruct has_snapshots; by apply onContainerRunning_ok.
  - call_ok. by apply report_ok.
Qed.

Lemma restore_ok cID capsuleID tag spec h : handler_ok h -> handler_ok (restoreFromSnapshot cID capsuleID tag spec h).
Proof.
  intros Hok. unfold restoreFromSnapshot. call_ok. case_match; [|by apply coldStart_ok]. do 2 call_ok. by apply onContainerRunning_ok.
Qed.

Lemma startContainer_ok event h : handler_ok h -> handler_ok (startContainer event h).
Proof.
  intros Hok. unfold startContainer. call_ok. case_match; [|by apply report_ok].
  set (p := if has_snapshots then _ else _).
  assert (Hp : handler_ok (snd p)) by (unfold p; destruct has_snapshots; [by apply collab_ok|done]).
  destruct p as [[] h2]; cbn [snd] in Hp; [by apply restore_ok|].
  set (q := if has_puller then _ else _).
  assert (Hq : handler_ok (snd q)) by (unfold q; destruct has_puller; [by apply collab_ok|done]).
  destruct q as [[path|e] h3]; cbn [snd] in Hq; [|by apply coldStart_ok].
  destruct (path <>s ""); [by apply restore_ok|by apply coldStart_ok].
Qed.

Lemma captures_ok cs h : handler_ok h -> handler_ok (set_captures cs h).
Proof. done. Qed.

Lemma capture_checkpoint_ok k h : handler_ok h -> handler_ok (capture_checkpoint k h).
Proof.
  intros Hok. unfold capture_checkpoint. destruct (h_captures h !! k) as [[? ? ? ? []]|]; try done. call_ok.
  case_match; [|done]. destruct (fileChecksum _ _). by call_ok.
Qed.

Lemma capture_restart_ok k h : handler_ok h -> handler_ok (capture_restart k h).
Proof.
  intros Hok. unfold capture_restart. destruct (h_captures h !! k) as [[? ? ? ? []]|]; try done.
  pose proof (captures_ok (delete k (h_captures h)) h Hok) as Hok'. set (h1 := set_captures _ h) in *. call_ok. case_match.
  - destruct has_broadcaster; [by apply collab_ok|done].
  - by apply report_ok, cancel_running_ok.
Qed.

Lemma leave_rest code w :
  let w' := set_turn (Reporting code) (exit_watcher w) in
  w_cID w' = w_cID w /\ ~ live w' /\ (restarts_ok w -> restarts_ok w').
Proof. split_and!; [done|by intros [_ ?]|done]. Qed.

Lemma watch_step_ok i h : handler_ok h -> removes_own (SWatch i) h = true -> handler_ok (watch_step i h).
Proof.
  intros Hok Hown. unfold watch_step. unfold removes_own in Hown. destruct (h_watchers h !! i) as [w|] eqn:Ew; [|done].
  assert (Hturn : forall t h', handler_ok h' -> handler_ok (on_watcher i (set_turn t) h'))
    by (intros; apply on_watcher_ok; [by intros; split_and!|done]).
  destruct (w_turn w) as [|code|code|code].
  - destruct (w_exited w); [done|]. call_ok. case_match; [|done]. destruct (negb _); [done|]. by apply Hturn.
  - destruct (Z.ltb_spec (w_localRestarts w) (w_restartLimit w)); [|by apply Hturn].
    assert (Hok2 : handler_ok (on_watcher i count_restart h)).
    { apply tables_alter; [|done]. intros w0 Hw0. assert (w0 = w) as -> by congruence.
      split_and!; [done|done|]. unfold restarts_ok. cbn. lia. }
    set (h1 := on_watcher i count_restart h) in *. call_ok. case_match; by apply Hturn.
  - destruct (h_running h !! w_cID w) as [j|] eqn:Er.
    + apply Nat.eqb_eq in Hown as <-. by apply (tables_retire (h_running h) (h_watchers h) (w_cID w) i); [|apply leave_rest|].
    + apply on_watcher_ok; [|unfold handler_ok; cbn; by rewrite delete_id].
      intros w0. destruct (leave_rest code w0) as (? & Hn & ?). split_and!; [done|by intros ?%Hn|done].
  - by apply report_ok, Hturn.
Qed.

Lemma await_healthy_ok cID spec wait h : handler_ok h -> handler_ok (snd (await_healthy cID spec wait h)).
Proof.
  intros Hok. unfold await_healthy, new_running.
  destruct (x_HealthCheck spec); [call_ok; destruct wait; [|done]|]; call_ok; repeat case_match; simplify_eq; done.
Qed.

Lemma RollingUpdate_ok c r spec wait h : handler_ok h -> handler_ok (snd (RollingUpdate c r spec wait h)).
Proof.
  intros Hok. unfold RollingUpdate. call_ok. case_match; [|done]. call_ok. case_match; [|done]. call_ok. case_match; [|by call_ok].
  match goal with |- context [await_healthy ?cID spec wait ?h'] =>
    pose proof (await_healthy_ok cID spec wait h' ltac:(assumption)) as Hp; destruct (await_healthy cID spec wait h') as [[[]|e] hp] end; cbn [snd] in Hp |- *.
  - pose proof (cancel_running_ok (containerID c r) hp Hp) as Hok3. set (hq := cancel_running _ hp) in *. do 2 call_ok. by apply onContainerRunning_ok.
  - unfold cleanup. call_ok. by apply rt_ok.
Qed.

Lemma StopContainer_ok c r g h : handler_ok h -> handler_ok (snd (StopContainer c r g h)).
Proof.
  intros Hok. unfold StopContainer. pose proof (cancel_running_ok (containerID c r) h Hok) as Hok1. set (h1 := cancel_running _ h) in *.
  call_ok. case_match; [|done]. call_ok. by apply report_ok.
Qed.

(** Cancelling all registered watchers leaves none alive. *)
Lemma cancel_all_watchers ids (h : Handler) :
  let h' := fold_left (fun h i => on_watcher i cancel_watcher h) ids h in
  (forall i w, h_watchers h' !! i = Some w -> exists w0, h_watchers h !! i = Some w0 /\
     (restarts_ok w0 -> restarts_ok w) /\ w_cID w = w_cID w0 /\ (live w -> live w0 /\ i ∉ ids)).
Proof.
  revert h. induction ids as [|j ids IH]; intros h; cbn [fold_left].
  - intros i w Hw. exists w. split_and!; auto. intros Hl. split; [done|apply not_elem_of_nil].
  - intros i w Hw. destruct (IH _ i w Hw) as (w1 & Hw1 & Hr & Hc & Hl).
    destruct (lookup_alter_Some _ _ _ _ _ Hw1) as (w0 & Hw0 & [[-> ->]|[Hne ->]]); exists w0; split_and!; [done|auto|done| |done|auto|done|].
    + intros Hlw. by destruct (Hl Hlw) as [[? _] _].
    + intros Hlw. destruct (Hl Hlw) as [? Hni]. split; [done|]. apply not_elem_of_cons. auto.
Qed.

Lemma StopHandler_ok h : handler_ok h -> handler_ok (StopHandler h).
Proof.
  intros [H1 H2 H3]. unfold StopHandler, handler_ok. cbn [h_running h_watchers set_running].
  set (ids := snd <$> _). pose proof (cancel_all_watchers ids h) as Hall. cbv zeta in Hall. split.
  - intros c i. by rewrite lookup_empty.
  - intros i w Hw Hl. destruct (Hall i w Hw) as (w0 & Hw0 & _ & Hc & Hli). destruct (Hli Hl) as [Hl0 Hni]. destruct Hni.
    apply list_elem_of_fmap. exists (w_cID w0, i). split; [done|]. apply elem_of_map_to_list. by apply H2.
  - intros i w Hw. destruct (Hall i w Hw) as (w0 & Hw0 & Hr & _). by apply Hr, (H3 i).
Qed.

Lemma health_tick_ok i a h : handler_ok h -> handler_ok (health_tick i a h).
Proof.
  intros Hok. unfold health_tick. destruct (h_watchers h !! i) as [w|]; [|done]. destruct (w_checker w) as [[[hc addr] n]|]; [|done].
  destruct (tick_probe _ _ _); [apply on_watcher_ok; [intros ?; by split_and!|done]|].
  apply on_watcher_ok; [|apply report_ok, on_watcher_ok; [intros ?; by split_and!|done]].
  intros w0. destruct (cancel_rest w0) as (? & Hn & ?). split_and!; [done|by intros ?%Hn|done].
Qed.

Lemma do_step_ok l h : handler_ok h -> removes_own l h = true -> handler_ok (do_step l h).
Proof.
  intros Hok Hown. destruct l as [e|k|k|i|i|i a|i|i st|i|c r spec w|c r g| |f|f]; cbn [do_step];
    auto using startContainer_ok, capture_checkpoint_ok, capture_restart_ok, watch_step_ok, health_tick_ok, RollingUpdate_ok, StopContainer_ok, StopHandler_ok.
  - unfold watch_done. destruct (h_watchers h !! i) as [w|]; [|done]. destruct (w_turn w); try done. destruct (ctx_done _ _); [|done]. apply on_watcher_ok; [|done].
    intros w0. destruct (exit_rest w0) as (? & Hn & ?). split_and!; [done|by intros ?%Hn|done].
  - unfold health_done. destruct (h_watchers h !! i); [|done]. destruct (ctx_done _ _); [|done]. apply on_watcher_ok; [intros ?; by split_and!|done].
  - unfold stats_sample. destruct (h_watchers h !! i) as [w|]; [|done]. destruct (w_stats w); [|done]. apply on_watcher_ok; [intros ?; by split_and!|done].
  - unfold stats_end. destruct (h_watchers h !! i) as [w|]; [|done]. destruct (w_stats w); [|done].
    pose proof (on_watcher_ok i (set_stats false (w_lastCPU w) (w_lastMem w)) h) as Hw. specialize (Hw ltac:(by intros w0; split_and!) Hok).
    set (h1 := on_watcher _ _ h) in *. by call_ok.
Qed.

Lemma run_steps_ok ls h : handler_ok h -> orderly ls h = true -> handler_ok (run_steps ls h).
Proof.
  revert h. induction ls as [|l ls IH]; intros h Hok Ho; [done|]. cbn [orderly] in Ho. apply andb_prop in Ho as [Hl Ho].
  apply IH; [by apply do_step_ok|done].
Qed.

Lemma NewHandler_ok r e : handler_ok (NewHandler r e).
Proof. by split; cbn [NewHandler h_running h_watchers]; [intros c i; rewrite lookup_empty|intros i w; rewrite lookup_nil..]. Qed.

(** With a runtime that honours contexts, a watcher whose context is done before
    it inspects the container never gives up: only one that has already seen the
    exit can still remove a registration. *)
Lemma watch_step_done `{X : !HonoursContext R} i w h :
  h_watchers h !! i = Some w -> w_turn w = Ticking -> ctx_done w h = true -> book (watch_step i h) = book h.
Proof.
  intros Hw Ht Hd. unfold watch_step. rewrite Hw, Ht. destruct (w_exited w); [done|]. rewrite rt_eq, Hd.
  by destruct (Inspect_done (w_cID w) (h_runtime h)) as [e ->].
Qed.

(** C15: a container has at most one watcher, and is restarted at
    most [RestartLimit] times by it, as long as no watcher that gives up removes
    the registration of another one. In every interleaving of starts, captures,
    updates, stops and of the calls and locks of the watchers' turns, with any
    runtime and containers that do as they please: if each watcher that gives up
    finds its own registration or none, then two live watchers of one container
    are the same watcher, it is the registered one, and no watcher has used more
    local restarts than its limit. The condition is needed: the removal does not
    look whose registration it is, and a container that is stopped and started
    again between a watcher's inspection and its removal ends with two live
    watchers. *)
Theorem runtime_one_watcher ls r e i j w w'
    (Hown : orderly ls (NewHandler r e) = true)
    (Hi : h_watchers (run_steps ls (NewHandler r e)) !! i = Some w)
    (Hj : h_watchers (run_steps ls (NewHandler r e)) !! j = Some w') :
  0 <= w_localRestarts w <= Z.max 0 (w_restartLimit w) /\
  (live w -> h_running (run_steps ls (NewHandler r e)) !! w_cID w = Some i) /\
  (live w -> live w' -> w_cID w = w_cID w' -> i = j).
Proof.
  destruct (run_steps_ok ls _ (NewHandler_ok r e) Hown) as [_ Hlive Hres]. split; [|split].
  - apply (Hres i w Hi).
  - by apply Hlive.
  - intros Hl Hl' Hc. pose proof (Hlive i w Hi Hl) as E1. pose proof (Hlive j w' Hj Hl') as E2. rewrite Hc, E2 in E1. by injection E1.
Qed.

End Invariant.

(** ** Updating *)

Section Updating.
Context `{R : Runtime} `{L : !RuntimeLaws R} `{C : Collaborators}.

Definition oldCID (capsuleID replicaID : string) : string := containerID capsuleID replicaID.
Definition newCID (capsuleID replicaID : string) : string := containerID capsuleID replicaID +:+ "-new".

Lemma old_new_differ c r : oldCID c r <> newCID c r.
Proof.
  unfold oldCID, newCID. intros E%(f_equal String.length). rewrite string_length_app in E. cbn in E. lia.
Qed.

Lemma new_running_prelude cID h0 h : prelude cID h0 h ->
  prelude cID h0 (snd (new_running cID h)) /\
  (fst (new_running cID h) = true -> containers (snd (new_running cID h)) cID = Some containerStatusRunning).
Proof.
  intros Hp. unfold new_running. pose proof (prelude_rt cID (Inspect (h_stopped h) cID) h0 h (fun w x _ => Inspect_frame _ _ w x) Hp) as Hp2.
  rewrite rt_eq in Hp2 |- *. pose proof (Inspect_status (h_stopped h) cID (h_runtime h)) as Hi.
  destruct (fst (Inspect _ _ _)) as [info|]; [|done]. split; [done|]. cbn [fst snd]. intros E%String.eqb_eq.
  unfold containers. cbn. rewrite Inspect_frame, <- E. by apply Hi.
Qed.

Lemma probe_address_prelude cID mode h0 h : prelude cID h0 h -> prelude cID h0 (snd (probe_address cID mode h)).
Proof.
  intros [Hb Hc]. split; [by rewrite probe_address_book|]. intros x Hx. rewrite containers_probe_address. by apply Hc.
Qed.

Lemma await_healthy_prelude cID spec wait h0 h : prelude cID h0 h ->
  prelude cID h0 (snd (await_healthy cID spec wait h)) /\
  (fst (await_healthy cID spec wait h) = Ok tt -> containers (snd (await_healthy cID spec wait h)) cID = Some containerStatusRunning).
Proof.
  intros Hp. unfold await_healthy. destruct (x_HealthCheck spec).
  - pose proof (probe_address_prelude cID (x_NetworkMode spec) h0 h Hp) as Hp4. destruct (probe_address _ _ h) as [? h4]. cbn [snd] in Hp4.
    destruct wait; [|done]. destruct (new_running_prelude cID h0 h4 Hp4) as [H1 H2]. destruct (new_running _ h4) as [[] h5]; cbn [fst snd] in *; [auto|done].
  - destruct (new_running_prelude cID h0 h Hp) as [H1 H2]. destruct (new_running _ h) as [[] h5]; cbn [fst snd] in *; [auto|done].
Qed.

Lemma cleanup_prelude cID h0 h : prelude cID h0 h -> prelude cID h0 (cleanup cID h).
Proof.
  intros Hp. unfold cleanup. pose proof (prelude_rt cID (Stop false cID []) h0 h (fun w x => Stop_frame _ _ _ w x) Hp) as Hp2.
  destruct (rt (Stop _ _ _) h) as [? h1]. cbn [snd] in Hp2. by apply prelude_rt; [intros w x; apply Remove_frame|].
Qed.

(** What a rolling update leaves when it ends. *)
Definition update_done (c r : string) (h h' : Handler) : Prop :=
  h_running h' !! newCID c r = Some (length (h_watchers h)) /\
  h_running h' !! oldCID c r = None /\
  containers h' (newCID c r) = Some containerStatusRunning /\
  (forall x, x <> newCID c r -> x <> oldCID c r -> containers h' x = containers h x).

Lemma update_swap c r spec h h1 : prelude (newCID c r) h h1 -> containers h1 (newCID c r) = Some containerStatusRunning ->
  let h2 := cancel_running (oldCID c r) h1 in
  let h3 := snd (rt (Stop (h_stopped h2) (oldCID c r) [WithGracePeriod (10 * second)]) h2) in
  let h4 := snd (rt (Remove (h_stopped h3) (oldCID c r)) h3) in
  update_done c r h (onContainerRunning (newCID c r) c spec h4).
Proof.
  intros [Hb Hc] Hrun. cbv zeta. set (h2 := cancel_running _ h1).
  assert (Hc2 : containers h2 = containers h1) by (unfold h2, cancel_running; by destruct (h_running h1 !! _)).
  assert (Hr2 : h_running h2 !! oldCID c r = None).
  { unfold h2, cancel_running. destruct (h_running h1 !! oldCID c r) eqn:E; [|done]. cbn. apply lookup_delete_eq. }
  assert (Hl2 : length (h_watchers h2) = length (h_watchers h)).
  { unfold book in Hb. injection Hb as B1 B2 _ _ _. rewrite <- B2. unfold h2, cancel_running. destruct (h_running h1 !! _); [|done]. cbn. apply length_alter. }
  clearbody h2. rewrite !rt_eq. cbn [snd]. set (h4 := set_runtime _ (set_runtime _ h2)).
  assert (Hc4 : forall x, x <> oldCID c r -> containers h4 x = containers h1 x).
  { intros x Hx. rewrite <- Hc2. unfold containers, h4. cbn. rewrite Remove_frame by done. by apply Stop_frame. }
  destruct (onContainerRunning_book (newCID c r) c spec h4) as (w & Hw & _). unfold book in Hw. injection Hw as W1 _ _ _ _.
  pose proof (old_new_differ c r) as Hne. split; [|split; [|split]].
  - rewrite W1, lookup_insert_eq. f_equal. exact Hl2.
  - rewrite W1, lookup_insert_ne by done. exact Hr2.
  - rewrite onContainerRunning_containers, Hc4 by done. done.
  - intros x H1 H2. rewrite onContainerRunning_containers, Hc4 by done. by apply Hc.
Qed.

(** What [RollingUpdate] does in its two outcomes. *)
Lemma runtime_rolling_update_spec c r spec wait h :
  match RollingUpdate c r spec wait h with
  | (Err _, h') => book h' = book h /\ forall x, x <> newCID c r -> containers h' x = containers h x
  | (Ok _, h') => update_done c r h h'
  end.
Proof.
  unfold RollingUpdate. fold (oldCID c r). change (oldCID c r +:+ "-new") with (newCID c r).
  pose proof (prelude_rt (newCID c r) (Pull (h_stopped h) (x_Image spec) []) h h (fun w x _ => Pull_frame _ _ _ w x) (prelude_refl _ h)) as Hp1.
  destruct (rt (Pull _ _ _) h) as [[[]|e] h1]; cbn [snd] in Hp1; [|exact Hp1].
  pose proof (prelude_rt (newCID c r) (Create (h_stopped h1) (newCID c r) (x_Image spec) (create_opts spec false)) h h1 (fun w x => Create_frame _ _ _ _ w x) Hp1) as Hp2.
  destruct (rt (Create _ _ _ _) h1) as [[[]|e] h2]; cbn [snd] in Hp2; [|exact Hp2].
  pose proof (prelude_rt (newCID c r) (Start (h_stopped h2) (newCID c r)) h h2 (fun w x => Start_frame _ _ w x) Hp2) as Hp3.
  pose proof (Start_ok (h_stopped h2) (newCID c r) (h_runtime h2)) as Hs. rewrite rt_eq in Hp3 |- *.
  destruct (fst (Start _ _ _)) as [[]|e].
  2: { set (h3 := set_runtime _ h2) in *.
       pose proof (prelude_rt (newCID c r) (Remove (h_stopped h3) (newCID c r)) h h3 (fun w x => Remove_frame _ _ w x) Hp3) as Hp4.
       destruct (rt (Remove _ _) h3) as [? h4]. exact Hp4. }
  set (h3 := set_runtime _ h2) in *.
  destruct (await_healthy_prelude (newCID c r) spec wait h h3 Hp3) as [Hp4 Hrun].
  destruct (await_healthy _ spec wait h3) as [[[]|e] h4]; cbn [fst snd] in Hp4, Hrun; [|by apply cleanup_prelude].
  pose proof (update_swap c r spec h h4 Hp4 (Hrun eq_refl)) as Hd. cbv zeta in Hd.
  destruct (rt (Stop _ _ _) (cancel_running (oldCID c r) h4)) as [? h5]. cbn [snd] in Hd. destruct (rt (Remove _ _) h5) as [? h6]. exact Hd.
Qed.

(** A rolling update that aborts leaves everything but the new
    container as it was: no report, no watcher and no registration changes,
    and every other container, the old one included, keeps its state.  One
    that succeeds has the new container running and registered, and the old
    one's watcher is retired. *)
Theorem runtime_rolling_update c r spec wait h :
  match RollingUpdate c r spec wait h with
  | (Err _, h') => book h' = book h /\ forall x, x <> newCID c r -> containers h' x = containers h x
  | (Ok _, h') => update_done c r h h'
  end.
Proof.
  apply runtime_rolling_update_spec.
Qed.

Lemma RollingUpdate_occupied c r spec wait h : is_Some (containers h (newCID c r)) ->
  exists e, fst (RollingUpdate c r spec wait h) = Err e.
Proof.
  intros [st Hst]. unfold RollingUpdate. fold (oldCID c r). change (oldCID c r +:+ "-new") with (newCID c r).
  rewrite rt_eq. destruct (fst (Pull _ _ _ _)) as [[]|e]; [|by eexists]. set (h1 := set_runtime _ h).
  assert (Hst1 : containers h1 (newCID c r) = Some st) by (unfold containers, h1; cbn; by rewrite Pull_frame).
  rewrite rt_eq. pose proof (Create_ok (h_stopped h1) (newCID c r) (x_Image spec) (create_opts spec false) (h_runtime h1)) as Hc.
  destruct (fst (Create _ _ _ _ _)) as [[]|e]; [|by eexists]. destruct (Hc eq_refl) as [Hn _]. unfold containers in Hst1. congruence.
Qed.

(** An updated replica can no longer be controlled.  The update
    registers the new container under its own name ending in ["-new"],
    although its comment says the original ID: afterwards, with the old
    container gone, stopping the replica fails and leaves the new container
    running, and no further update of the replica can succeed. *)
Theorem runtime_updated_replica_orphaned c r spec wait h h' g
    (Hup : RollingUpdate c r spec wait h = (Ok tt, h')) (Hgone : containers h' (oldCID c r) = None) :
  (exists e, fst (StopContainer c r g h') = Err e) /\
  containers (snd (StopContainer c r g h')) (newCID c r) = Some containerStatusRunning /\
  (forall spec' wait', exists e, fst (RollingUpdate c r spec' wait' h') = Err e).
Proof.
  assert (Hd : update_done c r h h').
  { pose proof (runtime_rolling_update_spec c r spec wait h) as H. by rewrite Hup in H. }
  destruct Hd as (_ & Hold & Hrun & _). split; [|split].
  - unfold StopContainer. fold (oldCID c r). unfold cancel_running. rewrite Hold, rt_eq.
    destruct (Stop_missing (h_stopped h') (oldCID c r) [WithGracePeriod g] (h_runtime h') Hgone) as [[e ->] _]. by eexists.
  - unfold StopContainer. fold (oldCID c r). unfold cancel_running. rewrite Hold, rt_eq.
    destruct (Stop_missing (h_stopped h') (oldCID c r) [WithGracePeriod g] (h_runtime h') Hgone) as [[e ->] _]. cbn [snd].
    unfold containers. cbn. pose proof (old_new_differ c r). rewrite Stop_frame by done. exact Hrun.
  - intros spec' wait'. apply RollingUpdate_occupied. rewrite Hrun. by eexists.
Qed.

(** A stopped container can still be reported as failed.  When
    the health checker of a container is one failure short of its limit and
    the container is stopped on request, a turn of the checker after the stop
    (its select may prefer the ticker, or a probe is under way) counts the
    cancelled probe as a failure and reports the stopped capsule as failed,
    which the node answers with a new election. *)
Theorem runtime_failed_after_stop c r g h i w hc addr n h1 ans
    (Hreg : h_running h !! containerID c r = Some i) (Hw : h_watchers h !! i = Some w) (Hcap : w_capsuleID w = c)
    (Hchk : w_checker w = Some (hc, addr, n)) (Hlast : h_Retries hc <= n + 1)
    (Hstop : StopContainer c r g h = (Ok tt, h1)) :
  h_reports (health_tick i ans h1) = h_reports h ++ [Stopped c; Failed c "health check exhausted retries"].
Proof.
  unfold StopContainer, cancel_running in Hstop. rewrite Hreg in Hstop. set (h0 := set_running _ _) in Hstop.
  rewrite rt_eq in Hstop. destruct (fst (Stop _ _ _ _)) as [[]|]; [|done]. rewrite rt_eq in Hstop. injection Hstop as <-.
  set (h2 := set_runtime _ (set_runtime _ h0)). destruct (report_note (Stopped c) h2) as [e ->].
  assert (Hw1 : h_watchers (note (Stopped c) (set_env e h2)) !! i = Some (cancel_watcher w)).
  { cbn. by rewrite list_lookup_alter_eq, Hw. }
  unfold health_tick. rewrite Hw1. cbn [w_checker cancel_watcher]. rewrite Hchk. unfold ctx_done. cbn [w_cancelled cancel_watcher orb].
  assert (probe hc addr NoAnswer = false) as -> by (unfold probe; by destruct (probe_of hc addr)).
  unfold tick_probe. destruct (Z.leb_spec (h_Retries hc) (n + 1)); [|lia]. cbn [w_capsuleID cancel_watcher]. rewrite Hcap.
  set (h3 := on_watcher i (set_checker None) _). destruct (report_note (Failed c "health check exhausted retries") h3) as [e' ->].
  cbn. by rewrite <- app_assoc.
Qed.

End Updating.

(** ** Capturing against the watcher *)

Section Race.
Context `{R : Runtime} `{L : !RuntimeLaws R} `{C : Collaborators}.

(** The capture of a snapshot can end in an unwatched container.  A
    checkpoint stops the container; when the watcher ticks before the capture
    has started it again, and has no local restarts left, it reports the
    capsule as failed and retires; then the capture starts the container,
    which runs on with no watcher and no registration, while the node holds
    an election for another one. *)
Theorem runtime_capture_race h k g checksum size i w info
    (Hok : handler_ok h) (Hup : h_stopped h = false)
    (Hg : h_captures h !! k = Some g) (Hstage : g_stage g = Restarting checksum size)
    (Hw : h_watchers h !! i = Some w) (Hlive : live w) (Hturn : w_turn w = Ticking) (Hc : w_cID w = g_cID g) (Hlimit : w_restartLimit w <= w_localRestarts w)
    (Hexit : fst (Inspect false (g_cID g) (h_runtime h)) = Ok info) (Hstop : has_exited (ci_Status info) = true)
    (Hstart : fst (Start false (g_cID g) (snd (Inspect false (g_cID g) (h_runtime h)))) = Ok tt) :
  let h' := capture_restart k (watch_turn i h) in
  h_reports h' = h_reports h ++ [Failed (w_capsuleID w) (exit_reason (ci_ExitCode info) (w_localRestarts w))] /\
  containers h' (g_cID g) = Some containerStatusRunning /\
  h_running h' !! g_cID g = None /\
  (forall j w', h_watchers h' !! j = Some w' -> live w' -> w_cID w' <> g_cID g).
Proof.
  cbv zeta. pose proof Hlive as [Hnc Hne]. set (code := ci_ExitCode info).
  set (h1 := set_runtime (snd (Inspect false (g_cID g) (h_runtime h))) h).
  set (ws := alter (set_turn (Leaving code)) i (alter (set_turn (Inspected code)) i (h_watchers h))).
  set (h2 := set_watchers (alter (set_turn Ticking) i (alter (fun w => set_turn (Reporting code) (exit_watcher w)) i ws))
               (set_running (delete (g_cID g) (h_running h)) h1)).
  assert (Et : watch_turn i h = report (Failed (w_capsuleID w) (exit_reason code (w_localRestarts w))) h2).
  { assert (E1 : watch_step i h = on_watcher i (set_turn (Inspected code)) h1).
    { unfold watch_step. rewrite Hw, Hturn, Hne. unfold ctx_done. rewrite Hnc, Hup. cbn [orb]. by rewrite rt_eq, Hc, Hexit, Hstop. }
    assert (E2 : watch_step i (watch_step i h) = set_watchers ws h1).
    { rewrite E1. unfold watch_step. cbn [on_watcher set_watchers h_watchers h1 set_runtime]. rewrite list_lookup_alter_eq, Hw. cbn.
      by destruct (Z.ltb_spec (w_localRestarts w) (w_restartLimit w)); [lia|]. }
    assert (Ew : ws !! i = Some (set_turn (Leaving code) (set_turn (Inspected code) w))) by (unfold ws; by rewrite !list_lookup_alter_eq, Hw).
    unfold watch_turn. rewrite E2. unfold watch_step at 2. cbn [set_watchers h_watchers]. rewrite Ew. cbn [set_turn w_turn w_cID].
    unfold watch_step. cbn [on_watcher set_watchers h_watchers set_running h_running]. rewrite list_lookup_alter_eq, Ew. cbn. by rewrite Hc. }
  rewrite Et.
  assert (Hok2 : tables_ok (delete (g_cID g) (h_running h)) (h_watchers h2)).
  { apply tables_alter; [by intros; split_and!|]. apply tables_retire; [rewrite <- Hc; by apply (ok_live _ _ Hok i w)|apply leave_rest|].
    apply tables_alter; [by intros; split_and!|]. apply tables_alter; [by intros; split_and!|exact Hok]. }
  destruct (report_note (Failed (w_capsuleID w) (exit_reason code (w_localRestarts w))) h2) as [e ->].
  unfold capture_restart. cbn [h_captures note set_env h2 on_watcher set_watchers set_running h1 set_runtime]. rewrite Hg.
  destruct g as [gc gid gt gs gst]. cbn [g_stage g_cID g_capsuleID g_tag] in *. subst gst. rewrite rt_eq. cbn [h_runtime h_stopped set_captures note set_env h2 on_watcher set_watchers set_running h1 set_runtime].
  rewrite Hup, Hstart. pose proof (Start_ok false gid (snd (Inspect false gid (h_runtime h))) Hstart) as [_ Hr].
  assert (Hgone : delete gid (h_running h) !! gid = None) by apply lookup_delete_eq.
  assert (Hnone : forall j w', h_watchers h2 !! j = Some w' -> live w' -> w_cID w' <> gid).
  { intros j w' Hj Hl E. pose proof (ok_live _ _ Hok2 j w' Hj Hl) as Hreg. rewrite E, Hgone in Hreg. done. }
  destruct has_broadcaster; [rewrite collab_eq|]; (split_and!; [done|exact Hr|exact Hgone|exact Hnone]).
Qed.

End Race.

(** ** A node with an in-memory runtime *)

Module RuntimeDemo.
#[local] Existing Instances mock.mock_runtime mock.mock_laws.

Definition web : RtSpec :=
  {| x_Name := "web"; x_Image := "nginx"; x_ImageDigest := ""; x_Env := ∅; x_NetworkMode := networkModeHost; x_Ports := []; x_Resources := no_limits;
     x_Command := []; x_LogRetention := {| l_MaxFileSizeMB := 10; l_MaxFiles := 10 |}; x_SnapshotTTL := 0; x_MaxSnapshots := 3;
     x_HealthCheck := Some {| h_Type := healthCheckHTTP; h_Path := "/"; h_Port := 80; h_Interval := second; h_Timeout := second; h_Retries := 1; h_InitialDelay := 0 |};
     x_RestartLimit := 0; x_MaxNodeAttempts := 3; x_GracefulTimeout := 10 * second; x_RegistryUsername := ""; x_RegistryPassword := "" |}.

(** Collaborators that know one specification and always succeed. *)
#[local] Instance plain_collaborators : Collaborators := {|
  ENV := unit; has_snapshots := true; has_puller := false; has_broadcaster := false; has_stats := false;
  GetSpec := fun _ e => (Ok web, e); HasLocal := fun _ _ e => (false, e); SnapPath := fun _ c t => "/snap/" +:+ c +:+ "/" +:+ t;
  RecordSnapshot := fun _ _ _ _ _ _ e => (Ok tt, e); MarkInUse := fun _ _ _ e => (Ok tt, e); TouchAccess := fun _ _ e => (Ok tt, e);
  PullSnapshot := fun _ _ _ e => (Err "", e); BroadcastAvailable := fun _ _ _ _ e => (Ok tt, e); fileChecksum := fun _ _ => ("", 0);
  MarkRunning := fun _ e => (Ok tt, e); MarkFailed := fun _ _ e => (Ok tt, e); MarkStopped := fun _ e => (Ok tt, e);
  RegisterStats := fun _ _ e => (tt, e); UnregisterStats := fun _ e => (tt, e) |}.

Definition won : ElectionWon := {| ew_CapsuleID := "web"; ew_ReplicaID := "0"; ew_ClusterPath := "r/d/c"; ew_Score := f64_of_Z 90; ew_NodeID := "n1" |}.
Definition fresh : Handler (R := mock.mock_runtime) := NewHandler (R := mock.mock_runtime) (mock.New (fun n => Z.of_nat n) []) tt.
Definition up : Handler (R := mock.mock_runtime) := startContainer won fresh.

Example started_and_watched :
  h_reports up = [Running "web"] /\ h_running up !! "falak-web-0" = Some 0%nat /\ containers up "falak-web-0" = Some containerStatusRunning.
Proof. split_and!; vm_compute; reflexivity. Qed.

Definition updated : Handler (R := mock.mock_runtime) := snd (RollingUpdate "web" "0" web Window up).

Lemma runtime_updated_replica_orphaned_witness :
  exists e, fst (StopContainer "web" "0" second updated) = Err e /\ containers (snd (StopContainer "web" "0" second updated)) "falak-web-0-new" = Some containerStatusRunning.
Proof.
  destruct (runtime_updated_replica_orphaned "web" "0" web Window up updated second) as ([e He] & Hr & _).
  - vm_compute. reflexivity.
  - vm_compute. reflexivity.
  - exists e. split; [exact He|exact Hr].
Defined.

Definition stopped : Handler (R := mock.mock_runtime) := snd (StopContainer "web" "0" second up).

Lemma runtime_failed_after_stop_witness :
  h_reports (health_tick 0 (Response 200) stopped) = [Running "web"; Stopped "web"; Failed "web" "health check exhausted retries"].
Proof.
  apply (runtime_failed_after_stop "web" "0" second up 0
    {| w_cID := "falak-web-0"; w_capsuleID := "web"; w_restartLimit := 0; w_localRestarts := 0; w_cancelled := false; w_exited := false;
       w_turn := Ticking; w_checker := Some ({| h_Type := healthCheckHTTP; h_Path := "/"; h_Port := 80; h_Interval := second; h_Timeout := second; h_Retries := 1; h_InitialDelay := 0 |}, "127.0.0.1", 0);
       w_stats := false; w_lastCPU := f64_zero false; w_lastMem := f64_zero false |}
    {| h_Type := healthCheckHTTP; h_Path := "/"; h_Port := 80; h_Interval := second; h_Timeout := second; h_Retries := 1; h_InitialDelay := 0 |} "127.0.0.1" 0 stopped).
  - vm_compute. reflexivity.
  - vm_compute. reflexivity.
  - reflexivity.
  - reflexivity.
  - vm_compute. discriminate.
  - vm_compute. reflexivity.
Defined.

(** A container exits, and its watcher sees it; before the watcher removes its
    registration the container is stopped and started again. The watcher then
    removes the registration of the new watcher, which no stop reaches any more:
    after another stop and start two live watchers watch one container. *)
Definition overtaken : list (step_label (R := mock.mock_runtime)) :=
  [SStart won; SContainers (fun r => snd (mock.Stop false "falak-web-0" [] r)); SWatch 0; SWatch 0;
   SStopContainer "web" "0" second; SStart won; SWatch 0; SStopContainer "web" "0" second; SStart won].

Example runtime_two_watchers :
  let h := run_steps overtaken fresh in
  exists w w', h_watchers h !! 1%nat = Some w /\ h_watchers h !! 2%nat = Some w' /\ live w /\ live w' /\
    w_cID w = "falak-web-0" /\ w_cID w' = "falak-web-0".
Proof. do 2 eexists. split_and!; [vm_compute; reflexivity..|by split|by split|reflexivity|reflexivity]. Qed.

(** The capture has checkpointed; the runtime shows the container as stopped. *)
Definition captured : Handler (R := mock.mock_runtime) :=
  set_runtime (snd (mock.Stop false "falak-web-0" [] (h_runtime (capture_checkpoint 0 up)))) (capture_checkpoint 0 up).

Lemma captured_ok : handler_ok captured.
Proof.
  assert (E : h_running captured = {[ "falak-web-0" := 0%nat ]}) by (vm_compute; reflexivity).
  assert (Ew : exists w, h_watchers captured = [w] /\ w_cID w = "falak-web-0" /\ restarts_ok w).
  { eexists. split; [vm_compute; reflexivity|]. split; [reflexivity|]. split; vm_compute; discriminate. }
  destruct Ew as (w & Ew & Hc & Hr). unfold handler_ok. rewrite E, Ew. split.
  - intros c i. rewrite lookup_singleton. case_decide; [|done]. intros [= <-]. subst. by exists w.
  - intros [|i] w'; [|by rewrite lookup_nil || done]. intros [= <-] _. rewrite Hc. apply lookup_singleton_eq.
  - intros [|i] w'; [|by rewrite lookup_nil || done]. by intros [= <-].
Qed.

Lemma runtime_capture_race_witness :
  let h' := capture_restart 0 (watch_turn 0 captured) in
  h_running h' !! "falak-web-0" = None /\ containers h' "falak-web-0" = Some containerStatusRunning.
Proof.
  assert (Hg : exists g, h_captures captured !! 0%nat = Some g /\ g_stage g = Restarting "" 0 /\ g_cID g = "falak-web-0").
  { eexists. split_and!; [vm_compute; reflexivity|reflexivity|reflexivity]. }
  destruct Hg as (g & Hg & Hst & Hc).
  assert (Hw : exists w, h_watchers captured !! 0%nat = Some w /\ live w /\ w_turn w = Ticking /\ w_cID w = "falak-web-0" /\
    w_restartLimit w <= w_localRestarts w).
  { eexists. split_and!; [vm_compute; reflexivity|by split|reflexivity|reflexivity|vm_compute; discriminate]. }
  destruct Hw as (w & Hw & Hl & Ht & Hwc & Hlim).
  destruct (fst (runtime.Inspect false (g_cID g) (h_runtime captured))) as [info|] eqn:Ei; [|rewrite Hc in Ei; vm_compute in Ei; discriminate].
  pose proof (runtime_capture_race captured 0 g "" 0 0 w info captured_ok eq_refl Hg Hst Hw Hl Ht) as H. cbv zeta in H.
  rewrite Hc in *. destruct H as (_ & H1 & H2 & _); [done|done|exact Ei| | |by split].
  - vm_compute in Ei. injection Ei as <-. vm_compute. reflexivity.
  - vm_compute. reflexivity.
Defined.

End RuntimeDemo.
