(* ===== verification/Podman.v ===== *)
(** * Podman ([runtime/podman/runtime.go])

    The implementation of the runtime over Podman's REST API.  The daemon
    behind the socket is the interface [PodmanAPI]: a request changes its
    state and gets a response, or an error of the transport; bodies are
    decoded JSON, [None] where they do not decode.  A request whose context is
    done is not sent. *)

From stdpp Require Import pretty.
From S2P Require Import Prelude Float64 Strconv ElectionTopic Orbit Shared FilePath Runtime.
Import runtime.
Local Open Scope string_scope.
Local Open Scope list_scope.
Local Open Scope Z_scope.

(** ** Requests and responses *)

Record PortJson := { pj_container_port : Z; pj_protocol : string; pj_host_port : option Z }.

(** The body of a create request; an absent member is [None] or empty. *)
Record SpecGen := {
  sg_name : string; sg_image : string; sg_nsmode : option string; sg_portmappings : list PortJson;
  sg_cpu : option (Z * Z);          (** period, quota *)
  sg_memory : option Z;             (** bytes *)
  sg_env : gmap string string; sg_command : list string; sg_work_dir : string; sg_labels : gmap string string
}.

Record Request := { q_method : string; q_path : string; q_query : list (string * string); q_auth : option (string * string); q_body : option SpecGen }.

(** The members of an inspect response the code reads. *)
Record RawInspect := {
  ri_ID : string; ri_Name : string; ri_Image : string;
  ri_Status : string; ri_Running : bool; ri_Paused : bool; ri_ExitCode : Z; ri_Pid : Z; ri_StartedAt : Time; ri_FinishedAt : Time;
  ri_Created : Time; ri_Hostname : string; ri_Env : list string; ri_Labels : gmap string string;
  ri_IPAddress : string; ri_Ports : gmap string (list (string * string));   (** host address and port *)
  ri_CPUQuota : Z; ri_CPUPeriod : Z; ri_Memory : Z; ri_RestartCount : Z
}.

Inductive Body :=
  | BNone
  | BCreated (id : string)
  | BInspect (raw : option RawInspect)
  | BArchive (data : bytes) (complete : bool).      (** [complete]: the copy does not fail *)
Record Response := { rs_code : Z; rs_body : Body }.

Class PodmanAPI := { Daemon : Type; Serve : Request -> ST Daemon (option Response) }.

(** ** State *)

Record containerMeta := { cm_id : string; cm_name : string; cm_image : string; cm_createdAt : Time }.

Section Podman.
Context `{A : PodmanAPI} `{G : GoRange} `{V : GoConv}.

Record Podman := {
  pd_daemon : Daemon; pd_containers : gmap string containerMeta; pd_fs : FS;
  pd_clock : nat -> Time; pd_ticks : nat
}.

Definition with_containers (m : gmap string containerMeta) (p : Podman) : Podman :=
  {| pd_daemon := pd_daemon p; pd_containers := m; pd_fs := pd_fs p; pd_clock := pd_clock p; pd_ticks := pd_ticks p |}.
Definition with_fs (f : FS) (p : Podman) : Podman :=
  {| pd_daemon := pd_daemon p; pd_containers := pd_containers p; pd_fs := f; pd_clock := pd_clock p; pd_ticks := pd_ticks p |}.
Definition pd_now : ST Podman Time := fun p => (pd_clock p (pd_ticks p),
  {| pd_daemon := pd_daemon p; pd_containers := pd_containers p; pd_fs := pd_fs p; pd_clock := pd_clock p; pd_ticks := S (pd_ticks p) |}).

(** The path of [apiURL]. *)
Definition apiURL (path : string) : string := "/v5.0.0" +:+ path.

(** [client.Do] *)
Definition Do (done_ : bool) (q : Request) : ST Podman (option Response) := fun p =>
  if done_ then (None, p)
  else let '(r, d) := Serve q (pd_daemon p) in
       (r, {| pd_daemon := d; pd_containers := pd_containers p; pd_fs := pd_fs p; pd_clock := pd_clock p; pd_ticks := pd_ticks p |}).

Definition request (method path : string) (query : list (string * string)) : Request :=
  {| q_method := method; q_path := apiURL path; q_query := query; q_auth := None; q_body := None |}.

Definition err_status (op : string) (code : Z) : string := "podman " +:+ op +:+ ": status " +:+ pretty code.
Definition err_do (op : string) : string := "podman " +:+ op +:+ ": request failed".

(** ** Operations *)

Definition Pull (d : bool) (image : string) (opts : list PullOption) : ST Podman (result string unit) := fun p =>
  let cfg := ApplyPullOptions opts in
  let q := {| q_method := "POST"; q_path := apiURL "/images/pull";
              q_query := ("reference", image) :: (if pc_ForcePull cfg then [("policy", "always")] else []);
              q_auth := if pc_Username cfg <>s "" then Some (pc_Username cfg, pc_Password cfg) else None; q_body := None |} in
  match Do d q p with
  | (None, p) => (Err (err_do "pull"), p)
  | (Some r, p) => (if rs_code r =? 200 then Ok tt else Err (err_status "pull" (rs_code r)), p)
  end.

Definition port_json (pm : PortMapping) : PortJson :=
  {| pj_container_port := p_ContainerPort pm; pj_protocol := p_Protocol pm;
     pj_host_port := if 0 <? p_HostPort pm then Some (p_HostPort pm) else None |}.

Definition period : Z := 100000.

(** The body that [Create] builds. *)
Definition specgen (id image : string) (cfg : CreateConfig) : SpecGen :=
  {| sg_name := id; sg_image := image;
     sg_nsmode := if cc_NetworkMode cfg =s networkModeHost then Some "host" else None;
     sg_portmappings := port_json <$> cc_Ports cfg;
     sg_cpu := if f64_gt (EffectiveCPUMax (cc_Resources cfg)) (f64_zero false)
               then Some (period, f64_to_int64 (f64_mul (EffectiveCPUMax (cc_Resources cfg)) (f64_of_Z period))) else None;
     sg_memory := if 0 <? EffectiveMemoryMax (cc_Resources cfg)
                  then Some (int64 (EffectiveMemoryMax (cc_Resources cfg) * 1024 * 1024)) else None;
     sg_env := cc_Env cfg; sg_command := cc_Command cfg; sg_work_dir := cc_WorkingDir cfg; sg_labels := cc_Labels cfg |}.

Definition Create (d : bool) (id image : string) (opts : list CreateOption) : ST Podman (result string unit) := fun p =>
  let q := {| q_method := "POST"; q_path := apiURL "/containers/create"; q_query := []; q_auth := None;
              q_body := Some (specgen id image (ApplyCreateOptions opts)) |} in
  match Do d q p with
  | (None, p) => (Err (err_do "create"), p)
  | (Some r, p) =>
      if rs_code r =? 201 then
        let result := match rs_body r with BCreated i => i | _ => "" end in
        let '(now, p) := pd_now p in
        (Ok tt, with_containers (<[id := {| cm_id := result; cm_name := id; cm_image := image; cm_createdAt := now |}]> (pd_containers p)) p)
      else (Err (err_status "create" (rs_code r)), p)
  end.

(** 204 and 304 are both fine. *)
Definition ok_or_unchanged (op : string) (r : Response) : result string unit :=
  if (rs_code r =? 204) || (rs_code r =? 304) then Ok tt else Err (err_status op (rs_code r)).

Definition Start (d : bool) (id : string) : ST Podman (result string unit) := fun p =>
  match Do d (request "POST" ("/containers/" +:+ id +:+ "/start") []) p with
  | (None, p) => (Err (err_do "start"), p)
  | (Some r, p) => (ok_or_unchanged "start" r, p)
  end.

Definition Stop (d : bool) (id : string) (opts : list StopOption) : ST Podman (result string unit) := fun p =>
  let timeout := f64_to_int64 (Duration_Seconds (sc_GracePeriod (ApplyStopOptions opts))) in
  match Do d (request "POST" ("/containers/" +:+ id +:+ "/stop") [("timeout", pretty timeout)]) p with
  | (None, p) => (Err (err_do "stop"), p)
  | (Some r, p) => (ok_or_unchanged "stop" r, p)
  end.

Definition Remove (d : bool) (id : string) : ST Podman (result string unit) := fun p =>
  match Do d (request "DELETE" ("/containers/" +:+ id) [("force", "true"); ("v", "true")]) p with
  | (None, p) => (Err (err_do "remove"), p)
  | (Some r, p) =>
      if (rs_code r =? 200) || (rs_code r =? 204) then (Ok tt, with_containers (delete id (pd_containers p)) p)
      else (Err (err_status "remove" (rs_code r)), p)
  end.

(** The archive is written to the path itself. *)
Definition Checkpoint (d : bool) (id snapshotPath : string) : ST Podman (result string unit) := fun p =>
  match Do d (request "POST" ("/containers/" +:+ id +:+ "/checkpoint") [("export", "true"); ("leaveRunning", "false")]) p with
  | (None, p) => (Err (err_do "checkpoint"), p)
  | (Some r, p) =>
      if rs_code r =? 200 then
        let '(data, complete) := match rs_body r with BArchive b c => (b, c) | _ => ([], true) end in
        let path := elems snapshotPath in
        let '(ok, f) := MkdirAll (parent path) (pd_fs p) in
        if negb ok then (Err "podman checkpoint: mkdir", with_fs f p) else
        let '(ok, f) := FilePath.Create path f in
        if negb ok then (Err "podman checkpoint: create file", with_fs f p) else
        let '(ok, f) := WriteFile path data f in
        if ok && complete then (Ok tt, with_fs f p)
        else let '(_, f) := RemoveAll path f in (Err "podman checkpoint: write", with_fs f p)
      else (Err (err_status "checkpoint" (rs_code r)), p)
  end.

Definition Restore (d : bool) (id snapshotPath : string) (opts : list RestoreOption) : ST Podman (result string unit) := fun p =>
  match Do d (request "POST" ("/containers/" +:+ id +:+ "/restore") [("import", snapshotPath); ("name", id)]) p with
  | (None, p) => (Err (err_do "restore"), p)
  | (Some r, p) =>
      if rs_code r =? 200 then
        let '(now, p) := pd_now p in
        (Ok tt, with_containers (<[id := {| cm_id := ""; cm_name := id; cm_image := ""; cm_createdAt := now |}]> (pd_containers p)) p)
      else (Err (err_status "restore" (rs_code r)), p)
  end.

Definition OpenStats (d : bool) (id : string) : ST Podman (result string unit) := fun p =>
  match Do d (request "GET" ("/containers/" +:+ id +:+ "/stats") [("stream", "true")]) p with
  | (None, p) => (Err (err_do "stats"), p)
  | (Some r, p) => (if rs_code r =? 200 then Ok tt else Err (err_status "stats" (rs_code r)), p)
  end.

(** A sample of the stream: CPU share and unsigned counters. *)
Definition stats_of (cpu : f64) (memUsage memLimit netIn netOut blockIn blockOut : Z) : Stats :=
  {| st_CPUPercent := cpu; st_MemoryMB := int64 (memUsage / (1024 * 1024)); st_MemoryMax := int64 (memLimit / (1024 * 1024));
     st_NetworkRx := int64 netIn; st_NetworkTx := int64 netOut; st_DiskRead := int64 blockIn; st_DiskWrite := int64 blockOut |}.

(** *** Inspect *)

Definition inspect_status (raw : RawInspect) : ContainerStatus :=
  if ri_Running raw then containerStatusRunning
  else if ri_Paused raw then containerStatusStopped
  else if (ri_Status raw =s "exited") && negb (ri_ExitCode raw =? 0) then containerStatusFailed
  else if ri_Status raw =s "exited" then containerStatusStopped
  else if ri_Status raw =s "created" then containerStatusCreated
  else containerStatusUnknown.

(** [strings.SplitN(s, sep, 2)] *)
Fixpoint cut (sep : ascii) (s : string) : string * option string :=
  match s with
  | EmptyString => ("", None)
  | String c s => if Ascii.eqb c sep then ("", Some s) else let '(a, b) := cut sep s in (String c a, b)
  end.

Definition parse_env (env : list string) : gmap string string :=
  fold_left (fun m e => match cut "=" e with (k, Some v) => <[k := v]> m | (_, None) => m end) env ∅.

(** [n, _ := strconv.Atoi(s)]: zero on a syntax error, the nearest bound on
    one of range. *)
Definition atoi (s : string) : Z :=
  match strconv_Atoi s with
  | Some z => z
  | None =>
      let '(sign, ds) := match s with String "-" ds => (-1, ds) | String "+" ds => (1, ds) | _ => (1, s) end in
      match ds, digits 0 ds with
      | String _ _, Some n => if sign <? 0 then min_int64 else max_int64
      | _, _ => 0
      end
  end.
Definition uint16 (z : Z) : Z := z mod 2 ^ 16.

Definition parse_ports (ports : gmap string (list (string * string))) : list PortMapping :=
  concat ((fun kb : string * list (string * string) =>
    let '(cp, proto) := cut "/" kb.1 in
    (fun b : string * string => {| p_Name := ""; p_ContainerPort := uint16 (atoi cp); p_HostPort := uint16 (atoi b.2);
                 p_Protocol := default "tcp" proto |}) <$> kb.2) <$> range ports).

Definition TrimPrefix (prefix s : string) : string :=
  if String.prefix prefix s then String.substring (String.length prefix) (String.length s - String.length prefix) s else s.

Definition info_of (raw : RawInspect) : ContainerInfo :=
  {| ci_ID := ri_ID raw; ci_Name := TrimPrefix "/" (ri_Name raw); ci_Image := ri_Image raw; ci_Status := inspect_status raw;
     ci_CreatedAt := ri_Created raw; ci_StartedAt := ri_StartedAt raw; ci_FinishedAt := ri_FinishedAt raw; ci_ExitCode := ri_ExitCode raw;
     ci_Pid := ri_Pid raw; ci_RestartCount := ri_RestartCount raw; ci_IP := ri_IPAddress raw; ci_Ports := parse_ports (ri_Ports raw);
     ci_Hostname := ri_Hostname raw; ci_DNS := [];
     ci_CPULimit := if 0 <? ri_CPUPeriod raw then f64_div (f64_of_Z (ri_CPUQuota raw)) (f64_of_Z (ri_CPUPeriod raw)) else f64_zero false;
     ci_MemoryLimit := Z.quot (ri_Memory raw) (1024 * 1024); ci_Labels := ri_Labels raw; ci_Env := parse_env (ri_Env raw) |}.

Definition Inspect (d : bool) (id : string) : ST Podman (result string ContainerInfo) := fun p =>
  match Do d (request "GET" ("/containers/" +:+ id +:+ "/json") []) p with
  | (None, p) => (Err (err_do "inspect"), p)
  | (Some r, p) =>
      if rs_code r =? 200 then
        match rs_body r with
        | BInspect (Some raw) => (Ok (info_of raw), p)
        | _ => (Err "podman inspect: decode", p)
        end
      else (Err (err_status "inspect" (rs_code r)), p)
  end.

#[export] Instance podman_runtime : Runtime := {|
  RT := Podman; runtime.Pull := Pull; runtime.Create := Create; runtime.Start := Start; runtime.Stop := Stop; runtime.Remove := Remove;
  runtime.Checkpoint := Checkpoint; runtime.Restore := Restore; runtime.OpenStats := OpenStats; runtime.Inspect := Inspect |}.

(** A done context fails every call. *)
#[export] Instance podman_context : HonoursContext podman_runtime.
Proof. split. intros id w. by eexists. Qed.

End Podman.

(** ** Logs *)

Record LogEntry := { le_Stream : string; le_Line : string }.

(** The last newlines of a line are cut. *)
Fixpoint drop_newlines (rev_line : bytes) : bytes :=
  match rev_line with c :: l => if Ascii.eqb c "010" then drop_newlines l else rev_line | [] => [] end.
Definition TrimRight_nl (b : bytes) : bytes := rev (drop_newlines (rev b)).

Definition max_frame : Z := 2 ^ 20.

(** The loop over the multiplexed stream: an 8-byte header (stream type, three
    zeros, size) and the payload.  A turn takes at least the header, so the
    length of the stream bounds the turns. *)
Fixpoint read_logs (fuel : nat) (r : bytes) : list LogEntry :=
  match fuel with
  | O => []
  | S fuel =>
      match framing.ReadFull 8 r with
      | (None, _) => []
      | (Some hdr, r) =>
          let frameSize := framing.Uint32 (drop 4 hdr) in
          if (frameSize =? 0) || (max_frame <? frameSize) then read_logs fuel r
          else
            match framing.ReadFull frameSize r with
            | (None, _) => []
            | (Some payload, r) =>
                {| le_Stream := if bool_decide (hdr !! 0%nat = Some "002"%char) then "stderr" else "stdout";
                   le_Line := string_of_list_ascii (TrimRight_nl payload) |} :: read_logs fuel r
            end
      end
  end.
Definition Logs (stream : bytes) : list LogEntry := read_logs (S (length stream)) stream.

(** *** Log streams *)

Definition log_frame (f : bool * bytes) : bytes :=
  [(if f.1 then "002"%char else "001"%char); Ascii.zero; Ascii.zero; Ascii.zero] ++ big_endian 4 (Z.of_nat (length f.2)) ++ f.2.
Definition log_entry (f : bool * bytes) : LogEntry :=
  {| le_Stream := if f.1 then "stderr" else "stdout"; le_Line := string_of_list_ascii (TrimRight_nl f.2) |}.

Lemma length_log_frame f : length (log_frame f) = (8 + length f.2)%nat.
Proof. unfold log_frame. by rewrite !length_app, big_endian_length. Qed.

Lemma ReadFull_shorter n r x r' : framing.ReadFull n r = (Some x, r') -> length r' = (length r - Z.to_nat n)%nat.
Proof. unfold framing.ReadFull. destruct (_ <? n); [done|]. intros [= _ <-]. apply length_drop. Qed.

Lemma read_logs_fuel f1 f2 r : (length r < f1)%nat -> (length r < f2)%nat -> read_logs f1 r = read_logs f2 r.
Proof.
  revert f2 r. induction f1 as [|f1 IH]; intros [|f2] r H1 H2; try lia. cbn [read_logs].
  destruct (framing.ReadFull 8 r) as [[hdr|] r1] eqn:E1; [|done]. pose proof (ReadFull_shorter _ _ _ _ E1) as Hl1.
  assert (Hr : (8 <= length r)%nat) by (unfold framing.ReadFull in E1; destruct (Z.ltb_spec (Z.of_nat (length r)) 8); [done|lia]).
  change (Z.to_nat 8) with 8%nat in Hl1. destruct ((_ =? 0) || _); [apply IH; lia|].
  destruct (framing.ReadFull _ r1) as [[payload|] r2] eqn:E2; [|done]. pose proof (ReadFull_shorter _ _ _ _ E2). f_equal. apply IH; lia.
Qed.

(** The header of a frame, as the loop reads it. *)
Lemma read_header f r : Z.of_nat (length f.2) < 2 ^ 32 ->
  exists hdr, framing.ReadFull 8 (log_frame f ++ r) = (Some hdr, f.2 ++ r) /\ framing.Uint32 (drop 4 hdr) = Z.of_nat (length f.2) /\
    hdr !! 0%nat = Some (if f.1 then "002"%char else "001"%char).
Proof.
  intros Hlen. unfold log_frame. set (hd := [_; _; _; _]). set (sz := big_endian 4 _).
  assert (Hl : length (hd ++ sz) = 8%nat) by (unfold sz; by rewrite length_app, big_endian_length).
  exists (hd ++ sz). split_and!.
  - replace ((hd ++ sz ++ f.2) ++ r) with ((hd ++ sz) ++ f.2 ++ r) by (by rewrite <- !app_assoc).
    replace 8 with (Z.of_nat (length (hd ++ sz))) by (rewrite Hl; done). apply framing.ReadFull_app.
  - change (drop 4 (hd ++ sz)) with sz. apply framing.Uint32_big_endian. change (256 ^ Z.of_nat 4) with (2 ^ 32). lia.
  - done.
Qed.

Definition frame_ok (f : bool * bytes) : Prop := 1 <= Z.of_nat (length f.2) <= max_frame.

(** One frame is one entry. *)
Lemma read_logs_frame f r : frame_ok f -> Logs (log_frame f ++ r) = log_entry f :: Logs r.
Proof.
  intros [H1 H2]. unfold max_frame in H2. destruct (read_header f r) as (hdr & E1 & E2 & E3); [lia|].
  unfold Logs at 1. cbn [read_logs]. rewrite E1, E2.
  destruct (Z.eqb_spec (Z.of_nat (length f.2)) 0); [lia|]. unfold max_frame. destruct (Z.ltb_spec (2 ^ 20) (Z.of_nat (length f.2))); [lia|]. cbn [orb].
  rewrite framing.ReadFull_app, E3. unfold log_entry. f_equal.
  - f_equal. by destruct f.1.
  - apply read_logs_fuel; [|lia]. rewrite length_app, length_log_frame. lia.
Qed.

(** Logs arrive in order and complete.  For a stream of frames of one
    byte to one megabyte, with possibly the beginning of a header after them,
    [Logs] emits exactly one entry per frame, in order, with its stream and
    its text without final newlines. *)
Theorem podman_logs_exact frames tail (Hf : Forall frame_ok frames) (Ht : (length tail < 8)%nat) :
  Logs (concat (log_frame <$> frames) ++ tail) = log_entry <$> frames.
Proof.
  induction Hf as [|f frames H1 _ IH]; cbn [fmap list_fmap concat].
  - unfold Logs. cbn [read_logs app]. unfold framing.ReadFull. destruct (Z.ltb_spec (Z.of_nat (length tail)) 8); [done|lia].
  - rewrite <- app_assoc, read_logs_frame by done. by rewrite IH.
Qed.

(** An oversized log frame lets the container forge entries.  The
    loop skips only the header of a frame of more than a megabyte, so that a
    payload that starts with a frame of its own is read as that frame: the
    container chooses the stream and text of an entry. *)
Theorem podman_logs_forged inner pad rest
    (Hin : frame_ok inner) (Hbig : max_frame < Z.of_nat (length (log_frame inner ++ pad)) < 2 ^ 32) :
  Logs (log_frame (false, log_frame inner ++ pad) ++ rest) = log_entry inner :: Logs (pad ++ rest).
Proof.
  destruct (read_header (false, log_frame inner ++ pad) rest) as (hdr & E1 & E2 & _); [apply Hbig|]. cbn [snd] in *.
  unfold Logs at 1. cbn [read_logs]. rewrite E1, E2.
  destruct (Z.ltb_spec max_frame (Z.of_nat (length (log_frame inner ++ pad)))); [|lia]. rewrite orb_true_r.
  rewrite <- read_logs_frame by done. rewrite <- app_assoc. apply read_logs_fuel; [|lia].
  rewrite !length_app, !length_log_frame. cbn [snd]. rewrite length_app, length_log_frame. lia.
Qed.

(** ** What the options do *)

Section Options.
Context `{A : PodmanAPI} `{G : GoRange} `{V : GoConv}.

(** The log retention and the restore options have no effect.
    Whatever retention is added to the options of a create, and whatever
    options a restore gets, the daemon receives the same request and the
    runtime ends in the same state. *)
Theorem podman_ignores_options d id image opts retention path ropts p :
  Create d id image (opts ++ [WithLogRetention retention]) p = Create d id image opts p /\
  Restore d id path ropts p = Restore d id path [] p.
Proof.
  split; [|done]. unfold Create.
  assert (E : specgen id image (ApplyCreateOptions (opts ++ [WithLogRetention retention])) = specgen id image (ApplyCreateOptions opts))
    by (unfold ApplyCreateOptions; rewrite fold_left_app; reflexivity).
  by rewrite E.
Qed.

(** A captured snapshot is a file at the snapshot's path, which
    [Transfer.transfer_captured_fails] cannot send. *)
Lemma checkpoint_writes_file d id path p : fst (Checkpoint d id path p) = Ok tt ->
  exists c, fs_tree (pd_fs (snd (Checkpoint d id path p))) !! elems path = Some (File c).
Proof.
  unfold Checkpoint. destruct (Do d _ p) as [[r|] p1]; [|done]. destruct (rs_code r =? 200); [|done].
  destruct (match rs_body r with BArchive b c => (b, c) | _ => ([], true) end) as [data complete].
  destruct (MkdirAll _ _) as [[] f1]; [|done]. destruct (FilePath.Create _ f1) as [[] f2]; [|done]. cbn [negb].
  unfold WriteFile, fs_do. destruct (fs_fault f2 (fs_ops f2)); [by destruct (RemoveAll _ _)|]. cbn [andb].
  destruct complete; [|by destruct (RemoveAll _ _)]. intros _. exists data. cbn. apply lookup_insert_eq.
Qed.

End Options.

Module PodmanDemo.

Lemma podman_logs_exact_witness :
  Logs (log_frame (false, list_ascii_of_string "hello") ++ log_frame (true, list_ascii_of_string "oops") ++ [Ascii.zero]) =
  [{| le_Stream := "stdout"; le_Line := "hello" |}; {| le_Stream := "stderr"; le_Line := "oops" |}].
Proof.
  pose proof (podman_logs_exact [(false, list_ascii_of_string "hello"); (true, list_ascii_of_string "oops")] [Ascii.zero]) as H.
  rewrite app_assoc. rewrite <- (app_nil_r (log_frame (true, _))). apply H; [|cbn; lia].
  repeat constructor; vm_compute; discriminate.
Defined.

(** A forged entry of the error stream; the rest of the payload are zeros. *)
Lemma podman_logs_forged_witness :
  exists stream, Logs stream = {| le_Stream := "stderr"; le_Line := "forged" |} :: Logs (repeat Ascii.zero (Z.to_nat (2 ^ 20)) ++ []).
Proof.
  eexists. apply (podman_logs_forged (true, list_ascii_of_string "forged") (repeat Ascii.zero (Z.to_nat (2 ^ 20))) []).
  - split; vm_compute; discriminate.
  - rewrite length_app, repeat_length, length_log_frame. unfold max_frame. cbn [length snd list_ascii_of_string]. lia.
Defined.

End PodmanDemo.
