(* ===== verification/RuntimeNode.v ===== *)
(** * The runtime in the node ([node/runtime_handler.go], [shared/secrets])

    The adapters that join the runtime handler to the capsule manager, the
    snapshot store and discovery, the event bus and the scaling registry:
    they make the node an instance of [Collaborators].  Registry credentials
    are decrypted with AES-GCM, the interface [Aead].

    The answers of the peers to snapshot requests are fields of the state.
    The disk is the node's; an archive that the container runtime writes to it
    is an [SNode] step. *)

From S2P Require Import Prelude Float64 Handler CapsuleTypes CapsuleSpec Lifecycle CapsuleStore CapsuleManager ElectionTopic Orbit.
From S2P Require Import Shared SnapshotStore Discovery FilePath Transfer Runtime Podman RuntimeHandler.
Import runtime.
Local Open Scope string_scope.
Local Open Scope list_scope.
Local Open Scope Z_scope.

(** ** Secrets: [shared/secrets/secrets.go] *)

Module secrets.

Definition SEKInfo : string := "falak-secrets".
Definition sekSize : Z := 32.
Definition nonceSize : nat := 12.

Inductive SecretsError := ErrEmptyPSK | ErrEmptyPath | ErrHKDF | ErrCipher | ErrTooShort | ErrDecrypt.

(** HKDF over SHA-256, and AES-GCM with a key, a nonce and a message. *)
Class Aead := {
  hkdf : bytes -> bytes -> bytes -> Z -> option bytes;     (** secret, salt, info, length *)
  key_ok : bytes -> bool;                                   (** [aes.NewCipher] accepts the key *)
  gcm_Seal : bytes -> bytes -> bytes -> bytes;
  gcm_Open : bytes -> bytes -> bytes -> option bytes
}.
Class AeadLaws (A : Aead) := {
  open_seal : forall k n m, key_ok k = true -> gcm_Open k n (gcm_Seal k n m) = Some m;
  hkdf_size : forall s salt info n k, hkdf s salt info n = Some k -> Z.of_nat (length k) = n;
  key_size : forall k, Z.of_nat (length k) = 32 -> key_ok k = true
}.

Section Secrets.
Context `{A : Aead}.

Definition DeriveKey (psk : bytes) (clusterPath : string) : result SecretsError bytes :=
  if (length psk =? 0)%nat then Err ErrEmptyPSK
  else if clusterPath =s "" then Err ErrEmptyPath
  else match hkdf psk (list_ascii_of_string clusterPath) (list_ascii_of_string SEKInfo) sekSize with
       | None => Err ErrHKDF
       | Some key => Ok key
       end.

(** [nonce] are the random bytes of the call. *)
Definition Encrypt (nonce sek plaintext : bytes) : result SecretsError bytes :=
  if negb (key_ok sek) then Err ErrCipher else Ok (nonce ++ gcm_Seal sek nonce plaintext).

Definition Decrypt (sek ciphertext : bytes) : result SecretsError bytes :=
  if (length ciphertext <? nonceSize)%nat then Err ErrTooShort
  else if negb (key_ok sek) then Err ErrCipher
  else match gcm_Open sek (take nonceSize ciphertext) (drop nonceSize ciphertext) with
       | None => Err ErrDecrypt
       | Some plaintext => Ok plaintext
       end.

Definition EncryptString (nonce sek : bytes) (value : string) : result SecretsError bytes := Encrypt nonce sek (list_ascii_of_string value).
Definition DecryptString (sek ciphertext : bytes) : result SecretsError string :=
  match Decrypt sek ciphertext with Err e => Err e | Ok plaintext => Ok (string_of_list_ascii plaintext) end.

(** Nodes of one cluster share secrets.  With a pre-shared key and
    a cluster path that are not empty, every node that derives its key gets
    one that encrypts any text under any fresh nonce, and whatever one node
    encrypts another node with the same pre-shared key and path decrypts to
    the same text. *)
Theorem secrets_shared `{!AeadLaws A} psk path nonce value
    (Hpsk : psk <> []) (Hpath : path <> "") (Hn : length nonce = nonceSize) :
  match DeriveKey psk path with
  | Err e => e = ErrHKDF
  | Ok sek => exists c, EncryptString nonce sek value = Ok c /\
      forall sek', DeriveKey psk path = Ok sek' -> DecryptString sek' c = Ok value
  end.
Proof.
  unfold DeriveKey. destruct psk as [|b psk]; [done|]. cbn [length Nat.eqb]. destruct (String.eqb_spec path ""); [done|].
  destruct (hkdf _ _ _ _) as [sek|] eqn:Ek; [|done]. pose proof (key_size sek (hkdf_size _ _ _ _ _ Ek)) as Hk.
  eexists. unfold EncryptString, Encrypt. rewrite Hk. split; [done|]. intros ? [= <-].
  unfold DecryptString, Decrypt. rewrite length_app, Hn. destruct (Nat.ltb_spec (nonceSize + length (gcm_Seal sek nonce (list_ascii_of_string value))) nonceSize); [lia|].
  rewrite Hk. cbn [negb]. rewrite <- Hn, take_app_length, drop_app_length, open_seal by done. by rewrite string_of_list_ascii_of_string.
Qed.

End Secrets.
End secrets.

(** ** The node's side *)

Inductive NodeEvent := CapsuleRunning (capsuleID : string) | CapsuleExecutionFailed (capsuleID reason : string).

Section Node.
Context `{GR : GoRange} `{SQ : SqlTable} `{JC : JsonCodec} `{SM : StateMachineLib}.
Context `{AE : secrets.Aead} `{GC : GoConv} `{SO : SnapOrder} `{SJ : SnapJson} `{TC : TransferCodec} `{H256 : Sha256}.

Record NodeEnv := {
  ne_manager : Manager;
  ne_sek : option bytes;                                  (** secrets encryption key *)
  ne_store : SnapshotStore.Store; ne_fs : FS; ne_discovery : Discovery;
  ne_ask : string -> option bytes * nat;                   (** the peers' answers *)
  ne_decode : string -> bool; ne_first : result QueryError string;
  ne_clock : nat -> Time; ne_ticks : nat; ne_publish_ok : bool;
  ne_published : list bytes; ne_events : list NodeEvent;
  ne_stats : gmap string nat                               (** the metrics registry *)
}.

Definition set_manager (m : Manager) (e : NodeEnv) : NodeEnv :=
  {| ne_manager := m; ne_sek := ne_sek e; ne_store := ne_store e; ne_fs := ne_fs e; ne_discovery := ne_discovery e; ne_ask := ne_ask e;
     ne_decode := ne_decode e; ne_first := ne_first e; ne_clock := ne_clock e; ne_ticks := ne_ticks e; ne_publish_ok := ne_publish_ok e;
     ne_published := ne_published e; ne_events := ne_events e; ne_stats := ne_stats e |}.
Definition set_disk (s : SnapshotStore.Store) (f : FS) (e : NodeEnv) : NodeEnv :=
  {| ne_manager := ne_manager e; ne_sek := ne_sek e; ne_store := s; ne_fs := f; ne_discovery := ne_discovery e; ne_ask := ne_ask e;
     ne_decode := ne_decode e; ne_first := ne_first e; ne_clock := ne_clock e; ne_ticks := ne_ticks e; ne_publish_ok := ne_publish_ok e;
     ne_published := ne_published e; ne_events := ne_events e; ne_stats := ne_stats e |}.
Definition publish_event (ev : NodeEvent) (e : NodeEnv) : NodeEnv :=
  {| ne_manager := ne_manager e; ne_sek := ne_sek e; ne_store := ne_store e; ne_fs := ne_fs e; ne_discovery := ne_discovery e; ne_ask := ne_ask e;
     ne_decode := ne_decode e; ne_first := ne_first e; ne_clock := ne_clock e; ne_ticks := ne_ticks e; ne_publish_ok := ne_publish_ok e;
     ne_published := ne_published e; ne_events := ne_events e ++ [ev]; ne_stats := ne_stats e |}.
Definition set_registry (r : gmap string nat) (e : NodeEnv) : NodeEnv :=
  {| ne_manager := ne_manager e; ne_sek := ne_sek e; ne_store := ne_store e; ne_fs := ne_fs e; ne_discovery := ne_discovery e; ne_ask := ne_ask e;
     ne_decode := ne_decode e; ne_first := ne_first e; ne_clock := ne_clock e; ne_ticks := ne_ticks e; ne_publish_ok := ne_publish_ok e;
     ne_published := ne_published e; ne_events := ne_events e; ne_stats := r |}.
Definition node_now : ST NodeEnv Time := fun e => (ne_clock e (ne_ticks e),
  {| ne_manager := ne_manager e; ne_sek := ne_sek e; ne_store := ne_store e; ne_fs := ne_fs e; ne_discovery := ne_discovery e; ne_ask := ne_ask e;
     ne_decode := ne_decode e; ne_first := ne_first e; ne_clock := ne_clock e; ne_ticks := S (ne_ticks e); ne_publish_ok := ne_publish_ok e;
     ne_published := ne_published e; ne_events := ne_events e; ne_stats := ne_stats e |}).

(** *** [runtimeCapsuleStoreAdapter] *)

Definition map_health (hc : CapsuleTypes.HealthCheck) : runtime.HealthCheck :=
  {| h_Type := if hc_Type hc =s "http" then healthCheckHTTP else if hc_Type hc =s "tcp" then healthCheckTCP else "";
     h_Path := hc_Path hc; h_Port := hc_Port hc; h_Interval := hc_Interval hc; h_Timeout := hc_Timeout hc;
     h_Retries := hc_Retries hc; h_InitialDelay := hc_InitialDelay hc |}.

(** A credential that is missing, or does not decrypt, is empty. *)
Definition credential (sek : option bytes) (encrypted : option (list ascii)) : string :=
  match sek, encrypted with
  | Some sek, Some b => if (0 <? length b)%nat then match secrets.DecryptString sek b with Ok s => s | Err _ => "" end else ""
  | _, _ => ""
  end.

Definition rt_spec (sek : option bytes) (s : CapsuleTypes.CapsuleSpec) : RtSpec :=
  let r := cs_Runtime s in
  {| x_Name := cs_Name s; x_Image := cs_Image s; x_ImageDigest := cs_ImageDigest s; x_Env := default ∅ (CapsuleTypes.rc_Env r);
     x_NetworkMode := if nc_Mode (rc_Network r) =s "host" then networkModeHost else networkModeBridge;
     x_Ports := (fun p => {| p_Name := pm_Name p; p_ContainerPort := pm_ContainerPort p; p_HostPort := pm_HostPort p; p_Protocol := pm_Protocol p |})
                <$> nc_Ports (rc_Network r);
     x_Resources := {| rl_CPUCores := f64_of_Z (CPUCores (cs_Resources s)); rl_CPUCoresMax := f64_of_Z (CapsuleTypes.EffectiveCPUMax (cs_Resources s));
                       rl_MemoryMB := MemoryMB (cs_Resources s); rl_MemoryMBMax := CapsuleTypes.EffectiveMemoryMax (cs_Resources s) |};
     x_Command := cs_Command s;
     x_LogRetention := {| l_MaxFileSizeMB := lr_MaxFileSizeMB (rc_LogRetention r); l_MaxFiles := lr_MaxFiles (rc_LogRetention r) |};
     x_SnapshotTTL := sc_TTL (rc_SnapshotConfig r); x_MaxSnapshots := sc_MaxPerCapsule (rc_SnapshotConfig r);
     x_HealthCheck := map_health <$> rc_HealthCheck r;
     x_RestartLimit := fp_RestartLimit (rc_FailurePolicy r); x_MaxNodeAttempts := fp_MaxNodeAttempts (rc_FailurePolicy r);
     x_GracefulTimeout := fp_GracefulTimeout (rc_FailurePolicy r);
     x_RegistryUsername := credential sek (ra_UsernameEncrypted <$> rc_Registry r);
     x_RegistryPassword := credential sek (ra_PasswordEncrypted <$> rc_Registry r) |}.

Definition node_GetSpec (capsuleID : string) : ST NodeEnv (result string RtSpec) := fun e =>
  match capsule_at (m_store (ne_manager e)) capsuleID with
  | None => (Err "capsule not found", e)
  | Some c => (Ok (rt_spec (ne_sek e) (c_Spec c)), e)
  end.

(** *** [runtimeLifecycleAdapter] *)

Definition lifecycle_MarkRunning (id : CapsuleID) : ST Manager (result ManagerError unit) := fun m =>
  let '(_, m) := Manager_StartExecution id m in Manager_MarkRunning id m.
Definition lifecycle_MarkStopped (id : CapsuleID) : ST Manager (result ManagerError unit) := fun m =>
  let '(_, m) := Manager_StopCapsule id m in Manager_MarkStopped id m.

Definition err_text {A B} (r : result A B) : result string B := match r with Ok b => Ok b | Err _ => Err "lifecycle transition failed" end.

Definition node_MarkRunning (capsuleID : string) : ST NodeEnv (result string unit) := fun e =>
  let '(r, m) := lifecycle_MarkRunning capsuleID (ne_manager e) in
  let e := set_manager m e in
  (err_text r, if is_ok r then publish_event (CapsuleRunning capsuleID) e else e).
Definition node_MarkFailed (capsuleID reason : string) : ST NodeEnv (result string unit) := fun e =>
  let '(_, m) := Manager_ExecutionFailed capsuleID (ne_manager e) in
  (Ok tt, publish_event (CapsuleExecutionFailed capsuleID reason) (set_manager m e)).
Definition node_MarkStopped (capsuleID : string) : ST NodeEnv (result string unit) := fun e =>
  let '(r, m) := lifecycle_MarkStopped capsuleID (ne_manager e) in (err_text r, set_manager m e).

(** *** [runtimeStatsRegistryAdapter] *)

Definition GetMetric (w : Watcher) (name : string) : option f64 :=
  if name =s "cpu" then Some (w_lastCPU w) else if name =s "memory" then Some (w_lastMem w) else None.
Definition node_RegisterStats (capsuleID : string) (i : nat) : ST NodeEnv unit := modify (fun e => set_registry (<[capsuleID := i]> (ne_stats e)) e).
Definition node_UnregisterStats (capsuleID : string) : ST NodeEnv unit := modify (fun e => set_registry (delete capsuleID (ne_stats e)) e).

(** *** [runtimeSnapshotStoreAdapter] *)

Definition on_snapshots {A} (f : ST SnapshotStore.Store A) : ST NodeEnv A := fun e =>
  let '(a, s) := f (ne_store e) in (a, set_disk s (ne_fs e) e).
Definition sql_text {B} (r : result SnapError B) : result string B := match r with Ok b => Ok b | Err _ => Err "snapshot store" end.

Definition node_HasLocal (capsuleID tag : string) : ST NodeEnv bool := fun e =>
  let '(r, e) := on_snapshots (Get capsuleID tag) e in (match r with Ok (Some _) => true | _ => false end, e).
Definition node_RecordSnapshot (capsuleID tag checksum path : string) (size : Z) (ttl : Duration) : ST NodeEnv (result string unit) := fun e =>
  let '(t1, e) := node_now e in let '(t2, e) := node_now e in
  let '(r, e) := on_snapshots (Put {| r_CapsuleID := capsuleID; r_Tag := tag; r_Size := size; r_Path := path; r_Checksum := checksum;
    r_CreatedAt := t1; r_LastAccessed := t2; r_TTL := ttl; r_InUse := false |}) e in (sql_text r, e).
Definition node_MarkInUse (capsuleID tag : string) (b : bool) : ST NodeEnv (result string unit) := fun e =>
  let '(r, e) := on_snapshots (SetInUse capsuleID tag b) e in (sql_text r, e).
Definition node_TouchAccess (capsuleID tag : string) : ST NodeEnv (result string unit) := fun e =>
  let '(r, e) := on_snapshots (SnapshotStore.TouchAccess capsuleID tag) e in (sql_text r, e).

(** [computeFileChecksum] *)
Definition node_checksum (e : NodeEnv) (path : string) : string * Z :=
  match fs_get (fs_tree (ne_fs e)) (elems path) with
  | Some (File c) => (hex_EncodeToString (Sum256 c), Z.of_nat (length c))
  | _ => ("", 0)
  end.

(** *** Puller and broadcaster *)

Definition node_Pull (d : bool) (capsuleID tag : string) : ST NodeEnv (result string string) := fun e =>
  let ask := fun p => if d then (None, O) else ne_ask e p in
  let '(r, (s, f)) := Transfer.Pull ask (ne_decode e) (ne_discovery e) (if d then Err ErrQueryCancelled else ne_first e) capsuleID tag (ne_store e, ne_fs e) in
  (match r with Ok path => Ok path | Err _ => Err "snapshot pull failed" end, set_disk s f e).

Definition node_Broadcast (capsuleID tag checksum : string) (size : Z) : ST NodeEnv (result string unit) := fun e =>
  let '(now, e) := node_now e in
  match Discovery.BroadcastAvailable capsuleID tag checksum size now (ne_discovery e) with
  | Err _ => (Err "snapshot broadcast failed", e)
  | Ok data =>
      if ne_publish_ok e then
        (Ok tt, {| ne_manager := ne_manager e; ne_sek := ne_sek e; ne_store := ne_store e; ne_fs := ne_fs e; ne_discovery := ne_discovery e;
           ne_ask := ne_ask e; ne_decode := ne_decode e; ne_first := ne_first e; ne_clock := ne_clock e; ne_ticks := ne_ticks e;
           ne_publish_ok := ne_publish_ok e; ne_published := ne_published e ++ [data]; ne_events := ne_events e; ne_stats := ne_stats e |})
      else (Err "snapshot broadcast failed", e)
  end.

(** The node as the handler sees it, with everything wired. *)
#[export] Instance node_collaborators : Collaborators := {|
  ENV := NodeEnv; has_snapshots := true; has_puller := true; has_broadcaster := true; has_stats := true;
  GetSpec := node_GetSpec; HasLocal := node_HasLocal; SnapPath := fun e => SnapshotPath (ne_store e);
  RecordSnapshot := node_RecordSnapshot; MarkInUse := node_MarkInUse; RuntimeHandler.TouchAccess := node_TouchAccess;
  RuntimeHandler.PullSnapshot := node_Pull; RuntimeHandler.BroadcastAvailable := node_Broadcast; fileChecksum := node_checksum;
  MarkRunning := node_MarkRunning; MarkFailed := node_MarkFailed; MarkStopped := node_MarkStopped;
  RegisterStats := node_RegisterStats; UnregisterStats := node_UnregisterStats |}.

End Node.

(** ** [RuntimeBridge] *)

Section Bridge.
Context `{R : Runtime} `{C : Collaborators}.

(** A turn of its loop: a won election on the bus starts the container. *)
Definition bridge_turn (ev : events.Event) (h : RuntimeHandler.Handler) : RuntimeHandler.Handler :=
  match ev with
  | events.EvElectionWon _ CapsuleID ReplicaID ClusterPath Score NodeID =>
      startContainer {| ew_CapsuleID := CapsuleID; ew_ReplicaID := ReplicaID; ew_ClusterPath := ClusterPath; ew_Score := Score; ew_NodeID := NodeID |} h
  | _ => h
  end.

End Bridge.

(** ** From a won election to the lifecycle *)

Section Lifecycle.
Context `{GR : GoRange} `{SQ : SqlTable} `{JC : JsonCodec} `{SM : StateMachineLib} `{SL : !StateMachineLaws SM}.
Context `{AE : secrets.Aead} `{GC : GoConv} `{SO : SnapOrder} `{SJ : SnapJson} `{TC : TransferCodec} `{H256 : Sha256}.
Context `{R : Runtime}.

Definition mgr (h : Handler) : Manager := ne_manager (h_env h).

(** What a report does to the manager. *)
Definition mgr_report (r : Report) (m : Manager) : Manager :=
  match r with
  | Running c => snd (lifecycle_MarkRunning c m)
  | Failed c _ => snd (Manager_ExecutionFailed c m)
  | Stopped c => snd (lifecycle_MarkStopped c m)
  end.

Lemma report_mgr r h : mgr (report r h) = mgr_report r (mgr h).
Proof.
  unfold report. rewrite collab_eq. unfold mgr. cbn [h_env snd set_env]. destruct r as [c|c why|c]; cbn [MarkRunning MarkFailed MarkStopped node_collaborators mgr_report].
  - unfold node_MarkRunning. destruct (lifecycle_MarkRunning c _) as [[] m]; done.
  - unfold node_MarkFailed. by destruct (Manager_ExecutionFailed c _).
  - unfold node_MarkStopped. by destruct (lifecycle_MarkStopped c _).
Qed.

(** The other calls leave the manager alone. *)
Definition quiet_call {A} (f : ST NodeEnv A) : Prop := forall e, ne_manager (snd (f e)) = ne_manager e.

Lemma on_snapshots_quiet {A} (f : ST SnapshotStore.Store A) : quiet_call (on_snapshots f).
Proof. intros e. unfold on_snapshots. by destruct (f _). Qed.
Lemma GetSpec_quiet c : quiet_call (node_GetSpec c).
Proof. intros e. unfold node_GetSpec. by destruct (capsule_at _ _). Qed.
Lemma HasLocal_quiet c t : quiet_call (node_HasLocal c t).
Proof. intros e. unfold node_HasLocal. pose proof (on_snapshots_quiet (Get c t) e) as H. by destruct (on_snapshots _ e). Qed.
Lemma MarkInUse_quiet c t b : quiet_call (node_MarkInUse c t b).
Proof. intros e. unfold node_MarkInUse. pose proof (on_snapshots_quiet (SetInUse c t b) e) as H. by destruct (on_snapshots _ e). Qed.
Lemma TouchAccess_quiet c t : quiet_call (node_TouchAccess c t).
Proof. intros e. unfold node_TouchAccess. pose proof (on_snapshots_quiet (SnapshotStore.TouchAccess c t) e) as H. by destruct (on_snapshots _ e). Qed.
Lemma Pull_quiet d c t : quiet_call (node_Pull d c t).
Proof. intros e. unfold node_Pull. destruct (Transfer.Pull _ _ _ _ _ _ _) as [? [? ?]]. done. Qed.
Lemma RegisterStats_quiet c i : quiet_call (node_RegisterStats c i).
Proof. done. Qed.
Lemma UnregisterStats_quiet c : quiet_call (node_UnregisterStats c).
Proof. done. Qed.

(** Nothing was reported and the manager did not change. *)
Definition silent (h h1 : Handler) : Prop := mgr h1 = mgr h /\ h_reports h1 = h_reports h.

Lemma silent_rt {A} (f : ST RT A) h h1 : silent h h1 -> silent h (snd (rt f h1)).
Proof. rewrite rt_eq. done. Qed.
Lemma silent_collab {A} (f : ST NodeEnv A) h h1 : quiet_call f -> silent h h1 -> silent h (snd (collab f h1)).
Proof. intros Hf [H1 H2]. rewrite collab_eq. split; [|done]. unfold mgr. cbn. by rewrite Hf. Qed.

(** Exactly the report [r] was made. *)
Definition told (r : Report) (h h' : Handler) : Prop := h_reports h' = h_reports h ++ [r] /\ mgr h' = mgr_report r (mgr h).

Lemma told_report r h h1 : silent h h1 -> told r h (report r h1).
Proof.
  intros [H1 H2]. split; [|by rewrite report_mgr, H1].
  rewrite <- H2. exact (f_equal snd (report_book r h1)).
Qed.

Lemma told_then {A} (f : ST NodeEnv A) r h h1 : quiet_call f -> told r h h1 -> told r h (snd (collab f h1)).
Proof. intros Hf [H1 H2]. rewrite collab_eq. split; [done|]. unfold mgr. cbn. by rewrite Hf. Qed.
Lemma told_then_rt {A} (f : ST RT A) r h h1 : told r h h1 -> told r h (snd (rt f h1)).
Proof. rewrite rt_eq. done. Qed.

Lemma told_running cID c spec h h1 : silent h h1 -> told (Running c) h (onContainerRunning cID c spec h1).
Proof.
  intros Hs. unfold onContainerRunning. pose proof (told_report (Running c) h h1 Hs) as Ht. set (h2 := report _ h1) in *. set (h3 := set_running _ _).
  assert (Ht3 : told (Running c) h h3) by (unfold h3; by destruct (h_running h2 !! cID)).
  set (p := match x_HealthCheck spec with Some hc => _ | None => _ end).
  assert (Hp : told (Running c) h (snd p)).
  { unfold p, probe_address. destruct (x_HealthCheck spec); [|done]. destruct (x_NetworkMode spec =s _); [|done].
    pose proof (told_then_rt (Inspect (h_stopped h3) cID) _ h h3 Ht3) as Hi. by destruct (rt _ h3) as [[] ?]. }
  destruct p as [checker h4]. cbn [snd] in Hp. cbn [has_stats node_collaborators].
  pose proof (told_then (node_RegisterStats c (length (h_watchers h2))) _ h h4 (RegisterStats_quiet _ _) Hp) as H5.
  destruct (collab _ h4) as [? h5]. cbn [snd] in H5. pose proof (told_then_rt (OpenStats (h_stopped h5) cID) _ h h5 H5) as H6.
  destruct (rt _ h5) as [[] h6]; cbn [snd] in H6; [exact H6|].
  pose proof (told_then (node_UnregisterStats c) _ h h6 (UnregisterStats_quiet _) H6) as H7. by destruct (collab _ h6) as [? h7].
Qed.

(** One of the two reports of a start. *)
Definition settled (c : string) (h h' : Handler) : Prop := told (Running c) h h' \/ exists why, told (Failed c why) h h'.

Lemma settled_cold cID c tag spec h h1 : silent h h1 -> settled c h (coldStart cID c tag spec h1).
Proof.
  intros Hs. unfold coldStart. set (opts := if x_RegistryUsername spec <>s "" then _ else _). clearbody opts.
  pose proof (silent_rt (Pull (h_stopped h1) (x_Image spec) opts) h h1 Hs) as H2. destruct (rt _ h1) as [[[]|e] h2]; cbn [snd] in H2; [|right; eexists; by apply told_report].
  pose proof (silent_rt (Create (h_stopped h2) cID (x_Image spec) (create_opts spec true)) h h2 H2) as H3.
  destruct (rt _ h2) as [[[]|e] h3]; cbn [snd] in H3; [|right; eexists; by apply told_report].
  pose proof (silent_rt (Start (h_stopped h3) cID) h h3 H3) as H4. destruct (rt _ h3) as [[[]|e] h4]; cbn [snd] in H4.
  - left. cbn [has_snapshots node_collaborators]. by apply (told_running cID c spec h h4).
  - pose proof (silent_rt (Remove (h_stopped h4) cID) h h4 H4) as H5. destruct (rt _ h4) as [? h5]. right. eexists. by apply told_report.
Qed.

Lemma settled_restore cID c tag spec h h1 : silent h h1 -> settled c h (restoreFromSnapshot cID c tag spec h1).
Proof.
  intros Hs. unfold restoreFromSnapshot. set (opts := [WithRestoreNetworkMode _; _; _]). set (path := SnapPath _ _ _). clearbody opts path.
  pose proof (silent_rt (Restore (h_stopped h1) cID path opts) h h1 Hs) as H2. destruct (rt _ h1) as [[[]|e] h2]; cbn [snd] in H2; [|by apply settled_cold].
  pose proof (silent_collab _ h h2 (MarkInUse_quiet c tag true) H2) as H3. cbn [MarkInUse RuntimeHandler.TouchAccess node_collaborators].
  destruct (collab _ h2) as [? h3]. cbn [snd] in H3. pose proof (silent_collab _ h h3 (TouchAccess_quiet c tag) H3) as H4.
  destruct (collab _ h3) as [? h4]. left. by apply told_running.
Qed.

Lemma settled_start event h : settled (ew_CapsuleID event) h (startContainer event h).
Proof.
  unfold startContainer. set (c := ew_CapsuleID event). set (cID := containerID _ _).
  cbn [has_snapshots has_puller GetSpec HasLocal RuntimeHandler.PullSnapshot node_collaborators].
  pose proof (silent_collab _ h h (GetSpec_quiet c) (conj eq_refl eq_refl)) as H1. destruct (collab _ h) as [[spec|e] h1]; cbn [snd] in H1.
  2: { right. eexists. by apply told_report. }
  pose proof (silent_collab _ h h1 (HasLocal_quiet c (spec_tag spec)) H1) as H2. destruct (collab _ h1) as [[] h2]; cbn [snd] in H2; [by apply settled_restore|].
  pose proof (silent_collab _ h h2 (Pull_quiet (h_stopped h2) c (spec_tag spec)) H2) as H3. destruct (collab _ h2) as [[path|e] h3]; cbn [snd] in H3; [|by apply settled_cold].
  destruct (path <>s ""); [by apply settled_restore|by apply settled_cold].
Qed.

(** C14: a won election settles the capsule.  When an assigned capsule's
    container is started, with any container runtime and whatever the
    snapshots do, the capsule ends up running, or announced again for another
    election if the start failed; store and lifecycle machines stay coherent,
    and no other capsule changes its status. *)
Theorem node_won_election_settles event h
    (Hco : coherent (mgr h)) (Hassigned : status_of (mgr h) (ew_CapsuleID event) = Some capsuleStatusAssigned) :
  let h' := startContainer event h in
  coherent (mgr h') /\
  (forall id, id <> ew_CapsuleID event -> status_of (mgr h') id = status_of (mgr h) id) /\
  ((h_reports h' = h_reports h ++ [Running (ew_CapsuleID event)] /\ status_of (mgr h') (ew_CapsuleID event) = Some capsuleStatusRunning) \/
   (exists why, h_reports h' = h_reports h ++ [Failed (ew_CapsuleID event) why] /\ status_of (mgr h') (ew_CapsuleID event) = Some capsuleStatusAnnounced)).
Proof.
  cbv zeta. set (c := ew_CapsuleID event) in *. unfold status_of in *. destruct (capsule_at (m_store (mgr h)) c) as [cap|] eqn:Ec; [|done].
  injection Hassigned as Hst. destruct (settled_start event h) as [[Hr Hm]|(why & Hr & Hm)]; fold c in Hr, Hm; rewrite Hm; cbn [mgr_report].
  - unfold lifecycle_MarkRunning, Manager_StartExecution, Manager_MarkRunning.
    pose proof (Manager_Fire_spec (mgr h) c TriggerExecutionStart Hco) as H1. destruct (Manager_Fire c TriggerExecutionStart (mgr h)) as [r1 m1].
    rewrite Ec, Hst in H1. destruct H1 as (Hco1 & Ho1 & _ & [u1 E1] & _).
    pose proof (Manager_Fire_spec m1 c TriggerContainerReady Hco1) as H2. destruct (Manager_Fire c TriggerContainerReady m1) as [r2 m2].
    rewrite E1 in H2. destruct H2 as (Hco2 & Ho2 & _ & [u2 E2] & _). cbn [snd]. split_and!; [done| |].
    + intros id Hne. by rewrite Ho2, Ho1.
    + left. split; [done|]. by rewrite E2.
  - unfold Manager_ExecutionFailed. pose proof (Manager_Fire_spec (mgr h) c TriggerExecutionFailed Hco) as H1.
    destruct (Manager_Fire c TriggerExecutionFailed (mgr h)) as [r1 m1]. rewrite Ec, Hst in H1. destruct H1 as (Hco1 & Ho1 & _ & [u1 E1] & _).
    cbn [snd]. split_and!; [done| |]; [intros id Hne; by rewrite Ho1|]. right. exists why. split; [done|]. by rewrite E1.
Qed.

(** A start that runs ahead of the assignment is lost.  The bridge
    and the capsule handler react to the same event on their own; when the
    container is up before the capsule is assigned, as it is on every node
    that has the capsule from a peer (its machine never leaves created), the
    report fails and the capsule keeps its status while its container runs. *)
Theorem node_unassigned_start_lost t c rid path score me h s
    (Hco : coherent (mgr h)) (Hs : status_of (mgr h) c = Some s)
    (Hearly : s ∈ [capsuleStatusCreated; capsuleStatusAnnounced; capsuleStatusElecting]) :
  let h' := bridge_turn (events.EvElectionWon t c rid path score me) h in
  coherent (mgr h') /\ m_store (mgr h') = m_store (mgr h) /\ status_of (mgr h') c = Some s /\
  (h_reports h' = h_reports h ++ [Running c] \/ exists why, h_reports h' = h_reports h ++ [Failed c why]).
Proof.
  cbv zeta. cbn [bridge_turn]. set (event := {| ew_CapsuleID := c |}).
  assert (Hfire : forall m tr, coherent m -> m_store m = m_store (mgr h) -> tr ∈ [TriggerExecutionStart; TriggerContainerReady; TriggerExecutionFailed] ->
    coherent (snd (Manager_Fire c tr m)) /\ m_store (snd (Manager_Fire c tr m)) = m_store (mgr h)).
  { intros m tr Hm Em Ht. pose proof (Manager_Fire_spec m c tr Hm) as H. destruct (Manager_Fire c tr m) as [r m']. rewrite Em in H.
    unfold status_of in Hs. destruct (capsule_at (m_store (mgr h)) c) as [cap|]; [|done]. injection Hs as Hs. rewrite Hs in H.
    assert (permitted buildTable s tr = None) as E.
    { clear -Hearly Ht. rewrite !elem_of_cons, elem_of_nil in Hearly, Ht. by destruct Hearly as [->|[->|[->|[]]]], Ht as [->|[->|[->|[]]]]. }
    rewrite E in H. destruct H as (H1 & _ & _ & _ & H2 & _). by split. }
  assert (Hm : coherent (mgr (startContainer event h)) /\ m_store (mgr (startContainer event h)) = m_store (mgr h)).
  { destruct (settled_start event h) as [[_ ->]|(why & _ & ->)]; cbn [mgr_report event ew_CapsuleID].
    - unfold lifecycle_MarkRunning, Manager_StartExecution, Manager_MarkRunning.
      destruct (Hfire (mgr h) TriggerExecutionStart Hco eq_refl) as [H1 H2]; [set_solver|].
      destruct (Manager_Fire c TriggerExecutionStart (mgr h)) as [r m1]. apply (Hfire m1); [done..|set_solver].
    - unfold Manager_ExecutionFailed. apply Hfire; [done..|set_solver]. }
  destruct Hm as [Hm1 Hm2]. split_and!; [done|done|by unfold status_of in *; rewrite Hm2|].
  destruct (settled_start event h) as [[H _]|(why & H & _)]; [by left|right; by exists why].
Qed.

(** A crash is not recorded.  When the container of a running
    capsule is reported as failed (by its watcher, its health checker or a
    failed capture), the event for a new election is published, but the
    lifecycle has no such transition: the capsule's status stays running. *)
Theorem node_crash_stays_running c why h
    (Hco : coherent (mgr h)) (Hrun : status_of (mgr h) c = Some capsuleStatusRunning) :
  status_of (mgr (report (Failed c why) h)) c = Some capsuleStatusRunning /\
  m_store (mgr (report (Failed c why) h)) = m_store (mgr h) /\
  ne_events (h_env (report (Failed c why) h)) = ne_events (h_env h) ++ [CapsuleExecutionFailed c why].
Proof.
  unfold status_of in *. destruct (capsule_at (m_store (mgr h)) c) as [cap|] eqn:Ec; [|done]. injection Hrun as Hst.
  pose proof (Manager_Fire_spec (mgr h) c TriggerExecutionFailed Hco) as H1. rewrite report_mgr. cbn [mgr_report]. unfold Manager_ExecutionFailed.
  destruct (Manager_Fire c TriggerExecutionFailed (mgr h)) as [r1 m1] eqn:Ef. rewrite Ec, Hst in H1. destruct H1 as (_ & _ & _ & E1 & Es & _).
  cbn [snd]. split; [by rewrite E1, <- Hst|]. split; [done|].
  unfold report. rewrite collab_eq. cbn. unfold node_MarkFailed, Manager_ExecutionFailed. unfold mgr in Ef. by rewrite Ef.
Qed.

End Lifecycle.

(** ** A node over Podman *)

Module NodeDemo.
#[local] Existing Instances mem_table CapsuleStore.demo_codec DiscoveryDemo.demo_json TransferDemo.demo_codec TransferDemo.demo_sum.

(** A cipher that hides nothing, which is enough for the interface. *)
#[local] Instance toy_aead : secrets.Aead := {|
  secrets.hkdf := fun _ _ _ n => if 0 <=? n then Some (replicate (Z.to_nat n) Ascii.zero) else None;
  secrets.key_ok := fun k => (length k =? 32)%nat;
  secrets.gcm_Seal := fun _ _ m => m; secrets.gcm_Open := fun _ _ c => Some c |}.
#[local] Instance toy_laws : secrets.AeadLaws toy_aead.
Proof.
  split; [done| |].
  - intros s salt info n k. cbn. destruct (Z.leb_spec 0 n); [|done]. intros [= <-]. rewrite length_replicate. lia.
  - intros k Hk. cbn. apply Nat.eqb_eq. lia.
Qed.

Lemma secrets_shared_witness :
  exists sek c, secrets.DeriveKey (list_ascii_of_string "psk") "r/d/c" = Ok sek /\
    secrets.EncryptString (replicate 12 Ascii.zero) sek "token" = Ok c /\ secrets.DecryptString sek c = Ok "token".
Proof.
  pose proof (secrets.secrets_shared (list_ascii_of_string "psk") "r/d/c" (replicate 12 Ascii.zero) "token") as H.
  specialize (H ltac:(discriminate) ltac:(discriminate) eq_refl).
  destruct (secrets.DeriveKey _ _) as [sek|e] eqn:Ek; [|vm_compute in Ek; discriminate].
  destruct H as (c & E & Hd). exists sek, c. split_and!; [done|exact E|by apply Hd].
Defined.

(** A daemon that answers every request: the container it is asked about is
    running. *)
Definition running_raw : RawInspect :=
  {| ri_ID := "4f"; ri_Name := "/falak-c1-0"; ri_Image := "nginx"; ri_Status := "running"; ri_Running := true; ri_Paused := false; ri_ExitCode := 0;
     ri_Pid := 7; ri_StartedAt := 0; ri_FinishedAt := 0; ri_Created := 0; ri_Hostname := ""; ri_Env := []; ri_Labels := ∅; ri_IPAddress := "";
     ri_Ports := ∅; ri_CPUQuota := 0; ri_CPUPeriod := 0; ri_Memory := 0; ri_RestartCount := 0 |}.
Definition answer (q : Request) : Podman.Response :=
  if q_method q =s "GET" then {| rs_code := 200; rs_body := BInspect (Some running_raw) |}
  else if q_path q =s apiURL "/images/pull" then {| rs_code := 200; rs_body := BNone |}
  else if q_path q =s apiURL "/containers/create" then {| rs_code := 201; rs_body := BCreated "4f" |}
  else {| rs_code := 204; rs_body := BNone |}.
#[local] Instance toy_daemon : PodmanAPI := {| Daemon := nat; Serve := fun q n => (Some (answer q), S n) |}.

Definition podman : Podman := {| pd_daemon := 0%nat; pd_containers := ∅; pd_fs := TransferDemo.disk ∅; pd_clock := fun n => Z.of_nat n; pd_ticks := 0 |}.

(** One capsule with the given status, no snapshots and no peers. *)
Definition manager (s : CapsuleStatus) : Manager := NewManager
  {| st_heap := {[ 1%positive := CapsuleStore.demo_capsule "c1" s ]}; st_capsules := {[ "c1" := 1%positive ]}; st_db := None;
     st_clock := fun n => Z.of_nat n; st_ticks := 0 |}.
Definition env (s : CapsuleStatus) : NodeEnv :=
  {| ne_manager := manager s; ne_sek := None; ne_store := TransferDemo.store ∅; ne_fs := TransferDemo.disk ∅; ne_discovery := NewDiscovery "n1" None None;
     ne_ask := fun _ => (None, 0%nat); ne_decode := fun _ => false; ne_first := Err ErrQueryCancelled; ne_clock := fun n => Z.of_nat n; ne_ticks := 0;
     ne_publish_ok := true; ne_published := []; ne_events := []; ne_stats := ∅ |}.
Definition handler (s : CapsuleStatus) : Handler (R := podman_runtime) := NewHandler podman (env s).
Definition won : ElectionWon := {| ew_CapsuleID := "c1"; ew_ReplicaID := "0"; ew_ClusterPath := "r/d/c"; ew_Score := f64_of_Z 90; ew_NodeID := "n1" |}.

Lemma manager_coherent s : CapsuleStatus_Valid s = true -> coherent (manager s).
Proof. intros Hv. by eapply ManagerDemo.coherent_single. Qed.

Lemma node_won_election_settles_witness :
  status_of (mgr (startContainer won (handler capsuleStatusAssigned))) "c1" = Some capsuleStatusRunning.
Proof.
  destruct (node_won_election_settles won (handler capsuleStatusAssigned)) as (_ & _ & [[_ H]|(why & H & _)]).
  - by apply manager_coherent.
  - reflexivity.
  - exact H.
  - vm_compute in H. discriminate.
Defined.

Lemma node_unassigned_start_lost_witness :
  status_of (mgr (bridge_turn (events.EvElectionWon 0 "c1" "0" "r/d/c" (f64_of_Z 90) "n1") (handler capsuleStatusCreated))) "c1" = Some capsuleStatusCreated.
Proof.
  destruct (node_unassigned_start_lost 0 "c1" "0" "r/d/c" (f64_of_Z 90) "n1" (handler capsuleStatusCreated) capsuleStatusCreated) as (_ & _ & H & _).
  - by apply manager_coherent.
  - reflexivity.
  - apply list_elem_of_here.
  - exact H.
Defined.

Lemma node_crash_stays_running_witness :
  status_of (mgr (report (Failed "c1" "exit") (handler capsuleStatusRunning))) "c1" = Some capsuleStatusRunning.
Proof.
  apply (node_crash_stays_running "c1" "exit" (handler capsuleStatusRunning)); [by apply manager_coherent|reflexivity].
Defined.

Lemma runtime_one_watcher_witness :
  exists w, h_watchers (run_steps [SStart won; SWatch 0] (handler capsuleStatusAssigned)) !! 0%nat = Some w /\ live w /\
    h_running (run_steps [SStart won; SWatch 0] (handler capsuleStatusAssigned)) !! "falak-c1-0" = Some 0%nat.
Proof.
  assert (E : (fun w => (w_cancelled w, w_exited w, w_cID w)) <$> h_watchers (run_steps [SStart won; SWatch 0] (handler capsuleStatusAssigned)) !! 0%nat
    = Some (false, false, "falak-c1-0")) by (vm_compute; reflexivity).
  destruct (h_watchers (run_steps [SStart won; SWatch 0] (handler capsuleStatusAssigned)) !! 0%nat) as [w|] eqn:Ew; [|discriminate E].
  destruct (runtime_one_watcher (R := podman_runtime) (C := node_collaborators) [SStart won; SWatch 0] podman (env capsuleStatusAssigned) 0 0 w w eq_refl Ew Ew)
    as (_ & H & _).
  injection E as E1 E2 E3. exists w. rewrite <- E3. split; [done|]. split; [by split|]. apply H. by split.
Defined.

End NodeDemo.
