(* ===== verification/Syncer.v ===== *)
(** * Member list synchronisation ([node/sync/syncer.go])

    A node asks a peer for its list of members, in full or since the last
    time, and merges it into its phonebook; it serves its own list to members.
    Streams carry length-prefixed messages ([Shared.framing]); the messages of
    [sync.proto] are encoded by the interface [SyncCodec].  What a stream to a
    peer does (it cannot be opened, the write fails, the bytes of the answer,
    and whether it is closed after them) is an argument of the calls that open it.  The phonebook is the interface
    [IPhonebook], the list of revoked certificates [RevocationSource]. *)

From S2P Require Import Prelude Float64 ElectionTopic Internals Shared Phonebook.
Local Open Scope string_scope.
Local Open Scope list_scope.
Local Open Scope Z_scope.

(** ** Messages: [sync.proto] *)

Record SyncCapabilities := {
  sc_CpuCores : Z; sc_MemoryMb : Z; sc_DiskGb : Z; sc_Datacenter : string; sc_Tags : list string; sc_Metadata : option (gmap string string)
}.
Record SyncMember := {
  sm_NodeId : string; sm_Addresses : list string; sm_PublicKey : bytes; sm_Capabilities : option SyncCapabilities;
  sm_JoinedAt : option Time; sm_LastSeen : option Time; sm_Status : string
}.
Record RevocationPb := {
  rp_CertFingerprint : string; rp_NodeId : string; rp_ClusterPath : string; rp_RevokedAt : option Time; rp_Reason : string; rp_RevokedBy : string
}.
Record SyncRequest := { sq_ClusterPath : string; sq_LastSyncTime : option Time; sq_RequestId : string; sq_MaxMembers : Z; sq_Cursor : string }.
Record SyncResponse := {
  sr_RequestId : string; sr_Members : list SyncMember; sr_SyncTime : option Time; sr_IsComplete : bool; sr_NextCursor : string;
  sr_Error : string; sr_Revocations : list RevocationPb
}.

(** Protocol Buffers: [None] when a message does not marshal or parse.  A
    message comes back as it was when its integers fit their fields; an empty
    map comes back as nil. *)
Class SyncCodec := {
  marshal_request : SyncRequest -> option bytes; unmarshal_request : bytes -> option SyncRequest;
  marshal_response : SyncResponse -> option bytes; unmarshal_response : bytes -> option SyncResponse
}.
Definition caps_plain (c : SyncCapabilities) : Prop :=
  int32 (sc_CpuCores c) = sc_CpuCores c /\ in_int64 (sc_MemoryMb c) /\ in_int64 (sc_DiskGb c) /\ sc_Metadata c <> Some ∅.
Definition member_plain (m : SyncMember) : Prop := forall c, sm_Capabilities m = Some c -> caps_plain c.
Class SyncCodecLaws (P : SyncCodec) := {
  request_law : forall r b, marshal_request r = Some b -> int32 (sq_MaxMembers r) = sq_MaxMembers r -> unmarshal_request b = Some r;
  response_law : forall r b, marshal_response r = Some b -> Forall member_plain (sr_Members r) -> unmarshal_response b = Some r
}.

(** [RevocationEntry] and [RevocationSource] *)
Record RevocationEntry := {
  re_CertFingerprint : string; re_NodeID : string; re_ClusterPath : string; re_RevokedAt : Time; re_Reason : string; re_RevokedBy : string
}.
Class RevocationSource := {
  REV : Type;
  has_revocations : bool;
  GetRevocations : string -> REV -> list RevocationEntry;
  MergeRevocations : string -> list RevocationEntry -> ST REV (result string Z)
}.

(** ** State *)

Definition DefaultSyncInterval : Duration := 5 * minute.
Definition DefaultMaxMembersPerResponse : Z := 1000.
Definition DefaultSyncRateLimit : Z := 20.
Definition DefaultSyncRateWindow : Duration := minute.
Definition MaxConsecutiveFailsBeforeQuarantine : Z := 3.
Definition MaxConsecutiveFailsBeforeRemoval : Z := 5.

(** Why a sync failed. *)
Inductive SyncError :=
  | ErrSyncStream | ErrSyncSend | ErrSyncRead | ErrSyncPeer (msg : string)
  | ErrContStream | ErrContSend | ErrContRead.

(** What the syncer publishes. *)
Inductive SyncEvent :=
  | SyncCompleted (ClusterPath : string) (MemberCount NewMembers : Z) (SyncedFrom : string)
  | SyncFailed (ClusterPath Peer : string) (Reason : SyncError).

(** One stream to a peer: it cannot be opened, or it is, the request can or
    cannot be written, and the peer answers the bytes written, after which the
    stream ends or is just kept open. *)
Inductive Stream := NoStream | Opened (writable : bool) (answer : bytes -> bytes) (ends : bool).

Section Syncer.
Context `{I : IPhonebook} `{P : SyncCodec} `{V : RevocationSource}.
(** [peer.Decode] with the [String] of the result, and [NewMultiaddr]. *)
Variables (Decode : string -> option string) (valid_addr : string -> bool).

Record Syncer := {
  sy_self : string; sy_max : Z; sy_pb : PB; sy_lastSync : gmap string Time; sy_limiter : ratelimit.Limiter; sy_revs : REV;
  sy_periodic : bool; sy_loops : list string;              (** clusters with a periodic loop *)
  sy_events : list SyncEvent; sy_peerstore : list (string * list string);
  sy_clock : nat -> Time; sy_ticks : nat; sy_uuid : nat -> string; sy_uuids : nat
}.

(** [New] with its defaults; [max] and [periodic] may come from options. *)
Definition New (self : string) (max : Z) (periodic : bool) (pb : PB) (revs : REV) (clock : nat -> Time) (uuid : nat -> string) : Syncer :=
  {| sy_self := self; sy_max := max; sy_pb := pb; sy_lastSync := ∅; sy_limiter := ratelimit.NewLimiter DefaultSyncRateLimit DefaultSyncRateWindow;
     sy_revs := revs; sy_periodic := periodic; sy_loops := []; sy_events := []; sy_peerstore := []; sy_clock := clock; sy_ticks := 0;
     sy_uuid := uuid; sy_uuids := 0 |}.

Definition sy_upd (pb : PB) (last : gmap string Time) (lim : ratelimit.Limiter) (revs : REV) (loops : list string) (events : list SyncEvent)
    (ps : list (string * list string)) (ticks uuids : nat) (s : Syncer) : Syncer :=
  {| sy_self := sy_self s; sy_max := sy_max s; sy_pb := pb; sy_lastSync := last; sy_limiter := lim; sy_revs := revs; sy_periodic := sy_periodic s;
     sy_loops := loops; sy_events := events; sy_peerstore := ps; sy_clock := sy_clock s; sy_ticks := ticks; sy_uuid := sy_uuid s; sy_uuids := uuids |}.

Definition set_pb (p : PB) (s : Syncer) : Syncer :=
  sy_upd p (sy_lastSync s) (sy_limiter s) (sy_revs s) (sy_loops s) (sy_events s) (sy_peerstore s) (sy_ticks s) (sy_uuids s) s.
Definition set_last (l : gmap string Time) (s : Syncer) : Syncer :=
  sy_upd (sy_pb s) l (sy_limiter s) (sy_revs s) (sy_loops s) (sy_events s) (sy_peerstore s) (sy_ticks s) (sy_uuids s) s.
Definition set_limiter (l : ratelimit.Limiter) (s : Syncer) : Syncer :=
  sy_upd (sy_pb s) (sy_lastSync s) l (sy_revs s) (sy_loops s) (sy_events s) (sy_peerstore s) (sy_ticks s) (sy_uuids s) s.
Definition set_revs (r : REV) (s : Syncer) : Syncer :=
  sy_upd (sy_pb s) (sy_lastSync s) (sy_limiter s) r (sy_loops s) (sy_events s) (sy_peerstore s) (sy_ticks s) (sy_uuids s) s.
Definition sy_publish (e : SyncEvent) (s : Syncer) : Syncer :=
  sy_upd (sy_pb s) (sy_lastSync s) (sy_limiter s) (sy_revs s) (sy_loops s) (sy_events s ++ [e]) (sy_peerstore s) (sy_ticks s) (sy_uuids s) s.
Definition sy_now : ST Syncer Time := fun s =>
  (sy_clock s (sy_ticks s),
   sy_upd (sy_pb s) (sy_lastSync s) (sy_limiter s) (sy_revs s) (sy_loops s) (sy_events s) (sy_peerstore s) (S (sy_ticks s)) (sy_uuids s) s).
Definition sy_newID : ST Syncer string := fun s =>
  (sy_uuid s (sy_uuids s),
   sy_upd (sy_pb s) (sy_lastSync s) (sy_limiter s) (sy_revs s) (sy_loops s) (sy_events s) (sy_peerstore s) (sy_ticks s) (S (sy_uuids s)) s).

(** A call of the phonebook. *)
Definition sy_call {A} (f : ST PB A) : ST Syncer A := fun s => let '(a, p) := f (sy_pb s) in (a, set_pb p s).

(** [StartPeriodicSync] *)
Definition StartPeriodicSync (clusterPath : string) (s : Syncer) : Syncer :=
  if sy_periodic s
  then sy_upd (sy_pb s) (sy_lastSync s) (sy_limiter s) (sy_revs s) (sy_loops s ++ [clusterPath]) (sy_events s) (sy_peerstore s) (sy_ticks s) (sy_uuids s) s
  else s.

Definition addPeerAddresses (peerID : string) (addresses : list string) (s : Syncer) : Syncer :=
  let addrs := List.filter valid_addr addresses in
  if (0 <? length addrs)%nat
  then sy_upd (sy_pb s) (sy_lastSync s) (sy_limiter s) (sy_revs s) (sy_loops s) (sy_events s) (sy_peerstore s ++ [(peerID, addrs)]) (sy_ticks s) (sy_uuids s) s
  else s.

(** ** Failed connections *)

Definition recordConnectionFailure (nodeID clusterPath : string) (s : Syncer) : Syncer :=
  match sy_call (pb_RecordConnectionAttempt nodeID clusterPath false) s with
  | (Err _, s) => s
  | (Ok _, s) =>
      match sy_call (pb_Get nodeID clusterPath) s with
      | (Ok (Some entry), s) =>
          if MaxConsecutiveFailsBeforeRemoval <=? e_ConsecutiveFails entry then snd (sy_call (pb_Remove nodeID clusterPath) s)
          else if (MaxConsecutiveFailsBeforeQuarantine <=? e_ConsecutiveFails entry) && (e_Status entry <>s nodeStatusQuarantined)
          then snd (sy_call (pb_SetStatus nodeID clusterPath nodeStatusQuarantined) s)
          else s
      | (_, s) => s
      end
  end.

(** ** Members *)

Definition caps_in (c : SyncCapabilities) : Capabilities :=
  {| cap_CPUCores := sc_CpuCores c; cap_MemoryMB := sc_MemoryMb c; cap_DiskGB := sc_DiskGb c; cap_Datacenter := sc_Datacenter c;
     cap_Tags := sc_Tags c; cap_Metadata := sc_Metadata c |}.
Definition caps_out (c : Capabilities) : SyncCapabilities :=
  {| sc_CpuCores := cap_CPUCores c; sc_MemoryMb := cap_MemoryMB c; sc_DiskGb := cap_DiskGB c; sc_Datacenter := cap_Datacenter c;
     sc_Tags := cap_Tags c; sc_Metadata := cap_Metadata c |}.

Definition status_in (st : string) : NodeStatus :=
  if st =s "" then ""
  else if st =s "active" then nodeStatusActive
  else if st =s "suspected" then nodeStatusSuspected
  else if st =s "quarantined" then nodeStatusQuarantined
  else nodeStatusActive.

(** The entry that [processMember] builds. *)
Definition entry_in (now : Time) (clusterPath : string) (m : SyncMember) : Entry :=
  {| e_NodeID := sm_NodeId m; e_ClusterPath := clusterPath; e_PublicKey := sm_PublicKey m; e_Addresses := sm_Addresses m;
     e_Region := ""; e_Datacenter := ""; e_Capabilities := caps_in <$> sm_Capabilities m;
     e_FirstSeen := default zero_time (sm_JoinedAt m); e_LastSeen := default zero_time (sm_LastSeen m); e_LastConnected := zero_time;
     e_UpdatedAt := now; e_ConnectionAttempts := 0; e_ConnectionSuccess := 0; e_SuccessRate := f64_zero false; e_ConsecutiveFails := 0;
     e_ReliabilityScore := f64_zero false; e_LastProbeTime := zero_time; e_LastProbeSuccess := false; e_Status := status_in (sm_Status m);
     e_IsConnected := false |}.

Definition processMember (clusterPath : string) (m : SyncMember) : ST Syncer (result PbError bool) := fun s =>
  match sy_call (pb_Exists (sm_NodeId m) clusterPath) s with
  | (Err e, s) => (Err e, s)
  | (Ok exists_, s) =>
      let '(now, s) := sy_now s in
      let entry := entry_in now clusterPath m in
      if exists_ : bool
      then match sy_call (pb_Update entry) s with (Ok _, s) => (Ok false, s) | (Err e, s) => (Err e, s) end
      else match sy_call (pb_Add entry) s with (Ok _, s) => (Ok true, s) | (Err e, s) => (Err e, s) end
  end.

(** The loop over the members: how many were new; errors are logged. *)
Fixpoint processMembers (clusterPath : string) (ms : list SyncMember) (new : Z) : ST Syncer Z := fun s =>
  match ms with
  | [] => (new, s)
  | m :: ms =>
      match processMember clusterPath m s with
      | (Ok true, s) => processMembers clusterPath ms (new + 1) s
      | (_, s) => processMembers clusterPath ms new s
      end
  end.

Definition rev_in (r : RevocationPb) : RevocationEntry :=
  {| re_CertFingerprint := rp_CertFingerprint r; re_NodeID := rp_NodeId r; re_ClusterPath := rp_ClusterPath r;
     re_RevokedAt := default zero_time (rp_RevokedAt r); re_Reason := rp_Reason r; re_RevokedBy := rp_RevokedBy r |}.
Definition rev_out (r : RevocationEntry) : RevocationPb :=
  {| rp_CertFingerprint := re_CertFingerprint r; rp_NodeId := re_NodeID r; rp_ClusterPath := re_ClusterPath r;
     rp_RevokedAt := Some (re_RevokedAt r); rp_Reason := re_Reason r; rp_RevokedBy := re_RevokedBy r |}.

(** ** Requests *)

(** The reader wants bytes that did not arrive. *)
Definition starved (e : framing.ProtoError) : bool :=
  match e with framing.ErrReadLength | framing.ErrReadData => true | _ => false end.

(** [WriteProto] and [ReadProto] on a stream that was opened. No deadline is set
    on the stream: [None] when the read waits for ever. *)
Definition exchange (writable : bool) (answer : bytes -> bytes) (ends : bool) (req : SyncRequest) : option (result bool SyncResponse) :=
  match marshal_request req with
  | None => Some (Err true)
  | Some data =>
      if negb writable then Some (Err true)
      else match framing.ReadProto unmarshal_response (answer (framing.frame data)) with
           | (Ok resp, _) => Some (Ok resp)
           | (Err e, _) => if starved e && negb ends then None else Some (Err false)
           end
  end.

(** [syncContinue], over the streams that can still be opened before the
    context of the sync is done; [None] when it does not return. *)
Fixpoint syncContinue (streams : list Stream) (clusterPath cursor : string) : ST Syncer (option (result SyncError unit)) := fun s =>
  match streams with
  | Opened w answer ends :: streams =>
      let '(id, s) := sy_newID s in
      let req := {| sq_ClusterPath := clusterPath; sq_LastSyncTime := None; sq_RequestId := id; sq_MaxMembers := int32 (sy_max s); sq_Cursor := cursor |} in
      match exchange w answer ends req with
      | None => (None, s)
      | Some (Err true) => (Some (Err ErrContSend), s)
      | Some (Err false) => (Some (Err ErrContRead), s)
      | Some (Ok resp) =>
          let '(_, s) := processMembers clusterPath (sr_Members resp) 0 s in
          if negb (sr_IsComplete resp) && (sr_NextCursor resp <>s "") then syncContinue streams clusterPath (sr_NextCursor resp) s
          else (Some (Ok tt), s)
      end
  | _ => (Some (Err ErrContStream), s)
  end.

Definition emitSyncFailed (clusterPath peer : string) (e : SyncError) (s : Syncer) : option (result SyncError unit) * Syncer :=
  (Some (Err e), sy_publish (SyncFailed clusterPath peer e) s).

Definition merge_revocations (clusterPath : string) (revs : list RevocationPb) (s : Syncer) : Syncer :=
  if has_revocations && (0 <? length revs)%nat
  then let '(_, r) := MergeRevocations clusterPath (rev_in <$> revs) (sy_revs s) in set_revs r s
  else s.

(** What happens with a response without an error. *)
Definition syncMerge (clusterPath targetPeer : string) (resp : SyncResponse) (s : Syncer) : Syncer :=
  let '(newMembers, s) := processMembers clusterPath (sr_Members resp) 0 s in
  let s := merge_revocations clusterPath (sr_Revocations resp) s in
  let s := match sr_SyncTime resp with Some t => set_last (<[clusterPath := t]> (sy_lastSync s)) s | None => s end in
  sy_publish (SyncCompleted clusterPath (Z.of_nat (length (sr_Members resp))) newMembers targetPeer) s.

(** [None] when it does not return. *)
Definition syncFromPeer (streams : list Stream) (clusterPath targetPeer : string) (lastSyncTime : option Time)
    : ST Syncer (option (result SyncError unit)) := fun s =>
  match streams with
  | Opened w answer ends :: streams =>
      let '(_, s) := sy_call (pb_RecordConnectionAttempt targetPeer clusterPath true) s in
      let '(id, s) := sy_newID s in
      let req := {| sq_ClusterPath := clusterPath; sq_LastSyncTime := lastSyncTime; sq_RequestId := id; sq_MaxMembers := int32 (sy_max s); sq_Cursor := "" |} in
      match exchange w answer ends req with
      | None => (None, s)
      | Some (Err true) => emitSyncFailed clusterPath targetPeer ErrSyncSend s
      | Some (Err false) => emitSyncFailed clusterPath targetPeer ErrSyncRead s
      | Some (Ok resp) =>
          if sr_Error resp <>s "" then emitSyncFailed clusterPath targetPeer (ErrSyncPeer (sr_Error resp)) s
          else
            let s := syncMerge clusterPath targetPeer resp s in
            if negb (sr_IsComplete resp) && (sr_NextCursor resp <>s "") then syncContinue streams clusterPath (sr_NextCursor resp) s
            else (Some (Ok tt), s)
      end
  | _ => emitSyncFailed clusterPath targetPeer ErrSyncStream (recordConnectionFailure targetPeer clusterPath s)
  end.

Definition SyncFrom (streams : list Stream) (clusterPath targetPeer : string) : ST Syncer (option (result SyncError unit)) :=
  syncFromPeer streams clusterPath targetPeer None.
Definition SyncDeltaFrom (streams : list Stream) (clusterPath targetPeer : string) : ST Syncer (option (result SyncError unit)) := fun s =>
  syncFromPeer streams clusterPath targetPeer (sy_lastSync s !! clusterPath) s.

(** ** Serving *)

Definition filterUpdatedSince (entries : list Entry) (since : Time) : list Entry :=
  List.filter (fun e => time_After (e_UpdatedAt e) since || time_After (e_LastSeen e) since) entries.

Definition member_out (e : Entry) : SyncMember :=
  {| sm_NodeId := e_NodeID e; sm_Addresses := e_Addresses e; sm_PublicKey := e_PublicKey e; sm_Capabilities := caps_out <$> e_Capabilities e;
     sm_JoinedAt := Some (e_FirstSeen e); sm_LastSeen := Some (e_LastSeen e); sm_Status := e_Status e |}.

Definition sync_error (requestID msg : string) : SyncResponse :=
  {| sr_RequestId := requestID; sr_Members := []; sr_SyncTime := None; sr_IsComplete := false; sr_NextCursor := ""; sr_Error := msg; sr_Revocations := [] |}.

(** The limit on the members of a response; [max] is not negative. *)
Definition page_size (max requested : Z) : Z := if (requested <=? 0) || (max <? requested) then max else requested.

(** The response to a request from [remote]. *)
Definition serve (remote : string) (req : SyncRequest) : ST Syncer SyncResponse := fun s =>
  match sy_call (pb_Exists remote (sq_ClusterPath req)) s with
  | (Err _, s) => (sync_error (sq_RequestId req) "internal error", s)
  | (Ok false, s) => (sync_error (sq_RequestId req) "peer not authenticated for cluster", s)
  | (Ok true, s) =>
      match sy_call (pb_GetByCluster (sq_ClusterPath req)) s with
      | (Err _, s) => (sync_error (sq_RequestId req) "failed to get members", s)
      | (Ok entries, s) =>
          let entries := match sq_LastSyncTime req with Some since => filterUpdatedSince entries since | None => entries end in
          let maxMembers := page_size (sy_max s) (sq_MaxMembers req) in
          let '(now, s) := sy_now s in
          ({| sr_RequestId := sq_RequestId req;
              sr_Members := member_out <$> take (Z.to_nat maxMembers) entries;
              sr_SyncTime := Some now; sr_IsComplete := Z.of_nat (length entries) <=? maxMembers; sr_NextCursor := ""; sr_Error := "";
              sr_Revocations := if has_revocations then rev_out <$> GetRevocations (sq_ClusterPath req) (sy_revs s) else [] |}, s)
      end
  end.

(** [handleSyncStream] on the bytes that arrive from [remote]: the bytes
    written back. *)
Definition handleSyncStream (remote : string) (input : bytes) : ST Syncer bytes := fun s =>
  let '(now, s) := sy_now s in
  let '(allowed, l) := ratelimit.Allow now remote (sy_limiter s) in
  let s := set_limiter l s in
  let reply (resp : SyncResponse) := match marshal_response resp with Some data => framing.frame data | None => [] end in
  if negb allowed then (reply (sync_error "" "rate limited"), s)
  else match framing.ReadProto unmarshal_request input with
       | (Err _, _) => ([], s)
       | (Ok req, _) => let '(resp, s) := serve remote req s in (reply resp, s)
       end.

(** ** Choosing a peer *)

(** [net] gives the streams to each peer for the next sync with it. *)
Definition Net : Type := string -> list Stream.

(** The candidates of the periodic sync, from a start index on, until one
    sync succeeds; [false] when a sync does not return. *)
Fixpoint try_each (net : Net) (clusterPath : string) (candidates : list Entry) : ST Syncer bool := fun s =>
  match candidates with
  | [] => (true, s)
  | selected :: candidates =>
      match Decode (e_NodeID selected) with
      | None => try_each net clusterPath candidates s
      | Some peerID =>
          let s := addPeerAddresses peerID (e_Addresses selected) s in
          match SyncDeltaFrom (net peerID) clusterPath peerID s with
          | (None, s) => (false, s)
          | (Some (Ok _), s) => (true, s)
          | (Some (Err _), s) => try_each net clusterPath candidates s
          end
      end
  end.

Definition periodic_candidates (self : string) (peers : list Entry) : list Entry :=
  List.filter (fun p => (e_NodeID p <>s self) && (e_Status p <>s nodeStatusFailed)) peers.

(** [idx := (startIdx + i) % len(candidates)]; [startIdx] is not negative for
    a clock after 1970. *)
Definition rotate {A} (start : Z) (l : list A) : list A := drop (Z.to_nat start) l ++ take (Z.to_nat start) l.

(** [false] when it does not return, and with it the loop of the cluster. *)
Definition performPeriodicSync (net : Net) (clusterPath : string) : ST Syncer bool := fun s =>
  match sy_call (pb_GetByCluster clusterPath) s with
  | (Ok peers, s) =>
      let candidates := periodic_candidates (sy_self s) peers in
      if (length candidates =? 0)%nat then (true, s) else
      let '(now, s) := sy_now s in
      let startIdx := Z.rem now (Z.of_nat (length candidates)) in
      try_each net clusterPath (rotate startIdx candidates) s
  | (Err _, s) => (true, s)
  end.

Definition syncFromPeerID (net : Net) (clusterPath nodeID : string) : ST Syncer (option bool) := fun s =>
  match Decode nodeID with
  | None => (Some false, s)
  | Some peerID =>
      match sy_call (pb_Get nodeID clusterPath) s with
      | (Ok (Some entry), s) =>
          let s := addPeerAddresses peerID (e_Addresses entry) s in
          match SyncFrom (net peerID) clusterPath peerID s with
          | (None, s) => (None, s)
          | (Some (Ok _), s) => (Some true, s)
          | (Some (Err _), s) => (Some false, s)
          end
      | (_, s) => (Some false, s)
      end
  end.

Fixpoint try_ids (net : Net) (clusterPath : string) (candidates : list Entry) : ST Syncer bool := fun s =>
  match candidates with
  | [] => (true, s)
  | entry :: candidates =>
      match syncFromPeerID net clusterPath (e_NodeID entry) s with
      | (None, s) => (false, s)
      | (Some true, s) => (true, s)
      | (Some false, s) => try_ids net clusterPath candidates s
      end
  end.

Definition request_candidates (self preferred : string) (peers : list Entry) : list Entry :=
  List.filter (fun p => (e_NodeID p <>s self) && (e_NodeID p <>s preferred) &&
    negb ((e_Status p =s nodeStatusQuarantined) || (e_Status p =s nodeStatusFailed))) peers.

(** [handleSyncRequest] on an event [SyncRequested]; [false] when it does not
    return. *)
Definition handleSyncRequest (net : Net) (clusterPath preferredPeer : string) : ST Syncer bool := fun s =>
  let '(done_, s) := if preferredPeer <>s "" then syncFromPeerID net clusterPath preferredPeer s else (Some false, s) in
  match done_ with
  | None => (false, s)
  | Some true => (true, s)
  | Some false =>
      match sy_call (pb_GetBestPeers clusterPath 10) s with
      | (Ok peers, s) => try_ids net clusterPath (request_candidates (sy_self s) preferredPeer peers) s
      | (Err _, s) => (true, s)
      end
  end.

(** A turn of [clusterJoinedLoop]: the first sync, in a goroutine of its own,
    and the periodic loop. *)
Definition onClusterJoined (net : Net) (clusterPath voucher : string) (s : Syncer) : Syncer :=
  StartPeriodicSync clusterPath (snd (handleSyncRequest net clusterPath voucher s)).

End Syncer.

(** ** What the syncer needs of the phonebook

    Beyond [IPhonebookLaws]: entries that the table can hold ([pb_plain]) are
    stored, and attempts are counted. *)

Class IPhonebookWrites (I : IPhonebook) (L : IPhonebookLaws I) := {
  pb_plain : Entry -> Prop;
  Exists_law : forall n c p, sound p -> exists p',
    pb_Exists n c p = (Ok (bool_decide (is_Some (members p !! (n, c)))), p') /\ sound p' /\ members p' = members p;
  Add_law : forall e p, sound p -> pb_plain e -> members p !! e_key e = None -> exists p' now,
    pb_Add e p = (Ok tt, p') /\ sound p' /\ members p' = <[e_key e := as_added now e]> (members p);
  Update_law : forall e p, sound p -> pb_plain e -> exists p' now,
    pb_Update e p = (Ok tt, p') /\ sound p' /\ members p' = alter (as_updated now e) (e_key e) (members p);
  Attempt_law : forall n c b p, sound p -> (forall e, members p !! (n, c) = Some e -> countable e) -> exists p' now,
    pb_RecordConnectionAttempt n c b p = (Ok tt, p') /\ sound p' /\ members p' = alter (as_attempted b now) (n, c) (members p)
}.

#[export, refine] Instance sqlite_writes `{R : SqliteReal} `{O : SqlOrder} `{J : PbJson} : IPhonebookWrites sqlite_phonebook sqlite_laws :=
  {| pb_plain := entry_plain |}.
Proof.
  - intros n c p Hs. exists (tick_stmt p). split; [by apply Exists_sound|]. split; [by apply tick_sound|done].
  - exact Add_sound.
  - exact Update_sound.
  - exact RecordConnectionAttempt_sound.
Defined.

Section Facts.
Context `{I : IPhonebook} `{L : !IPhonebookLaws I} `{W : !IPhonebookWrites I L} `{P : SyncCodec} `{CL : !SyncCodecLaws P} `{V : RevocationSource}.

(** The members a syncer knows. *)
Definition known (s : Syncer) : gmap (string * string) Entry := members (sy_pb s).
Definition sound_sy (s : Syncer) : Prop := sound (sy_pb s).

(** A call of the phonebook changes nothing else. *)
Lemma sy_call_eq {A} (f : ST PB A) s : sy_call f s = (fst (f (sy_pb s)), set_pb (snd (f (sy_pb s))) s).
Proof. unfold sy_call. by destruct (f (sy_pb s)). Qed.

(** Equal but for the phonebook and the clock. *)
Definition same_rest (s s' : Syncer) : Prop :=
  sy_self s' = sy_self s /\ sy_max s' = sy_max s /\ sy_lastSync s' = sy_lastSync s /\ sy_limiter s' = sy_limiter s /\
  sy_revs s' = sy_revs s /\ sy_loops s' = sy_loops s /\ sy_events s' = sy_events s.

#[local] Instance same_rest_preorder : PreOrder same_rest.
Proof. split; [done|]. intros s1 s2 s3 (?&?&?&?&?&?&?) (?&?&?&?&?&?&?). repeat split; congruence. Qed.

(** *** Merging members *)

(** What the table holds for [m] after [processMember]. *)
Definition merged (t now : Time) (c : string) (m : SyncMember) (old : option Entry) : Entry :=
  match old with Some o => as_updated t (entry_in now c m) o | None => as_added t (entry_in now c m) end.

(** A member the table can hold. *)
Definition holdable (c : string) (m : SyncMember) : Prop := forall now, pb_plain (entry_in now c m).

Lemma processMember_spec c m s : sound_sy s -> holdable c m -> exists t now s',
  processMember c m s = (Ok (bool_decide (known s !! (sm_NodeId m, c) = None)), s') /\ sound_sy s' /\ same_rest s s' /\
  known s' = <[(sm_NodeId m, c) := merged t now c m (known s !! (sm_NodeId m, c))]> (known s).
Proof.
  unfold sound_sy, known. intros Hs Hm. unfold processMember. rewrite sy_call_eq.
  destruct (Exists_law (sm_NodeId m) c (sy_pb s) Hs) as (p1 & -> & Hs1 & Hm1). cbn [fst snd]. unfold sy_now.
  set (now := sy_clock _ _). specialize (Hm now). set (e := entry_in now c m) in *.
  assert (Hk : e_key e = (sm_NodeId m, c)) by done. destruct (members (sy_pb s) !! (sm_NodeId m, c)) as [o|] eqn:E.
  - rewrite bool_decide_eq_true_2 by eauto. rewrite sy_call_eq. cbn [sy_pb set_pb sy_upd].
    destruct (Update_law e p1 Hs1 Hm) as (p2 & t & -> & Hs2 & Hm2). cbn [fst snd].
    exists t, now. eexists. split; [by rewrite bool_decide_eq_false_2 by done|]. split; [exact Hs2|]. split; [done|].
    change (members p2 = <[(sm_NodeId m, c):=as_updated t e o]> (members (sy_pb s))). rewrite Hm2, Hm1, Hk.
    apply map_eq. intros k. rewrite lookup_alter, lookup_insert. case_decide; [by rewrite E|done].
  - rewrite bool_decide_eq_false_2 by (by intros [? ?]). rewrite sy_call_eq. cbn [sy_pb set_pb sy_upd].
    destruct (Add_law e p1 Hs1 Hm) as (p2 & t & -> & Hs2 & Hm2); [by rewrite Hk, Hm1|]. cbn [fst snd].
    exists t, now. eexists. split; [by rewrite bool_decide_eq_true_2 by done|]. split; [exact Hs2|]. split; [done|].
    change (members p2 = <[(sm_NodeId m, c):=as_added t e]> (members (sy_pb s))). by rewrite Hm2, Hm1, Hk.
Qed.

(** How many of the listed members are unknown. *)
Definition unknown (c : string) (ms : list SyncMember) (s : Syncer) : Z :=
  Z.of_nat (length (List.filter (fun m => bool_decide (known s !! (sm_NodeId m, c) = None)) ms)).

Lemma processMembers_spec c ms new s : sound_sy s -> NoDup (sm_NodeId <$> ms) -> Forall (holdable c) ms -> exists s',
  processMembers c ms new s = (new + unknown c ms s, s') /\ sound_sy s' /\ same_rest s s' /\
  (forall m, m ∈ ms -> exists t now, known s' !! (sm_NodeId m, c) = Some (merged t now c m (known s !! (sm_NodeId m, c)))) /\
  (forall k, (forall m, m ∈ ms -> k <> (sm_NodeId m, c)) -> known s' !! k = known s !! k).
Proof.
  revert new s. induction ms as [|m ms IH]; intros new s Hs Hnd Hf.
  { exists s. unfold unknown. cbn. rewrite Z.add_0_r. split_and!; [done..| |done]. by intros m ?%elem_of_nil. }
  rewrite fmap_cons in Hnd. apply list.NoDup_cons in Hnd as [Hni Hnd]. apply list.Forall_cons in Hf as [Hm Hf].
  destruct (processMember_spec c m s Hs Hm) as (t & now & s1 & E & Hs1 & Hr1 & Hk1).
  assert (Hother : forall m', m' ∈ ms -> known s1 !! (sm_NodeId m', c) = known s !! (sm_NodeId m', c)).
  { intros m' Hm'. rewrite Hk1, lookup_insert_ne; [done|]. intros [= Heq]. apply Hni. rewrite Heq. by apply list_elem_of_fmap_2. }
  set (b := bool_decide (known s !! (sm_NodeId m, c) = None)) in *.
  destruct (IH (if b then new + 1 else new) s1 Hs1 Hnd Hf) as (s' & E' & Hs' & Hr' & Hin & Hout).
  assert (Hu : unknown c ms s1 = unknown c ms s).
  { unfold unknown. f_equal. f_equal. apply filter_ext_in. intros m' Hm'%list_elem_of_In. by rewrite Hother. }
  exists s'. split; [|split; [done|split; [by etrans|split]]].
  - cbn [processMembers]. rewrite E. rewrite Hu in E'. unfold unknown at 1. cbn [List.filter]. fold b.
    destruct b; rewrite E'; f_equal; unfold unknown; cbn [length]; lia.
  - intros m' [->|Hm']%elem_of_cons.
    + exists t, now. rewrite Hout, Hk1, lookup_insert_eq; [done|]. intros m'' Hm'' [= Heq]. apply Hni. rewrite Heq. by apply list_elem_of_fmap_2.
    + destruct (Hin m' Hm') as (t' & now' & ->). exists t', now'. by rewrite Hother.
  - intros k Hk. rewrite Hout by (intros m' Hm'; apply Hk; by right). rewrite Hk1, lookup_insert_ne; [done|].
    intros <-. by apply (Hk m); [left|].
Qed.

Lemma syncMerge_spec c target resp s :
  sound_sy s -> NoDup (sm_NodeId <$> sr_Members resp) -> Forall (holdable c) (sr_Members resp) ->
  let s' := syncMerge c target resp s in
  sound_sy s' /\ sy_events s' = sy_events s ++ [SyncCompleted c (Z.of_nat (length (sr_Members resp))) (unknown c (sr_Members resp) s) target] /\
  sy_lastSync s' = match sr_SyncTime resp with Some t => <[c := t]> (sy_lastSync s) | None => sy_lastSync s end /\
  (forall m, m ∈ sr_Members resp -> exists t now, known s' !! (sm_NodeId m, c) = Some (merged t now c m (known s !! (sm_NodeId m, c)))) /\
  (forall k, (forall m, m ∈ sr_Members resp -> k <> (sm_NodeId m, c)) -> known s' !! k = known s !! k).
Proof.
  intros Hs Hnd Hf. cbv zeta. unfold syncMerge.
  destruct (processMembers_spec c (sr_Members resp) 0 s Hs Hnd Hf) as (s1 & -> & Hs1 & Hr & Hin & Hout). rewrite Z.add_0_l.
  destruct Hr as (_ & _ & Hl & _ & _ & _ & He). unfold merge_revocations.
  destruct (has_revocations && (0 <? length (sr_Revocations resp))%nat).
  - destruct (MergeRevocations c (rev_in <$> sr_Revocations resp) (sy_revs s1)) as [? r].
    destruct (sr_SyncTime resp); cbn; rewrite He, Hl; by split_and!.
  - destruct (sr_SyncTime resp); cbn; rewrite He, Hl; by split_and!.
Qed.

(** *** Serving *)

(** The entries a request asks for. *)
Definition wanted (req : SyncRequest) (e : Entry) : bool :=
  match sq_LastSyncTime req with
  | Some since => time_After (e_UpdatedAt e) since || time_After (e_LastSeen e) since
  | None => true
  end.
Definition cluster_entries (c : string) (s : Syncer) : list Entry := (map_to_list (filter (fun ke => e_ClusterPath ke.2 = c) (known s))).*2.

Lemma wanted_filter req l :
  match sq_LastSyncTime req with Some since => filterUpdatedSince l since | None => l end = List.filter (wanted req) l.
Proof. unfold wanted, filterUpdatedSince. destruct (sq_LastSyncTime req); [done|]. induction l as [|e l IH]; [done|]. cbn. by rewrite <- IH. Qed.

Lemma sync_serve_spec remote req s : sound_sy s ->
  let '(resp, s') := serve remote req s in
  sound_sy s' /\ known s' = known s /\
  match known s !! (remote, sq_ClusterPath req) with
  | None => resp = sync_error (sq_RequestId req) "peer not authenticated for cluster"
  | Some _ => exists l, l ≡ₚ List.filter (wanted req) (cluster_entries (sq_ClusterPath req) s) /\
      sr_Members resp = member_out <$> take (Z.to_nat (page_size (sy_max s) (sq_MaxMembers req))) l /\
      sr_IsComplete resp = (Z.of_nat (length l) <=? page_size (sy_max s) (sq_MaxMembers req)) /\
      sr_Error resp = "" /\ sr_NextCursor resp = "" /\ sr_SyncTime resp = Some (sy_clock s (sy_ticks s))
  end.
Proof.
  intros Hs.   unfold sound_sy, known in *. unfold serve. rewrite sy_call_eq. destruct (Exists_law remote (sq_ClusterPath req) (sy_pb s) Hs) as (p1 & -> & Hs1 & Hm1). cbn [fst snd].
  destruct (members (sy_pb s) !! (remote, sq_ClusterPath req)) as [e|] eqn:E.
  - rewrite bool_decide_eq_true_2 by eauto. rewrite sy_call_eq. cbn [sy_pb set_pb sy_upd].
    destruct (GetByCluster_law (sq_ClusterPath req) p1 Hs1) as (l & p2 & -> & Hs2 & Hm2 & Hl). cbn [fst snd]. rewrite wanted_filter.
    unfold sy_now. cbn. split; [done|]. split; [by rewrite Hm2|]. exists (List.filter (wanted req) l).
    split; [|done]. unfold cluster_entries, known. rewrite <- Hm1. by apply list_filter_perm.
  - rewrite bool_decide_eq_false_2 by (by intros [? ?]). cbn. by split_and!.
Qed.

(** Only members are served, and exactly what they ask for.  A
    request from a node that is not in the phonebook of the cluster gets an
    error and no member; a member gets the entries of that cluster that
    changed since the time it names, in some order, up to the page size, and
    is told whether these are all; no cursor is ever returned.  Serving
    changes no entry. *)
Theorem sync_serve_exact remote req s (Hs : sound_sy s) :
  let '(resp, s') := serve remote req s in
  sound_sy s' /\ known s' = known s /\
  match known s !! (remote, sq_ClusterPath req) with
  | None => resp = sync_error (sq_RequestId req) "peer not authenticated for cluster"
  | Some _ => exists l, l ≡ₚ List.filter (wanted req) (cluster_entries (sq_ClusterPath req) s) /\
      sr_Members resp = member_out <$> take (Z.to_nat (page_size (sy_max s) (sq_MaxMembers req))) l /\
      sr_IsComplete resp = (Z.of_nat (length l) <=? page_size (sy_max s) (sq_MaxMembers req)) /\
      sr_Error resp = "" /\ sr_NextCursor resp = "" /\ sr_SyncTime resp = Some (sy_clock s (sy_ticks s))
  end.
Proof. exact (sync_serve_spec remote req s Hs). Qed.

(** A long list is cut for good.  When a cluster has more members
    than the page size, the response is marked incomplete but names no
    cursor, so the client ends the sync successfully and remembers its time;
    as long as the members do not change, every later delta sync from that
    time is empty and complete, and the members that were cut never arrive. *)
Theorem sync_truncates remote c id id' max s
    (Hs : sound_sy s) (Hmember : is_Some (known s !! (remote, c))) (Hmax : 0 <= sy_max s)
    (Hmore : page_size (sy_max s) max < Z.of_nat (length (cluster_entries c s)))
    (Hold : forall e, e ∈ cluster_entries c s -> e_UpdatedAt e <= sy_clock s (sy_ticks s) /\ e_LastSeen e <= sy_clock s (sy_ticks s)) :
  let '(r1, s1) := serve remote {| sq_ClusterPath := c; sq_LastSyncTime := None; sq_RequestId := id; sq_MaxMembers := max; sq_Cursor := "" |} s in
  let '(r2, s2) := serve remote {| sq_ClusterPath := c; sq_LastSyncTime := sr_SyncTime r1; sq_RequestId := id'; sq_MaxMembers := max; sq_Cursor := "" |} s1 in
  (length (sr_Members r1) < length (cluster_entries c s))%nat /\ sr_IsComplete r1 = false /\ sr_NextCursor r1 = "" /\
  sr_Members r2 = [] /\ sr_IsComplete r2 = true /\ known s2 = known s.
Proof.
  set (req1 := {| sq_LastSyncTime := None |}).
  assert (Hs1' : sy_max (snd (serve remote req1 s)) = sy_max s) by (unfold serve; by repeat (rewrite !sy_call_eq || case_match; simplify_eq/=)).
  pose proof (sync_serve_spec remote req1 s Hs) as H1. destruct (serve remote req1 s) as [r1 s1]. cbn [snd] in Hs1'.
  destruct H1 as (Hs1 & Hk1 & H1). cbn [sq_ClusterPath sq_MaxMembers req1] in H1. destruct Hmember as [e0 He0]. rewrite He0 in H1.
  destruct H1 as (l & Hl & Hm1 & Hc1 & _ & Hn1 & Ht1).
  assert (Hall : List.filter (wanted req1) (cluster_entries c s) = cluster_entries c s) by (clear; induction (cluster_entries c s) as [|e l IH]; cbn; congruence).
  rewrite Hall in Hl. pose proof (Permutation_length Hl) as Hlen.
  set (req2 := {| sq_LastSyncTime := sr_SyncTime r1 |}). pose proof (sync_serve_spec remote req2 s1 Hs1) as H2.
  destruct (serve remote req2 s1) as [r2 s2]. destruct H2 as (_ & Hk2 & H2). cbn [sq_ClusterPath sq_MaxMembers req2] in H2.
  rewrite Hk1, He0 in H2. destruct H2 as (l2 & Hl2 & Hm2 & Hc2 & _).
  assert (Hnone : List.filter (wanted req2) (cluster_entries c s1) = []).
  { unfold cluster_entries. rewrite Hk1. fold (cluster_entries c s). unfold wanted. cbn [sq_LastSyncTime req2]. rewrite Ht1. clear -Hold.
    induction (cluster_entries c s) as [|e l' IH]; [done|]. cbn [List.filter]. destruct (Hold e) as [A B]; [by left|].
    unfold time_After. destruct (Z.ltb_spec (sy_clock s (sy_ticks s)) (e_UpdatedAt e)); [lia|].
    destruct (Z.ltb_spec (sy_clock s (sy_ticks s)) (e_LastSeen e)); [lia|]. apply IH. intros e' He'. apply Hold. by right. }
  rewrite Hnone in Hl2. symmetry in Hl2. apply Permutation_nil in Hl2. subst l2. rewrite Hm1, Hc1, Hn1, Hm2, Hc2, take_nil, length_fmap, length_take.
  assert (Hp : 0 <= page_size (sy_max s) max) by (unfold page_size; destruct (Z.leb_spec max 0), (Z.ltb_spec (sy_max s) max); cbn [orb]; lia).
  split_and!; [lia| |done|done| |by rewrite Hk2].
  - apply Z.leb_gt. lia.
  - apply Z.leb_le. cbn. by rewrite Hs1'.
Qed.

(** *** A sync between two nodes *)

(** The server after the rate limiter let the request through. *)
Definition admitted (remote : string) (s : Syncer) : Syncer :=
  let '(now, s) := sy_now s in set_limiter (snd (ratelimit.Allow now remote (sy_limiter s))) s.
Definition allows (remote : string) (s : Syncer) : Prop := fst (ratelimit.Allow (sy_clock s (sy_ticks s)) remote (sy_limiter s)) = true.

(** A message that fits a frame. *)
Definition fits (o : option bytes) : Prop := exists data, o = Some data /\ Z.of_nat (length data) <= framing.MaxMessageSize.

Lemma read_frame {M} (U : bytes -> option M) data m : Z.of_nat (length data) <= framing.MaxMessageSize -> U data = Some m ->
  framing.ReadProto U (framing.frame data) = (Ok m, []).
Proof.
  intros Hl HU. rewrite <- (app_nil_r (framing.frame data)), framing.ReadProto_frame by (unfold framing.MaxMessageSize in Hl; lia).
  destruct (Z.ltb_spec framing.MaxMessageSize (Z.of_nat (length data))); [lia|]. by rewrite HU.
Qed.

Lemma int32_idem z : int32 (int32 z) = int32 z.
Proof. apply int32_id, int32_range. Qed.

(** The exchange of a client with a server that admits it. *)
Lemma exchange_server remote req s : allows remote s -> int32 (sq_MaxMembers req) = sq_MaxMembers req -> fits (marshal_request req) ->
  let resp := fst (serve remote req (admitted remote s)) in fits (marshal_response resp) -> Forall member_plain (sr_Members resp) ->
  exchange true (fun b => fst (handleSyncStream remote b s)) true req = Some (Ok resp).
Proof.
  intros Ha Hi (d & Ed & Hd) resp (d' & Ed' & Hd') Hp. unfold exchange. rewrite Ed. cbn [negb].
  assert (fst (handleSyncStream remote (framing.frame d) s) = framing.frame d') as ->.
  { unfold handleSyncStream. unfold allows in Ha. unfold resp, admitted in *. unfold sy_now in *. cbn [sy_limiter sy_upd] in *.
    destruct (ratelimit.Allow (sy_clock s (sy_ticks s)) remote (sy_limiter s)) as [b l]. cbn [fst snd] in *. subst b. cbn [negb].
    rewrite (read_frame unmarshal_request d req Hd) by (by apply request_law).
    destruct (serve remote req _) as [r s']. cbn [fst] in *. by rewrite Ed'. }
  by rewrite (read_frame unmarshal_response d' resp Hd') by (by apply response_law).
Qed.

Lemma cluster_entry_key c s e : sound_sy s -> e ∈ cluster_entries c s <-> known s !! (e_NodeID e, c) = Some e.
Proof.
  intros Hs. unfold cluster_entries. rewrite list_elem_of_fmap. split.
  - intros ([k e'] & -> & [Hl Hc]%elem_of_map_to_list%map_lookup_filter_Some). cbn in *. pose proof (members_key _ _ _ Hs Hl) as Hk.
    unfold e_key in Hk. by rewrite Hc in Hk; rewrite Hk.
  - intros Hl. exists ((e_NodeID e, c), e). split; [done|]. apply elem_of_map_to_list, map_lookup_filter_Some. split; [done|].
    pose proof (members_key _ _ _ Hs Hl) as [= ?]. done.
Qed.

Lemma cluster_entries_NoDup c s : sound_sy s -> NoDup (e_NodeID <$> cluster_entries c s).
Proof.
  intros Hs. unfold cluster_entries. rewrite <- list_fmap_compose. apply NoDup_fmap_2_strong; [|apply NoDup_map_to_list].
  intros [k e] [k' e'] [Hl Hc]%elem_of_map_to_list%map_lookup_filter_Some [Hl' Hc']%elem_of_map_to_list%map_lookup_filter_Some.
  cbn in *. intros Heq. pose proof (members_key _ _ _ Hs Hl) as Hk. pose proof (members_key _ _ _ Hs Hl') as Hk'. unfold e_key in *.
  assert (k = k') by (rewrite <- Hk, <- Hk'; congruence). subst k'. unfold known in *. congruence.
Qed.

Lemma caps_out_in (o : option Capabilities) : caps_in <$> (caps_out <$> o) = o.
Proof. by destruct o as [[]|]. Qed.

(** What an entry of the server becomes at the client. *)
Definition received (e e' : Entry) : Prop :=
  e_PublicKey e' = e_PublicKey e /\ e_Addresses e' = e_Addresses e /\ e_Capabilities e' = e_Capabilities e /\
  (e_Status e <> "" -> e_Status e' = status_in (e_Status e)).

Lemma merged_received t now c e old : received e (merged t now c (member_out e) old).
Proof.
  assert (Hst : e_Status e <> "" -> status_in (e_Status e) <> "").
  { unfold status_in. destruct (String.eqb_spec (e_Status e) ""); [done|]. by repeat case_match. }
  unfold received, merged. destruct old as [o|]; cbn; rewrite caps_out_in; split_and!; try done. intros Hne.
  destruct (String.eqb_spec (status_in (e_Status e)) ""); [by destruct Hst|done].
Qed.

(** The request of a full sync. *)
Definition first_request (c : string) (s : Syncer) : SyncRequest :=
  {| sq_ClusterPath := c; sq_LastSyncTime := None; sq_RequestId := sy_uuid s (sy_uuids s); sq_MaxMembers := int32 (sy_max s); sq_Cursor := "" |}.

(** C20: members arrive.  A node syncs with a peer that has it as a
    member of the cluster. The peer's rate limiter admits the request (not the
    21st of a minute), it has no more members than fit a page, their integers
    fit the fields of the messages and their values those of the phonebook, and
    request and response each fit a frame of 10 MiB; the statements of both
    phonebooks succeed, and the counters of the node's entry for the peer are
    not at their limit. Then every member of the peer is in the node's phonebook
    afterwards with its key, addresses and capabilities and the status the peer
    has for it (a failed member as an active one); no other entry but the peer's
    own changes, the time of the peer's clock is remembered and one completed
    sync is published. *)
Theorem sync_members_arrive c cl srv
    (Hcl : sound_sy cl) (Hsrv : sound_sy srv) (Hcount : forall e, known cl !! (sy_self srv, c) = Some e -> countable e)
    (Hmember : is_Some (known srv !! (sy_self cl, c))) (Hrate : allows (sy_self cl) srv)
    (Hpage : Z.of_nat (length (cluster_entries c srv)) <= page_size (sy_max srv) (int32 (sy_max cl)))
    (Hplain : forall e, e ∈ cluster_entries c srv -> member_plain (member_out e) /\ holdable c (member_out e))
    (Hreq : fits (marshal_request (first_request c cl)))
    (Hresp : fits (marshal_response (fst (serve (sy_self cl) (first_request c cl) (admitted (sy_self cl) srv))))) :
  exists cl', SyncFrom [Opened true (fun b => fst (handleSyncStream (sy_self cl) b srv)) true] c (sy_self srv) cl = (Some (Ok tt), cl') /\ sound_sy cl' /\
    (forall e, known srv !! (e_NodeID e, c) = Some e -> exists e', known cl' !! (e_NodeID e, c) = Some e' /\ received e e') /\
    (forall k, (forall e, known srv !! (e_NodeID e, c) = Some e -> k <> (e_NodeID e, c)) -> k <> (sy_self srv, c) -> known cl' !! k = known cl !! k) /\
    sy_lastSync cl' !! c = Some (sy_clock srv (S (sy_ticks srv))) /\
    exists new, sy_events cl' = sy_events cl ++ [SyncCompleted c (Z.of_nat (length (cluster_entries c srv))) new (sy_self srv)].
Proof.
  assert (Hadm : sound_sy (admitted (sy_self cl) srv) /\ known (admitted (sy_self cl) srv) = known srv) by (by unfold admitted, sy_now).
  destruct Hadm as [Hsa Hka]. pose proof (sync_serve_spec (sy_self cl) (first_request c cl) _ Hsa) as Hserve.
  pose proof (exchange_server (sy_self cl) (first_request c cl) srv Hrate (int32_idem _) Hreq Hresp) as Hex. cbv zeta in Hex.
  destruct (serve (sy_self cl) (first_request c cl) (admitted (sy_self cl) srv)) as [resp srv']. cbn [fst] in *.
  destruct Hserve as (_ & _ & Hserve). cbn [sq_ClusterPath first_request] in Hserve. rewrite Hka in Hserve. destruct Hmember as [e0 He0]. rewrite He0 in Hserve.
  destruct Hserve as (l & Hl & Hm & Hcomplete & Herr & Hcur & Htime).
  assert (Hfl : List.filter (wanted (first_request c cl)) (cluster_entries c (admitted (sy_self cl) srv)) = cluster_entries c srv).
  { unfold cluster_entries. rewrite Hka. clear. induction ((map_to_list (filter (fun ke => e_ClusterPath ke.2 = c) (known srv))).*2) as [|e l IH]; cbn; congruence. }
  rewrite Hfl in Hl. pose proof (Permutation_length Hl) as Hlen.
  cbn [sq_MaxMembers first_request] in *. change (sy_max (admitted (sy_self cl) srv)) with (sy_max srv) in *.
  rewrite take_ge in Hm by lia.
  assert (Hin : forall e, e ∈ l <-> known srv !! (e_NodeID e, c) = Some e) by (intros e; rewrite Hl; by apply cluster_entry_key).
  assert (Hpl : Forall member_plain (sr_Members resp) /\ Forall (holdable c) (sr_Members resp) /\ NoDup (sm_NodeId <$> sr_Members resp)).
  { rewrite Hm. split_and!; [apply list.Forall_fmap, list.Forall_forall; intros e He; apply Hplain; by rewrite <- Hl..|].
    rewrite <- list_fmap_compose, Hl. exact (cluster_entries_NoDup c srv Hsrv). }
  destruct Hpl as (Hp1 & Hp2 & Hp3). specialize (Hex Hp1). unfold SyncFrom, syncFromPeer. rewrite sy_call_eq.
  destruct (Attempt_law (sy_self srv) c true (sy_pb cl) Hcl Hcount) as (p1 & t & -> & Hs1 & Hk1). cbn [fst snd]. unfold sy_newID.
  set (cl1 := sy_upd _ _ _ _ _ _ _ _ _ _). change (exchange _ _ _ _) with (exchange true (fun b => fst (handleSyncStream (sy_self cl) b srv)) true (first_request c cl)).
  rewrite Hex, Herr, Hcur. cbn [String.eqb negb]. rewrite andb_false_r.
  destruct (syncMerge_spec c (sy_self srv) resp cl1 Hs1 Hp3 Hp2) as (Hs' & Hev & Hlast & Hmem & Hout).
  eexists. split; [done|]. split; [exact Hs'|]. split; [|split; [|split]].
  - intros e He. destruct (Hmem (member_out e)) as (t' & now & E); [rewrite Hm; apply list_elem_of_fmap_2; by apply Hin|].
    eexists. split; [exact E|]. apply merged_received.
  - intros k Hk Hne. rewrite Hout.
    + change (known cl1) with (members p1). rewrite Hk1. by apply lookup_alter_ne.
    + rewrite Hm. intros m (e & -> & He)%list_elem_of_fmap. apply Hk. by apply Hin.
  - rewrite Hlast, Htime. apply lookup_insert_eq.
  - eexists. rewrite Hev, Hm, length_fmap, Hlen. done.
Qed.

(** *** Peers that cannot be reached *)

(** The entry after a failure that does not remove it. *)
Definition failed_once (e e' : Entry) : Prop :=
  e_ConsecutiveFails e' = e_ConsecutiveFails e + 1 /\
  e_Status e' = (if MaxConsecutiveFailsBeforeQuarantine <=? e_ConsecutiveFails e + 1 then nodeStatusQuarantined else e_Status e) /\
  e_ConnectionAttempts e' = e_ConnectionAttempts e + 1 /\ e_ConnectionSuccess e' = e_ConnectionSuccess e.

Lemma recordConnectionFailure_spec t c s e : sound_sy s -> known s !! (t, c) = Some e -> countable e ->
  let s' := recordConnectionFailure t c s in
  sound_sy s' /\ same_rest s s' /\
  if MaxConsecutiveFailsBeforeRemoval <=? e_ConsecutiveFails e + 1 then known s' = delete (t, c) (known s)
  else exists e', known s' = <[(t, c) := e']> (known s) /\ failed_once e e'.
Proof.
  unfold sound_sy, known. intros Hs He Hc. cbv zeta. unfold recordConnectionFailure. rewrite sy_call_eq.
  destruct (Attempt_law t c false (sy_pb s) Hs) as (p1 & now & -> & Hs1 & Hm1); [by intros e' [= <-]%(eq_trans (eq_sym He))|]. cbn [fst snd].
  rewrite sy_call_eq. cbn [sy_pb set_pb sy_upd]. destruct (Get_law t c p1 Hs1) as (p2 & -> & Hs2 & Hm2). cbn [fst snd].
  rewrite Hm1, lookup_alter_eq, He. cbn [fmap option_fmap option_map as_attempted e_ConsecutiveFails e_Status].
  assert (Hins : forall f, alter f (t, c) (members p1) = <[(t, c) := f (as_attempted false now e)]> (members (sy_pb s))).
  { intros f. rewrite Hm1. apply map_eq. intros k. destruct (decide ((t, c) = k)) as [<-|Hd].
    - by rewrite lookup_insert_eq, !lookup_alter_eq, He.
    - by rewrite lookup_insert_ne, !lookup_alter_ne by done. }
  assert (Hid : members p1 = <[(t, c) := as_attempted false now e]> (members (sy_pb s))) by (rewrite <- (Hins (fun x => x)); symmetry; by apply alter_id).
  destruct (MaxConsecutiveFailsBeforeRemoval <=? e_ConsecutiveFails e + 1).
  - rewrite sy_call_eq. cbn [sy_pb set_pb sy_upd]. destruct (Remove_law t c p2 Hs2) as (p3 & -> & Hs3 & Hm3). cbn.
    split_and!; [done..|]. rewrite Hm3, Hm2, Hm1. apply delete_alter_eq.
  - unfold failed_once. destruct (MaxConsecutiveFailsBeforeQuarantine <=? e_ConsecutiveFails e + 1);
      [destruct (String.eqb_spec (e_Status e) nodeStatusQuarantined)|]; cbn [andb negb].
    + cbn. split_and!; [done..|]. exists (as_attempted false now e). rewrite Hm2. cbn. rewrite Z.add_0_r. by split_and!.
    + rewrite sy_call_eq. cbn [sy_pb set_pb sy_upd]. destruct (SetStatus_law t c nodeStatusQuarantined p2 Hs2) as (p3 & at_ & -> & Hs3 & Hm3). cbn.
      split_and!; [done..|]. eexists. rewrite Hm3, Hm2, Hins. split; [done|]. cbn. rewrite Z.add_0_r. by split_and!.
    + cbn. split_and!; [done..|]. exists (as_attempted false now e). rewrite Hm2. cbn. rewrite Z.add_0_r. by split_and!.
Qed.

(** A sync with a peer to which no stream can be opened. *)
Definition unreachable (c t : string) (s : Syncer) : Syncer := snd (SyncDeltaFrom [] c t s).

(** An entry without failures whose counters are far from their limits. *)
Definition fresh (e : Entry) : Prop :=
  e_ConsecutiveFails e = 0 /\ 0 <= e_ConnectionAttempts e < max_int64 - 5 /\ 0 <= e_ConnectionSuccess e < max_int64.

(** Up to the fourth failure the peer is kept. *)
Lemma unreachable_iter n t c s e : (n < 5)%nat -> sound_sy s -> known s !! (t, c) = Some e -> fresh e ->
  let s' := Nat.iter n (unreachable c t) s in
  sound_sy s' /\ sy_events s' = sy_events s ++ replicate n (SyncFailed c t ErrSyncStream) /\ sy_lastSync s' = sy_lastSync s /\
  exists e', known s' = <[(t, c) := e']> (known s) /\ e_ConsecutiveFails e' = Z.of_nat n /\
    e_Status e' = (if (3 <=? n)%nat then nodeStatusQuarantined else e_Status e) /\
    e_ConnectionAttempts e' = e_ConnectionAttempts e + Z.of_nat n /\ e_ConnectionSuccess e' = e_ConnectionSuccess e.
Proof.
  intros Hn Hs He (Hf & Ha & Hsu). induction n as [|n IH]; cbv zeta.
  { cbn. rewrite app_nil_r, Z.add_0_r. split_and!; [done..|]. exists e. rewrite insert_id by done. by split_and!. }
  destruct IH as (Hs1 & Hev & Hlast & e1 & Hk & H1 & H2 & H3 & H4); [lia|].
  change (Nat.iter (S n) (unreachable c t) s) with (unreachable c t (Nat.iter n (unreachable c t) s)). set (s1 := Nat.iter n (unreachable c t) s) in *.
  destruct (recordConnectionFailure_spec t c s1 e1 Hs1) as (Hs2 & Hr & Hcase); [by rewrite Hk, lookup_insert_eq| |].
  { unfold countable. rewrite H1, H3, H4. unfold max_int64 in *. lia. }
  unfold MaxConsecutiveFailsBeforeRemoval in Hcase. rewrite H1 in Hcase. destruct (Z.leb_spec 5 (Z.of_nat n + 1)); [lia|].
  destruct Hcase as (e2 & Hk2 & F1 & F2 & F3 & F4). destruct Hr as (_ & _ & Hl2 & _ & _ & _ & He2).
  unfold unreachable, SyncDeltaFrom, syncFromPeer, emitSyncFailed. cbn [snd]. split; [exact Hs2|]. split; [|split].
  - change (sy_events (recordConnectionFailure t c s1) ++ [SyncFailed c t ErrSyncStream] = sy_events s ++ replicate (S n) (SyncFailed c t ErrSyncStream)).
    by rewrite He2, Hev, <- app_assoc, replicate_S_end.
  - change (sy_lastSync (recordConnectionFailure t c s1) = sy_lastSync s). by rewrite Hl2.
  - exists e2. change (known (sy_publish _ ?x)) with (known x). rewrite Hk2, Hk, insert_insert_eq. split_and!; [done|lia| |lia|lia].
    rewrite F2, H1, H2. unfold MaxConsecutiveFailsBeforeQuarantine. clear. destruct (Z.leb_spec 3 (Z.of_nat n + 1)), (Nat.leb_spec 3 n), (Nat.leb_spec 3 (S n)); try done; lia.
Qed.

(** A peer that cannot be reached is dropped in silence.  A peer
    without failures stays as it is for two failed syncs, is quarantined from
    the third on and is removed from the phonebook with the fifth; the only
    events are the failed syncs, so no node failure is reported and its
    replicas are not elected again. *)
Theorem sync_unreachable_removed n t c s e (Hn : (n <= 5)%nat)
    (Hs : sound_sy s) (He : known s !! (t, c) = Some e) (Hfresh : fresh e) :
  let s' := Nat.iter n (unreachable c t) s in
  sy_events s' = sy_events s ++ replicate n (SyncFailed c t ErrSyncStream) /\
  match known s' !! (t, c) with
  | Some e' => (n < 5)%nat /\ e_ConsecutiveFails e' = Z.of_nat n /\ e_Status e' = (if (3 <=? n)%nat then nodeStatusQuarantined else e_Status e)
  | None => n = 5%nat
  end /\
  forall k, k <> (t, c) -> known s' !! k = known s !! k.
Proof.
  cbv zeta. destruct (decide (n = 5)%nat) as [->|Hne].
  - destruct (unreachable_iter 4 t c s e ltac:(lia) Hs He Hfresh) as (Hs4 & Hev & _ & e4 & Hk & H1 & H2 & H3 & H4). destruct Hfresh as (_ & Ha & Hb).
    change (Nat.iter 5 (unreachable c t) s) with (unreachable c t (Nat.iter 4 (unreachable c t) s)).
    set (s4 := Nat.iter 4 (unreachable c t) s) in *. clearbody s4.
    destruct (recordConnectionFailure_spec t c s4 e4 Hs4) as (_ & Hr & Hcase); [by rewrite Hk, lookup_insert_eq| |].
    { unfold countable. rewrite H1, H3, H4. unfold max_int64 in *. lia. }
    rewrite H1 in Hcase. cbn in Hcase. destruct Hr as (_ & _ & _ & _ & _ & _ & He2).
    unfold unreachable, SyncDeltaFrom, syncFromPeer, emitSyncFailed. cbn [snd]. change (known (sy_publish _ ?x)) with (known x). rewrite Hcase, Hk.
    split_and!; [|by rewrite lookup_delete_eq|].
    { change (sy_events (recordConnectionFailure t c s4) ++ [SyncFailed c t ErrSyncStream] = sy_events s ++ replicate 5 (SyncFailed c t ErrSyncStream)).
      by rewrite He2, Hev, <- app_assoc. }
    intros k Hk'. by rewrite lookup_delete_ne, lookup_insert_ne.
  - destruct (unreachable_iter n t c s e ltac:(lia) Hs He Hfresh) as (_ & Hev & _ & e' & Hk & H1 & H2 & _).
    rewrite Hk, lookup_insert_eq. split_and!; [done|lia|done|done|]. intros k Hk'. by rewrite lookup_insert_ne.
Qed.

(** A round: some failed syncs with [t], then the merge of a list that a
    healthy peer sent. *)
Definition sync_round (c t from : string) (s : Syncer) (round : nat * SyncResponse) : Syncer :=
  syncMerge c from round.2 (Nat.iter round.1 (unreachable c t) s).
Definition lists (c t : string) (round : nat * SyncResponse) : Prop :=
  (round.1 < 5)%nat /\ t ∈ sm_NodeId <$> sr_Members round.2 /\ NoDup (sm_NodeId <$> sr_Members round.2) /\ Forall (holdable c) (sr_Members round.2).

(** A dead peer that others still list is never dropped.  Every
    merged list resets the failures it counts: however many rounds of up to
    four failed syncs follow each other, as long as each ends with the list of
    a peer that names it, the dead peer stays in the phonebook, without
    failures and with the status the others have for it. *)
Theorem sync_dead_peer_stays c t from rounds s e
    (Hs : sound_sy s) (He : known s !! (t, c) = Some e) (Hfresh : fresh e) (Hrounds : Forall (lists c t) rounds) :
  let s' := fold_left (sync_round c t from) rounds s in
  sound_sy s' /\ exists e', known s' !! (t, c) = Some e' /\ e_ConsecutiveFails e' = 0.
Proof.
  cbv zeta. revert s e Hs He Hfresh. induction Hrounds as [|[n resp] rounds (Hn & Hin & Hnd & Hf) Hrest IH]; intros s e Hs He Hfresh.
  { split; [done|]. exists e. split; [done|]. apply Hfresh. }
  cbn [fold_left]. cbn [fst snd] in *.
  destruct (unreachable_iter n t c s e Hn Hs He Hfresh) as (Hs1 & _ & _ & e1 & Hk & _). set (s1 := Nat.iter n (unreachable c t) s) in *.
  destruct (syncMerge_spec c from resp s1 Hs1 Hnd Hf) as (Hs2 & _ & _ & Hmem & _). apply list_elem_of_fmap in Hin as (m & -> & Hm).
  destruct (Hmem m Hm) as (t0 & now & E). rewrite Hk, lookup_insert_eq in E. eapply IH; [exact Hs2|exact E|]. unfold fresh, max_int64. cbn. lia.
Qed.

(** *** The periodic sync *)

(** The requests for a cluster can be encoded. *)
Definition can_ask (c : string) (max : Z) : Prop := forall last id,
  is_Some (marshal_request {| sq_ClusterPath := c; sq_LastSyncTime := last; sq_RequestId := id; sq_MaxMembers := int32 max; sq_Cursor := "" |}).

(** A peer that answers every request with a complete list. *)
Definition answers (streams : list Stream) : Prop := exists f ends rest, streams = Opened true f ends :: rest /\ forall data, exists resp r,
  framing.ReadProto unmarshal_response (f (framing.frame data)) = (Ok resp, r) /\ sr_Error resp = "" /\ sr_IsComplete resp = true.

(** Steps that publish nothing and leave the configuration alone. *)
Definition quiet (s s' : Syncer) : Prop := sy_max s' = sy_max s /\ sy_events s' = sy_events s.
#[local] Instance quiet_preorder : PreOrder quiet.
Proof. split; [done|]. intros s1 s2 s3 [? ?] [? ?]. split; congruence. Qed.

Lemma processMembers_quiet c ms new s : quiet s (snd (processMembers c ms new s)).
Proof.
  revert new s. induction ms as [|m ms IH]; intros new s; [done|]. cbn [processMembers].
  assert (Hm : quiet s (snd (processMember c m s))).
  { unfold processMember. rewrite !sy_call_eq. destruct (fst _) as [[]|]; cbn; [rewrite sy_call_eq; by destruct (fst _)..|done]. }
  destruct (processMember c m s) as [[[]|] s1]; cbn [snd] in Hm; by rewrite <- IH.
Qed.

Lemma syncContinue_quiet streams c cur s : quiet s (snd (syncContinue streams c cur s)).
Proof.
  revert cur s. induction streams as [|[|w f ends] streams IH]; intros cur s; [done..|]. cbn [syncContinue sy_newID].
  destruct (exchange w f ends _) as [[resp|[]]|]; [|done..]. set (s1 := sy_upd _ _ _ _ _ _ _ _ _ _).
  pose proof (processMembers_quiet c (sr_Members resp) 0 s1) as H. destruct (processMembers _ _ _ _) as [n s2]. cbn [snd] in H.
  case_match; [by rewrite <- IH|exact H].
Qed.

(** A peer that keeps a stream open without ending it. *)
Definition holds_open (streams : list Stream) : Prop :=
  List.Exists (fun st => match st with Opened _ _ ends => ends = false | NoStream => False end) streams.

Lemma exchange_waits w f ends req : exchange w f ends req = None -> ends = false.
Proof.
  unfold exchange. destruct (marshal_request req); [|done]. destruct (negb w); [done|].
  destruct (framing.ReadProto _ _) as [[resp|e] r]; [done|]. destruct ends; [by rewrite andb_false_r|done].
Qed.

Lemma syncContinue_waits streams c cur s : fst (syncContinue streams c cur s) = None -> holds_open streams.
Proof.
  revert cur s. induction streams as [|[|w f ends] streams IH]; intros cur s; [done..|]. cbn [syncContinue sy_newID].
  destruct (exchange w f ends _) as [[resp|[]]|] eqn:E; [|done..|intros _; left; by eapply exchange_waits].
  destruct (processMembers _ _ _ _) as [n s2]. destruct (negb _ && _); [|done]. intros Hn%IH. by right.
Qed.

(** What a sync with [t] publishes: that it failed, or that a first page was
    merged. *)
Definition sync_event (c t : string) (ev : SyncEvent) : Prop :=
  (exists e, ev = SyncFailed c t e) \/ (exists n new, ev = SyncCompleted c n new t).

(** A sync that returns publishes one event, which tells how it ended; one that
    does not waits for a peer that holds its stream open. *)
Lemma syncFromPeer_event streams c t last s : let '(r, s') := syncFromPeer streams c t last s in
  sy_max s' = sy_max s /\
  match r with
  | Some r => exists ev, sy_events s' = sy_events s ++ [ev] /\ sync_event c t ev /\ (r = Ok tt -> exists n new, ev = SyncCompleted c n new t)
  | None => holds_open streams
  end.
Proof.
  assert (Hrec : quiet s (recordConnectionFailure t c s)).
  { unfold recordConnectionFailure. rewrite sy_call_eq. destruct (fst _); [|done]. rewrite sy_call_eq. destruct (fst _) as [[e|]|]; [|done..].
    case_match; [by rewrite sy_call_eq|]. case_match; [by rewrite sy_call_eq|done]. }
  assert (Hf : forall e s1, quiet s s1 -> let '(r, s') := emitSyncFailed c t e s1 in
    sy_max s' = sy_max s /\
    match r with
    | Some r => exists ev, sy_events s' = sy_events s ++ [ev] /\ sync_event c t ev /\ (r = Ok tt -> exists n new, ev = SyncCompleted c n new t)
    | None => holds_open streams
    end).
  { intros e s1 [Hm He]. split; [exact Hm|]. exists (SyncFailed c t e). split; [cbn; by rewrite He|]. split; [left; by eexists|done]. }
  destruct streams as [|[|w f ends] streams]; [by apply Hf..|].
  unfold syncFromPeer. rewrite sy_call_eq. cbn [sy_newID]. set (s1 := sy_upd _ _ _ _ _ _ _ _ _ _).
  destruct (exchange w f ends _) as [[resp|[]]|] eqn:Ex; [|by apply Hf..|split; [done|]; left; by eapply exchange_waits].
  destruct (sr_Error resp =s ""); cbn [negb]; [|by apply Hf].
  assert (Hmerge : exists n new, sy_max (syncMerge c t resp s1) = sy_max s /\ sy_events (syncMerge c t resp s1) = sy_events s ++ [SyncCompleted c n new t]).
  { unfold syncMerge, merge_revocations. pose proof (processMembers_quiet c (sr_Members resp) 0 s1) as [H1 H2].
    destruct (processMembers _ _ _ _) as [new s2]. cbn [snd] in H1, H2. eexists _, new.
    destruct (has_revocations && _); [destruct (MergeRevocations _ _ _)|]; destruct (sr_SyncTime resp); cbn; by rewrite ?H1, ?H2. }
  destruct Hmerge as (n & new & Hm & He).
  assert (Hone : exists ev, sy_events (syncMerge c t resp s1) = sy_events s ++ [ev] /\ sync_event c t ev /\
    exists n new, ev = SyncCompleted c n new t) by (eexists; split; [exact He|]; split; [right|]; by exists n, new).
  destruct Hone as (ev & Hev & Hsync & Hcomp).
  destruct (negb (sr_IsComplete resp) && (sr_NextCursor resp <>s "")); [|split; [done|]; by exists ev].
  pose proof (syncContinue_quiet streams c (sr_NextCursor resp) (syncMerge c t resp s1)) as [Q1 Q2].
  pose proof (syncContinue_waits streams c (sr_NextCursor resp) (syncMerge c t resp s1)) as Hw.
  destruct (syncContinue _ _ _ _) as [r s']. cbn [fst snd] in *. rewrite Q1, Q2, Hm. split; [done|].
  destruct r; [by exists ev|]. right. by apply Hw.
Qed.

Lemma answers_completes streams c t last s : can_ask c (sy_max s) -> answers streams -> fst (syncFromPeer streams c t last s) = Some (Ok tt).
Proof.
  intros Hask (f & ends & rest & -> & Hf). unfold syncFromPeer. rewrite sy_call_eq. cbn [sy_newID]. unfold exchange.
  destruct (Hask last (sy_uuid s (sy_uuids s))) as [data Hd]. cbn [sy_uuid sy_uuids set_pb sy_upd sy_max] in *. rewrite Hd. cbn [negb].
  destruct (Hf data) as (resp & r & -> & He & Hc). by rewrite He, Hc.
Qed.

(** The tick over these candidates: it returns with a completed sync with one of
    them, after one event for each of those tried before it; or it waits for one
    that holds its stream open. *)
Definition tick_outcome (Decode : string -> option string) (net : Net) (c : string) (l : list Entry) (s : Syncer) (r : bool * Syncer) : Prop :=
  exists tried w later q events, l = tried ++ w :: later /\ Decode (e_NodeID w) = Some q /\
    Forall2 (sync_event c) (omap (fun e => Decode (e_NodeID e)) tried) events /\
    if r.1 then exists n new, sy_events r.2 = sy_events s ++ events ++ [SyncCompleted c n new q] else holds_open (net q).

Lemma try_each_outcome Decode valid_addr net c l e q s : can_ask c (sy_max s) -> e ∈ l -> Decode (e_NodeID e) = Some q -> answers (net q) ->
  tick_outcome Decode net c l s (try_each Decode valid_addr net c l s).
Proof.
  intros Hask He Hd Hq. revert s Hask. induction l as [|e1 l IH]; intros s Hask; [by apply elem_of_nil in He|]. cbn [try_each].
  assert (Hadd : forall p a, quiet s (addPeerAddresses valid_addr p a s)) by (intros p a; unfold addPeerAddresses; by case_match).
  destruct (Decode (e_NodeID e1)) as [q1|] eqn:E1.
  2: { apply elem_of_cons in He as [->|He]; [congruence|]. destruct (IH He s Hask) as (tried & w & later & q' & evs & -> & Hw & Hf & Hr).
       exists (e1 :: tried), w, later, q', evs. split_and!; [done..| |exact Hr]. cbn [omap list_omap]. by rewrite E1. }
  unfold SyncDeltaFrom. specialize (Hadd q1 (e_Addresses e1)) as [Hm1 Hev1]. set (s1 := addPeerAddresses _ _ _ s) in *.
  pose proof (syncFromPeer_event (net q1) c q1 (sy_lastSync s1 !! c) s1) as Hev.
  assert (Hok : e = e1 -> fst (syncFromPeer (net q1) c q1 (sy_lastSync s1 !! c) s1) = Some (Ok tt)).
  { intros ->. apply answers_completes; [by rewrite Hm1|]. by replace q1 with q by congruence. }
  destruct (syncFromPeer (net q1) c q1 (sy_lastSync s1 !! c) s1) as [[[[]|err]|] s2]; destruct Hev as [Hm2 Hev].
  - destruct Hev as (ev & Hev2 & _ & Hc). destruct (Hc eq_refl) as (n & new & ->).
    exists [], e1, l, q1, []. split_and!; [done..|constructor|]. exists n, new. cbn [snd app]. by rewrite Hev2, Hev1.
  - destruct Hev as (ev & Hev2 & Hsync & _). apply elem_of_cons in He as [->|He]; [by discriminate (Hok eq_refl)|].
    destruct (IH He s2) as (tried & w & later & q' & evs & -> & Hw & Hf & Hr); [by rewrite Hm2, Hm1|].
    exists (e1 :: tried), w, later, q', (ev :: evs). split_and!; [done..| |].
    + cbn [omap list_omap]. rewrite E1. by constructor.
    + destruct (fst (try_each _ _ _ _ _ _)); [|exact Hr]. destruct Hr as (n & new & Hr). exists n, new.
      by rewrite Hr, Hev2, Hev1, <- app_assoc.
  - exists [], e1, l, q1, []. split_and!; [done..|constructor|exact Hev].
Qed.

Lemma elem_of_rotate {A} (x : A) k l : x ∈ rotate k l <-> x ∈ l.
Proof. unfold rotate. rewrite <- (take_drop (Z.to_nat k) l) at 3. rewrite !elem_of_app. tauto. Qed.

(** C21: a periodic sync completes when one peer answers, unless
    another one hangs it. Some member of the cluster, not the node itself and not
    failed, answers every request with a complete list; the phonebook's
    statements succeed and the requests can be encoded. Then a tick asks the
    members of the cluster that are not failed, in some order, and whatever they
    do it has one of two outcomes. It returns after a completed sync, the last
    event, before which comes for every member tried before exactly one event,
    that its sync failed or that its first page was merged. Or it never returns,
    because it waits, without a deadline, for a member that keeps a stream open. *)
Theorem sync_periodic_completes Decode valid_addr net c s e q
    (Hs : sound_sy s) (Hask : can_ask c (sy_max s)) (He : known s !! (e_NodeID e, c) = Some e)
    (Hself : e_NodeID e <> sy_self s) (Hstatus : e_Status e <> nodeStatusFailed)
    (Hd : Decode (e_NodeID e) = Some q) (Hq : answers (net q)) :
  exists l, (forall e, e ∈ l <-> known s !! (e_NodeID e, c) = Some e /\ e_NodeID e <> sy_self s /\ e_Status e <> nodeStatusFailed) /\
    tick_outcome Decode net c l s (performPeriodicSync Decode valid_addr net c s).
Proof.
  unfold performPeriodicSync. rewrite sy_call_eq. destruct (GetByCluster_law c (sy_pb s) Hs) as (l & p & -> & Hs' & Hm & Hl). cbn [fst snd].
  assert (Hin : forall e, e ∈ periodic_candidates (sy_self s) l <->
    known s !! (e_NodeID e, c) = Some e /\ e_NodeID e <> sy_self s /\ e_Status e <> nodeStatusFailed).
  { intros e0. unfold periodic_candidates. rewrite list_elem_of_In, filter_In, <- list_elem_of_In, andb_true_iff, !negb_true_iff, !String.eqb_neq, Hl.
    by rewrite (cluster_entry_key c s e0 Hs). }
  change (sy_self (set_pb p s)) with (sy_self s). set (cand := periodic_candidates _ _) in *.
  assert (Hec : e ∈ cand) by (by apply Hin).
  destruct (Nat.eqb_spec (length cand) 0) as [E|_]; [apply nil_length_inv in E; rewrite E in Hec; by apply elem_of_nil in Hec|].
  unfold sy_now. set (s1 := sy_upd _ _ _ _ _ _ _ _ _ _). set (start := Z.rem _ _).
  exists (rotate start cand). split; [intros e0; by rewrite elem_of_rotate|].
  change (tick_outcome Decode net c (rotate start cand) s1 (try_each Decode valid_addr net c (rotate start cand) s1)).
  apply (try_each_outcome Decode valid_addr net c _ e q); [done|by apply elem_of_rotate|done|done].
Qed.

(** A silent peer hangs the tick: when the first candidate that can be decoded
    keeps its stream open and sends nothing, the tick never returns. *)
Lemma try_each_hangs Decode valid_addr net c e q l s f rest :
  can_ask c (sy_max s) -> Decode (e_NodeID e) = Some q -> net q = Opened true f false :: rest -> (forall b, f b = []) ->
  fst (try_each Decode valid_addr net c (e :: l) s) = false.
Proof.
  intros Hask Hd Hn Hf. cbn [try_each]. rewrite Hd. unfold SyncDeltaFrom, syncFromPeer. rewrite Hn.
  set (s1 := addPeerAddresses _ _ _ s). assert (Hm : sy_max s1 = sy_max s) by (unfold s1, addPeerAddresses; by case_match).
  rewrite sy_call_eq. cbn [sy_newID]. unfold exchange.
  destruct (Hask (sy_lastSync s1 !! c) (sy_uuid s1 (sy_uuids s1))) as [data E]. cbn [sy_uuid sy_uuids set_pb sy_upd sy_max] in *.
  rewrite Hm, E, Hf. done.
Qed.

End Facts.

(** ** Two nodes *)

Module SyncDemo.
Import PhonebookDemo.

#[local] Instance no_revocations : RevocationSource :=
  {| REV := unit; has_revocations := false; GetRevocations := fun _ _ => []; MergeRevocations := fun _ _ r => (Ok 0, r) |}.

Definition uuid (n : nat) : string := "req".
Definition node (self : string) (max : Z) (p : Phonebook.Phonebook) : Syncer := New self max true p tt demo_clock uuid.

(** [n1] knows three members, [n2] nobody; [full] has the list and is asked
    for it. *)
Definition server : Syncer := node "n1" 1000 book.
Definition client : Syncer := node "n2" 1000 new_book.
Definition request : SyncRequest := first_request cluster client.
Definition full : SyncResponse := fst (serve "n2" request (admitted "n2" server)).

#[local] Instance caps_eq_dec : EqDecision SyncCapabilities. Proof. solve_decision. Defined.
#[local] Instance member_eq_dec : EqDecision SyncMember. Proof. solve_decision. Defined.
#[local] Instance rev_eq_dec : EqDecision RevocationPb. Proof. solve_decision. Defined.
#[local] Instance response_eq_dec : EqDecision SyncResponse. Proof. solve_decision. Defined.
#[local] Instance request_eq_dec : EqDecision SyncRequest. Proof. solve_decision. Defined.
#[local] Instance request_countable : Countable SyncRequest.
Proof.
  refine (inj_countable' (fun r => (sq_ClusterPath r, sq_LastSyncTime r, sq_RequestId r, sq_MaxMembers r, sq_Cursor r))
    (fun x => let '(a, b, c, d, e) := x in {| sq_ClusterPath := a; sq_LastSyncTime := b; sq_RequestId := c; sq_MaxMembers := d; sq_Cursor := e |}) _).
  by intros [].
Defined.

(** A codec that knows one response. *)
#[local] Instance demo_codec : SyncCodec := {|
  marshal_request := wire.to_wire; unmarshal_request := wire.of_wire;
  marshal_response := fun r => if decide (r = full) then Some [Ascii.one] else None;
  unmarshal_response := fun b => if decide (b = [Ascii.one]) then Some full else None |}.
#[local] Instance demo_codec_laws : SyncCodecLaws demo_codec.
Proof.
  split.
  - intros r b E _. by apply wire.wire_roundtrip.
  - intros r b E _. cbn in *. destruct (decide (r = full)); [|done]. by injection E as <-; subst.
Qed.

Lemma demo_fits : fits (marshal_request request) /\ fits (marshal_response full).
Proof.
  split; [eexists; split; [reflexivity|]; apply Z.leb_le; vm_compute; reflexivity|].
  exists [Ascii.one]. split; [|done]. cbn. by rewrite decide_True.
Qed.

Lemma book_plain : Forall (fun e => member_plain (member_out e) /\ holdable cluster (member_out e)) (cluster_entries cluster server).
Proof.
  assert (Forall (fun e => e_Capabilities e = None /\ e_Addresses e = ["/ip4/10.0.0.1/tcp/4001"]) (cluster_entries cluster server)) as H
    by (vm_compute; repeat constructor).
  eapply list.Forall_impl; [exact H|]. intros e [Hc Ha]. split.
  - intros c Hc'. cbn in Hc'. by rewrite Hc in Hc'.
  - intros now. split; cbn; try apply zero_storable; [by vm_compute|].
    eexists _, _. unfold json_cols. cbn. rewrite Hc, Ha. split; [reflexivity|]. split; [reflexivity|done].
Qed.

Lemma n3_listed : exists e, known server !! ("n3", cluster) = Some e /\ e_NodeID e = "n3" /\ e_Addresses e = ["/ip4/10.0.0.1/tcp/4001"].
Proof.
  assert (E : (fun e => (e_NodeID e, e_Addresses e)) <$> known server !! ("n3", cluster) = Some ("n3", ["/ip4/10.0.0.1/tcp/4001"]))
    by (vm_compute; reflexivity).
  destruct (known server !! ("n3", cluster)) as [e|]; [|discriminate E]. injection E as E1 E2. by exists e.
Qed.

Lemma sync_members_arrive_witness : exists cl' e', SyncFrom [Opened true (fun b => fst (handleSyncStream "n2" b server)) true] cluster "n1" client = (Some (Ok tt), cl') /\
  known cl' !! ("n3", cluster) = Some e' /\ e_Addresses e' = ["/ip4/10.0.0.1/tcp/4001"].
Proof.
  destruct (sync_members_arrive cluster client server) as (cl' & E & _ & Hin & _).
  - exact new_book_sound.
  - exact book_sound.
  - intros e He. vm_compute in He. discriminate.
  - vm_compute. by eexists.
  - vm_compute. reflexivity.
  - apply Z.leb_le. vm_compute. reflexivity.
  - apply list.Forall_forall. exact book_plain.
  - exact (proj1 demo_fits).
  - exact (proj2 demo_fits).
  - destruct n3_listed as (e3 & E3 & Hid & Ha). destruct (Hin e3) as (e' & Hk & _ & Hr & _); [by rewrite Hid|].
    exists cl', e'. rewrite Hid in Hk. rewrite Ha in Hr. by split_and!.
Defined.

Lemma sync_serve_exact_witness : fst (serve "n7" request server) = sync_error "req" "peer not authenticated for cluster".
Proof.
  pose proof (sync_serve_exact "n7" request server book_sound) as H. destruct (serve "n7" request server) as [r s']. destruct H as (_ & _ & H).
  vm_compute (known server !! _) in H. exact H.
Defined.

(** A page of two for three members, long after they changed. *)
Definition late : Syncer :=
  {| sy_self := "n1"; sy_max := 1000; sy_pb := book : @PB sqlite_phonebook; sy_lastSync := ∅; sy_limiter := sy_limiter server;
     sy_revs := tt : @REV no_revocations; sy_periodic := true; sy_loops := []; sy_events := []; sy_peerstore := [];
     sy_clock := fun _ => demo_clock 100; sy_ticks := 0; sy_uuid := uuid; sy_uuids := 0 |}.
Definition page (last : option Time) : SyncRequest :=
  {| sq_ClusterPath := cluster; sq_LastSyncTime := last; sq_RequestId := "a"; sq_MaxMembers := 2; sq_Cursor := "" |}.

Lemma late_old e : e ∈ cluster_entries cluster late -> e_UpdatedAt e <= demo_clock 100 /\ e_LastSeen e <= demo_clock 100.
Proof.
  assert (E : forallb (fun e => (e_UpdatedAt e <=? demo_clock 100) && (e_LastSeen e <=? demo_clock 100)) (cluster_entries cluster late) = true)
    by (vm_compute; reflexivity).
  rewrite forallb_forall in E. intros [H1 H2]%list_elem_of_In%E%andb_prop. lia.
Qed.

Lemma sync_truncates_witness :
  (length (sr_Members (fst (serve "n2" (page None) late))) < 3)%nat /\ sr_NextCursor (fst (serve "n2" (page None) late)) = "".
Proof.
  assert (Hm : is_Some (known late !! ("n2", cluster))) by (destruct (known late !! ("n2", cluster)) eqn:E; [by eexists|vm_compute in E; discriminate]).
  assert (Hl : length (cluster_entries cluster late) = 3%nat) by (vm_compute; reflexivity).
  pose proof (sync_truncates "n2" cluster "a" "b" 2 late book_sound Hm ltac:(discriminate) ltac:(rewrite Hl; reflexivity) late_old) as H. fold (page None) in H.
  rewrite Hl in H. destruct (serve "n2" (page None) late) as [r1 s1]. destruct (serve "n2" _ s1) as [r2 s2].
  destruct H as (H1 & _ & H2 & _). split; [exact H1|exact H2].
Defined.

Lemma server_sound : sound_sy server.
Proof. exact book_sound. Qed.

Lemma n3_fresh : exists e, known server !! ("n3", cluster) = Some e /\ fresh e.
Proof.
  assert (E : (fun e => (e_ConsecutiveFails e, e_ConnectionAttempts e, e_ConnectionSuccess e)) <$> known server !! ("n3", cluster) = Some (0, 0, 0))
    by (vm_compute; reflexivity).
  destruct (known server !! ("n3", cluster)) as [e|]; [|discriminate E]. injection E as E1 E2 E3. exists e. split; [done|].
  unfold fresh, max_int64. lia.
Qed.

(** After five failures [n3] is gone. *)
Lemma sync_unreachable_removed_witness : known (Nat.iter 5 (unreachable cluster "n3") server) !! ("n3", cluster) = None.
Proof.
  destruct n3_fresh as (e & He & Hf).
  pose proof (sync_unreachable_removed 5 "n3" cluster server e (le_n 5) server_sound He Hf) as H. cbv zeta in H.
  set (s' := Nat.iter 5 (unreachable cluster "n3") server) in *. clearbody s'. destruct H as (_ & H & _).
  destruct (known s' !! ("n3", cluster)) as [e'|]; [destruct H; lia|reflexivity].
Defined.

(** Four failures and a list, over and over. *)
Lemma sync_dead_peer_stays_witness :
  exists e, known (fold_left (sync_round cluster "n3" "n2") (repeat (4%nat, full) 10) server) !! ("n3", cluster) = Some e.
Proof.
  destruct n3_fresh as (e & He & Hf).
  destruct (sync_dead_peer_stays cluster "n3" "n2" (repeat (4%nat, full) 10) server e server_sound He Hf) as (_ & e' & H & _); [|exists e'; exact H].
  apply list.Forall_forall. intros r Hr%list_elem_of_In%repeat_spec. subst r.
  assert (Hms : sr_Members full = member_out <$> cluster_entries cluster server) by (vm_compute; reflexivity).
  assert (Hl : (sm_NodeId <$> sr_Members full) = ["n3"; "n1"; "n2"]) by (vm_compute; reflexivity).
  split; [cbn; lia|]. cbn [snd]. rewrite Hl. split; [apply list_elem_of_here|].
  split; [apply (bool_decide_unpack (NoDup ["n3"; "n1"; "n2"])); vm_compute; exact I|].
  rewrite Hms. apply list.Forall_fmap. eapply list.Forall_impl; [exact book_plain|]. by intros e0 [_ ?].
Defined.

(** Only [n2] answers. *)
Definition net (q : string) : list Stream := if q =s "n2" then [Opened true (fun _ => framing.frame [Ascii.one]) true] else [NoStream].

Lemma n2_answers : answers (net "n2").
Proof.
  eexists _, true, []. split; [reflexivity|]. intros data. exists full, [].
  split; [apply read_frame; [done|]; cbn; by rewrite decide_True|]. split; vm_compute; reflexivity.
Qed.

Lemma sync_periodic_completes_witness :
  exists events n new, sy_events (snd (performPeriodicSync Some (fun _ => true) net cluster server)) =
    sy_events server ++ events ++ [SyncCompleted cluster n new "n2"].
Proof.
  assert (E : (fun e => (e_NodeID e, e_Status e)) <$> known server !! ("n2", cluster) = Some ("n2", "active")) by (vm_compute; reflexivity).
  destruct (known server !! ("n2", cluster)) as [e|] eqn:Ek; [|discriminate E]. injection E as E1 E2.
  destruct (sync_periodic_completes Some (fun _ => true) net cluster server e "n2") as (l & _ & tried & w & later & q & evs & _ & _ & _ & H).
  - exact server_sound.
  - intros last id. apply wire.wire_total.
  - by rewrite E1.
  - by rewrite E1.
  - by rewrite E2.
  - by rewrite E1.
  - exact n2_answers.
  - assert (Er : (performPeriodicSync Some (fun _ => true) net cluster server).1 = true) by (vm_compute; reflexivity). rewrite Er in H.
    destruct H as (n & new & H). assert (Eq : q = "n2").
    { apply (f_equal (fun l => head (rev l))) in H. rewrite app_assoc, rev_app_distr in H. cbn [rev app head] in H.
      vm_compute in H. by injection H. }
    exists evs, n, new. rewrite <- Eq. exact H.
Defined.

End SyncDemo.
