(* ===== verification/MetricsStore.v ===== *)
(** * Node metrics: configuration, collector and store ([node/metrics])

    [config.go], [metrics.go], [collector.go] and [store.go]: the settings and
    the environment variables that override them, the snapshots of a host, the
    rates the collector computes from two readings of the network counters,
    and the two SQLite tables.

    A statement of the database may fail at any time ([ms_fault]); a failed
    transaction leaves the tables as they were.  [gopsutil] contributes its
    readings as arguments. *)

From stdpp Require Import sorting.
From S2P Require Import Prelude Float64 Strconv CapsuleTypes Orbit Shared Phonebook.
Local Open Scope string_scope.
Local Open Scope list_scope.
Local Open Scope Z_scope.

(** ** [config.go] *)

Module Export metrics_config.

Definition defaultInterval : Duration := second.
Definition minimumInterval : Duration := 100 * millisecond.

Record Config := { mc_Enabled : bool; mc_Interval : Duration }.
Definition DefaultConfig : Config := {| mc_Enabled := true; mc_Interval := defaultInterval |}.

Inductive ConfigError := ErrBadInterval (v : string) | ErrBadEnabled (v : string) | ErrTooShort (d : Duration).

Definition Validate (c : Config) : result ConfigError unit :=
  if mc_Interval c <? minimumInterval then Err (ErrTooShort (mc_Interval c)) else Ok tt.

(** [strconv.ParseBool] *)
Definition ParseBool (s : string) : option bool :=
  if existsb (String.eqb s) ["1"; "t"; "T"; "true"; "TRUE"; "True"] then Some true
  else if existsb (String.eqb s) ["0"; "f"; "F"; "false"; "FALSE"; "False"] then Some false
  else None.

(** *** [time.ParseDuration] *)

Definition digit (c : ascii) : option Z :=
  let n := Z.of_nat (nat_of_ascii c) in if (48 <=? n) && (n <=? 57) then Some (n - 48) else None.

Definition is_digit (c : ascii) : bool := match digit c with Some _ => true | None => false end.

(** The digits at the head of the string; [None] when they exceed [2^63]. *)
Fixpoint leadingInt (x : Z) (s : string) : option (Z * string) :=
  match s with
  | EmptyString => Some (x, s)
  | String c rest =>
      match digit c with
      | None => Some (x, s)
      | Some d =>
          if 2 ^ 63 / 10 <? x then None else
          let y := x * 10 + d in
          if 2 ^ 63 <? y then None else leadingInt y rest
      end
  end.

(** The digits of a fraction and the power of ten they are to be divided by;
    digits past the range are dropped. *)
Fixpoint leadingFraction (x : Z) (scale : f64) (overflow : bool) (s : string) : Z * f64 * string :=
  match s with
  | EmptyString => (x, scale, s)
  | String c rest =>
      match digit c with
      | None => (x, scale, s)
      | Some d =>
          if overflow then leadingFraction x scale true rest
          else if (2 ^ 63 - 1) / 10 <? x then leadingFraction x scale true rest
          else
            let y := x * 10 + d in
            if 2 ^ 63 <? y then leadingFraction x scale true rest
            else leadingFraction y (scale * f64_of_Z 10)%f64 false rest
      end
  end.

(** The unit is everything up to the next digit or dot. *)
Fixpoint span_unit (s : string) : string * string :=
  match s with
  | EmptyString => ("", s)
  | String c rest =>
      if (bool_decide (c = "."%char)) || is_digit c then ("", s)
      else let '(u, r) := span_unit rest in (String c u, r)
  end.

Definition mu_micro : string := String (ascii_of_nat 194) (String (ascii_of_nat 181) "s").
Definition mu_greek : string := String (ascii_of_nat 206) (String (ascii_of_nat 188) "s").
Definition unitMap (u : string) : option Z :=
  if u =s "ns" then Some 1
  else if (u =s "us") || (u =s mu_micro) || (u =s mu_greek) then Some 1000
  else if u =s "ms" then Some 1000000
  else if u =s "s" then Some 1000000000
  else if u =s "m" then Some 60000000000
  else if u =s "h" then Some 3600000000000
  else None.

Definition starts_with_dot (s : string) : bool := match s with String c _ => bool_decide (c = "."%char) | _ => false end.

Section ParseDuration.
Context `{GoConv}.

(** One number with its unit, added to [d]. *)
Definition parse_part (d : Z) (s : string) : option (Z * string) :=
  let ok := match s with String c _ => bool_decide (c = "."%char) || is_digit c | _ => false end in
  if negb ok then None else
  match leadingInt 0 s with
  | None => None
  | Some (v, s1) =>
      let pre := negb (String.length s1 =? String.length s)%nat in
      let '(f, scale, s2, post) :=
        if starts_with_dot s1 then
          let t := match s1 with String _ t => t | EmptyString => "" end in
          let '(f, scale, s2) := leadingFraction 0 (f64_of_Z 1) false t in
          (f, scale, s2, negb (String.length s2 =? String.length t)%nat)
        else (0, f64_of_Z 1, s1, false) in
      if negb pre && negb post then None else
      let '(u, s3) := span_unit s2 in
      if u =s "" then None else
      match unitMap u with
      | None => None
      | Some unit_ =>
          if 2 ^ 63 / unit_ <? v then None else
          let v := v * unit_ in
          let v := if 0 <? f then v + f64_to_int64 (f64_of_Z f * (f64_of_Z unit_ / scale))%f64 else v in
          if 2 ^ 63 <? v then None else
          let d := d + v in
          if 2 ^ 63 <? d then None else Some (d, s3)
      end
  end.

Fixpoint parse_parts (fuel : nat) (d : Z) (s : string) : option Z :=
  match s, fuel with
  | EmptyString, _ => Some d
  | _, O => None
  | _, S fuel => match parse_part d s with Some (d, s) => parse_parts fuel d s | None => None end
  end.

Definition ParseDuration (s : string) : option Duration :=
  let '(neg, s) := match s with
                   | String c rest => if bool_decide (c = "-"%char) then (true, rest) else if bool_decide (c = "+"%char) then (false, rest) else (false, s)
                   | _ => (false, s) end in
  if s =s "0" then Some 0 else if s =s "" then None else
  match parse_parts (String.length s) 0 s with
  | None => None
  | Some d => if neg then Some (- d) else if 2 ^ 63 - 1 <? d then None else Some d
  end.

(** The environment is a map of variables. *)
Definition NewConfig (env : gmap string string) (base : Config) : result ConfigError Config :=
  let interval := match env !! "FALAK_METRICS_INTERVAL" with
                  | Some v => match ParseDuration v with Some d => Ok d | None => Err (ErrBadInterval v) end
                  | None => Ok (mc_Interval base) end in
  match interval with
  | Err e => Err e
  | Ok d =>
      let enabled := match env !! "FALAK_METRICS_ENABLED" with
                     | Some v => match ParseBool v with Some b => Ok b | None => Err (ErrBadEnabled v) end
                     | None => Ok (mc_Enabled base) end in
      match enabled with
      | Err e => Err e
      | Ok b =>
          let cfg := {| mc_Enabled := b; mc_Interval := d |} in
          match Validate cfg with Err e => Err e | Ok _ => Ok cfg end
      end
  end.

End ParseDuration.

Example parse_durations :
  ParseDuration "1.5s" = Some 1500000000 /\ ParseDuration "-1h2m" = Some (-3720000000000) /\ ParseDuration ".5ms" = Some 500000 /\
  ParseDuration "100" = None /\ ParseDuration "." = None /\ ParseDuration "9223372036854775808ns" = None /\
  ParseDuration "-9223372036854775808ns" = Some min_int64.
Proof. by vm_compute. Qed.

End metrics_config.

(** ** [metrics.go] *)

Record CPUStats := { Cores : Z (** int32 *); cpu_UsedPercent : f64 }.
Record MemoryStats := { mem_TotalMB : Z; AvailableMB : Z; mem_UsedMB : Z; mem_UsedPercent : f64 }.
Record DiskStats := { disk_TotalMB : Z; FreeMB : Z; disk_UsedMB : Z; disk_UsedPercent : f64 }.
Record LoadStats := { One : f64; Five : f64; Fifteen : f64 }.
Record NetworkStats := { BytesSentPerSec : Z; BytesRecvPerSec : Z }.
Record Snapshot := {
  sn_NodeID : string; CapturedAt : Time; sn_CPU : CPUStats; sn_Memory : MemoryStats; sn_Disk : DiskStats; sn_Load : LoadStats;
  sn_Network : NetworkStats
}.

Definition zero_snapshot : Snapshot :=
  let z := f64_zero false in
  {| sn_NodeID := ""; CapturedAt := zero_time; sn_CPU := {| Cores := 0; cpu_UsedPercent := z |};
     sn_Memory := {| mem_TotalMB := 0; AvailableMB := 0; mem_UsedMB := 0; mem_UsedPercent := z |};
     sn_Disk := {| disk_TotalMB := 0; FreeMB := 0; disk_UsedMB := 0; disk_UsedPercent := z |};
     sn_Load := {| One := z; Five := z; Fifteen := z |}; sn_Network := {| BytesSentPerSec := 0; BytesRecvPerSec := 0 |} |}.

(** ** [collector.go] *)

(** What the sampler answers in one pass, [None] for an error; the load
    averages are used whether or not there was an error. *)
Record Sampling := {
  smp_CPU : option CPUStats; smp_Memory : option MemoryStats; smp_Disk : option DiskStats; smp_Load : LoadStats;
  smp_Network : option (Z * Z)
}.

Record Collector := { co_nodeID : string; prevSentBytes : Z; prevRecvBytes : Z; prevSampleAt : Time; hasPrev : bool }.
Definition NewCollector (nodeID : string) : Collector :=
  {| co_nodeID := nodeID; prevSentBytes := 0; prevRecvBytes := 0; prevSampleAt := zero_time; hasPrev := false |}.

Section Collector.
Context `{GoConv}.

Definition net_rate (delta : Z) (elapsed : f64) : Z := f64_to_int64 (f64_of_Z (int64 delta) / elapsed)%f64.

(** The snapshot is what the callback gets. *)
Definition sampleOnce (now : Time) (smp : Sampling) : ST Collector (option Snapshot) := fun c =>
  match smp_CPU smp, smp_Memory smp, smp_Disk smp, smp_Network smp with
  | Some cpu, Some mem, Some disk, Some (sent, recv) =>
      let net :=
        if hasPrev c then
          let elapsed := Duration_Seconds (time_Sub now (prevSampleAt c)) in
          if (elapsed >? f64_zero false)%f64 then
            {| BytesSentPerSec := net_rate (sent - prevSentBytes c) elapsed; BytesRecvPerSec := net_rate (recv - prevRecvBytes c) elapsed |}
          else {| BytesSentPerSec := 0; BytesRecvPerSec := 0 |}
        else {| BytesSentPerSec := 0; BytesRecvPerSec := 0 |} in
      (Some {| sn_NodeID := co_nodeID c; CapturedAt := now; sn_CPU := cpu; sn_Memory := mem; sn_Disk := disk; sn_Load := smp_Load smp;
               sn_Network := net |},
       {| co_nodeID := co_nodeID c; prevSentBytes := sent; prevRecvBytes := recv; prevSampleAt := now; hasPrev := true |})
  | _, _, _, _ => (None, c)
  end.

End Collector.

(** *** [gopsutilSampler] *)

(** The answers of gopsutil: bytes as [uint64], counters of the first
    interface entry. *)
Record Gopsutil := {
  g_Counts : option Z; g_Percent : option (list f64); g_VirtualMemory : option (Z * Z * Z * f64); g_Usage : option (Z * Z * Z * f64);
  g_Avg : option (f64 * f64 * f64); g_IOCounters : option (list (Z * Z))
}.
Definition mb : Z := 1024 * 1024.

Definition gopsutil_CPU (g : Gopsutil) : option CPUStats :=
  match g_Counts g with
  | None => None
  | Some cores =>
      match g_Percent g with
      | None => None
      | Some percents => Some {| Cores := int32 cores; cpu_UsedPercent := match percents with p :: _ => p | [] => f64_zero false end |}
      end
  end.
Definition gopsutil_Memory (g : Gopsutil) : option MemoryStats :=
  match g_VirtualMemory g with
  | None => None
  | Some (total, available, used, pct) =>
      Some {| mem_TotalMB := int64 (total / mb); AvailableMB := int64 (available / mb); mem_UsedMB := int64 (used / mb); mem_UsedPercent := pct |}
  end.
Definition gopsutil_Disk (g : Gopsutil) : option DiskStats :=
  match g_Usage g with
  | None => None
  | Some (total, free, used, pct) =>
      Some {| disk_TotalMB := int64 (total / mb); FreeMB := int64 (free / mb); disk_UsedMB := int64 (used / mb); disk_UsedPercent := pct |}
  end.
Definition gopsutil_Load (g : Gopsutil) : LoadStats :=
  match g_Avg g with
  | None => {| One := f64_zero false; Five := f64_zero false; Fifteen := f64_zero false |}
  | Some (a, b, c) => {| One := a; Five := b; Fifteen := c |}
  end.
Definition gopsutil_NetworkCounters (g : Gopsutil) : option (Z * Z) :=
  match g_IOCounters g with
  | None => None
  | Some [] => Some (0, 0)
  | Some ((sent, recv) :: _) => Some (int64 sent, int64 recv)
  end.
Definition gopsutilSampler (g : Gopsutil) : Sampling :=
  {| smp_CPU := gopsutil_CPU g; smp_Memory := gopsutil_Memory g; smp_Disk := gopsutil_Disk g; smp_Load := gopsutil_Load g;
     smp_Network := gopsutil_NetworkCounters g |}.

(** ** [store.go] *)

Definition HistoryDepth : nat := 10.

(** The columns both tables have; the REAL columns are NOT NULL. *)
Record SnapCols := {
  captured_at : Z; c_cpu : CPUStats; c_mem : MemoryStats; c_disk : DiskStats; c_load : LoadStats; c_net : NetworkStats
}.

Inductive StoreError :=
  | ErrBegin | ErrInsert | ErrTrim | ErrCommit | ErrUpsert | ErrQuery | ErrScanRow | ErrNoNodeID.

(** [local_history] in the order of its ids, which AUTOINCREMENT never uses
    twice, and [peer_latest]. *)
Record Store := {
  local_history : list (Z * SnapCols); last_id : Z; peer_latest : gmap string SnapCols;
  ms_open : bool; ms_fault : nat -> bool; ms_stmts : nat
}.

(** The order of the rows of a query that does not fix it. *)
Class MetricsOrder := {
  order_history : nat -> list (Z * SnapCols) -> list (Z * SnapCols);
  history_perm : forall n l, order_history n l ≡ₚ l;
  history_sorted : forall n l, StronglySorted (fun a b => captured_at a.2 <= captured_at b.2) (order_history n l);
  order_peers : nat -> gmap string SnapCols -> list (string * SnapCols);
  peers_perm : forall n m, order_peers n m ≡ₚ map_to_list m
}.

Definition not_later (a b : Z * SnapCols) : Prop := captured_at a.2 <= captured_at b.2.
#[export] Instance not_later_dec a b : Decision (not_later a b).
Proof. apply Z.le_dec. Defined.

#[export, refine] Instance stable_order : MetricsOrder | 100 :=
  {| order_history := fun _ l => merge_sort not_later l; order_peers := fun _ m => map_to_list m |}.
Proof.
  - intros _ l. apply merge_sort_Permutation.
  - intros _ l. assert (Ht : Transitive not_later) by (intros a b c; unfold not_later; lia).
    apply (Sorted_StronglySorted not_later). apply Sorted_merge_sort. intros a b. unfold not_later. lia.
  - done.
Defined.

Section Store.
Context `{SqliteReal} `{MetricsOrder}.

Definition bind_cols (s : Snapshot) : option SnapCols :=
  c ← bind_real (cpu_UsedPercent (sn_CPU s)); m ← bind_real (mem_UsedPercent (sn_Memory s)); d ← bind_real (disk_UsedPercent (sn_Disk s));
  l1 ← bind_real (One (sn_Load s)); l5 ← bind_real (Five (sn_Load s)); l15 ← bind_real (Fifteen (sn_Load s));
  Some {| captured_at := UnixMilli (CapturedAt s); c_cpu := {| Cores := Cores (sn_CPU s); cpu_UsedPercent := c |};
          c_mem := {| mem_TotalMB := mem_TotalMB (sn_Memory s); AvailableMB := AvailableMB (sn_Memory s); mem_UsedMB := mem_UsedMB (sn_Memory s);
                      mem_UsedPercent := m |};
          c_disk := {| disk_TotalMB := disk_TotalMB (sn_Disk s); FreeMB := FreeMB (sn_Disk s); disk_UsedMB := disk_UsedMB (sn_Disk s);
                       disk_UsedPercent := d |};
          c_load := {| One := l1; Five := l5; Fifteen := l15 |}; c_net := sn_Network s |}.

(** A column that does not fit an [int32] does not scan. *)
Definition snapshot_of (c : SnapCols) : Snapshot :=
  {| sn_NodeID := ""; CapturedAt := of_UnixMilli (captured_at c); sn_CPU := c_cpu c; sn_Memory := c_mem c; sn_Disk := c_disk c;
     sn_Load := c_load c; sn_Network := c_net c |}.
Definition scanRow (c : SnapCols) : result StoreError Snapshot :=
  if bool_decide (in_int32 (Cores (c_cpu c))) then Ok (snapshot_of c) else Err ErrScanRow.
Definition with_id (nodeID : string) (s : Snapshot) : Snapshot :=
  {| sn_NodeID := nodeID; CapturedAt := CapturedAt s; sn_CPU := sn_CPU s; sn_Memory := sn_Memory s; sn_Disk := sn_Disk s; sn_Load := sn_Load s;
     sn_Network := sn_Network s |}.

Definition ms_upd (history : list (Z * SnapCols)) (last : Z) (peers : gmap string SnapCols) (stmts : nat) (s : Store) : Store :=
  {| local_history := history; last_id := last; peer_latest := peers; ms_open := ms_open s; ms_fault := ms_fault s; ms_stmts := stmts |}.
(** Whether the next statement succeeds. *)
Definition stmt : ST Store bool := fun s =>
  (ms_open s && negb (ms_fault s (ms_stmts s)), ms_upd (local_history s) (last_id s) (peer_latest s) (S (ms_stmts s)) s).

(** [OpenStore] of a file with the given tables. *)
Definition OpenStore (history : list (Z * SnapCols)) (last : Z) (peers : gmap string SnapCols) (fault : nat -> bool) : option Store :=
  if fault 0%nat then None
  else Some {| local_history := history; last_id := last; peer_latest := peers; ms_open := true; ms_fault := fault; ms_stmts := 1 |}.
Definition Close (s : Store) : Store :=
  {| local_history := local_history s; last_id := last_id s; peer_latest := peer_latest s; ms_open := false; ms_fault := ms_fault s;
     ms_stmts := ms_stmts s |}.

(** [DELETE ... WHERE id NOT IN (SELECT id ... ORDER BY id DESC LIMIT ?)] *)
Definition trim (l : list (Z * SnapCols)) : list (Z * SnapCols) :=
  let keep := take HistoryDepth (reverse l.*1) in List.filter (fun r => existsb (Z.eqb r.1) keep) l.

Definition InsertLocal (snap : Snapshot) : ST Store (result StoreError unit) := fun s =>
  let '(ok, s) := stmt s in
  if negb ok then (Err ErrBegin, s) else
  let '(ok, s) := stmt s in
  match bind_cols snap with
  | None => (Err ErrInsert, s)
  | Some row =>
      if negb ok || (last_id s =? max_int64) then (Err ErrInsert, s) else
      let id := last_id s + 1 in
      let history := local_history s ++ [(id, row)] in
      let '(ok, s) := stmt s in
      if negb ok then (Err ErrTrim, s) else
      let '(ok, s) := stmt s in
      if negb ok then (Err ErrCommit, s) else
      (Ok tt, ms_upd (trim history) id (peer_latest s) (ms_stmts s) s)
  end.

Definition LocalLatest : ST Store (result StoreError Snapshot) := fun s =>
  let '(ok, s) := stmt s in
  if negb ok then (Err ErrQuery, s) else
  match list.last (local_history s) with
  | None => (Ok zero_snapshot, s)
  | Some (_, row) => (scanRow row, s)
  end.

Fixpoint scan_all (rows : list SnapCols) : result StoreError (list Snapshot) :=
  match rows with
  | [] => Ok []
  | r :: rest => match scanRow r with
                 | Err e => Err e
                 | Ok s => match scan_all rest with Err e => Err e | Ok l => Ok (s :: l) end
                 end
  end.

Definition LocalHistory : ST Store (result StoreError (list Snapshot)) := fun s =>
  let '(ok, s) := stmt s in
  if negb ok then (Err ErrQuery, s) else (scan_all (order_history (ms_stmts s) (local_history s)).*2, s).

Definition UpsertPeer (snap : Snapshot) : ST Store (result StoreError unit) := fun s =>
  if sn_NodeID snap =s "" then (Err ErrNoNodeID, s) else
  let '(ok, s) := stmt s in
  match bind_cols snap with
  | None => (Err ErrUpsert, s)
  | Some row =>
      if negb ok then (Err ErrUpsert, s)
      else (Ok tt, ms_upd (local_history s) (last_id s) (<[sn_NodeID snap := row]> (peer_latest s)) (ms_stmts s) s)
  end.

Definition PeerLatest (nodeID : string) : ST Store (result StoreError Snapshot) := fun s =>
  let '(ok, s) := stmt s in
  if negb ok then (Err ErrQuery, s) else
  match peer_latest s !! nodeID with
  | None => (Ok zero_snapshot, s)
  | Some row => (match scanRow row with Ok snap => Ok (with_id nodeID snap) | Err e => Err e end, s)
  end.

Fixpoint scan_peers (rows : list (string * SnapCols)) : result StoreError (list Snapshot) :=
  match rows with
  | [] => Ok []
  | (id, r) :: rest => match scanRow r with
                       | Err e => Err e
                       | Ok s => match scan_peers rest with Err e => Err e | Ok l => Ok (with_id id s :: l) end
                       end
  end.
Definition AllPeers : ST Store (result StoreError (list Snapshot)) := fun s =>
  let '(ok, s) := stmt s in
  if negb ok then (Err ErrQuery, s) else (scan_peers (order_peers (ms_stmts s) (peer_latest s)), s).

End Store.

(** ** Theorems *)

(** *** The configuration *)

(** A configuration that is accepted samples at most ten times a second,
    whatever the environment says; malformed variables and shorter intervals
    are refused. *)
Theorem metrics_config_floor `{GoConv} env base :
  match NewConfig env base with
  | Ok cfg => minimumInterval <= mc_Interval cfg /\
      (env !! "FALAK_METRICS_INTERVAL" = None -> mc_Interval cfg = mc_Interval base) /\
      (env !! "FALAK_METRICS_ENABLED" = None -> mc_Enabled cfg = mc_Enabled base)
  | Err (ErrBadInterval v) => env !! "FALAK_METRICS_INTERVAL" = Some v /\ ParseDuration v = None
  | Err (ErrBadEnabled v) => env !! "FALAK_METRICS_ENABLED" = Some v /\ ParseBool v = None
  | Err (ErrTooShort d) => d < minimumInterval
  end.
Proof.
  unfold NewConfig, Validate. destruct (env !! "FALAK_METRICS_INTERVAL") as [v|] eqn:Ei; [destruct (ParseDuration v) as [d|] eqn:Ed; [|done]|].
  all: destruct (env !! "FALAK_METRICS_ENABLED") as [w|] eqn:Ee; [destruct (ParseBool w) as [b|] eqn:Eb; [|done]|].
  all: cbn [mc_Interval mc_Enabled]; match goal with |- context [?a <? minimumInterval] => destruct (Z.ltb_spec a minimumInterval) end; done.
Qed.

(** *** The rolling window *)

Section Window.
Context `{R : SqliteReal} `{O : MetricsOrder}.

(** The store between statements: ids ascend and none is above [last_id]. *)
Record store_ok (s : Store) : Prop := {
  ids_sorted : StronglySorted Z.lt (local_history s).*1;
  ids_used : Forall (fun i => i <= last_id s) (local_history s).*1;
  window_full : (length (local_history s) <= HistoryDepth)%nat
}.

Lemma existsb_ids (i : Z) l : existsb (Z.eqb i) l = true <-> i ∈ l.
Proof.
  rewrite existsb_exists. setoid_rewrite Z.eqb_eq. setoid_rewrite <- list_elem_of_In. split; [intros (x & Hx & ->); done|eauto].
Qed.

Lemma filter_ids_none (keep : list Z) (l : list (Z * SnapCols)) : (forall i, i ∈ keep -> i ∉ l.*1) ->
  List.filter (fun r => existsb (Z.eqb r.1) keep) l = [].
Proof.
  intros H. induction l as [|r l IH]; [done|]. cbn [List.filter]. destruct (existsb _ _) eqn:E.
  - apply existsb_ids in E. destruct (H _ E). cbn. by left.
  - apply IH. intros i Hi Hl. apply (H i Hi). cbn. by right.
Qed.

Lemma filter_ids_all (keep : list Z) (l : list (Z * SnapCols)) : (forall i, i ∈ l.*1 -> i ∈ keep) ->
  List.filter (fun r => existsb (Z.eqb r.1) keep) l = l.
Proof.
  intros H. induction l as [|r l IH]; [done|]. cbn [List.filter]. rewrite (proj2 (existsb_ids _ _)) by (apply H; cbn; by left).
  f_equal. apply IH. intros i Hi. apply H. cbn. by right.
Qed.

(** Trimming keeps the last [HistoryDepth] rows. *)
Lemma trim_spec l : NoDup l.*1 -> trim l = drop (length l - HistoryDepth) l.
Proof.
  intros Hnd. unfold trim. set (n := (length l - HistoryDepth)%nat).
  assert (Hk : take HistoryDepth (reverse l.*1) = reverse (drop n l).*1).
  { rewrite fmap_drop. destruct (Nat.le_ge_cases HistoryDepth (length l)).
    - rewrite <- (take_drop n l.*1) at 1. rewrite reverse_app. apply take_app_length'. rewrite length_reverse, length_drop, length_fmap. lia.
    - replace n with 0%nat by lia. rewrite drop_0. apply take_ge. rewrite length_reverse, length_fmap. lia. }
  rewrite Hk. set (keep := reverse (drop n l).*1). transitivity (List.filter (fun r => existsb (Z.eqb r.1) keep) (take n l ++ drop n l)); [by rewrite take_drop|].
  rewrite filter_app. rewrite <- (take_drop n l), fmap_app in Hnd. apply list.NoDup_app in Hnd as (_ & Hdis & _).
  rewrite filter_ids_none, filter_ids_all; [done| |].
  - intros i Hi. by apply elem_of_reverse.
  - intros i Hi Hl. unfold keep in Hi. rewrite elem_of_reverse in Hi. exact (Hdis i Hl Hi).
Qed.

Lemma sorted_NoDup (l : list Z) : StronglySorted Z.lt l -> NoDup l.
Proof.
  induction 1 as [|x l Hs IH Hf]; constructor; [|done]. intros Hx. rewrite list.Forall_forall in Hf. specialize (Hf x Hx). lia.
Qed.

Lemma sorted_snoc (l : list Z) x : StronglySorted Z.lt l -> Forall (fun i => i < x) l -> StronglySorted Z.lt (l ++ [x]).
Proof.
  induction 1 as [|y l Hs IH Hf]; intros Hx; cbn; [repeat constructor|]. apply list.Forall_cons in Hx as [Hy Hx].
  constructor; [by apply IH|]. apply Forall_app. split; [done|]. by constructor.
Qed.

Lemma sorted_drop (l : list Z) n : StronglySorted Z.lt l -> StronglySorted Z.lt (drop n l).
Proof. revert l. induction n as [|n IH]; intros l Hl; [done|]. destruct Hl; [constructor|]. by apply IH. Qed.

(** A store without failing statements, on which ids do not run out. *)
Definition healthy (n : nat) (s : Store) : Prop := ms_open s = true /\ (forall k, ms_fault s k = false) /\ last_id s + Z.of_nat n <= max_int64.

Lemma stmt_healthy n s : healthy n s -> stmt s = (true, ms_upd (local_history s) (last_id s) (peer_latest s) (S (ms_stmts s)) s).
Proof. intros (Ho & Hf & _). unfold stmt. by rewrite Ho, Hf. Qed.

(** Inserting appends the row and drops what does not fit the window. *)
Lemma InsertLocal_spec snap row n s : store_ok s -> healthy (S n) s -> bind_cols snap = Some row -> exists s',
  InsertLocal snap s = (Ok tt, s') /\ store_ok s' /\ healthy n s' /\ peer_latest s' = peer_latest s /\
  (local_history s').*2 = drop (S (length (local_history s)) - HistoryDepth) ((local_history s).*2 ++ [row]).
Proof.
  intros Hok Hh Hb. pose proof Hh as (Ho & Hf & Hid). unfold InsertLocal. rewrite (stmt_healthy _ _ Hh). cbn [negb].
  unfold stmt at 1. cbn [ms_open ms_fault ms_stmts ms_upd]. rewrite Hb, Ho, Hf. cbn [negb andb orb last_id ms_upd].
  destruct (Z.eqb_spec (last_id s) max_int64); [unfold max_int64 in *; lia|].
  unfold stmt. cbn [ms_open ms_fault ms_stmts ms_upd local_history last_id peer_latest]. rewrite Ho, !Hf. cbn [negb andb].
  destruct Hok as [Hs Hu Hw].
  assert (Hs' : StronglySorted Z.lt (local_history s ++ [(last_id s + 1, row)]).*1).
  { rewrite fmap_app. apply sorted_snoc; [done|]. eapply list.Forall_impl; [exact Hu|]. cbn. intros. lia. }
  eexists. split; [done|]. cbn [local_history peer_latest ms_upd]. rewrite (trim_spec _ (sorted_NoDup _ Hs')).
  rewrite length_app, Nat.add_1_r. split_and!.
  - split; cbn [local_history last_id ms_upd]; rewrite ?fmap_drop, ?length_drop, ?length_app.
    + by apply sorted_drop.
    + apply Forall_drop. rewrite fmap_app. apply Forall_app. split; [eapply list.Forall_impl; [exact Hu|]; cbn; intros; lia|]. repeat constructor. cbn. lia.
    + cbn [length]. lia.
  - split_and!; [done..|]. cbn [last_id ms_upd]. lia.
  - done.
  - by rewrite fmap_drop, fmap_app.
Qed.

(** Samples of the collector, one after the other. *)
Fixpoint insert_all (l : list Snapshot) (s : Store) : Store := match l with [] => s | x :: l => insert_all l (snd (InsertLocal x s)) end.

(** The last [HistoryDepth] elements. *)
Definition window {A} (l : list A) : list A := drop (length l - HistoryDepth) l.

Lemma window_snoc {A} (l : list A) x : window (window l ++ [x]) = window (l ++ [x]).
Proof.
  unfold window. rewrite !length_app, length_drop. cbn [length].
  destruct (Nat.le_ge_cases (length l) HistoryDepth) as [H|H].
  - replace (length l - HistoryDepth)%nat with 0%nat by lia. rewrite drop_0. f_equal. lia.
  - rewrite !drop_app_le by (rewrite ?length_drop; unfold HistoryDepth in *; lia). rewrite drop_drop. f_equal. f_equal. lia.
Qed.

Lemma insert_all_spec l rows s hist : store_ok s -> healthy (length l) s -> mapM bind_cols l = Some rows -> (local_history s).*2 = window hist ->
  let s' := insert_all l s in store_ok s' /\ healthy 0 s' /\ peer_latest s' = peer_latest s /\ (local_history s').*2 = window (hist ++ rows).
Proof.
  revert rows s hist. induction l as [|x l IH]; intros rows s hist Hok Hh Hm Hw; cbn [insert_all].
  { cbn in Hm. injection Hm as <-. by rewrite app_nil_r. }
  cbn [mapM] in Hm. destruct (bind_cols x) as [row|] eqn:Hx; [|done]. cbn in Hm. destruct (mapM bind_cols l) as [rest|] eqn:Hl; [|done]. injection Hm as <-.
  destruct (InsertLocal_spec x row (length l) s Hok Hh Hx) as (s1 & -> & Hok1 & Hh1 & Hp1 & Hrows). cbn [snd].
  specialize (IH rest s1 (hist ++ [row]) Hok1 Hh1 eq_refl). cbv zeta in IH. rewrite Hp1, <- app_assoc in IH. apply IH.
  rewrite Hrows, Hw, <- window_snoc. unfold window at 2. f_equal. rewrite length_app, <- Hw, length_fmap. cbn [length]. lia.
Qed.

(** A snapshot whose numbers SQLite keeps, and what comes back of it: the
    time to the millisecond, without the node. *)
Definition plain_snapshot (s : Snapshot) : Prop :=
  in_int32 (Cores (sn_CPU s)) /\ storable (cpu_UsedPercent (sn_CPU s)) /\ storable (mem_UsedPercent (sn_Memory s)) /\
  storable (disk_UsedPercent (sn_Disk s)) /\ storable (One (sn_Load s)) /\ storable (Five (sn_Load s)) /\ storable (Fifteen (sn_Load s)).
Definition as_stored (s : Snapshot) : Snapshot :=
  {| sn_NodeID := ""; CapturedAt := truncated (CapturedAt s); sn_CPU := sn_CPU s; sn_Memory := sn_Memory s; sn_Disk := sn_Disk s;
     sn_Load := sn_Load s; sn_Network := sn_Network s |}.

Definition holds (s : Snapshot) (row : SnapCols) : Prop :=
  in_int32 (Cores (c_cpu row)) /\ snapshot_of row = as_stored s /\ captured_at row = UnixMilli (CapturedAt s).

Lemma bind_plain s : plain_snapshot s -> exists row, bind_cols s = Some row /\ holds s row.
Proof.
  intros (Hc & [? ?] & [? ?] & [? ?] & [? ?] & [? ?] & [? ?]). unfold bind_cols. rewrite !bind_number by done. cbn. eexists. split; [done|].
  unfold holds, snapshot_of, as_stored, truncated. cbn. by destruct s as [? ? [] [] [] [] []].
Qed.

Lemma bind_plain_all l : Forall plain_snapshot l -> exists rows, mapM bind_cols l = Some rows /\ Forall2 holds l rows.
Proof.
  induction 1 as [|s l Hs Hl (rows & Hm & Hf)]; [by exists []|]. destruct (bind_plain s Hs) as (row & Hb & Hr).
  exists (row :: rows). cbn [mapM]. rewrite Hb. cbn. rewrite Hm. split; [done|]. by constructor.
Qed.

Lemma holds_fmap l rows : Forall2 holds l rows -> snapshot_of <$> rows = as_stored <$> l /\ Forall (fun r => in_int32 (Cores (c_cpu r))) rows.
Proof. induction 1 as [|s row l rows (Hc & Hs & _) _ [IH IH']]; [done|]. cbn. rewrite Hs. split; [by f_equal|by constructor]. Qed.

Lemma scan_all_typed rows : Forall (fun r => in_int32 (Cores (c_cpu r))) rows -> scan_all rows = Ok (snapshot_of <$> rows).
Proof. induction 1 as [|r rows Hr _ IH]; [done|]. cbn [scan_all]. unfold scanRow. by rewrite bool_decide_eq_true_2, IH by done. Qed.

Lemma holds_ascends l rows : Forall2 holds l rows -> StronglySorted (fun a b => UnixMilli (CapturedAt a) < UnixMilli (CapturedAt b)) l ->
  StronglySorted (fun a b => captured_at a < captured_at b) rows.
Proof.
  induction 1 as [|s row l rows (_ & _ & Ht) Hr IH]; intros Hs; [constructor|]. apply StronglySorted_inv in Hs as [Hs Hf].
  constructor; [by apply IH|]. rewrite Ht. clear -Hr Hf. induction Hr as [|s' row' l rows (_ & _ & Ht') Hr IH]; [constructor|].
  apply list.Forall_cons in Hf as [H1 H2]. constructor; [by rewrite Ht'|]. by apply IH.
Qed.

Lemma sorted_fmap {A B} (f : A -> B) (Q : B -> B -> Prop) (P : A -> A -> Prop) l :
  (forall a b, P a b -> Q (f a) (f b)) -> StronglySorted P l -> StronglySorted Q (f <$> l).
Proof.
  intros HPQ. induction 1 as [|a l Hl IH Ha]; cbn; [constructor|]. constructor; [done|]. apply list.Forall_fmap. eapply list.Forall_impl; [exact Ha|].
  intros b Hb. by apply HPQ.
Qed.

Lemma window_length {A} (l : list A) : (length (window l) <= HistoryDepth)%nat.
Proof. unfold window. rewrite length_drop. lia. Qed.

(** A store just created. *)
Definition fresh_store (s : Store) : Prop := local_history s = [] /\ last_id s = 0.

Lemma fresh_ok s : fresh_store s -> store_ok s.
Proof. intros [Hh _]. split; rewrite Hh; [constructor|constructor|cbn; lia]. Qed.

(** The order of the rows is a permutation sorted by time: on rows whose
    times ascend strictly it is the identity. *)
Lemma sorted_perm_eq (l k : list SnapCols) :
  StronglySorted (fun a b => captured_at a <= captured_at b) l -> StronglySorted (fun a b => captured_at a < captured_at b) k -> l ≡ₚ k -> l = k.
Proof.
  intros Hl. revert k. induction Hl as [|a l Hl IH Ha]; intros k Hk Hp; [by apply Permutation_nil in Hp|].
  destruct Hk as [|b k Hk Hb]; [by apply Permutation_sym, Permutation_nil in Hp|].
  rewrite list.Forall_forall in Ha, Hb. assert (a = b) as ->.
  { assert (H1 : a ∈ b :: k) by (rewrite <- Hp; by left). assert (H2 : b ∈ a :: l) by (rewrite Hp; by left).
    apply elem_of_cons in H1 as [->|H1]; [done|]. apply elem_of_cons in H2 as [->|H2]; [done|]. specialize (Hb a H1). specialize (Ha b H2). lia. }
  f_equal. apply IH; [done|]. by apply Permutation_cons_inv in Hp.
Qed.

(** The history is the last ten samples.  After any number of
    samples on a new store, the latest snapshot is the last sample and the
    history consists of exactly the last ten, sorted by the time they were
    taken (to the millisecond); when the clock ascends from sample to sample
    they come in the order in which they were taken. *)
Theorem metrics_window_exact l x s
    (Hfresh : fresh_store s) (Hhealthy : healthy (S (length l)) s) (Hplain : Forall plain_snapshot (l ++ [x])) :
  let s' := insert_all (l ++ [x]) s in
  fst (LocalLatest s') = Ok (as_stored x) /\
  exists h, fst (LocalHistory s') = Ok h /\ h ≡ₚ as_stored <$> window (l ++ [x]) /\ (length h <= 10)%nat /\
    StronglySorted (fun a b => CapturedAt a <= CapturedAt b) h /\
    (StronglySorted (fun a b => UnixMilli (CapturedAt a) < UnixMilli (CapturedAt b)) (window (l ++ [x])) -> h = as_stored <$> window (l ++ [x])).
Proof.
  cbv zeta. destruct (bind_plain_all _ Hplain) as (rows & Hm & Hrows).
  destruct (insert_all_spec (l ++ [x]) rows s [] (fresh_ok s Hfresh)) as (Hok & Hh & _ & Hw); [by rewrite length_app, Nat.add_1_r|done|by rewrite (proj1 Hfresh)|].
  set (s' := insert_all (l ++ [x]) s) in *. clearbody s'. rewrite app_nil_l in Hw.
  assert (Hwin : Forall2 holds (window (l ++ [x])) (window rows)) by (unfold window; rewrite (Forall2_length Hrows); by apply Forall2_drop).
  destruct (holds_fmap _ _ Hwin) as [Hfm Hty]. split.
  - unfold LocalLatest. rewrite (stmt_healthy _ _ Hh). cbn [negb local_history ms_upd].
    assert (Hlast : list.last (snapshot_of <$> window rows) = Some (as_stored x)).
    { rewrite Hfm, fmap_last. unfold window. rewrite drop_app_le, last_snoc; [done|]. rewrite length_app. cbn. unfold HistoryDepth. lia. }
    assert (Hin : forall r, list.last (window rows) = Some r -> scanRow r = Ok (snapshot_of r)).
    { intros r Hr. unfold scanRow. rewrite bool_decide_eq_true_2; [done|]. rewrite list.Forall_forall in Hty. apply Hty.
      apply last_Some in Hr as [? ->]. set_solver. }
    rewrite fmap_last in Hlast. rewrite <- Hw, fmap_last in Hlast, Hin. destruct (list.last (local_history s')) as [[i r]|]; [|done].
    assert (Hr : snapshot_of r = as_stored x) by (apply (f_equal (from_option id (snapshot_of r))) in Hlast; exact Hlast). cbn [fst].
    by rewrite (Hin r eq_refl), Hr.
  - unfold LocalHistory. rewrite (stmt_healthy _ _ Hh). cbn [negb local_history ms_upd ms_stmts]. set (ord := order_history _ _).
    assert (Hperm : ord.*2 ≡ₚ window rows) by (rewrite <- Hw; unfold ord; by rewrite history_perm).
    assert (Hsort : StronglySorted (fun a b => captured_at a <= captured_at b) ord.*2) by (eapply sorted_fmap; [|apply history_sorted]; done).
    exists (snapshot_of <$> ord.*2). rewrite <- Hfm. split_and!.
    + cbn [fst]. rewrite scan_all_typed; [done|]. by rewrite Hperm.
    + by rewrite Hperm.
    + rewrite length_fmap, Hperm. apply window_length.
    + eapply sorted_fmap; [|exact Hsort]. intros a b Hab. apply Z.mul_le_mono_nonneg_r; [done|exact Hab].
    + intros Hasc. f_equal. exact (sorted_perm_eq _ _ Hsort (holds_ascends _ _ Hwin Hasc) Hperm).
Qed.

End Window.

(** *** The rates of the collector *)

Lemma Duration_Seconds_ge d : second <= d <= max_int64 -> finite (Duration_Seconds d) /\ 2 ^ scale <= key (Duration_Seconds d).
Proof.
  intros [Hd Hmax]. unfold Duration_Seconds. pose proof scale_pos as Hs.
  assert (Hq : 1 <= Z.quot d second <= 2 ^ 34).
  { rewrite Z.quot_div_nonneg by (unfold second, millisecond, microsecond in *; lia). split.
    - apply Z.div_le_lower_bound; unfold second, millisecond, microsecond in *; lia.
    - apply Z.div_le_upper_bound; unfold second, millisecond, microsecond, max_int64 in *; lia. }
  assert (Hr : 0 <= Z.rem d second < second) by (apply Z.rem_bound_pos; unfold second, millisecond, microsecond in *; lia).
  set (q := Z.quot d second) in *. set (r := Z.rem d second) in *. clearbody q r.
  assert (Fq : finite (f64_of_Z q)) by (apply finite_of_int64; unfold in_int64, min_int64, max_int64; lia).
  assert (Fr : finite (f64_of_Z r)) by (apply finite_of_int64; unfold in_int64, min_int64, max_int64, second, millisecond, microsecond in *; lia).
  assert (Fg : finite (f64_of_Z 1000000000)) by (apply finite_of_int64; unfold in_int64, min_int64, max_int64; lia).
  assert (F1 : finite (f64_of_Z 1)) by (apply finite_of_int64; unfold in_int64, min_int64, max_int64; lia).
  assert (Kq : key (f64_of_Z q) = q * 2 ^ scale) by (apply key_of_Z_exact; lia).
  assert (Kr : key (f64_of_Z r) = r * 2 ^ scale) by (apply key_of_Z_exact; unfold second, millisecond, microsecond in *; lia).
  assert (Kg : key (f64_of_Z 1000000000) = 1000000000 * 2 ^ scale) by (apply key_of_Z_exact; lia).
  assert (K1 : key (f64_of_Z 1) = 2 ^ scale) by (rewrite key_of_Z_exact by lia; lia).
  destruct (f64_div_spec (f64_of_Z r) (f64_of_Z 1000000000) Fr Fg) as [Nd Kd]; [rewrite Kg; lia|].
  set (frac := (f64_of_Z r / f64_of_Z 1000000000)%f64) in *. clearbody frac.
  assert (Hk : 0 <= key frac <= key (f64_of_Z 1)).
  { rewrite Kd. split; [apply key_round_nonneg; nia|]. apply key_round_le; [done|nia|]. rewrite K1, Kr, Kg. unfold second, millisecond, microsecond in *. nia. }
  assert (Kz : key (f64_zero false) = 0) by (vm_compute; reflexivity).
  assert (Ff : finite frac) by (apply (finite_between frac (f64_zero false) (f64_of_Z 1)); [done|apply f64_zero_finite|done|by rewrite Kz]).
  destruct (f64_add_spec (f64_of_Z q) frac Fq Ff) as [Na Ka].
  assert (F2 : finite (f64_of_Z (q + 1))) by (apply finite_of_int64; unfold in_int64, min_int64, max_int64; lia).
  assert (Hsum : key (f64_of_Z 1) <= key (f64_of_Z q + frac)%f64 <= key (f64_of_Z (q + 1))).
  { assert (K2 : key (f64_of_Z (q + 1)) = (q + 1) * 2 ^ scale) by (apply key_of_Z_exact; lia).
    rewrite Ka. split; [apply (key_round_ge _ _ 1 F1); [lia|]|apply (key_round_le _ _ 1 F2); [lia|]]; rewrite ?K1, ?K2, ?Kq in *; clear -Hs Hk Hq; nia. }
  split; [|lia]. exact (finite_between _ _ _ Na F1 F2 Hsum).
Qed.

Lemma net_rate_bounds `{GoConv} delta elapsed : 0 <= delta < 2 ^ 53 -> finite elapsed -> 2 ^ scale <= key elapsed ->
  0 <= net_rate delta elapsed <= delta.
Proof.
  intros Hd Fe Ke. unfold net_rate. rewrite int64_id by (unfold in_int64, min_int64, max_int64; lia).
  assert (Fd : finite (f64_of_Z delta)) by (apply finite_of_int64; unfold in_int64, min_int64, max_int64; lia).
  assert (Kd : key (f64_of_Z delta) = delta * 2 ^ scale) by (apply key_of_Z_exact; lia).
  pose proof scale_pos as Hs. destruct (f64_div_spec (f64_of_Z delta) elapsed Fd Fe) as [Nq Kq]; [lia|].
  set (q := (f64_of_Z delta / elapsed)%f64) in *. clearbody q.
  assert (Hk : 0 <= key q <= key (f64_of_Z delta)).
  { rewrite Kq. split; [apply key_round_nonneg; [lia|]; rewrite Kd; clear -Hd Hs; nia|].
    apply (key_round_le _ _ _ Fd); [lia|]. rewrite Kd. clear -Hd Hs Ke. nia. }
  assert (Kz : key (f64_zero false) = 0) by (vm_compute; reflexivity).
  assert (Fq : finite q) by (apply (finite_between q (f64_zero false) (f64_of_Z delta)); [done|apply f64_zero_finite|done|by rewrite Kz]).
  rewrite Kd in Hk. rewrite f64_to_int64_spec; [|done|lia|unfold max_int64; clear -Hd Hs Hk; nia].
  split; [apply Z.div_pos; lia|]. apply Z.div_le_upper_bound; lia.
Qed.

(** Throughput is bounded by what was counted.  A complete
    pass yields a snapshot of this node taken now and remembers its counters;
    when the counters have not gone back and at least a second passed since
    the previous sample, the rates are between 0 and the bytes counted since
    then, and 0 for the first sample; a pass with a failed reading yields
    nothing and leaves the previous counters for the next one. *)
Theorem metrics_rate_bounds `{GoConv} now smp c
    (Hclock : hasPrev c = true -> second <= time_Sub now (prevSampleAt c))
    (Hcount : hasPrev c = true -> forall sent recv, smp_Network smp = Some (sent, recv) ->
        0 <= sent - prevSentBytes c < 2 ^ 53 /\ 0 <= recv - prevRecvBytes c < 2 ^ 53) :
  match sampleOnce now smp c with
  | (None, c') => c' = c /\ (smp_CPU smp = None \/ smp_Memory smp = None \/ smp_Disk smp = None \/ smp_Network smp = None)
  | (Some snap, c') => sn_NodeID snap = co_nodeID c /\ CapturedAt snap = now /\ prevSampleAt c' = now /\ hasPrev c' = true /\
      smp_Network smp = Some (prevSentBytes c', prevRecvBytes c') /\
      let delta x x' := if hasPrev c then x' - x else 0 in
      0 <= BytesSentPerSec (sn_Network snap) <= delta (prevSentBytes c) (prevSentBytes c') /\
      0 <= BytesRecvPerSec (sn_Network snap) <= delta (prevRecvBytes c) (prevRecvBytes c')
  end.
Proof.
  unfold sampleOnce. destruct (smp_CPU smp) as [cpu|]; [|by split; [|left]]. destruct (smp_Memory smp) as [mem|]; [|by split; [|right; left]].
  destruct (smp_Disk smp) as [disk|]; [|by split; [|right; right; left]]. destruct (smp_Network smp) as [[sent recv]|] eqn:En; [|by split; [|right; right; right]].
  cbn [sn_NodeID CapturedAt sn_Network prevSampleAt hasPrev prevSentBytes prevRecvBytes]. split_and!; try done.
  all: destruct (hasPrev c) eqn:Hp; [|cbn; lia].
  all: specialize (Hclock eq_refl); destruct (Hcount eq_refl sent recv eq_refl) as [Hs Hr].
  all: assert (Hmax : time_Sub now (prevSampleAt c) <= max_int64) by (unfold time_Sub, min_int64, max_int64; lia).
  all: destruct (Duration_Seconds_ge _ (conj Hclock Hmax)) as [Fe Ke]; set (el := Duration_Seconds _) in *; clearbody el.
  all: pose proof scale_pos; assert (Kz : key (f64_zero false) = 0) by (vm_compute; reflexivity).
  all: unfold f64_gt; rewrite f64_lt_spec, Kz; [|apply finite_number, f64_zero_finite|by apply finite_number].
  all: rewrite (proj2 (Z.ltb_lt 0 (key el))) by lia; cbn [BytesSentPerSec BytesRecvPerSec]; by apply net_rate_bounds.
Qed.

(** ** A node *)

Module MetricsDemo.

Definition clock (n : nat) : Time := 1700000000 * second + Z.of_nat n * second.
Definition sampling (n : nat) : Sampling :=
  {| smp_CPU := Some {| Cores := 8; cpu_UsedPercent := f64_of_Z 25 |};
     smp_Memory := Some {| mem_TotalMB := 16000; AvailableMB := 9000; mem_UsedMB := 7000; mem_UsedPercent := f64_of_Z 44 |};
     smp_Disk := Some {| disk_TotalMB := 100000; FreeMB := 60000; disk_UsedMB := 40000; disk_UsedPercent := f64_of_Z 40 |};
     smp_Load := {| One := f64_of_Z 2; Five := f64_of_Z 1; Fifteen := f64_of_Z 1 |};
     smp_Network := Some (3000 * Z.of_nat n, 500 * Z.of_nat n) |}.
Definition snapshot (n : nat) : Snapshot := default zero_snapshot (fst (sampleOnce (clock n) (sampling n) (NewCollector "n1"))).
Definition store : Store :=
  {| local_history := []; last_id := 0; peer_latest := ∅; ms_open := true; ms_fault := fun _ => false; ms_stmts := 1 |}.

Lemma storable_of_Z z : (0 <? z) && (z <? 2 ^ 53) = true -> storable (f64_of_Z z).
Proof.
  intros [Hz Hb]%andb_prop. apply Z.ltb_lt in Hz, Hb. destruct (f64_of_Z_spec z) as [Hn _]. split; [done|]. intros e He.
  pose proof (key_of_Z_pos z Hz) as Hk. rewrite He in Hk. cbn in Hk. lia.
Qed.

Lemma snapshot_plain n : plain_snapshot (snapshot n).
Proof. split_and!; [by compute|apply storable_of_Z; reflexivity..]. Qed.

Lemma metrics_window_exact_witness :
  exists h, fst (LocalHistory (insert_all (snapshot <$> seq 0 12 ++ [12%nat]) store)) = Ok h /\ h = as_stored <$> (snapshot <$> seq 3 10).
Proof.
  rewrite fmap_app. change (snapshot <$> [12%nat]) with [snapshot 12].
  destruct (metrics_window_exact (snapshot <$> seq 0 12) (snapshot 12) store) as (_ & h & Hh & _ & _ & _ & Heq).
  - done.
  - split_and!; [done..|]. by vm_compute.
  - apply Forall_app. split; [apply list.Forall_fmap, list.Forall_forall; intros n _; apply snapshot_plain|]. constructor; [apply snapshot_plain|constructor].
  - exists h. split; [exact Hh|]. rewrite Heq; [done|]. change (window _) with (snapshot <$> seq 3 10). clear.
    eapply (sorted_fmap snapshot _ lt); [|repeat constructor]. intros a b Hab.
    change (UnixMilli (clock a) < UnixMilli (clock b)). unfold UnixMilli, clock.
    assert (E : forall n, (1700000000 * second + Z.of_nat n * second) / millisecond = 1700000000 * second / millisecond + Z.of_nat n * 1000).
    { intros n. replace (Z.of_nat n * second) with (Z.of_nat n * 1000 * millisecond) by (unfold second; lia). by rewrite Z.div_add. }
    rewrite !E. lia.
Defined.

Definition collector : Collector := snd (sampleOnce (clock 0) (sampling 1) (NewCollector "n1")).

Lemma metrics_rate_bounds_witness : exists snap c', sampleOnce (clock 3) (sampling 2) collector = (Some snap, c') /\
  0 <= BytesSentPerSec (sn_Network snap) <= 3000 /\ BytesSentPerSec (sn_Network snap) = 1000.
Proof.
  pose proof (metrics_rate_bounds (clock 3) (sampling 2) collector) as H. destruct (sampleOnce (clock 3) (sampling 2) collector) as [[snap|] c'] eqn:E.
  - exists snap, c'. split; [done|]. assert (Hs : snap = default zero_snapshot (fst (sampleOnce (clock 3) (sampling 2) collector))) by (by rewrite E).
    destruct H as (_ & _ & _ & _ & Hn & H); [intros _; by vm_compute|intros _ sent recv Hsr; injection Hsr as <- <-; by vm_compute|].
    cbn in Hn. injection Hn as Hn _. destruct H as [H _]. rewrite <- Hn in H. split; [exact H|]. rewrite Hs. by vm_compute.
  - exfalso. assert (Hs : is_Some (fst (sampleOnce (clock 3) (sampling 2) collector))) by (by vm_compute). rewrite E in Hs. by destruct Hs.
Defined.

(** A counter that starts again at zero shows as a negative rate. *)
Example rate_after_reset : (fun s => BytesSentPerSec (sn_Network s)) <$> fst (sampleOnce (clock 3) (sampling 0) collector) = Some (-1000).
Proof. by vm_compute. Qed.

End MetricsDemo.
