(* ===== verification/Metrics.v ===== *)
(** * Node metrics: gossip, manager and provider ([node/metrics])

    [pubsub.go], [manager.go] and [provider.go]: a node publishes its samples
    on the metrics topic of each cluster it joined, keeps the latest sample of
    every peer, and answers what the election asks about the local node.

    Publisher, subscriber and manager share the PubSub instance of the node;
    [ps_net] says which of its calls succeed.  [JoinCluster] holds the
    manager's lock and is one step; [LeaveCluster] releases it after its first
    half and is two. *)

From S2P Require Import Prelude Float64 CapsuleTypes ElectionTopic Orbit Internals Shared HealthScore HealthMonitor Gravity Phonebook MetricsStore.
Import signing.
Local Open Scope string_scope.
Local Open Scope list_scope.
Local Open Scope Z_scope.

(** ** Messages *)

Record ResourceUpdate := {
  ru_NodeId : string; ru_CapturedAt : option Time; ru_CpuCores : Z; ru_CpuUsedPercent : f64;
  ru_MemoryTotalMb : Z; ru_MemoryAvailableMb : Z; ru_MemoryUsedMb : Z; ru_MemoryUsedPercent : f64;
  ru_DiskTotalMb : Z; ru_DiskFreeMb : Z; ru_DiskUsedMb : Z; ru_DiskUsedPercent : f64;
  ru_LoadOne : f64; ru_LoadFive : f64; ru_LoadFifteen : f64; ru_NetSentBytesPerSec : Z; ru_NetRecvBytesPerSec : Z
}.

(** Protocol Buffers, as for the health messages. *)
Class MetricsCodec := { marshalUpdate : ResourceUpdate -> option bytes; unmarshalUpdate : bytes -> option ResourceUpdate }.
Class MetricsLaws (M : MetricsCodec) := { update_roundtrip : forall u b, marshalUpdate u = Some b -> unmarshalUpdate b = Some u }.

Definition snapshotToProto (s : Snapshot) : ResourceUpdate :=
  {| ru_NodeId := sn_NodeID s; ru_CapturedAt := Some (CapturedAt s); ru_CpuCores := Cores (sn_CPU s); ru_CpuUsedPercent := cpu_UsedPercent (sn_CPU s);
     ru_MemoryTotalMb := mem_TotalMB (sn_Memory s); ru_MemoryAvailableMb := AvailableMB (sn_Memory s); ru_MemoryUsedMb := mem_UsedMB (sn_Memory s);
     ru_MemoryUsedPercent := mem_UsedPercent (sn_Memory s); ru_DiskTotalMb := disk_TotalMB (sn_Disk s); ru_DiskFreeMb := FreeMB (sn_Disk s);
     ru_DiskUsedMb := disk_UsedMB (sn_Disk s); ru_DiskUsedPercent := disk_UsedPercent (sn_Disk s); ru_LoadOne := One (sn_Load s);
     ru_LoadFive := Five (sn_Load s); ru_LoadFifteen := Fifteen (sn_Load s); ru_NetSentBytesPerSec := BytesSentPerSec (sn_Network s);
     ru_NetRecvBytesPerSec := BytesRecvPerSec (sn_Network s) |}.

Definition protoToSnapshot (u : ResourceUpdate) : Snapshot :=
  {| sn_NodeID := ru_NodeId u; CapturedAt := default zero_time (ru_CapturedAt u);
     sn_CPU := {| Cores := ru_CpuCores u; cpu_UsedPercent := ru_CpuUsedPercent u |};
     sn_Memory := {| mem_TotalMB := ru_MemoryTotalMb u; AvailableMB := ru_MemoryAvailableMb u; mem_UsedMB := ru_MemoryUsedMb u;
                     mem_UsedPercent := ru_MemoryUsedPercent u |};
     sn_Disk := {| disk_TotalMB := ru_DiskTotalMb u; FreeMB := ru_DiskFreeMb u; disk_UsedMB := ru_DiskUsedMb u; disk_UsedPercent := ru_DiskUsedPercent u |};
     sn_Load := {| One := ru_LoadOne u; Five := ru_LoadFive u; Fifteen := ru_LoadFifteen u |};
     sn_Network := {| BytesSentPerSec := ru_NetSentBytesPerSec u; BytesRecvPerSec := ru_NetRecvBytesPerSec u |} |}.

Lemma proto_snapshot s : protoToSnapshot (snapshotToProto s) = s.
Proof. by destruct s as [? ? [] [] [] [] []]. Qed.

Definition resourceUpdateMessageType : string := "resource_update".
Definition maxMessageAge : Duration := 30 * second.

(** ** PubSub *)

(** A topic can be joined once per host.  [ps_next] numbers subscriptions. *)
Record PubSub := { ps_topics : gset string; ps_next : nat; ps_wire : list (string * bytes); ps_net : nat -> bool; ps_calls : nat }.
Definition ps_upd (topics : gset string) (next : nat) (wire : list (string * bytes)) (p : PubSub) : PubSub :=
  {| ps_topics := topics; ps_next := next; ps_wire := wire; ps_net := ps_net p; ps_calls := S (ps_calls p) |}.
Definition ps_ok (p : PubSub) : bool := ps_net p (ps_calls p).

Definition ps_Join (topic : string) : ST PubSub bool := fun p =>
  if ps_ok p && negb (bool_decide (topic ∈ ps_topics p)) then (true, ps_upd ({[topic]} ∪ ps_topics p) (ps_next p) (ps_wire p) p)
  else (false, ps_upd (ps_topics p) (ps_next p) (ps_wire p) p).
Definition topic_Subscribe : ST PubSub (option nat) := fun p =>
  (if ps_ok p then Some (ps_next p) else None, ps_upd (ps_topics p) (S (ps_next p)) (ps_wire p) p).
Definition topic_Close (topic : string) (p : PubSub) : PubSub := ps_upd (ps_topics p ∖ {[topic]}) (ps_next p) (ps_wire p) p.
Definition topic_Send (topic : string) (data : bytes) : ST PubSub bool := fun p =>
  let ok := ps_ok p in (ok, ps_upd (ps_topics p) (ps_next p) (if ok then ps_wire p ++ [(topic, data)] else ps_wire p) p).

(** ** Publisher and subscriber *)

Inductive MetricsError :=
  | ErrTopicJoin | ErrTopicSubscribe | ErrNotJoined | ErrMarshalUpdate | ErrSignEnvelope | ErrMarshalEnvelope | ErrTopicPublish
  | ErrPublisherNotJoined | ErrNotStarted | ErrZeroInterval | ErrEmptyNodeID | ErrOpenStore | ErrLocalUnknown | ErrLocalSnapshot.

(** [p_clusters]: the subscription of every joined cluster (its topic is
    [BuildMetricsTopic] of the cluster). *)
Record Publisher := { p_clusters : gmap string nat; p_ps : PubSub; p_nodeID : string }.
Definition with_clusters (c : gmap string nat) (ps : PubSub) (p : Publisher) : Publisher :=
  {| p_clusters := c; p_ps := ps; p_nodeID := p_nodeID p |}.

Definition Publisher_JoinCluster (clusterPath : string) : ST Publisher (result MetricsError unit) := fun p =>
  match p_clusters p !! clusterPath with
  | Some _ => (Ok tt, p)
  | None =>
      let topicName := BuildMetricsTopic clusterPath in
      let '(ok, ps) := ps_Join topicName (p_ps p) in
      if negb ok then (Err ErrTopicJoin, with_clusters (p_clusters p) ps p) else
      match topic_Subscribe ps with
      | (None, ps) => (Err ErrTopicSubscribe, with_clusters (p_clusters p) (topic_Close topicName ps) p)
      | (Some sub, ps) => (Ok tt, with_clusters (<[clusterPath := sub]> (p_clusters p)) ps p)
      end
  end.

Definition SubscriptionFor (clusterPath : string) (p : Publisher) : option nat := p_clusters p !! clusterPath.

Definition Publisher_LeaveCluster (clusterPath : string) (p : Publisher) : Publisher :=
  match p_clusters p !! clusterPath with
  | Some _ => with_clusters (delete clusterPath (p_clusters p)) (topic_Close (BuildMetricsTopic clusterPath) (p_ps p)) p
  | None => p
  end.

(** [cancels]: the subscription each running loop reads. *)
Record Subscriber := { cancels : gmap string nat }.

Definition Subscriber_JoinCluster (clusterPath : string) (p : Publisher) : ST Subscriber (result MetricsError unit) := fun s =>
  match cancels s !! clusterPath with
  | Some _ => (Ok tt, s)
  | None =>
      match SubscriptionFor clusterPath p with
      | None => (Err ErrPublisherNotJoined, s)
      | Some sub => (Ok tt, {| cancels := <[clusterPath := sub]> (cancels s) |})
      end
  end.
Definition Subscriber_LeaveCluster (clusterPath : string) (s : Subscriber) : Subscriber := {| cancels := delete clusterPath (cancels s) |}.
Definition Subscriber_Stop (s : Subscriber) : Subscriber := {| cancels := ∅ |}.

(** ** Manager *)

Section Manager.
Context `{I : IPhonebook} `{R : SqliteReal} `{O : MetricsOrder} `{C : GoConv} `{G : GoRange} `{P : HealthCodec} `{M : MetricsCodec}.
(** The node's signature, and verification with a marshalled public key
    (false when the key does not parse). *)
Variables (Sign : bytes -> option bytes) (Verify : bytes -> bytes -> bytes -> bool).

Record Manager := {
  mm_cfg : Config; mm_nodeID : string; mm_store : Store; mm_collector : Collector; mm_sampling : bool;  (** the collector runs *)
  mm_publisher : Publisher; mm_subscriber : Subscriber; mm_phonebook : PB; mm_clusters : gmap string unit; mm_started : bool;
  mm_clock : nat -> Time; mm_ticks : nat
}.

Definition mm_upd (store : Store) (col : Collector) (sampling : bool) (pub : Publisher) (sub : Subscriber) (pb : PB) (clusters : gmap string unit)
    (started : bool) (ticks : nat) (m : Manager) : Manager :=
  {| mm_cfg := mm_cfg m; mm_nodeID := mm_nodeID m; mm_store := store; mm_collector := col; mm_sampling := sampling; mm_publisher := pub;
     mm_subscriber := sub; mm_phonebook := pb; mm_clusters := clusters; mm_started := started; mm_clock := mm_clock m; mm_ticks := ticks |}.
Definition set_store (s : Store) (m : Manager) : Manager :=
  mm_upd s (mm_collector m) (mm_sampling m) (mm_publisher m) (mm_subscriber m) (mm_phonebook m) (mm_clusters m) (mm_started m) (mm_ticks m) m.
Definition set_members (pub : Publisher) (sub : Subscriber) (clusters : gmap string unit) (m : Manager) : Manager :=
  mm_upd (mm_store m) (mm_collector m) (mm_sampling m) pub sub (mm_phonebook m) clusters (mm_started m) (mm_ticks m) m.
Definition set_phonebook (pb : PB) (m : Manager) : Manager :=
  mm_upd (mm_store m) (mm_collector m) (mm_sampling m) (mm_publisher m) (mm_subscriber m) pb (mm_clusters m) (mm_started m) (mm_ticks m) m.
Definition mm_now : ST Manager Time := fun m =>
  (mm_clock m (mm_ticks m),
   mm_upd (mm_store m) (mm_collector m) (mm_sampling m) (mm_publisher m) (mm_subscriber m) (mm_phonebook m) (mm_clusters m) (mm_started m)
     (S (mm_ticks m)) m).

(** The database opens or not. *)
Definition NewManager (cfg : Config) (nodeID : string) (store : option Store) (ps : PubSub) (pb : PB) (clock : nat -> Time) : result MetricsError Manager :=
  if mc_Interval cfg =? 0 then Err ErrZeroInterval
  else if nodeID =s "" then Err ErrEmptyNodeID
  else match store with
       | None => Err ErrOpenStore
       | Some store =>
           Ok {| mm_cfg := cfg; mm_nodeID := nodeID; mm_store := store; mm_collector := NewCollector nodeID; mm_sampling := false;
                 mm_publisher := {| p_clusters := ∅; p_ps := ps; p_nodeID := nodeID |}; mm_subscriber := {| cancels := ∅ |}; mm_phonebook := pb;
                 mm_clusters := ∅; mm_started := false; mm_clock := clock; mm_ticks := 0 |}
       end.

Definition Start (m : Manager) : Manager :=
  if mm_started m then m
  else mm_upd (mm_store m) (mm_collector m) (if mc_Enabled (mm_cfg m) then true else mm_sampling m) (mm_publisher m) (mm_subscriber m)
         (mm_phonebook m) (mm_clusters m) true (mm_ticks m) m.

Definition Stop (m : Manager) : Manager :=
  if negb (mm_started m) then m else
  let pub := fold_left (fun p path => Publisher_LeaveCluster path p) (range (mm_clusters m)).*1 (mm_publisher m) in
  mm_upd (Close (mm_store m)) (mm_collector m) false pub (Subscriber_Stop (mm_subscriber m)) (mm_phonebook m) ∅ false (mm_ticks m) m.

Definition JoinCluster (clusterPath : string) : ST Manager (result MetricsError unit) := fun m =>
  if negb (mm_started m) then (Err ErrNotStarted, m)
  else if negb (mc_Enabled (mm_cfg m)) then (Ok tt, m)
  else if bool_decide (is_Some (mm_clusters m !! clusterPath)) then (Ok tt, m)
  else
    match Publisher_JoinCluster clusterPath (mm_publisher m) with
    | (Err e, pub) => (Err e, set_members pub (mm_subscriber m) (mm_clusters m) m)
    | (Ok _, pub) =>
        match Subscriber_JoinCluster clusterPath pub (mm_subscriber m) with
        | (Err e, sub) => (Err e, set_members (Publisher_LeaveCluster clusterPath pub) sub (mm_clusters m) m)
        | (Ok _, sub) => (Ok tt, set_members pub sub (<[clusterPath := tt]> (mm_clusters m)) m)
        end
    end.

(** [LeaveCluster]: under the lock, and after it. *)
Definition LeaveCluster_locked (clusterPath : string) (m : Manager) : Manager :=
  set_members (mm_publisher m) (mm_subscriber m) (delete clusterPath (mm_clusters m)) m.
Definition LeaveCluster_rest (clusterPath : string) (m : Manager) : Manager :=
  set_members (Publisher_LeaveCluster clusterPath (mm_publisher m)) (Subscriber_LeaveCluster clusterPath (mm_subscriber m)) (mm_clusters m) m.
Definition LeaveCluster (clusterPath : string) (m : Manager) : Manager := LeaveCluster_rest clusterPath (LeaveCluster_locked clusterPath m).

(** *** Publishing *)

(** [signEnvelope] signs the bytes of the health messages. *)
Definition signEnvelope (msg : HealthMessage) : option bytes := Sign (health_content msg).

Definition Publish (clusterPath : string) (snap : Snapshot) : ST Manager (result MetricsError unit) := fun m =>
  match p_clusters (mm_publisher m) !! clusterPath with
  | None => (Err ErrNotJoined, m)
  | Some _ =>
      match marshalUpdate (snapshotToProto snap) with
      | None => (Err ErrMarshalUpdate, m)
      | Some payload =>
          let '(ts, m) := mm_now m in
          let msg sig := {| hm_Type := resourceUpdateMessageType; hm_Payload := payload; hm_SenderId := p_nodeID (mm_publisher m);
                            hm_Timestamp := Some ts; hm_Signature := sig |} in
          match signEnvelope (msg []) with
          | None => (Err ErrSignEnvelope, m)
          | Some sig =>
              match marshalHealth (msg sig) with
              | None => (Err ErrMarshalEnvelope, m)
              | Some data =>
                  let '(ok, ps) := topic_Send (BuildMetricsTopic clusterPath) data (p_ps (mm_publisher m)) in
                  let m := set_members (with_clusters (p_clusters (mm_publisher m)) ps (mm_publisher m)) (mm_subscriber m) (mm_clusters m) m in
                  (if ok : bool then Ok tt else Err ErrTopicPublish, m)
              end
          end
      end
  end.

Fixpoint publish_each (clusters : list string) (snap : Snapshot) (m : Manager) : Manager :=
  match clusters with
  | [] => m
  | path :: rest => publish_each rest snap (snd (Publish path snap m))
  end.

Definition handleLocalSnapshot (snap : Snapshot) (m : Manager) : Manager :=
  let m := set_store (snd (InsertLocal snap (mm_store m))) m in
  publish_each (range (mm_clusters m)).*1 snap m.

(** A turn of the collector's loop. *)
Definition collect (smp : Sampling) (m : Manager) : Manager :=
  if negb (mm_sampling m) then m else
  let '(now, m) := mm_now m in
  let '(snap, col) := sampleOnce now smp (mm_collector m) in
  let m := mm_upd (mm_store m) col (mm_sampling m) (mm_publisher m) (mm_subscriber m) (mm_phonebook m) (mm_clusters m) (mm_started m) (mm_ticks m) m in
  match snap with Some snap => handleLocalSnapshot snap m | None => m end.

(** *** Receiving *)

Definition handlePeerSnapshot (snap : Snapshot) (m : Manager) : Manager := set_store (snd (UpsertPeer snap (mm_store m))) m.

Definition verifySignature (clusterPath : string) (msg : HealthMessage) : ST Manager bool := fun m =>
  match hm_Signature msg with
  | [] => (false, m)
  | sig =>
      match pb_Get (hm_SenderId msg) clusterPath (mm_phonebook m) with
      | (Ok (Some entry), pb) => (Verify (e_PublicKey entry) (health_content msg) sig, set_phonebook pb m)
      | (_, pb) => (false, set_phonebook pb m)
      end
  end.

Definition accept (clusterPath : string) (envelope : HealthMessage) (m : Manager) : Manager :=
  let '(ok, m) := verifySignature clusterPath envelope m in
  if negb ok then m else
  match unmarshalUpdate (hm_Payload envelope) with
  | None => m
  | Some update =>
      let snap := protoToSnapshot update in
      handlePeerSnapshot (if sn_NodeID snap =s "" then with_id (hm_SenderId envelope) snap else snap) m
  end.

Definition handle (clusterPath : string) (data : bytes) (m : Manager) : Manager :=
  match unmarshalHealth data with
  | None => m
  | Some envelope =>
      if hm_Type envelope <>s resourceUpdateMessageType then m
      else if hm_SenderId envelope =s mm_nodeID m then m
      else match hm_Timestamp envelope with
           | Some ts => let '(now, m) := mm_now m in if maxMessageAge <? time_Sub now ts then m else accept clusterPath envelope m
           | None => accept clusterPath envelope m
           end
  end.

(** A message that the loop of a cluster gets from its subscription. *)
Definition loop (clusterPath receivedFrom : string) (data : bytes) (m : Manager) : Manager :=
  match cancels (mm_subscriber m) !! clusterPath with
  | None => m
  | Some _ => if receivedFrom =s mm_nodeID m then m else handle clusterPath data m
  end.

Definition mm_LocalLatest : ST Manager (result StoreError Snapshot) := fun m => let '(r, s) := LocalLatest (mm_store m) in (r, set_store s m).
Definition mm_LocalHistory : ST Manager (result StoreError (list Snapshot)) := fun m => let '(r, s) := LocalHistory (mm_store m) in (r, set_store s m).
Definition mm_PeerLatest (nodeID : string) : ST Manager (result StoreError Snapshot) := fun m =>
  let '(r, s) := PeerLatest nodeID (mm_store m) in (r, set_store s m).
Definition mm_AllPeers : ST Manager (result StoreError (list Snapshot)) := fun m => let '(r, s) := AllPeers (mm_store m) in (r, set_store s m).

(** ** [provider.go] *)

Definition noCapsuleCounts (clusterPath nodeID : string) : Z := 0.

Definition computeFreeCPU (cores : Z) (usedPercent : f64) : Z :=
  if cores <=? 0 then 0
  else if (usedPercent <=? f64_zero false)%f64 then cores
  else if (usedPercent >=? f64_of_Z 100)%f64 then 0
  else f64_to_int32 (f64_of_Z cores * (f64_of_Z 1 - usedPercent / f64_of_Z 100))%f64.

Definition labelsFromEntry (entry : Entry) : Labels :=
  match e_Capabilities entry with
  | None => Some ∅
  | Some caps => match cap_Metadata caps with None => Some ∅ | Some md => Some md end
  end.

Definition translateStatus (s : string) : string :=
  if s =s Phonebook.nodeStatusActive then Gravity.nodeStatusActive
  else if s =s Phonebook.nodeStatusSuspected then Gravity.nodeStatusSuspected
  else if s =s Phonebook.nodeStatusQuarantined then Gravity.nodeStatusQuarantined
  else if s =s Phonebook.nodeStatusFailed then Gravity.nodeStatusFailed
  else Gravity.nodeStatusActive.

Definition no_resources : Resources :=
  {| CPUCoresTotal := 0; CPUCoresFree := 0; MemoryMBTotal := 0; MemoryMBFree := 0; DiskMBTotal := 0; DiskMBFree := 0 |}.

Definition buildState (nodeID clusterPath : string) (entry : Entry) (snap : Snapshot) : NodeState :=
  {| NodeID := nodeID; ClusterPath := clusterPath; Datacenter := e_Datacenter entry; Region := e_Region entry;
     ns_Labels := labelsFromEntry entry; ns_Status := translateStatus (e_Status entry); ReliabilityScore := e_SuccessRate entry;
     RunningCapsuleCount := 0;
     ns_Resources :=
       if negb (CapturedAt snap =? zero_time) then
         {| CPUCoresTotal := Cores (sn_CPU snap); CPUCoresFree := computeFreeCPU (Cores (sn_CPU snap)) (cpu_UsedPercent (sn_CPU snap));
            MemoryMBTotal := mem_TotalMB (sn_Memory snap); MemoryMBFree := AvailableMB (sn_Memory snap);
            DiskMBTotal := disk_TotalMB (sn_Disk snap); DiskMBFree := FreeMB (sn_Disk snap) |}
       else match e_Capabilities entry with
            | Some caps => {| CPUCoresTotal := cap_CPUCores caps; CPUCoresFree := cap_CPUCores caps; MemoryMBTotal := cap_MemoryMB caps;
                              MemoryMBFree := cap_MemoryMB caps; DiskMBTotal := int64 (cap_DiskGB caps * 1024);
                              DiskMBFree := int64 (cap_DiskGB caps * 1024) |}
            | None => no_resources
            end |}.

Definition LocalNode (counts : string -> string -> Z) (clusterPath : string) : ST Manager (result MetricsError NodeState) := fun m =>
  let id := mm_nodeID m in
  match pb_Get id clusterPath (mm_phonebook m) with
  | (Ok (Some entry), pb) =>
      let m := set_phonebook pb m in
      match mm_LocalLatest m with
      | (Err _, m) => (Err ErrLocalSnapshot, m)
      | (Ok snap, m) =>
          let st := buildState id clusterPath entry snap in
          (Ok {| NodeID := NodeID st; ClusterPath := ClusterPath st; Datacenter := Datacenter st; Region := Region st; ns_Labels := ns_Labels st;
                 ns_Status := ns_Status st; ReliabilityScore := ReliabilityScore st; RunningCapsuleCount := counts clusterPath id;
                 ns_Resources := ns_Resources st |}, m)
      end
  | (_, pb) => (Err ErrLocalUnknown, set_phonebook pb m)
  end.

End Manager.

(** ** Theorems *)

Section Facts.
Context `{I : IPhonebook} `{L : !IPhonebookLaws I} `{R : SqliteReal} `{O : MetricsOrder} `{C : GoConv} `{G : GoRange}.
Context `{P : HealthCodec} `{PL : !HealthLaws P} `{M : MetricsCodec} `{ML : !MetricsLaws M}.
Variables (Sign : bytes -> option bytes) (Verify : bytes -> bytes -> bytes -> bool).

(** *** Membership *)

(** The clusters the manager reports, the topics the publisher holds and the
    subscriptions the loops read agree; a stopped manager has none. *)
Record coherent (m : Manager) : Prop := {
  loops_subscribed : cancels (mm_subscriber m) = p_clusters (mm_publisher m);
  clusters_joined : forall c, is_Some (mm_clusters m !! c) <-> is_Some (p_clusters (mm_publisher m) !! c);
  stopped_left : mm_started m = false -> mm_clusters m = ∅
}.

(** The parts that say which clusters are joined. *)
Definition standing (m : Manager) : gmap string nat * gmap string nat * gmap string unit * bool :=
  (p_clusters (mm_publisher m), cancels (mm_subscriber m), mm_clusters m, mm_started m).

Lemma coherent_standing m m' : standing m' = standing m -> coherent m -> coherent m'.
Proof.
  unfold standing. intros Hs [H1 H2 H3]. injection Hs as E1 E2 E3 E4. split; [congruence| |by rewrite E4, E3].
  intros c. rewrite E1, E3. apply H2.
Qed.

Lemma Publish_standing c snap m : standing (snd (Publish Sign c snap m)) = standing m.
Proof. unfold Publish, topic_Send, mm_now. repeat (case_match; simplify_eq/=; try done). Qed.

Lemma publish_each_standing l snap m : standing (publish_each Sign l snap m) = standing m.
Proof. revert m. induction l as [|c l IH]; intros m; [done|]. cbn [publish_each]. by rewrite IH, Publish_standing. Qed.

Lemma collect_standing smp m : standing (collect Sign smp m) = standing m.
Proof.
  unfold collect. destruct (mm_sampling m); [|done]. cbn [negb]. unfold mm_now. destruct (sampleOnce _ _ _) as [[snap|] col]; [|done].
  unfold handleLocalSnapshot. by rewrite publish_each_standing.
Qed.

Lemma accept_standing c msg m : standing (accept Verify c msg m) = standing m.
Proof.
  unfold accept, verifySignature. destruct (hm_Signature msg); [done|]. destruct (pb_Get _ _ _) as [[[e|]|err] pb]; try done.
  destruct (Verify _ _ _); [|done]. cbn [negb]. by destruct (unmarshalUpdate _).
Qed.

Lemma loop_standing c from data m : standing (loop Verify c from data m) = standing m.
Proof.
  unfold loop, handle, mm_now. repeat (case_match; try done). all: by rewrite accept_standing.
Qed.

Lemma joined_none m c : coherent m -> mm_clusters m !! c = None -> p_clusters (mm_publisher m) !! c = None.
Proof.
  intros [_ H _] Hc. destruct (p_clusters (mm_publisher m) !! c) eqn:E; [|done]. destruct (proj2 (H c)) as [u Hu]; [by rewrite E|]. by rewrite Hc in Hu.
Qed.

(** Joining a cluster succeeds as a whole or changes nothing. *)
Lemma JoinCluster_spec c m : coherent m ->
  match JoinCluster c m with
  | (Ok _, m') => coherent m' /\ (standing m' = standing m \/ exists sub, standing m' = (<[c := sub]> (p_clusters (mm_publisher m)),
      <[c := sub]> (cancels (mm_subscriber m)), <[c := tt]> (mm_clusters m), true))
  | (Err _, m') => standing m' = standing m
  end.
Proof.
  intros Hc. unfold JoinCluster. destruct (mm_started m) eqn:Hst; [|done]. cbn [negb].
  destruct (mc_Enabled (mm_cfg m)); [|by cbn; split; [|left]]. cbn [negb].
  destruct (mm_clusters m !! c) as [[]|] eqn:E; [by rewrite bool_decide_eq_true_2; [split; [|left]|]|]. rewrite bool_decide_eq_false_2 by (by intros []).
  pose proof (joined_none m c Hc E) as Ep. unfold Publisher_JoinCluster. rewrite Ep. destruct (ps_Join _ _) as [[] ps] eqn:Ej; [|done]. cbn [negb].
  destruct (topic_Subscribe ps) as [[sub|] ps'] eqn:Es; [|done]. unfold Subscriber_JoinCluster, SubscriptionFor. cbn [p_clusters with_clusters].
  destruct Hc as [H1 H2 H3]. rewrite H1, Ep, lookup_insert_eq. split; [|right; exists sub; unfold standing; cbn; by rewrite Hst].
  split; cbn.
  - done.
  - intros d. destruct (decide (c = d)) as [->|Hne]; [by rewrite !lookup_insert_eq|]. rewrite !lookup_insert_ne by done. apply H2.
  - by rewrite Hst.
Qed.

Lemma LeaveCluster_coherent c m : coherent m -> coherent (LeaveCluster c m).
Proof.
  intros [H1 H2 H3]. unfold LeaveCluster, LeaveCluster_rest, LeaveCluster_locked, Publisher_LeaveCluster.
  cbn [mm_publisher mm_subscriber mm_clusters set_members mm_upd].
  destruct (p_clusters (mm_publisher m) !! c) as [sub|] eqn:E; split; cbn.
  - by rewrite H1.
  - intros d. destruct (decide (c = d)) as [->|Hne]; [by rewrite !lookup_delete_eq|]. rewrite !lookup_delete_ne by done. apply H2.
  - intros Hs. by rewrite H3, delete_empty.
  - rewrite H1. by apply delete_id.
  - intros d. destruct (decide (c = d)) as [->|Hne]; [rewrite lookup_delete_eq, E; split; by intros []|]. rewrite !lookup_delete_ne by done. apply H2.
  - intros Hs. by rewrite H3, delete_empty.
Qed.

Lemma leave_each (l : list string) p c : p_clusters (fold_left (fun p path => Publisher_LeaveCluster path p) l p) !! c =
  if decide (c ∈ l) then None else p_clusters p !! c.
Proof.
  revert p. induction l as [|d l IH]; intros p; cbn [fold_left].
  { by rewrite decide_False by (by intros ?%elem_of_nil). }
  rewrite IH. destruct (decide (c ∈ l)) as [Hin|Hni]; [by rewrite decide_True by (by right)|].
  unfold Publisher_LeaveCluster. destruct (decide (c = d)) as [->|Hne].
  - rewrite decide_True by (by left). destruct (p_clusters p !! d) eqn:E; [cbn; by rewrite lookup_delete_eq|done].
  - rewrite decide_False by (by intros [?|?]%elem_of_cons). destruct (p_clusters p !! d); [cbn; by rewrite lookup_delete_ne|done].
Qed.

Lemma Stop_coherent m : coherent m -> coherent (Stop m).
Proof.
  intros Hc. unfold Stop. destruct (mm_started m); [|done]. cbn [negb].
  assert (E : p_clusters (fold_left (fun p path => Publisher_LeaveCluster path p) (range (mm_clusters m)).*1 (mm_publisher m)) = ∅).
  { apply map_eq. intros c. rewrite leave_each, lookup_empty. case_decide as Hin; [done|]. destruct (p_clusters (mm_publisher m) !! c) eqn:Ec; [|done].
    destruct (proj2 (clusters_joined m Hc c)) as [u Hu]; [by rewrite Ec|]. destruct Hin. apply list_elem_of_fmap. exists (c, u). by rewrite elem_of_range. }
  split; cbn; rewrite ?E; [done| |done]. intros c. by rewrite !lookup_empty.
Qed.

(** What happens to a manager. *)
Inductive mop :=
  | OStart | OStop | OJoin (c : string) | OLeave (c : string) | OSample (smp : Sampling) | OReceive (c from : string) (data : bytes).
Definition mstep (m : Manager) (o : mop) : Manager :=
  match o with
  | OStart => Start m | OStop => Stop m | OJoin c => snd (JoinCluster c m) | OLeave c => LeaveCluster c m
  | OSample smp => collect Sign smp m | OReceive c from data => loop Verify c from data m
  end.

(** The parts of the manager agree on the clusters.  Whatever
    sequence of starts, stops, joins, leaves, samples and messages a manager
    goes through, with calls of PubSub failing at any time, the clusters it
    reports are those its publisher holds a topic of, and each of them, no
    other, has a loop that reads the publisher's subscription; a join that
    fails leaves all three as they were. *)
Theorem metrics_membership_coherent ops m (Hm : coherent m) :
  let m' := fold_left mstep ops m in
  coherent m' /\ forall c e m'', JoinCluster c m' = (Err e, m'') -> standing m'' = standing m'.
Proof.
  cbv zeta. assert (Hc : coherent (fold_left mstep ops m)).
  { revert m Hm. induction ops as [|o ops IH]; intros m Hm; [done|]. cbn [fold_left]. apply IH. destruct o as [| |c|c|smp|c from data]; cbn [mstep].
    - unfold Start. destruct (mm_started m); [done|]. destruct Hm as [H1 H2 H3]. by split.
    - by apply Stop_coherent.
    - pose proof (JoinCluster_spec c m Hm) as H. destruct (JoinCluster c m) as [[] m']; [apply H|]. by apply (coherent_standing m).
    - by apply LeaveCluster_coherent.
    - apply (coherent_standing m); [apply collect_standing|done].
    - apply (coherent_standing m); [apply loop_standing|done]. }
  split; [done|]. intros c e m'' E. pose proof (JoinCluster_spec c _ Hc) as H. by rewrite E in H.
Qed.

(** A join between the two halves of a leave is undone behind
    the manager's back.  The join succeeds at once, the second half of the
    leave then takes its topic and its loop away, and from then on the manager
    reports the cluster as joined, refuses nothing, and neither publishes to
    it nor hears of it, however often it is joined again. *)
Theorem metrics_leave_race c m snap from data n
    (Hm : coherent m) (Hc : is_Some (mm_clusters m !! c)) (Hs : mm_started m = true) (He : mc_Enabled (mm_cfg m) = true) :
  let m' := LeaveCluster_rest c (snd (JoinCluster c (LeaveCluster_locked c m))) in
  fst (JoinCluster c (LeaveCluster_locked c m)) = Ok tt /\ is_Some (mm_clusters m' !! c) /\
  Nat.iter n (fun m => snd (JoinCluster c m)) m' = m' /\ fst (JoinCluster c m') = Ok tt /\
  Publish Sign c snap m' = (Err ErrNotJoined, m') /\ loop Verify c from data m' = m'.
Proof.
  destruct (proj1 (clusters_joined m Hm c) Hc) as [sub Hsub]. set (m1 := LeaveCluster_locked c m).
  assert (Ej : JoinCluster c m1 = (Ok tt, set_members (mm_publisher m) (mm_subscriber m) (<[c := tt]> (delete c (mm_clusters m))) m1)).
  { unfold JoinCluster. change (mm_started m1) with (mm_started m). change (mm_cfg m1) with (mm_cfg m). rewrite Hs, He. cbn [negb].
    change (mm_clusters m1) with (delete c (mm_clusters m)). change (mm_publisher m1) with (mm_publisher m). change (mm_subscriber m1) with (mm_subscriber m).
    rewrite bool_decide_eq_false_2 by (rewrite lookup_delete_eq; by intros []).
    unfold Publisher_JoinCluster, Subscriber_JoinCluster. by rewrite Hsub, (loops_subscribed m Hm), Hsub. }
  cbv zeta. rewrite Ej. cbn [fst snd]. set (m' := LeaveCluster_rest c _).
  assert (Hin : mm_clusters m' !! c = Some tt) by (cbn; apply lookup_insert_eq).
  assert (Hp : p_clusters (mm_publisher m') !! c = None) by (cbn; unfold Publisher_LeaveCluster; rewrite Hsub; cbn; apply lookup_delete_eq).
  assert (Hl : cancels (mm_subscriber m') !! c = None) by (cbn; apply lookup_delete_eq).
  assert (Ej' : JoinCluster c m' = (Ok tt, m')).
  { unfold JoinCluster. change (mm_started m') with (mm_started m). change (mm_cfg m') with (mm_cfg m). rewrite Hs, He. cbn [negb].
    by rewrite bool_decide_eq_true_2 by (by rewrite Hin). }
  clearbody m'. split_and!; [done|by rewrite Hin| |by rewrite Ej'| |].
  - induction n as [|n IH]; [done|]. change (snd (JoinCluster c (Nat.iter n (fun m => snd (JoinCluster c m)) m')) = m'). by rewrite IH, Ej'.
  - unfold Publish. by rewrite Hp.
  - unfold loop. by rewrite Hl.
Qed.

(** *** Gossip *)

(** Handling an envelope with a good signature stores its snapshot, whatever
    was there before. *)
Lemma accept_spec c msg e u m : sound (mm_phonebook m) -> hm_Signature msg <> [] -> members (mm_phonebook m) !! (hm_SenderId msg, c) = Some e ->
  Verify (e_PublicKey e) (health_content msg) (hm_Signature msg) = true -> unmarshalUpdate (hm_Payload msg) = Some u ->
  mm_store (accept Verify c msg m) =
    snd (UpsertPeer (if ru_NodeId u =s "" then with_id (hm_SenderId msg) (protoToSnapshot u) else protoToSnapshot u) (mm_store m)).
Proof.
  intros Hs Hsig He Hv Hu. unfold accept, verifySignature. destruct (hm_Signature msg) as [|b sig] eqn:Esig; [done|].
  destruct (Get_law (hm_SenderId msg) c (mm_phonebook m) Hs) as (pb & -> & _). rewrite He, Hv. cbn [negb]. by rewrite Hu.
Qed.

(** A message of the topic that passes the checks reaches [accept]. *)
Lemma loop_accepts c from data msg sub m : unmarshalHealth data = Some msg -> cancels (mm_subscriber m) !! c = Some sub -> from <> mm_nodeID m ->
  hm_Type msg = resourceUpdateMessageType -> hm_SenderId msg <> mm_nodeID m ->
  (forall ts, hm_Timestamp msg = Some ts -> time_Sub (mm_clock m (mm_ticks m)) ts <= maxMessageAge) ->
  exists m', loop Verify c from data m = accept Verify c msg m' /\ mm_store m' = mm_store m /\ mm_phonebook m' = mm_phonebook m.
Proof.
  intros Hu Hl Hf Hty Hsd Hts. unfold loop, handle. rewrite Hl, (proj2 (String.eqb_neq _ _) Hf), Hu, Hty, String.eqb_refl, (proj2 (String.eqb_neq _ _) Hsd).
  cbn [negb]. destruct (hm_Timestamp msg) as [ts|]; [|by exists m]. unfold mm_now. specialize (Hts ts eq_refl).
  destruct (Z.ltb_spec maxMessageAge (time_Sub (mm_clock m (mm_ticks m)) ts)); [lia|]. eexists. split; [done|]. done.
Qed.

(** The peer's row after an upsert on a store that works. *)
Lemma upsert_read snap n s : plain_snapshot snap -> sn_NodeID snap <> "" -> healthy n s ->
  fst (PeerLatest (sn_NodeID snap) (snd (UpsertPeer snap s))) = Ok (with_id (sn_NodeID snap) (as_stored snap)) /\
  forall id, id <> sn_NodeID snap -> peer_latest (snd (UpsertPeer snap s)) !! id = peer_latest s !! id.
Proof.
  intros Hp Hid Hh. destruct (bind_plain snap Hp) as (row & Hb & Hc & Hr & _). unfold UpsertPeer.
  rewrite (proj2 (String.eqb_neq _ _) Hid), (stmt_healthy n s Hh), Hb. cbn [negb snd]. set (s1 := ms_upd _ _ _ _ _).
  assert (Hh1 : healthy n s1) by done. unfold PeerLatest. rewrite (stmt_healthy n s1 Hh1). cbn [negb peer_latest ms_upd s1]. split.
  - rewrite lookup_insert_eq. unfold scanRow. rewrite bool_decide_eq_true_2 by done. cbn [fst]. by rewrite Hr.
  - intros id Hne. by rewrite lookup_insert_ne.
Qed.

(** [A]'s key signs, and [B] has it: every message that [A] publishes for
    [snap] encodes, and its signature verifies with the entry of [A]. *)
Definition publishable (A : Manager) (e : Entry) (snap : Snapshot) : Prop :=
  exists payload, marshalUpdate (snapshotToProto snap) = Some payload /\ forall ts,
    let msg sig := {| hm_Type := resourceUpdateMessageType; hm_Payload := payload; hm_SenderId := p_nodeID (mm_publisher A); hm_Timestamp := Some ts;
                      hm_Signature := sig |} in
    exists sig data, Sign (health_content (msg [])) = Some sig /\ sig <> [] /\ marshalHealth (msg sig) = Some data /\
      Verify (e_PublicKey e) (health_content (msg [])) sig = true.

Definition sends (m : Manager) : Prop := forall k, ps_net (p_ps (mm_publisher m)) k = true.

(** What a publication of [snap] looks like on the wire. *)
Definition carries (A : Manager) (e : Entry) (snap : Snapshot) (data : bytes) : Prop := exists msg k, unmarshalHealth data = Some msg /\
  hm_Type msg = resourceUpdateMessageType /\ hm_SenderId msg = p_nodeID (mm_publisher A) /\ hm_Timestamp msg = Some (mm_clock A k) /\
  hm_Signature msg <> [] /\ Verify (e_PublicKey e) (health_content msg) (hm_Signature msg) = true /\
  unmarshalUpdate (hm_Payload msg) = Some (snapshotToProto snap).

Lemma Publish_spec c sub e snap m : publishable m e snap -> sends m -> p_clusters (mm_publisher m) !! c = Some sub -> exists m' data,
  Publish Sign c snap m = (Ok tt, m') /\ carries m e snap data /\ standing m' = standing m /\ sends m' /\ mm_clock m' = mm_clock m /\
  p_nodeID (mm_publisher m') = p_nodeID (mm_publisher m) /\
  ps_wire (p_ps (mm_publisher m')) = ps_wire (p_ps (mm_publisher m)) ++ [(BuildMetricsTopic c, data)].
Proof.
  intros (payload & Hp & Hmsg) Hn Hc. destruct (Hmsg (mm_clock m (mm_ticks m))) as (sig & data & Hs & Hne & Hd & Hv).
  unfold Publish. rewrite Hc, Hp. unfold mm_now, signEnvelope. cbn [mm_publisher mm_upd]. rewrite Hs, Hd. unfold topic_Send, ps_ok.
  rewrite Hn. eexists. exists data. split; [done|]. split_and!; try done.
  eexists _, (mm_ticks m). split; [exact (health_roundtrip _ _ Hd)|]. cbn. split_and!; try done. exact (update_roundtrip _ _ Hp).
Qed.

Lemma carries_same A A' e snap data : mm_clock A' = mm_clock A -> p_nodeID (mm_publisher A') = p_nodeID (mm_publisher A) -> carries A' e snap data -> carries A e snap data.
Proof. intros H1 H2 (msg & k & H). exists msg, k. by rewrite <- H1, <- H2. Qed.

Lemma publishable_same A A' e snap : p_nodeID (mm_publisher A') = p_nodeID (mm_publisher A) -> publishable A e snap -> publishable A' e snap.
Proof. intros H (payload & Hp & H'). exists payload. split; [done|]. by rewrite H. Qed.

(** One message per cluster, in the order of the clusters. *)
Lemma publish_each_spec l e snap m : publishable m e snap -> sends m -> Forall (fun c => is_Some (p_clusters (mm_publisher m) !! c)) l ->
  exists datas, ps_wire (p_ps (mm_publisher (publish_each Sign l snap m))) = ps_wire (p_ps (mm_publisher m)) ++ zip (BuildMetricsTopic <$> l) datas /\
    length datas = length l /\ Forall (carries m e snap) datas.
Proof.
  revert m. induction l as [|c l IH]; intros m Hp Hn Hl; cbn [publish_each]; [exists []; by rewrite app_nil_r|].
  apply list.Forall_cons in Hl as [[sub Hc] Hl]. destruct (Publish_spec c sub e snap m Hp Hn Hc) as (m1 & data & -> & Hcar & Hst & Hn1 & Hck & Hid & Hw).
  cbn [snd]. destruct (IH m1) as (datas & Hw' & Hlen & Hf); [by apply (publishable_same m)|done| |].
  { unfold standing in Hst. injection Hst as -> _ _ _. done. }
  exists (data :: datas). rewrite Hw', Hw, <- app_assoc. cbn. split_and!; [done|by rewrite Hlen|]. constructor; [done|].
  eapply list.Forall_impl; [exact Hf|]. intros d. by apply carries_same.
Qed.

(** C22: samples reach the members.  A node takes a sample of itself,
    whose numbers are finite and whose core count fits 32 bits; its messages can
    be encoded and signed and the network takes them. Then it sends the sample
    once to each cluster it joined. A member of the cluster, another node that
    listens there, has the sender in its phonebook with a key that verifies, and
    the statements of its tables succeed. Whichever of the messages it receives
    not more than 30 seconds after the message's own timestamp, from whatever
    relay, it then has exactly that sample as the node's latest one, to the
    millisecond, and nothing else changes in its table; what it had before,
    older or newer, is replaced. *)
Theorem metrics_gossip_arrives A B e snap n
    (HA : coherent A) (Hsend : sends A) (Hid : sn_NodeID snap = p_nodeID (mm_publisher A)) (Hne : sn_NodeID snap <> "") (Hplain : plain_snapshot snap)
    (Hpub : publishable A e snap) (HsB : sound (mm_phonebook B)) (Hself : mm_nodeID B <> sn_NodeID snap) (Hst : healthy n (mm_store B)) :
  exists datas,
    ps_wire (p_ps (mm_publisher (handleLocalSnapshot Sign snap A))) =
      ps_wire (p_ps (mm_publisher A)) ++ zip (BuildMetricsTopic <$> (range (mm_clusters A)).*1) datas /\
    length datas = size (mm_clusters A) /\
    forall data c relay, data ∈ datas -> members (mm_phonebook B) !! (sn_NodeID snap, c) = Some e -> is_Some (cancels (mm_subscriber B) !! c) -> relay <> mm_nodeID B ->
      (forall msg ts, unmarshalHealth data = Some msg -> hm_Timestamp msg = Some ts -> time_Sub (mm_clock B (mm_ticks B)) ts <= maxMessageAge) ->
      let B' := loop Verify c relay data B in
      fst (PeerLatest (sn_NodeID snap) (mm_store B')) = Ok (with_id (sn_NodeID snap) (as_stored snap)) /\
      forall id, id <> sn_NodeID snap -> peer_latest (mm_store B') !! id = peer_latest (mm_store B) !! id.
Proof.
  unfold handleLocalSnapshot. set (A1 := set_store _ A).
  destruct (publish_each_spec (range (mm_clusters A1)).*1 e snap A1) as (datas & Hw & Hlen & Hf); [done|done| |].
  { apply list.Forall_forall. intros c ([c' u] & -> & Hc)%list_elem_of_fmap. apply elem_of_range in Hc. cbn. by apply (clusters_joined A HA). }
  exists datas. split; [exact Hw|]. split; [by rewrite Hlen, length_fmap, length_range|].
  intros data c relay Hd He [sub Hsub] Hrel Htime. rewrite list.Forall_forall in Hf. destruct (Hf data Hd) as (msg & k & Hu & Hty & Hsd & Hts & Hsig & Hv & Hup).
  change (p_nodeID (mm_publisher A1)) with (p_nodeID (mm_publisher A)) in Hsd. change (mm_clock A1) with (mm_clock A) in Hts.
  destruct (loop_accepts c relay data msg sub B Hu Hsub Hrel Hty) as (m' & -> & Hst' & Hpb').
  { rewrite Hsd, <- Hid. congruence. }
  { intros ts Hts'. by apply (Htime msg). }
  cbv zeta. rewrite (accept_spec c msg e (snapshotToProto snap) m'), Hst'; [|by rewrite Hpb'|done|by rewrite Hpb', Hsd, <- Hid|done|done].
  change (ru_NodeId (snapshotToProto snap)) with (sn_NodeID snap). rewrite (proj2 (String.eqb_neq _ _) Hne), proto_snapshot. by apply (upsert_read snap n).
Qed.

(** Only signed samples count.  A message whose signature
    does not verify with the key that the phonebook has for its sender in that
    cluster, or whose sender is not a member, changes neither table. *)
Theorem metrics_ignores_unverified c from data m (Hs : sound (mm_phonebook m))
    (Hbad : forall msg e, unmarshalHealth data = Some msg -> members (mm_phonebook m) !! (hm_SenderId msg, c) = Some e ->
              Verify (e_PublicKey e) (health_content msg) (hm_Signature msg) = false) :
  mm_store (loop Verify c from data m) = mm_store m /\ members (mm_phonebook (loop Verify c from data m)) = members (mm_phonebook m).
Proof.
  assert (Ha : forall msg m', unmarshalHealth data = Some msg -> mm_store m' = mm_store m -> mm_phonebook m' = mm_phonebook m ->
     mm_store (accept Verify c msg m') = mm_store m /\ members (mm_phonebook (accept Verify c msg m')) = members (mm_phonebook m)).
  { intros msg m' Hu Es Ep. unfold accept, verifySignature. destruct (hm_Signature msg) as [|b sig] eqn:Esig; [cbn [negb]; by rewrite Es, Ep|]. rewrite Ep.
    destruct (Get_law (hm_SenderId msg) c (mm_phonebook m) Hs) as (pb & -> & _ & Hm). destruct (members (mm_phonebook m) !! _) as [e|] eqn:He; [|by split].
    specialize (Hbad msg e Hu He). rewrite Esig in Hbad. rewrite Hbad. done. }
  unfold loop, handle, mm_now. repeat (case_match; try done). all: by apply Ha.
Qed.

(** A member can speak for another node.  The node in the
    payload is not compared with the sender of the envelope: a sample that a
    member signs in the name of [victim] replaces the victim's own. *)
Theorem metrics_forged_node c relay data msg e snap n m
    (Hu : unmarshalHealth data = Some msg) (Hty : hm_Type msg = resourceUpdateMessageType) (Hsub : is_Some (cancels (mm_subscriber m) !! c))
    (Hrel : relay <> mm_nodeID m) (Hsender : hm_SenderId msg <> mm_nodeID m) (Hsig : hm_Signature msg <> [])
    (Hts : forall ts, hm_Timestamp msg = Some ts -> time_Sub (mm_clock m (mm_ticks m)) ts <= maxMessageAge)
    (Hs : sound (mm_phonebook m)) (He : members (mm_phonebook m) !! (hm_SenderId msg, c) = Some e)
    (Hv : Verify (e_PublicKey e) (health_content msg) (hm_Signature msg) = true)
    (Hpay : unmarshalUpdate (hm_Payload msg) = Some (snapshotToProto snap)) (Hvictim : sn_NodeID snap <> hm_SenderId msg) (Hne : sn_NodeID snap <> "")
    (Hplain : plain_snapshot snap) (Hst : healthy n (mm_store m)) :
  fst (PeerLatest (sn_NodeID snap) (mm_store (loop Verify c relay data m))) = Ok (with_id (sn_NodeID snap) (as_stored snap)).
Proof.
  destruct Hsub as [sub Hsub]. destruct (loop_accepts c relay data msg sub m Hu Hsub Hrel Hty Hsender Hts) as (m' & -> & Hst' & Hpb').
  rewrite (accept_spec c msg e (snapshotToProto snap) m'), Hst'; [|by rewrite Hpb'|done|by rewrite Hpb'|done|done].
  change (ru_NodeId (snapshotToProto snap)) with (sn_NodeID snap). rewrite (proj2 (String.eqb_neq _ _) Hne), proto_snapshot.
  by destruct (upsert_read snap n (mm_store m) Hplain Hne Hst) as [-> _].
Qed.

End Facts.

(** *** The provider *)

Section Provider.
Context `{C : GoConv}.

Lemma f64_small z : 0 <= z <= 2 ^ 31 -> finite (f64_of_Z z) /\ key (f64_of_Z z) = z * 2 ^ scale.
Proof. intros Hz. split; [apply finite_of_int64; unfold in_int64, min_int64, max_int64; lia|apply key_of_Z_exact; lia]. Qed.

(** The doubles of [computeFreeCPU] below 100 percent. *)
Definition free_share (used : f64) : f64 := (f64_of_Z 1 - used / f64_of_Z 100)%f64.

Lemma key_zero s : key (f64_zero s) = 0.
Proof. by destruct s; vm_compute. Qed.

Lemma free_share_spec used : finite used -> 0 <= key used <= key (f64_of_Z 100) ->
  finite (free_share used) /\ 0 <= key (free_share used) <= key (f64_of_Z 1).
Proof.
  intros Fu Hu. destruct (f64_small 1 ltac:(lia)) as [F1 K1]. destruct (f64_small 100 ltac:(lia)) as [F100 K100]. pose proof scale_pos as Hs.
  destruct (f64_div_spec used (f64_of_Z 100) Fu F100) as [Nq Kq]; [lia|]. unfold free_share. set (q := (used / f64_of_Z 100)%f64) in *. clearbody q.
  assert (Hq : 0 <= key q <= key (f64_of_Z 1)).
  { rewrite Kq. split; [apply key_round_nonneg; [lia|]; clear -Hu Hs; nia|]. apply (key_round_le _ _ _ F1); [lia|]. rewrite K1, K100 in *. clear -Hu Hs. nia. }
  assert (Fq : finite q) by (apply (finite_between q (f64_zero false) (f64_of_Z 1)); [done|apply f64_zero_finite|done|by rewrite key_zero]).
  destruct (f64_sub_spec (f64_of_Z 1) q F1 Fq) as [Nd Kd]. set (d := (f64_of_Z 1 - q)%f64) in *. clearbody d.
  assert (Hd : 0 <= key d <= key (f64_of_Z 1)).
  { rewrite Kd. split; [apply key_round_nonneg; lia|]. apply (key_round_le _ _ _ F1); lia. }
  split; [|done]. apply (finite_between d (f64_zero false) (f64_of_Z 1)); [done|apply f64_zero_finite|done|by rewrite key_zero].
Qed.

Lemma free_share_antitone u v : finite u -> finite v -> 0 <= key u -> key u <= key v -> key v <= key (f64_of_Z 100) -> key (free_share v) <= key (free_share u).
Proof.
  intros Fu Fv Hu Huv Hv. destruct (f64_small 1 ltac:(lia)) as [F1 K1]. destruct (f64_small 100 ltac:(lia)) as [F100 K100]. pose proof scale_pos as Hs.
  destruct (f64_div_spec u (f64_of_Z 100) Fu F100) as [Nu Ku]; [lia|]. destruct (f64_div_spec v (f64_of_Z 100) Fv F100) as [Nv Kv]; [lia|].
  assert (Hq : forall x, finite x -> 0 <= key x <= key (f64_of_Z 100) -> number (x / f64_of_Z 100)%f64 ->
    key (x / f64_of_Z 100)%f64 = key_round (key x * 2 ^ scale) (key (f64_of_Z 100)) -> finite (x / f64_of_Z 100)%f64).
  { intros x Fx Hx Nx Kx. apply (finite_between _ (f64_zero false) (f64_of_Z 1)); [done|apply f64_zero_finite|done|]. rewrite key_zero, Kx.
    split; [apply key_round_nonneg; [lia|]; clear -Hx Hs; nia|]. apply (key_round_le _ _ _ F1); [lia|]. rewrite K1, K100 in *. clear -Hx Hs. nia. }
  unfold free_share. rewrite !key_sub by first [assumption | apply Hq; first [assumption | lia]].
  apply key_round_mono; [lia..|]. rewrite Ku, Kv.
  assert (key_round (key u * 2 ^ scale) (key (f64_of_Z 100)) <= key_round (key v * 2 ^ scale) (key (f64_of_Z 100))); [|lia].
  apply key_round_mono; [lia..|]. clear -Huv Hs K100. rewrite K100. nia.
Qed.

Lemma f64_to_int32_spec x n : finite x -> 0 <= key x <= n * 2 ^ scale -> 0 <= n < 2 ^ 31 -> f64_to_int32 x = key x / 2 ^ scale /\ 0 <= key x / 2 ^ scale <= n.
Proof.
  intros Fx Hx Hn. pose proof scale_pos as Hs. unfold f64_to_int32.
  rewrite f64_to_int64_spec; [|done|lia|unfold max_int64; clear -Hx Hn Hs; nia].
  assert (Hb : 0 <= key x / 2 ^ scale <= n) by (split; [apply Z.div_pos; lia|apply Z.div_le_upper_bound; lia]).
  split; [|done]. destruct (Z.leb_spec (- 2 ^ 31) (key x / 2 ^ scale)), (Z.ltb_spec (key x / 2 ^ scale) (2 ^ 31)); cbn [andb]; lia || done.
Qed.

(** The free cores below 100 percent. *)
Lemma free_product cores used : 0 < cores < 2 ^ 31 -> finite used -> 0 <= key used <= key (f64_of_Z 100) ->
  let p := (f64_of_Z cores * free_share used)%f64 in
  f64_to_int32 p = key p / 2 ^ scale /\ 0 <= key p / 2 ^ scale <= cores /\ key p = key_round (key (f64_of_Z cores) * key (free_share used)) (2 ^ scale).
Proof.
  intros Hc Fu Hu. destruct (free_share_spec used Fu Hu) as [Fs Hs]. destruct (f64_small cores ltac:(lia)) as [Fc Kc].
  destruct (f64_small 1 ltac:(lia)) as [F1 K1]. pose proof scale_pos as Hsc. cbv zeta. destruct (f64_mul_spec (f64_of_Z cores) (free_share used) Fc Fs) as [Np Kp].
  set (p := (f64_of_Z cores * free_share used)%f64) in *. clearbody p.
  assert (Hp : 0 <= key p <= key (f64_of_Z cores)).
  { rewrite Kp. split; [apply key_round_nonneg; [lia|]; rewrite Kc; clear -Hc Hs Hsc; nia|]. apply (key_round_le _ _ _ Fc); [lia|].
    rewrite K1 in Hs. rewrite Kc. clear -Hc Hs Hsc. nia. }
  assert (Fp : finite p) by (apply (finite_between p (f64_zero false) (f64_of_Z cores)); [done|apply f64_zero_finite|done|by rewrite key_zero]).
  rewrite Kc in Hp. destruct (f64_to_int32_spec p cores Fp Hp ltac:(lia)) as [E Hb]. exact (conj E (conj Hb Kp)).
Qed.

(** The three cases of [computeFreeCPU] for a usage that is a number. *)
Lemma computeFreeCPU_cases cores used : number used -> cores < 2 ^ 31 ->
  computeFreeCPU cores used =
    if cores <=? 0 then 0 else if key used <=? 0 then cores else if key (f64_of_Z 100) <=? key used then 0
    else key (f64_of_Z cores * free_share used)%f64 / 2 ^ scale.
Proof.
  intros Hn Hc. unfold computeFreeCPU, f64_ge. destruct (Z.leb_spec cores 0); [done|].
  destruct (f64_small 100 ltac:(lia)) as [F100 K100]. assert (N0 : number (f64_zero false)) by apply finite_number, f64_zero_finite. assert (N100 : number (f64_of_Z 100)) by apply f64_of_Z_spec.
  rewrite !f64_le_spec, key_zero by assumption.
  destruct (Z.leb_spec (key used) 0); [done|]. destruct (Z.leb_spec (key (f64_of_Z 100)) (key used)); [done|].
  assert (Fu : finite used) by (apply (finite_between used (f64_zero false) (f64_of_Z 100)); [done|apply f64_zero_finite|done|rewrite key_zero; lia]).
  destruct (free_product cores used) as [E _]; [lia|done|lia|exact E].
Qed.

Lemma computeFreeCPU_sound cores used used' : in_int32 cores -> number used -> number used' -> key used <= key used' ->
  0 <= computeFreeCPU cores used <= Z.max 0 cores /\ computeFreeCPU cores used' <= computeFreeCPU cores used.
Proof.
  intros Hc Hn Hn' Hle. unfold in_int32 in Hc. destruct (f64_small 100 ltac:(lia)) as [F100 K100].
  assert (Hfin : forall x, number x -> 0 < key x < key (f64_of_Z 100) -> finite x).
  { intros x Nx Hx. apply (finite_between x (f64_zero false) (f64_of_Z 100)); [done|apply f64_zero_finite|done|rewrite key_zero; lia]. }
  rewrite !computeFreeCPU_cases by first [assumption | lia]. destruct (Z.leb_spec cores 0); [lia|]. pose proof scale_pos as Hs.
  destruct (Z.leb_spec (key used) 0), (Z.leb_spec (key used') 0), (Z.leb_spec (key (f64_of_Z 100)) (key used)),
    (Z.leb_spec (key (f64_of_Z 100)) (key used')); try lia.
  - destruct (free_product cores used') as (_ & Hb & _); [lia|apply Hfin; [done|lia]|lia|lia].
  - destruct (free_product cores used) as (_ & Hb & _); [lia|apply Hfin; [done|lia]|lia|lia].
  - destruct (free_product cores used) as (_ & Hb & E); [lia|apply Hfin; [done|lia]|lia|].
    destruct (free_product cores used') as (_ & Hb' & E'); [lia|apply Hfin; [done|lia]|lia|].
    split; [lia|]. apply Z.div_le_mono; [lia|]. rewrite E, E'. apply key_round_mono; [lia..|].
    apply Z.mul_le_mono_nonneg_r; [lia|]. apply Z.mul_le_mono_nonneg_l; [apply key_of_Z_nonneg; lia|].
    apply free_share_antitone; [apply Hfin; [done|lia]|apply Hfin; [done|lia]|lia|lia|lia].
Qed.

(** Free cores stay within the host and fall with its load.  For
    any number of cores of an [int32] and any usage that is a number, the free
    cores the election sees lie between 0 and the cores of the host, and a
    higher usage never gives more of them, with rounding included. *)
Theorem metrics_free_cpu_sound cores used used'
    (Hc : in_int32 cores) (Hn : number used) (Hn' : number used') (Hle : key used <= key used') :
  0 <= computeFreeCPU cores used <= Z.max 0 cores /\ computeFreeCPU cores used' <= computeFreeCPU cores used.
Proof. by apply computeFreeCPU_sound. Qed.

End Provider.

Section LocalState.
Context `{I : IPhonebook} `{L : !IPhonebookLaws I} `{R : SqliteReal} `{O : MetricsOrder} `{C : GoConv} `{G : GoRange}.

(** Rows and entries hold values of their types; no stored real is a NaN. *)
Definition row_typed (r : Z * SnapCols) : Prop :=
  in_int32 (Cores (c_cpu r.2)) /\ number (cpu_UsedPercent (c_cpu r.2)) /\ in_int64 (mem_TotalMB (c_mem r.2)) /\ in_int64 (AvailableMB (c_mem r.2)) /\
  in_int64 (disk_TotalMB (c_disk r.2)) /\ in_int64 (FreeMB (c_disk r.2)).
Definition entry_typed (e : Entry) : Prop :=
  number (e_SuccessRate e) /\ forall caps, e_Capabilities e = Some caps -> in_int32 (cap_CPUCores caps) /\ in_int64 (cap_MemoryMB caps).

Lemma buildState_typed id c e snap : entry_typed e -> in_int32 (Cores (sn_CPU snap)) -> number (cpu_UsedPercent (sn_CPU snap)) ->
  in_int64 (mem_TotalMB (sn_Memory snap)) -> in_int64 (AvailableMB (sn_Memory snap)) -> in_int64 (disk_TotalMB (sn_Disk snap)) -> in_int64 (FreeMB (sn_Disk snap)) ->
  node_typed (buildState id c e snap).
Proof.
  intros [[Hwf _] Hcaps] H1 H2 H3 H4 H5 H6. unfold node_typed, buildState. cbn [ns_Resources RunningCapsuleCount ReliabilityScore].
  assert (H0 : in_int64 0) by done. destruct (negb (CapturedAt snap =? zero_time)).
  - cbn. split_and!; try done. destruct (computeFreeCPU_sound (Cores (sn_CPU snap)) _ _ H1 H2 H2 ltac:(done)) as [Hb _]. unfold in_int32 in *. lia.
  - destruct (e_Capabilities e) as [caps|] eqn:Ec; [|by cbn]. destruct (Hcaps caps eq_refl) as [Ha Hb]. cbn. split_and!; try done; apply int64_range.
Qed.

(** The election always has a usable score of the local
    node.  When the node is in its own phonebook and the tables hold values of
    their types, [LocalNode] answers with the identity, status and reliability
    of that entry and the resources of the latest sample (or of the entry when
    there is none), and the gravity score of any capsule for this answer is a
    number of [0, 100]. *)
Theorem metrics_local_scored counts c e n m
    (Hs : sound (mm_phonebook m)) (He : members (mm_phonebook m) !! (mm_nodeID m, c) = Some e) (Hty : entry_typed e)
    (Hst : healthy n (mm_store m)) (Hrows : Forall row_typed (local_history (mm_store m))) (Hcount : forall c id, in_int64 (counts c id)) :
  exists st m', LocalNode counts c m = (Ok st, m') /\ NodeID st = mm_nodeID m /\ ns_Status st = translateStatus (e_Status e) /\
    ReliabilityScore st = e_SuccessRate e /\ RunningCapsuleCount st = counts c (mm_nodeID m) /\
    match list.last (local_history (mm_store m)) with
    | Some (_, row) => captured_at row <> UnixMilli zero_time -> MemoryMBFree (ns_Resources st) = AvailableMB (c_mem row)
    | None => forall caps, e_Capabilities e = Some caps -> CPUCoresFree (ns_Resources st) = cap_CPUCores caps
    end /\
    forall k cap, weights_sane (weights k) -> capsule_typed cap -> between f0 f100 (Score (Calculate k cap st)).
Proof.
  unfold LocalNode. destruct (Get_law (mm_nodeID m) c (mm_phonebook m) Hs) as (pb & -> & _ & _). rewrite He. unfold mm_LocalLatest, LocalLatest.
  change (mm_store (set_phonebook pb m)) with (mm_store m). rewrite (stmt_healthy n _ Hst). cbn [negb local_history ms_upd].
  assert (Hsc : forall st k cap, node_typed st -> is_nan (ReliabilityScore st) = false -> weights_sane (weights k) -> capsule_typed cap ->
    between f0 f100 (Score (Calculate k cap st))) by (intros st k cap Hn Hr Hw Hc; by apply gravity_score_in_scale).
  assert (Hnt : forall st, node_typed st -> node_typed {| NodeID := NodeID st; ClusterPath := ClusterPath st; Datacenter := Datacenter st; Region := Region st;
    ns_Labels := ns_Labels st; ns_Status := ns_Status st; ReliabilityScore := ReliabilityScore st; RunningCapsuleCount := counts c (mm_nodeID m);
    ns_Resources := ns_Resources st |}) by (intros st H; unfold node_typed in *; cbn; destruct H as (? & ? & ? & ? & ? & ? & _ & ?); by split_and!).
  destruct (list.last (local_history (mm_store m))) as [[i row]|] eqn:El.
  - assert (Hr : row_typed (i, row)) by (rewrite list.Forall_forall in Hrows; apply Hrows; apply last_Some in El as [l' ->]; apply elem_of_app; right; by left).
    destruct Hr as (H1 & H2 & H3 & H4 & H5 & H6). unfold scanRow. rewrite bool_decide_eq_true_2 by done.
    eexists _, _. split; [done|]. cbn [NodeID ns_Status ReliabilityScore RunningCapsuleCount]. split_and!; try done.
    + intros Hz. cbn. destruct (Z.eqb_spec (of_UnixMilli (captured_at row)) zero_time) as [E|_]; [|done]. destruct Hz. rewrite <- E. unfold UnixMilli, of_UnixMilli. by rewrite Z.div_mul.
    + intros k cap. apply Hsc; [|by destruct Hty as [[_ ?] _]]. apply Hnt. by apply buildState_typed.
  - eexists _, _. split; [done|]. cbn [NodeID ns_Status ReliabilityScore RunningCapsuleCount]. split_and!; try done.
    + intros caps Hcaps. cbn. by rewrite Hcaps.
    + intros k cap. apply Hsc; [|by destruct Hty as [[_ ?] _]]. apply Hnt. by apply buildState_typed.
Qed.

End LocalState.

(** ** Two nodes *)

Module GossipDemo.
Import PhonebookDemo HealthDemo wire MetricsDemo.

#[local] Existing Instances MonitorDemo.health_message_dec MonitorDemo.health_message_countable.
#[local] Existing Instance MonitorDemo.demo_codec.
#[local] Existing Instance MonitorDemo.demo_laws.
#[local] Instance update_eq_dec : EqDecision ResourceUpdate. Proof. solve_decision. Defined.

(** A codec for two messages: a sample of [n1] and one in the name of [n3]. *)
Definition sample : Snapshot := snapshot 4.
Definition forged : Snapshot := with_id "n3" sample.
#[local] Instance two_updates : MetricsCodec := {|
  marshalUpdate := fun u => if decide (u = snapshotToProto sample) then Some [Ascii.one] else if decide (u = snapshotToProto forged) then Some [Ascii.zero] else None;
  unmarshalUpdate := fun b => if decide (b = [Ascii.one]) then Some (snapshotToProto sample) else if decide (b = [Ascii.zero]) then Some (snapshotToProto forged) else None |}.
#[local] Instance two_updates_laws : MetricsLaws two_updates.
Proof. split. intros u b E. cbn in *. repeat (case_decide; simplify_eq; try done). Qed.

Abbreviation Sign := MonitorDemo.demo_sign.
Abbreviation Verify := MonitorDemo.demo_verify.

Definition pubsub : PubSub := {| ps_topics := ∅; ps_next := 0; ps_wire := []; ps_net := fun _ => true; ps_calls := 0 |}.
Definition new_manager (id : string) : Manager (I := sqlite_phonebook) := {|
  mm_cfg := DefaultConfig; mm_nodeID := id; mm_store := MetricsDemo.store; mm_collector := NewCollector id; mm_sampling := false;
  mm_publisher := {| p_clusters := ∅; p_ps := pubsub; p_nodeID := id |}; mm_subscriber := {| cancels := ∅ |}; mm_phonebook := book;
  mm_clusters := ∅; mm_started := false; mm_clock := fun _ => MetricsDemo.clock 5; mm_ticks := 0 |}.
Definition node (id : string) : Manager := snd (JoinCluster cluster (Start (new_manager id))).

Lemma new_coherent id : coherent (new_manager id).
Proof. split; [done| |done]. intros c. cbn. by rewrite !lookup_empty. Qed.

Lemma metrics_membership_coherent_witness :
  coherent (fold_left (mstep Sign Verify) [OStart; OJoin cluster; OJoin "eu/dc2/prod"; OSample (sampling 1); OLeave cluster; OJoin cluster] (new_manager "n1")).
Proof. apply (metrics_membership_coherent Sign Verify _ (new_manager "n1")). apply new_coherent. Defined.

Lemma node_coherent id : coherent (node id).
Proof.
  unfold node. pose proof (JoinCluster_spec cluster (Start (new_manager id))) as H. destruct (JoinCluster cluster (Start (new_manager id))) as [[] m] eqn:E.
  - apply H. destruct (new_coherent id). by split.
  - cbn [snd]. apply (coherent_standing (Start (new_manager id))); [|destruct (new_coherent id); by split]. apply H. destruct (new_coherent id). by split.
Qed.

Lemma metrics_leave_race_witness : is_Some (mm_clusters (LeaveCluster_rest cluster (snd (JoinCluster cluster (LeaveCluster_locked cluster (node "n1"))))) !! cluster) /\
  fst (Publish Sign cluster sample (LeaveCluster_rest cluster (snd (JoinCluster cluster (LeaveCluster_locked cluster (node "n1")))))) = Err ErrNotJoined.
Proof.
  destruct (metrics_leave_race Sign Verify cluster (node "n1") sample "n2" [] 0) as (_ & H1 & _ & _ & H2 & _);
    [apply node_coherent|by eexists; vm_compute|done|done|]. split; [exact H1|]. by rewrite H2.
Defined.

Lemma n1_known : exists e, members (mm_phonebook (node "n2")) !! ("n1", cluster) = Some e.
Proof.
  assert (E : bool_decide (is_Some (pb_members book !! ("n1", cluster))) = true) by (vm_compute; reflexivity). apply bool_decide_eq_true in E as [e He].
  exists e. exact He.
Qed.

Lemma sample_publishable e : publishable Sign Verify (node "n1") e sample.
Proof.
  exists [Ascii.one]. split; [cbn; by rewrite decide_True|]. intros ts msg. destruct (wire.wire_total (msg (Ascii.one :: health_content (msg [])))) as [data Hd].
  exists (Ascii.one :: health_content (msg [])), data. split_and!; [done|done|exact Hd|]. by apply bool_decide_eq_true_2.
Qed.

Lemma metrics_gossip_arrives_witness : exists data, ps_wire (p_ps (mm_publisher (handleLocalSnapshot Sign sample (node "n1")))) = [(BuildMetricsTopic cluster, data)] /\
  fst (PeerLatest "n1" (mm_store (loop Verify cluster "n3" data (node "n2")))) = Ok (with_id "n1" (as_stored sample)).
Proof.
  destruct n1_known as [e He].
  destruct (metrics_gossip_arrives Sign Verify (node "n1") (node "n2") e sample 0) as (datas & Hw & Hlen & Hd).
  - apply node_coherent.
  - intros k. by vm_compute.
  - by vm_compute.
  - by vm_compute.
  - apply snapshot_plain.
  - apply sample_publishable.
  - exact book_sound.
  - by vm_compute.
  - split_and!; by vm_compute.
  - change ((range (mm_clusters (node "n1"))).*1) with [cluster] in Hw. change (size (mm_clusters (node "n1"))) with 1%nat in Hlen.
    destruct datas as [|data [|? ?]]; [done| |done]. exists data. split; [exact Hw|].
    apply (Hd data cluster "n3"); [by left|exact He|by eexists; vm_compute|done|].
    intros msg ts Hm Hts. assert (Ht : ts = MetricsDemo.clock 5); [|subst ts; by vm_compute].
    assert (Hdata : data = snd (List.hd ("", []) (ps_wire (p_ps (mm_publisher (handleLocalSnapshot Sign sample (node "n1"))))))) by (by rewrite Hw).
    rewrite Hdata in Hm. vm_compute in Hm. injection Hm as <-. injection Hts as <-. reflexivity.
Defined.

(** A message nobody signed. *)
Definition unsigned : HealthMessage :=
  {| hm_Type := resourceUpdateMessageType; hm_Payload := [Ascii.one]; hm_SenderId := "n1"; hm_Timestamp := None; hm_Signature := [Ascii.zero] |}.

Lemma metrics_ignores_unverified_witness : exists data, marshalHealth unsigned = Some data /\
  mm_store (loop Verify cluster "n1" data (node "n2")) = mm_store (node "n2").
Proof.
  destruct (wire.wire_total unsigned) as [data Hd]. exists data. split; [exact Hd|].
  apply (metrics_ignores_unverified Verify cluster "n1" data (node "n2")); [exact book_sound|].
  intros msg e Hm _. change (marshalHealth unsigned = Some data) in Hd. rewrite (health_roundtrip _ _ Hd) in Hm. injection Hm as <-. by vm_compute.
Defined.

(** [n1] signs a sample of [n3]. *)
Definition forgery : HealthMessage :=
  let msg sig := {| hm_Type := resourceUpdateMessageType; hm_Payload := [Ascii.zero]; hm_SenderId := "n1"; hm_Timestamp := None; hm_Signature := sig |} in
  msg (Ascii.one :: health_content (msg [])).

Lemma metrics_forged_node_witness : exists data, marshalHealth forgery = Some data /\
  fst (PeerLatest "n3" (mm_store (loop Verify cluster "n1" data (node "n2")))) = Ok (with_id "n3" (as_stored forged)).
Proof.
  destruct n1_known as [e He]. destruct (wire.wire_total forgery) as [data Hd]. exists data. split; [exact Hd|].
  apply (metrics_forged_node Verify cluster "n1" data forgery e forged 0 (node "n2")).
  - apply health_roundtrip. exact Hd.
  - done.
  - by eexists; vm_compute.
  - by vm_compute.
  - by vm_compute.
  - done.
  - done.
  - exact book_sound.
  - exact He.
  - by vm_compute.
  - by vm_compute.
  - done.
  - done.
  - exact (snapshot_plain 4).
  - split_and!; by vm_compute.
Defined.

Lemma metrics_free_cpu_sound_witness : computeFreeCPU 8 (f64_of_Z 25) = 6 /\ computeFreeCPU 8 (f64_of_Z 60) <= computeFreeCPU 8 (f64_of_Z 25).
Proof.
  split; [by vm_compute|]. apply (metrics_free_cpu_sound 8 (f64_of_Z 25) (f64_of_Z 60)); [by compute|apply f64_of_Z_spec..|]. by apply f64_of_Z_mono.
Defined.

Definition sampled : Manager := handleLocalSnapshot Sign sample (node "n1").

Lemma metrics_local_scored_witness : exists st m', LocalNode noCapsuleCounts cluster sampled = (Ok st, m') /\ ns_Status st = "active".
Proof.
  assert (E : (fun e => (e_Status e, is_nan (e_SuccessRate e), bool_decide (finiteb (e_SuccessRate e)), e_Capabilities e)) <$> pb_members book !! ("n1", cluster) =
    Some ("active", false, true, None)) by (vm_compute; reflexivity).
  destruct (pb_members book !! ("n1", cluster)) as [e|] eqn:He; [|discriminate E]. injection E as E1 E2 E3 E4.
  destruct (metrics_local_scored noCapsuleCounts cluster e 0 sampled) as (st & m' & H1 & _ & H2 & _).
  - exact book_sound.
  - exact He.
  - split; [apply finite_number, finiteb_finite; apply bool_decide_eq_true in E3; by apply Is_true_true|]. intros caps Hc. by rewrite E4 in Hc.
  - split_and!; by vm_compute.
  - change (Forall row_typed [(1, default (Build_SnapCols 0 (sn_CPU sample) (sn_Memory sample) (sn_Disk sample) (sn_Load sample) (sn_Network sample)) (bind_cols sample))]).
    constructor; [|constructor]. split_and!; by vm_compute.
  - intros c id. by compute.
  - exists st, m'. split; [exact H1|]. rewrite H2, E1. by vm_compute.
Defined.

End GossipDemo.
