(* ===== verification/Auth.v ===== *)
(** * Authentication: keys, sessions, topics ([node/auth/authenticator.go])

    The state of the authenticator and the operations that are not part of a
    handshake: the keys derived from the pre-shared key ([clusterkeys]),
    certificate providers and revocation lists, the auth topics, the sessions
    with their staleness, and the signed messages on the topics.

    The package [certs] is not part of the repository; it is the interface
    [Certs].  The PubSub library documents that a topic can be joined once and
    that [Close] fails while it has subscriptions; [ap_topics] counts the
    subscriptions of every joined topic.  A dereference of a nil pointer sets
    [au_crashed]. *)

From S2P Require Import Prelude ElectionTopic Orbit Internals Shared Phonebook HealthMonitor RuntimeNode Syncer.
Import signing secrets subscriber.
Local Open Scope string_scope.
Local Open Scope list_scope.
Local Open Scope Z_scope.

(** ** Keys: [clusterkeys/keys.go] *)

Module Export clusterkeys.

Definition ClusterRootKeyInfo : string := "falak-cluster-root-key-v1".
Definition HMACKeyInfo : string := "falak-cluster-hmac-key-v1".
Definition HMACKeySize : Z := 32.
Definition Ed25519SeedSize : Z := 32.

(** HMAC over SHA-256, Ed25519 keys of a seed, and libp2p public keys in
    their marshalled form: whether one parses, and verification with it. *)
Class AuthCrypto := {
  hmac_sha256 : bytes -> bytes -> bytes;
  ed_public : bytes -> bytes; ed_Sign : bytes -> bytes -> bytes; ed_Verify : bytes -> bytes -> bytes -> bool;
  key_parses : bytes -> bool; key_Verify : bytes -> bytes -> bytes -> bool
}.

(** The private key is its seed. *)
Record ClusterRootKey := { rk_PublicKey : bytes; rk_PrivateKey : bytes }.
Inductive KeyError := ErrKeyEmptyPSK | ErrKeyEmptyPath | ErrKeyHKDF.

Section Keys.
Context `{A : Aead} `{K : AuthCrypto}.

Definition derive (info : string) (size : Z) (psk : bytes) (clusterPath : string) : result KeyError bytes :=
  if (length psk =? 0)%nat then Err ErrKeyEmptyPSK
  else if clusterPath =s "" then Err ErrKeyEmptyPath
  else match hkdf psk (list_ascii_of_string clusterPath) (list_ascii_of_string info) size with
       | None => Err ErrKeyHKDF
       | Some key => Ok key
       end.

Definition DeriveClusterRootKey (psk : bytes) (clusterPath : string) : result KeyError ClusterRootKey :=
  match derive ClusterRootKeyInfo Ed25519SeedSize psk clusterPath with
  | Err e => Err e
  | Ok seed => Ok {| rk_PublicKey := ed_public seed; rk_PrivateKey := seed |}
  end.
Definition DeriveHMACKey (psk : bytes) (clusterPath : string) : result KeyError bytes := derive HMACKeyInfo HMACKeySize psk clusterPath.

Definition RootKey_Sign (k : ClusterRootKey) (data : bytes) : bytes := ed_Sign (rk_PrivateKey k) data.
Definition RootKey_Verify (k : ClusterRootKey) (data signature : bytes) : bool := ed_Verify (rk_PublicKey k) data signature.

End Keys.
End clusterkeys.

(** ** Messages of [auth.proto] *)

Record AuthCapabilities := {
  ac_CpuCores : Z; ac_MemoryMb : Z; ac_DiskGb : Z; ac_Datacenter : string; ac_Tags : list string; ac_Metadata : option (gmap string string)
}.
Record NodeCertificate := {
  nc_NodeId : string; nc_NodePublicKey : bytes; nc_ClusterPath : string; nc_IssuerNodeId : string; nc_IssuedAt : option Time;
  nc_ExpiresAt : option Time; nc_Signature : bytes; nc_IsSelfSigned : bool
}.
Record AuthMessage := { am_Type : string; am_Payload : bytes; am_SenderId : string; am_Timestamp : option Time; am_Signature : option bytes }.
Record NewMemberAnnouncement := {
  na_NewNodeId : string; na_NewNodeAddrs : list string; na_Capabilities : option AuthCapabilities; na_ClusterPath : string; na_VoucherNodeId : string;
  na_VoucherSignature : bytes; na_PublicKey : bytes; na_Timestamp : option Time; na_Certificate : option NodeCertificate
}.
Record MemberAuthConfirmed := { ma_NewNodeId : string; ma_ConfirmingNodeId : string; ma_ClusterPath : string; ma_Signature : bytes; ma_Timestamp : option Time }.
Record MemberAuthRejected := {
  mr_NewNodeId : string; mr_RejectingNodeId : string; mr_ClusterPath : string; mr_Reason : string; mr_Signature : bytes; mr_Timestamp : option Time
}.
Record CertificateRevocation := {
  cr_CertFingerprint : string; cr_NodeId : string; cr_ClusterPath : string; cr_Reason : string; cr_RevokedBy : string; cr_RevokedAt : option Time;
  cr_Signature : bytes
}.

(** Protocol Buffers. *)
Class AuthCodec := {
  marshalAuth : AuthMessage -> option bytes; unmarshalAuth : bytes -> option AuthMessage;
  marshalNewMember : NewMemberAnnouncement -> option bytes; unmarshalNewMember : bytes -> option NewMemberAnnouncement;
  marshalConfirmed : MemberAuthConfirmed -> option bytes; unmarshalConfirmed : bytes -> option MemberAuthConfirmed;
  marshalRejected : MemberAuthRejected -> option bytes; unmarshalRejected : bytes -> option MemberAuthRejected;
  marshalRevocation : CertificateRevocation -> option bytes; unmarshalRevocation : bytes -> option CertificateRevocation
}.
Class AuthCodecLaws (P : AuthCodec) := {
  auth_roundtrip : forall m b, marshalAuth m = Some b -> unmarshalAuth b = Some m;
  new_member_roundtrip : forall m b, marshalNewMember m = Some b -> unmarshalNewMember b = Some m;
  confirmed_roundtrip : forall m b, marshalConfirmed m = Some b -> unmarshalConfirmed b = Some m;
  rejected_roundtrip : forall m b, marshalRejected m = Some b -> unmarshalRejected b = Some m;
  revocation_roundtrip : forall m b, marshalRevocation m = Some b -> unmarshalRevocation b = Some m
}.

(** ** Certificates

    What the code uses of the package [certs]: providers (external with a
    configuration, or derived from the root key), and revocation lists. *)
Class Certs := {
  Provider : Type; CertConfig : Type; IsExternal : CertConfig -> bool;
  NewExternalProvider : CertConfig -> string -> option Provider;
  NewAutoProvider : string -> ClusterRootKey -> option Provider;
  CanSign : Provider -> bool;
  SignForNode : Provider -> string -> bytes -> string -> option NodeCertificate;
  VerifyNodeCertificate : Provider -> NodeCertificate -> bool;
  VerifyCertificateInAnnouncement : NewMemberAnnouncement -> bytes -> bool;
  SaveNodeCertificate : NodeCertificate -> ST Provider bool;
  CreateSelfSignedCert : string -> bytes -> string -> ST Provider bool;
  prov_NodeCertificate : Provider -> option NodeCertificate;
  NeedsRenewal : Time -> NodeCertificate -> bool;
  CertFingerprint : NodeCertificate -> option string;
  RevocationList : Type;
  NewRevocationList : string -> string -> option RevocationList;     (** cluster, data directory *)
  empty_list : RevocationList;                                        (** what it returns with an error *)
  Revoke : RevocationEntry -> ST RevocationList bool;
  rl_IsRevoked : string -> RevocationList -> bool;
  rl_IsNodeRevoked : string -> RevocationList -> bool;
  rl_List : RevocationList -> list RevocationEntry;
  rl_Sync : list RevocationEntry -> ST RevocationList (result string Z)
}.
(** A stored entry counts, and does not touch the others. *)
Class CertsLaws (C : Certs) := {
  Revoke_law : forall e rl rl', Revoke e rl = (true, rl') ->
    (forall f, rl_IsRevoked f rl' = (f =s re_CertFingerprint e) || rl_IsRevoked f rl) /\
    (forall n, rl_IsNodeRevoked n rl' = (n =s re_NodeID e) || rl_IsNodeRevoked n rl);
  Revoke_failed : forall e rl rl', Revoke e rl = (false, rl') -> forall n, rl_IsNodeRevoked n rl = true -> rl_IsNodeRevoked n rl' = true
}.

(** ** Constants and sessions *)

Definition AuthTimeout : Duration := 30 * second.
Definition MaxMessageAge : Duration := 30 * second.
Definition MinPSKLength : nat := 32.
Definition DefaultSessionStaleThreshold : Duration := 5 * minute.
Definition DefaultMaxStaleDuration : Duration := 15 * minute.
Definition Step2MaxRetries : Z := 5.
Definition Step2RetryDelay : Duration := 500 * millisecond.
Definition DefaultAuthRateLimit : Z := 10.
Definition DefaultAuthRateWindow : Duration := minute.
Definition MinConfirmationsRequired : nat := 1.

Definition sessionStatusPendingStep2 : string := "pending_step2".
Definition sessionStatusAuthenticated : string := "authenticated".
Definition sessionStatusStale : string := "stale".
Definition sessionStatusFailed : string := "failed".

Record Session := {
  s_ClusterPath : string; s_Status : string; s_VoucherNodeID : string; s_AuthenticatedAt : Time; s_LastActivity : Time; s_StaleAt : Time
}.

Record AuthResult := { ar_Confirmed : bool; ar_Reason : string }.
(** [pa_Done] is the channel of capacity one. *)
Record PendingAuth := {
  pa_NodeID : string; pa_ClusterPath : string; pa_Certificate : option NodeCertificate; pa_Confirmations : gmap string unit; pa_Rejections : gmap string string;
  pa_Done : option AuthResult; pa_StartedAt : Time
}.

Inductive AuthError :=
  | ErrPSKTooShort | ErrRootKey (e : KeyError) | ErrHMACKey (e : KeyError) | ErrExternalProvider | ErrAutoProvider | ErrNoRootKey
  | ErrSessionNotFound | ErrRevoke | ErrSign | ErrAuthJoin | ErrAuthSubscribe | ErrNotSubscribed | ErrAuthMarshal | ErrPublish | ErrCrash
  | ErrNoPhonebookEntry | ErrPhonebook (e : PbError) | ErrBadKey | ErrContext.

(** What is published on the bus. *)
Inductive AuthEvent :=
  | AMember (ev : MemberEvent)
  | AuthenticationFailed (clusterPath targetPeer : string)
  | PeerAuthenticated (clusterPath voucher : string)
  | SyncRequested (clusterPath reason preferredPeer : string)
  | ClusterJoined (clusterPath voucher : string)
  | ClusterJoinFailed (clusterPath : string)
  | SessionStale (clusterPath : string)
  | CertificateRenewalNeeded (clusterPath : string)
  | CertificateRenewed (clusterPath renewedBy : string).

(** The topics joined on the host, with their live subscriptions. *)
Record AuthPubSub := { ap_topics : gmap string nat; ap_wire : list (string * bytes); ap_net : nat -> bool; ap_calls : nat }.
Definition ap_upd (topics : gmap string nat) (wire : list (string * bytes)) (p : AuthPubSub) : AuthPubSub :=
  {| ap_topics := topics; ap_wire := wire; ap_net := ap_net p; ap_calls := S (ap_calls p) |}.
Definition ap_ok (p : AuthPubSub) : bool := ap_net p (ap_calls p).
Definition ap_Join (topic : string) : ST AuthPubSub bool := fun p =>
  match ap_topics p !! topic with
  | Some _ => (false, ap_upd (ap_topics p) (ap_wire p) p)
  | None => if ap_ok p then (true, ap_upd (<[topic := 0%nat]> (ap_topics p)) (ap_wire p) p) else (false, ap_upd (ap_topics p) (ap_wire p) p)
  end.
Definition ap_Subscribe (topic : string) : ST AuthPubSub bool := fun p =>
  if ap_ok p then (true, ap_upd (alter S topic (ap_topics p)) (ap_wire p) p) else (false, ap_upd (ap_topics p) (ap_wire p) p).
(** [Topic.Close]; the callers ignore its error. *)
Definition ap_Close (topic : string) (p : AuthPubSub) : AuthPubSub :=
  match ap_topics p !! topic with
  | Some O => ap_upd (delete topic (ap_topics p)) (ap_wire p) p
  | _ => ap_upd (ap_topics p) (ap_wire p) p
  end.
Definition ap_Publish (topic : string) (data : bytes) : ST AuthPubSub bool := fun p =>
  let ok := ap_ok p in (ok, ap_upd (ap_topics p) (if ok then ap_wire p ++ [(topic, data)] else ap_wire p) p).

Section Authenticator.
Context `{I : IPhonebook} `{R : GoRange} `{H : Sha256} `{A : Aead} `{K : AuthCrypto} `{T : Certs} `{P : AuthCodec}.

(** ** State *)

(** What does not change: identity and key of the node, its addresses, the
    data directory, the test flag, the thresholds, the readings of the clock
    and of the random generator. *)
Record Identity := {
  id_self : string; id_PublicKey : bytes; id_Sign : bytes -> option bytes; id_addrs : list string; id_dataDir : string; id_rejectAll : bool;
  id_staleThreshold : Duration; id_maxStale : Duration; id_clock : nat -> Time; id_rand : nat -> option bytes
}.

(** [au_pendingAuth] names the pending authentications in [au_pendings]: a
    handler keeps a pointer to its own. *)
Record Authenticator := {
  au_id : Identity;
  au_hmacKeys : gmap string bytes; au_rootKeys : gmap string ClusterRootKey; au_providers : gmap string Provider;
  au_certConfigs : gmap string CertConfig; au_revocations : gmap string RevocationList; au_topics : gmap string unit;
  au_sessions : gmap string Session; au_pendingAuth : gmap string nat; au_pendings : gmap nat PendingAuth;
  au_limiter : ratelimit.Limiter; au_dedup : dedup.MessageDedup; au_ps : AuthPubSub;
  au_pb : PB; au_bus : list AuthEvent; au_crashed : bool;
  au_ticks : nat; au_rands : nat
}.

Definition set_hmacKeys (x : gmap string bytes) (a : Authenticator) : Authenticator :=
  {| au_id := au_id a; au_hmacKeys := x; au_rootKeys := au_rootKeys a; au_providers := au_providers a; au_certConfigs := au_certConfigs a;
     au_revocations := au_revocations a; au_topics := au_topics a; au_sessions := au_sessions a; au_pendingAuth := au_pendingAuth a;
     au_pendings := au_pendings a; au_limiter := au_limiter a; au_dedup := au_dedup a; au_ps := au_ps a; au_pb := au_pb a;
     au_bus := au_bus a; au_crashed := au_crashed a; au_ticks := au_ticks a; au_rands := au_rands a |}.
Definition set_rootKeys (x : gmap string ClusterRootKey) (a : Authenticator) : Authenticator :=
  {| au_id := au_id a; au_hmacKeys := au_hmacKeys a; au_rootKeys := x; au_providers := au_providers a; au_certConfigs := au_certConfigs a;
     au_revocations := au_revocations a; au_topics := au_topics a; au_sessions := au_sessions a; au_pendingAuth := au_pendingAuth a;
     au_pendings := au_pendings a; au_limiter := au_limiter a; au_dedup := au_dedup a; au_ps := au_ps a; au_pb := au_pb a;
     au_bus := au_bus a; au_crashed := au_crashed a; au_ticks := au_ticks a; au_rands := au_rands a |}.
Definition set_providers (x : gmap string Provider) (a : Authenticator) : Authenticator :=
  {| au_id := au_id a; au_hmacKeys := au_hmacKeys a; au_rootKeys := au_rootKeys a; au_providers := x; au_certConfigs := au_certConfigs a;
     au_revocations := au_revocations a; au_topics := au_topics a; au_sessions := au_sessions a; au_pendingAuth := au_pendingAuth a;
     au_pendings := au_pendings a; au_limiter := au_limiter a; au_dedup := au_dedup a; au_ps := au_ps a; au_pb := au_pb a;
     au_bus := au_bus a; au_crashed := au_crashed a; au_ticks := au_ticks a; au_rands := au_rands a |}.
Definition set_certConfigs (x : gmap string CertConfig) (a : Authenticator) : Authenticator :=
  {| au_id := au_id a; au_hmacKeys := au_hmacKeys a; au_rootKeys := au_rootKeys a; au_providers := au_providers a; au_certConfigs := x;
     au_revocations := au_revocations a; au_topics := au_topics a; au_sessions := au_sessions a; au_pendingAuth := au_pendingAuth a;
     au_pendings := au_pendings a; au_limiter := au_limiter a; au_dedup := au_dedup a; au_ps := au_ps a; au_pb := au_pb a;
     au_bus := au_bus a; au_crashed := au_crashed a; au_ticks := au_ticks a; au_rands := au_rands a |}.
Definition set_revocations (x : gmap string RevocationList) (a : Authenticator) : Authenticator :=
  {| au_id := au_id a; au_hmacKeys := au_hmacKeys a; au_rootKeys := au_rootKeys a; au_providers := au_providers a; au_certConfigs := au_certConfigs a;
     au_revocations := x; au_topics := au_topics a; au_sessions := au_sessions a; au_pendingAuth := au_pendingAuth a;
     au_pendings := au_pendings a; au_limiter := au_limiter a; au_dedup := au_dedup a; au_ps := au_ps a; au_pb := au_pb a;
     au_bus := au_bus a; au_crashed := au_crashed a; au_ticks := au_ticks a; au_rands := au_rands a |}.
Definition set_topics (x : gmap string unit) (a : Authenticator) : Authenticator :=
  {| au_id := au_id a; au_hmacKeys := au_hmacKeys a; au_rootKeys := au_rootKeys a; au_providers := au_providers a; au_certConfigs := au_certConfigs a;
     au_revocations := au_revocations a; au_topics := x; au_sessions := au_sessions a; au_pendingAuth := au_pendingAuth a;
     au_pendings := au_pendings a; au_limiter := au_limiter a; au_dedup := au_dedup a; au_ps := au_ps a; au_pb := au_pb a;
     au_bus := au_bus a; au_crashed := au_crashed a; au_ticks := au_ticks a; au_rands := au_rands a |}.
Definition set_sessions (x : gmap string Session) (a : Authenticator) : Authenticator :=
  {| au_id := au_id a; au_hmacKeys := au_hmacKeys a; au_rootKeys := au_rootKeys a; au_providers := au_providers a; au_certConfigs := au_certConfigs a;
     au_revocations := au_revocations a; au_topics := au_topics a; au_sessions := x; au_pendingAuth := au_pendingAuth a;
     au_pendings := au_pendings a; au_limiter := au_limiter a; au_dedup := au_dedup a; au_ps := au_ps a; au_pb := au_pb a;
     au_bus := au_bus a; au_crashed := au_crashed a; au_ticks := au_ticks a; au_rands := au_rands a |}.
Definition set_pendingAuth (x : gmap string nat) (a : Authenticator) : Authenticator :=
  {| au_id := au_id a; au_hmacKeys := au_hmacKeys a; au_rootKeys := au_rootKeys a; au_providers := au_providers a; au_certConfigs := au_certConfigs a;
     au_revocations := au_revocations a; au_topics := au_topics a; au_sessions := au_sessions a; au_pendingAuth := x;
     au_pendings := au_pendings a; au_limiter := au_limiter a; au_dedup := au_dedup a; au_ps := au_ps a; au_pb := au_pb a;
     au_bus := au_bus a; au_crashed := au_crashed a; au_ticks := au_ticks a; au_rands := au_rands a |}.
Definition set_pendings (x : gmap nat PendingAuth) (a : Authenticator) : Authenticator :=
  {| au_id := au_id a; au_hmacKeys := au_hmacKeys a; au_rootKeys := au_rootKeys a; au_providers := au_providers a; au_certConfigs := au_certConfigs a;
     au_revocations := au_revocations a; au_topics := au_topics a; au_sessions := au_sessions a; au_pendingAuth := au_pendingAuth a;
     au_pendings := x; au_limiter := au_limiter a; au_dedup := au_dedup a; au_ps := au_ps a; au_pb := au_pb a; au_bus := au_bus a;
     au_crashed := au_crashed a; au_ticks := au_ticks a; au_rands := au_rands a |}.
Definition set_limiter (x : ratelimit.Limiter) (a : Authenticator) : Authenticator :=
  {| au_id := au_id a; au_hmacKeys := au_hmacKeys a; au_rootKeys := au_rootKeys a; au_providers := au_providers a; au_certConfigs := au_certConfigs a;
     au_revocations := au_revocations a; au_topics := au_topics a; au_sessions := au_sessions a; au_pendingAuth := au_pendingAuth a;
     au_pendings := au_pendings a; au_limiter := x; au_dedup := au_dedup a; au_ps := au_ps a; au_pb := au_pb a; au_bus := au_bus a;
     au_crashed := au_crashed a; au_ticks := au_ticks a; au_rands := au_rands a |}.
Definition set_dedup (x : dedup.MessageDedup) (a : Authenticator) : Authenticator :=
  {| au_id := au_id a; au_hmacKeys := au_hmacKeys a; au_rootKeys := au_rootKeys a; au_providers := au_providers a; au_certConfigs := au_certConfigs a;
     au_revocations := au_revocations a; au_topics := au_topics a; au_sessions := au_sessions a; au_pendingAuth := au_pendingAuth a;
     au_pendings := au_pendings a; au_limiter := au_limiter a; au_dedup := x; au_ps := au_ps a; au_pb := au_pb a; au_bus := au_bus a;
     au_crashed := au_crashed a; au_ticks := au_ticks a; au_rands := au_rands a |}.
Definition set_ps (x : AuthPubSub) (a : Authenticator) : Authenticator :=
  {| au_id := au_id a; au_hmacKeys := au_hmacKeys a; au_rootKeys := au_rootKeys a; au_providers := au_providers a; au_certConfigs := au_certConfigs a;
     au_revocations := au_revocations a; au_topics := au_topics a; au_sessions := au_sessions a; au_pendingAuth := au_pendingAuth a;
     au_pendings := au_pendings a; au_limiter := au_limiter a; au_dedup := au_dedup a; au_ps := x; au_pb := au_pb a; au_bus := au_bus a;
     au_crashed := au_crashed a; au_ticks := au_ticks a; au_rands := au_rands a |}.
Definition set_pb (x : PB) (a : Authenticator) : Authenticator :=
  {| au_id := au_id a; au_hmacKeys := au_hmacKeys a; au_rootKeys := au_rootKeys a; au_providers := au_providers a; au_certConfigs := au_certConfigs a;
     au_revocations := au_revocations a; au_topics := au_topics a; au_sessions := au_sessions a; au_pendingAuth := au_pendingAuth a;
     au_pendings := au_pendings a; au_limiter := au_limiter a; au_dedup := au_dedup a; au_ps := au_ps a; au_pb := x; au_bus := au_bus a;
     au_crashed := au_crashed a; au_ticks := au_ticks a; au_rands := au_rands a |}.
Definition set_bus (x : list AuthEvent) (a : Authenticator) : Authenticator :=
  {| au_id := au_id a; au_hmacKeys := au_hmacKeys a; au_rootKeys := au_rootKeys a; au_providers := au_providers a; au_certConfigs := au_certConfigs a;
     au_revocations := au_revocations a; au_topics := au_topics a; au_sessions := au_sessions a; au_pendingAuth := au_pendingAuth a;
     au_pendings := au_pendings a; au_limiter := au_limiter a; au_dedup := au_dedup a; au_ps := au_ps a; au_pb := au_pb a; au_bus := x;
     au_crashed := au_crashed a; au_ticks := au_ticks a; au_rands := au_rands a |}.
Definition set_crashed (x : bool) (a : Authenticator) : Authenticator :=
  {| au_id := au_id a; au_hmacKeys := au_hmacKeys a; au_rootKeys := au_rootKeys a; au_providers := au_providers a; au_certConfigs := au_certConfigs a;
     au_revocations := au_revocations a; au_topics := au_topics a; au_sessions := au_sessions a; au_pendingAuth := au_pendingAuth a;
     au_pendings := au_pendings a; au_limiter := au_limiter a; au_dedup := au_dedup a; au_ps := au_ps a; au_pb := au_pb a;
     au_bus := au_bus a; au_crashed := x; au_ticks := au_ticks a; au_rands := au_rands a |}.
Definition set_ticks (x : nat) (a : Authenticator) : Authenticator :=
  {| au_id := au_id a; au_hmacKeys := au_hmacKeys a; au_rootKeys := au_rootKeys a; au_providers := au_providers a; au_certConfigs := au_certConfigs a;
     au_revocations := au_revocations a; au_topics := au_topics a; au_sessions := au_sessions a; au_pendingAuth := au_pendingAuth a;
     au_pendings := au_pendings a; au_limiter := au_limiter a; au_dedup := au_dedup a; au_ps := au_ps a; au_pb := au_pb a;
     au_bus := au_bus a; au_crashed := au_crashed a; au_ticks := x; au_rands := au_rands a |}.
Definition set_rands (x : nat) (a : Authenticator) : Authenticator :=
  {| au_id := au_id a; au_hmacKeys := au_hmacKeys a; au_rootKeys := au_rootKeys a; au_providers := au_providers a; au_certConfigs := au_certConfigs a;
     au_revocations := au_revocations a; au_topics := au_topics a; au_sessions := au_sessions a; au_pendingAuth := au_pendingAuth a;
     au_pendings := au_pendings a; au_limiter := au_limiter a; au_dedup := au_dedup a; au_ps := au_ps a; au_pb := au_pb a;
     au_bus := au_bus a; au_crashed := au_crashed a; au_ticks := au_ticks a; au_rands := x |}.

Definition au_self (a : Authenticator) : string := id_self (au_id a).
Definition au_now : ST Authenticator Time := fun a => (id_clock (au_id a) (au_ticks a), set_ticks (S (au_ticks a)) a).
Definition au_read : ST Authenticator (option bytes) := fun a => (id_rand (au_id a) (au_rands a), set_rands (S (au_rands a)) a).
Definition publish_event (e : AuthEvent) (a : Authenticator) : Authenticator := set_bus (au_bus a ++ [e]) a.

Definition auth_New (id : Identity) (ps : AuthPubSub) (pb : PB) : Authenticator :=
  {| au_id := id; au_hmacKeys := ∅; au_rootKeys := ∅; au_providers := ∅; au_certConfigs := ∅; au_revocations := ∅; au_topics := ∅; au_sessions := ∅;
     au_pendingAuth := ∅; au_pendings := ∅; au_limiter := ratelimit.NewLimiter DefaultAuthRateLimit DefaultAuthRateWindow;
     au_dedup := dedup.NewMessageDedup MaxMessageAge; au_ps := ps; au_pb := pb; au_bus := []; au_crashed := false; au_ticks := 0; au_rands := 0 |}.

(** ** Keys and providers *)

(** The second result is what the caller's slice holds afterwards: it is
    zeroed once both keys are derived. *)
Definition SetClusterPSK (clusterPath : string) (psk : bytes) : ST Authenticator (result AuthError unit * bytes) := fun a =>
  if (length psk <? MinPSKLength)%nat then ((Err ErrPSKTooShort, psk), a) else
  match DeriveClusterRootKey psk clusterPath with
  | Err e => ((Err (ErrRootKey e), psk), a)
  | Ok rootKey =>
      match DeriveHMACKey psk clusterPath with
      | Err e => ((Err (ErrHMACKey e), psk), a)
      | Ok hmacKey =>
          let a := set_hmacKeys (<[clusterPath := hmacKey]> (au_hmacKeys a)) a in
          let a := set_rootKeys (<[clusterPath := rootKey]> (au_rootKeys a)) a in
          ((Ok tt, replicate (length psk) Ascii.zero), a)
      end
  end.

Definition GetHMACKey (clusterPath : string) (a : Authenticator) : option bytes := au_hmacKeys a !! clusterPath.
Definition GetClusterRootKey (clusterPath : string) (a : Authenticator) : option ClusterRootKey := au_rootKeys a !! clusterPath.
Definition RegisterCertConfig (clusterPath : string) (cfg : CertConfig) (a : Authenticator) : Authenticator :=
  set_certConfigs (<[clusterPath := cfg]> (au_certConfigs a)) a.
Definition GetProvider (clusterPath : string) (a : Authenticator) : option Provider := au_providers a !! clusterPath.
Definition SetProvider (clusterPath : string) (p : Provider) (a : Authenticator) : Authenticator :=
  set_providers (<[clusterPath := p]> (au_providers a)) a.

Definition initProviderForCluster (clusterPath : string) : ST Authenticator (result AuthError unit) := fun a =>
  let external := match au_certConfigs a !! clusterPath with Some cfg => if IsExternal cfg then Some cfg else None | None => None end in
  match external with
  | Some cfg =>
      match NewExternalProvider cfg clusterPath with
      | None => (Err ErrExternalProvider, a)
      | Some p => (Ok tt, SetProvider clusterPath p a)
      end
  | None =>
      match au_rootKeys a !! clusterPath with
      | None => (Err ErrNoRootKey, a)
      | Some rootKey =>
          match NewAutoProvider clusterPath rootKey with
          | None => (Err ErrAutoProvider, a)
          | Some p => (Ok tt, SetProvider clusterPath p a)
          end
      end
  end.

(** ** Revocation lists *)

Definition GetRevocationList (clusterPath : string) : ST Authenticator RevocationList := fun a =>
  match au_revocations a !! clusterPath with
  | Some rl => (rl, a)
  | None =>
      let rl := match NewRevocationList clusterPath (id_dataDir (au_id a)) with
                | Some rl => rl
                | None => match NewRevocationList clusterPath "" with Some rl => rl | None => empty_list end
                end in
      (rl, set_revocations (<[clusterPath := rl]> (au_revocations a)) a)
  end.
(** The list is shared: a revocation changes the stored one. *)
Definition revoke_in (clusterPath : string) (e : RevocationEntry) : ST Authenticator bool := fun a =>
  let '(rl, a) := GetRevocationList clusterPath a in
  let '(ok, rl) := Revoke e rl in
  (ok, set_revocations (<[clusterPath := rl]> (au_revocations a)) a).
Definition IsCertRevoked (clusterPath certFingerprint : string) : ST Authenticator bool := fun a =>
  let '(rl, a) := GetRevocationList clusterPath a in (rl_IsRevoked certFingerprint rl, a).
Definition IsNodeRevoked (clusterPath nodeID : string) : ST Authenticator bool := fun a =>
  let '(rl, a) := GetRevocationList clusterPath a in (rl_IsNodeRevoked nodeID rl, a).

(** ** Topics *)

Definition SubscribeToCluster (clusterPath : string) : ST Authenticator (result AuthError unit) := fun a =>
  let topicName := BuildAuthTopic clusterPath in
  let '(ok, ps) := ap_Join topicName (au_ps a) in
  let a := set_ps ps a in
  if negb ok then (Err ErrAuthJoin, a) else
  let a := set_topics (<[clusterPath := tt]> (au_topics a)) a in
  let '(ok, ps) := ap_Subscribe topicName (au_ps a) in
  let a := set_ps ps a in
  if negb ok then (Err ErrAuthSubscribe, a) else (Ok tt, a).

Definition UnsubscribeFromCluster (clusterPath : string) (a : Authenticator) : Authenticator :=
  match au_topics a !! clusterPath with
  | None => a
  | Some _ => set_topics (delete clusterPath (au_topics a)) (set_ps (ap_Close (BuildAuthTopic clusterPath) (au_ps a)) a)
  end.

Definition auth_LeaveCluster (clusterPath : string) (a : Authenticator) : Authenticator :=
  let a := UnsubscribeFromCluster clusterPath a in
  let a := set_sessions (delete clusterPath (au_sessions a)) a in
  let a := set_hmacKeys (delete clusterPath (au_hmacKeys a)) a in
  let a := set_rootKeys (delete clusterPath (au_rootKeys a)) a in
  let a := set_providers (delete clusterPath (au_providers a)) a in
  let a := set_revocations (delete clusterPath (au_revocations a)) a in
  set_certConfigs (delete clusterPath (au_certConfigs a)) a.

Definition auth_Stop (a : Authenticator) : Authenticator :=
  set_topics ∅ (set_ps (fold_left (fun ps ct => ap_Close (BuildAuthTopic ct.1) ps) (range (au_topics a)) (au_ps a)) a).

(** ** Sessions *)

Definition GetSession (clusterPath : string) (a : Authenticator) : result AuthError Session :=
  match au_sessions a !! clusterPath with Some s => Ok s | None => Err ErrSessionNotFound end.
Definition IsAuthenticated (clusterPath : string) (a : Authenticator) : bool :=
  match au_sessions a !! clusterPath with Some s => s_Status s =s sessionStatusAuthenticated | None => false end.
Definition IsSessionStale (clusterPath : string) (a : Authenticator) : bool :=
  match au_sessions a !! clusterPath with Some s => s_Status s =s sessionStatusStale | None => true end.

Definition with_session_status (status : string) (activity staleAt : Time) (s : Session) : Session :=
  {| s_ClusterPath := s_ClusterPath s; s_Status := status; s_VoucherNodeID := s_VoucherNodeID s; s_AuthenticatedAt := s_AuthenticatedAt s;
     s_LastActivity := activity; s_StaleAt := staleAt |}.

Definition RefreshSession (clusterPath : string) (a : Authenticator) : Authenticator :=
  match au_sessions a !! clusterPath with
  | None => a
  | Some s => let '(now, a) := au_now a in
      set_sessions (<[clusterPath := with_session_status sessionStatusAuthenticated now zero_time s]> (au_sessions a)) a
  end.
Definition UpdateSessionActivity (clusterPath : string) (a : Authenticator) : Authenticator :=
  match au_sessions a !! clusterPath with
  | None => a
  | Some s => let '(now, a) := au_now a in
      set_sessions (<[clusterPath := with_session_status (s_Status s) now (s_StaleAt s) s]> (au_sessions a)) a
  end.

Definition overdue (now : Time) (max : Duration) (s : Session) : bool :=
  (s_Status s =s sessionStatusStale) && negb (s_StaleAt s =? zero_time) && (max <? time_Sub now (s_StaleAt s)).
Definition idle (now : Time) (threshold : Duration) (s : Session) : bool :=
  (s_Status s =s sessionStatusAuthenticated) && (threshold <? time_Sub now (s_LastActivity s)).
(** One session of [checkStaleSessions]: removed, marked, or left. *)
Definition check_session (now : Time) (threshold max : Duration) (s : Session) : option Session :=
  if overdue now max s then None
  else if idle now threshold s then Some (with_session_status sessionStatusStale (s_LastActivity s) now s)
  else Some s.

Definition checkStaleSessions (a : Authenticator) : Authenticator :=
  let '(now, a) := au_now a in
  let threshold := id_staleThreshold (au_id a) in let max := id_maxStale (au_id a) in
  let newlyStale := List.filter (fun cs => negb (overdue now max cs.2) && idle now threshold cs.2) (range (au_sessions a)) in
  let a := set_sessions (omap (check_session now threshold max) (au_sessions a)) a in
  fold_left (fun a cs => publish_event (SessionStale cs.1) a) newlyStale a.

(** ** Signed messages *)

Definition authMessageContent (msg : AuthMessage) : bytes :=
  let buf := WriteString (am_Type msg) [] in
  let buf := WriteField (am_Payload msg) buf in
  let buf := WriteString (am_SenderId msg) buf in
  match am_Timestamp msg with Some t => WriteTimeBinary (MarshalBinary t) buf | None => WriteField [] buf end.

(** [None] is the nil signature of a failed signing. *)
Definition signMessage (msg : AuthMessage) (a : Authenticator) : option bytes := id_Sign (au_id a) (authMessageContent msg).
Definition verifyMessageSignature (msg : AuthMessage) (senderPubKey : bytes) : bool :=
  key_Verify senderPubKey (authMessageContent msg) (default [] (am_Signature msg)).

Definition lookupPublicKey (nodeID clusterPath : string) : ST Authenticator (result AuthError bytes) := fun a =>
  let '(r, pb) := pb_Get nodeID clusterPath (au_pb a) in
  let a := set_pb pb a in
  match r with
  | Err e => (Err (ErrPhonebook e), a)
  | Ok None => (Err ErrNoPhonebookEntry, a)
  | Ok (Some entry) => (if key_parses (e_PublicKey entry) then Ok (e_PublicKey entry) else Err ErrBadKey, a)
  end.

Definition topic_publish (topic : string) (data : bytes) : ST Authenticator (result AuthError unit) := fun a =>
  let '(ok, ps) := ap_Publish topic data (au_ps a) in (if ok : bool then Ok tt else Err ErrPublish, set_ps ps a).

(** Without a topic for the cluster, the debug message at the start asks a
    nil topic for its name.  [payload] is the marshalled message. *)
Definition publishAuthMessage (ctx_done : Authenticator -> bool) (clusterPath msgType : string) (payload : option bytes)
  : ST Authenticator (result AuthError unit) := fun a =>
  match au_topics a !! clusterPath with
  | None => (Err ErrCrash, set_crashed true a)
  | Some _ =>
      match payload with
      | None => (Err ErrAuthMarshal, a)
      | Some payloadBytes =>
          let '(ts, a) := au_now a in
          let envelope sig := {| am_Type := msgType; am_Payload := payloadBytes; am_SenderId := au_self a; am_Timestamp := Some ts; am_Signature := sig |} in
          match marshalAuth (envelope (signMessage (envelope None) a)) with
          | None => (Err ErrAuthMarshal, a)
          | Some data => retry.Retry (topic_publish (BuildAuthTopic clusterPath) data) ctx_done ErrContext retry.DefaultRetryConfig a
          end
      end
  end.

Definition publishStep2 (ctx_done : Authenticator -> bool) (clusterPath : string) (announcement : NewMemberAnnouncement)
  : ST Authenticator (result AuthError unit) :=
  retry.Retry (publishAuthMessage ctx_done clusterPath "new_member" (marshalNewMember announcement)) (fun a => au_crashed a || ctx_done a) ErrContext
    {| retry.MaxRetries := Step2MaxRetries; retry.Delay := Step2RetryDelay |}.

(** [RevokeCertificate] *)
Definition revocation_content (r : CertificateRevocation) : bytes :=
  let buf := WriteString (cr_CertFingerprint r) [] in
  let buf := WriteString (cr_NodeId r) buf in
  let buf := WriteString (cr_ClusterPath r) buf in
  let buf := WriteString (cr_Reason r) buf in
  let buf := WriteString (cr_RevokedBy r) buf in
  match cr_RevokedAt r with Some t => WriteTimeBinary (MarshalBinary t) buf | None => buf end.

Definition RevokeCertificate (ctx_done : Authenticator -> bool) (nodeID clusterPath reason certFingerprint : string)
  : ST Authenticator (result AuthError unit) := fun a =>
  let '(now, a) := au_now a in
  let entry := {| re_CertFingerprint := certFingerprint; re_NodeID := nodeID; re_ClusterPath := clusterPath; re_RevokedAt := now; re_Reason := reason;
                  re_RevokedBy := au_self a |} in
  let '(ok, a) := revoke_in clusterPath entry a in
  if negb ok then (Err ErrRevoke, a) else
  let '(at_, a) := au_now a in
  let revocation sig := {| cr_CertFingerprint := certFingerprint; cr_NodeId := nodeID; cr_ClusterPath := clusterPath; cr_Reason := reason;
                           cr_RevokedBy := au_self a; cr_RevokedAt := Some at_; cr_Signature := sig |} in
  match id_Sign (au_id a) (revocation_content (revocation [])) with
  | None => (Err ErrSign, a)
  | Some sig => publishAuthMessage ctx_done clusterPath "cert_revoked" (marshalRevocation (revocation sig)) a
  end.

End Authenticator.

(** ** Theorems *)

Section Facts.
Context `{I : IPhonebook} `{R : GoRange} `{H : Sha256} `{A : Aead} `{K : AuthCrypto} `{T : Certs} `{P : AuthCodec}.

(** *** Sessions *)

Lemma publish_stale_same (l : list (string * Session)) a : let a' := fold_left (fun a cs => publish_event (SessionStale cs.1) a) l a in
  au_sessions a' = au_sessions a /\ au_bus a' = au_bus a ++ (SessionStale <$> l.*1) /\ au_ticks a' = au_ticks a /\ au_id a' = au_id a.
Proof.
  cbv zeta. revert a. induction l as [|cs l IH]; intros a; cbn [fold_left fmap list_fmap]; [by rewrite app_nil_r|].
  destruct (IH (publish_event (SessionStale cs.1) a)) as (H1 & H2 & H3 & H4). rewrite H1, H2, H3, H4. cbn. by rewrite <- app_assoc.
Qed.

Lemma checkStaleSessions_spec a c : let now := id_clock (au_id a) (au_ticks a) in let a' := checkStaleSessions a in
  au_sessions a' !! c = au_sessions a !! c ≫= check_session now (id_staleThreshold (au_id a)) (id_maxStale (au_id a)) /\
  au_id a' = au_id a /\ au_ticks a' = S (au_ticks a) /\
  exists l, au_bus a' = au_bus a ++ (SessionStale <$> l) /\
    (c ∈ l <-> exists s, au_sessions a !! c = Some s /\ overdue now (id_maxStale (au_id a)) s = false /\ idle now (id_staleThreshold (au_id a)) s = true).
Proof.
  cbv zeta. unfold checkStaleSessions, au_now. set (a1 := set_ticks _ a). set (now := id_clock (au_id a) (au_ticks a)).
  set (l := List.filter _ _). set (a2 := set_sessions _ a1). destruct (publish_stale_same l a2) as (H1 & H2 & H3 & H4).
  rewrite H1, H2, H3, H4. change (au_sessions a2) with (omap (check_session now (id_staleThreshold (au_id a)) (id_maxStale (au_id a))) (au_sessions a)).
  rewrite lookup_omap. split_and!; [done|done|done|]. exists l.*1. split; [done|]. unfold l. rewrite list_elem_of_fmap. split.
  - intros ([c' s] & -> & Hin). rewrite list_elem_of_In, filter_In, <- list_elem_of_In in Hin. destruct Hin as [Hr Hb]. apply elem_of_range in Hr.
    exists s. cbn in *. apply andb_true_iff in Hb as [Ho Hi]. apply negb_true_iff in Ho. done.
  - intros (s & Hs & Ho & Hi). exists (c, s). split; [done|]. rewrite list_elem_of_In, filter_In, <- list_elem_of_In. split; [by apply elem_of_range|].
    cbn. by rewrite Ho, Hi.
Qed.

(** Nothing was published. *)
Lemma nothing_published (a : Authenticator) e : exists l, au_bus a = au_bus a ++ l /\ e ∉ l.
Proof. exists []. rewrite app_nil_r. split; [done|]. apply not_elem_of_nil. Qed.

(** What happens to sessions without another authentication. *)
Inductive session_op := SCheck | SActivity (c : string).
Definition session_step (a : Authenticator) (o : session_op) : Authenticator :=
  match o with SCheck => checkStaleSessions a | SActivity c => UpdateSessionActivity c a end.

Definition stale_since (t : Time) (o : option Session) : Prop :=
  match o with Some s => s_Status s = sessionStatusStale /\ s_StaleAt s = t | None => True end.

Lemma session_step_stale t c a o : t <> zero_time -> stale_since t (au_sessions a !! c) -> let a' := session_step a o in
  stale_since t (au_sessions a' !! c) /\ (au_sessions a !! c = None -> au_sessions a' !! c = None) /\
  au_id a' = au_id a /\ exists l, au_bus a' = au_bus a ++ l /\ SessionStale c ∉ l.
Proof.
  intros Ht Hs. destruct o as [|d]; cbn [session_step]; cbv zeta.
  - destruct (checkStaleSessions_spec a c) as (Hc & Hid & _ & l & Hb & Hl). cbv zeta in *. rewrite Hc. split_and!; [|by intros ->|done|].
    + destruct (au_sessions a !! c) as [s|]; [|done]. cbn. unfold check_session. destruct (overdue _ _ _); [done|]. unfold idle. rewrite (proj1 Hs). done.
    + exists (SessionStale <$> l). split; [done|]. intros (d & [= <-] & Hd)%list_elem_of_fmap. apply Hl in Hd as (s & E & _ & Hi).
      rewrite E in Hs. unfold idle in Hi. rewrite (proj1 Hs) in Hi. done.
  - unfold UpdateSessionActivity. destruct (au_sessions a !! d) as [s|] eqn:Ed.
    + unfold au_now. cbn. split_and!; [| |done|apply nothing_published].
      * destruct (decide (d = c)) as [->|Hne]; [|rewrite lookup_insert_ne by done; exact Hs]. rewrite lookup_insert_eq. rewrite Ed in Hs. exact Hs.
      * intros Hn. rewrite lookup_insert_ne; [done|]. intros ->. by rewrite Ed in Hn.
    + split_and!; [done|done|done|apply nothing_published].
Qed.

(** A session that went stale is not revived by activity.  After
    it was marked stale at [t], whatever checks and activity follow, it stays
    as it is, no further event asks for a new authentication, and the first
    check more than the maximal stale time later removes it for good: the one
    attempt that the event started decides. *)
Theorem auth_stale_expires t c ops a s
    (Hs : au_sessions a !! c = Some s) (Hstale : s_Status s = sessionStatusStale) (Hat : s_StaleAt s = t) (Ht : t <> zero_time) (Hmax : id_maxStale (au_id a) < max_int64) :
  let a' := fold_left session_step ops a in
  stale_since t (au_sessions a' !! c) /\ IsAuthenticated c a' = false /\
  (exists l, au_bus a' = au_bus a ++ l /\ SessionStale c ∉ l) /\
  (t + id_maxStale (au_id a) < id_clock (au_id a) (au_ticks a') -> au_sessions (checkStaleSessions a') !! c = None).
Proof.
  assert (H0 : stale_since t (au_sessions a !! c)) by (by rewrite Hs). clear Hs Hstale Hat s. cbv zeta.
  assert (Hall : stale_since t (au_sessions (fold_left session_step ops a) !! c) /\ au_id (fold_left session_step ops a) = au_id a /\
    exists l, au_bus (fold_left session_step ops a) = au_bus a ++ l /\ SessionStale c ∉ l).
  { clear Hmax. revert a H0. induction ops as [|o ops IH]; intros a H0; cbn [fold_left]; [split_and!; [done|done|apply nothing_published]|].
    destruct (session_step_stale t c a o Ht H0) as (H1 & _ & Hid & l & Hb & Hl). destruct (IH _ H1) as (H2 & Hid2 & l2 & Hb2 & Hl2).
    split_and!; [done|congruence|]. exists (l ++ l2). rewrite Hb2, Hb, <- app_assoc. split; [done|]. rewrite elem_of_app. tauto. }
  destruct Hall as (H1 & Hid & Hl). set (a' := fold_left session_step ops a) in *. clearbody a'. split_and!; [done| |done|].
  - unfold IsAuthenticated. destruct (au_sessions a' !! c) as [s|]; [|done]. by rewrite (proj1 H1).
  - intros Hlate. destruct (checkStaleSessions_spec a' c) as (-> & _). rewrite Hid. destruct (au_sessions a' !! c) as [s|]; [|done]. cbn.
    destruct H1 as [Hst Hat]. unfold check_session, overdue. rewrite Hst, String.eqb_refl, Hat. destruct (Z.eqb_spec t zero_time); [done|]. cbn [negb andb].
    destruct (Z.ltb_spec (id_maxStale (au_id a)) (time_Sub (id_clock (au_id a) (au_ticks a')) t)); [done|]. exfalso. unfold time_Sub, min_int64, max_int64 in *. lia.
Qed.

(** *** Leaving and joining again *)

(** A cluster that was left cannot be joined again.  Leaving
    removes every key, provider, revocation list and session of the cluster,
    and nothing of another one; but the subscription of its auth topic is
    never cancelled, so the topic cannot be closed and every later attempt to
    subscribe fails, after any number of further leaves. *)
Theorem auth_leave_blocks_rejoin c n a
    (Hin : is_Some (au_topics a !! c)) (Hsub : exists k, ap_topics (au_ps a) !! BuildAuthTopic c = Some (S k)) :
  let a' := Nat.iter (S n) (auth_LeaveCluster c) a in
  au_topics a' !! c = None /\ au_sessions a' !! c = None /\ au_hmacKeys a' !! c = None /\ au_providers a' !! c = None /\ au_revocations a' !! c = None /\
  (forall d, d <> c -> au_sessions a' !! d = au_sessions a !! d /\ au_hmacKeys a' !! d = au_hmacKeys a !! d /\ au_topics a' !! d = au_topics a !! d) /\
  fst (SubscribeToCluster c a') = Err ErrAuthJoin.
Proof.
  cbv zeta. set (good := fun a' => au_topics a' !! c = None /\ au_sessions a' !! c = None /\ au_hmacKeys a' !! c = None /\ au_providers a' !! c = None /\
    au_revocations a' !! c = None /\
    (forall d, d <> c -> au_sessions a' !! d = au_sessions a !! d /\ au_hmacKeys a' !! d = au_hmacKeys a !! d /\ au_topics a' !! d = au_topics a !! d) /\
    exists k, ap_topics (au_ps a') !! BuildAuthTopic c = Some (S k)).
  assert (Hg : good (Nat.iter (S n) (auth_LeaveCluster c) a)).
  { destruct Hsub as [k Hk]. induction n as [|n IH].
    - change (good (auth_LeaveCluster c a)). unfold good, auth_LeaveCluster, UnsubscribeFromCluster. destruct Hin as [u ->]. cbn.
      split_and!; try apply lookup_delete_eq; [intros d Hd; by rewrite !lookup_delete_ne|]. exists k. unfold ap_Close. rewrite Hk. exact Hk.
    - change (good (auth_LeaveCluster c (Nat.iter (S n) (auth_LeaveCluster c) a))). set (b := Nat.iter (S n) (auth_LeaveCluster c) a) in *. clearbody b.
      destruct IH as (H1 & H2 & H3 & H4 & H5 & H6 & H7). unfold good, auth_LeaveCluster, UnsubscribeFromCluster. rewrite H1. cbn.
      split_and!; try apply lookup_delete_eq; [done|intros d Hd; rewrite !lookup_delete_ne by done; by apply H6|done]. }
  destruct Hg as (H1 & H2 & H3 & H4 & H5 & H6 & k & Hk). split_and!; try done. unfold SubscribeToCluster, ap_Join. by rewrite Hk.
Qed.

(** *** The pre-shared key *)

(** What is left of the pre-shared key.  A key of at least 32 bytes
    for a named cluster gives the node the keys that every node with the same
    key derives, and leaves only zeros in the caller's slice; a shorter one is
    refused and left as it is.  The node then derives its secrets key from
    that same slice ([node.go], [Join]): it is the key of a pre-shared key of
    zeros, the same for all pre-shared keys of one length. *)
Theorem auth_psk_zeroed c psk a :
  match SetClusterPSK c psk a with
  | ((Ok _, rest), a') => (MinPSKLength <= length psk)%nat /\ rest = replicate (length psk) Ascii.zero /\
      (exists hk rk, DeriveHMACKey psk c = Ok hk /\ DeriveClusterRootKey psk c = Ok rk /\
         au_hmacKeys a' = <[c := hk]> (au_hmacKeys a) /\ au_rootKeys a' = <[c := rk]> (au_rootKeys a)) /\
      (forall psk', length psk' = length psk -> forall a2 a2' rest', SetClusterPSK c psk' a2 = ((Ok tt, rest'), a2') -> DeriveKey rest' c = DeriveKey rest c)
  | ((Err e, rest), a') => a' = a /\ rest = psk /\ (e = ErrPSKTooShort <-> (length psk < MinPSKLength)%nat)
  end.
Proof.
  unfold SetClusterPSK. destruct (Nat.ltb_spec (length psk) MinPSKLength) as [Hlt|Hge]; [done|].
  destruct (DeriveClusterRootKey psk c) as [rk|e]; [|split_and!; [done|done|]; split; [done|lia]].
  destruct (DeriveHMACKey psk c) as [hk|e]; [|split_and!; [done|done|]; split; [done|lia]].
  split_and!; [done|done|by exists hk, rk|]. intros psk' Hlen a2 a2' rest' E.
  destruct (_ <? _)%nat in E; [discriminate E|].
  destruct (DeriveClusterRootKey psk' c); [|discriminate E]. destruct (DeriveHMACKey psk' c); [|discriminate E]. injection E as <- _. by rewrite Hlen.
Qed.

End Facts.
