(* ===== verification/AuthGossip.v ===== *)
(** * Authentication messages between members ([node/auth/pubsub.go])

    The messages of the auth topic of a cluster: announcements of new members,
    which every member checks and confirms or rejects, the votes on them, and
    revocations.  A message is handled as one step. *)

From S2P Require Import Prelude ElectionTopic Orbit Internals Shared Phonebook HealthMonitor RuntimeNode Syncer Auth.
Import signing secrets subscriber.
Local Open Scope string_scope.
Local Open Scope list_scope.
Local Open Scope Z_scope.

(** [AnnouncementContent] of [handler.go] *)
Definition AnnouncementContent (nodeID clusterPath : string) (addresses : list string) (publicKey : bytes) : bytes :=
  let buf := WriteString nodeID [] in
  let buf := WriteString clusterPath buf in
  let buf := WriteStrings addresses buf in
  WriteField publicKey buf.

Definition confirmation_content (newNodeID clusterPath : string) (ts : Time) : bytes :=
  let buf := WriteString newNodeID [] in
  let buf := WriteString clusterPath buf in
  WriteTimeBinary (MarshalBinary ts) buf.
Definition rejection_content (newNodeID clusterPath reason : string) (ts : Time) : bytes :=
  let buf := WriteString newNodeID [] in
  let buf := WriteString clusterPath buf in
  let buf := WriteString reason buf in
  WriteTimeBinary (MarshalBinary ts) buf.

(** [AsTime] of a possibly nil timestamp: the Unix epoch. *)
Definition AsTime (t : option Time) : Time := default 0 t.

Definition event_caps (c : AuthCapabilities) : EvCapabilities :=
  {| ec_CPUCores := ac_CpuCores c; ec_MemoryMB := ac_MemoryMb c; ec_DiskGB := ac_DiskGb c; ec_Datacenter := ac_Datacenter c; ec_Tags := ac_Tags c;
     ec_Metadata := ac_Metadata c |}.

Section Gossip.
Context `{I : IPhonebook} `{R : GoRange} `{H : Sha256} `{A : Aead} `{K : AuthCrypto} `{T : Certs} `{P : AuthCodec}.
(** Whether the context of a publication is done. *)
Variable ctx_done : Authenticator -> bool.

Definition publishAuthConfirmation (clusterPath newNodeID : string) (a : Authenticator) : Authenticator :=
  let '(ts, a) := au_now a in
  match id_Sign (au_id a) (confirmation_content newNodeID clusterPath ts) with
  | None => a
  | Some sig =>
      snd (publishAuthMessage ctx_done clusterPath "auth_confirmed"
             (marshalConfirmed {| ma_NewNodeId := newNodeID; ma_ConfirmingNodeId := au_self a; ma_ClusterPath := clusterPath; ma_Signature := sig;
                                  ma_Timestamp := Some ts |}) a)
  end.

Definition publishAuthRejection (clusterPath newNodeID reason : string) (a : Authenticator) : Authenticator :=
  let '(ts, a) := au_now a in
  match id_Sign (au_id a) (rejection_content newNodeID clusterPath reason ts) with
  | None => a
  | Some sig =>
      snd (publishAuthMessage ctx_done clusterPath "auth_rejected"
             (marshalRejected {| mr_NewNodeId := newNodeID; mr_RejectingNodeId := au_self a; mr_ClusterPath := clusterPath; mr_Reason := reason;
                                 mr_Signature := sig; mr_Timestamp := Some ts |}) a)
  end.

(** The certificate of an announcement, when it has one. *)
Definition certificate_ok (clusterPath : string) (ann : NewMemberAnnouncement) (voucherPubKey : bytes) (a : Authenticator) : bool :=
  match na_Certificate ann with
  | None => true
  | Some cert =>
      match GetProvider clusterPath a with
      | Some provider => VerifyNodeCertificate provider cert
      | None => VerifyCertificateInAnnouncement ann voucherPubKey
      end
  end.

(** The verdict of the checks: [None] when all pass, else the reason of the
    rejection. *)
Definition check_announcement (clusterPath : string) (ann : NewMemberAnnouncement) : ST Authenticator (option string) := fun a =>
  if id_rejectAll (au_id a) then (Some "rejection forced by test flag", a)
  else if na_ClusterPath ann <>s clusterPath then (Some "cluster path mismatch", a)
  else
    let '(revoked, a) := IsNodeRevoked clusterPath (na_VoucherNodeId ann) a in
    if revoked : bool then (Some "voucher node certificate is revoked", a) else
    match lookupPublicKey (na_VoucherNodeId ann) clusterPath a with
    | (Err _, a) => (Some "unknown voucher node", a)
    | (Ok voucherPubKey, a) =>
        let content := AnnouncementContent (na_NewNodeId ann) (na_ClusterPath ann) (na_NewNodeAddrs ann) (na_PublicKey ann) in
        if negb (key_Verify voucherPubKey content (na_VoucherSignature ann)) then (Some "invalid voucher signature", a)
        else if negb (certificate_ok clusterPath ann voucherPubKey a) then (Some "invalid certificate", a)
        else (None, a)
    end.

Definition announced_member (ann : NewMemberAnnouncement) : MemberInfo :=
  {| mi_NodeID := na_NewNodeId ann; mi_Addresses := na_NewNodeAddrs ann; mi_PublicKey := na_PublicKey ann;
     mi_Capabilities := event_caps <$> na_Capabilities ann |}.

(** The confirmation that is published without a topic ends the process
    before the member is put on the bus. *)
Definition handleNewMemberAnnouncement (clusterPath : string) (envelope : AuthMessage) (a : Authenticator) : Authenticator :=
  match unmarshalNewMember (am_Payload envelope) with
  | None => a
  | Some ann =>
      match check_announcement clusterPath ann a with
      | (Some reason, a) => publishAuthRejection clusterPath (na_NewNodeId ann) reason a
      | (None, a) =>
          let a := publishAuthConfirmation clusterPath (na_NewNodeId ann) a in
          if au_crashed a then a else publish_event (AMember (NewMemberReceived clusterPath (announced_member ann))) a
      end
  end.

(** *** Votes *)

Definition pendingKey (nodeID clusterPath : string) : string := nodeID +:+ ":" +:+ clusterPath.

(** A send to the channel of capacity one; a full channel drops it. *)
Definition offer (r : AuthResult) (d : option AuthResult) : option AuthResult := match d with None => Some r | Some _ => d end.

Definition pa_confirm (node : string) (p : PendingAuth) : PendingAuth :=
  let conf := <[node := tt]> (pa_Confirmations p) in
  {| pa_NodeID := pa_NodeID p; pa_ClusterPath := pa_ClusterPath p; pa_Certificate := pa_Certificate p; pa_Confirmations := conf;
     pa_Rejections := pa_Rejections p;
     pa_Done := if (MinConfirmationsRequired <=? size conf)%nat && (size (pa_Rejections p) =? 0)%nat
                then offer {| ar_Confirmed := true; ar_Reason := "" |} (pa_Done p) else pa_Done p;
     pa_StartedAt := pa_StartedAt p |}.
Definition pa_reject (node reason : string) (p : PendingAuth) : PendingAuth :=
  {| pa_NodeID := pa_NodeID p; pa_ClusterPath := pa_ClusterPath p; pa_Certificate := pa_Certificate p; pa_Confirmations := pa_Confirmations p;
     pa_Rejections := <[node := reason]> (pa_Rejections p);
     pa_Done := offer {| ar_Confirmed := false; ar_Reason := reason |} (pa_Done p); pa_StartedAt := pa_StartedAt p |}.

(** Changes the pending authentication with that key, if there is one. *)
Definition on_pending (key : string) (f : PendingAuth -> PendingAuth) (a : Authenticator) : Authenticator :=
  match au_pendingAuth a !! key with None => a | Some ref => set_pendings (alter f ref (au_pendings a)) a end.

Definition handleAuthConfirmed (clusterPath : string) (envelope : AuthMessage) (a : Authenticator) : Authenticator :=
  match unmarshalConfirmed (am_Payload envelope) with
  | None => a
  | Some m =>
      match lookupPublicKey (ma_ConfirmingNodeId m) clusterPath a with
      | (Err _, a) => a
      | (Ok key, a) =>
          if negb (key_Verify key (confirmation_content (ma_NewNodeId m) clusterPath (AsTime (ma_Timestamp m))) (ma_Signature m)) then a
          else on_pending (pendingKey (ma_NewNodeId m) clusterPath) (pa_confirm (ma_ConfirmingNodeId m)) a
      end
  end.

Definition handleAuthRejected (clusterPath : string) (envelope : AuthMessage) (a : Authenticator) : Authenticator :=
  match unmarshalRejected (am_Payload envelope) with
  | None => a
  | Some m =>
      match lookupPublicKey (mr_RejectingNodeId m) clusterPath a with
      | (Err _, a) => a
      | (Ok key, a) =>
          if negb (key_Verify key (rejection_content (mr_NewNodeId m) clusterPath (mr_Reason m) (AsTime (mr_Timestamp m))) (mr_Signature m)) then a
          else on_pending (pendingKey (mr_NewNodeId m) clusterPath) (pa_reject (mr_RejectingNodeId m) (mr_Reason m)) a
      end
  end.

(** *** Revocations *)

Definition handleCertRevoked (clusterPath : string) (envelope : AuthMessage) (a : Authenticator) : Authenticator :=
  match unmarshalRevocation (am_Payload envelope) with
  | None => a
  | Some r =>
      match lookupPublicKey (cr_RevokedBy r) clusterPath a with
      | (Err _, a) => a
      | (Ok key, a) =>
          if negb (key_Verify key (revocation_content r) (cr_Signature r)) then a
          else snd (revoke_in clusterPath
                 {| re_CertFingerprint := cr_CertFingerprint r; re_NodeID := cr_NodeId r; re_ClusterPath := cr_ClusterPath r;
                    re_RevokedAt := AsTime (cr_RevokedAt r); re_Reason := cr_Reason r; re_RevokedBy := cr_RevokedBy r |} a)
      end
  end.

(** *** Receiving *)

Definition dispatch_auth (clusterPath : string) (envelope : AuthMessage) (a : Authenticator) : Authenticator :=
  if am_Type envelope =s "new_member" then handleNewMemberAnnouncement clusterPath envelope a
  else if am_Type envelope =s "auth_confirmed" then handleAuthConfirmed clusterPath envelope a
  else if am_Type envelope =s "auth_rejected" then handleAuthRejected clusterPath envelope a
  else if am_Type envelope =s "cert_revoked" then handleCertRevoked clusterPath envelope a
  else a.

Definition handleAuthPubSubMessage (clusterPath : string) (data : bytes) (a : Authenticator) : Authenticator :=
  let '(t1, a) := au_now a in
  let '(t2, a) := au_now a in
  let '(dup, d) := dedup.IsDuplicate t1 t2 data (au_dedup a) in
  let a := set_dedup d a in
  if dup : bool then a else
  match unmarshalAuth data with
  | None => a
  | Some envelope =>
      let '(now, a) := au_now a in
      if MaxMessageAge <? time_Sub now (AsTime (am_Timestamp envelope)) then a else
      match am_Signature envelope with
      | None => a
      | Some _ =>
          match lookupPublicKey (am_SenderId envelope) clusterPath a with
          | (Err _, a) => a
          | (Ok senderPubKey, a) => if negb (verifyMessageSignature envelope senderPubKey) then a else dispatch_auth clusterPath envelope a
          end
      end
  end.

(** A message that a loop gets from its subscription. *)
Definition authMessageLoop (clusterPath receivedFrom : string) (data : bytes) (a : Authenticator) : Authenticator :=
  if receivedFrom =s au_self a then a else handleAuthPubSubMessage clusterPath data a.

Definition AnnouncePresence (clusterPath : string) : ST Authenticator (result AuthError unit) := fun a =>
  let self := au_self a in
  match id_Sign (au_id a) (AnnouncementContent self clusterPath (id_addrs (au_id a)) (id_PublicKey (au_id a))) with
  | None => (Err ErrSign, a)
  | Some sig =>
      let '(ts, a) := au_now a in
      publishAuthMessage ctx_done clusterPath "new_member"
        (marshalNewMember {| na_NewNodeId := self; na_NewNodeAddrs := id_addrs (au_id a); na_Capabilities := None; na_ClusterPath := clusterPath;
                             na_VoucherNodeId := self; na_VoucherSignature := sig; na_PublicKey := id_PublicKey (au_id a); na_Timestamp := Some ts;
                             na_Certificate := None |}) a
  end.

(** *** The revocation source of the sync: [node/revocation_adapter.go] *)

Definition adapter_GetRevocations (clusterPath : string) (a : Authenticator) : list RevocationEntry := rl_List (fst (GetRevocationList clusterPath a)).
Definition adapter_MergeRevocations (clusterPath : string) (entries : list RevocationEntry) : ST Authenticator (result string Z) := fun a =>
  let '(rl, a) := GetRevocationList clusterPath a in
  let '(r, rl) := rl_Sync entries rl in
  (r, set_revocations (<[clusterPath := rl]> (au_revocations a)) a).

End Gossip.

(** ** Theorems *)

Section Facts.
Context `{I : IPhonebook} `{L : !IPhonebookLaws I} `{R : GoRange} `{H : Sha256} `{A : Aead} `{K : AuthCrypto} `{T : Certs} `{P : AuthCodec}.
Context `{PL : !AuthCodecLaws P}.
Variable ctx_done : Authenticator -> bool.

(** [a'] differs from [a] in readings of the clock and of the phonebook, and
    in what the deduplicator has seen. *)
Record undisturbed (a a' : Authenticator) : Prop := {
  un_id : au_id a' = au_id a; un_keys : au_hmacKeys a' = au_hmacKeys a; un_roots : au_rootKeys a' = au_rootKeys a; un_providers : au_providers a' = au_providers a;
  un_revocations : au_revocations a' = au_revocations a; un_topics : au_topics a' = au_topics a; un_sessions : au_sessions a' = au_sessions a;
  un_pending : au_pendingAuth a' = au_pendingAuth a; un_pendings : au_pendings a' = au_pendings a; un_ps : au_ps a' = au_ps a; un_bus : au_bus a' = au_bus a;
  un_crashed : au_crashed a' = au_crashed a; un_members : sound (au_pb a') /\ members (au_pb a') = members (au_pb a)
}.

Lemma undisturbed_refl a : sound (au_pb a) -> undisturbed a a.
Proof. by split. Qed.

Lemma undisturbed_trans a b c : undisturbed a b -> undisturbed b c -> undisturbed a c.
Proof. intros [] []. split; try congruence. split; [tauto|]. destruct un_members0, un_members1. congruence. Qed.

Lemma lookup_undisturbed n c a : sound (au_pb a) -> exists a', undisturbed a a' /\
  lookupPublicKey n c a = (match members (au_pb a) !! (n, c) with
                           | Some e => if key_parses (e_PublicKey e) then Ok (e_PublicKey e) else Err ErrBadKey
                           | None => Err ErrNoPhonebookEntry end, a').
Proof.
  intros Hs. unfold lookupPublicKey. destruct (Get_law n c (au_pb a) Hs) as (pb & -> & Hs' & Hm). exists (set_pb pb a). split; [by split|].
  destruct (members (au_pb a) !! (n, c)) as [e|]; [|done]. by destruct (key_parses _).
Qed.

(** The key of a member, when it parses. *)
Definition member_key (n c : string) (a : Authenticator) : option bytes :=
  match members (au_pb a) !! (n, c) with Some e => if key_parses (e_PublicKey e) then Some (e_PublicKey e) else None | None => None end.

Lemma member_key_same n c a a' : undisturbed a a' -> member_key n c a' = member_key n c a.
Proof. intros U. unfold member_key. by rewrite (proj2 (un_members _ _ U)). Qed.

Lemma lookup_member n c a : sound (au_pb a) -> exists a', undisturbed a a' /\
  match member_key n c a with Some k => lookupPublicKey n c a = (Ok k, a') | None => exists e, lookupPublicKey n c a = (Err e, a') end.
Proof.
  intros Hs. destruct (lookup_undisturbed n c a Hs) as (a' & U & E). exists a'. split; [done|]. rewrite E. unfold member_key.
  destruct (members (au_pb a) !! (n, c)) as [e|]; [|by eexists]. destruct (key_parses _); [done|by eexists].
Qed.

(** An envelope that a member signed. *)
Definition signed_by_member (c : string) (env : AuthMessage) (a : Authenticator) : bool :=
  match am_Signature env, member_key (am_SenderId env) c a with Some _, Some k => verifyMessageSignature env k | _, _ => false end.

(** Only messages that a member signed have an effect.  A message
    of the auth topic that does not parse, or is older than 30 seconds, or is
    not signed with the key the phonebook has for its sender in this cluster,
    changes nothing: no vote, no revocation, no event, no answer. *)
Theorem auth_ignores_unverified c from data a (Hs : sound (au_pb a))
    (Hbad : forall env, unmarshalAuth data = Some env -> signed_by_member c env a = false) :
  undisturbed a (authMessageLoop ctx_done c from data a).
Proof.
  unfold authMessageLoop. destruct (from =s au_self a); [by apply undisturbed_refl|]. unfold handleAuthPubSubMessage, au_now.
  destruct (dedup.IsDuplicate _ _ _ _) as [dup d]. destruct dup; [by split|]. destruct (unmarshalAuth data) as [env|] eqn:Eu; [|by split].
  destruct (MaxMessageAge <? _); [by split|]. specialize (Hbad env eq_refl). unfold signed_by_member in Hbad. destruct (am_Signature env); [|by split].
  match goal with |- context [lookupPublicKey _ _ ?x] => set (a1 := x) end.
  assert (U1 : undisturbed a a1) by (by split). destruct (lookup_member (am_SenderId env) c a1) as (a2 & U2 & E); [apply (un_members _ _ U1)|].
  rewrite (member_key_same _ _ a a1 U1) in E. destruct (member_key (am_SenderId env) c a) as [k|].
  - rewrite E, Hbad. cbn [negb]. by eapply undisturbed_trans.
  - destruct E as [e ->]. by eapply undisturbed_trans.
Qed.

(** Nothing with these bytes was accepted in the last 30 seconds. *)
Definition fresh_message (data : bytes) (a : Authenticator) : Prop := fst (dedup.IsDuplicate (id_clock (au_id a) (au_ticks a)) (id_clock (au_id a) (S (au_ticks a))) data (au_dedup a)) = false.

Lemma loop_dispatches c from data env a : sound (au_pb a) -> from <> au_self a -> fresh_message data a -> unmarshalAuth data = Some env ->
  time_Sub (id_clock (au_id a) (S (S (au_ticks a)))) (AsTime (am_Timestamp env)) <= MaxMessageAge -> signed_by_member c env a = true ->
  exists a', undisturbed a a' /\ authMessageLoop ctx_done c from data a = dispatch_auth ctx_done c env a'.
Proof.
  intros Hs Hf Hd Hu Ht Hsig. unfold authMessageLoop. rewrite (proj2 (String.eqb_neq _ _) Hf). unfold handleAuthPubSubMessage, au_now. unfold fresh_message in Hd.
  cbn [au_id au_ticks au_dedup set_ticks]. destruct (dedup.IsDuplicate _ _ _ _) as [dup d]. cbn [fst] in Hd. subst dup. rewrite Hu.
  cbn [au_id au_ticks set_ticks set_dedup]. destruct (Z.ltb_spec MaxMessageAge (time_Sub (id_clock (au_id a) (S (S (au_ticks a)))) (AsTime (am_Timestamp env)))); [lia|].
  unfold signed_by_member in Hsig. destruct (am_Signature env); [|done].
  match goal with |- context [lookupPublicKey _ _ ?x] => set (a1 := x) end.
  assert (U1 : undisturbed a a1) by (by split). destruct (lookup_member (am_SenderId env) c a1) as (a2 & U2 & E); [apply (un_members _ _ U1)|].
  rewrite (member_key_same _ _ a a1 U1) in E. destruct (member_key (am_SenderId env) c a) as [k|]; [|done]. rewrite E, Hsig. cbn [negb].
  exists a2. split; [by eapply undisturbed_trans|done].
Qed.

(** *** Votes *)

Inductive vote := VConfirm (node : string) | VReject (node reason : string).
Definition cast (p : PendingAuth) (v : vote) : PendingAuth := match v with VConfirm n => pa_confirm n p | VReject n r => pa_reject n r p end.
Definition vote_result (v : vote) : AuthResult :=
  match v with VConfirm _ => {| ar_Confirmed := true; ar_Reason := "" |} | VReject _ r => {| ar_Confirmed := false; ar_Reason := r |} end.

Definition no_votes (p : PendingAuth) : Prop := pa_Confirmations p = ∅ /\ pa_Rejections p = ∅ /\ pa_Done p = None.

Lemma cast_settled p v r : pa_Done p = Some r -> pa_Done (cast p v) = Some r.
Proof. intros Hp. destruct v as [n|n reason]; cbn; rewrite Hp; [by destruct (_ && _)|done]. Qed.

Lemma first_vote votes p : no_votes p -> pa_Done (fold_left cast votes p) = vote_result <$> head votes.
Proof.
  intros Hp. destruct Hp as (Hc & Hr & Hd). destruct votes as [|v votes]; [done|]. cbn [fold_left head fmap option_fmap option_map].
  assert (H0 : pa_Done (cast p v) = Some (vote_result v)).
  { destruct v as [n|n reason]; cbn; rewrite Hd; [|done]. rewrite Hc, Hr, map_size_empty. by rewrite map_size_insert_None by apply lookup_empty. }
  clear Hc Hr Hd. revert H0. generalize (cast p v). induction votes as [|w votes IH]; intros q Hq; [done|]. cbn [fold_left]. apply IH. by apply cast_settled.
Qed.

(** The first vote decides.  Of the votes on a pending member, in
    whatever order and number, the first one is the result, also when it is
    followed by rejections; without votes there is none. *)
Theorem auth_first_vote_decides votes p (Hp : no_votes p) :
  pa_Done (fold_left cast votes p) = vote_result <$> head votes.
Proof. by apply first_vote. Qed.

(** *** Announcements *)

(** Publishing needs a topic: without one the process crashes. *)
Lemma publish_crashes c ty payload a : au_topics a !! c = None -> au_crashed (snd (publishAuthMessage ctx_done c ty payload a)) = true.
Proof. intros Hc. unfold publishAuthMessage. by rewrite Hc. Qed.

(** What publishing leaves alone. *)
Record still (a a' : Authenticator) : Prop := {
  st_id : au_id a' = au_id a; st_topics : au_topics a' = au_topics a; st_revocations : au_revocations a' = au_revocations a;
  st_pending : au_pendingAuth a' = au_pendingAuth a; st_pendings : au_pendings a' = au_pendings a; st_bus : au_bus a' = au_bus a; st_pb : au_pb a' = au_pb a;
  st_sessions : au_sessions a' = au_sessions a; st_providers : au_providers a' = au_providers a; st_net : ap_net (au_ps a') = ap_net (au_ps a)
}.

Lemma still_trans a b c : still a b -> still b c -> still a c.
Proof. intros [] []. split; congruence. Qed.

Lemma topic_publish_still t d a : still a (snd (topic_publish t d a)).
Proof. unfold topic_publish, ap_Publish. by destruct (ap_ok _). Qed.

(** What every attempt keeps, a publication with retries keeps. *)
Lemma retry_keeps (Q : Authenticator -> Authenticator -> Prop) (f : ST Authenticator (result AuthError unit)) done_ cfg a :
  (forall a, Q a a) -> (forall a b c, Q a b -> Q b c -> Q a c) -> (forall a, Q a (snd (f a))) -> Q a (snd (retry.Retry f done_ ErrContext cfg a)).
Proof.
  intros Hr Ht Hf. assert (Hat : forall left last a, Q a (snd (retry.attempts f done_ ErrContext left last a))).
  { induction left as [|n IH]; intros last b; cbn [retry.attempts]; [apply Hr|]. pose proof (Hf b) as Hs. destruct (f b) as [[u|e] a1]; [done|]. cbn [snd] in Hs.
    destruct n as [|n]; [by eapply Ht; [exact Hs|apply IH]|]. destruct (done_ a1); [done|]. by eapply Ht; [exact Hs|apply IH]. }
  unfold retry.Retry, retry.RetryWithResult. specialize (Hat (Z.to_nat (retry.MaxRetries cfg)) None a). by destruct (retry.attempts _ _ _ _ _ _) as [[r|e] a1].
Qed.

Lemma retry_still (f : ST Authenticator (result AuthError unit)) done_ cfg a : (forall a, still a (snd (f a))) -> still a (snd (retry.Retry f done_ ErrContext cfg a)).
Proof. apply (retry_keeps still); [by split|apply still_trans]. Qed.

Lemma publish_still c ty payload a : still a (snd (publishAuthMessage ctx_done c ty payload a)).
Proof.
  unfold publishAuthMessage. destruct (au_topics a !! c); [|by split]. destruct payload; [|by split]. unfold au_now.
  destruct (marshalAuth _) as [data|]; [|by split]. eapply still_trans; [|apply retry_still, topic_publish_still]. by split.
Qed.

Lemma step2_still c ann a : still a (snd (publishStep2 ctx_done c ann a)).
Proof. apply retry_still. intros b. apply publish_still. Qed.

Lemma confirmation_still c n a : still a (publishAuthConfirmation ctx_done c n a).
Proof.
  unfold publishAuthConfirmation, au_now. destruct (id_Sign _ _); [|by split]. eapply still_trans; [|apply publish_still]. by split.
Qed.

(** The revocation list of a cluster, in memory or loaded. *)
Definition revocations_of (c : string) (a : Authenticator) : RevocationList := fst (GetRevocationList c a).

Lemma IsNodeRevoked_undisturbed c n a : exists a', IsNodeRevoked c n a = (rl_IsNodeRevoked n (revocations_of c a), a') /\
  au_id a' = au_id a /\ au_topics a' = au_topics a /\ au_pb a' = au_pb a /\ au_providers a' = au_providers a /\ au_bus a' = au_bus a /\
  au_pendingAuth a' = au_pendingAuth a /\ au_pendings a' = au_pendings a /\ au_sessions a' = au_sessions a /\ au_crashed a' = au_crashed a.
Proof. unfold IsNodeRevoked, revocations_of, GetRevocationList. destruct (au_revocations a !! c) as [rl|]; by eexists. Qed.

(** What a member demands of an announcement. *)
Definition acceptable (c : string) (ann : NewMemberAnnouncement) (a : Authenticator) : Prop :=
  id_rejectAll (au_id a) = false /\ na_ClusterPath ann = c /\ rl_IsNodeRevoked (na_VoucherNodeId ann) (revocations_of c a) = false /\
  exists k, member_key (na_VoucherNodeId ann) c a = Some k /\
    key_Verify k (AnnouncementContent (na_NewNodeId ann) c (na_NewNodeAddrs ann) (na_PublicKey ann)) (na_VoucherSignature ann) = true /\
    certificate_ok c ann k a = true.

Lemma check_announcement_spec c ann a : sound (au_pb a) -> exists r a', check_announcement c ann a = (r, a') /\ (r = None <-> acceptable c ann a) /\
  au_id a' = au_id a /\ au_topics a' = au_topics a /\ au_bus a' = au_bus a /\ members (au_pb a') = members (au_pb a) /\ sound (au_pb a') /\
  au_crashed a' = au_crashed a.
Proof.
  intros Hs. unfold check_announcement, acceptable. destruct (id_rejectAll (au_id a)); [eexists _, _; split_and!; try done; split; [done|by intros []]|].
  destruct (String.eqb_spec (na_ClusterPath ann) c) as [Ec|Hc]; cbn [negb]; [|eexists _, _; split_and!; try done; split; [done|by intros (_ & ? & _)]].
  destruct (IsNodeRevoked_undisturbed c (na_VoucherNodeId ann) a) as (a1 & -> & Hid & Ht & Hp & Hpr & Hb & _ & _ & _ & Hcr).
  destruct (rl_IsNodeRevoked _ _); [eexists _, _; split_and!; try done; [split; [done|by intros (_ & _ & ? & _)]|by rewrite ?Hp..]|].
  destruct (lookup_member (na_VoucherNodeId ann) c a1) as (a2 & U & E); [by rewrite Hp|]. pose proof (un_members _ _ U) as [Hs2 Hm2].
  assert (Hk : member_key (na_VoucherNodeId ann) c a1 = member_key (na_VoucherNodeId ann) c a) by (unfold member_key; by rewrite Hp). rewrite Hk in E.
  assert (Hrest : au_id a2 = au_id a /\ au_topics a2 = au_topics a /\ au_bus a2 = au_bus a /\ members (au_pb a2) = members (au_pb a) /\ sound (au_pb a2) /\
    au_crashed a2 = au_crashed a).
  { destruct U. split_and!; congruence. }
  assert (Hcert : forall k, certificate_ok c ann k a2 = certificate_ok c ann k a).
  { intros k. unfold certificate_ok, GetProvider. by rewrite (un_providers _ _ U), Hpr. }
  destruct (member_key (na_VoucherNodeId ann) c a) as [k|]; [|destruct E as [e ->]; eexists _, _; split; [done|]; split; [|done]; split; [done|by intros (_ & _ & _ & k & ? & _)]].
  rewrite E, Ec, Hcert. destruct (key_Verify k _ _) eqn:Ev; cbn [negb]; [|eexists _, _; split; [done|]; split; [|done]; split; [done|]].
  - destruct (certificate_ok c ann k a) eqn:Eo; cbn [negb]; eexists _, _; (split; [done|]); (split; [|done]).
    + split; [intros _|done]. split_and!; try done. by exists k.
    + split; [done|]. intros (_ & _ & _ & k' & [= <-] & _ & Ho). congruence.
  - intros (_ & _ & _ & k' & [= <-] & Hv & _). congruence.
Qed.

(** Publishing ends the process only without a topic. *)
Lemma publish_alive c ty payload a u : au_topics a !! c = Some u -> au_crashed (snd (publishAuthMessage ctx_done c ty payload a)) = au_crashed a.
Proof.
  intros Hc. unfold publishAuthMessage. rewrite Hc. destruct payload; [|done]. unfold au_now. destruct (marshalAuth _) as [data|]; [|done].
  change (au_crashed a) with (au_crashed (set_ticks (S (au_ticks a)) a)).
  apply (retry_keeps (fun x y => au_crashed y = au_crashed x)); [done|congruence|]. intros b. unfold topic_publish, ap_Publish. by destruct (ap_ok _).
Qed.

Lemma confirmation_crash c n a : au_crashed a = false -> au_crashed (publishAuthConfirmation ctx_done c n a) = true <->
  au_topics a !! c = None /\ is_Some (id_Sign (au_id a) (confirmation_content n c (id_clock (au_id a) (au_ticks a)))).
Proof.
  intros Hup. unfold publishAuthConfirmation, au_now. cbn [au_id set_ticks]. destruct (id_Sign _ _) as [sig|]; [|split; [by cbn; rewrite Hup|by intros (_ & [? ?])]].
  destruct (au_topics a !! c) as [u|] eqn:E; [rewrite (publish_alive _ _ _ _ u) by exact E|rewrite publish_crashes by exact E]; cbn [au_crashed set_ticks]; [rewrite Hup|].
  - by split; [|intros [? _]].
  - split; [by eauto|done].
Qed.

(** C27: members admit exactly the announcements that a member vouches for.
    A running member that handles a well-formed announcement accepts it when
    it was not started to reject every announcement, the path matches, the
    voucher is a member that is not revoked and signed it, and the
    certificate, if there is one, is valid.  It then puts the new member on
    the bus, with the key and addresses of the announcement, if it is
    subscribed to the topic of the cluster; if it is not and can sign its
    confirmation, publishing the confirmation ends the process and nothing
    is put on the bus.  Nothing is put on the bus for an announcement it
    does not accept. *)
Theorem auth_announcement_exact c env ann a (Hs : sound (au_pb a)) (Hup : au_crashed a = false) (Hu : unmarshalNewMember (am_Payload env) = Some ann) :
  let a' := handleNewMemberAnnouncement ctx_done c env a in
  (acceptable c ann a -> is_Some (au_topics a !! c) ->
     au_crashed a' = false /\ au_bus a' = au_bus a ++ [AMember (NewMemberReceived c (announced_member ann))]) /\
  (acceptable c ann a -> au_topics a !! c = None -> (forall m, is_Some (id_Sign (au_id a) m)) -> au_crashed a' = true /\ au_bus a' = au_bus a) /\
  (~ acceptable c ann a -> au_bus a' = au_bus a).
Proof.
  cbv zeta. unfold handleNewMemberAnnouncement. rewrite Hu. destruct (check_announcement_spec c ann a Hs) as (r & a1 & -> & Hr & Hid & Ht & Hb & _ & _ & Hcr).
  destruct r as [reason|].
  - split; [by intros Hok; apply Hr in Hok|]. split; [by intros Hok; apply Hr in Hok|]. intros _. unfold publishAuthRejection, au_now. destruct (id_Sign _ _); [|done].
    rewrite (st_bus _ _ (publish_still _ _ _ _)). exact Hb.
  - pose proof (confirmation_crash c (na_NewNodeId ann) a1) as Hc. rewrite Hcr, Ht, Hid in Hc. specialize (Hc Hup).
    pose proof (st_bus _ _ (confirmation_still c (na_NewNodeId ann) a1)) as Hst. rewrite Hb in Hst.
    destruct (au_crashed (publishAuthConfirmation _ _ _ _)) eqn:E; (split; [|split; [|by intros Hno; destruct Hno; apply Hr]]).
    + intros _ [u Hu']. destruct (proj1 Hc eq_refl) as [Hn _]. congruence.
    + done.
    + intros _ _. split; [exact E|]. unfold publish_event. cbn [au_bus set_bus]. by rewrite Hst.
    + intros _ Hn Hsg. exfalso. assert (false = true) by (apply Hc; split; [exact Hn|apply Hsg]). done.
Qed.

(** A node that left a cluster crashes with its next message.  The
    loop of the auth topic keeps running after the node has left; the first
    announcement of a member that it can sign an answer to, valid or not, is
    answered on a topic that is no longer there. *)
Theorem auth_leave_then_crash c from data env ann a
    (Hs : sound (au_pb a)) (Hself : from <> au_self a) (Hfresh : fresh_message data a) (Hu : unmarshalAuth data = Some env)
    (Ht : time_Sub (id_clock (au_id a) (S (S (au_ticks a)))) (AsTime (am_Timestamp env)) <= MaxMessageAge)
    (Hsig : signed_by_member c env a = true) (Hty : am_Type env = "new_member") (Hann : unmarshalNewMember (am_Payload env) = Some ann)
    (Hsign : forall b, is_Some (id_Sign (au_id a) b)) :
  au_crashed (authMessageLoop ctx_done c from data (auth_LeaveCluster c a)) = true.
Proof.
  set (b := auth_LeaveCluster c a). assert (Hb : au_pb b = au_pb a /\ au_id b = au_id a /\ au_ticks b = au_ticks a /\ au_dedup b = au_dedup a /\ au_topics b !! c = None).
  { unfold b, auth_LeaveCluster, UnsubscribeFromCluster. destruct (au_topics a !! c) eqn:E; cbn; split_and!; try done. apply lookup_delete_eq. }
  destruct Hb as (Hpb & Hid & Htk & Hdd & Htop).
  destruct (loop_dispatches c from data env b) as (a1 & U & ->); [by rewrite Hpb|by unfold au_self; rewrite Hid|unfold fresh_message; by rewrite Hid, Htk, Hdd|done|by rewrite Hid, Htk|
    unfold signed_by_member, member_key in *; by rewrite Hpb|].
  unfold dispatch_auth. rewrite Hty. cbn [String.eqb]. unfold handleNewMemberAnnouncement. rewrite Hann.
  destruct (check_announcement_spec c ann a1) as (r & a2 & E & _ & Hid2 & Ht2 & _); [apply (un_members _ _ U)|].
  change ("new_member" =s "new_member") with true. cbn [negb]. rewrite E.
  assert (Hn : au_topics a2 !! c = None) by (rewrite Ht2, (un_topics _ _ U); done).
  assert (Hsg : forall x, is_Some (id_Sign (au_id a2) x)) by (intros x; rewrite Hid2, (un_id _ _ U), Hid; apply Hsign).
  destruct r as [reason|]; [unfold publishAuthRejection|unfold publishAuthConfirmation]; unfold au_now; cbn [au_id set_ticks].
  - destruct (Hsg (rejection_content (na_NewNodeId ann) c reason (id_clock (au_id a2) (au_ticks a2)))) as [sig ->]. by apply publish_crashes.
  - destruct (Hsg (confirmation_content (na_NewNodeId ann) c (id_clock (au_id a2) (au_ticks a2)))) as [sig ->]. cbv zeta. rewrite publish_crashes by exact Hn. by apply publish_crashes.
Qed.

(** *** Revocations *)

(** The node signs, its messages encode, and the first attempt to send one
    succeeds. *)
Definition publishing (c : string) (a : Authenticator) : Prop := is_Some (au_topics a !! c) /\ forall n, ap_net (au_ps a) n = true.
(** Signatures of [a] verify with the key [k]. *)
Definition signs_with (k : bytes) (a : Authenticator) : Prop := forall m, exists sig, id_Sign (au_id a) m = Some sig /\ key_Verify k m sig = true.

(** The messages of type [ty] that [a] sends can be encoded. *)
Definition encodes (ty : string) (a : Authenticator) : Prop := forall m, am_Type m = ty -> am_SenderId m = au_self a -> is_Some (marshalAuth m).

Lemma publish_ok c ty b k a : publishing c a -> signs_with k a -> encodes ty a -> exists a' env data ts,
  publishAuthMessage ctx_done c ty (Some b) a = (Ok tt, a') /\ still a a' /\ ap_wire (au_ps a') = ap_wire (au_ps a) ++ [(BuildAuthTopic c, data)] /\
  unmarshalAuth data = Some env /\ am_Type env = ty /\ am_Payload env = b /\ am_SenderId env = au_self a /\ am_Timestamp env = Some ts /\
  ts = id_clock (au_id a) (au_ticks a) /\ is_Some (am_Signature env) /\ verifyMessageSignature env k = true.
Proof.
  intros [[u Ht] Hn] Hk Hm. pose proof (publish_still c ty (Some b) a) as Hst. unfold publishAuthMessage in *. rewrite Ht in *. unfold au_now in *.
  set (ts := id_clock (au_id a) (au_ticks a)) in *. unfold signMessage in *. cbn [au_id set_ticks] in *.
  destruct (Hk (authMessageContent {| am_Type := ty; am_Payload := b; am_SenderId := au_self (set_ticks (S (au_ticks a)) a); am_Timestamp := Some ts; am_Signature := None |})) as (sig & Hs & Hv).
  rewrite Hs in *. set (env := {| am_Signature := Some sig |}) in *. destruct (Hm env eq_refl eq_refl) as [data Hd]. rewrite Hd in *.
  unfold retry.Retry, retry.RetryWithResult in *. cbn [retry.MaxRetries retry.DefaultRetryConfig Z.to_nat Pos.to_nat Pos.iter_op] in *.
  change (Z.to_nat 3) with 3%nat in *. cbn [retry.attempts] in *. unfold topic_publish, ap_Publish, ap_ok in *. cbn [au_ps set_ticks] in *. rewrite Hn in *.
  eexists _, env, data, ts. split; [done|]. split; [exact Hst|]. split; [done|]. split; [exact (auth_roundtrip _ _ Hd)|]. split_and!; try done.
Qed.

Lemma revocations_of_same c x y : au_revocations x = au_revocations y -> au_id x = au_id y -> revocations_of c x = revocations_of c y.
Proof. intros H1 H2. unfold revocations_of, GetRevocationList. rewrite H1. destruct (au_revocations y !! c); [done|]. by rewrite H2. Qed.

Lemma revoke_in_stores `{CL : !CertsLaws T} c ent x : (forall e rl, fst (Revoke e rl) = true) -> exists x', revoke_in c ent x = (true, x') /\
  rl_IsNodeRevoked (re_NodeID ent) (revocations_of c x') = true /\ rl_IsRevoked (re_CertFingerprint ent) (revocations_of c x') = true /\
  au_id x' = au_id x /\ au_topics x' = au_topics x /\ au_ps x' = au_ps x /\ au_ticks x' = au_ticks x.
Proof.
  intros Hstore. unfold revoke_in. destruct (GetRevocationList c x) as [rl x1] eqn:E. pose proof (Hstore ent rl) as Hok. destruct (Revoke ent rl) as [ok rl'] eqn:Er.
  cbn in Hok. subst ok. destruct (Revoke_law ent rl rl' Er) as [H1 H2]. eexists. split; [done|]. unfold revocations_of, GetRevocationList. cbn. rewrite lookup_insert_eq. cbn.
  rewrite H1, H2, !String.eqb_refl. unfold GetRevocationList in E. destruct (au_revocations x !! c); by injection E as <- <-.
Qed.

(** A member with the key of the sender stores a signed revocation. *)
Lemma revocation_handled `{CL : !CertsLaws T} c env r k b : (forall e rl, fst (Revoke e rl) = true) -> sound (au_pb b) ->
  unmarshalRevocation (am_Payload env) = Some r -> member_key (cr_RevokedBy r) c b = Some k -> key_Verify k (revocation_content r) (cr_Signature r) = true ->
  let b' := handleCertRevoked c env b in
  rl_IsNodeRevoked (cr_NodeId r) (revocations_of c b') = true /\ rl_IsRevoked (cr_CertFingerprint r) (revocations_of c b') = true.
Proof.
  intros Hstore Hs Hu Hk Hv. cbv zeta. unfold handleCertRevoked. rewrite Hu. destruct (lookup_member (cr_RevokedBy r) c b Hs) as (b2 & _ & E). rewrite Hk in E.
  rewrite E, Hv. cbn [negb]. match goal with |- context [revoke_in c ?ent ?x] => destruct (revoke_in_stores c ent x Hstore) as (b3 & -> & Hn & Hf & _) end. done.
Qed.

(** A revocation reaches the members.  When a node revokes a
    certificate, one message goes out, and every member that has its key and
    receives the message in time has the node and the certificate revoked
    from then on, so that it accepts neither its joining nor its vouching. *)
Theorem auth_revocation_spreads `{CL : !CertsLaws T} c node reason fp k e a b
    (Hpub : publishing c a) (Hk : signs_with k a) (Hm : forall m, is_Some (marshalAuth m)) (Hr : forall m, is_Some (marshalRevocation m))
    (Hstore : forall e rl, fst (Revoke e rl) = true)
    (Hsb : sound (au_pb b)) (He : members (au_pb b) !! (au_self a, c) = Some e) (Hke : e_PublicKey e = k) (Hparse : key_parses k = true)
    (Hself : au_self a <> au_self b) :
  exists a' data, RevokeCertificate ctx_done node c reason fp a = (Ok tt, a') /\
    ap_wire (au_ps a') = ap_wire (au_ps a) ++ [(BuildAuthTopic c, data)] /\ rl_IsNodeRevoked node (revocations_of c a') = true /\
    (fresh_message data b -> time_Sub (id_clock (au_id b) (S (S (au_ticks b)))) (id_clock (au_id a) (S (S (au_ticks a)))) <= MaxMessageAge ->
     let b' := authMessageLoop ctx_done c (au_self a) data b in
     rl_IsNodeRevoked node (revocations_of c b') = true /\ rl_IsRevoked fp (revocations_of c b') = true).
Proof.
  unfold RevokeCertificate, au_now. match goal with |- context [revoke_in c ?ent ?x] => destruct (revoke_in_stores c ent x Hstore) as (a1 & -> & Hn1 & _ & Hid1 & Ht1 & Hp1 & Hk1) end.
  cbn [negb]. cbn [re_NodeID au_id set_ticks au_ticks au_ps au_topics] in *. rewrite Hid1, Hk1.
  set (rev := fun sig => {| cr_CertFingerprint := fp; cr_NodeId := node; cr_ClusterPath := c; cr_Reason := reason;
     cr_RevokedBy := au_self (set_ticks (S (S (au_ticks a))) a1); cr_RevokedAt := Some (id_clock (au_id a) (S (au_ticks a))); cr_Signature := sig |}).
  destruct (Hk (revocation_content (rev []))) as (sig & Es & Hv). change (revocation_content {| cr_Signature := [] |}) with (revocation_content (rev [])). rewrite Es.
  destruct (Hr (rev sig)) as [payload Hpay]. change (marshalRevocation {| cr_Signature := sig |}) with (marshalRevocation (rev sig)). rewrite Hpay.
  set (a2 := set_ticks (S (S (au_ticks a))) a1). destruct (publish_ok c "cert_revoked" payload k a2) as (a3 & env & data & ts & -> & St & Hw & Hu & Hty & Hpl & Hsd & Hts & Hte & Hsg & Hvf).
  { destruct Hpub as [H1 H2]. split; [by cbn; rewrite Ht1|intros n; cbn; by rewrite Hp1]. }
  { intros m. cbn. rewrite Hid1. apply Hk. }
  { intros m _ _. apply Hm. }
  exists a3, data. split; [done|]. split; [rewrite Hw; cbn; by rewrite Hp1|].
  split; [by rewrite (revocations_of_same c a3 a1) by (rewrite ?(st_revocations _ _ St), ?(st_id _ _ St); done)|].
  assert (Hsa : au_self a2 = au_self a) by (unfold au_self; cbn; by rewrite Hid1). intros Hfresh Htime.
  assert (Hmk : member_key (au_self a) c b = Some k) by (unfold member_key; by rewrite He, Hke, Hparse).
  destruct (loop_dispatches c (au_self a) data env b Hsb Hself Hfresh Hu) as (b1 & U & Eb); [rewrite Hts, Hte; cbn; by rewrite Hid1| |].
  { unfold signed_by_member. rewrite Hsd, Hsa, Hmk. destruct Hsg as [x ->]. done. }
  rewrite Eb. unfold dispatch_auth. rewrite Hty. change (let r := rev sig in let x := handleCertRevoked c env b1 in
    rl_IsNodeRevoked (cr_NodeId r) (revocations_of c x) = true /\ rl_IsRevoked (cr_CertFingerprint r) (revocations_of c x) = true).
  apply (revocation_handled c env (rev sig) k b1 Hstore); [apply (un_members _ _ U)|rewrite Hpl; exact (revocation_roundtrip _ _ Hpay)| |exact Hv].
  rewrite (member_key_same _ _ _ _ U). change (cr_RevokedBy (rev sig)) with (au_self a2). by rewrite Hsa.
Qed.

End Facts.
