(* ===== verification/Handshake.v ===== *)
(** * The authentication handshake ([handler.go], [reauth.go], [renewal.go])

    How a node joins a cluster.  The member that is asked (the voucher) runs
    [handleAuthStream]; the joining node runs [Authenticate], for a join
    request or after its session went stale.  Certificates are renewed by a
    second protocol.

    The handler waits at three points: for the answer to its challenge, for
    the phonebook to see the new member, for votes.  It is one definition per
    stretch between these points, so that anything can happen meanwhile, and
    [handleAuthStream] runs them with what the other tasks do in between.
    A failed write of the challenge ends the handler as a failed read of the
    answer does.  The other end of a stream is a function of what it is sent.
    The in-place zeroing of a key by [LeaveCluster] while a handshake still
    holds it is not modelled. *)

From S2P Require Import Prelude ElectionTopic Orbit Internals Shared Phonebook HealthMonitor RuntimeNode Syncer Auth AuthGossip.
Import signing secrets subscriber.
Local Open Scope string_scope.
Local Open Scope list_scope.
Local Open Scope Z_scope.

(** ** Messages of [auth.proto] *)

Record JoinRequest := {
  jr_NodeId : string; jr_ClusterPath : string; jr_Addresses : list string; jr_Capabilities : option AuthCapabilities; jr_Nonce : bytes; jr_PublicKey : bytes
}.
Record Challenge := { ch_Challenge : bytes; ch_ServerNonce : bytes }.
Record ChallengeResponse := { cp_Response : bytes; cp_Signature : bytes }.
Record Step1Result := { s1_Success : bool; s1_Step1Token : bytes; s1_Error : string }.
Record AuthMemberInfo := {
  am_NodeId : string; am_Addresses : list string; am_Capabilities : option AuthCapabilities; am_JoinedAt : option Time; am_PublicKey : bytes
}.
Record AuthComplete := { ac_FullyAuthenticated : bool; ac_ClusterMembers : list AuthMemberInfo; ac_NodeCertificate : option NodeCertificate }.
Record RenewalRequest := { rq_CurrentCert : option NodeCertificate; rq_NewPublicKey : bytes; rq_ClusterPath : string }.
Record RenewalResponse := { rs_Success : bool; rs_NewCert : option NodeCertificate; rs_Error : string }.

Definition ConfirmationTimeout : Duration := 15 * second.
Definition RenewalTimeout : Duration := 30 * second.
Definition MaxRenewalAttempts : Z := 3.
Definition ReauthSyncReason : string := "post_reauth".

Definition sendStep1Result (success : bool) (token : bytes) (errMsg : string) : Step1Result :=
  {| s1_Success := success; s1_Step1Token := token; s1_Error := errMsg |}.
Definition refused (errMsg : string) : Step1Result := sendStep1Result false [] errMsg.
Definition sendRenewalResponse (success : bool) (cert : option NodeCertificate) (errMsg : string) : RenewalResponse :=
  {| rs_Success := success; rs_NewCert := cert; rs_Error := errMsg |}.

(** [AuthComplete] with nothing but the flag, unset. *)
Definition not_authenticated : AuthComplete := {| ac_FullyAuthenticated := false; ac_ClusterMembers := []; ac_NodeCertificate := None |}.

Definition auth_caps (c : Capabilities) : AuthCapabilities :=
  {| ac_CpuCores := cap_CPUCores c; ac_MemoryMb := cap_MemoryMB c; ac_DiskGb := cap_DiskGB c; ac_Datacenter := cap_Datacenter c; ac_Tags := cap_Tags c;
     ac_Metadata := cap_Metadata c |}.
Definition member_info (e : Entry) : AuthMemberInfo :=
  {| am_NodeId := e_NodeID e; am_Addresses := e_Addresses e; am_Capabilities := auth_caps <$> e_Capabilities e; am_JoinedAt := Some (e_FirstSeen e);
     am_PublicKey := e_PublicKey e |}.
(** The subscriber of the event does not read [JoinedAt]. *)
Definition event_member (m : AuthMemberInfo) : MemberInfo :=
  {| mi_NodeID := am_NodeId m; mi_Addresses := am_Addresses m; mi_PublicKey := am_PublicKey m; mi_Capabilities := event_caps <$> am_Capabilities m |}.
Definition joining_member (req : JoinRequest) : MemberInfo :=
  {| mi_NodeID := jr_NodeId req; mi_Addresses := jr_Addresses req; mi_PublicKey := jr_PublicKey req; mi_Capabilities := event_caps <$> jr_Capabilities req |}.

Section Voucher.
Context `{I : IPhonebook} `{R : GoRange} `{H : Sha256} `{A : Aead} `{K : AuthCrypto} `{T : Certs} `{P : AuthCodec}.
Variable ctx_done : Authenticator -> bool.

(** ** The voucher *)

(** What a handler remembers while it waits for the answer. *)
Record Hello := { he_req : JoinRequest; he_hmacKey : bytes; he_challenge : bytes; he_serverNonce : bytes }.
Inductive Opening := NoRequest | TurnedAway (r : Step1Result) | Challenged (h : Hello).

Definition auth_open (remotePeer : string) (joinReq : option JoinRequest) : ST Authenticator Opening := fun a =>
  let '(now, a) := au_now a in
  let '(allowed, l) := ratelimit.Allow now remotePeer (au_limiter a) in
  let a := set_limiter l a in
  if negb allowed then (TurnedAway (refused "rate limited"), a) else
  match joinReq with
  | None => (NoRequest, a)
  | Some req =>
      match au_hmacKeys a !! jr_ClusterPath req with
      | None => (TurnedAway (refused "unknown cluster"), a)
      | Some hmacKey =>
          let '(revoked, a) := IsNodeRevoked (jr_ClusterPath req) (jr_NodeId req) a in
          if revoked : bool then (TurnedAway (refused "node certificate has been revoked"), a) else
          match au_read a with
          | (None, a) => (TurnedAway (refused "internal error"), a)
          | (Some serverNonce, a) =>
              match au_read a with
              | (None, a) => (TurnedAway (refused "internal error"), a)
              | (Some challenge, a) =>
                  (Challenged {| he_req := req; he_hmacKey := hmacKey; he_challenge := challenge; he_serverNonce := serverNonce |}, a)
              end
          end
      end
  end.

Definition buildNewMemberAnnouncement (nodeID clusterPath : string) (addresses : list string) (publicKey : bytes) (caps : option AuthCapabilities)
  : ST Authenticator (option NewMemberAnnouncement) := fun a =>
  match id_Sign (au_id a) (AnnouncementContent nodeID clusterPath addresses publicKey) with
  | None => (None, a)
  | Some voucherSig =>
      let '(ts, a) := au_now a in
      if negb (key_parses publicKey) then (None, a) else
      match GetProvider clusterPath a with
      | None => (None, a)
      | Some provider =>
          if negb (CanSign provider) then (None, a) else
          match SignForNode provider nodeID publicKey clusterPath with
          | None => (None, a)
          | Some cert =>
              (Some {| na_NewNodeId := nodeID; na_NewNodeAddrs := addresses; na_Capabilities := caps; na_ClusterPath := clusterPath;
                       na_VoucherNodeId := au_self a; na_VoucherSignature := voucherSig; na_PublicKey := publicKey; na_Timestamp := Some ts;
                       na_Certificate := Some cert |}, a)
          end
      end
  end.

(** The checks on the answer to the challenge. *)
Definition expectedResponse (h : Hello) : bytes := hmac_sha256 (he_hmacKey h) ((he_challenge h ++ jr_Nonce (he_req h)) ++ he_serverNonce h).
Definition check_answer (h : Hello) (resp : ChallengeResponse) : option string :=
  if negb (bool_decide (cp_Response resp = expectedResponse h)) then Some "authentication failed"
  else if negb (key_parses (jr_PublicKey (he_req h))) then Some "invalid public key"
  else if negb (key_Verify (jr_PublicKey (he_req h)) (cp_Response resp) (cp_Signature resp)) then Some "invalid signature"
  else None.

(** [Vouched] goes on with the announcement, after the first result. *)
Inductive Answered := NoAnswer | Denied (r : Step1Result) | Unannounced (r : Step1Result) (c : AuthComplete) | Vouched (r : Step1Result) (ann : NewMemberAnnouncement).

Definition auth_answer (h : Hello) (challengeResp : option ChallengeResponse) : ST Authenticator Answered := fun a =>
  match challengeResp with
  | None => (NoAnswer, a)
  | Some resp =>
      match check_answer h resp with
      | Some err => (Denied (refused err), a)
      | None =>
          let req := he_req h in
          let ok := sendStep1Result true [] "" in
          let a := publish_event (AMember (NewMemberAnnounced (jr_ClusterPath req) (joining_member req))) a in
          match buildNewMemberAnnouncement (jr_NodeId req) (jr_ClusterPath req) (jr_Addresses req) (jr_PublicKey req) (jr_Capabilities req) a with
          | (None, a) => (Unannounced ok not_authenticated, a)
          | (Some ann, a) => (Vouched ok ann, a)
          end
      end
  end.

Definition getClusterMembers (clusterPath : string) : ST Authenticator (list AuthMemberInfo) := fun a =>
  let '(r, pb) := pb_GetByCluster clusterPath (au_pb a) in
  (match r with Ok entries => member_info <$> entries | Err _ => [] end, set_pb pb a).

(** The last part of the handler: the members and the certificate. *)
Definition auth_complete (ann : NewMemberAnnouncement) : ST Authenticator AuthComplete := fun a =>
  let '(members, a) := getClusterMembers (na_ClusterPath ann) a in
  ({| ac_FullyAuthenticated := true; ac_ClusterMembers := members; ac_NodeCertificate := na_Certificate ann |}, a).

Definition new_pending (ann : NewMemberAnnouncement) (now : Time) : PendingAuth :=
  {| pa_NodeID := na_NewNodeId ann; pa_ClusterPath := na_ClusterPath ann; pa_Certificate := na_Certificate ann; pa_Confirmations := ∅; pa_Rejections := ∅;
     pa_Done := None; pa_StartedAt := now |}.
(** The deferred removal: by key, whatever it names now. *)
Definition drop_pending (ann : NewMemberAnnouncement) (a : Authenticator) : Authenticator :=
  set_pendingAuth (delete (pendingKey (na_NewNodeId ann) (na_ClusterPath ann)) (au_pendingAuth a)) a.

Inductive Broadcast := Finished (c : AuthComplete) | AwaitingVotes (ref : nat).

Definition auth_broadcast (ann : NewMemberAnnouncement) : ST Authenticator Broadcast := fun a =>
  let '(r, pb) := pb_GetByCluster (na_ClusterPath ann) (au_pb a) in
  let a := set_pb pb a in
  let clusterMemberCount := match r with Ok entries => length entries | Err _ => O end in
  if (0 <? clusterMemberCount)%nat then
    let '(now, a) := au_now a in
    let ref : nat := base.fresh (dom (au_pendings a) : gset nat) in
    let a := set_pendings (<[ref := new_pending ann now]> (au_pendings a)) a in
    let a := set_pendingAuth (<[pendingKey (na_NewNodeId ann) (na_ClusterPath ann) := ref]> (au_pendingAuth a)) a in
    match publishStep2 ctx_done (na_ClusterPath ann) ann a with
    | (Err _, a) => (Finished not_authenticated, drop_pending ann a)
    | (Ok _, a) => (AwaitingVotes ref, a)
    end
  else
    match publishStep2 ctx_done (na_ClusterPath ann) ann a with
    | (Err _, a) => (Finished not_authenticated, a)
    | (Ok _, a) => let '(c, a) := auth_complete ann a in (Finished c, a)
    end.

(** The [select]: a result when there is one, unless the timeout is taken.
    At the timeout, rejections refuse; confirmations and silence admit. *)
Definition admits (timedOut : bool) (p : PendingAuth) : bool :=
  match timedOut, pa_Done p with
  | false, Some r => ar_Confirmed r
  | _, _ => (size (pa_Rejections p) =? 0)%nat
  end.

Definition auth_verdict (ann : NewMemberAnnouncement) (ref : nat) (timedOut : bool) : ST Authenticator AuthComplete := fun a =>
  let ok := match au_pendings a !! ref with Some p => admits timedOut p | None => false end in
  let '(c, a) := if ok : bool then auth_complete ann a else (not_authenticated, a) in
  (c, drop_pending ann a).

(** What the handler writes to its stream. *)
Inductive Reply := RChallenge (c : Challenge) | RStep1 (r : Step1Result) | RComplete (c : AuthComplete).

Definition challenge_of (h : Hello) : Challenge := {| ch_Challenge := he_challenge h; ch_ServerNonce := he_serverNonce h |}.

(** The whole handler: [answer] is what the other side answers to the
    challenge, [others i] what the other tasks of the node do at the i-th
    wait. *)
Definition handleAuthStream (others : nat -> Authenticator -> Authenticator) (timedOut : bool) (remotePeer : string) (joinReq : option JoinRequest)
    (answer : Challenge -> option ChallengeResponse) : ST Authenticator (list Reply) := fun a =>
  match auth_open remotePeer joinReq a with
  | (NoRequest, a) => ([], a)
  | (TurnedAway r, a) => ([RStep1 r], a)
  | (Challenged h, a) =>
      match auth_answer h (answer (challenge_of h)) (others O a) with
      | (NoAnswer, a) => ([RChallenge (challenge_of h)], a)
      | (Denied r, a) => ([RChallenge (challenge_of h); RStep1 r], a)
      | (Unannounced r c, a) => ([RChallenge (challenge_of h); RStep1 r; RComplete c], a)
      | (Vouched r ann, a) =>
          match auth_broadcast ann (others 1%nat a) with
          | (Finished c, a) => ([RChallenge (challenge_of h); RStep1 r; RComplete c], a)
          | (AwaitingVotes ref, a) =>
              let '(c, a) := auth_verdict ann ref timedOut (others 2%nat a) in ([RChallenge (challenge_of h); RStep1 r; RComplete c], a)
          end
      end
  end.

(** ** Renewal, the side that signs *)

Definition handleRenewalStream (request : option RenewalRequest) : ST Authenticator (option RenewalResponse) := fun a =>
  match request with
  | None => (None, a)
  | Some req =>
      let no err a := (Some (sendRenewalResponse false None err), a) in
      match GetProvider (rq_ClusterPath req) a with
      | None => no "unknown cluster" a
      | Some provider =>
          if negb (CanSign provider) then no "this node cannot sign certificates" a else
          match rq_CurrentCert req with
          | None => no "no current certificate provided" a
          | Some cert =>
              let '(revoked, a) := match CertFingerprint cert with
                                   | Some fp => IsCertRevoked (rq_ClusterPath req) fp a
                                   | None => (false, a)
                                   end in
              if revoked : bool then no "certificate has been revoked" a else
              let '(revoked, a) := IsNodeRevoked (rq_ClusterPath req) (nc_NodeId cert) a in
              if revoked : bool then no "node has been revoked" a else
              let '(r, pb) := pb_Get (nc_NodeId cert) (rq_ClusterPath req) (au_pb a) in
              let a := set_pb pb a in
              match r with
              | Err _ | Ok None => no "node not found in phonebook" a
              | Ok (Some _) =>
                  let rotation := (0 <? length (rq_NewPublicKey req))%nat in
                  let nodePubKey := if rotation then rq_NewPublicKey req else nc_NodePublicKey cert in
                  if negb (key_parses nodePubKey) then no (if rotation then "invalid new public key" else "invalid current public key") a else
                  match SignForNode provider (nc_NodeId cert) nodePubKey (rq_ClusterPath req) with
                  | None => no "failed to sign new certificate" a
                  | Some newCert => (Some (sendRenewalResponse true (Some newCert) ""), a)
                  end
              end
          end
      end
  end.

End Voucher.

(** ** The joining node *)

(** The other end of an auth stream: what it answers to the request, and then
    to the response; [None] when the stream breaks. *)
Definition AuthPeer : Type := JoinRequest -> option (Challenge * (ChallengeResponse -> option (Step1Result * option AuthComplete))).
Definition RenewalPeer : Type := RenewalRequest -> option RenewalResponse.

Inductive JoinError :=
  | JNoKey | JStream | JRandom | JChallenge | JSign | JStep1Lost | JStep1 (reason : string) | JCompleteLost | JNotFull
  | JBadAddress (addr : string) | JBadPeerInfo (addr : string) | JConnect (peer : string) | JAuth (peer : string) (e : JoinError) | JNoPeers
  | JRenewal (reason : string) | JNoCertificate | JNoProvider | JSave.

Record ClusterJoinRequested := { cj_ClusterPath : string; cj_PSK : bytes; cj_BootstrapPeers : list string }.

Section Joining.
Context `{I : IPhonebook} `{R : GoRange} `{H : Sha256} `{A : Aead} `{K : AuthCrypto} `{T : Certs} `{P : AuthCodec}.

(** The host and the addresses of libp2p: [AddrInfo] gives the identity in an
    address, when it parses ([NewMultiaddr]) and has one
    ([AddrInfoFromP2pAddr]).  What the network does may depend on when it is
    asked. *)
Record Host := {
  h_NewMultiaddr : string -> bool; h_AddrInfo : string -> option string; h_Decode : string -> option string;
  h_Connect : Authenticator -> string -> bool; h_NewStream : Authenticator -> string -> option AuthPeer;
  h_NewRenewal : Authenticator -> string -> option RenewalPeer
}.
Variable host : Host.

Definition join_request (clusterPath : string) (nonce : bytes) (a : Authenticator) : JoinRequest :=
  {| jr_NodeId := au_self a; jr_ClusterPath := clusterPath; jr_Addresses := id_addrs (au_id a); jr_Capabilities := None; jr_Nonce := nonce;
     jr_PublicKey := id_PublicKey (au_id a) |}.

(** The certificate of the voucher is kept; a failure to save it is logged. *)
Definition save_certificate (clusterPath : string) (cert : NodeCertificate) : ST Authenticator (option bool) := fun a =>
  match GetProvider clusterPath a with
  | None => (None, a)
  | Some provider => let '(ok, provider) := SaveNodeCertificate cert provider in (Some ok, SetProvider clusterPath provider a)
  end.

Definition new_session (clusterPath voucher : string) (now : Time) : Session :=
  {| s_ClusterPath := clusterPath; s_Status := sessionStatusAuthenticated; s_VoucherNodeID := voucher; s_AuthenticatedAt := now; s_LastActivity := now;
     s_StaleAt := zero_time |}.

(** The end of [Authenticate], with a full authentication. *)
Definition authenticated (clusterPath targetPeer : string) (c : AuthComplete) : ST Authenticator Session := fun a =>
  let a := match ac_NodeCertificate c with Some cert => snd (save_certificate clusterPath cert a) | None => a end in
  let a := match ac_ClusterMembers c with
           | [] => a
           | ms => publish_event (AMember (ClusterMembersReceived clusterPath (event_member <$> ms))) a
           end in
  let '(now, a) := au_now a in
  let session := new_session clusterPath targetPeer now in
  let a := set_sessions (<[clusterPath := session]> (au_sessions a)) a in
  let a := publish_event (PeerAuthenticated clusterPath targetPeer) a in
  let a := publish_event (SyncRequested clusterPath "post_auth" "") a in
  (session, a).

(** The answer to a challenge. *)
Definition response_to (hmacKey nonce : bytes) (challenge : Challenge) : bytes :=
  hmac_sha256 hmacKey ((ch_Challenge challenge ++ nonce) ++ ch_ServerNonce challenge).

Definition Authenticate (clusterPath targetPeer : string) : ST Authenticator (result JoinError Session) := fun a =>
  match au_hmacKeys a !! clusterPath with
  | None => (Err JNoKey, a)
  | Some hmacKey =>
      match h_NewStream host a targetPeer with
      | None => (Err JStream, publish_event (AuthenticationFailed clusterPath targetPeer) a)
      | Some peer =>
          match au_read a with
          | (None, a) => (Err JRandom, a)
          | (Some nonce, a) =>
              match peer (join_request clusterPath nonce a) with
              | None => (Err JChallenge, a)
              | Some (challenge, continue) =>
                  let response := response_to hmacKey nonce challenge in
                  match id_Sign (au_id a) response with
                  | None => (Err JSign, a)
                  | Some signature =>
                      match continue {| cp_Response := response; cp_Signature := signature |} with
                      | None => (Err JStep1Lost, a)
                      | Some (step1, complete) =>
                          if negb (s1_Success step1)
                          then (Err (JStep1 (s1_Error step1)), publish_event (AuthenticationFailed clusterPath targetPeer) a)
                          else match complete with
                               | None => (Err JCompleteLost, a)
                               | Some c => if negb (ac_FullyAuthenticated c) then (Err JNotFull, a)
                                           else let '(s, a) := authenticated clusterPath targetPeer c a in (Ok s, a)
                               end
                      end
                  end
              end
          end
      end
  end.

(** The loop over the addresses, with the last error. *)
Fixpoint bootstrap_loop (clusterPath : string) (addrs : list string) (lastErr : JoinError) : ST Authenticator (result JoinError Session) := fun a =>
  match addrs with
  | [] => (Err lastErr, a)
  | addr :: addrs =>
      if negb (h_NewMultiaddr host addr) then bootstrap_loop clusterPath addrs (JBadAddress addr) a else
      match h_AddrInfo host addr with
      | None => bootstrap_loop clusterPath addrs (JBadPeerInfo addr) a
      | Some id =>
          if negb (h_Connect host a id) then bootstrap_loop clusterPath addrs (JConnect id) a else
          match Authenticate clusterPath id a with
          | (Err e, a) => bootstrap_loop clusterPath addrs (JAuth id e) a
          | (Ok s, a) => (Ok s, a)
          end
      end
  end.
Definition bootstrapAndAuthenticate (clusterPath : string) (bootstrapPeers : list string) : ST Authenticator (result JoinError Session) :=
  bootstrap_loop clusterPath bootstrapPeers JNoPeers.

Definition publishJoinFailed (clusterPath : string) (a : Authenticator) : Authenticator := publish_event (ClusterJoinFailed clusterPath) a.

(** The first node of a cluster: a certificate signed by itself (a failure is
    logged), a session without a voucher, an entry of its own.  The node key
    file it loads or creates is not modelled. *)
Definition first_node (clusterPath : string) (a : Authenticator) : Authenticator :=
  let a := match GetProvider clusterPath a with
           | None => a
           | Some provider => SetProvider clusterPath (snd (CreateSelfSignedCert (au_self a) (id_PublicKey (au_id a)) clusterPath provider)) a
           end in
  let '(now, a) := au_now a in
  let a := set_sessions (<[clusterPath := new_session clusterPath "" now]> (au_sessions a)) a in
  let self := {| mi_NodeID := au_self a; mi_Addresses := id_addrs (au_id a); mi_PublicKey := id_PublicKey (au_id a); mi_Capabilities := None |} in
  let a := publish_event (AMember (NewMemberAnnounced clusterPath self)) a in
  publish_event (ClusterJoined clusterPath "") a.

(** The second result is what is left in the slice of the request's key. *)
Definition handleClusterJoinRequest (req : ClusterJoinRequested) : ST Authenticator bytes := fun a =>
  let c := cj_ClusterPath req in
  match SetClusterPSK c (cj_PSK req) a with
  | ((Err _, psk), a) => (psk, publishJoinFailed c a)
  | ((Ok _, psk), a) =>
      match initProviderForCluster c a with
      | (Err _, a) => (psk, publishJoinFailed c a)
      | (Ok _, a) =>
          match SubscribeToCluster c a with
          | (Err _, a) => (psk, publishJoinFailed c a)
          | (Ok _, a) =>
              match cj_BootstrapPeers req with
              | [] => (psk, first_node c a)
              | peers =>
                  match bootstrapAndAuthenticate c peers a with
                  | (Err _, a) => (psk, publishJoinFailed c a)
                  | (Ok s, a) => (psk, publish_event (ClusterJoined c (s_VoucherNodeID s)) a)
                  end
              end
          end
      end
  end.

(** ** Another authentication: [reauth.go] *)

Definition best_peers (clusterPath : string) (n : Z) : ST Authenticator (list Entry) := fun a =>
  let '(r, pb) := pb_GetBestPeers clusterPath n (au_pb a) in
  (match r with Ok peers => peers | Err _ => [] end, set_pb pb a).

Fixpoint alternate_loop (clusterPath : string) (voucher : option string) (peers : list Entry) (a : Authenticator) : Authenticator :=
  match peers with
  | [] => a
  | p :: peers =>
      if bool_decide (Some (e_NodeID p) = voucher) then alternate_loop clusterPath voucher peers a else
      match h_Decode host (e_NodeID p) with
      | None => alternate_loop clusterPath voucher peers a
      | Some target =>
          match Authenticate clusterPath target a with
          | (Err _, a) => alternate_loop clusterPath voucher peers a
          | (Ok _, a) => publish_event (SyncRequested clusterPath ReauthSyncReason target) a
          end
      end
  end.
Definition tryAlternatePeer (clusterPath : string) (a : Authenticator) : Authenticator :=
  let voucher := s_VoucherNodeID <$> au_sessions a !! clusterPath in
  let '(peers, a) := best_peers clusterPath 3 a in
  alternate_loop clusterPath voucher peers a.

(** The first of the peers whose identity decodes. *)
Fixpoint first_decoded (peers : list Entry) : option string :=
  match peers with
  | [] => None
  | p :: peers => match h_Decode host (e_NodeID p) with Some id => Some id | None => first_decoded peers end
  end.

Definition attemptReauth (clusterPath : string) (a : Authenticator) : Authenticator :=
  match GetSession clusterPath a with
  | Err _ => a
  | Ok session =>
      if s_VoucherNodeID session =s "" then RefreshSession clusterPath a else
      let '(target, a) := match h_Decode host (s_VoucherNodeID session) with
                          | Some id => (Some id, a)
                          | None => let '(peers, a) := best_peers clusterPath 3 a in (first_decoded peers, a)
                          end in
      match target with
      | None => a
      | Some target =>
          match Authenticate clusterPath target a with
          | (Err _, a) => if target =s s_VoucherNodeID session then tryAlternatePeer clusterPath a else a
          | (Ok _, a) => publish_event (SyncRequested clusterPath ReauthSyncReason target) a
          end
      end
  end.

(** ** Renewal, the side that asks: [renewal.go] *)

Definition requestRenewal (clusterPath targetPeer : string) (currentCert : NodeCertificate) : ST Authenticator (result JoinError unit) := fun a =>
  match h_NewRenewal host a targetPeer with
  | None => (Err JStream, a)
  | Some peer =>
      match peer {| rq_CurrentCert := Some currentCert; rq_NewPublicKey := []; rq_ClusterPath := clusterPath |} with
      | None => (Err JChallenge, a)
      | Some resp =>
          if negb (rs_Success resp) then (Err (JRenewal (rs_Error resp)), a) else
          match rs_NewCert resp with
          | None => (Err JNoCertificate, a)
          | Some newCert =>
              match save_certificate clusterPath newCert a with
              | (None, a) => (Err JNoProvider, a)
              | (Some ok, a) => (if ok then Ok tt else Err JSave, a)
              end
          end
      end
  end.

Fixpoint renewal_loop (clusterPath : string) (currentCert : NodeCertificate) (peers : list Entry) (a : Authenticator) : Authenticator :=
  match peers with
  | [] => a
  | p :: peers =>
      if e_NodeID p =s au_self a then renewal_loop clusterPath currentCert peers a else
      match h_Decode host (e_NodeID p) with
      | None => renewal_loop clusterPath currentCert peers a
      | Some target =>
          match requestRenewal clusterPath target currentCert a with
          | (Err _, a) => renewal_loop clusterPath currentCert peers a
          | (Ok _, a) => publish_event (CertificateRenewed clusterPath target) a
          end
      end
  end.
Definition attemptRenewal (clusterPath : string) (currentCert : NodeCertificate) (a : Authenticator) : Authenticator :=
  let '(peers, a) := best_peers clusterPath MaxRenewalAttempts a in
  renewal_loop clusterPath currentCert peers a.

Definition checkClusterCert (clusterPath : string) (a : Authenticator) : Authenticator :=
  match GetProvider clusterPath a with
  | None => a
  | Some provider =>
      match prov_NodeCertificate provider with
      | None => a
      | Some cert =>
          let '(now, a) := au_now a in
          if negb (NeedsRenewal now cert) then a else
          attemptRenewal clusterPath cert (publish_event (CertificateRenewalNeeded clusterPath) a)
      end
  end.
Definition checkAllClusters (a : Authenticator) : Authenticator := fold_left (fun a cp => checkClusterCert cp.1 a) (range (au_providers a)) a.

End Joining.

(** ** Theorems *)

Section Facts.
Context `{I : IPhonebook} `{L : !IPhonebookLaws I} `{R : GoRange} `{H : Sha256} `{A : Aead} `{K : AuthCrypto} `{T : Certs} `{P : AuthCodec}.
Context `{PL : !AuthCodecLaws P}.
Variable ctx_done : Authenticator -> bool.

(** *** The first step *)

Definition proves (h : Hello) (resp : ChallengeResponse) : Prop :=
  cp_Response resp = expectedResponse h /\ key_parses (jr_PublicKey (he_req h)) = true /\
  key_Verify (jr_PublicKey (he_req h)) (cp_Response resp) (cp_Signature resp) = true.

Lemma check_answer_spec h resp : check_answer h resp = None <-> proves h resp.
Proof.
  unfold check_answer, proves. destruct (decide (cp_Response resp = expectedResponse h)) as [E|E];
    [rewrite bool_decide_eq_true_2 by done|rewrite bool_decide_eq_false_2 by done]; cbn [negb]; [|by split; [done|intros []]].
  destruct (key_parses _); cbn [negb]; [|by split; [done|intros (_ & ? & _)]]. destruct (key_Verify _ _ _); cbn [negb]; [done|by split; [done|intros (_ & _ & ?)]].
Qed.

(** What waiting for a signature and a certificate leaves alone. *)
Lemma build_same n c addrs key caps a : exists t, snd (buildNewMemberAnnouncement n c addrs key caps a) = set_ticks t a.
Proof.
  unfold buildNewMemberAnnouncement, au_now. destruct (id_Sign _ _); [|by exists (au_ticks a); destruct a]. exists (S (au_ticks a)).
  destruct (key_parses _); [|done]. cbn [negb]. destruct (GetProvider _ _); [|done]. destruct (CanSign _); [|done]. by destruct (SignForNode _ _ _ _).
Qed.

Lemma auth_answer_bus h resp a : proves h resp -> au_bus (snd (auth_answer h (Some resp) a)) =
  au_bus a ++ [AMember (NewMemberAnnounced (jr_ClusterPath (he_req h)) (joining_member (he_req h)))].
Proof.
  intros Hp%check_answer_spec. unfold auth_answer. rewrite Hp. match goal with |- context [buildNewMemberAnnouncement ?n ?c ?l ?k ?p ?x] =>
    destruct (build_same n c l k p x) as [t E]; destruct (buildNewMemberAnnouncement n c l k p x) as [[ann|] a'] end; cbn [snd] in *; by subst a'.
Qed.

(** C24: a node is announced for exactly the right answers.  The
    handler takes an answer when its code is the keyed one of the challenge
    and the nonces, with the key of the cluster, and the answer is signed with
    the key the request names; then the new member is put on the bus and the
    first result is a success.  Any other answer gets a refusal and changes
    nothing. *)
Theorem auth_step1_exact h resp a :
  let '(r, a') := auth_answer h (Some resp) a in
  (proves h resp -> au_bus a' = au_bus a ++ [AMember (NewMemberAnnounced (jr_ClusterPath (he_req h)) (joining_member (he_req h)))] /\
     exists ok, s1_Success ok = true /\ (r = Unannounced ok not_authenticated \/ exists ann, r = Vouched ok ann /\ na_PublicKey ann = jr_PublicKey (he_req h) /\
       na_NewNodeId ann = jr_NodeId (he_req h) /\ na_VoucherNodeId ann = au_self a)) /\
  (~ proves h resp -> a' = a /\ exists why, r = Denied (refused why)).
Proof.
  pose proof (auth_answer_bus h resp a) as Hb. destruct (auth_answer h (Some resp) a) as [r a'] eqn:E. split.
  - intros Hp. split; [by apply Hb|]. apply check_answer_spec in Hp. unfold auth_answer in E. rewrite Hp in E.
    exists (sendStep1Result true [] ""). split; [done|]. unfold buildNewMemberAnnouncement, au_now in E.
    destruct (id_Sign _ _); [|injection E as <- _; by left]. destruct (key_parses _); cbn [negb] in E; [|injection E as <- _; by left].
    destruct (GetProvider _ _); [|injection E as <- _; by left]. destruct (CanSign _); cbn [negb] in E; [|injection E as <- _; by left].
    destruct (SignForNode _ _ _ _); injection E as <- _; [|by left]. right. by eexists.
  - intros Hn. unfold auth_answer in E. destruct (check_answer h resp) eqn:Ec; [|by destruct Hn; apply check_answer_spec]. injection E as <- <-. split; [done|by eexists].
Qed.

(** *** The joining node *)

(** The joining node is ready: it has a key, entropy, and signs. *)
Definition ready (c : string) (key nonce pub : bytes) (a : Authenticator) : Prop :=
  au_hmacKeys a !! c = Some key /\ id_rand (au_id a) (au_rands a) = Some nonce /\ id_PublicKey (au_id a) = pub /\ signs_with pub a.

(** With a peer that goes along to the end, the session is there. *)
Lemma Authenticate_success host c target key nonce pub a peer ch k comp : ready c key nonce pub a -> h_NewStream host a target = Some peer ->
  peer (join_request c nonce a) = Some (ch, k) -> (forall sig, id_Sign (au_id a) (response_to key nonce ch) = Some sig ->
    exists ok, k {| cp_Response := response_to key nonce ch; cp_Signature := sig |} = Some (ok, Some comp) /\ s1_Success ok = true) ->
  ac_FullyAuthenticated comp = true ->
  exists s a', Authenticate host c target a = (Ok s, a') /\ au_sessions a' !! c = Some s /\ s_Status s = sessionStatusAuthenticated /\ s_VoucherNodeID s = target /\
    IsAuthenticated c a' = true /\ au_bus a' = au_bus a ++ match ac_ClusterMembers comp with [] => [] | ms => [AMember (ClusterMembersReceived c (event_member <$> ms))] end ++
      [PeerAuthenticated c target; SyncRequested c "post_auth" ""].
Proof.
  intros (Hk & Hr & Hpub & Hs) Hn Hp Hc Hf. unfold Authenticate. rewrite Hk, Hn. unfold au_read. rewrite Hr.
  change (join_request c nonce (set_rands (S (au_rands a)) a)) with (join_request c nonce a). rewrite Hp. change (au_id (set_rands (S (au_rands a)) a)) with (au_id a).
  destruct (Hs (response_to key nonce ch)) as (sig & Es & _). rewrite Es. destruct (Hc sig Es) as (ok & -> & Hok). rewrite Hok, Hf. cbn [negb]. unfold authenticated, au_now.
  set (a1 := match ac_NodeCertificate comp with Some _ => _ | None => _ end).
  assert (H1 : au_bus a1 = au_bus a). { unfold a1, save_certificate. destruct (ac_NodeCertificate comp); [|done]. destruct (GetProvider _ _); [|done]. by destruct (SaveNodeCertificate _ _). }
  clearbody a1. eexists _, _. split; [done|]. split; [apply lookup_insert_eq|]. split; [done|]. split; [done|].
  split; [unfold IsAuthenticated; cbn; by rewrite lookup_insert_eq|]. rewrite <- H1. destruct (ac_ClusterMembers comp); cbn; by rewrite <- !app_assoc.
Qed.

(** A node in the middle that has no key of the cluster: it passes the
    challenge of a handler [h] of [v] on, and the answer back with a signature
    of its own. *)
Definition relayed (sign : bytes -> bytes) (r : ChallengeResponse) : ChallengeResponse := {| cp_Response := cp_Response r; cp_Signature := sign (cp_Response r) |}.
Definition relay (sign : bytes -> bytes) (h : Hello) (v : Authenticator) (ms : list AuthMemberInfo) : AuthPeer := fun _ =>
  Some (challenge_of h, fun r => match fst (auth_answer h (Some (relayed sign r)) v) with
                                 | Vouched ok _ | Unannounced ok _ =>
                                     Some (ok, Some {| ac_FullyAuthenticated := true; ac_ClusterMembers := ms; ac_NodeCertificate := None |})
                                 | Denied no => Some (no, None)
                                 | NoAnswer => None
                                 end).

Lemma auth_open_hello remote req h v v1 : auth_open remote (Some req) v = (Challenged h, v1) -> he_req h = req /\ au_hmacKeys v !! jr_ClusterPath req = Some (he_hmacKey h).
Proof.
  unfold auth_open, au_now. destruct (ratelimit.Allow _ _ _) as [[] l]; cbn [negb]; [|discriminate]. cbn [au_hmacKeys set_limiter set_ticks].
  destruct (au_hmacKeys v !! jr_ClusterPath req) as [k|]; [|discriminate]. destruct (IsNodeRevoked _ _ _) as [[] v2]; [discriminate|]. unfold au_read.
  destruct (id_rand _ _); [|discriminate]. destruct (id_rand _ _); [|discriminate]. by intros [= <- _].
Qed.

(** A node without the key of the cluster joins through a member
    that authenticates to it.  The answer binds neither side: when a node [j]
    with the key authenticates to the node in the middle, which has opened a
    handshake with a member [v] with the nonce of [j] and any identity, key
    and addresses, [v] announces that identity as a new member, and [j] has a
    session whose voucher is the node in the middle, with the members it
    chose. *)
Theorem auth_relay_joins host c key nonce pub m sign ms j v req h v1
    (Hj : ready c key nonce pub j) (Hv : au_hmacKeys v !! c = Some key)
    (Hreq : jr_ClusterPath req = c /\ jr_Nonce req = nonce) (Hm : key_parses (jr_PublicKey req) = true /\ forall x, key_Verify (jr_PublicKey req) x (sign x) = true)
    (Hopen : auth_open m (Some req) v = (Challenged h, v1)) (Hdial : h_NewStream host j m = Some (relay sign h v1 ms)) :
  (exists s j', Authenticate host c m j = (Ok s, j') /\ IsAuthenticated c j' = true /\ s_VoucherNodeID s = m /\
     (ms <> [] -> AMember (ClusterMembersReceived c (event_member <$> ms)) ∈ au_bus j')) /\
  (forall sig, au_bus (snd (auth_answer h (Some (relayed sign {| cp_Response := response_to key nonce (challenge_of h); cp_Signature := sig |})) v1)) =
     au_bus v1 ++ [AMember (NewMemberAnnounced c (joining_member req))]).
Proof.
  destruct (auth_open_hello _ _ _ _ _ Hopen) as [Hq Hkey]. destruct Hreq as [Hc Hn], Hm as [Hparse Hsig]. rewrite Hc, Hv in Hkey. injection Hkey as Hkey.
  assert (Hp : forall sig, proves h (relayed sign {| cp_Response := response_to key nonce (challenge_of h); cp_Signature := sig |})).
  { intros sig. unfold proves, expectedResponse. rewrite Hq, Hn, <- Hkey. by split_and!. }
  split; [|intros sig; rewrite auth_answer_bus by done; by rewrite Hq, Hc].
  set (comp := {| ac_FullyAuthenticated := true; ac_ClusterMembers := ms; ac_NodeCertificate := None |}).
  destruct (Authenticate_success host c m key nonce pub j _ (challenge_of h) _ comp Hj Hdial eq_refl) as (s & j' & E & _ & _ & Hvo & Ha & Hb); [|done|].
  - intros sig _. pose proof (proj2 (check_answer_spec _ _) (Hp sig)) as Hck. unfold auth_answer. rewrite Hck.
    destruct (buildNewMemberAnnouncement _ _ _ _ _ _) as [[ann|] v2]; by eexists.
  - exists s, j'. split_and!; try done. intros Hne. rewrite Hb. unfold comp. cbn [ac_ClusterMembers]. destruct ms; [done|]. set_solver.
Qed.

(** *** Honest nodes *)

(** What is read of a refusal when a challenge is expected. *)
Variable reread : Step1Result -> option Challenge.

(** A member at the other end of the stream. *)
Definition member_peer (others : nat -> Authenticator -> Authenticator) (timedOut : bool) (remote : string) (v : Authenticator) : AuthPeer := fun req =>
  let run resp := fst (handleAuthStream ctx_done others timedOut remote (Some req) (fun _ => resp) v) in
  match run None with
  | [RStep1 r] => match reread r with Some c => Some (c, fun _ => None) | None => None end
  | [RChallenge c] => Some (c, fun resp => match run (Some resp) with
                                           | [_; RStep1 r; RComplete done_] => Some (r, Some done_)
                                           | [_; RStep1 r] => Some (r, None)
                                           | _ => None
                                           end)
  | _ => None
  end.

(** The voucher is able to admit a node. *)
Record able (c remote node : string) (key : bytes) (v : Authenticator) : Prop := {
  able_key : au_hmacKeys v !! c = Some key;
  able_allow : fst (ratelimit.Allow (id_clock (au_id v) (au_ticks v)) remote (au_limiter v)) = true;
  able_revoked : rl_IsNodeRevoked node (revocations_of c v) = false;
  able_random : is_Some (id_rand (au_id v) (au_rands v)) /\ is_Some (id_rand (au_id v) (S (au_rands v)));
  able_sign : exists k, signs_with k v;
  able_cert : exists p, GetProvider c v = Some p /\ CanSign p = true /\ forall n k, is_Some (SignForNode p n k c);
  able_publish : publishing c v
}.

(** Meanwhile, nobody votes against [node], and the voucher stays in the
    cluster: it keeps its topic and its provider, and its phonebook works. *)
Definition unopposed (p : PendingAuth) : Prop := pa_Rejections p = ∅ /\ forall r, pa_Done p = Some r -> ar_Confirmed r = true.
Record supports (c node : string) (x y : Authenticator) : Prop := {
  sup_id : au_id y = au_id x; sup_topics : is_Some (au_topics x !! c) -> is_Some (au_topics y !! c);
  sup_net : ap_net (au_ps y) = ap_net (au_ps x); sup_providers : au_providers y !! c = au_providers x !! c;
  sup_bus : exists l, au_bus y = au_bus x ++ l; sup_sound : sound (au_pb x) -> sound (au_pb y);
  sup_pendings : forall ref p, au_pendings x !! ref = Some p -> pa_NodeID p = node -> pa_ClusterPath p = c -> unopposed p ->
    exists p', au_pendings y !! ref = Some p' /\ unopposed p'
}.

(** The announcement of the node that sent [req], by the voucher [v]. *)
Definition announcement_of (req : JoinRequest) (v : Authenticator) (ann : NewMemberAnnouncement) : Prop :=
  na_NewNodeId ann = jr_NodeId req /\ na_NewNodeAddrs ann = jr_Addresses req /\ na_Capabilities ann = jr_Capabilities req /\
  na_ClusterPath ann = jr_ClusterPath req /\ na_VoucherNodeId ann = au_self v /\ na_PublicKey ann = jr_PublicKey req /\
  exists p, GetProvider (jr_ClusterPath req) v = Some p /\ na_Certificate ann = SignForNode p (jr_NodeId req) (jr_PublicKey req) (jr_ClusterPath req).

Lemma auth_open_able remote req key v : able (jr_ClusterPath req) remote (jr_NodeId req) key v -> exists sn ch v1,
  auth_open remote (Some req) v = (Challenged {| he_req := req; he_hmacKey := key; he_challenge := ch; he_serverNonce := sn |}, v1) /\
  au_id v1 = au_id v /\ au_topics v1 = au_topics v /\ au_ps v1 = au_ps v /\ au_providers v1 = au_providers v /\ au_bus v1 = au_bus v /\ au_pb v1 = au_pb v.
Proof.
  intros []. unfold auth_open, au_now. destruct (ratelimit.Allow _ _ _) as [ok l]. cbn [fst] in able_allow0. subst ok. cbn [negb au_hmacKeys set_limiter set_ticks].
  rewrite able_key0. match goal with |- context [IsNodeRevoked ?c ?n ?x] => assert (Hn : exists v2, IsNodeRevoked c n x = (false, v2) /\ au_id v2 = au_id v /\ au_topics v2 = au_topics v /\
    au_ps v2 = au_ps v /\ au_providers v2 = au_providers v /\ au_bus v2 = au_bus v /\ au_pb v2 = au_pb v /\ au_rands v2 = au_rands v) end.
  { rewrite <- able_revoked0. unfold IsNodeRevoked, revocations_of, GetRevocationList. cbn. destruct (au_revocations v !! jr_ClusterPath req); by eexists. }
  destruct Hn as (v2 & -> & Hid & Ht & Hp & Hpr & Hb & Hpb & Hr). unfold au_read. rewrite Hid, Hr. destruct able_random0 as [[sn ->] [ch E]].
  cbn [au_id au_rands set_rands]. rewrite Hid, ?Hr, E. by eexists _, _, _.
Qed.

Lemma step2_ok c ann v k : publishing c v -> signs_with k v -> encodes "new_member" v -> is_Some (marshalNewMember ann) ->
  exists v', publishStep2 ctx_done c ann v = (Ok tt, v') /\ still v v'.
Proof.
  intros Hp Hs Hm [b Hb]. pose proof (step2_still ctx_done c ann v) as St. unfold publishStep2, retry.Retry, retry.RetryWithResult in *. change (Z.to_nat _) with 5%nat in *.
  cbn [retry.attempts] in *. rewrite Hb in *. destruct (publish_ok ctx_done c "new_member" b k v Hp Hs Hm) as (v' & env & data & ts & E & _).
  rewrite E in *. by exists v'.
Qed.

Lemma broadcast_able ann v k : publishing (na_ClusterPath ann) v -> signs_with k v -> encodes "new_member" v -> is_Some (marshalNewMember ann) ->
  sound (au_pb v) -> exists b v', auth_broadcast ctx_done ann v = (b, v') /\ sound (au_pb v') /\ au_bus v' = au_bus v /\
    ((exists c, b = Finished c /\ ac_FullyAuthenticated c = true /\ ac_NodeCertificate c = na_Certificate ann) \/
     (exists ref p, b = AwaitingVotes ref /\ au_pendings v' !! ref = Some p /\ pa_NodeID p = na_NewNodeId ann /\ pa_ClusterPath p = na_ClusterPath ann /\ unopposed p)).
Proof.
  intros Hp Hs Hm Hn Hsound. unfold auth_broadcast. destruct (GetByCluster_law (na_ClusterPath ann) (au_pb v) Hsound) as (l & pb & -> & Hs1 & _).
  destruct (0 <? length l)%nat.
  - unfold au_now. match goal with |- context [publishStep2 _ _ _ ?x] => destruct (step2_ok (na_ClusterPath ann) ann x k) as (v' & -> & St); [done..|] end.
    eexists _, v'. split; [done|]. split; [by rewrite (st_pb _ _ St)|]. split; [by rewrite (st_bus _ _ St)|]. right. eexists _, _. split; [done|].
    rewrite (st_pendings _ _ St). cbn [au_pendings set_pendingAuth set_pendings set_ticks set_pb]. split; [apply lookup_insert_eq|]. by repeat split.
  - match goal with |- context [publishStep2 _ _ _ ?x] => destruct (step2_ok (na_ClusterPath ann) ann x k) as (v' & -> & St); [done..|] end.
    unfold auth_complete, getClusterMembers. destruct (GetByCluster_law (na_ClusterPath ann) (au_pb v')) as (l2 & pb2 & -> & Hs2 & _); [by rewrite (st_pb _ _ St)|].
    eexists _, _. split; [done|]. split; [done|]. split; [cbn; by rewrite (st_bus _ _ St)|]. left. by eexists.
Qed.

Lemma verdict_unopposed ann ref timedOut v p : au_pendings v !! ref = Some p -> unopposed p -> exists c v', auth_verdict ann ref timedOut v = (c, v') /\
  ac_FullyAuthenticated c = true /\ ac_NodeCertificate c = na_Certificate ann /\ au_bus v' = au_bus v.
Proof.
  intros Hp [Hr Hd]. unfold auth_verdict. rewrite Hp. assert (Ha : admits timedOut p = true).
  { unfold admits. rewrite Hr. destruct timedOut; [done|]. destruct (pa_Done p) as [r|]; [by apply Hd|done]. }
  rewrite Ha. unfold auth_complete, getClusterMembers. destruct (pb_GetByCluster _ _) as [r pb]. by eexists _, _.
Qed.

(** The handler on a right answer, when nobody objects. *)
Lemma handler_completes others timedOut remote req key v : able (jr_ClusterPath req) remote (jr_NodeId req) key v -> sound (au_pb v) ->
  encodes "new_member" v -> (forall ann, announcement_of req v ann -> is_Some (marshalNewMember ann)) ->
  (forall i x, supports (jr_ClusterPath req) (jr_NodeId req) x (others i x)) -> key_parses (jr_PublicKey req) = true ->
  exists ch sn, let c := {| ch_Challenge := ch; ch_ServerNonce := sn |} in
    (fst (handleAuthStream ctx_done others timedOut remote (Some req) (fun _ => None) v) = [RChallenge c]) /\
    forall sig, key_Verify (jr_PublicKey req) (response_to key (jr_Nonce req) c) sig = true -> exists ok comp v',
      handleAuthStream ctx_done others timedOut remote (Some req) (fun _ => Some {| cp_Response := response_to key (jr_Nonce req) c; cp_Signature := sig |}) v =
        ([RChallenge c; RStep1 ok; RComplete comp], v') /\ s1_Success ok = true /\ ac_FullyAuthenticated comp = true /\ is_Some (ac_NodeCertificate comp) /\
      AMember (NewMemberAnnounced (jr_ClusterPath req) (joining_member req)) ∈ au_bus v'.
Proof.
  intros Hable Hsound Hm Hn Ho Hparse. destruct (auth_open_able _ _ _ _ Hable) as (sn & ch & v1 & Eo & Hid & Ht & Hps & Hpr & Hb & Hpb). exists ch, sn. cbv zeta.
  unfold handleAuthStream. rewrite Eo. split; [done|]. intros sig Hsig. set (h := {| he_req := req |}) in *. unfold auth_answer.
  rewrite (proj2 (check_answer_spec _ _)) by (by split_and!). pose proof (Ho 0%nat v1) as S0. set (v2 := others 0%nat v1) in *. clearbody v2.
  destruct Hable as [_ _ _ _ (k & Hk) (p & Hp & Hcan & Hsf) Hpub]. unfold buildNewMemberAnnouncement. cbn [au_id publish_event set_bus].
  assert (Hk2 : signs_with k v2) by (intros m; rewrite (sup_id _ _ _ _ S0), Hid; apply Hk).
  destruct (Hk2 (AnnouncementContent (jr_NodeId (he_req h)) (jr_ClusterPath (he_req h)) (jr_Addresses (he_req h)) (jr_PublicKey (he_req h)))) as (vs & -> & _).
  unfold au_now. change (jr_PublicKey (he_req h)) with (jr_PublicKey req). rewrite Hparse. cbn [negb]. unfold GetProvider in *. cbn [au_providers set_ticks set_bus publish_event].
  change (jr_ClusterPath (he_req h)) with (jr_ClusterPath req). rewrite (sup_providers _ _ _ _ S0), Hpr, Hp, Hcan. cbn [negb].
  destruct (Hsf (jr_NodeId (he_req h)) (jr_PublicKey req)) as [cert Hcert]. rewrite Hcert. match goal with |- context [auth_broadcast _ ?x (others _ ?y)] => set (ann := x); set (v3 := y) end.
  pose proof (Ho 1%nat v3) as S1. set (v4 := others 1%nat v3) in *. assert (Hev : AMember (NewMemberAnnounced (jr_ClusterPath req) (joining_member req)) ∈ au_bus v4).
  { destruct (sup_bus _ _ _ _ S1) as [l ->]. unfold v3. cbn. set_solver. }
  assert (Hself : au_id v4 = au_id v) by (rewrite (sup_id _ _ _ _ S1); cbn; by rewrite (sup_id _ _ _ _ S0), Hid).
  destruct (broadcast_able ann v4 k) as (b & v5 & E5 & Hs5 & Hb5 & Hcase);
    [|intros m; rewrite (sup_id _ _ _ _ S1); apply Hk2|intros m; unfold au_self; rewrite Hself; apply Hm| |apply (sup_sound _ _ _ _ S1), (sup_sound _ _ _ _ S0); by rewrite Hpb|].
  { destruct Hpub as [H1 H2]. split; [apply (sup_topics _ _ _ _ S1); cbn; apply (sup_topics _ _ _ _ S0); by rewrite Ht|].
    intros n. rewrite (sup_net _ _ _ _ S1). cbn. rewrite (sup_net _ _ _ _ S0), Hps. apply H2. }
  { apply Hn. unfold announcement_of, ann. cbn. split_and!; try done; [|by exists p].
    unfold au_self. cbn. by rewrite (sup_id _ _ _ _ S0), Hid. }
  clearbody v4. rewrite E5. destruct Hcase as [(c & -> & Hf & Hc)|(ref & pa & -> & Hpa & Hpn & Hpc & Hun)].
  - eexists _, c, v5. split; [done|]. split_and!; [done|done|rewrite Hc; by eexists|by rewrite Hb5].
  - pose proof (Ho 2%nat v5) as S2. destruct (sup_pendings _ _ _ _ S2 _ _ Hpa Hpn Hpc Hun) as (pa' & Hpa' & Hun').
    destruct (verdict_unopposed ann ref timedOut _ pa' Hpa' Hun') as (c & v' & -> & Hf & Hc & Hbv). eexists _, c, v'. split; [done|].
    split_and!; [done|done|rewrite Hc; by eexists|]. rewrite Hbv. destruct (sup_bus _ _ _ _ S2) as [l ->]. rewrite Hb5. set_solver.
Qed.

(** C23: a node with the key of the cluster joins. Its own key signs and
    parses, and it authenticates to a member that is able to vouch for it: the
    member has the key of the cluster, its rate limiter admits the node, the
    node is not revoked, random bytes, signatures and a certificate can be made,
    it is on the topic of the cluster, and PubSub takes its messages; the
    envelope and the announcement of the node can be encoded (their strings are
    valid text). Meanwhile the other tasks of the member may do anything but
    leave the cluster, break its phonebook, or reject this node. Then, with
    votes for the node and also without any vote before the timeout, the node
    ends with an authenticated session vouched by that member, and the member
    has announced it with its own key. *)
Theorem auth_join_completes host c key nonce pub target others timedOut j v
    (Hj : ready c key nonce pub j) (Hparse : key_parses pub = true) (Hv : able c (au_self j) (au_self j) key v) (Hs : sound (au_pb v))
    (Hm : encodes "new_member" v) (Hn : forall ann, announcement_of (join_request c nonce j) v ann -> is_Some (marshalNewMember ann))
    (Ho : forall i x, supports c (au_self j) x (others i x))
    (Hdial : h_NewStream host j target = Some (member_peer others timedOut (au_self j) v)) :
  exists s j' chal sig ok comp v', Authenticate host c target j = (Ok s, j') /\ IsAuthenticated c j' = true /\ s_VoucherNodeID s = target /\
    id_Sign (au_id j) (response_to key nonce chal) = Some sig /\
    handleAuthStream ctx_done others timedOut (au_self j) (Some (join_request c nonce j))
      (fun _ => Some {| cp_Response := response_to key nonce chal; cp_Signature := sig |}) v = ([RChallenge chal; RStep1 ok; RComplete comp], v') /\
    AMember (NewMemberAnnounced c (joining_member (join_request c nonce j))) ∈ au_bus v'.
Proof.
  set (req := join_request c nonce j). pose proof Hj as (_ & _ & Hpub & Hsign).
  destruct (handler_completes others timedOut (au_self j) req key v Hv Hs Hm Hn Ho) as (ch & sn & Hno & Hyes); [by cbn; rewrite Hpub|]. cbv zeta in *.
  set (chal := {| ch_Challenge := ch; ch_ServerNonce := sn |}) in *. destruct (Hsign (response_to key nonce chal)) as (sig & Esig & Hver).
  destruct (Hyes sig) as (ok & comp & v' & Eh & Hok & Hf & _ & Hev); [by cbn; rewrite Hpub|]. change (jr_Nonce req) with nonce in Eh.
  assert (Hpeer : exists k, member_peer others timedOut (au_self j) v req = Some (chal, k) /\
    k {| cp_Response := response_to key nonce chal; cp_Signature := sig |} = Some (ok, Some comp)).
  { unfold member_peer. rewrite Hno. eexists. split; [reflexivity|]. cbv beta. by rewrite Eh. }
  destruct Hpeer as (k & Hk & Hkr). destruct (Authenticate_success host c target key nonce pub j _ chal k comp Hj Hdial Hk) as (s & j' & E & _ & _ & Hvo & Ha & _); [|done|].
  - intros sig' E'. rewrite Esig in E'. injection E' as <-. by exists ok.
  - by exists s, j', chal, sig, ok, comp, v'.
Qed.

(** A refusal before the challenge is not understood.  A node
    that is rate limited, revoked, or asks for a cluster that the other side
    does not know, is sent a result where it expects a challenge; whatever
    that reads as, its authentication fails without the reason and without
    the event that reports failed authentications. *)
Theorem auth_refusal_unreported host c key nonce pub target others timedOut j v r v'
    (Hj : ready c key nonce pub j) (Hdial : h_NewStream host j target = Some (member_peer others timedOut (au_self j) v))
    (Hrefuse : auth_open (au_self j) (Some (join_request c nonce j)) v = (TurnedAway r, v')) :
  exists e j', Authenticate host c target j = (Err e, j') /\ (e = JChallenge \/ e = JStep1Lost) /\ au_bus j' = au_bus j /\ au_sessions j' = au_sessions j.
Proof.
  destruct Hj as (Hk & Hr & _ & Hs). unfold Authenticate. rewrite Hk, Hdial. unfold au_read. rewrite Hr. unfold member_peer, handleAuthStream.
  change (join_request c nonce (set_rands (S (au_rands j)) j)) with (join_request c nonce j). rewrite Hrefuse. cbn [fst].
  destruct (reread r) as [ch|]; [|eexists _, _; split; [done|]; by split; [left|]]. cbn [au_id set_rands]. destruct (Hs (response_to key nonce ch)) as (sig & -> & _).
  eexists _, _. split; [done|]. by split; [right|].
Qed.

(** *** Votes for a node that asks twice *)

(** Messages reach a pending authentication only through its key. *)
Definition votes_by_key (a a' : Authenticator) : Prop := au_pendingAuth a' = au_pendingAuth a /\
  forall ref, (forall key, au_pendingAuth a !! key <> Some ref) -> au_pendings a' !! ref = au_pendings a !! ref.

Lemma votes_by_key_trans a b c : votes_by_key a b -> votes_by_key b c -> votes_by_key a c.
Proof. intros [H1 H2] [H3 H4]. split; [congruence|]. intros ref Hr. rewrite H4; [by apply H2|]. intros key. by rewrite H1. Qed.

Lemma votes_same a a' : au_pendingAuth a' = au_pendingAuth a -> au_pendings a' = au_pendings a -> votes_by_key a a'.
Proof. intros H1 H2. split; [done|]. by rewrite H2. Qed.

Lemma lookup_votes n c a : votes_by_key a (snd (lookupPublicKey n c a)).
Proof. unfold lookupPublicKey. destruct (pb_Get _ _ _) as [r pb]. apply votes_same; destruct r as [[e|]|e]; done. Qed.

Lemma on_pending_votes key f a : votes_by_key a (on_pending key f a).
Proof.
  unfold on_pending. destruct (au_pendingAuth a !! key) as [ref|] eqn:E; [|by apply votes_same]. split; [done|]. intros ref' Hr. cbn.
  rewrite lookup_alter_ne; [done|]. intros ->. by apply (Hr key).
Qed.

Lemma check_votes c ann a : votes_by_key a (snd (check_announcement c ann a)).
Proof.
  unfold check_announcement. destruct (id_rejectAll _); [by apply votes_same|]. destruct (negb _); [by apply votes_same|].
  destruct (IsNodeRevoked_undisturbed c (na_VoucherNodeId ann) a) as (a1 & -> & _ & _ & _ & _ & _ & H1 & H2 & _). pose proof (votes_same a a1 H1 H2) as Hv.
  destruct (rl_IsNodeRevoked _ _); [done|]. pose proof (lookup_votes (na_VoucherNodeId ann) c a1) as Hl. destruct (lookupPublicKey _ _ _) as [[k|e] a2]; cbn [snd] in Hl.
  - destruct (negb _); [by eapply votes_by_key_trans|]. destruct (negb _); by eapply votes_by_key_trans.
  - by eapply votes_by_key_trans.
Qed.

Lemma publish_votes c ty b a : votes_by_key a (snd (publishAuthMessage ctx_done c ty b a)).
Proof. pose proof (publish_still ctx_done c ty b a) as St. by apply votes_same; [rewrite (st_pending _ _ St)|rewrite (st_pendings _ _ St)]. Qed.

Lemma answer_votes c (m : NewMemberAnnouncement) (r : option string) a : votes_by_key a (match r with
  | Some reason => publishAuthRejection ctx_done c (na_NewNodeId m) reason a
  | None => let a := publishAuthConfirmation ctx_done c (na_NewNodeId m) a in
      if au_crashed a then a else publish_event (AMember (NewMemberReceived c (announced_member m))) a end).
Proof.
  cbv zeta. destruct r as [reason|]; [unfold publishAuthRejection|unfold publishAuthConfirmation]; unfold au_now;
    (destruct (id_Sign _ _); [|by try case_match; apply votes_same]).
  - eapply votes_by_key_trans; [|apply publish_votes]. by apply votes_same.
  - eapply (votes_by_key_trans _ _ _ (publish_votes _ _ _ (set_ticks (S (au_ticks a)) a))). case_match; by apply votes_same.
Qed.

Lemma revoked_votes c env a : votes_by_key a (handleCertRevoked c env a).
Proof.
  unfold handleCertRevoked. destruct (unmarshalRevocation _) as [r|]; [|by apply votes_same]. pose proof (lookup_votes (cr_RevokedBy r) c a) as Hl.
  destruct (lookupPublicKey _ _ _) as [[k|e] a1]; cbn [snd] in Hl; [|done]. destruct (negb _); [done|]. eapply votes_by_key_trans; [done|].
  unfold revoke_in, GetRevocationList. destruct (au_revocations a1 !! c) as [rl|]; destruct (Revoke _ _) as [ok rl']; by apply votes_same.
Qed.

Lemma vote_votes {M} (um : bytes -> option M) (who : M -> string) (good : bytes -> M -> bool) (key : M -> string) (f : M -> PendingAuth -> PendingAuth) c b a :
  votes_by_key a (match um b with None => a | Some m => match lookupPublicKey (who m) c a with (Err _, a) => a
    | (Ok k, a) => if negb (good k m) then a else on_pending (key m) (f m) a end end).
Proof.
  destruct (um b) as [m|]; [|by apply votes_same]. pose proof (lookup_votes (who m) c a) as Hl. destruct (lookupPublicKey _ _ _) as [[k|e] a1]; cbn [snd] in Hl; [|done].
  destruct (negb _); [done|]. eapply votes_by_key_trans; [done|apply on_pending_votes].
Qed.

Lemma dispatch_votes c env a : votes_by_key a (dispatch_auth ctx_done c env a).
Proof.
  unfold dispatch_auth. destruct (_ =s _).
  { unfold handleNewMemberAnnouncement. destruct (unmarshalNewMember _) as [ann|]; [|by apply votes_same]. pose proof (check_votes c ann a) as Hc.
    destruct (check_announcement c ann a) as [r a1]. cbn [snd] in Hc. eapply votes_by_key_trans; [exact Hc|]. exact (answer_votes c ann r a1). }
  destruct (_ =s _); [exact (vote_votes unmarshalConfirmed ma_ConfirmingNodeId _ _ _ c (am_Payload env) a)|].
  destruct (_ =s _); [exact (vote_votes unmarshalRejected mr_RejectingNodeId _ _ _ c (am_Payload env) a)|].
  destruct (_ =s _); [apply revoked_votes|by apply votes_same].
Qed.

Lemma message_votes c from data a : votes_by_key a (authMessageLoop ctx_done c from data a).
Proof.
  unfold authMessageLoop. destruct (_ =s _); [by apply votes_same|]. unfold handleAuthPubSubMessage, au_now. destruct (dedup.IsDuplicate _ _ _ _) as [[] d]; [by apply votes_same|].
  destruct (unmarshalAuth data) as [env|]; [|by apply votes_same]. destruct (_ <? _); [by apply votes_same|]. destruct (am_Signature env); [|by apply votes_same].
  match goal with |- context [lookupPublicKey ?n ?c ?x] => pose proof (lookup_votes n c x) as Hl; destruct (lookupPublicKey n c x) as [[k|e] a1] end; cbn [snd] in Hl.
  - assert (Hv : votes_by_key a a1) by (eapply votes_by_key_trans; [|exact Hl]; by apply votes_same). destruct (negb _); [done|]. eapply votes_by_key_trans; [exact Hv|apply dispatch_votes].
  - eapply votes_by_key_trans; [|exact Hl]. by apply votes_same.
Qed.

(** Every key names a pending authentication. *)
Definition pending_wf (a : Authenticator) : Prop := forall key ref, au_pendingAuth a !! key = Some ref -> is_Some (au_pendings a !! ref).

Lemma broadcast_pending ann a ref a' : auth_broadcast ctx_done ann a = (AwaitingVotes ref, a') -> au_pendings a !! ref = None /\
  au_pendingAuth a' = <[pendingKey (na_NewNodeId ann) (na_ClusterPath ann) := ref]> (au_pendingAuth a) /\
  exists now, au_pendings a' = <[ref := new_pending ann now]> (au_pendings a).
Proof.
  unfold auth_broadcast, au_now. destruct (pb_GetByCluster _ _) as [r pb]. destruct (_ <? _)%nat.
  - match goal with |- context [publishStep2 _ ?c ?x ?y] => pose proof (step2_still ctx_done c x y) as St; destruct (publishStep2 ctx_done c x y) as [[u|e] a2] end; [|discriminate].
    cbn [snd] in St. intros [= <- <-]. rewrite (st_pending _ _ St), (st_pendings _ _ St). split; [|split; [done|by eexists]].
    apply not_elem_of_dom. apply is_fresh.
  - destruct (publishStep2 _ _ _ _) as [[u|e] a2]; [|discriminate]. destruct (auth_complete _ _). discriminate.
Qed.

Lemma messages_votes msgs a : votes_by_key a (fold_left (fun a m => authMessageLoop ctx_done m.1.1 m.1.2 m.2 a) msgs a).
Proof.
  revert a. induction msgs as [|m msgs IH]; intros a; cbn [fold_left]; [by apply votes_same|]. eapply votes_by_key_trans; [apply message_votes|apply IH].
Qed.

(** C25: a node that members reject is admitted when it asks twice.
    The second request for the same node takes the place of the first among
    the pending ones, so that all votes, whatever arrives on the auth topics
    after that, go to the second; the first sees none and admits the node,
    however many reject it. *)
Theorem auth_rejection_evaded ann ann' ref ref' timedOut msgs a a1 a2
    (Hwf : pending_wf a) (Hsame : na_NewNodeId ann' = na_NewNodeId ann /\ na_ClusterPath ann' = na_ClusterPath ann)
    (H1 : auth_broadcast ctx_done ann a = (AwaitingVotes ref, a1)) (H2 : auth_broadcast ctx_done ann' a1 = (AwaitingVotes ref', a2)) :
  let a3 := fold_left (fun a m => authMessageLoop ctx_done m.1.1 m.1.2 m.2 a) msgs a2 in
  let c := fst (auth_verdict ann ref timedOut a3) in
  ac_FullyAuthenticated c = true /\ ac_NodeCertificate c = na_Certificate ann.
Proof.
  cbv zeta. destruct (broadcast_pending _ _ _ _ H1) as (Hf1 & Hk1 & now1 & Hp1), (broadcast_pending _ _ _ _ H2) as (Hf2 & Hk2 & now2 & Hp2). destruct Hsame as [En Ec]. rewrite En, Ec in Hk2.
  assert (Hne : ref' <> ref) by (intros ->; by rewrite Hp1, lookup_insert_eq in Hf2).
  assert (Hfree : forall key, au_pendingAuth a2 !! key <> Some ref).
  { intros key E. rewrite Hk2, Hk1 in E. apply lookup_insert_Some in E as [[_ E]|[Hn1 E]]; [congruence|].
    rewrite lookup_insert_ne in E by done. apply Hwf in E as [p E]. congruence. }
  destruct (messages_votes msgs a2) as [_ Hv]. set (a3 := fold_left _ _ _) in *. clearbody a3.
  destruct (verdict_unopposed ann ref timedOut a3 (new_pending ann now1)) as (c & v' & -> & Hc1 & Hc2 & _); [|by split|done].
  rewrite Hv by done. by rewrite Hp2, lookup_insert_ne, Hp1, lookup_insert_eq.
Qed.

(** *** Renewal *)

(** Anyone gets a certificate for a member's name and a key of
    its own.  The certificate to renew is neither verified nor checked for
    expiry, and nobody asks who is at the other end: for a member that is not
    revoked, a request with any certificate that has its name and any new key
    that parses is answered with a certificate signed for that name and key. *)
Theorem auth_renewal_forged c cert evil newCert p entry a
    (Hprov : GetProvider c a = Some p) (Hcan : CanSign p = true) (Hsound : sound (au_pb a)) (Hmem : members (au_pb a) !! (nc_NodeId cert, c) = Some entry)
    (Hrev : rl_IsNodeRevoked (nc_NodeId cert) (revocations_of c a) = false) (Hfp : forall fp, CertFingerprint cert = Some fp -> rl_IsRevoked fp (revocations_of c a) = false)
    (Hne : evil <> []) (Hparse : key_parses evil = true) (Hsign : SignForNode p (nc_NodeId cert) evil c = Some newCert) :
  exists a', handleRenewalStream (Some {| rq_CurrentCert := Some cert; rq_NewPublicKey := evil; rq_ClusterPath := c |}) a =
    (Some {| rs_Success := true; rs_NewCert := Some newCert; rs_Error := "" |}, a').
Proof.
  unfold handleRenewalStream. cbn [rq_ClusterPath rq_CurrentCert rq_NewPublicKey]. rewrite Hprov, Hcan. cbn [negb].
  assert (H1 : exists a1, match CertFingerprint cert with Some fp => IsCertRevoked c fp a | None => (false, a) end = (false, a1) /\
    revocations_of c a1 = revocations_of c a /\ au_pb a1 = au_pb a).
  { destruct (CertFingerprint cert) as [fp|]; [|by eexists]. rewrite <- (Hfp fp eq_refl). unfold IsCertRevoked, revocations_of, GetRevocationList.
    destruct (au_revocations a !! c) as [rl|] eqn:E; (eexists; split; [done|]); split; try done; [by rewrite E|cbn; by rewrite lookup_insert_eq]. }
  destruct H1 as (a1 & -> & Hr1 & Hp1). destruct (IsNodeRevoked_undisturbed c (nc_NodeId cert) a1) as (a2 & -> & _ & _ & Hp2 & _). rewrite Hr1, Hrev, Hp2, Hp1.
  destruct (Get_law (nc_NodeId cert) c (au_pb a) Hsound) as (pb & -> & _). rewrite Hmem. destruct evil as [|x evil]; [done|]. cbn [length Nat.ltb Nat.leb]. rewrite Hparse. cbn [negb].
  rewrite Hsign. by eexists.
Qed.

(** *** Joining again *)

Lemma join_blocked host req k a : ap_topics (au_ps a) !! BuildAuthTopic (cj_ClusterPath req) = Some k -> let a' := snd (handleClusterJoinRequest host req a) in
  au_sessions a' = au_sessions a /\ au_bus a' = au_bus a ++ [ClusterJoinFailed (cj_ClusterPath req)] /\ ap_topics (au_ps a') = ap_topics (au_ps a).
Proof.
  intros Ht. cbv zeta. unfold handleClusterJoinRequest. destruct (SetClusterPSK _ _ a) as [[r psk] a1] eqn:E1.
  assert (Hs1 : au_ps a1 = au_ps a /\ au_sessions a1 = au_sessions a /\ au_bus a1 = au_bus a).
  { unfold SetClusterPSK in E1. destruct (_ <? _)%nat; [by injection E1 as _ _ <-|]. destruct (DeriveClusterRootKey _ _); [|by injection E1 as _ _ <-].
    destruct (DeriveHMACKey _ _); by injection E1 as _ _ <-. }
  destruct Hs1 as (Hp1 & Hse1 & Hb1). destruct r as [u|e]; [|unfold publishJoinFailed; cbn; by rewrite Hse1, Hb1, Hp1].
  destruct (initProviderForCluster _ a1) as [r2 a2] eqn:E2. assert (Hs2 : au_ps a2 = au_ps a1 /\ au_sessions a2 = au_sessions a1 /\ au_bus a2 = au_bus a1).
  { unfold initProviderForCluster in E2. destruct (match au_certConfigs a1 !! _ with Some _ => _ | None => _ end); [destruct (NewExternalProvider _ _)|destruct (au_rootKeys a1 !! _); [destruct (NewAutoProvider _ _)|]];
      by injection E2 as _ <-. }
  destruct Hs2 as (Hp2 & Hse2 & Hb2). destruct r2 as [u2|e2]; [|unfold publishJoinFailed; cbn; by rewrite Hse2, Hse1, Hb2, Hb1, Hp2, Hp1].
  unfold SubscribeToCluster, ap_Join. rewrite Hp2, Hp1, Ht. cbn. by rewrite Hse2, Hse1, Hb2, Hb1.
Qed.

Lemma save_ps c cert a : au_ps (snd (save_certificate c cert a)) = au_ps a.
Proof. unfold save_certificate. destruct (GetProvider _ _); [|done]. by destruct (SaveNodeCertificate _ _). Qed.

Lemma Authenticate_ps host c target a : au_ps (snd (Authenticate host c target a)) = au_ps a.
Proof.
  unfold Authenticate, au_read. destruct (au_hmacKeys a !! c); [|done]. destruct (h_NewStream host a target) as [peer|]; [|done]. destruct (id_rand _ _); [|done].
  destruct (peer _) as [[ch k]|]; [|done]. destruct (id_Sign _ _); [|done]. destruct (k _) as [[ok comp]|]; [|done]. destruct (negb _); [done|]. destruct comp as [comp|]; [|done].
  destruct (negb _); [done|]. unfold authenticated, au_now. cbn. destruct (ac_NodeCertificate comp); destruct (ac_ClusterMembers comp); cbn; by rewrite ?save_ps.
Qed.

Lemma bootstrap_ps host c addrs last a : au_ps (snd (bootstrap_loop host c addrs last a)) = au_ps a.
Proof.
  revert last a. induction addrs as [|addr addrs IH]; intros last a; cbn [bootstrap_loop]; [done|]. destruct (negb _); [apply IH|]. destruct (h_AddrInfo host addr) as [id|]; [|apply IH].
  destruct (negb _); [apply IH|]. pose proof (Authenticate_ps host c id a) as Hp. destruct (Authenticate host c id a) as [[s|e] a1]; cbn [snd] in Hp; [done|]. by rewrite IH.
Qed.

(** C26: a failed join cannot be repeated.  When a request gets as far
    as subscribing to the auth topic and then no bootstrap peer admits the
    node, the topic stays joined; every later request for the same cluster,
    with whatever peers and on whatever network, fails before it contacts
    anyone. *)
Theorem auth_failed_join_final host req rest a a1 a2 a3
    (Hpsk : SetClusterPSK (cj_ClusterPath req) (cj_PSK req) a = ((Ok tt, rest), a1)) (Hprov : initProviderForCluster (cj_ClusterPath req) a1 = (Ok tt, a2))
    (Hsub : SubscribeToCluster (cj_ClusterPath req) a2 = (Ok tt, a3)) (Hpeers : cj_BootstrapPeers req <> [])
    (Hfail : exists e, fst (bootstrapAndAuthenticate host (cj_ClusterPath req) (cj_BootstrapPeers req) a3) = Err e) :
  let a' := snd (handleClusterJoinRequest host req a) in
  List.last (au_bus a') (ClusterJoined "" "") = ClusterJoinFailed (cj_ClusterPath req) /\
  forall later, Forall (fun hr : Host * ClusterJoinRequested => cj_ClusterPath hr.2 = cj_ClusterPath req) later ->
    let a'' := fold_left (fun a hr => snd (handleClusterJoinRequest hr.1 hr.2 a)) later a' in
    au_sessions a'' = au_sessions a' /\ au_bus a'' = au_bus a' ++ replicate (length later) (ClusterJoinFailed (cj_ClusterPath req)).
Proof.
  cbv zeta. destruct Hfail as [e He]. assert (Htop : exists k, ap_topics (au_ps a3) !! BuildAuthTopic (cj_ClusterPath req) = Some k).
  { unfold SubscribeToCluster, ap_Join, ap_Subscribe in Hsub. destruct (ap_topics (au_ps a2) !! _); [discriminate|]. destruct (ap_ok _) in Hsub; [|discriminate]. cbn [negb] in Hsub.
    destruct (ap_ok _) in Hsub; [|discriminate]. injection Hsub as <-. cbn. rewrite lookup_alter_eq, lookup_insert_eq. by eexists. }
  pose proof (bootstrap_ps host (cj_ClusterPath req) (cj_BootstrapPeers req) JNoPeers a3) as Hps.
  assert (Ha : exists a4, snd (handleClusterJoinRequest host req a) = publishJoinFailed (cj_ClusterPath req) a4 /\ au_ps a4 = au_ps a3).
  { unfold handleClusterJoinRequest. rewrite Hpsk, Hprov, Hsub. unfold bootstrapAndAuthenticate in *. destruct (cj_BootstrapPeers req) as [|p ps]; [done|].
    destruct (bootstrap_loop _ _ _ _ _) as [r a4]. cbn in He. subst r. by exists a4. }
  destruct Ha as (a4 & -> & Hp4). split; [unfold publishJoinFailed, publish_event; cbn; apply last_last|].
  set (b := publishJoinFailed _ a4). assert (Hb : exists k, ap_topics (au_ps b) !! BuildAuthTopic (cj_ClusterPath req) = Some k) by (unfold b; cbn; by rewrite Hp4). clearbody b.
  intros later Hl. revert b Hb. induction Hl as [|hr later Hc Hl IH]; intros b [k Hk]; cbn [fold_left length replicate]; [by rewrite app_nil_r|].
  rewrite <- Hc in Hk. destruct (join_blocked hr.1 hr.2 k b Hk) as (H1 & H2 & H3). destruct (IH (snd (handleClusterJoinRequest hr.1 hr.2 b))) as [-> ->].
  - exists k. rewrite H3, <- Hc. exact Hk.
  - split; [done|]. rewrite H2, <- app_assoc. cbn. by rewrite Hc.
Qed.

End Facts.

Section Rejected.
Context `{I : IPhonebook} `{L : !IPhonebookLaws I} `{W : !IPhonebookWrites I L} `{R : GoRange} `{H : Sha256} `{A : Aead} `{K : AuthCrypto} `{T : Certs} `{P : AuthCodec}.
Variable ctx_done : Authenticator -> bool.

(** The phonebook handles an event of the bus; [now] are its clock readings. *)
Definition deliver (now : nat -> Time * Time) (ev : MemberEvent) (a : Authenticator) : Authenticator := set_pb (snd (onMemberEvent now ev (au_pb a))) a.

Lemma add_member now1 now2 c m p : sound p -> pb_plain (member_entry now1 now2 c m) -> let p' := snd (addOrUpdateEntry now1 now2 c m p) in
  sound p' /\ exists e, members p' !! (mi_NodeID m, c) = Some e /\ e_PublicKey e = mi_PublicKey m.
Proof.
  intros Hs Hpl. cbv zeta. unfold addOrUpdateEntry. destruct (Exists_law (mi_NodeID m) c p Hs) as (p1 & -> & Hs1 & Hm1). set (e0 := member_entry now1 now2 c m) in *.
  destruct (members p !! (mi_NodeID m, c)) as [old|] eqn:E.
  - rewrite bool_decide_eq_true_2 by eauto. destruct (Update_law e0 p1 Hs1 Hpl) as (p2 & t & -> & Hs2 & Hm2). split; [done|]. exists (as_updated t e0 old).
    cbn [snd]. rewrite Hm2, Hm1. change (e_key e0) with (mi_NodeID m, c). by rewrite lookup_alter_eq, E.
  - rewrite bool_decide_eq_false_2 by (by intros [? ?]). destruct (Add_law e0 p1 Hs1 Hpl) as (p2 & t & -> & Hs2 & Hm2); [by rewrite Hm1|]. split; [done|]. exists (as_added t e0).
    cbn [snd]. rewrite Hm2. change (e_key e0) with (mi_NodeID m, c). by rewrite lookup_insert_eq.
Qed.

Lemma cast_reject_counts votes p : List.Exists (fun v => exists n r, v = VReject n r) votes -> size (pa_Rejections (fold_left cast votes p)) <> 0%nat.
Proof.
  assert (Hmono : forall l q, size (pa_Rejections q) <> 0%nat -> size (pa_Rejections (fold_left cast l q)) <> 0%nat).
  { induction l as [|v l IH]; intros q Hq; [done|]. cbn [fold_left]. apply IH. destruct v as [n|n r]; [done|]. cbn. apply map_size_non_empty_iff, insert_non_empty. }
  intros Hex. revert p. induction Hex as [v l (n & r & ->)|v l _ IH]; intros p; cbn [fold_left]; [|apply IH]. apply Hmono. cbn. apply map_size_non_empty_iff, insert_non_empty.
Qed.

(** Rejecting a node does not undo its announcement.  When the
    first vote on a node rejects it, the node is told that it is not
    authenticated; but the voucher put it on the bus before the votes, its
    phonebook has stored it with its key, nothing removes it, and so the
    voucher goes on accepting what the rejected node signs as messages of a
    member. *)
Theorem auth_rejected_stays now h resp ok ann who why votes timedOut v v1 v3 ref
    (Hs : sound (au_pb v)) (Hans : auth_answer h (Some resp) v = (Vouched ok ann, v1))
    (Hplain : pb_plain (member_entry (now O).1 (now O).2 (jr_ClusterPath (he_req h)) (joining_member (he_req h))))
    (Hbc : auth_broadcast ctx_done ann (deliver now (NewMemberAnnounced (jr_ClusterPath (he_req h)) (joining_member (he_req h))) v1) = (AwaitingVotes ref, v3)) :
  let v4 := on_pending (pendingKey (na_NewNodeId ann) (na_ClusterPath ann)) (fold_left cast (VReject who why :: votes)) v3 in
  let '(c, v') := auth_verdict ann ref timedOut v4 in
  c = not_authenticated /\ member_key (jr_NodeId (he_req h)) (jr_ClusterPath (he_req h)) v' = Some (jr_PublicKey (he_req h)).
Proof.
  cbv zeta. set (req := he_req h) in *. assert (Hv1 : au_pb v1 = au_pb v /\ key_parses (jr_PublicKey req) = true).
  { unfold auth_answer in Hans. destruct (check_answer h resp) eqn:Ec; [discriminate|]. apply check_answer_spec in Ec as (_ & Hk & _). split; [|exact Hk].
    match type of Hans with context [buildNewMemberAnnouncement ?n ?c ?l ?k ?p ?x] => destruct (build_same n c l k p x) as [t E]; destruct (buildNewMemberAnnouncement n c l k p x) as [[an|] v0] end;
      [|discriminate]. cbn [snd] in E. injection Hans as _ _ <-. by subst v0. }
  destruct Hv1 as [Hpb Hkey]. destruct (add_member (now O).1 (now O).2 (jr_ClusterPath req) (joining_member req) (au_pb v1)) as (Hs2 & e & He & Hek); [by rewrite Hpb|done|].
  cbn [deliver onMemberEvent snd] in Hbc. set (v2 := deliver now _ v1) in Hbc. change (snd (addOrUpdateEntry (now O).1 (now O).2 (jr_ClusterPath req) (joining_member req) (au_pb v1))) with (au_pb v2) in Hs2, He.
  destruct (broadcast_pending ctx_done _ _ _ _ Hbc) as (_ & Hkeys & t & Hp3).
  assert (Hm3 : members (au_pb v3) = members (au_pb v2)).
  { unfold auth_broadcast, au_now in Hbc. destruct (GetByCluster_law (na_ClusterPath ann) (au_pb v2) Hs2) as (l & pb & E & _ & Hm & _). rewrite E in Hbc. destruct (_ <? _)%nat in Hbc.
    - match type of Hbc with context [publishStep2 _ ?c ?x ?y] => pose proof (step2_still ctx_done c x y) as St; destruct (publishStep2 ctx_done c x y) as [[u|er] v'] end; [|discriminate].
      injection Hbc as _ <-. cbn [snd] in St. by rewrite (st_pb _ _ St).
    - destruct (publishStep2 _ _ _ _) as [[u|er] v']; [|discriminate]. destruct (auth_complete _ _). discriminate. }
  unfold on_pending. rewrite Hkeys, lookup_insert_eq. set (f := fold_left cast (VReject who why :: votes)). unfold auth_verdict. cbn [au_pendings set_pendings].
  rewrite Hp3, lookup_alter_eq, lookup_insert_eq. cbn [fmap option_fmap option_map].
  assert (Hadm : admits timedOut (f (new_pending ann t)) = false).
  { unfold admits, f. rewrite first_vote by done. cbn [head fmap option_fmap option_map vote_result ar_Confirmed]. destruct timedOut; [|done]. apply Nat.eqb_neq, cast_reject_counts.
    apply List.Exists_cons_hd. by eexists _, _. }
  rewrite Hadm. split; [done|]. unfold member_key. cbn. change (jr_NodeId req) with (mi_NodeID (joining_member req)). rewrite Hm3, He, Hek. cbn. by rewrite Hkey.
Qed.

End Rejected.
