(* ===== verification/AuthDemo.v ===== *)
(** * Two nodes that authenticate, for evaluation

    An instance of the interfaces of [Auth] and [Handshake]: one-key
    signatures, an encoding of messages, certificates that name a node and a
    key, and revocation lists kept as they are.  The properties of the
    authentication are applied to nodes built on it. *)

From S2P Require Import Prelude ElectionTopic Orbit Internals Shared Phonebook HealthMonitor RuntimeNode Syncer Auth AuthGossip Handshake.
Import signing secrets subscriber PhonebookDemo wire.
Local Open Scope string_scope.
Local Open Scope list_scope.
Local Open Scope Z_scope.

#[local] Existing Instances NodeDemo.toy_aead OrbitDemo.demo_sha.

(** ** Instances *)

#[local] Instance demo_crypto : AuthCrypto := {|
  hmac_sha256 := fun k m => k ++ m; ed_public := fun s => s; ed_Sign := fun k m => k ++ m; ed_Verify := fun k m sig => bool_decide (sig = k ++ m);
  key_parses := fun _ => true; key_Verify := fun k m sig => bool_decide (sig = Ascii.one :: k ++ m) |}.

#[local] Instance caps_dec : EqDecision AuthCapabilities. Proof. solve_decision. Defined.
#[local] Instance caps_countable : Countable AuthCapabilities.
Proof.
  refine (inj_countable' (fun m => (ac_CpuCores m, ac_MemoryMb m, ac_DiskGb m, ac_Datacenter m, ac_Tags m, ac_Metadata m))
    (fun '(a, b, c, d, e, f) => {| ac_CpuCores := a; ac_MemoryMb := b; ac_DiskGb := c; ac_Datacenter := d; ac_Tags := e; ac_Metadata := f |}) _). by intros [].
Defined.
#[local] Instance cert_dec : EqDecision NodeCertificate. Proof. solve_decision. Defined.
#[local] Instance cert_countable : Countable NodeCertificate.
Proof.
  refine (inj_countable' (fun m => (nc_NodeId m, nc_NodePublicKey m, nc_ClusterPath m, nc_IssuerNodeId m, nc_IssuedAt m, nc_ExpiresAt m, nc_Signature m, nc_IsSelfSigned m))
    (fun '(a, b, c, d, e, f, g, h) => {| nc_NodeId := a; nc_NodePublicKey := b; nc_ClusterPath := c; nc_IssuerNodeId := d; nc_IssuedAt := e; nc_ExpiresAt := f;
       nc_Signature := g; nc_IsSelfSigned := h |}) _). by intros [].
Defined.
#[local] Instance auth_message_dec : EqDecision AuthMessage. Proof. solve_decision. Defined.
#[local] Instance auth_message_countable : Countable AuthMessage.
Proof.
  refine (inj_countable' (fun m => (am_Type m, am_Payload m, am_SenderId m, am_Timestamp m, am_Signature m))
    (fun '(a, b, c, d, e) => {| am_Type := a; am_Payload := b; am_SenderId := c; am_Timestamp := d; am_Signature := e |}) _). by intros [].
Defined.
#[local] Instance announcement_dec : EqDecision NewMemberAnnouncement. Proof. solve_decision. Defined.
#[local] Instance announcement_countable : Countable NewMemberAnnouncement.
Proof.
  refine (inj_countable' (fun m => (na_NewNodeId m, na_NewNodeAddrs m, na_Capabilities m, na_ClusterPath m, na_VoucherNodeId m, na_VoucherSignature m, na_PublicKey m,
       na_Timestamp m, na_Certificate m))
    (fun '(a, b, c, d, e, f, g, h, i) => {| na_NewNodeId := a; na_NewNodeAddrs := b; na_Capabilities := c; na_ClusterPath := d; na_VoucherNodeId := e;
       na_VoucherSignature := f; na_PublicKey := g; na_Timestamp := h; na_Certificate := i |}) _). by intros [].
Defined.
#[local] Instance confirmed_dec : EqDecision MemberAuthConfirmed. Proof. solve_decision. Defined.
#[local] Instance confirmed_countable : Countable MemberAuthConfirmed.
Proof.
  refine (inj_countable' (fun m => (ma_NewNodeId m, ma_ConfirmingNodeId m, ma_ClusterPath m, ma_Signature m, ma_Timestamp m))
    (fun '(a, b, c, d, e) => {| ma_NewNodeId := a; ma_ConfirmingNodeId := b; ma_ClusterPath := c; ma_Signature := d; ma_Timestamp := e |}) _). by intros [].
Defined.
#[local] Instance rejected_dec : EqDecision MemberAuthRejected. Proof. solve_decision. Defined.
#[local] Instance rejected_countable : Countable MemberAuthRejected.
Proof.
  refine (inj_countable' (fun m => (mr_NewNodeId m, mr_RejectingNodeId m, mr_ClusterPath m, mr_Reason m, mr_Signature m, mr_Timestamp m))
    (fun '(a, b, c, d, e, f) => {| mr_NewNodeId := a; mr_RejectingNodeId := b; mr_ClusterPath := c; mr_Reason := d; mr_Signature := e; mr_Timestamp := f |}) _). by intros [].
Defined.
#[local] Instance revocation_dec : EqDecision CertificateRevocation. Proof. solve_decision. Defined.
#[local] Instance revocation_countable : Countable CertificateRevocation.
Proof.
  refine (inj_countable' (fun m => (cr_CertFingerprint m, cr_NodeId m, cr_ClusterPath m, cr_Reason m, cr_RevokedBy m, cr_RevokedAt m, cr_Signature m))
    (fun '(a, b, c, d, e, f, g) => {| cr_CertFingerprint := a; cr_NodeId := b; cr_ClusterPath := c; cr_Reason := d; cr_RevokedBy := e; cr_RevokedAt := f; cr_Signature := g |}) _).
  by intros [].
Defined.

#[local] Instance demo_codec : AuthCodec := {|
  marshalAuth := to_wire; unmarshalAuth := of_wire; marshalNewMember := to_wire; unmarshalNewMember := of_wire; marshalConfirmed := to_wire; unmarshalConfirmed := of_wire;
  marshalRejected := to_wire; unmarshalRejected := of_wire; marshalRevocation := to_wire; unmarshalRevocation := of_wire |}.
#[local] Instance demo_codec_laws : AuthCodecLaws demo_codec.
Proof. split; simpl; intros m b; apply wire_roundtrip. Qed.

Definition certificate (node : string) (key : bytes) (c : string) : NodeCertificate :=
  {| nc_NodeId := node; nc_NodePublicKey := key; nc_ClusterPath := c; nc_IssuerNodeId := ""; nc_IssuedAt := None; nc_ExpiresAt := None; nc_Signature := []; nc_IsSelfSigned := false |}.
(** A provider is the certificate it holds; a revocation list its entries. *)
#[local] Instance demo_certs : Certs := {|
  Provider := option NodeCertificate; CertConfig := unit; IsExternal := fun _ => false; NewExternalProvider := fun _ _ => None; NewAutoProvider := fun _ _ => Some None;
  CanSign := fun _ => true; SignForNode := fun _ n k c => Some (certificate n k c); VerifyNodeCertificate := fun _ _ => true;
  VerifyCertificateInAnnouncement := fun _ _ => true; SaveNodeCertificate := fun cert _ => (true, Some cert);
  CreateSelfSignedCert := fun n k c _ => (true, Some (certificate n k c)); prov_NodeCertificate := fun p => p; NeedsRenewal := fun _ _ => true;
  CertFingerprint := fun cert => Some (nc_NodeId cert); RevocationList := list RevocationEntry; NewRevocationList := fun _ _ => Some []; empty_list := [];
  Revoke := fun e rl => (true, e :: rl); rl_IsRevoked := fun f rl => existsb (fun e => f =s re_CertFingerprint e) rl;
  rl_IsNodeRevoked := fun n rl => existsb (fun e => n =s re_NodeID e) rl; rl_List := fun rl => rl; rl_Sync := fun l rl => (Ok 0, l ++ rl) |}.
#[local] Instance demo_certs_laws : CertsLaws demo_certs.
Proof. split; [|done]. intros e rl rl' [= <-]. done. Qed.

(** ** Nodes *)

Definition identity (self : string) : Identity := {|
  id_self := self; id_PublicKey := []; id_Sign := fun m => Some (Ascii.one :: m); id_addrs := ["/ip4/10.0.0.1/tcp/4001"]; id_dataDir := ""; id_rejectAll := false;
  id_staleThreshold := DefaultSessionStaleThreshold; id_maxStale := DefaultMaxStaleDuration; id_clock := demo_clock; id_rand := fun _ => Some (replicate 4 Ascii.one) |}.
Definition topics : AuthPubSub := {| ap_topics := ∅; ap_wire := []; ap_net := fun _ => true; ap_calls := 0 |}.
Abbreviation Node := (Authenticator (I := sqlite_phonebook) (T := demo_certs)).
Definition fresh_node (self : string) (p : Phonebook.Phonebook) : Node := auth_New (identity self) topics (p : @PB sqlite_phonebook).
Definition psk : bytes := replicate 32 Ascii.one.

(** A host on which every bootstrap address is the identity it names. *)
Definition host (dial : Node -> string -> option AuthPeer) : Host (I := sqlite_phonebook) (T := demo_certs) :=
  {| h_NewMultiaddr := fun _ => true; h_AddrInfo := Some; h_Decode := Some; h_Connect := fun _ _ => true; h_NewStream := dial; h_NewRenewal := fun _ _ => None |}.
Definition request (peers : list string) : ClusterJoinRequested := {| cj_ClusterPath := cluster; cj_PSK := psk; cj_BootstrapPeers := peers |}.

(** [n1] is the first node; [n4] has the key and is not a member yet. *)
Definition voucher : Node := snd (handleClusterJoinRequest (host (fun _ _ => None)) (request []) (fresh_node "n1" book)).
Definition joiner : Node := snd (SetClusterPSK cluster psk (fresh_node "n4" new_book)).
Definition key : bytes := replicate 32 Ascii.zero.
Definition nonce : bytes := replicate 4 Ascii.one.
Definition no_ctx (_ : Node) : bool := false.

Lemma signs self p : signs_with [] (fresh_node self p).
Proof. intros m. eexists. split; [done|]. by apply bool_decide_eq_true_2. Qed.

Lemma joiner_ready : ready cluster key nonce [] joiner.
Proof. split; [by vm_compute|]. split; [done|]. split; [done|]. exact (signs "n4" new_book). Qed.

Lemma voucher_signs : signs_with [] voucher.
Proof. intros m. eexists. split; [done|]. by apply bool_decide_eq_true_2. Qed.

Lemma voucher_publishing : publishing cluster voucher.
Proof. split; [by eexists; vm_compute|done]. Qed.

Lemma voucher_able remote node : able cluster remote node key voucher.
Proof.
  split; [by vm_compute|by vm_compute|by vm_compute|split; by eexists|exists []; apply voucher_signs| |apply voucher_publishing].
  eexists. split; [by vm_compute|]. split; [done|]. intros n k. by eexists.
Qed.

Lemma voucher_sound : sound (au_pb voucher).
Proof. exact book_sound. Qed.

(** ** The properties on these nodes *)

Definition idle_tasks (_ : nat) (x : Node) : Node := x.
Lemma idle_supports c node i x : supports c node x (idle_tasks i x).
Proof. split; try done; [exists []; by rewrite app_nil_r|]. intros ref p Hp _ _ Hu. by exists p. Qed.

Lemma auth_join_completes_witness :
  exists s j', Authenticate (host (fun _ _ => Some (member_peer no_ctx (fun _ => None) idle_tasks true "n4" voucher))) cluster "n1" joiner = (Ok s, j') /\
    IsAuthenticated cluster j' = true /\ s_VoucherNodeID s = "n1".
Proof.
  destruct (auth_join_completes no_ctx (fun _ => None) (host (fun _ _ => Some (member_peer no_ctx (fun _ => None) idle_tasks true "n4" voucher))) cluster key nonce [] "n1"
    idle_tasks true joiner voucher) as (s & j' & chal & sig & ok & comp & v' & H1 & H2 & H3 & _);
    [exact joiner_ready|done|exact (voucher_able "n4" "n4")|exact voucher_sound|intros m _ _; apply wire_total|intros m _; apply wire_total|exact (idle_supports cluster "n4")|done|].
  exists s, j'. split; [exact H1|]. split; [exact H2|exact H3].
Defined.

(** A handshake of [n4] that waits for the answer. *)
Definition hello (req : JoinRequest) : Hello := {| he_req := req; he_hmacKey := key; he_challenge := nonce; he_serverNonce := nonce |}.
Definition join4 : JoinRequest := join_request cluster nonce joiner.
Definition answer4 : ChallengeResponse :=
  {| cp_Response := expectedResponse (hello join4); cp_Signature := Ascii.one :: expectedResponse (hello join4) |}.

Lemma answer4_proves : proves (hello join4) answer4.
Proof. split; [done|]. split; [done|]. by apply bool_decide_eq_true_2. Qed.

Lemma auth_step1_exact_witness :
  au_bus (snd (auth_answer (hello join4) (Some answer4) voucher)) = au_bus voucher ++ [AMember (NewMemberAnnounced cluster (joining_member join4))].
Proof.
  pose proof (auth_step1_exact (hello join4) answer4 voucher) as H. destruct (auth_answer _ _ _) as [r a']. exact (proj1 (proj1 H answer4_proves)).
Defined.

(** The announcement of [n4] by [n1], on its way to [n2]. *)
Definition announcement : NewMemberAnnouncement :=
  {| na_NewNodeId := "n4"; na_NewNodeAddrs := ["/ip4/10.0.0.1/tcp/4001"]; na_Capabilities := None; na_ClusterPath := cluster; na_VoucherNodeId := "n1";
     na_VoucherSignature := Ascii.one :: AnnouncementContent "n4" cluster ["/ip4/10.0.0.1/tcp/4001"] []; na_PublicKey := []; na_Timestamp := Some 0;
     na_Certificate := Some (certificate "n4" [] cluster) |}.
Definition member2 : Node := snd (handleClusterJoinRequest (host (fun _ _ => None)) (request []) (fresh_node "n2" book)).

Lemma member2_sound : sound (au_pb member2).
Proof. exact book_sound. Qed.

Lemma announcement_acceptable : acceptable cluster announcement member2.
Proof. split; [done|]. split; [done|]. split; [by vm_compute|]. exists []. split; [by vm_compute|]. split; [by vm_compute|done]. Qed.

Definition payload_of {M} `{Countable M} (m : M) : bytes := default [] (to_wire m).
Lemma payload_parses {M} `{Countable M} (m : M) : of_wire (payload_of m) = Some m.
Proof. unfold payload_of. destruct (wire_total m) as [b E]. rewrite E. by apply wire_roundtrip. Qed.

Definition envelope (ty sender : string) (payload : bytes) : AuthMessage :=
  let m sig := {| am_Type := ty; am_Payload := payload; am_SenderId := sender; am_Timestamp := Some (demo_clock 0); am_Signature := sig |} in
  m (Some (Ascii.one :: authMessageContent (m None))).

Lemma auth_announcement_exact_witness :
  au_bus (handleNewMemberAnnouncement no_ctx cluster (envelope "new_member" "n1" (payload_of announcement)) member2) =
    au_bus member2 ++ [AMember (NewMemberReceived cluster (announced_member announcement))].
Proof.
  apply (auth_announcement_exact no_ctx cluster (envelope "new_member" "n1" (payload_of announcement)) announcement member2 member2_sound eq_refl);
    [apply payload_parses|apply announcement_acceptable|by vm_compute; eexists].
Defined.

(** [n4] asks [n1] twice. *)
Record waiting_node (c : string) (v : Node) : Prop := {
  wn_publishing : publishing c v; wn_signs : signs_with [] v; wn_sound : sound (au_pb v); wn_member : exists n e, members (au_pb v) !! (n, c) = Some e
}.

Lemma awaits ann (v : Node) : waiting_node (na_ClusterPath ann) v -> exists ref v', auth_broadcast no_ctx ann v = (AwaitingVotes ref, v') /\ waiting_node (na_ClusterPath ann) v'.
Proof.
  intros [Hp Hs Hsound (n & e & He)]. unfold auth_broadcast. destruct (GetByCluster_law (na_ClusterPath ann) (au_pb v) Hsound) as (l & pb & -> & Hs1 & Hm & Hl).
  assert (Hin : e ∈ l). { rewrite Hl. apply list_elem_of_fmap. exists ((n, na_ClusterPath ann), e). split; [done|]. apply elem_of_map_to_list, map_lookup_filter_Some. split; [done|].
    pose proof (members_key _ _ _ Hsound He) as Hk. by injection Hk. }
  destruct l as [|e0 l]; [by apply elem_of_nil in Hin|]. cbn [length Nat.ltb Nat.leb]. unfold au_now.
  match goal with |- context [publishStep2 _ _ _ ?x] => destruct (step2_ok no_ctx (na_ClusterPath ann) ann x [] Hp Hs) as (v' & -> & St) end;
    [intros m _ _; apply wire_total|apply wire_total|].
  eexists _, v'. split; [done|]. split; [split; [rewrite (st_topics _ _ St); exact (proj1 Hp)|intros k; rewrite (st_net _ _ St); apply (proj2 Hp)]| | |].
  - intros m. rewrite (st_id _ _ St). apply Hs.
  - by rewrite (st_pb _ _ St).
  - exists n, e. rewrite (st_pb _ _ St). change (members pb !! (n, na_ClusterPath ann) = Some e). by rewrite Hm.
Qed.

Lemma n1_member : exists e, members (book : @PB sqlite_phonebook) !! ("n1", cluster) = Some e.
Proof.
  assert (E : bool_decide (is_Some (pb_members book !! ("n1", cluster))) = true) by (vm_compute; reflexivity). apply bool_decide_eq_true in E as [e He]. by exists e.
Qed.

Lemma voucher_waits : waiting_node cluster voucher.
Proof. split; [apply voucher_publishing|apply voucher_signs|apply voucher_sound|]. destruct n1_member as [e He]. by exists "n1", e. Qed.

Lemma auth_rejection_evaded_witness :
  exists ref v1 ref' v2, auth_broadcast no_ctx announcement voucher = (AwaitingVotes ref, v1) /\ auth_broadcast no_ctx announcement v1 = (AwaitingVotes ref', v2) /\
    forall msgs, ac_FullyAuthenticated (fst (auth_verdict announcement ref true (fold_left (fun a m => authMessageLoop no_ctx m.1.1 m.1.2 m.2 a) msgs v2))) = true.
Proof.
  destruct (awaits announcement voucher voucher_waits) as (ref & v1 & E1 & W1). destruct (awaits announcement v1 W1) as (ref' & v2 & E2 & _).
  exists ref, v1, ref', v2. split; [exact E1|]. split; [exact E2|]. intros msgs.
  assert (Hwf : pending_wf voucher) by (intros k r Hk; by vm_compute in Hk).
  exact (proj1 (auth_rejection_evaded no_ctx announcement announcement ref ref' true msgs voucher v1 v2 Hwf (conj eq_refl eq_refl) E1 E2)).
Defined.

(** [n1] has stored [n4] when the others reject it. *)
Definition when (_ : nat) : Time * Time := (demo_clock 0, demo_clock 0).
Lemma vouches (v : Node) p : signs_with [] v -> au_providers v !! cluster = Some p -> exists ok ann,
  auth_answer (hello join4) (Some answer4) v =
    (Vouched ok ann, set_ticks (S (au_ticks v)) (publish_event (AMember (NewMemberAnnounced cluster (joining_member join4))) v)) /\ na_ClusterPath ann = cluster.
Proof.
  intros Hs Hp. unfold auth_answer. rewrite (proj2 (check_answer_spec _ _) answer4_proves). unfold buildNewMemberAnnouncement, au_now, GetProvider.
  cbn [au_id publish_event set_bus he_req hello]. match goal with |- context [id_Sign _ ?x] => destruct (Hs x) as (sig & -> & _) end.
  cbn [key_parses demo_crypto negb au_providers set_ticks set_bus publish_event]. change (jr_ClusterPath join4) with cluster. rewrite Hp. eexists _, _. split; reflexivity.
Qed.

Lemma stored_waits (v : Node) t ev : waiting_node cluster v -> pb_plain (member_entry (when 0).1 (when 0).2 cluster (joining_member join4)) ->
  waiting_node cluster (deliver when (NewMemberAnnounced cluster (joining_member join4)) (set_ticks t (publish_event ev v))).
Proof.
  intros [Hp Hs Hsound _] Hpl. destruct (add_member (when 0).1 (when 0).2 cluster (joining_member join4) (au_pb v) Hsound Hpl) as (Hs2 & e & He & _).
  split; [exact Hp|exact Hs|exact Hs2|exists "n4", e; exact He].
Qed.

Lemma auth_rejected_stays_witness : exists ok ann v1 ref v3, auth_answer (hello join4) (Some answer4) voucher = (Vouched ok ann, v1) /\
  auth_broadcast no_ctx ann (deliver when (NewMemberAnnounced cluster (joining_member join4)) v1) = (AwaitingVotes ref, v3) /\
  let v4 := on_pending (pendingKey (na_NewNodeId ann) (na_ClusterPath ann)) (fold_left cast [VReject "n2" "no"; VConfirm "n3"]) v3 in
  fst (auth_verdict ann ref false v4) = not_authenticated /\ member_key "n4" cluster (snd (auth_verdict ann ref false v4)) = Some [].
Proof.
  destruct (vouches voucher (Some (certificate "n1" [] cluster)) voucher_signs) as (ok & ann & E & Hc); [vm_compute; reflexivity|]. set (v1 := set_ticks _ _) in E.
  assert (Hpl : pb_plain (member_entry (when 0).1 (when 0).2 cluster (joining_member join4))) by exact (entry_is_plain "n4").
  assert (W : waiting_node cluster (deliver when (NewMemberAnnounced cluster (joining_member join4)) v1)).
  { apply (stored_waits voucher); [exact voucher_waits|exact Hpl]. }
  assert (W' : waiting_node (na_ClusterPath ann) (deliver when (NewMemberAnnounced cluster (joining_member join4)) v1)) by (rewrite Hc; exact W).
  destruct (awaits ann _ W') as (ref & v3 & E3 & _). clear W W'. clearbody v1. exists ok, ann, v1, ref, v3. split; [exact E|]. split; [exact E3|]. cbv zeta.
  pose proof (auth_rejected_stays no_ctx when (hello join4) answer4 ok ann "n2" "no" [VConfirm "n3"] false voucher v1 v3 ref voucher_sound E Hpl E3) as H.
  cbv zeta in H. destruct (auth_verdict ann ref false _) as [c v']. exact H.
Defined.

(** [n4] finds nobody at its bootstrap address, and asks again when there is
    somebody. *)
Definition later : list (Host * ClusterJoinRequested) :=
  [(host (fun _ _ => Some (member_peer no_ctx (fun _ => None) idle_tasks true "n4" voucher)), request ["n1"]); (host (fun _ _ => None), request [])].
Definition failed4 : Node := snd (handleClusterJoinRequest (host (fun _ _ => None)) (request ["n1"]) (fresh_node "n4" new_book)).

Lemma ok_pair {W X} (x : X * W) (r : X) : fst x = r -> x = (r, snd x).
Proof. by destruct x; cbn; intros ->. Qed.

Lemma auth_failed_join_final_witness :
  au_bus (fold_left (fun a hr => snd (handleClusterJoinRequest hr.1 hr.2 a)) later failed4) = au_bus failed4 ++ replicate 2 (ClusterJoinFailed cluster).
Proof.
  set (q := request ["n1"]).
  set (a0 := fresh_node "n4" new_book). assert (E1 : SetClusterPSK (cj_ClusterPath q) (cj_PSK q) a0 = ((Ok tt, replicate 32 Ascii.zero), snd (SetClusterPSK (cj_ClusterPath q) (cj_PSK q) a0))) by (apply ok_pair; vm_compute; reflexivity).
  set (a1 := snd (SetClusterPSK (cj_ClusterPath q) (cj_PSK q) a0)) in *. assert (E2 : initProviderForCluster (cj_ClusterPath q) a1 = (Ok tt, snd (initProviderForCluster (cj_ClusterPath q) a1))) by (apply ok_pair; vm_compute; reflexivity).
  set (a2 := snd (initProviderForCluster (cj_ClusterPath q) a1)) in *. assert (E3 : SubscribeToCluster (cj_ClusterPath q) a2 = (Ok tt, snd (SubscribeToCluster (cj_ClusterPath q) a2))) by (apply ok_pair; vm_compute; reflexivity).
  set (a3 := snd (SubscribeToCluster (cj_ClusterPath q) a2)) in *.
  assert (E4 : exists e, fst (bootstrapAndAuthenticate (host (fun _ _ => None)) (cj_ClusterPath q) (cj_BootstrapPeers q) a3) = Err e) by (exists (JAuth "n1" JStream); vm_compute; reflexivity).
  assert (Hne : cj_BootstrapPeers q <> []) by discriminate.
  pose proof (auth_failed_join_final (host (fun _ _ => None)) q (replicate 32 Ascii.zero) a0 a1 a2 a3 E1 E2 E3 Hne E4) as [_ H].
  assert (Hl : Forall (fun hr : Host * ClusterJoinRequested => cj_ClusterPath hr.2 = cj_ClusterPath q) later)
    by (repeat (apply List.Forall_cons; [exact (eq_refl cluster)|]); apply List.Forall_nil).
  exact (proj2 (H later Hl)).
Defined.

(** [n1] revokes [n3], which [n2] hears. *)
Lemma auth_revocation_spreads_witness :
  exists v' data, RevokeCertificate no_ctx "n3" cluster "stolen" "f3" voucher = (Ok tt, v') /\ rl_IsNodeRevoked "n3" (revocations_of cluster v') = true /\
    (fresh_message data member2 -> rl_IsNodeRevoked "n3" (revocations_of cluster (authMessageLoop no_ctx cluster "n1" data member2)) = true).
Proof.
  destruct n1_member as [e He]. destruct (auth_revocation_spreads no_ctx cluster "n3" "stolen" "f3" [] e voucher member2) as (v' & data & H1 & _ & H2 & H3).
  - apply voucher_publishing.
  - apply voucher_signs.
  - intros m. apply wire_total.
  - intros m. apply wire_total.
  - done.
  - apply member2_sound.
  - exact He.
  - assert (E : e_PublicKey <$> pb_members book !! ("n1", cluster) = Some []) by (vm_compute; reflexivity). change (members (book : @PB sqlite_phonebook)) with (pb_members book) in He.
    rewrite He in E. by injection E.
  - done.
  - discriminate.
  - exists v', data. split; [exact H1|]. split; [exact H2|]. intros Hf. apply (H3 Hf). apply Z.leb_le. vm_compute. reflexivity.
Defined.
