(* ===== verification/Config.v ===== *)
(** * Configuration ([config/types.go], [capsule.go], [loader.go])

    The declarative configuration of a node, its validation, and the
    conversion of a declared capsule into a specification.  The CUE library
    and the decoding of JSON are the interface [CueLib]; which files exist is
    an argument.  Integers of type [int] are unbounded here, and conversions
    to smaller types wrap. *)

From S2P Require Import Prelude FilePath Float64 Scaling MetricsStore Strconv CapsuleTypes CapsuleSpec.
Local Open Scope string_scope.
Local Open Scope list_scope.
Local Open Scope Z_scope.

(** ** Types *)

Record ResourcesConfig := { rs_CPU : Z; rs_CPUMax : Z; rs_Memory : string; rs_MemoryMax : string; rs_Disk : string }.
Record ReplicasConfig := { rp_Min : Z; rp_Max : Z; rp_Exact : Z }.
Record ScalingRuleConfig := { sg_Name : string; sg_Trigger : string; sg_Conditions : list string; sg_Action : string; sg_Cooldown : string }.
Record ScalingConfig := { sg_Rules : list ScalingRuleConfig }.
Record PlacementConfig := {
  pl_Name : string; pl_Type : string; pl_Mode : string; pl_Targets : list string; pl_Labels : Labels; pl_Required : option bool
}.
Record PortMapCfg := { pt_Name : string; pt_Container : Z; pt_Host : Z; pt_Protocol : string }.
Record NetworkCfg := { nw_Mode : string; nw_Ports : list PortMapCfg }.
Record HealthCheckCfg := {
  hk_Type : string; hk_Path : string; hk_Port : Z; hk_Interval : string; hk_Timeout : string; hk_Retries : Z; hk_InitialDelay : string
}.
Record FailurePolicyCfg := { fy_RestartLimit : Z; fy_MaxNodeAttempts : Z; fy_GracefulTimeout : string }.
Record LogRetentionCfg := { lg_MaxFileSizeMB : Z; lg_MaxFiles : Z }.
Record RegistryCfg := { rg_URL : string; rg_Username : string; rg_Password : string }.
Record SnapshotCfg := { sp_MaxPerCapsule : Z; sp_TTL : string }.
Record RuntimeCfg := {
  rt_Env : Labels; rt_Network : option NetworkCfg; rt_HealthCheck : option HealthCheckCfg; rt_FailurePolicy : option FailurePolicyCfg;
  rt_LogRetention : option LogRetentionCfg; rt_StatsInterval : string; rt_Registry : option RegistryCfg; rt_Snapshot : option SnapshotCfg
}.
(** [MomentumConfig] of this package *)
Record MomentumCfg := { mo_Base : Z; mo_BoostOnTraffic : bool; mo_ReduceOnIdle : bool; mo_IdleTimeout : string }.
Record AdvancedConfig := { ad_Momentum : option MomentumCfg }.
Record CapsuleConfig := {
  ca_Name : string; ca_Image : string; ca_ImageAlias : string; ca_ImageDigest : string; ca_Orbit : string; ca_Tier : string; ca_Labels : Labels;
  ca_Command : list string; ca_Resources : option ResourcesConfig; ca_Replicas : option ReplicasConfig; ca_Scaling : option ScalingConfig;
  ca_Placement : list PlacementConfig; ca_Runtime : option RuntimeCfg; ca_Advanced : option AdvancedConfig
}.
Record ElectionWeights := {
  ew_CPUHeadroom : f64; ew_MemoryHeadroom : f64; ew_DiskHeadroom : f64; ew_SoftPlacementMatch : f64; ew_AffinityProximity : f64;
  ew_HardwareLabelMatch : f64; ew_LoadPenalty : f64; ew_Reliability : f64; ew_Diversity : f64
}.
Record ElectionConfig := { el_Algorithm : string; el_Timeout : string; el_Weights : option ElectionWeights }.
Record CertificatesConfig := { ct_CACert : string; ct_CAKey : string; ct_NodeCert : string; ct_NodeKey : string }.
(** [ClusterConfig] of this package *)
Record ClusterCfg := {
  cc_PSK : string; cc_Bootstrap : list string; cc_Certificates : option CertificatesConfig; cc_Capsules : gmap string CapsuleConfig;
  cc_Election : option ElectionConfig
}.
Record MetricsCfg := { mx_Enabled : option bool; mx_Interval : string }.
Record HealthCfg := {
  hl_ProtocolPeriod : string; hl_PingTimeout : string; hl_QuarantineTimeout : string; hl_ScoreIncrement : f64; hl_SuspectedThreshold : f64;
  hl_QuarantineThreshold : f64; hl_MaxResponders : Z; hl_QuarantineCheckInterval : string; hl_QuarantineProbeInterval : string
}.
Record NodeConfig := {
  nd_Name : string; nd_Port : Z; nd_Listen : string; nd_DataDir : string; nd_Region : string; nd_Datacenter : string; nd_LogLevel : string;
  nd_Labels : Labels; nd_Orbits : list string; nd_Clusters : gmap string ClusterCfg; nd_Health : option HealthCfg; nd_Metrics : option MetricsCfg
}.

(** ** Sizes and durations *)

(** [strings.ToUpper] on ASCII letters: no other character has one of the
    letters of the units as its upper case. *)
Definition upper_char (c : ascii) : ascii := if (97 <=? code c) && (code c <=? 122) then ascii_of_N (N_of_ascii c - 32) else c.
Fixpoint strings_ToUpper (s : string) : string := match s with EmptyString => "" | String c s => String (upper_char c) (strings_ToUpper s) end.

(** [strings.HasSuffix] of the upper case, with [s[:len(s)-2]]. *)
Definition with_unit (u s : string) : option string :=
  match strip_suffix u (strings_ToUpper s) with Some _ => Some (String.substring 0 (String.length s - 2) s) | None => None end.

Inductive CapsuleError :=
  | EMemory (s : string) | EMemoryMax (s : string) | EDisk (s : string) | ECooldown (index : nat) (s : string) | EStatsInterval (s : string)
  | ESnapshotTTL (s : string) | EIdleTimeout (s : string).

Section Conversion.
Context `{GoConv}.

Definition parseOptionalDuration (s : string) : option Duration := if s =s "" then Some 0 else ParseDuration s.

Definition scaled_size (numStr : string) (f : f64 -> f64) : option Z :=
  match strconv_ParseFloat (strings_TrimSpace numStr) with Ok n => Some (f64_to_int64 (f n)) | Err _ => None end.

Definition parseSizeToMB (s : string) : option Z :=
  if s =s "" then Some 0 else
  let s := strings_TrimSpace s in
  let times k n := (n * f64_of_Z k)%f64 in
  match with_unit "TB" s with
  | Some num => scaled_size num (times (1024 * 1024))
  | None =>
  match with_unit "GB" s with
  | Some num => scaled_size num (times 1024)
  | None =>
  match with_unit "MB" s with
  | Some num => scaled_size num (times 1)
  | None =>
  match with_unit "KB" s with
  | Some num => scaled_size num (fun n => (n / f64_of_Z 1024)%f64)
  | None => scaled_size s (times 1)
  end end end end.

(** ** Capsules *)

(** [uint16(x)] *)
Definition as_uint16 (z : Z) : Z := z mod 2 ^ 16.

Definition sized (s : string) (err : string -> CapsuleError) : result CapsuleError Z := match parseSizeToMB s with Some n => Ok n | None => Err (err s) end.
Definition resources_of (r : ResourcesConfig) : result CapsuleError ResourceRequirements :=
  match sized (rs_Memory r) EMemory with
  | Err e => Err e
  | Ok memMB =>
      match sized (rs_MemoryMax r) EMemoryMax with
      | Err e => Err e
      | Ok memMaxMB =>
          match sized (rs_Disk r) EDisk with
          | Err e => Err e
          | Ok diskMB => Ok {| CPUCores := int32 (rs_CPU r); CPUCoresMax := int32 (rs_CPUMax r); MemoryMB := memMB; MemoryMBMax := memMaxMB; DiskMB := diskMB |}
          end
      end
  end.

Definition replicas_of (r : ReplicasConfig) : ReplicaConfig := {| Min := int32 (rp_Min r); Max := int32 (rp_Max r); Exact := int32 (rp_Exact r) |}.

Fixpoint scaling_of (i : nat) (rules : list ScalingRuleConfig) : result CapsuleError (list ScalingRule) :=
  match rules with
  | [] => Ok []
  | r :: rules =>
      match parseOptionalDuration (sg_Cooldown r) with
      | None => Err (ECooldown i (sg_Cooldown r))
      | Some cooldown =>
          match scaling_of (S i) rules with
          | Err e => Err e
          | Ok rest => Ok ({| sr_Name := sg_Name r; sr_Trigger := if sg_Trigger r =s "" then triggerModeAll else sg_Trigger r; sr_Conditions := sg_Conditions r;
                              sr_Action := sg_Action r; sr_Cooldown := cooldown |} :: rest)
          end
      end
  end.

Definition placement_of (p : PlacementConfig) : PlacementRule :=
  {| pr_Name := pl_Name p; pr_Type := pl_Type p; pr_Mode := pl_Mode p; pr_Names := pl_Targets p; pr_Labels := pl_Labels p;
     pr_Required := default true (pl_Required p) |}.

Definition port_of (p : PortMapCfg) : PortMapping :=
  {| pm_Name := pt_Name p; pm_ContainerPort := as_uint16 (pt_Container p); pm_HostPort := as_uint16 (pt_Host p);
     pm_Protocol := if pt_Protocol p =s "" then "tcp" else pt_Protocol p |}.
Definition network_of (n : NetworkCfg) : NetworkConfig := {| nc_Mode := nw_Mode n; nc_Ports := port_of <$> nw_Ports n |}.

(** The errors of these durations are dropped: what does not parse is 0. *)
Definition duration_or_zero (s : string) : Duration := default 0 (parseOptionalDuration s).
Definition health_of (h : HealthCheckCfg) : HealthCheck :=
  {| hc_Type := hk_Type h; hc_Path := hk_Path h; hc_Port := as_uint16 (hk_Port h); hc_Interval := duration_or_zero (hk_Interval h);
     hc_Timeout := duration_or_zero (hk_Timeout h); hc_Retries := hk_Retries h; hc_InitialDelay := duration_or_zero (hk_InitialDelay h) |}.
Definition policy_of (f : FailurePolicyCfg) : FailurePolicy :=
  {| fp_RestartLimit := fy_RestartLimit f; fp_MaxNodeAttempts := fy_MaxNodeAttempts f; fp_GracefulTimeout := duration_or_zero (fy_GracefulTimeout f) |}.
Definition retention_of (l : LogRetentionCfg) : LogRetention := {| lr_MaxFileSizeMB := lg_MaxFileSizeMB l; lr_MaxFiles := lg_MaxFiles l |}.

Definition no_runtime : RuntimeConfig := cs_Runtime CapsuleTypes.zero_spec.

Definition runtime_of (r : RuntimeCfg) : result CapsuleError RuntimeConfig :=
  match parseOptionalDuration (rt_StatsInterval r) with
  | None => Err (EStatsInterval (rt_StatsInterval r))
  | Some stats =>
      let snap := match rt_Snapshot r with
                  | None => Ok (rc_SnapshotConfig no_runtime)
                  | Some s => match parseOptionalDuration (sp_TTL s) with
                              | None => Err (ESnapshotTTL (sp_TTL s))
                              | Some ttl => Ok {| sc_MaxPerCapsule := sp_MaxPerCapsule s; sc_TTL := ttl |}
                              end
                  end in
      match snap with
      | Err e => Err e
      | Ok snapshot =>
          Ok {| rc_Env := rt_Env r; rc_Network := from_option network_of (rc_Network no_runtime) (rt_Network r); rc_HealthCheck := health_of <$> rt_HealthCheck r;
                rc_FailurePolicy := from_option policy_of (rc_FailurePolicy no_runtime) (rt_FailurePolicy r);
                rc_LogRetention := from_option retention_of (rc_LogRetention no_runtime) (rt_LogRetention r); rc_StatsInterval := stats;
                rc_Registry := rc_Registry no_runtime; rc_SnapshotConfig := snapshot |}
      end
  end.

Definition momentum_of (m : MomentumCfg) : result CapsuleError MomentumConfig :=
  match parseOptionalDuration (mo_IdleTimeout m) with
  | None => Err (EIdleTimeout (mo_IdleTimeout m))
  | Some idleTimeout =>
      Ok {| mc_Base := int32 (mo_Base m); mc_BoostOnTraffic := mo_BoostOnTraffic m; mc_ReduceOnIdle := mo_ReduceOnIdle m; mc_IdleTimeout := idleTimeout |}
  end.

(** An optional block: its conversion, or the zero value. *)
Definition block {A B} (f : A -> result CapsuleError B) (zero : B) (x : option A) : result CapsuleError B := match x with Some x => f x | None => Ok zero end.

Definition ToCapsuleSpec (c : CapsuleConfig) : result CapsuleError CapsuleSpec :=
  let z := CapsuleTypes.zero_spec in
  match block resources_of (cs_Resources z) (ca_Resources c) with
  | Err e => Err e
  | Ok resources =>
  match block (fun s => scaling_of 0 (sg_Rules s)) [] (ca_Scaling c) with
  | Err e => Err e
  | Ok scaling =>
  match block runtime_of no_runtime (ca_Runtime c) with
  | Err e => Err e
  | Ok runtime =>
  match block momentum_of (cs_MomentumConfig z) (ca_Advanced c ≫= ad_Momentum) with
  | Err e => Err e
  | Ok momentum =>
      Ok {| cs_Name := ca_Name c; cs_Image := ca_Image c; cs_ImageAlias := ca_ImageAlias c; cs_ImageDigest := ca_ImageDigest c; cs_Orbit := ca_Orbit c;
            cs_Tier := ca_Tier c; cs_Labels := ca_Labels c; cs_Resources := resources; cs_Replicas := from_option replicas_of (cs_Replicas z) (ca_Replicas c);
            cs_ScalingRules := scaling; cs_PlacementRules := placement_of <$> ca_Placement c; cs_Runtime := runtime; cs_MomentumConfig := momentum;
            cs_Command := ca_Command c |}
  end end end end.

End Conversion.

(** ** Loading *)

Inductive LoadError :=
  | EReadConfig | EReadSchema | ESchema | EParse | ECue | EMarshal | EDecode
  | ENameRequired | EPort (port : Z) | EPSKShort (path : string) (len : Z) | ECACertRequired (path : string) | EFileMissing (path file : string).

Definition applyDefaults (c : NodeConfig) : NodeConfig :=
  let or d s := if s =s "" then d else s in
  {| nd_Name := nd_Name c; nd_Port := nd_Port c; nd_Listen := nd_Listen c; nd_DataDir := nd_DataDir c; nd_Region := or "default" (nd_Region c);
     nd_Datacenter := or "default" (nd_Datacenter c); nd_LogLevel := or "info" (nd_LogLevel c); nd_Labels := nd_Labels c; nd_Orbits := nd_Orbits c;
     nd_Clusters := nd_Clusters c; nd_Health := nd_Health c; nd_Metrics := nd_Metrics c |}.

Section Loader.
Context `{GoRange}.
(** [os.IsNotExist] of a [Stat]. *)
Variable not_exist : string -> bool.

(** The files of a certificates block, in the order they are looked up. *)
Definition certificate_files (t : CertificatesConfig) : list string := List.filter (fun f => negb (f =s "")) [ct_CAKey t; ct_CACert t; ct_NodeCert t; ct_NodeKey t].
Fixpoint first_missing (files : list string) : option string :=
  match files with [] => None | f :: files => if not_exist f then Some f else first_missing files end.

Definition validate_cluster (path : string) (cluster : ClusterCfg) : option LoadError :=
  if Z.of_nat (String.length (cc_PSK cluster)) <? 32 then Some (EPSKShort path (Z.of_nat (String.length (cc_PSK cluster)))) else
  match cc_Certificates cluster with
  | None => None
  | Some t => if ct_CACert t =s "" then Some (ECACertRequired path) else EFileMissing path <$> first_missing (certificate_files t)
  end.
Fixpoint validate_clusters (cs : list (string * ClusterCfg)) : option LoadError :=
  match cs with [] => None | (path, cluster) :: cs => match validate_cluster path cluster with Some e => Some e | None => validate_clusters cs end end.

Definition validate (c : NodeConfig) : option LoadError :=
  if nd_Name c =s "" then Some ENameRequired
  else if (nd_Port c <? 0) || (65535 <? nd_Port c) then Some (EPort (nd_Port c))
  else validate_clusters (range (nd_Clusters c)).

(** The CUE library, and JSON into the structures of this file. *)
Class CueLib := {
  CueValue : Type; CompileBytes : string -> CueValue; cue_Err : CueValue -> bool; Unify : CueValue -> CueValue -> CueValue;
  concrete : CueValue -> bool; MarshalJSON : CueValue -> option string; decode_config : string -> option NodeConfig
}.
Context `{CueLib}.

(** What [Load] and [LoadFromString] share. *)
Definition load_value (val : CueValue) : result LoadError NodeConfig :=
  if cue_Err val then Err ECue else
  if negb (concrete val) then Err ECue else
  match MarshalJSON val with
  | None => Err EMarshal
  | Some json =>
      match decode_config json with
      | None => Err EDecode
      | Some cfg => let cfg := applyDefaults cfg in match validate cfg with Some e => Err e | None => Ok cfg end
      end
  end.
Definition LoadFromString (cueSource : string) : result LoadError NodeConfig := load_value (CompileBytes cueSource).

Definition Load (ReadFile : string -> option string) (configPath schemaDir : string) : result LoadError NodeConfig :=
  match ReadFile configPath with
  | None => Err EReadConfig
  | Some configData =>
      if schemaDir =s "" then load_value (CompileBytes configData) else
      match ReadFile (FilePath.Join [schemaDir; "falak.cue"]) with
      | None => Err EReadSchema
      | Some schemaData =>
          let schemaVal := CompileBytes schemaData in
          if cue_Err schemaVal then Err ESchema else
          let configVal := CompileBytes configData in
          if cue_Err configVal then Err EParse else load_value (Unify schemaVal configVal)
      end
  end.

End Loader.

(** ** Theorems *)

Section Facts.
Context `{GoConv}.

(** *** Sizes *)

Inductive size_unit := UTera | UGiga | UMega | UNone.
Definition unit_text (u : size_unit) : string := match u with UTera => "TB" | UGiga => "GB" | UMega => "MB" | UNone => "" end.
Definition unit_mb (u : size_unit) : Z := match u with UTera => 1048576 | UGiga => 1024 | _ => 1 end.

Lemma ToUpper_app a b : strings_ToUpper (a +:+ b) = strings_ToUpper a +:+ strings_ToUpper b.
Proof. induction a as [|c a IH]; [done|]. change (String c a +:+ b) with (String c (a +:+ b)). cbn [strings_ToUpper]. by rewrite IH. Qed.

Lemma substring_app a b : String.substring 0 (String.length a) (a +:+ b) = a.
Proof. induction a as [|c a IH]; [by destruct b|]. change (String c a +:+ b) with (String c (a +:+ b)). cbn [String.substring String.length]. by rewrite IH. Qed.

(** Equal strings with suffixes of one length have equal suffixes. *)
Lemma app_suffix_inj a b u v : a +:+ u = b +:+ v -> String.length u = String.length v -> u = v.
Proof.
  revert b. induction a as [|c a IH]; intros [|d b] E Hl; [done| | |].
  - change ("" +:+ u) with u in E. change (String d b +:+ v) with (String d (b +:+ v)) in E. subst u. cbn in Hl. rewrite string_length_app in Hl. lia.
  - change ("" +:+ v) with v in E. change (String c a +:+ u) with (String c (a +:+ u)) in E. subst v. cbn in Hl. rewrite string_length_app in Hl. lia.
  - change (String c a +:+ u) with (String c (a +:+ u)) in E. change (String d b +:+ v) with (String d (b +:+ v)) in E. injection E as _ E. by eapply IH.
Qed.

Lemma digits_upper acc s v : digits acc s = Some v -> strings_ToUpper s = s.
Proof.
  revert acc. induction s as [|c s IH]; intros acc; cbn [digits strings_ToUpper]; [done|]. destruct (digit c) eqn:Ed; [|done]. apply digit_code in Ed as [Hc _]. intros Hs.
  rewrite (IH _ Hs). unfold upper_char. destruct (Z.leb_spec 97 (code c)); [lia|done].
Qed.

Lemma digits_no_unit acc r u : digits acc (r +:+ u) = None \/ exists acc', digits acc' u = digits acc (r +:+ u).
Proof.
  revert acc. induction r as [|c r IH]; intros acc; [by right; exists acc|]. change (String c r +:+ u) with (String c (r +:+ u)). cbn [digits]. destruct (digit c); [apply IH|by left].
Qed.

Lemma numeral_word s v : numeral s v -> word s.
Proof. intros [Hne Hd]. split; [by eapply digits_text|done]. Qed.

Lemma TrimSpace_word w : word w -> strings_TrimSpace w = w.
Proof.
  intros Hw. unfold strings_TrimSpace. assert (Hl : trim_left 0 w = w).
  { destruct Hw as [Ht Hne]. destruct w as [|c w]; [done|]. apply text_cons in Ht as [Ht _]. cbn [trim_left]. by rewrite space_len_word. }
  rewrite Hl. exact (trim_right_text "" w eq_refl Hw).
Qed.

Lemma upper_text s : text 33 (strings_ToUpper s) = true -> text 33 s = true.
Proof.
  assert (Hc : forall c, (33 <=? code (upper_char c)) && (code (upper_char c) <=? 126) = true -> (33 <=? code c) && (code c <=? 126) = true).
  { intros c. by destruct c as [[] [] [] [] [] [] [] []]; vm_compute. }
  induction s as [|c s IH]; [done|]. cbn [strings_ToUpper text]. rewrite !(andb_true_iff _ (text _ _)). intros [H1 H2]. split; [by apply Hc|by apply IH].
Qed.

(** The unit of a numeral followed by letters that spell one. *)
Lemma with_unit_spec num v t u u' : numeral num v -> strings_ToUpper t = unit_text u' -> (u = "TB" \/ u = "GB" \/ u = "MB" \/ u = "KB") ->
  with_unit u (num +:+ t) = if u =s unit_text u' then Some num else None.
Proof.
  intros Hn Ht Hu. destruct Hn as [Hne Hd]. unfold with_unit. rewrite ToUpper_app, Ht, (digits_upper _ _ _ Hd).
  assert (Hlen : String.length t = String.length (unit_text u')).
  { rewrite <- Ht. clear. induction t as [|c t IH]; [done|]. cbn. by rewrite <- IH. }
  destruct (String.eqb_spec u (unit_text u')) as [->|Hne'].
  - rewrite strip_suffix_app, string_length_app, Hlen.
    assert (Hl2 : String.length (unit_text u') = 2%nat) by (destruct u'; cbn in *; [done..|]; naive_solver).
    replace (String.length num + String.length (unit_text u') - 2)%nat with (String.length num) by lia. by rewrite substring_app.
  - destruct (strip_suffix u (num +:+ unit_text u')) as [r|] eqn:E; [|done]. exfalso. apply strip_suffix_sound in E. destruct (decide (unit_text u' = "")) as [E0|E0].
    + rewrite E0, string_app_nil_r in E. subst num. destruct (digits_no_unit 0 r u) as [E|[acc E]]; rewrite Hd in E; [done|]. destruct Hu as [->|[->|[->| ->]]]; cbn in E; done.
    + symmetry in E. apply app_suffix_inj in E; [done|]. destruct u'; cbn in *; naive_solver.
Qed.

(** The product of two integers that stays below [2^53] is exact. *)
Lemma mul_exact a b : 0 <= a -> 0 <= b -> a < 2 ^ 53 -> b < 2 ^ 53 -> a * b < 2 ^ 53 -> f64_to_int64 (f64_of_Z a * f64_of_Z b)%f64 = a * b.
Proof.
  intros Ha Hb Ha' Hb' Hab. assert (Fa : finite (f64_of_Z a)) by (apply finite_of_int64; unfold in_int64, min_int64, max_int64; lia).
  assert (Fb : finite (f64_of_Z b)) by (apply finite_of_int64; unfold in_int64, min_int64, max_int64; lia).
  assert (Fab : finite (f64_of_Z (a * b))) by (apply finite_of_int64; unfold in_int64, min_int64, max_int64; nia).
  assert (Hk : key (f64_of_Z a * f64_of_Z b)%f64 = a * b * 2 ^ scale).
  { rewrite key_mul, !key_of_Z_exact by (done || lia). replace (a * 2 ^ scale * (b * 2 ^ scale)) with (key (f64_of_Z (a * b)) * 2 ^ scale) by (rewrite key_of_Z_exact by nia; ring).
    rewrite key_round_id by (done || apply scale_pos). by rewrite key_of_Z_exact by nia. }
  pose proof scale_pos as Hs. assert (Hfin : finite (f64_of_Z a * f64_of_Z b)%f64).
  { apply (finite_between _ (f64_of_Z 0) (f64_of_Z (a * b))); [by apply f64_mul_spec|by apply finite_of_int64|done|]. rewrite Hk, !key_of_Z_exact by nia. clear -Ha Hb Hs. nia. }
  rewrite f64_to_int64_spec; rewrite ?Hk; [by apply Z.div_mul; lia|done|clear -Ha Hb Hs; nia|]. apply Z.mul_le_mono_nonneg_r; [lia|]. unfold max_int64. lia.
Qed.

(** Sizes mean what they say.  A decimal numeral followed by MB, GB or
    TB in any case of letters, or by nothing, is that many megabytes, with
    1024 of a unit in the next one, as long as the result is below [2^53]. *)
Theorem config_size_exact num v t u (Hn : numeral num v) (Ht : strings_ToUpper t = unit_text u) (Hv : v * unit_mb u < 2 ^ 53) :
  parseSizeToMB (num +:+ t) = Some (v * unit_mb u).
Proof.
  assert (H0 : 0 <= v) by (destruct Hn as [_ Hd]; by apply digits_mono in Hd).
  assert (Hlt : v < 2 ^ 53) by (destruct u; cbn [unit_mb] in Hv; lia). pose proof (numeral_word _ _ Hn) as Hw.
  assert (Htrim : strings_TrimSpace (num +:+ t) = num +:+ t).
  { destruct t as [|c t]; [rewrite string_app_nil_r; by apply TrimSpace_word|]. apply (TrimSpace_text num "" (String c t)); [done|done|]. split; [|done].
    apply upper_text. rewrite Ht. by destruct u. }
  unfold parseSizeToMB. rewrite Htrim. destruct (String.eqb_spec (num +:+ t) "") as [E|_]; [by destruct num; [destruct Hn|]|].
  assert (Hsc : forall k, 0 <= k -> k < 2 ^ 53 -> v * k < 2 ^ 53 -> scaled_size num (fun n => (n * f64_of_Z k)%f64) = Some (v * k)).
  { intros k Hk Hk' Hvk. unfold scaled_size. rewrite TrimSpace_word by done. rewrite (ParseFloat_numeral num v) by (done || unfold max_int64; lia). f_equal. by apply mul_exact. }
  rewrite !(with_unit_spec num v t _ u Hn Ht) by tauto. destruct u; cbn [unit_text unit_mb] in *; cbn -[scaled_size f64_of_Z Z.mul Z.add String.append]; try (apply Hsc; lia).
  destruct t; [|done]. rewrite string_app_nil_r. apply Hsc; lia.
Qed.

(** *** Capsules *)

Definition size_ok (s : string) : Prop := is_Some (parseSizeToMB s).
Definition duration_ok (s : string) : Prop := is_Some (parseOptionalDuration s).

(** The fields whose errors are reported. *)
Record parses (c : CapsuleConfig) : Prop := {
  parses_resources : forall r, ca_Resources c = Some r -> size_ok (rs_Memory r) /\ size_ok (rs_MemoryMax r) /\ size_ok (rs_Disk r);
  parses_scaling : forall s r, ca_Scaling c = Some s -> r ∈ sg_Rules s -> duration_ok (sg_Cooldown r);
  parses_runtime : forall r, ca_Runtime c = Some r -> duration_ok (rt_StatsInterval r) /\ forall s, rt_Snapshot r = Some s -> duration_ok (sp_TTL s);
  parses_momentum : forall m, ca_Advanced c ≫= ad_Momentum = Some m -> duration_ok (mo_IdleTimeout m)
}.

Lemma sized_ok s e : (exists n, sized s e = Ok n) <-> size_ok s.
Proof. unfold sized, size_ok. destruct (parseSizeToMB s); split; [by eexists..| |]; [by intros []|by intros []]. Qed.

Lemma resources_of_ok r : (exists x, resources_of r = Ok x) <-> size_ok (rs_Memory r) /\ size_ok (rs_MemoryMax r) /\ size_ok (rs_Disk r).
Proof.
  rewrite <- (sized_ok _ EMemory), <- (sized_ok _ EMemoryMax), <- (sized_ok _ EDisk). unfold resources_of.
  destruct (sized (rs_Memory r) EMemory); [|split; [by intros []|by intros ([] & _)]]. destruct (sized (rs_MemoryMax r) EMemoryMax); [|split; [by intros []|by intros (_ & [] & _)]].
  destruct (sized (rs_Disk r) EDisk); [|split; [by intros []|by intros (_ & _ & [])]]. split; [intros _; split_and!; by eexists|by eexists].
Qed.

Lemma scaling_of_ok i rules : (exists x, scaling_of i rules = Ok x) <-> Forall (fun r => duration_ok (sg_Cooldown r)) rules.
Proof.
  revert i. induction rules as [|r rules IH]; intros i; cbn [scaling_of]; [split; [by constructor|by eexists]|]. rewrite list.Forall_cons, <- (IH (S i)). unfold duration_ok.
  destruct (parseOptionalDuration (sg_Cooldown r)); [|split; [by intros []|by intros [[] _]]].
  destruct (scaling_of (S i) rules) as [rest|e]; split; [by split; eexists|by eexists|by intros []|by intros [_ []]].
Qed.

Lemma runtime_of_ok r : (exists x, runtime_of r = Ok x) <-> duration_ok (rt_StatsInterval r) /\ forall s, rt_Snapshot r = Some s -> duration_ok (sp_TTL s).
Proof.
  unfold runtime_of, duration_ok. destruct (parseOptionalDuration (rt_StatsInterval r)); [|split; [by intros []|by intros [[] _]]].
  destruct (rt_Snapshot r) as [s|]; [|split; [by split; [eexists|]|by eexists]].
  destruct (parseOptionalDuration (sp_TTL s)) as [ttl|] eqn:E; split; [|by eexists|by intros []|].
  - intros _. split; [by eexists|]. intros s' [= <-]. rewrite E. by eexists.
  - intros [_ Hs]. destruct (Hs s eq_refl) as [x Ex]. congruence.
Qed.

Lemma momentum_of_ok m : (exists x, momentum_of m = Ok x) <-> duration_ok (mo_IdleTimeout m).
Proof. unfold momentum_of, duration_ok. destruct (parseOptionalDuration (mo_IdleTimeout m)); split; [by eexists..|by intros []|by intros []]. Qed.

Lemma block_ok {X Y} (f : X -> result CapsuleError Y) z x : (exists y, block f z x = Ok y) <-> forall a, x = Some a -> exists y, f a = Ok y.
Proof. unfold block. destruct x as [a|]; [|split; [done|by eexists]]. split; [by intros Hy b [= <-]|intros Hy; by apply Hy]. Qed.

(** A field of a smaller integer type keeps what it can hold. *)
Definition kept32 (x y : Z) : Prop := in_int32 x -> y = x.

(** A declared capsule is converted when its sizes and reported
    durations parse, and only then; the specification has the declared names,
    sizes and rules, a rule is required unless it says otherwise, and integers
    are kept when they fit their type.  The credentials of a private registry
    never get into it. *)
Theorem config_capsule_exact c :
  (parses c <-> exists spec, ToCapsuleSpec c = Ok spec) /\
  forall spec, ToCapsuleSpec c = Ok spec ->
    cs_Name spec = ca_Name c /\ cs_Image spec = ca_Image c /\ cs_Orbit spec = ca_Orbit c /\ cs_Labels spec = ca_Labels c /\
    (forall r, ca_Resources c = Some r -> kept32 (rs_CPU r) (CPUCores (cs_Resources spec)) /\ parseSizeToMB (rs_Memory r) = Some (MemoryMB (cs_Resources spec)) /\
       parseSizeToMB (rs_Disk r) = Some (DiskMB (cs_Resources spec))) /\
    (forall r, ca_Replicas c = Some r -> kept32 (rp_Min r) (Min (cs_Replicas spec)) /\ kept32 (rp_Max r) (Max (cs_Replicas spec)) /\ kept32 (rp_Exact r) (Exact (cs_Replicas spec))) /\
    (pr_Required <$> cs_PlacementRules spec = (fun p => default true (pl_Required p)) <$> ca_Placement c) /\
    rc_Registry (cs_Runtime spec) = None.
Proof.
  assert (Hok : parses c <-> (exists x, block resources_of (cs_Resources CapsuleTypes.zero_spec) (ca_Resources c) = Ok x) /\
    (exists x, block (fun s => scaling_of 0 (sg_Rules s)) [] (ca_Scaling c) = Ok x) /\ (exists x, block runtime_of no_runtime (ca_Runtime c) = Ok x) /\
    (exists x, block momentum_of (cs_MomentumConfig CapsuleTypes.zero_spec) (ca_Advanced c ≫= ad_Momentum) = Ok x)).
  { rewrite !block_ok. setoid_rewrite resources_of_ok. setoid_rewrite scaling_of_ok. setoid_rewrite runtime_of_ok. setoid_rewrite momentum_of_ok.
    setoid_rewrite list.Forall_forall. split; [intros [H1 H2 H3 H4]; split_and!; [done| |done|done]; intros s Hs r Hr; by apply (H2 s r)|].
    intros (H1 & H2 & H3 & H4). split; [done| |done|done]. intros s r Hs Hr. by apply (H2 s Hs). }
  rewrite Hok. clear Hok. unfold ToCapsuleSpec. destruct (block resources_of _ _) as [res|e] eqn:Er; [|split; [split; [by intros ([] & _)|by intros []]|done]].
  destruct (block _ [] _) as [sc|e]; [|split; [split; [by intros (_ & [] & _)|by intros []]|done]].
  destruct (block runtime_of _ _) as [rt|e] eqn:Et; [|split; [split; [by intros (_ & _ & [] & _)|by intros []]|done]].
  destruct (block momentum_of _ _) as [mo|e]; [|split; [split; [by intros (_ & _ & _ & [])|by intros []]|done]].
  split; [split; [by eexists|intros _; split_and!; by eexists]|]. intros spec [= <-]. cbn. split_and!; try done.
  - intros r Hr. rewrite Hr in Er. cbn [block] in Er. unfold resources_of, sized in Er. destruct (parseSizeToMB (rs_Memory r)); [|done]. destruct (parseSizeToMB (rs_MemoryMax r)); [|done].
    destruct (parseSizeToMB (rs_Disk r)); [|done]. injection Er as <-. cbn. split_and!; try done. intros Hi. by apply int32_id.
  - intros r Hr. rewrite Hr. cbn. split_and!; intros Hi; by apply int32_id.
  - by rewrite <- list_fmap_compose.
  - unfold block in Et. destruct (ca_Runtime c) as [r|]; [|by injection Et as <-]. unfold runtime_of in Et. destruct (parseOptionalDuration (rt_StatsInterval r)); [|done].
    destruct (match rt_Snapshot r with Some _ => _ | None => _ end); [|done]. by injection Et as <-.
Qed.

End Facts.

Section Loaded.
Context `{R : GoRange} `{C : CueLib}.
Variable not_exist : string -> bool.

(** A cluster that can be joined: a key that is long enough, and the files of
    its certificates are there. *)
Definition cluster_ok (cl : ClusterCfg) : Prop :=
  32 <= Z.of_nat (String.length (cc_PSK cl)) /\
  forall t, cc_Certificates cl = Some t -> ct_CACert t <> "" /\ forall f, f ∈ [ct_CAKey t; ct_CACert t; ct_NodeCert t; ct_NodeKey t] -> f <> "" -> not_exist f = false.

Lemma first_missing_spec files : first_missing not_exist files = None <-> forall f, f ∈ files -> not_exist f = false.
Proof.
  induction files as [|f files IH]; cbn [first_missing]; [split; [intros _ g Hg; by apply elem_of_nil in Hg|done]|].
  destruct (not_exist f) eqn:E; [split; [done|]|].
  - intros Hf. rewrite (Hf f) in E by left. done.
  - rewrite IH. split; [intros Hf g Hg; apply elem_of_cons in Hg as [->|]; [done|by apply Hf]|]. intros Hf g Hg. apply Hf. by right.
Qed.

Lemma validate_cluster_spec path cl : validate_cluster not_exist path cl = None <-> cluster_ok cl.
Proof.
  unfold validate_cluster, cluster_ok. destruct (Z.ltb_spec (Z.of_nat (String.length (cc_PSK cl))) 32); [split; [done|intros [? _]; lia]|].
  destruct (cc_Certificates cl) as [t|]; [|by split]. destruct (String.eqb_spec (ct_CACert t) "") as [E|E]; [split; [done|intros [_ Ht]; by destruct (Ht t eq_refl)]|].
  assert (Hm : EFileMissing path <$> first_missing not_exist (certificate_files t) = None <-> first_missing not_exist (certificate_files t) = None) by (by destruct (first_missing _ _)).
  rewrite Hm, first_missing_spec. unfold certificate_files. setoid_rewrite list_elem_of_In. setoid_rewrite filter_In. setoid_rewrite <- list_elem_of_In. split.
  - intros Hf. split; [done|]. intros t' [= <-]. split; [done|]. intros f Hin Hne. apply Hf. split; [done|]. by rewrite (proj2 (String.eqb_neq _ _) Hne).
  - intros [_ Ht] f [Hin Hne]. destruct (Ht t eq_refl) as [_ Hf]. apply Hf; [done|]. intros ->. done.
Qed.

Lemma validate_clusters_spec cs : validate_clusters not_exist cs = None <-> Forall (fun pc => cluster_ok pc.2) cs.
Proof.
  induction cs as [|[p cl] cs IH]; cbn [validate_clusters]; [split; [by constructor|done]|]. rewrite list.Forall_cons, <- IH. cbn [snd]. rewrite <- (validate_cluster_spec p cl).
  destruct (validate_cluster not_exist p cl); [split; [done|by intros []]|]. split; [done|by intros []].
Qed.

(** C34: a configuration is loaded exactly when it is usable.  What the
    common part of [Load] and [LoadFromString] accepts of a decoded
    configuration does not depend on the order in which the clusters are
    visited: a name, a port that exists,
    and for every cluster a key of at least 32 bytes and certificate files
    that are there; region, datacenter and log level are then never empty. *)
Theorem config_load_exact val json cfg0 (Herr : cue_Err val = false) (Hc : concrete val = true) (Hj : MarshalJSON val = Some json) (Hd : decode_config json = Some cfg0) :
  ((exists cfg, load_value not_exist val = Ok cfg) <-> nd_Name cfg0 <> "" /\ 0 <= nd_Port cfg0 <= 65535 /\ forall path cl, nd_Clusters cfg0 !! path = Some cl -> cluster_ok cl) /\
  forall cfg, load_value not_exist val = Ok cfg -> cfg = applyDefaults cfg0 /\ nd_Region cfg <> "" /\ nd_Datacenter cfg <> "" /\ nd_LogLevel cfg <> "".
Proof.
  unfold load_value. rewrite Herr, Hc, Hj, Hd. cbn [negb].
  assert (Hv : validate not_exist (applyDefaults cfg0) = None <->
    nd_Name cfg0 <> "" /\ 0 <= nd_Port cfg0 <= 65535 /\ forall path cl, nd_Clusters cfg0 !! path = Some cl -> cluster_ok cl).
  { unfold validate. cbn [applyDefaults nd_Name nd_Port nd_Clusters]. destruct (String.eqb_spec (nd_Name cfg0) ""); [split; [done|by intros []]|].
    destruct (Z.ltb_spec (nd_Port cfg0) 0); [split; [done|intros (_ & ? & _); lia]|]. destruct (Z.ltb_spec 65535 (nd_Port cfg0)); [split; [done|intros (_ & ? & _); lia]|]. cbn [orb].
    rewrite validate_clusters_spec, (range_perm _ (nd_Clusters cfg0)), list.Forall_forall. split.
    - intros Hf. split_and!; [done|lia|lia|]. intros path cl Hl. apply (Hf (path, cl)). by apply elem_of_map_to_list.
    - intros (_ & _ & Hf) [path cl] Hin. apply elem_of_map_to_list in Hin. by apply (Hf path). }
  rewrite <- Hv. destruct (validate not_exist (applyDefaults cfg0)); split; [by split; [intros []|]|done|by split; [|eexists]|].
  intros cfg [= <-]. split; [done|]. cbn [applyDefaults nd_Region nd_Datacenter nd_LogLevel].
  split_and!; match goal with |- context [?x =s ""] => by destruct (String.eqb_spec x "") end.
Qed.

End Loaded.

(** ** Witnesses *)

Module ConfigDemo.

Lemma config_size_exact_witness : parseSizeToMB ("2" +:+ "gb") = Some 2048.
Proof. apply (config_size_exact "2" 2 "gb" UGiga); [by split|done|done]. Defined.

Definition demo_cluster : ClusterCfg :=
  {| cc_PSK := "0123456789abcdef0123456789abcdef"; cc_Bootstrap := []; cc_Certificates := None; cc_Capsules := ∅; cc_Election := None |}.
Definition demo_config : NodeConfig :=
  {| nd_Name := "a"; nd_Port := 4001; nd_Listen := ""; nd_DataDir := ""; nd_Region := ""; nd_Datacenter := "dc1"; nd_LogLevel := ""; nd_Labels := None;
     nd_Orbits := []; nd_Clusters := {["r/d/c" := demo_cluster]}; nd_Health := None; nd_Metrics := None |}.
(** A library for which the source is already JSON. *)
Definition demo_lib : CueLib :=
  {| CueValue := string; CompileBytes := fun s => s; cue_Err := fun _ => false; Unify := fun a b => b; concrete := fun _ => true; MarshalJSON := fun v => Some v;
     decode_config := fun j => if j =s "node a" then Some demo_config else None |}.

Lemma config_load_exact_witness : (exists cfg, LoadFromString (H0 := demo_lib) (fun _ => true) "node a" = Ok cfg) /\
  (forall cfg, LoadFromString (H0 := demo_lib) (fun _ => true) "node a" = Ok cfg -> nd_Region cfg <> "").
Proof.
  destruct (config_load_exact (C := demo_lib) (fun _ => true) "node a" "node a" demo_config) as [H1 H2]; [reflexivity..|]. split; [|intros cfg Hc; by destruct (H2 cfg Hc) as (_ & ? & _)].
  apply H1. split; [done|]. split; [done|]. intros path cl Hl. cbn [demo_config nd_Clusters] in Hl. apply lookup_singleton_Some in Hl as [_ <-]. split; [by vm_compute|done].
Defined.

End ConfigDemo.
