(* ===== verification/Node.v ===== *)
(** * The node ([node/node.go], [shared/keys.go])

    The life of a node: its options and identity, the start of its components
    in order, shutdown, joining and leaving clusters.  What the components and
    the machine do is the interface [Machine], over any state [W]; the
    election manager, whose overrides the node sets, is the one of
    [ElectionManager.v].  Operations run one after the other. *)

From S2P Require Import Prelude RuntimeHandler ElectionTopic FilePath Float64 CapsuleTypes CapsuleSpec Gravity Elector Delay RuntimeNode.
From S2P Require Import Auth Handshake ElectionManager.
Import secrets.
Local Open Scope string_scope.
Local Open Scope list_scope.
Local Open Scope Z_scope.

(** ** States, components, configuration *)

Definition nodeStateInitializing : string := "initializing".
Definition nodeStateStarting : string := "starting".
Definition nodeStateRunning : string := "running".
Definition nodeStateDraining : string := "draining".
Definition nodeStateShuttingDown : string := "shutting_down".
Definition nodeStateStopped : string := "stopped".

Definition DefaultStartupTimeout : Duration := 30 * second.
Definition DefaultConnectionTimeout : Duration := 10 * second.
Definition DefaultShutdownTimeout : Duration := 10 * second.
Definition DefaultListenAddr : string := "/ip4/0.0.0.0/tcp/0".
Definition DefaultKeyFileName : string := "node.key".

(** The fields of [Node] that hold a component. *)
Inductive Component :=
  | CHost | CPubSub | CEventBus | CPhonebook | CPhonebookSubscriber | CAuthenticator | CSyncer | CPing | CReauth | CMetrics | CCapsules | CElection
  | CElectionHandler | CSnapshots | CRuntime.
#[export] Instance Component_eq : EqDecision Component.
Proof. solve_decision. Defined.

(** [certs.ClusterCertConfig] *)
Record ClusterCertConfig := { cf_CACertPath : string; cf_CAKeyPath : string; cf_NodeCertPath : string; cf_NodeKeyPath : string }.
Record ClusterElectionConfig := { ce_Algorithm : string; ce_Timeout : Duration; ce_Weights : option Weights }.
Record ClusterConfig := {
  cl_Path : string; cl_PSK : bytes; cl_BootstrapPeers : list string; cl_Certificates : option ClusterCertConfig; cl_Orbits : list string;
  cl_Capsules : list CapsuleSpec; cl_Election : option ClusterElectionConfig
}.

(** What the loop of [Join] receives: the channels of the two events, and the
    caller's context. *)
Inductive Arrival := AJoined (clusterPath : string) | AFailed (clusterPath reason : string) | ADone.

Record Platform := { pl_GOOS : string; pl_home : option string; pl_APPDATA : string; pl_Join : list string -> string }.

(** The machine and the components.  A component is created and started with
    the node's context, which may be cancelled already.  A request to join
    gives the events that arrive afterwards, and the bytes that are by then in
    the slice of the pre-shared key, which the authenticator shares. *)
Class Machine (W : Type) := {
  PrivKey : Type;
  platform : Platform;
  NewMultiaddr : string -> bool;
  IDFromPrivateKey : PrivKey -> option string;
  MarshalPrivateKey : PrivKey -> option bytes;
  UnmarshalPrivateKey : bytes -> option PrivKey;
  GenerateKeyPair : W -> option PrivKey * W;
  os_ReadFile : string -> W -> result bool bytes * W;        (** the error: whether the file does not exist *)
  os_MkdirAll : string -> W -> bool * W;
  os_WriteFile : string -> bytes -> W -> bool * W;
  mc_start : Component -> bool -> W -> bool * W;
  mc_stop : Component -> W -> W;
  mc_Departing : string -> W -> W;
  mc_RegisterCertConfig : string -> ClusterCertConfig -> W -> W;
  mc_JoinRequested : ClusterJoinRequested -> W -> (list Arrival * bytes) * W;
  mc_StartMonitor : string -> bool -> W -> bool * W;
  mc_StopMonitor : string -> W -> W;
  mc_MetricsJoin : string -> W -> bool * W;
  mc_MetricsLeave : string -> W -> W;
  mc_OpenElectionTopic : string -> W -> result string unit * W;
  mc_JoinOrbit : string -> string -> W -> bool * W;
  mc_CreateCapsule : string -> CapsuleSpec -> W -> bool * W;
  mc_CapsulesLeave : string -> W -> W;
  mc_AuthLeave : string -> W -> W;
  time_Now : W -> Z * W;
  mc_CapsuleStore : CapsuleID -> option Capsule;
  mc_StateProvider : StateProvider;
  mc_CapsuleLookup : CapsuleTargetLookup;
  mc_DelayStrategy : Strategy
}.

Section Node.
Context {W : Type} `{M : Machine W} `{A : Aead} `{R : GoRange}.

Record Settings := {
  op_name : string; op_region : string; op_datacenter : string; op_listenAddrs : list string; op_dataDir : string; op_startupTimeout : Duration;
  op_connectionTimeout : Duration; op_shutdownTimeout : Duration; op_runtime : bool; op_rejectAllAuth : bool
}.

(** What the runtime handler was wired to when it was created. *)
Record RuntimeWiring := { rw_sek : option bytes; rw_snapshots : bool; rw_puller : bool }.

Record Node := {
  n_set : Settings; n_state : string; n_privateKey : option PrivKey; n_id : string; n_built : list Component; n_electionManager : option Manager;
  n_runtimeHandler : option RuntimeWiring; n_snapshotDiscovery : bool; n_secretsKey : option bytes; n_joinedClusters : gmap string Z;
  n_healthMonitors : gmap string unit; n_cancelled : bool
}.

Definition set_settings (s : Settings) (n : Node) : Node :=
  {| n_set := s; n_state := n_state n; n_privateKey := n_privateKey n; n_id := n_id n; n_built := n_built n; n_electionManager := n_electionManager n;
     n_runtimeHandler := n_runtimeHandler n; n_snapshotDiscovery := n_snapshotDiscovery n; n_secretsKey := n_secretsKey n; n_joinedClusters := n_joinedClusters n;
     n_healthMonitors := n_healthMonitors n; n_cancelled := n_cancelled n |}.
Definition setState (state : string) (n : Node) : Node :=
  {| n_set := n_set n; n_state := state; n_privateKey := n_privateKey n; n_id := n_id n; n_built := n_built n; n_electionManager := n_electionManager n;
     n_runtimeHandler := n_runtimeHandler n; n_snapshotDiscovery := n_snapshotDiscovery n; n_secretsKey := n_secretsKey n; n_joinedClusters := n_joinedClusters n;
     n_healthMonitors := n_healthMonitors n; n_cancelled := n_cancelled n |}.
Definition set_identity (key : option PrivKey) (id : string) (n : Node) : Node :=
  {| n_set := n_set n; n_state := n_state n; n_privateKey := key; n_id := id; n_built := n_built n; n_electionManager := n_electionManager n;
     n_runtimeHandler := n_runtimeHandler n; n_snapshotDiscovery := n_snapshotDiscovery n; n_secretsKey := n_secretsKey n; n_joinedClusters := n_joinedClusters n;
     n_healthMonitors := n_healthMonitors n; n_cancelled := n_cancelled n |}.
Definition assign (c : Component) (n : Node) : Node :=
  {| n_set := n_set n; n_state := n_state n; n_privateKey := n_privateKey n; n_id := n_id n; n_built := c :: n_built n; n_electionManager := n_electionManager n;
     n_runtimeHandler := n_runtimeHandler n; n_snapshotDiscovery := n_snapshotDiscovery n; n_secretsKey := n_secretsKey n; n_joinedClusters := n_joinedClusters n;
     n_healthMonitors := n_healthMonitors n; n_cancelled := n_cancelled n |}.
Definition set_election (m : option Manager) (n : Node) : Node :=
  {| n_set := n_set n; n_state := n_state n; n_privateKey := n_privateKey n; n_id := n_id n; n_built := n_built n; n_electionManager := m;
     n_runtimeHandler := n_runtimeHandler n; n_snapshotDiscovery := n_snapshotDiscovery n; n_secretsKey := n_secretsKey n; n_joinedClusters := n_joinedClusters n;
     n_healthMonitors := n_healthMonitors n; n_cancelled := n_cancelled n |}.
Definition set_runtime (w : RuntimeWiring) (n : Node) : Node :=
  {| n_set := n_set n; n_state := n_state n; n_privateKey := n_privateKey n; n_id := n_id n; n_built := n_built n; n_electionManager := n_electionManager n;
     n_runtimeHandler := Some w; n_snapshotDiscovery := n_snapshotDiscovery n; n_secretsKey := n_secretsKey n; n_joinedClusters := n_joinedClusters n;
     n_healthMonitors := n_healthMonitors n; n_cancelled := n_cancelled n |}.
Definition set_secrets (k : option bytes) (n : Node) : Node :=
  {| n_set := n_set n; n_state := n_state n; n_privateKey := n_privateKey n; n_id := n_id n; n_built := n_built n; n_electionManager := n_electionManager n;
     n_runtimeHandler := n_runtimeHandler n; n_snapshotDiscovery := n_snapshotDiscovery n; n_secretsKey := k; n_joinedClusters := n_joinedClusters n;
     n_healthMonitors := n_healthMonitors n; n_cancelled := n_cancelled n |}.
Definition set_clusters (joined : gmap string Z) (monitors : gmap string unit) (n : Node) : Node :=
  {| n_set := n_set n; n_state := n_state n; n_privateKey := n_privateKey n; n_id := n_id n; n_built := n_built n; n_electionManager := n_electionManager n;
     n_runtimeHandler := n_runtimeHandler n; n_snapshotDiscovery := n_snapshotDiscovery n; n_secretsKey := n_secretsKey n; n_joinedClusters := joined;
     n_healthMonitors := monitors; n_cancelled := n_cancelled n |}.
Definition cancel (n : Node) : Node :=
  {| n_set := n_set n; n_state := n_state n; n_privateKey := n_privateKey n; n_id := n_id n; n_built := n_built n; n_electionManager := n_electionManager n;
     n_runtimeHandler := n_runtimeHandler n; n_snapshotDiscovery := n_snapshotDiscovery n; n_secretsKey := n_secretsKey n; n_joinedClusters := n_joinedClusters n;
     n_healthMonitors := n_healthMonitors n; n_cancelled := true |}.

(** ** Options and construction *)

Inductive Option :=
  | WithName (name : string) | WithRegion (region : string) | WithDatacenter (datacenter : string) | WithRuntime (present : bool)
  | WithListenAddrs (addrs : list string) | WithPrivateKey (key : option PrivKey) | WithDataDir (dir : string) | WithStartupTimeout (d : Duration)
  | WithConnectionTimeout (d : Duration) | WithShutdownTimeout (d : Duration) | WithRejectAllAuth (reject : bool).

Definition apply_option (n : Node) (o : Option) : Node :=
  let s := n_set n in
  let upd name region dc addrs dir st ct sh rt rej :=
    set_settings {| op_name := name; op_region := region; op_datacenter := dc; op_listenAddrs := addrs; op_dataDir := dir; op_startupTimeout := st;
                    op_connectionTimeout := ct; op_shutdownTimeout := sh; op_runtime := rt; op_rejectAllAuth := rej |} n in
  let '(nm, re, dc, ad, di) := (op_name s, op_region s, op_datacenter s, op_listenAddrs s, op_dataDir s) in
  let '(st, ct, sh, rt, rj) := (op_startupTimeout s, op_connectionTimeout s, op_shutdownTimeout s, op_runtime s, op_rejectAllAuth s) in
  match o with
  | WithName x => upd x re dc ad di st ct sh rt rj
  | WithRegion x => upd nm x dc ad di st ct sh rt rj
  | WithDatacenter x => upd nm re x ad di st ct sh rt rj
  | WithListenAddrs x => upd nm re dc x di st ct sh rt rj
  | WithDataDir x => upd nm re dc ad x st ct sh rt rj
  | WithStartupTimeout x => upd nm re dc ad di x ct sh rt rj
  | WithConnectionTimeout x => upd nm re dc ad di st x sh rt rj
  | WithShutdownTimeout x => upd nm re dc ad di st ct x rt rj
  | WithRuntime x => upd nm re dc ad di st ct sh x rj
  | WithRejectAllAuth x => upd nm re dc ad di st ct sh rt x
  | WithPrivateKey k => set_identity k (n_id n) n
  end.

Definition New (opts : list Option) : Node :=
  fold_left apply_option opts
    {| n_set := {| op_name := ""; op_region := ""; op_datacenter := ""; op_listenAddrs := [DefaultListenAddr]; op_dataDir := "";
                   op_startupTimeout := DefaultStartupTimeout; op_connectionTimeout := DefaultConnectionTimeout;
                   op_shutdownTimeout := DefaultShutdownTimeout; op_runtime := false; op_rejectAllAuth := false |};
       n_state := nodeStateStopped; n_privateKey := None; n_id := ""; n_built := []; n_electionManager := None; n_runtimeHandler := None;
       n_snapshotDiscovery := false; n_secretsKey := None; n_joinedClusters := ∅; n_healthMonitors := ∅; n_cancelled := false |}.

Definition defaultDataDir (n : Node) : string :=
  let p := platform in
  let home := default "." (pl_home p) in
  let baseDir :=
    if pl_GOOS p =s "darwin" then pl_Join p [home; "Library"; "Application Support"; "falak"]
    else if pl_GOOS p =s "windows" then pl_Join p [if pl_APPDATA p =s "" then "." else pl_APPDATA p; "falak"]
    else pl_Join p [home; ".local"; "share"; "falak"] in
  pl_Join p [baseDir; if op_name (n_set n) =s "" then "default" else op_name (n_set n)].

Definition DataDir (n : Node) : string := if op_dataDir (n_set n) =s "" then defaultDataDir n else op_dataDir (n_set n).

Definition JoinedClusters (n : Node) : list string := (range (n_joinedClusters n)).*1.
Definition IsDraining (n : Node) : bool := n_state n =s nodeStateDraining.

(** ** Keys *)

(** [filepath.Dir] *)
Fixpoint dir_prefix (p : string) : string :=
  match p with
  | EmptyString => ""
  | String c p' => let d := dir_prefix p' in if (d =s "") && negb (Ascii.eqb c "/") then "" else String c d
  end.
Definition Dir (p : string) : string := Clean (dir_prefix p).

Inductive KeyError := KNotExist | KRead | KUnmarshal | KGenerate | KMarshal | KMkdir | KWrite.

Definition LoadKey (keyPath : string) : ST W (result KeyError PrivKey) := fun w =>
  match os_ReadFile keyPath w with
  | (Err true, w) => (Err KNotExist, w)
  | (Err false, w) => (Err KRead, w)
  | (Ok data, w) => match UnmarshalPrivateKey data with None => (Err KUnmarshal, w) | Some key => (Ok key, w) end
  end.

Definition SaveKey (key : PrivKey) (keyPath : string) : ST W (result KeyError unit) := fun w =>
  match MarshalPrivateKey key with
  | None => (Err KMarshal, w)
  | Some data =>
      let '(ok, w) := os_MkdirAll (Dir keyPath) w in
      if negb ok then (Err KMkdir, w) else
      let '(ok, w) := os_WriteFile keyPath data w in
      if negb ok then (Err KWrite, w) else (Ok tt, w)
  end.

Definition generate_and_save (keyPath : string) : ST W (result KeyError (PrivKey * bool)) := fun w =>
  match GenerateKeyPair w with
  | (None, w) => (Err KGenerate, w)
  | (Some priv, w) =>
      if keyPath =s "" then (Ok (priv, true), w) else
      match SaveKey priv keyPath w with (Err e, w) => (Err e, w) | (Ok _, w) => (Ok (priv, true), w) end
  end.
Definition LoadOrGenerateKey (keyPath : string) : ST W (result KeyError (PrivKey * bool)) := fun w =>
  if keyPath =s "" then generate_and_save keyPath w else
  match LoadKey keyPath w with
  | (Ok key, w) => (Ok (key, false), w)
  | (Err KNotExist, w) => generate_and_save keyPath w
  | (Err e, w) => (Err e, w)
  end.

(** ** Start *)

Definition NW : Type := (Node * W)%type.

Definition built (c : Component) (n : Node) : bool := bool_decide (c ∈ n_built n).

Inductive NodeError :=
  | ENotStopped (state : string) | EIdentity | EHost | EComponent (c : Component) | ENotRunning | ECannotDrain (state : string) | EContext
  | EJoinFailed (reason : string) | ENotMember (clusterPath : string)
  | EWaiting.                                                  (** no error: the call has not returned *)

(** A call on the machine, and on the node. *)
Definition on_machine {X} (f : ST W X) : ST NW X := fun nw => let '(x, w) := f nw.2 in (x, (nw.1, w)).
Definition on_node (f : Node -> Node) : ST NW unit := fun nw => (tt, (f nw.1, nw.2)).

(** A component is created with the node's context. *)
Definition start_component (c : Component) : ST NW bool := fun nw => on_machine (mc_start c (n_cancelled nw.1)) nw.

Definition initializeIdentity : ST NW bool := fun nw =>
  let '(n, w) := nw in
  let '(key, w) :=
    match n_privateKey n with
    | Some key => (Some key, w)
    | None =>
        let '(ok, w) := os_MkdirAll (DataDir n) w in
        if negb ok then (None, w) else
        match LoadOrGenerateKey (pl_Join platform [DataDir n; DefaultKeyFileName]) w with
        | (Err _, w) => (None, w)
        | (Ok (priv, _), w) => (Some priv, w)
        end
    end in
  match key with
  | None => (false, (n, w))
  | Some key => match IDFromPrivateKey key with None => (false, (set_identity (Some key) (n_id n) n, w)) | Some id => (true, (set_identity (Some key) id n, w)) end
  end.

Definition initializeHost : ST NW bool := fun nw =>
  if negb (forallb NewMultiaddr (op_listenAddrs (n_set nw.1))) then (false, nw) else
  let '(ok, nw) := start_component CHost nw in
  if ok then (true, (assign CHost nw.1, nw.2)) else (false, nw).

(** A field that is assigned when the component was created and started. *)
Definition initialize (c : Component) : ST NW bool := fun nw =>
  let '(ok, nw) := start_component c nw in if ok then (true, (assign c nw.1, nw.2)) else (false, nw).
(** A field that is assigned before the component is started. *)
Definition assign_and_start (c : Component) : ST NW bool := fun nw => start_component c (assign c nw.1, nw.2).
(** A component kept in the data directory. *)
Definition initialize_stored (dir : Node -> string) (c : Component) : ST NW bool := fun nw =>
  let '(ok, nw) := on_machine (os_MkdirAll (dir nw.1)) nw in if negb ok then (false, nw) else initialize c nw.

Definition initializePubSub : ST NW bool := initialize CPubSub.
Definition initializePhonebook : ST NW bool := initialize_stored DataDir CPhonebook.
Definition initializeMetricsManager : ST NW bool := initialize_stored DataDir CMetrics.
Definition initializeCapsuleHandler : ST NW bool := initialize_stored DataDir CCapsules.
Definition initializeSnapshotStore : ST NW bool := initialize_stored (fun n => pl_Join platform [DataDir n; "snapshots"]) CSnapshots.

Definition initializeElectionManager : ST NW bool := fun nw =>
  if negb (built CCapsules nw.1) || negb (built CMetrics nw.1) then (false, nw) else
  let calc := NewCalculator None (Some mc_CapsuleLookup) None in
  let mgr := ElectionManager.Start (NewManager (Some mc_DelayStrategy) (Some mc_CapsuleStore) true (n_id nw.1) (Some calc) (Some mc_StateProvider) true) in
  let '(_, nw) := start_component CElection nw in
  let nw := (assign CElection (set_election (Some mgr) nw.1), nw.2) in
  let '(_, nw) := start_component CElectionHandler nw in
  (true, (assign CElectionHandler nw.1, nw.2)).

Definition initializeRuntimeHandler : ST NW unit := fun nw =>
  let n := nw.1 in
  let wiring := {| rw_sek := n_secretsKey n; rw_snapshots := built CSnapshots n; rw_puller := built CSnapshots n && n_snapshotDiscovery n |} in
  let '(_, nw) := start_component CRuntime nw in (tt, (assign CRuntime (set_runtime wiring nw.1), nw.2)).

(** *** Shutdown *)

Definition stop_component (c : Component) : ST NW unit := fun nw => if built c nw.1 then (tt, (nw.1, mc_stop c nw.2)) else (tt, nw).
Definition stop_all (cs : list Component) (nw : NW) : NW := fold_left (fun nw c => snd (stop_component c nw)) cs nw.

Definition stop_monitors (nw : NW) : NW := (nw.1, fold_left (fun w m => mc_StopMonitor (fst m) w) (range (n_healthMonitors nw.1)) nw.2).

Definition cleanup (nw : NW) : NW :=
  let nw := stop_all [CRuntime; CElectionHandler; CElection] nw in
  let nw := (set_election (ElectionManager.Stop <$> n_electionManager nw.1) nw.1, nw.2) in
  let nw := stop_all [CCapsules; CMetrics] nw in
  let nw := stop_monitors nw in
  stop_all [CPing; CReauth; CSyncer; CAuthenticator; CPhonebookSubscriber; CSnapshots; CPhonebook; CEventBus; CHost] nw.

(** *** The sequence *)

(** What [Start] does when a step fails. *)
Inductive on_failure := FailStopped | FailCleanup.
Definition failed (f : on_failure) (nw : NW) : NW := match f with FailStopped => (setState nodeStateStopped nw.1, nw.2) | FailCleanup => cleanup nw end.

Definition infallible (c : Component) : ST NW bool := fun nw => let '(_, nw) := assign_and_start c nw in (true, nw).

Definition start_steps : list (ST NW bool * on_failure * NodeError) :=
  [(initializeIdentity, FailStopped, EIdentity);
   (initializeHost, FailStopped, EHost);
   (initializePubSub, FailCleanup, EComponent CPubSub);
   (infallible CEventBus, FailCleanup, EComponent CEventBus);
   (initializePhonebook, FailCleanup, EComponent CPhonebook);
   (assign_and_start CPhonebookSubscriber, FailCleanup, EComponent CPhonebookSubscriber);
   (assign_and_start CAuthenticator, FailCleanup, EComponent CAuthenticator);
   (assign_and_start CSyncer, FailCleanup, EComponent CSyncer);
   (infallible CPing, FailCleanup, EComponent CPing);
   (assign_and_start CReauth, FailCleanup, EComponent CReauth);
   (initializeMetricsManager, FailCleanup, EComponent CMetrics);
   (initializeCapsuleHandler, FailCleanup, EComponent CCapsules);
   (initializeElectionManager, FailCleanup, EComponent CElection)].

Fixpoint run_steps (steps : list (ST NW bool * on_failure * NodeError)) : ST NW (option NodeError) := fun nw =>
  match steps with
  | [] => (None, nw)
  | (step, f, e) :: steps => match step nw with (true, nw) => run_steps steps nw | (false, nw) => (Some e, failed f nw) end
  end.

(** A snapshot store that does not open is only logged. *)
Definition start_runtime (nw : NW) : NW :=
  if op_runtime (n_set nw.1) then snd (initializeRuntimeHandler (snd (initializeSnapshotStore nw))) else nw.

Definition Start : ST NW (option NodeError) := fun nw =>
  if negb (n_state nw.1 =s nodeStateStopped) then (Some (ENotStopped (n_state nw.1)), nw) else
  match run_steps start_steps (setState nodeStateInitializing nw.1, nw.2) with
  | (Some e, nw) => (Some e, nw)
  | (None, nw) => let nw := start_runtime nw in (None, (setState nodeStateRunning nw.1, nw.2))
  end.

Definition Stop (nw : NW) : NW :=
  if (n_state nw.1 =s nodeStateStopped) || (n_state nw.1 =s nodeStateShuttingDown) then nw else
  let nw := cleanup (cancel (setState nodeStateShuttingDown nw.1), nw.2) in
  (setState nodeStateStopped nw.1, nw.2).

Definition Drain : ST NW (option NodeError) := fun nw =>
  if negb (n_state nw.1 =s nodeStateRunning) then (Some (ECannotDrain (n_state nw.1)), nw) else
  let n := setState nodeStateDraining nw.1 in (None, Stop (n, mc_Departing (n_id n) nw.2)).

(** ** Clusters *)

Definition applyClusterElectionConfig (cfg : ClusterConfig) (m : Manager) : Manager :=
  match cl_Election cfg with
  | None => m
  | Some e =>
      let m := if 0 <? ce_Timeout e then SetClusterTimeout (cl_Path cfg) (ce_Timeout e) m else m in
      match ce_Weights e with
      | None => m
      | Some w => SetClusterCalculator (cl_Path cfg) (Some (NewCalculator (Some (Weights_Merge DefaultWeights w)) None None)) m
      end
  end.

Definition startHealthMonitor (clusterPath : string) : ST NW unit := fun nw =>
  let '(ok, nw) := on_machine (mc_StartMonitor clusterPath (n_cancelled nw.1)) nw in
  if ok then (tt, (set_clusters (n_joinedClusters nw.1) (<[clusterPath := tt]> (n_healthMonitors nw.1)) nw.1, nw.2)) else (tt, nw).

(** The errors are collected; every item is tried. *)
Fixpoint each {X} (f : X -> ST W bool) (xs : list X) : ST W bool := fun w =>
  match xs with [] => (true, w) | x :: xs => let '(ok, w) := f x w in let '(rest, w) := each f xs w in (ok && rest, w) end.

Definition joinConfiguredOrbits (cfg : ClusterConfig) : ST NW bool := fun nw =>
  if negb (built CCapsules nw.1) || (length (cl_Orbits cfg) =? 0)%nat then (true, nw) else on_machine (each (mc_JoinOrbit (cl_Path cfg)) (cl_Orbits cfg)) nw.
Definition createConfiguredCapsules (cfg : ClusterConfig) : ST NW bool := fun nw =>
  if negb (built CCapsules nw.1) || (length (cl_Capsules cfg) =? 0)%nat then (true, nw) else
  on_machine (each (mc_CreateCapsule (cl_Path cfg)) (cl_Capsules cfg)) nw.

(** [psk] is what the slice of the configuration holds by now. *)
Definition derive_secrets (path : string) (psk : bytes) (n : Node) : Node :=
  if (0 <? length psk)%nat && (match n_secretsKey n with None => true | Some _ => false end)
  then match DeriveKey psk path with Ok sek => set_secrets (Some sek) n | Err _ => n end
  else n.

Definition join_election (cfg : ClusterConfig) : ST NW unit := fun nw =>
  match n_electionManager nw.1 with
  | None => (tt, nw)
  | Some m =>
      let m := applyClusterElectionConfig cfg m in
      let '(opened, nw) := on_machine (mc_OpenElectionTopic (cl_Path cfg)) nw in
      let '(_, m) := ElectionManager.JoinCluster (cl_Path cfg) opened m in
      (tt, (set_election (Some m) nw.1, nw.2))
  end.

Definition on_joined (cfg : ClusterConfig) (psk : bytes) (nw : NW) : NW :=
  let path := cl_Path cfg in
  let '(now, nw) := on_machine time_Now nw in
  let nw := (set_clusters (<[path := now]> (n_joinedClusters nw.1)) (n_healthMonitors nw.1) nw.1, nw.2) in
  let nw := snd (startHealthMonitor path nw) in
  let nw := if built CMetrics nw.1 then snd (on_machine (mc_MetricsJoin path) nw) else nw in
  let nw := snd (join_election cfg nw) in
  let nw := (derive_secrets path psk nw.1, nw.2) in
  let nw := snd (joinConfiguredOrbits cfg nw) in
  snd (createConfiguredCapsules cfg nw).

(** The loop: events of other clusters are skipped. *)
Fixpoint await (path : string) (arrivals : list Arrival) : option NodeError * bool :=
  match arrivals with
  | [] => (Some EWaiting, false)
  | ADone :: _ => (Some EContext, false)
  | AJoined p :: rest => if p =s path then (None, true) else await path rest
  | AFailed p reason :: rest => if p =s path then (Some (EJoinFailed reason), false) else await path rest
  end.

Definition Join (cfg : ClusterConfig) : ST NW (option NodeError) := fun nw =>
  if negb (n_state nw.1 =s nodeStateRunning) then (Some ENotRunning, nw) else
  let nw := match cl_Certificates cfg with Some c => (nw.1, mc_RegisterCertConfig (cl_Path cfg) c nw.2) | None => nw end in
  let '((arrivals, psk), nw) :=
    on_machine (mc_JoinRequested {| cj_ClusterPath := cl_Path cfg; cj_PSK := cl_PSK cfg; cj_BootstrapPeers := cl_BootstrapPeers cfg |}) nw in
  let '(e, joined) := await (cl_Path cfg) arrivals in
  (e, if joined then on_joined cfg psk nw else nw).

Definition Leave (clusterPath : string) : ST NW (option NodeError) := fun nw =>
  match n_joinedClusters nw.1 !! clusterPath with
  | None => (Some (ENotMember clusterPath), nw)
  | Some _ =>
      let monitor := n_healthMonitors nw.1 !! clusterPath in
      let n := set_clusters (delete clusterPath (n_joinedClusters nw.1)) (delete clusterPath (n_healthMonitors nw.1)) nw.1 in
      let n := set_election (ElectionManager.LeaveCluster clusterPath <$> n_electionManager n) n in
      let w := if built CCapsules n then mc_CapsulesLeave clusterPath nw.2 else nw.2 in
      let w := if built CMetrics n then mc_MetricsLeave clusterPath w else w in
      let w := match monitor with Some _ => mc_StopMonitor clusterPath w | None => w end in
      let w := if built CAuthenticator n then mc_AuthLeave clusterPath w else w in
      (None, (n, w))
  end.

End Node.

(** ** Sequences of operations *)

Inductive Op := OStart | OStop | ODrain | OJoin (cfg : ClusterConfig) | OLeave (clusterPath : string).

Section Operations.
Context {W : Type} `{M : Machine W} `{A : Aead} `{R : GoRange}.

Definition op_step (o : Op) : ST NW (option NodeError) := fun nw =>
  match o with
  | OStart => Start nw
  | OStop => (None, Stop nw)
  | ODrain => Drain nw
  | OJoin cfg => Join cfg nw
  | OLeave path => Leave path nw
  end.
Definition run_ops (ops : list Op) (nw : NW) : NW := fold_left (fun nw o => snd (op_step o nw)) ops nw.

(** ** What the operations keep *)

(** Only components were added. *)
Record grows (n n' : Node) : Prop := {
  gr_set : n_set n' = n_set n; gr_state : n_state n' = n_state n; gr_disc : n_snapshotDiscovery n' = n_snapshotDiscovery n;
  gr_sek : n_secretsKey n' = n_secretsKey n; gr_joined : n_joinedClusters n' = n_joinedClusters n; gr_mon : n_healthMonitors n' = n_healthMonitors n;
  gr_cancelled : n_cancelled n' = n_cancelled n; gr_runtime : n_runtimeHandler n' = n_runtimeHandler n; gr_built : n_built n ⊆ n_built n'
}.

#[export] Instance grows_po : PreOrder grows.
Proof.
  split; [by intros n; split|]. intros a b c [] []. split; [etrans; eassumption..|set_solver].
Qed.

Lemma grows_assign c n : grows n (assign c n).
Proof. split; try done. cbn. set_solver. Qed.
Lemma grows_identity k id n : grows n (set_identity k id n).
Proof. by split. Qed.
Lemma grows_election m n : grows n (set_election m n).
Proof. by split. Qed.
Hint Resolve grows_assign grows_identity grows_election : core.

(** A step of [Start]. *)
Definition growing (f : ST NW bool) : Prop := forall nw, grows nw.1 (f nw).2.1.

Lemma start_component_node c nw : (start_component c nw).2.1 = nw.1.
Proof. unfold start_component, on_machine. by destruct (mc_start _ _ _). Qed.

Lemma growing_initialize c : growing (initialize c).
Proof.
  intros nw. unfold initialize. pose proof (start_component_node c nw) as E. destruct (start_component c nw) as [[] nw']; cbn in *; rewrite E; [apply grows_assign|reflexivity].
Qed.
Lemma growing_assign_and_start c : growing (assign_and_start c).
Proof. intros nw. unfold assign_and_start. rewrite start_component_node. apply grows_assign. Qed.
Lemma growing_infallible c : growing (infallible c).
Proof. intros nw. unfold infallible. pose proof (growing_assign_and_start c nw) as E. by destruct (assign_and_start c nw). Qed.
Lemma growing_stored dir c : growing (initialize_stored dir c).
Proof.
  intros nw. unfold initialize_stored, on_machine. destruct (os_MkdirAll _ _) as [[] w]; cbn [negb]; [|reflexivity]. exact (growing_initialize c (nw.1, w)).
Qed.
Lemma growing_host : growing initializeHost.
Proof. intros nw. unfold initializeHost. destruct (forallb _ _); [|reflexivity]. cbn [negb]. exact (growing_initialize CHost nw). Qed.
Lemma growing_identity : growing initializeIdentity.
Proof.
  intros [n w]. unfold initializeIdentity. destruct (match n_privateKey n with Some _ => _ | None => _ end) as [[k|] w']; [|reflexivity].
  destruct (IDFromPrivateKey k); apply grows_identity.
Qed.
Lemma growing_election : growing initializeElectionManager.
Proof.
  intros nw. unfold initializeElectionManager. destruct (negb _ || negb _); [reflexivity|].
  pose proof (start_component_node CElection nw) as E1. destruct (start_component CElection nw) as [b1 nw1]. cbn [snd] in E1.
  match goal with |- context [start_component CElectionHandler ?x] => set (nw2 := x) end. assert (Hn2 : grows nw.1 nw2.1).
  { unfold nw2. cbn. rewrite E1. etrans; [|apply grows_assign]. apply grows_election. }
  pose proof (start_component_node CElectionHandler nw2) as E3. destruct (start_component CElectionHandler nw2) as [b3 nw3]. cbn [fst snd] in *. rewrite E3.
  etrans; [exact Hn2|apply grows_assign].
Qed.

Lemma start_steps_growing : Forall (fun s => growing s.1.1) start_steps.
Proof.
  unfold start_steps, initializePubSub, initializePhonebook, initializeMetricsManager, initializeCapsuleHandler.
  repeat first [apply list.Forall_nil | apply list.Forall_cons; split; cbn [fst snd]]; auto using growing_initialize, growing_assign_and_start, growing_infallible,
    growing_stored, growing_host, growing_identity, growing_election.
Qed.

Lemma run_steps_grows steps nw nw' : Forall (fun s => growing s.1.1) steps -> run_steps steps nw = (None, nw') -> grows nw.1 nw'.1.
Proof.
  intros Hs. revert nw. induction Hs as [|[[f fl] e] steps Hf _ IH]; intros nw; cbn [run_steps]; [intros [= <-]; reflexivity|].
  specialize (Hf nw). cbn in Hf. destruct (f nw) as [[] nw1]; [|done]. intros Hr. etrans; [exact Hf|by apply IH].
Qed.

(** Stopping components leaves the node as it is. *)
Lemma stop_component_node c nw : (stop_component c nw).2.1 = nw.1.
Proof. unfold stop_component. by destruct (built c nw.1). Qed.
Lemma stop_all_node cs nw : (stop_all cs nw).1 = nw.1.
Proof. revert nw. induction cs as [|c cs IH]; intros nw; [done|]. unfold stop_all in *. cbn [fold_left]. by rewrite IH, stop_component_node. Qed.
Lemma cleanup_node nw : (cleanup nw).1 = set_election (ElectionManager.Stop <$> n_electionManager nw.1) nw.1.
Proof. unfold cleanup. rewrite stop_all_node. cbn [stop_monitors fst]. by rewrite stop_all_node; cbn [fst]; rewrite stop_all_node. Qed.

(** A step that succeeds has assigned its fields. *)
Definition provides (f : ST NW bool) (cs : list Component) : Prop := forall nw nw', f nw = (true, nw') -> cs ⊆ n_built nw'.1.

Lemma provides_initialize c : provides (initialize c) [c].
Proof. intros nw nw'. unfold initialize. destruct (start_component c nw) as [[] nw1]; [|done]. intros [= <-]. cbn. set_solver. Qed.
Lemma provides_assign_and_start c : provides (assign_and_start c) [c].
Proof.
  intros nw nw' E. unfold assign_and_start in E. pose proof (start_component_node c (assign c nw.1, nw.2)) as Hn. rewrite E in Hn. cbn in Hn. rewrite Hn. cbn. set_solver.
Qed.
Lemma provides_infallible c : provides (infallible c) [c].
Proof.
  intros nw nw'. unfold infallible. destruct (assign_and_start c nw) as [b nw1] eqn:E. intros [= <-]. unfold assign_and_start in E.
  pose proof (start_component_node c (assign c nw.1, nw.2)) as Hn. rewrite E in Hn. cbn in Hn. rewrite Hn. cbn. set_solver.
Qed.
Lemma provides_stored dir c : provides (initialize_stored dir c) [c].
Proof. intros nw nw'. unfold initialize_stored. destruct (on_machine _ nw) as [[] nw1]; cbn [negb]; [|done]. apply provides_initialize. Qed.
Lemma provides_host : provides initializeHost [CHost].
Proof. intros nw nw'. unfold initializeHost. destruct (forallb _ _); [|done]. cbn [negb]. apply (provides_initialize CHost nw nw'). Qed.
Lemma provides_identity : provides initializeIdentity [].
Proof. intros nw nw' _. set_solver. Qed.
Lemma provides_election : provides initializeElectionManager [CElection; CElectionHandler].
Proof.
  intros nw nw'. unfold initializeElectionManager. destruct (negb _ || negb _); [done|]. destruct (start_component CElection nw) as [b1 nw1].
  match goal with |- context [start_component CElectionHandler ?x] => set (nw2 := x) end. pose proof (start_component_node CElectionHandler nw2) as E.
  destruct (start_component CElectionHandler nw2) as [b3 nw3]. intros [= <-]. cbn [fst snd] in *. rewrite E. cbn. set_solver.
Qed.

(** The components every running node has, in the order of their start. *)
Definition started_by : list (list Component) :=
  [[]; [CHost]; [CPubSub]; [CEventBus]; [CPhonebook]; [CPhonebookSubscriber]; [CAuthenticator]; [CSyncer]; [CPing]; [CReauth]; [CMetrics]; [CCapsules];
   [CElection; CElectionHandler]].
Definition core_components : list Component := concat started_by.

Lemma start_steps_provide : Forall2 (fun s cs => provides s.1.1 cs) start_steps started_by.
Proof.
  unfold start_steps, started_by, initializePubSub, initializePhonebook, initializeMetricsManager, initializeCapsuleHandler.
  repeat first [apply List.Forall2_nil | apply List.Forall2_cons; cbn [fst snd]]; auto using provides_initialize, provides_assign_and_start, provides_infallible,
    provides_stored, provides_host, provides_identity, provides_election.
Qed.

Lemma run_steps_built steps css nw nw' : Forall (fun s => growing s.1.1) steps -> Forall2 (fun s cs => provides s.1.1 cs) steps css ->
  run_steps steps nw = (None, nw') -> concat css ⊆ n_built nw'.1.
Proof.
  intros Hg Hp. revert nw Hg. induction Hp as [|[[f fl] e] cs steps css Hf _ IH]; intros nw Hg; cbn [run_steps concat]; [set_solver|].
  apply list.Forall_cons in Hg as [_ Hg]. destruct (f nw) as [[] nw1] eqn:E; [|done]. intros Hr. specialize (IH nw1 Hg Hr). specialize (Hf nw nw1 E). cbn in Hf.
  pose proof (gr_built _ _ (run_steps_grows steps nw1 nw' Hg Hr)). set_solver.
Qed.

(** A failed sequence. *)
Lemma run_steps_failed steps nw e nw' : Forall (fun s => growing s.1.1) steps -> run_steps steps nw = (Some e, nw') ->
  exists fl nw1, (fl, e) ∈ ((fun s => (s.1.2, s.2)) <$> steps) /\ grows nw.1 nw1.1 /\ nw' = failed fl nw1.
Proof.
  intros Hs. revert nw. induction Hs as [|[[f fl] e'] steps Hf _ IH]; intros nw; cbn [run_steps]; [done|]. specialize (Hf nw). cbn in Hf.
  destruct (f nw) as [[] nw1] eqn:E; cbn in Hf.
  - intros Hr. destruct (IH nw1 Hr) as (fl' & nw2 & Hin & Hgr & ->). exists fl', nw2. split_and!; [cbn; set_solver|by etrans|done].
  - intros [= <- <-]. exists fl, nw1. split_and!; [cbn; set_solver|done|done].
Qed.

Lemma election_set nw nw' : initializeElectionManager nw = (true, nw') -> is_Some (n_electionManager nw'.1).
Proof.
  unfold initializeElectionManager. destruct (negb _ || negb _); [done|]. destruct (start_component CElection nw) as [b1 nw1].
  match goal with |- context [start_component CElectionHandler ?x] => set (nw2 := x) end. pose proof (start_component_node CElectionHandler nw2) as E.
  destruct (start_component CElectionHandler nw2) as [b3 nw3]. intros [= <-]. cbn [fst snd] in *. rewrite E. cbn. by eexists.
Qed.
Lemma run_steps_last steps f fl e nw nw' : run_steps (steps ++ [(f, fl, e)]) nw = (None, nw') -> exists nw1, f nw1 = (true, nw').
Proof.
  revert nw. induction steps as [|[[g gl] ge] steps IH]; intros nw; cbn [app run_steps]; [destruct (f nw) as [[] nw1] eqn:E; [|done]; intros [= <-]; by exists nw|].
  destruct (g nw) as [[] nw1]; [apply IH|done].
Qed.

(** The optional end of [Start]. *)
Lemma start_runtime_spec nw : let nw' := start_runtime nw in
  n_set nw'.1 = n_set nw.1 /\ n_snapshotDiscovery nw'.1 = n_snapshotDiscovery nw.1 /\ n_secretsKey nw'.1 = n_secretsKey nw.1 /\
  n_joinedClusters nw'.1 = n_joinedClusters nw.1 /\ n_healthMonitors nw'.1 = n_healthMonitors nw.1 /\ n_cancelled nw'.1 = n_cancelled nw.1 /\
  n_electionManager nw'.1 = n_electionManager nw.1 /\ n_built nw.1 ⊆ n_built nw'.1 /\
  (if op_runtime (n_set nw.1) then exists w, n_runtimeHandler nw'.1 = Some w /\ rw_sek w = n_secretsKey nw.1 /\ (rw_puller w = true -> n_snapshotDiscovery nw.1 = true)
   else n_runtimeHandler nw'.1 = n_runtimeHandler nw.1).
Proof.
  cbv zeta. unfold start_runtime. destruct (op_runtime _); [|by split_and!].
  assert (H1 : grows nw.1 (snd (initializeSnapshotStore nw)).1 /\ n_electionManager (snd (initializeSnapshotStore nw)).1 = n_electionManager nw.1).
  { split; [apply growing_stored|]. unfold initializeSnapshotStore, initialize_stored, on_machine, initialize, start_component, on_machine.
    destruct (os_MkdirAll _ _) as [[] w]; [|done]. cbn. by destruct (mc_start _ _ _) as [[] w']. }
  destruct (snd (initializeSnapshotStore nw)) as [n1 w1]. cbn [fst] in H1. destruct H1 as [[H1 H2 H3 H4 H5 H6 H7 H8 H9] H10].
  unfold initializeRuntimeHandler, start_component, on_machine. cbn [fst snd]. destruct (mc_start CRuntime _ w1) as [b w2]. cbn. split_and!; try done; [set_solver|].
  eexists. split; [done|]. cbn. split; [done|]. rewrite <- H3. intros E. apply andb_true_iff in E as [_ E]. exact E.
Qed.

Lemma on_machine_node {X} (f : ST W X) nw : (on_machine f nw).2.1 = nw.1.
Proof. unfold on_machine. by destruct (f nw.2). Qed.
Lemma joinConfiguredOrbits_node cfg nw : (joinConfiguredOrbits cfg nw).2.1 = nw.1.
Proof. unfold joinConfiguredOrbits. destruct (_ || _); [done|apply on_machine_node]. Qed.
Lemma createConfiguredCapsules_node cfg nw : (createConfiguredCapsules cfg nw).2.1 = nw.1.
Proof. unfold createConfiguredCapsules. destruct (_ || _); [done|apply on_machine_node]. Qed.
Lemma startHealthMonitor_node p nw : let n' := (startHealthMonitor p nw).2.1 in
  n' = nw.1 \/ n' = set_clusters (n_joinedClusters nw.1) (<[p := tt]> (n_healthMonitors nw.1)) nw.1.
Proof. cbv zeta. unfold startHealthMonitor, on_machine. destruct (mc_StartMonitor _ _ _) as [[] w]; [by right|by left]. Qed.
Lemma derive_secrets_spec p psk n : exists k, derive_secrets p psk n = set_secrets k n.
Proof.
  unfold derive_secrets. destruct (_ && _); [destruct (DeriveKey psk p) as [k|]; [by exists (Some k)|]|]; exists (n_secretsKey n); by destruct n.
Qed.
Lemma join_election_node cfg nw :
  match n_electionManager nw.1 with
  | None => (join_election cfg nw).2.1 = nw.1
  | Some m => exists opened, (join_election cfg nw).2.1 = set_election (Some (ElectionManager.JoinCluster (cl_Path cfg) opened (applyClusterElectionConfig cfg m)).2) nw.1
  end.
Proof.
  unfold join_election, on_machine. destruct (n_electionManager nw.1) as [m|]; [|done]. destruct (mc_OpenElectionTopic _ _) as [o w]. exists o.
  by destruct (ElectionManager.JoinCluster _ _ _).
Qed.

(** What a completed [Join] does to the node. *)
Lemma on_joined_spec cfg psk nw : let n := nw.1 in let n' := (on_joined cfg psk nw).1 in
  n_set n' = n_set n /\ n_state n' = n_state n /\ n_snapshotDiscovery n' = n_snapshotDiscovery n /\ n_runtimeHandler n' = n_runtimeHandler n /\
  n_cancelled n' = n_cancelled n /\ n_built n' = n_built n /\ (exists t, n_joinedClusters n' = <[cl_Path cfg := t]> (n_joinedClusters n)) /\
  (n_healthMonitors n' = n_healthMonitors n \/ n_healthMonitors n' = <[cl_Path cfg := tt]> (n_healthMonitors n)) /\
  n_secretsKey n' = n_secretsKey (derive_secrets (cl_Path cfg) psk n) /\
  match n_electionManager n with
  | None => n_electionManager n' = None
  | Some m => exists opened, n_electionManager n' = Some (ElectionManager.JoinCluster (cl_Path cfg) opened (applyClusterElectionConfig cfg m)).2
  end.
Proof.
  cbv zeta. remember (on_joined cfg psk nw).1 as n' eqn:En. unfold on_joined in En. destruct nw as [n w]. unfold on_machine at 1 in En. cbn [fst snd] in En |- *.
  destruct (time_Now w) as [t w1]. rewrite createConfiguredCapsules_node, joinConfiguredOrbits_node in En. cbn [fst snd] in En. set (n1 := set_clusters _ _ n) in En.
  match type of En with context [join_election cfg ?x] => set (nw3 := x) in En end.
  assert (H3 : nw3.1 = n1 \/ nw3.1 = set_clusters (n_joinedClusters n1) (<[cl_Path cfg := tt]> (n_healthMonitors n1)) n1).
  { unfold nw3. destruct (built CMetrics _); [rewrite on_machine_node|]; apply startHealthMonitor_node. }
  clearbody nw3. destruct (derive_secrets_spec (cl_Path cfg) psk (join_election cfg nw3).2.1) as [k Ek]. pose proof (join_election_node cfg nw3) as H4.
  assert (Hk : k = n_secretsKey (derive_secrets (cl_Path cfg) psk n)).
  { transitivity (n_secretsKey (derive_secrets (cl_Path cfg) psk (join_election cfg nw3).2.1)); [by rewrite Ek|]. unfold derive_secrets.
    assert (Es : n_secretsKey (join_election cfg nw3).2.1 = n_secretsKey n).
    { destruct (n_electionManager nw3.1); [destruct H4 as [o ->]|rewrite H4]; cbn; by destruct H3 as [-> | ->]. }
    rewrite Es. destruct (_ && _); [|done]. by destruct (DeriveKey _ _). }
  assert (Em : n_electionManager nw3.1 = n_electionManager n) by (by destruct H3 as [-> | ->]). rewrite Ek in En. rewrite <- Hk, En. rewrite Em in H4.
  destruct (n_electionManager n) as [m|]; [destruct H4 as [o ->]|rewrite H4]; cbn;
    (split_and!; first [exact Em | done | by exists o | destruct H3 as [-> | ->]; first [done | by exists t | by left | by right]]).
Qed.

(** ** Invariant of a node between operations *)

(** A node is stopped, running, or stuck after a failed start.  A running node
    has all its components.  As long as its context lives, it is a member of
    clusters only while it runs, and its runtime handler has no secrets key. *)
Record node_ok (n : Node) : Prop := {
  ok_state : n_state n = nodeStateStopped \/ n_state n = nodeStateInitializing \/ n_state n = nodeStateRunning;
  ok_running : n_state n = nodeStateRunning ->
    core_components ⊆ n_built n /\ is_Some (n_electionManager n) /\ (op_runtime (n_set n) = true -> is_Some (n_runtimeHandler n));
  ok_monitors : dom (n_healthMonitors n) ⊆ dom (n_joinedClusters n);
  ok_discovery : n_snapshotDiscovery n = false;
  ok_puller : forall w, n_runtimeHandler n = Some w -> rw_puller w = false;
  ok_live : n_cancelled n = false -> n_state n <> nodeStateRunning -> n_secretsKey n = None /\ n_joinedClusters n = ∅;
  ok_sek : n_cancelled n = false -> forall w, n_runtimeHandler n = Some w -> rw_sek w = None
}.

Lemma node_ok_New opts : node_ok (New opts).
Proof.
  unfold New. match goal with |- node_ok (fold_left _ _ ?x) => assert (H0 : node_ok x /\ n_state x = nodeStateStopped /\ n_runtimeHandler x = None) end.
  { split; [|done]. split; cbn; try done; by left. }
  destruct H0 as (H0 & H1 & H2). match goal with |- node_ok (fold_left _ _ ?x) => generalize dependent x end.
  induction opts as [|o opts IH]; intros n Hn Hs Hr; cbn [fold_left]; [done|]. apply IH; [|by destruct o|by destruct o].
  destruct Hn as [A1 A2 A3 A4 A5 A6 A7]. destruct o; (split; cbn; try done); rewrite ?Hs; done.
Qed.

(** A change that leaves the clusters and the keys alone. *)
Lemma node_ok_steady n n' : node_ok n -> n_state n' = n_state n -> n_state n <> nodeStateRunning -> n_joinedClusters n' = n_joinedClusters n ->
  n_healthMonitors n' = n_healthMonitors n -> n_snapshotDiscovery n' = n_snapshotDiscovery n -> n_runtimeHandler n' = n_runtimeHandler n ->
  n_cancelled n' = n_cancelled n -> n_secretsKey n' = n_secretsKey n -> node_ok n'.
Proof. intros [A1 A2 A3 A4 A5 A6 A7] E1 Hn E2 E3 E4 E5 E6 E7. split; rewrite ?E1, ?E2, ?E3, ?E4, ?E5, ?E6, ?E7; done. Qed.

Lemma node_ok_state s n : node_ok n -> n_state n <> nodeStateRunning -> s = nodeStateStopped \/ s = nodeStateInitializing -> node_ok (setState s n).
Proof.
  intros [A1 A2 A3 A4 A5 A6 A7] Hn Hs. split; cbn; try done; [naive_solver|destruct Hs as [-> | ->]; done|]. intros Hc _. by apply A6.
Qed.

Lemma node_ok_Start nw : node_ok nw.1 -> node_ok (Start nw).2.1.
Proof.
  intros Hok. unfold Start. destruct (String.eqb_spec (n_state nw.1) nodeStateStopped) as [Es|]; [|done]. cbn [negb].
  assert (Hn1 : n_state nw.1 <> nodeStateRunning) by (by rewrite Es). assert (H1 : node_ok (setState nodeStateInitializing nw.1)) by (apply node_ok_state; auto).
  destruct (run_steps start_steps _) as [[e|] nw1] eqn:E.
  - apply run_steps_failed in E as (fl & nw2 & _ & [G1 G2 G3 G4 G5 G6 G7 G8 G9] & ->); [|apply start_steps_growing]. cbn [fst snd] in *.
    assert (H2 : node_ok nw2.1) by (eapply node_ok_steady; [exact H1|done..]). destruct fl; cbn [failed fst]; [apply node_ok_state; [done|by rewrite G2|by left]|].
    rewrite cleanup_node. eapply node_ok_steady; [exact H2|try done..]. by rewrite G2.
  - pose proof (run_steps_grows _ _ _ start_steps_growing E) as [G1 G2 G3 G4 G5 G6 G7 G8 G9]. pose proof (run_steps_built _ _ _ _ start_steps_growing start_steps_provide E) as Hb.
    assert (He : is_Some (n_electionManager nw1.1)).
    { change start_steps with (removelast start_steps ++ [(initializeElectionManager, FailCleanup, EComponent CElection)]) in E. apply run_steps_last in E as [nw0 E]. by apply election_set in E. }
    destruct (start_runtime_spec nw1) as (R1 & R2 & R3 & R4 & R5 & R6 & R7 & R8 & R9). cbn [fst snd] in *. destruct H1 as [A1 A2 A3 A4 A5 A6 A7]. cbn in *.
    split; cbn; rewrite ?R1, ?R2, ?R3, ?R4, ?R5, ?R6, ?R7, ?G1, ?G3, ?G4, ?G5, ?G6, ?G7; try done; [by right; right| | |].
    + intros _. split_and!; [intros x Hx; by apply R8, Hb|done|]. intros Ho. rewrite G1 in R9. rewrite Ho in R9. destruct R9 as (w & -> & _). by eexists.
    + intros w Hw. destruct (op_runtime (n_set nw1.1)); [|rewrite R9, G8 in Hw; by apply A5]. destruct R9 as (w' & Ew & _ & Hp). rewrite Ew in Hw. injection Hw as <-.
      destruct (rw_puller w'); [|done]. rewrite G3, A4 in Hp. by specialize (Hp eq_refl).
    + intros Hc w Hw. destruct (op_runtime (n_set nw1.1)); [|rewrite R9, G8 in Hw; by apply A7]. destruct R9 as (w' & Ew & Hk & _). rewrite Ew in Hw. injection Hw as <-.
      rewrite Hk, G4. by apply A6.
Qed.

Lemma Stop_node nw : (Stop nw).1 =
  if (n_state nw.1 =s nodeStateStopped) || (n_state nw.1 =s nodeStateShuttingDown) then nw.1
  else setState nodeStateStopped (set_election (ElectionManager.Stop <$> n_electionManager nw.1) (cancel nw.1)).
Proof. unfold Stop. destruct (_ || _); [done|]. cbn [fst]. rewrite cleanup_node. done. Qed.

Lemma node_ok_Stop nw : node_ok nw.1 -> node_ok (Stop nw).1.
Proof.
  intros Hok. rewrite Stop_node. destruct (_ || _); [done|]. destruct Hok as [A1 A2 A3 A4 A5 A6 A7]. split; cbn; try done. by left.
Qed.

Lemma Drain_node nw : (Drain nw).2.1 = if n_state nw.1 =s nodeStateRunning then setState nodeStateStopped (set_election (ElectionManager.Stop <$> n_electionManager nw.1) (cancel nw.1)) else nw.1.
Proof. unfold Drain. destruct (n_state nw.1 =s nodeStateRunning); [|done]. cbn [negb snd]. by rewrite Stop_node. Qed.

Lemma node_ok_Drain nw : node_ok nw.1 -> node_ok (Drain nw).2.1.
Proof.
  intros Hok. rewrite Drain_node. destruct (_ =s _); [|done]. destruct Hok as [A1 A2 A3 A4 A5 A6 A7]. split; cbn; try done. by left.
Qed.

(** The first event that concerns the cluster decides. *)
Definition concerns (path : string) (a : Arrival) : Prop := match a with ADone => True | AJoined p | AFailed p _ => p = path end.
Lemma await_spec path arrivals :
  match await path arrivals with
  | (None, true) => exists pre post, arrivals = pre ++ AJoined path :: post /\ Forall (fun a => ~ concerns path a) pre
  | (Some EContext, false) => exists pre post, arrivals = pre ++ ADone :: post /\ Forall (fun a => ~ concerns path a) pre
  | (Some (EJoinFailed r), false) => exists pre post, arrivals = pre ++ AFailed path r :: post /\ Forall (fun a => ~ concerns path a) pre
  | (Some EWaiting, false) => Forall (fun a => ~ concerns path a) arrivals
  | _ => False
  end.
Proof.
  induction arrivals as [|a arrivals IH]; cbn [await]; [done|].
  assert (Hskip : ~ concerns path a -> match await path arrivals with
    | (None, true) => exists pre post, a :: arrivals = pre ++ AJoined path :: post /\ Forall (fun a => ~ concerns path a) pre
    | (Some EContext, false) => exists pre post, a :: arrivals = pre ++ ADone :: post /\ Forall (fun a => ~ concerns path a) pre
    | (Some (EJoinFailed r), false) => exists pre post, a :: arrivals = pre ++ AFailed path r :: post /\ Forall (fun a => ~ concerns path a) pre
    | (Some EWaiting, false) => Forall (fun a => ~ concerns path a) (a :: arrivals)
    | _ => False end).
  { intros Ha. assert (Hpre : forall b, (exists pre post, arrivals = pre ++ b :: post /\ Forall (fun a => ~ concerns path a) pre) ->
      exists pre post, a :: arrivals = pre ++ b :: post /\ Forall (fun a => ~ concerns path a) pre).
    { intros b (pre & post & -> & Hp). exists (a :: pre), post. by split; [|constructor]. }
    destruct (await path arrivals) as [[[]|] []]; try done; try (by apply Hpre). by constructor. }
  destruct a as [p|p r|]; [| |exists [], arrivals; by split].
  - destruct (String.eqb_spec p path) as [->|Hp]; [exists [], arrivals; by split|by apply Hskip].
  - destruct (String.eqb_spec p path) as [->|Hp]; [exists [], arrivals; by split|by apply Hskip].
Qed.

Lemma Join_node cfg nw : (exists nw1 psk, nw1.1 = nw.1 /\ n_state nw.1 = nodeStateRunning /\ (Join cfg nw).1 = None /\ (Join cfg nw).2 = on_joined cfg psk nw1) \/
  ((Join cfg nw).1 <> None /\ (Join cfg nw).2.1 = nw.1).
Proof.
  unfold Join. destruct (String.eqb_spec (n_state nw.1) nodeStateRunning) as [Hs|]; [|by right]. cbn [negb].
  set (nw0 := match cl_Certificates cfg with Some _ => _ | None => _ end). assert (H0 : nw0.1 = nw.1) by (unfold nw0; by destruct (cl_Certificates cfg)). clearbody nw0.
  unfold on_machine. destruct (mc_JoinRequested _ _) as [[arr psk] w]. pose proof (await_spec (cl_Path cfg) arr) as Ha.
  destruct (await (cl_Path cfg) arr) as [[e|] []]; cbn [fst snd]; [by destruct e|right; split; [done|exact H0]| |done]. left. by exists (nw0.1, w), psk.
Qed.

Lemma node_ok_Join cfg nw : node_ok nw.1 -> node_ok (Join cfg nw).2.1.
Proof.
  intros Hok. destruct (Join_node cfg nw) as [(nw1 & psk & En & Hs & _ & ->)|[_ ->]]; [|done]. rewrite <- En in *.
  destruct (on_joined_spec cfg psk nw1) as (S1 & S2 & S3 & S4 & S5 & S6 & [t S7] & S8 & S9 & S10). destruct Hok as [A1 A2 A3 A4 A5 A6 A7].
  split; rewrite ?S1, ?S2, ?S3, ?S4, ?S5, ?S6; try done.
  - intros _. destruct (A2 Hs) as (B1 & [m B2] & B3). split_and!; [done| |done]. rewrite B2 in S10. destruct S10 as [o ->]. by eexists.
  - rewrite S7. destruct S8 as [-> | ->]; set_solver.
Qed.

Lemma node_ok_Leave p nw : node_ok nw.1 -> node_ok (Leave p nw).2.1.
Proof.
  intros Hok. unfold Leave. destruct (n_joinedClusters nw.1 !! p) as [t|] eqn:E; [|done]. destruct Hok as [A1 A2 A3 A4 A5 A6 A7]. split; cbn; try done.
  - intros Hs. destruct (A2 Hs) as (B1 & [m B2] & B3). split_and!; [done| |done]. rewrite B2. by eexists.
  - set_solver.
  - intros Hc Hs. destruct (A6 Hc Hs) as [_ Hj]. rewrite Hj in E. by rewrite lookup_empty in E.
Qed.

Lemma node_ok_step o nw : node_ok nw.1 -> node_ok (op_step o nw).2.1.
Proof. destruct o; cbn [op_step snd]; auto using node_ok_Start, node_ok_Stop, node_ok_Drain, node_ok_Join, node_ok_Leave. Qed.

Lemma node_ok_run ops nw : node_ok nw.1 -> node_ok (run_ops ops nw).1.
Proof. revert nw. induction ops as [|o ops IH]; intros nw Hok; [done|]. unfold run_ops in *. cbn [fold_left]. apply IH. by apply node_ok_step. Qed.

(** ** Theorems *)

(** C28: whatever a caller does with a node, in any order and whatever the
    machine answers: between operations it is stopped, running or stuck in
    "initializing"; a running node has every component, and a runtime handler
    if it has a runtime; health monitors run only for joined clusters; the
    handler never gets a snapshot puller; and until the node is stopped for
    the first time, it belongs to clusters only while it runs. *)
Theorem node_consistent opts ops w : node_ok (run_ops ops (New opts, w)).1.
Proof. apply node_ok_run, node_ok_New. Qed.

(** Credentials of private registries are never used.  The runtime
    handler keeps the secrets key the node had when it started, which is none
    in every node that was not stopped before: whatever clusters the node has
    joined since, the specification it starts a container from has an empty
    user name and password. *)
Theorem node_credentials_unused opts ops w rw spec (Hlive : n_cancelled (run_ops ops (New opts, w)).1 = false)
    (Hrt : n_runtimeHandler (run_ops ops (New opts, w)).1 = Some rw) :
  x_RegistryUsername (rt_spec (rw_sek rw) spec) = "" /\ x_RegistryPassword (rt_spec (rw_sek rw) spec) = "".
Proof. rewrite (ok_sek _ (node_ok_run ops (New opts, w) (node_ok_New opts)) Hlive rw Hrt). done. Qed.

Lemma initializing_stays ops nw : n_state nw.1 = nodeStateInitializing -> OStop ∉ ops -> n_state (run_ops ops nw).1 = nodeStateInitializing.
Proof.
  revert nw. induction ops as [|o ops IH]; intros nw Hs Hno; [done|]. apply not_elem_of_cons in Hno as [Ho Hno]. unfold run_ops in *. cbn [fold_left]. apply IH; [|done].
  destruct o; cbn [op_step snd]; [unfold Start; by rewrite Hs|done|rewrite Drain_node; by rewrite Hs| |].
  - destruct (Join_node cfg nw) as [(nw1 & psk & _ & Hr & _)|[_ ->]]; [by rewrite Hs in Hr|done].
  - unfold Leave. by destruct (n_joinedClusters nw.1 !! clusterPath).
Qed.

(** C30: joining.  The first event about the cluster decides, events of
    other clusters are skipped.  On success the cluster is listed as joined; on
    failure, or when the caller's context ends first, the node is as before:
    an event that the cluster was joined after all is not noticed, and a node
    that was not a member then cannot leave either. *)
Theorem node_join_exact cfg nw (Hs : n_state nw.1 = nodeStateRunning) :
  let nw0 := match cl_Certificates cfg with Some c => mc_RegisterCertConfig (cl_Path cfg) c nw.2 | None => nw.2 end in
  let answer := mc_JoinRequested {| cj_ClusterPath := cl_Path cfg; cj_PSK := cl_PSK cfg; cj_BootstrapPeers := cl_BootstrapPeers cfg |} nw0 in
  let '(r, nw') := Join cfg nw in
  (r = None <-> exists pre post, answer.1.1 = pre ++ AJoined (cl_Path cfg) :: post /\ Forall (fun a => ~ concerns (cl_Path cfg) a) pre) /\
  (r = None -> is_Some (n_joinedClusters nw'.1 !! cl_Path cfg)) /\
  (r <> None -> nw' = (nw.1, answer.2) /\ (n_joinedClusters nw.1 !! cl_Path cfg = None -> Leave (cl_Path cfg) nw' = (Some (ENotMember (cl_Path cfg)), nw'))).
Proof.
  unfold Join. rewrite Hs. cbn [String.eqb negb]. cbv zeta.
  assert (H0 : (match cl_Certificates cfg with Some c => (nw.1, mc_RegisterCertConfig (cl_Path cfg) c nw.2) | None => nw end) =
    (nw.1, match cl_Certificates cfg with Some c => mc_RegisterCertConfig (cl_Path cfg) c nw.2 | None => nw.2 end)) by (by destruct (cl_Certificates cfg), nw).
  rewrite H0. unfold on_machine. cbn [fst snd]. destruct (mc_JoinRequested _ _) as [[arr psk] w]. cbn [fst snd].
  pose proof (await_spec (cl_Path cfg) arr) as Ha.
  assert (Huniq : forall a, await (cl_Path cfg) arr = a -> a.1 <> None -> ~ exists pre post, arr = pre ++ AJoined (cl_Path cfg) :: post /\ Forall (fun a => ~ concerns (cl_Path cfg) a) pre).
  { intros a <- Hne (pre & post & -> & Hp). apply Hne. clear -Hp. induction Hp as [|b pre Hb _ IH]; cbn [app await]; [by rewrite String.eqb_refl|].
    destruct b as [p|p r|]; [| |by destruct Hb]; destruct (String.eqb_spec p (cl_Path cfg)) as [->|]; [by destruct Hb|done|by destruct Hb|done]. }
  destruct (await (cl_Path cfg) arr) as [[e|] b] eqn:Ea; cbn [fst snd] in *.
  - assert (b = false) as -> by (destruct e, b; done). specialize (Huniq _ eq_refl). split_and!; [split; [done|intros Hx; by destruct Huniq]|done|].
    intros _. split; [done|]. intros Hn. unfold Leave. cbn [fst]. by rewrite Hn.
  - destruct b; [|done]. split_and!; [done| |done]. intros _. destruct (on_joined_spec cfg psk (nw.1, w)) as (_ & _ & _ & _ & _ & _ & [t ->] & _). rewrite lookup_insert_eq. by eexists.
Qed.

Lemma apply_calculator cfg m : calculatorFor (cl_Path cfg) (applyClusterElectionConfig cfg m) =
  match cl_Election cfg ≫= ce_Weights with
  | Some w => Some (NewCalculator (Some (Weights_Merge DefaultWeights w)) None None)
  | None => calculatorFor (cl_Path cfg) m
  end.
Proof.
  unfold applyClusterElectionConfig, calculatorFor. destruct (cl_Election cfg) as [e|]; [|done]. cbn [option_bind mbind]. destruct (0 <? ce_Timeout e), (ce_Weights e); cbn; by rewrite ?lookup_insert_eq.
Qed.
Lemma apply_timeout cfg m : timeoutFor (cl_Path cfg) (applyClusterElectionConfig cfg m) =
  match cl_Election cfg with Some e => if 0 <? ce_Timeout e then ce_Timeout e else timeoutFor (cl_Path cfg) m | None => timeoutFor (cl_Path cfg) m end.
Proof.
  unfold applyClusterElectionConfig, timeoutFor. destruct (cl_Election cfg) as [e|]; [|done]. destruct (Z.ltb_spec 0 (ce_Timeout e)), (ce_Weights e); cbn;
    try done; destruct (Z.leb_spec (ce_Timeout e) 0); try lia; by rewrite lookup_insert_eq.
Qed.
Lemma JoinCluster_overrides p o m : let m' := (ElectionManager.JoinCluster p o m).2 in perClusterCalc m' = perClusterCalc m /\ calculator m' = calculator m /\
  perClusterTimeout m' = perClusterTimeout m /\ electionTimeout m' = electionTimeout m.
Proof.
  cbv zeta. unfold ElectionManager.JoinCluster. destruct (negb (started m)); [done|]. destruct (bool_decide _); [done|]. destruct (negb (has_pubsub m)); [done|].
  destruct o; [|done]. by destruct (StrategyRegistry_Get _ _).
Qed.

(** Overrides of the election in a cluster.  After a join, a
    positive timeout of the configuration is the cluster's timeout; weights of
    the configuration, over the defaults, are its weights.  But the calculator
    made for them has no lookup of running capsules: in that cluster a node that
    already runs the capsule is not excluded, which the default calculator
    does. *)
Theorem node_override_drops_lookup cfg nw m e w (Hm : n_electionManager nw.1 = Some m) (He : cl_Election cfg = Some e) (Hw : ce_Weights e = Some w)
    (Hj : (Join cfg nw).1 = None) :
  exists m' calc, n_electionManager (Join cfg nw).2.1 = Some m' /\ calculatorFor (cl_Path cfg) m' = Some calc /\
    weights calc = Weights_Merge DefaultWeights w /\ (forall c st, already_running c st (lookup calc) = false) /\
    timeoutFor (cl_Path cfg) m' = (if 0 <? ce_Timeout e then ce_Timeout e else timeoutFor (cl_Path cfg) m).
Proof.
  destruct (Join_node cfg nw) as [(nw1 & psk & En & _ & _ & ->)|[Hne _]]; [|done]. destruct (on_joined_spec cfg psk nw1) as (_ & _ & _ & _ & _ & _ & _ & _ & _ & S10).
  rewrite En, Hm in S10. destruct S10 as [o ->]. eexists _, _. split; [done|]. destruct (JoinCluster_overrides (cl_Path cfg) o (applyClusterElectionConfig cfg m)) as (J1 & J2 & J3 & J4).
  assert (Hc : calculatorFor (cl_Path cfg) (ElectionManager.JoinCluster (cl_Path cfg) o (applyClusterElectionConfig cfg m)).2 = calculatorFor (cl_Path cfg) (applyClusterElectionConfig cfg m))
    by (unfold calculatorFor; by rewrite J1, J2).
  rewrite Hc, apply_calculator, He. cbn [mbind option_bind]. rewrite Hw. split_and!; [done|done|done|].
  transitivity (timeoutFor (cl_Path cfg) (applyClusterElectionConfig cfg m)); [unfold timeoutFor; by rewrite J3, J4|]. by rewrite apply_timeout, He.
Qed.

End Operations.

(** ** The identity of a node *)

(** A file that was written is read back, and a key survives its encoding. *)
Class KeyLaws {W : Type} (M : Machine W) := {
  read_written : forall p b w w', os_WriteFile p b w = (true, w') -> exists w'', os_ReadFile p w' = (Ok b, w'');
  unmarshal_marshal : forall k b, MarshalPrivateKey k = Some b -> UnmarshalPrivateKey b = Some k
}.

Section Identity.
Context {W : Type} `{M : Machine W} `{L : !KeyLaws M}.

(** A node keeps its identity.  A key that had to be generated is the
    one that the next start loads; and a key file that cannot be read or is
    damaged is an error, with nothing generated or written in its place. *)
Theorem keys_identity_kept path w (Hp : path <> "") :
  match LoadOrGenerateKey path w with
  | (Ok (key, true), w') => (LoadKey path w).1 = Err KNotExist /\ exists w'', LoadOrGenerateKey path w' = (Ok (key, false), w'')
  | (Ok (key, false), w') => (LoadKey path w) = (Ok key, w')
  | (Err e, w') => (LoadKey path w).1 <> Err KNotExist -> LoadKey path w = (Err e, w')
  end.
Proof using L.
  unfold LoadOrGenerateKey. rewrite (proj2 (String.eqb_neq _ _) Hp). destruct (LoadKey path w) as [[key|e] w1]; [done|]. destruct e; try done.
  unfold generate_and_save. destruct (GenerateKeyPair w1) as [[k|] w2]; [|intros Hn; by destruct Hn]. rewrite (proj2 (String.eqb_neq _ _) Hp). unfold SaveKey. destruct (MarshalPrivateKey k) as [b|] eqn:Em; [|intros Hn; by destruct Hn].
  destruct (os_MkdirAll _ w2) as [[] w3]; [|intros Hn; by destruct Hn]. cbn [negb]. destruct (os_WriteFile path b w3) as [[] w4] eqn:Ew; [|intros Hn; by destruct Hn]. cbn [negb]. split; [done|].
  apply read_written in Ew as [w5 Er]. exists w5. unfold LoadKey. by rewrite Er, (unmarshal_marshal _ _ Em).
Qed.

End Identity.

(** ** A machine, for evaluation *)

Lemma surjective_pairing_at {X Y} (p : X * Y) x : p.1 = x -> p = (x, p.2).
Proof. by destruct p; cbn; intros ->. Qed.

Module ToyMachine.

(** Files are kept, the components in [bad] do not start, and [answer] answers
    requests to join. *)
Definition toy {W : Type} (bad : Component -> bool) (read : string -> W -> option bytes) (write : string -> bytes -> W -> W)
    (answer : ClusterJoinRequested -> W -> (list Arrival * bytes) * W) : Machine W := {|
  PrivKey := bytes; platform := {| pl_GOOS := "linux"; pl_home := Some "/root"; pl_APPDATA := ""; pl_Join := FilePath.Join |};
  NewMultiaddr := fun _ => true; IDFromPrivateKey := fun _ => Some "n1"; MarshalPrivateKey := Some; UnmarshalPrivateKey := Some;
  GenerateKeyPair := fun w => (Some [Ascii.one], w); os_ReadFile := fun p w => (match read p w with Some b => Ok b | None => Err true end, w);
  os_MkdirAll := fun _ w => (true, w); os_WriteFile := fun p b w => (true, write p b w); mc_start := fun c _ w => (negb (bad c), w); mc_stop := fun _ w => w;
  mc_Departing := fun _ w => w; mc_RegisterCertConfig := fun _ _ w => w; mc_JoinRequested := answer; mc_StartMonitor := fun _ _ w => (true, w);
  mc_StopMonitor := fun _ w => w; mc_MetricsJoin := fun _ w => (true, w); mc_MetricsLeave := fun _ w => w; mc_OpenElectionTopic := fun _ w => (Ok tt, w);
  mc_JoinOrbit := fun _ _ w => (true, w); mc_CreateCapsule := fun _ _ w => (true, w); mc_CapsulesLeave := fun _ w => w; mc_AuthLeave := fun _ w => w;
  time_Now := fun w => (0, w); mc_CapsuleStore := fun _ => None; mc_StateProvider := fun _ => Err ""; mc_CapsuleLookup := fun _ _ => [];
  mc_DelayStrategy := delay_strategy Delay.New |}.

Definition disk (bad : Component -> bool) (arrivals : list Arrival) : Machine (gmap string bytes) :=
  toy bad (fun p w => w !! p) (fun p b w => <[p := b]> w) (fun r w => ((arrivals, cj_PSK r), w)).
Definition all_start (_ : Component) : bool := false.

#[local] Existing Instance NodeDemo.toy_aead.

Lemma disk_laws bad arr : KeyLaws (disk bad arr).
Proof.
  split; [|by intros k b [= ->]]. intros p b w w' Hw. change ((true, <[p := b]> w) = (true, w')) in Hw. injection Hw as <-. exists (<[p := b]> w).
  change ((match (<[p := b]> w : gmap string bytes) !! p with Some b => Ok b | None => Err true end, <[p := b]> w) = (Ok b, <[p := b]> w)). by rewrite lookup_insert_eq.
Qed.

Lemma keys_identity_kept_witness : let M := disk all_start [] in exists w'', LoadOrGenerateKey (M := M) "/k" (snd (LoadOrGenerateKey (M := M) "/k" ∅)) = (Ok ([Ascii.one], false), w'').
Proof.
  cbv zeta. pose proof (keys_identity_kept (M := disk all_start []) (L := disk_laws all_start []) "/k" ∅ ltac:(discriminate)) as H. exact (proj2 H).
Defined.

Definition cluster : string := "us/dc1/prod".
Definition demo_weights : Weights := DefaultWeights.
Definition cluster_config : ClusterConfig :=
  {| cl_Path := cluster; cl_PSK := replicate 32 Ascii.one; cl_BootstrapPeers := []; cl_Certificates := None; cl_Orbits := []; cl_Capsules := [];
     cl_Election := Some {| ce_Algorithm := "delay"; ce_Timeout := 5; ce_Weights := Some demo_weights |} |}.

Lemma node_credentials_unused_witness : let M := disk all_start [AJoined cluster] in
  n_runtimeHandler (run_ops (M := M) [OStart; OJoin cluster_config] (New [WithRuntime true], ∅)).1 = Some {| rw_sek := None; rw_snapshots := true; rw_puller := false |} /\
  is_Some (n_secretsKey (run_ops (M := M) [OStart; OJoin cluster_config] (New [WithRuntime true], ∅)).1) /\ x_RegistryUsername (rt_spec None CapsuleTypes.zero_spec) = "".
Proof.
  cbv zeta. set (M := disk all_start [AJoined cluster]). set (n := (run_ops (M := M) [OStart; OJoin cluster_config] (New [WithRuntime true], ∅)).1).
  assert (H1 : n_runtimeHandler n = Some {| rw_sek := None; rw_snapshots := true; rw_puller := false |}) by (vm_compute; reflexivity).
  assert (H2 : n_cancelled n = false) by (vm_compute; reflexivity). split; [exact H1|]. split; [apply (bool_decide_unpack (is_Some (n_secretsKey n))); vm_compute; exact I|].
  exact (proj1 (node_credentials_unused (M := M) [WithRuntime true] [OStart; OJoin cluster_config] ∅ _ CapsuleTypes.zero_spec H2 H1)).
Defined.

(** The syncer does not start. *)
Definition no_syncer (c : Component) : bool := bool_decide (c = CSyncer).

(** The context ends before the cluster is joined. *)
Lemma node_join_exact_witness : let M := disk all_start [AJoined "other"; ADone; AJoined cluster] in let running := (Start (M := M) (New [], ∅)).2 in
  n_state running.1 = nodeStateRunning /\ (Join cluster_config running).1 = Some EContext /\
  Leave cluster (Join cluster_config running).2 = (Some (ENotMember cluster), (Join cluster_config running).2).
Proof.
  cbv zeta. set (M := disk all_start [AJoined "other"; ADone; AJoined cluster]). set (running := (Start (M := M) (New [], ∅)).2).
  assert (Hs : n_state running.1 = nodeStateRunning) by (vm_compute; reflexivity). assert (Hr : (Join (M := M) cluster_config running).1 = Some EContext) by (vm_compute; reflexivity).
  split; [exact Hs|]. split; [exact Hr|]. assert (Hm : n_joinedClusters running.1 !! cluster = None) by (vm_compute; reflexivity).
  pose proof (node_join_exact (M := M) cluster_config running Hs) as H. cbv zeta in H. clearbody running. destruct (Join (M := M) cluster_config running) as [r nw'].
  cbn [fst snd] in *. destruct H as (_ & _ & H). destruct H as [_ H]; [by rewrite Hr|]. exact (H Hm).
Defined.

Lemma node_override_drops_lookup_witness : let M := disk all_start [AJoined cluster] in let running := (Start (M := M) (New [], ∅)).2 in
  exists m calc, n_electionManager (Join cluster_config running).2.1 = Some m /\ calculatorFor cluster m = Some calc /\ timeoutFor cluster m = 5 /\
    forall c st, already_running c st (lookup calc) = false.
Proof.
  cbv zeta. set (M := disk all_start [AJoined cluster]). set (running := (Start (M := M) (New [], ∅)).2).
  assert (Hr : (Join (M := M) cluster_config running).1 = None) by (vm_compute; reflexivity).
  assert (Hm : is_Some (n_electionManager running.1)) by (apply (bool_decide_unpack (is_Some (n_electionManager running.1))); vm_compute; exact I). clearbody running. destruct Hm as [m Hm].
  destruct (node_override_drops_lookup (M := M) cluster_config running m _ demo_weights Hm eq_refl eq_refl Hr) as (m' & calc & H1 & H2 & _ & H3 & H4).
  exists m', calc. split; [exact H1|]. split; [exact H2|]. split; [exact H4|exact H3].
Defined.

End ToyMachine.
