(* ===== verification/NodeOrder.v ===== *)
(** * The order of start and shutdown

    Every machine can be observed: [logged] records the calls a node makes on
    its components.  The theorems are about the calls of [Start], [Stop] and of
    whole runs, on every machine. *)

From stdpp Require Import sorting.
From S2P Require Import Prelude ElectionTopic FilePath Float64 CapsuleTypes CapsuleSpec Gravity Elector Delay RuntimeNode.
From S2P Require Import Auth Handshake ElectionManager Node.
Import secrets.
Local Open Scope string_scope.
Local Open Scope list_scope.
Local Open Scope Z_scope.

(** A component is started, or a monitor, with a context that may be cancelled. *)
Inductive Call :=
  | KStart (c : Component) (cancelled : bool) | KStop (c : Component) | KDeparting (id : string) | KRegisterCertConfig (clusterPath : string)
  | KJoinRequested (clusterPath : string) | KStartMonitor (clusterPath : string) (cancelled : bool) | KStopMonitor (clusterPath : string)
  | KMetricsJoin (clusterPath : string) | KMetricsLeave (clusterPath : string) | KOpenElectionTopic (clusterPath : string)
  | KJoinOrbit (clusterPath orbit : string) | KCreateCapsule (clusterPath : string) (spec : CapsuleSpec) | KCapsulesLeave (clusterPath : string)
  | KAuthLeave (clusterPath : string).

Definition unlogged {W X} (f : ST W X) : ST (W * list Call) X := fun wl => let '(x, w) := f wl.1 in (x, (w, wl.2)).
Definition noted {W X} (k : Call) (f : ST W X) : ST (W * list Call) X := fun wl => let '(x, w) := f wl.1 in (x, (w, wl.2 ++ [k])).
Definition noted_do {W} (k : Call) (f : W -> W) (wl : W * list Call) : W * list Call := (f wl.1, wl.2 ++ [k]).

#[export] Instance logged {W} (M : Machine W) : Machine (W * list Call) := {
  PrivKey := @PrivKey W M; platform := platform; NewMultiaddr := NewMultiaddr; IDFromPrivateKey := IDFromPrivateKey;
  MarshalPrivateKey := MarshalPrivateKey; UnmarshalPrivateKey := UnmarshalPrivateKey; GenerateKeyPair := unlogged GenerateKeyPair;
  os_ReadFile := fun p => unlogged (os_ReadFile p); os_MkdirAll := fun p => unlogged (os_MkdirAll p);
  os_WriteFile := fun p b => unlogged (os_WriteFile p b);
  mc_start := fun c b => noted (KStart c b) (mc_start c b); mc_stop := fun c => noted_do (KStop c) (mc_stop c);
  mc_Departing := fun i => noted_do (KDeparting i) (mc_Departing i);
  mc_RegisterCertConfig := fun p c => noted_do (KRegisterCertConfig p) (mc_RegisterCertConfig p c);
  mc_JoinRequested := fun r => noted (KJoinRequested (cj_ClusterPath r)) (mc_JoinRequested r);
  mc_StartMonitor := fun p b => noted (KStartMonitor p b) (mc_StartMonitor p b); mc_StopMonitor := fun p => noted_do (KStopMonitor p) (mc_StopMonitor p);
  mc_MetricsJoin := fun p => noted (KMetricsJoin p) (mc_MetricsJoin p); mc_MetricsLeave := fun p => noted_do (KMetricsLeave p) (mc_MetricsLeave p);
  mc_OpenElectionTopic := fun p => noted (KOpenElectionTopic p) (mc_OpenElectionTopic p);
  mc_JoinOrbit := fun p o => noted (KJoinOrbit p o) (mc_JoinOrbit p o);
  mc_CreateCapsule := fun p s => noted (KCreateCapsule p s) (mc_CreateCapsule p s);
  mc_CapsulesLeave := fun p => noted_do (KCapsulesLeave p) (mc_CapsulesLeave p); mc_AuthLeave := fun p => noted_do (KAuthLeave p) (mc_AuthLeave p);
  time_Now := unlogged time_Now; mc_CapsuleStore := mc_CapsuleStore; mc_StateProvider := mc_StateProvider; mc_CapsuleLookup := mc_CapsuleLookup;
  mc_DelayStrategy := mc_DelayStrategy
}.

(** What a component is given when it is created ([Start] and the functions it
    calls).  What the host and the bus call back without a component that is
    stopped, the snapshot transfer server and the runtime bridge, is not here:
    nothing stops it. *)
Definition given (c : Component) : list Component :=
  match c with
  | CHost | CEventBus | CPhonebook => []
  | CPubSub | CPing | CSnapshots => [CHost]
  | CPhonebookSubscriber => [CPhonebook; CEventBus]
  | CAuthenticator => [CHost; CPubSub; CEventBus; CPhonebook]
  | CSyncer => [CHost; CPhonebook; CEventBus; CAuthenticator]
  | CReauth => [CAuthenticator; CPhonebook; CEventBus]
  | CMetrics => [CPubSub; CPhonebook]
  | CCapsules => [CEventBus; CPubSub; CPhonebook]
  | CElection => [CCapsules; CMetrics; CEventBus; CPubSub; CPhonebook]
  | CElectionHandler => [CElection; CEventBus]
  | CRuntime => [CCapsules; CEventBus; CSnapshots]
  end.
(** What it is given afterwards: the capsule handler, which exists before the
    election manager, calls it for every capsule that is deleted
    ([SetElectionForgetter]). *)
Definition wired (c : Component) : list Component := match c with CCapsules => [CElection] | _ => [] end.
(** A component uses all of these until it is stopped. *)
Definition uses (c : Component) : list Component := given c ++ wired c.
(** And a health monitor these. *)
Definition monitor_uses : list Component := [CHost; CPubSub; CPhonebook; CEventBus; CPing; CAuthenticator].
(** No component of the list is given one that comes after it. *)
Definition bottom_up (cs : list Component) : Prop := StronglySorted (fun x y => y ∉ given x) cs.
(** No component of the list is used by one that comes after it, but the
    election manager by the capsule handler. *)
Definition top_down (cs : list Component) : Prop := StronglySorted (fun x y => (x, y) = (CElection, CCapsules) \/ x ∉ uses y) cs.

Section Order.
Context {W : Type} `{M : Machine W} `{A : Aead} `{R : GoRange}.
#[local] Existing Instance logged.

Let NWL : Type := @NW (W * list Call) (logged M).
Definition calls (nw : NWL) : list Call := nw.2.2.

(** *** Start *)

(** A step that starts these components, when it succeeds. *)
Definition starts (f : ST NWL bool) (cs : list Component) : Prop :=
  forall nw nw', f nw = (true, nw') -> calls nw' = calls nw ++ ((fun c => KStart c (n_cancelled nw.1)) <$> cs).

Lemma start_component_calls c (nw : NWL) : calls (start_component c nw).2 = calls nw ++ [KStart c (n_cancelled nw.1)].
Proof. destruct nw as [n [w l]]. unfold start_component, on_machine, calls. cbn. unfold noted. cbn. by destruct (mc_start _ _ w). Qed.

Lemma mkdir_calls p (nw : NWL) : calls (on_machine (os_MkdirAll p) nw).2 = calls nw /\ (on_machine (os_MkdirAll p) nw).2.1 = nw.1.
Proof. destruct nw as [n [w l]]. unfold on_machine, calls. cbn. unfold unlogged. cbn. by destruct (os_MkdirAll p w). Qed.

Lemma starts_initialize c : starts (initialize c) [c].
Proof.
  intros nw nw'. unfold initialize. pose proof (start_component_calls c nw) as Hc. destruct (start_component c nw) as [[] nw1]; [|done]. intros [= <-]. exact Hc.
Qed.
Lemma starts_assign_and_start c : starts (assign_and_start c) [c].
Proof. intros nw nw' E. unfold assign_and_start in E. pose proof (start_component_calls c (assign c nw.1, nw.2)) as Hc. by rewrite E in Hc. Qed.
Lemma starts_infallible c : starts (infallible c) [c].
Proof.
  intros nw nw'. unfold infallible, assign_and_start. pose proof (start_component_calls c (assign c nw.1, nw.2)) as Hc.
  destruct (start_component c _) as [b nw1]. by intros [= <-].
Qed.
Lemma starts_stored dir c : starts (initialize_stored dir c) [c].
Proof.
  intros nw nw'. unfold initialize_stored. destruct (mkdir_calls (dir nw.1) nw) as [H1 H2]. destruct (on_machine _ nw) as [[] nw1]; [|done]. cbn [negb snd] in *.
  intros E. apply starts_initialize in E. by rewrite E, H1, H2.
Qed.
Lemma starts_host : starts initializeHost [CHost].
Proof. intros nw nw'. unfold initializeHost. destruct (forallb _ _); [|done]. cbn [negb]. apply (starts_initialize CHost nw nw'). Qed.

Lemma LoadKey_calls p wl : (LoadKey (W := W * list Call) p wl).2.2 = wl.2.
Proof. unfold LoadKey. cbn. unfold unlogged. destruct (os_ReadFile p wl.1) as [[b|[]] w]; cbn; [by destruct (@UnmarshalPrivateKey W M b)|done|done]. Qed.
Lemma SaveKey_calls k p wl : (SaveKey (W := W * list Call) k p wl).2.2 = wl.2.
Proof.
  unfold SaveKey. cbn. destruct (@MarshalPrivateKey W M k); [|done]. unfold unlogged. destruct (os_MkdirAll _ wl.1) as [[] w]; cbn; [|done]. by destruct (os_WriteFile _ _ w) as [[] w'].
Qed.
Lemma generate_calls p wl : (generate_and_save (W := W * list Call) p wl).2.2 = wl.2.
Proof.
  unfold generate_and_save. cbn. unfold unlogged. destruct (GenerateKeyPair wl.1) as [[k|] w]; cbn; [|done]. destruct (p =s ""); [done|].
  pose proof (SaveKey_calls k p (w, wl.2)) as Hs. by destruct (SaveKey (M := logged M) k p (w, wl.2)) as [[] wl'].
Qed.
Lemma LoadOrGenerateKey_calls p wl : (LoadOrGenerateKey (W := W * list Call) p wl).2.2 = wl.2.
Proof.
  unfold LoadOrGenerateKey. destruct (p =s ""); [apply generate_calls|]. pose proof (LoadKey_calls p wl) as Hl. destruct (LoadKey p wl) as [[k|[]] wl']; cbn in *; try done.
  by rewrite generate_calls.
Qed.
Lemma identity_calls (nw : NWL) : calls (initializeIdentity nw).2 = calls nw.
Proof.
  destruct nw as [n wl]. unfold initializeIdentity, calls. set (r := match n_privateKey n with Some _ => _ | None => _ end).
  assert (Hr : r.2.2 = wl.2).
  { unfold r. destruct (n_privateKey n); [done|]. pose proof (mkdir_calls (DataDir n) (n, wl)) as [H1 _]. unfold on_machine, calls in H1. cbn [fst snd] in H1.
    destruct (os_MkdirAll (DataDir n) wl) as [[] wl1]; [|done]. cbn [negb snd] in *. pose proof (LoadOrGenerateKey_calls (pl_Join platform [DataDir n; DefaultKeyFileName]) wl1) as H2.
    destruct (LoadOrGenerateKey _ wl1) as [[[k g]|e] wl2]; cbn in *; by rewrite H2, H1. }
  clearbody r. destruct r as [[k|] wl']; cbn [snd] in *; [by destruct (IDFromPrivateKey k)|done].
Qed.
Lemma starts_identity : starts initializeIdentity [].
Proof. intros nw nw' E. pose proof (identity_calls nw) as Hc. rewrite E in Hc. cbn in *. by rewrite app_nil_r. Qed.
Lemma starts_election : starts initializeElectionManager [CElection; CElectionHandler].
Proof.
  intros nw nw'. unfold initializeElectionManager. destruct (negb _ || negb _); [done|]. pose proof (start_component_calls CElection nw) as H1.
  pose proof (start_component_node CElection nw) as N1. destruct (start_component CElection nw) as [b1 nw1]. cbn [snd] in *.
  match goal with |- context [start_component CElectionHandler ?x] => set (nw2 := x) end. pose proof (start_component_calls CElectionHandler nw2) as H2.
  destruct (start_component CElectionHandler nw2) as [b2 nw3]. intros [= <-]. cbn [snd] in H2. unfold calls in *. cbn [snd fst] in *. rewrite H2. unfold nw2. cbn [fst snd]. rewrite H1, N1.
  by rewrite <- app_assoc.
Qed.

Lemma start_steps_start : Forall2 (fun s cs => starts s.1.1 cs) start_steps started_by.
Proof.
  unfold start_steps, started_by, initializePubSub, initializePhonebook, initializeMetricsManager, initializeCapsuleHandler.
  repeat first [apply List.Forall2_nil | apply List.Forall2_cons; cbn [fst snd]]; auto using starts_initialize, starts_assign_and_start, starts_infallible,
    starts_stored, starts_host, starts_identity, starts_election.
Qed.

Lemma run_steps_calls steps css (nw nw' : NWL) : Forall (fun s => growing s.1.1) steps -> Forall2 (fun s cs => starts s.1.1 cs) steps css ->
  run_steps steps nw = (None, nw') -> calls nw' = calls nw ++ ((fun c => KStart c (n_cancelled nw.1)) <$> concat css).
Proof.
  intros Hg Hs. revert nw Hg. induction Hs as [|[[f fl] e] cs steps css Hf _ IH]; intros nw Hg; cbn [run_steps concat]; [intros [= <-]; by rewrite app_nil_r|].
  apply list.Forall_cons in Hg as [Hg1 Hg]. specialize (Hg1 nw). cbn [fst] in *. destruct (f nw) as [[] nw1] eqn:E; [|done]. intros Hr. rewrite (IH nw1 Hg Hr).
  pose proof (gr_cancelled _ _ Hg1) as Hk. cbn [fst snd] in Hk. rewrite Hk, (Hf nw nw1 E). by rewrite fmap_app, <- app_assoc.
Qed.

Lemma runtime_calls (nw : NWL) : op_runtime (n_set nw.1) = true -> exists snap, (snap = [] \/ snap = [CSnapshots]) /\
  calls (start_runtime nw) = calls nw ++ ((fun c => KStart c (n_cancelled nw.1)) <$> snap ++ [CRuntime]).
Proof.
  intros Ho. unfold start_runtime. rewrite Ho.
  assert (H1 : exists snap, (snap = [] \/ snap = [CSnapshots]) /\ calls (initializeSnapshotStore nw).2 = calls nw ++ ((fun c => KStart c (n_cancelled nw.1)) <$> snap)).
  { unfold initializeSnapshotStore, initialize_stored. match goal with |- context [os_MkdirAll ?p] => destruct (mkdir_calls p nw) as [H1 H2] end.
    destruct (on_machine _ nw) as [[] nw1]; cbn [negb snd] in *; [|exists []; split; [by left|by rewrite app_nil_r]]. exists [CSnapshots]. split; [by right|].
    unfold initialize. pose proof (start_component_calls CSnapshots nw1) as H3. destruct (start_component CSnapshots nw1) as [b nw2]. cbn [snd] in *.
    rewrite H1, H2 in H3. by destruct b. }
  destruct H1 as (snap & Hs & Hc). exists snap. split; [done|]. assert (Hg : n_cancelled (initializeSnapshotStore nw).2.1 = n_cancelled nw.1).
  { exact (gr_cancelled _ _ (growing_stored (fun n => pl_Join platform [DataDir n; "snapshots"]) CSnapshots nw)). }
  destruct (initializeSnapshotStore nw) as [b nw1]. cbn [snd] in *. unfold initializeRuntimeHandler.
  pose proof (start_component_calls CRuntime nw1) as H4. destruct (start_component CRuntime nw1) as [b2 nw2]. cbn [snd] in *. unfold calls in *. cbn [snd fst].
  rewrite H4, Hc, Hg, fmap_app, <- app_assoc. done.
Qed.

(** The orders of the lists of this file, by evaluation. *)
Ltac decide_order := repeat first [apply SSorted_nil | apply SSorted_cons | apply list.Forall_nil | apply list.Forall_cons; split]; by apply (bool_decide_unpack _).

(** A successful start creates every component once, after the
    ones it is given: the calls are exactly the components of every node, then the
    runtime handler of a node that has a runtime, after the snapshot store
    unless its directory cannot be made, all with the node's context. *)
Theorem node_start_order (nw nw' : NWL) (Hs : Start nw = (None, nw')) :
  exists opt, calls nw' = calls nw ++ ((fun c => KStart c (n_cancelled nw.1)) <$> core_components ++ opt) /\ bottom_up (core_components ++ opt) /\
    NoDup (core_components ++ opt) /\ if op_runtime (n_set nw.1) then opt = [CRuntime] \/ opt = [CSnapshots; CRuntime] else opt = [].
Proof.
  unfold Start in Hs. destruct (n_state nw.1 =s nodeStateStopped); [|done]. cbn [negb] in Hs. destruct (run_steps start_steps _) as [[e|] nw1] eqn:E; [done|]. injection Hs as <-.
  pose proof (run_steps_calls _ _ _ _ start_steps_growing start_steps_start E) as Hc. pose proof (run_steps_grows _ _ _ start_steps_growing E) as Hg.
  pose proof (gr_set _ _ Hg) as Hset. pose proof (gr_cancelled _ _ Hg) as Hcan. cbn [fst n_set n_cancelled setState] in *.
  fold core_components in Hc. change (calls (setState nodeStateInitializing nw.1, nw.2)) with (calls nw) in Hc. change (calls (setState nodeStateRunning (start_runtime nw1).1, (start_runtime nw1).2)) with (calls (start_runtime nw1)).
  destruct (op_runtime (n_set nw.1)) eqn:Ho.
  - destruct (runtime_calls nw1) as (snap & Hsn & Hcr); [by rewrite Hset|]. exists (snap ++ [CRuntime]). rewrite Hcr, Hc, Hcan, fmap_app, fmap_app, fmap_app, <- app_assoc.
    split; [done|]. destruct Hsn as [-> | ->]; cbn [app]; (split_and!; [unfold bottom_up; vm_compute core_components; decide_order|by apply (bool_decide_unpack _)|auto]).
  - exists []. rewrite !app_nil_r. split_and!; [|unfold bottom_up; vm_compute core_components; decide_order|by apply (bool_decide_unpack _)|done].
    unfold start_runtime. by rewrite Hset, Ho.
Qed.

(** *** Shutdown *)

Definition upper_components : list Component := [CRuntime; CElectionHandler; CElection; CCapsules; CMetrics].
Definition lower_components : list Component :=
  [CPing; CReauth; CSyncer; CAuthenticator; CPhonebookSubscriber; CSnapshots; CPhonebook; CEventBus; CHost].

Lemma stop_all_calls cs (nw : NWL) : calls (stop_all cs nw) = calls nw ++ (KStop <$> filter (fun c => built c nw.1 = true) cs).
Proof.
  revert nw. induction cs as [|c cs IH]; intros nw; [by rewrite app_nil_r|]. unfold stop_all in *. cbn [fold_left]. rewrite IH, stop_component_node. unfold stop_component.
  rewrite filter_cons. destruct (built c nw.1); cbn [decide snd]; [|done]. destruct nw as [n [w l]]. unfold calls. cbn. by rewrite <- app_assoc.
Qed.
Lemma monitors_calls (ms : list (string * unit)) (wl : W * list Call) :
  (fold_left (fun w m => mc_StopMonitor (fst m) w) ms wl).2 = wl.2 ++ (KStopMonitor <$> ms.*1).
Proof.
  revert wl. induction ms as [|m ms IH]; intros wl; cbn [fold_left fmap list_fmap]; [by rewrite app_nil_r|]. rewrite IH. cbn. by rewrite <- app_assoc.
Qed.

Lemma cleanup_calls (nw : NWL) : calls (cleanup nw) = calls nw ++ (KStop <$> filter (fun c => built c nw.1 = true) upper_components) ++
  (KStopMonitor <$> (range (n_healthMonitors nw.1)).*1) ++ (KStop <$> filter (fun c => built c nw.1 = true) lower_components).
Proof.
  unfold cleanup. rewrite stop_all_calls. set (nw1 := stop_all [CRuntime; CElectionHandler; CElection] nw).
  set (nw2 := (set_election (ElectionManager.Stop <$> n_electionManager nw1.1) nw1.1, nw1.2)). set (nw3 := stop_all [CCapsules; CMetrics] nw2).
  assert (N1 : nw1.1 = nw.1) by apply stop_all_node. assert (N3 : nw3.1 = nw2.1) by apply stop_all_node.
  assert (C1 : calls nw1 = calls nw ++ (KStop <$> filter (fun c => built c nw.1 = true) [CRuntime; CElectionHandler; CElection])) by apply stop_all_calls.
  assert (C3 : calls nw3 = calls nw2 ++ (KStop <$> filter (fun c => built c nw2.1 = true) [CCapsules; CMetrics])) by apply stop_all_calls.
  unfold stop_monitors. unfold calls at 1. cbn [fst snd]. rewrite monitors_calls. fold (calls nw3). rewrite C3. change (calls nw2) with (calls nw1). rewrite C1, N3. unfold nw2. cbn [fst]. rewrite N1.
  cbn [set_election n_healthMonitors]. unfold upper_components. change [CRuntime; CElectionHandler; CElection; CCapsules; CMetrics] with ([CRuntime; CElectionHandler; CElection] ++ [CCapsules; CMetrics]).
  rewrite list.filter_app, fmap_app, <- !app_assoc. done.
Qed.

Lemma sorted_filter (r : Component -> Component -> Prop) (f : Component -> bool) cs : StronglySorted r cs -> StronglySorted r (filter (fun c => f c = true) cs).
Proof.
  induction 1 as [|c cs _ IH Hc]; [constructor|]. rewrite filter_cons. case_decide; [|done]. constructor; [done|]. rewrite list.Forall_forall in *.
  intros x Hx. apply list_elem_of_filter in Hx as [_ Hx]. by apply Hc.
Qed.

Lemma all_components c : c ∈ upper_components ++ lower_components <-> c <> CPubSub.
Proof. destruct c; split; intros Hc; first [done | by apply (bool_decide_unpack _) | by apply (bool_decide_pack _) in Hc]. Qed.

Lemma calls_state st (nw : NWL) : calls (setState st nw.1, nw.2) = calls nw.
Proof. done. Qed.

Lemma cleanup_built (nw : NWL) : n_built (cleanup nw).1 = n_built nw.1.
Proof. by rewrite cleanup_node. Qed.

(** What [cleanup] stops, and in which order. *)
Lemma cleanup_stops (nw : NWL) : exists upper lower monitors,
  calls (cleanup nw) = calls nw ++ ((KStop <$> upper) ++ (KStopMonitor <$> monitors) ++ (KStop <$> lower)) /\
  top_down (upper ++ lower) /\ NoDup (upper ++ lower) /\ (forall c, c ∈ upper ++ lower <-> c ∈ n_built nw.1 /\ c <> CPubSub) /\
  (forall path, path ∈ monitors <-> path ∈ dom (n_healthMonitors nw.1)) /\ NoDup monitors /\ (forall c, c ∈ monitor_uses -> c ∉ upper) /\
  (CElection ∈ n_built nw.1 -> CCapsules ∈ n_built nw.1 -> exists before after, upper = before ++ [CElection; CCapsules] ++ after /\ CElection ∈ uses CCapsules).
Proof.
  rewrite cleanup_calls.
  exists (filter (fun c => built c nw.1 = true) upper_components), (filter (fun c => built c nw.1 = true) lower_components), ((range (n_healthMonitors nw.1)).*1).
  rewrite <- list.filter_app. split; [done|]. split_and!.
  - apply sorted_filter. unfold top_down. decide_order.
  - apply list.NoDup_filter. by apply (bool_decide_unpack _).
  - intros c. rewrite list_elem_of_filter, all_components. unfold built. by rewrite bool_decide_eq_true.
  - intros path. rewrite (fmap_Permutation _ _ _ (range_perm _ (n_healthMonitors nw.1))), elem_of_dom. split.
    + intros [[p u] [-> Hp]]%list_elem_of_fmap. apply elem_of_map_to_list in Hp. by exists u.
    + intros [u Hu]. apply list_elem_of_fmap. exists (path, u). split; [done|by apply elem_of_map_to_list].
  - rewrite (fmap_Permutation _ _ _ (range_perm _ (n_healthMonitors nw.1))). apply NoDup_fst_map_to_list.
  - intros c Hm. rewrite list_elem_of_filter. intros [_ Hp]. assert (Hall : Forall (fun c => c ∉ upper_components) monitor_uses) by (apply (bool_decide_unpack _); by vm_compute).
    rewrite list.Forall_forall in Hall. by apply (Hall c).
  - intros He Hcap. assert (Hb : forall c, c ∈ n_built nw.1 -> built c nw.1 = true) by (intros c Hin; unfold built; by apply bool_decide_eq_true).
    unfold upper_components. rewrite !list.filter_cons. rewrite !(decide_True _ _ (Hb _ He)), (decide_True _ _ (Hb _ Hcap)).
    destruct (decide (built CRuntime _ = true)), (decide (built CElectionHandler _ = true));
      [exists [CRuntime; CElectionHandler]|exists [CRuntime]|exists [CElectionHandler]|exists []]; (eexists; split; [reflexivity|]); by apply (bool_decide_unpack _).
Qed.

(** C29: shutting down.  A node that is neither stopped nor being stopped
    stops each of the components it has exactly once (PubSub ends with the
    context).  None is stopped while a component that is stopped later still
    uses it, with one exception: the election manager is stopped right before
    the capsule handler, which holds it as the forgetter of deleted capsules
    and can still call it.  The health monitors are stopped after the upper
    components and before everything they use; the context is cancelled. *)
Theorem node_stop_order (nw : NWL) (Hs : n_state nw.1 <> nodeStateStopped) (Hd : n_state nw.1 <> nodeStateShuttingDown) :
  exists upper lower monitors, calls (Stop nw) = calls nw ++ ((KStop <$> upper) ++ (KStopMonitor <$> monitors) ++ (KStop <$> lower)) /\
    top_down (upper ++ lower) /\ NoDup (upper ++ lower) /\ (forall c, c ∈ upper ++ lower <-> c ∈ n_built nw.1 /\ c <> CPubSub) /\
    (forall path, path ∈ monitors <-> path ∈ dom (n_healthMonitors nw.1)) /\ NoDup monitors /\ (forall c, c ∈ monitor_uses -> c ∉ upper) /\
    (CElection ∈ n_built nw.1 -> CCapsules ∈ n_built nw.1 -> exists before after, upper = before ++ [CElection; CCapsules] ++ after /\ CElection ∈ uses CCapsules) /\
    n_state (Stop nw).1 = nodeStateStopped /\ n_cancelled (Stop nw).1 = true.
Proof.
  apply String.eqb_neq in Hs, Hd. set (nw0 := (cancel (setState nodeStateShuttingDown nw.1), nw.2)).
  assert (Hc : calls (Stop nw) = calls (cleanup nw0)) by (unfold Stop; rewrite Hs, Hd; apply calls_state). pose proof (Stop_node nw) as Hn. rewrite Hs, Hd in Hn. cbn [orb] in Hn.
  destruct (cleanup_stops nw0) as (upper & lower & monitors & H1 & H2 & H3 & H4 & H5 & H6 & H7 & H8). exists upper, lower, monitors. rewrite Hc, Hn. by split_and!.
Qed.

(** *** A start that fails *)

(** A step that fails has tried to start its own components, or nothing. *)
Definition tries (f : ST NWL bool) (cs : list Component) : Prop := forall nw nw', f nw = (false, nw') ->
  exists own, calls nw' = calls nw ++ own /\ (own = [] \/ own = (fun c => KStart c (n_cancelled nw.1)) <$> cs).

Lemma tries_initialize c : tries (initialize c) [c].
Proof.
  intros nw nw'. unfold initialize. pose proof (start_component_calls c nw) as Hc. destruct (start_component c nw) as [[] nw1]; [done|]. intros [= <-]. eauto.
Qed.
Lemma tries_assign_and_start c : tries (assign_and_start c) [c].
Proof. intros nw nw' E. unfold assign_and_start in E. pose proof (start_component_calls c (assign c nw.1, nw.2)) as Hc. rewrite E in Hc. eauto. Qed.
Lemma tries_infallible c : tries (infallible c) [c].
Proof. intros nw nw'. unfold infallible. by destruct (assign_and_start c nw). Qed.
Lemma tries_stored dir c : tries (initialize_stored dir c) [c].
Proof.
  intros nw nw'. unfold initialize_stored. destruct (mkdir_calls (dir nw.1) nw) as [H1 H2]. destruct (on_machine _ nw) as [[] nw1]; cbn [negb snd] in *.
  - intros E. apply tries_initialize in E as (own & E & Ho). exists own. by rewrite E, H1, <- H2.
  - intros [= <-]. exists []. rewrite H1, app_nil_r. auto.
Qed.
Lemma tries_nothing f cs : (forall nw, (f nw).1 = false -> calls (f nw).2 = calls nw) -> tries f cs.
Proof. intros Hf nw nw' E. specialize (Hf nw). rewrite E in Hf. exists []. rewrite app_nil_r. split; [by apply Hf|auto]. Qed.
Lemma tries_identity : tries initializeIdentity [].
Proof. apply tries_nothing. intros nw _. apply identity_calls. Qed.
Lemma tries_host : tries initializeHost [CHost].
Proof.
  intros nw nw'. unfold initializeHost. destruct (forallb _ _); cbn [negb]; [apply (tries_initialize CHost nw nw')|].
  intros [= <-]. exists []. rewrite app_nil_r. auto.
Qed.
Lemma tries_election : tries initializeElectionManager [CElection; CElectionHandler].
Proof.
  apply tries_nothing. intros nw. unfold initializeElectionManager. destruct (negb _ || negb _); [done|]. destruct (start_component CElection nw) as [b1 nw1].
  match goal with |- context [start_component CElectionHandler ?x] => by destruct (start_component CElectionHandler x) end.
Qed.

Lemma start_steps_try : Forall2 (fun s cs => tries s.1.1 cs) start_steps started_by.
Proof.
  unfold start_steps, started_by, initializePubSub, initializePhonebook, initializeMetricsManager, initializeCapsuleHandler.
  repeat first [apply List.Forall2_nil | apply List.Forall2_cons; cbn [fst snd]]; auto using tries_initialize, tries_assign_and_start, tries_infallible,
    tries_stored, tries_host, tries_identity, tries_election.
Qed.

(** The steps before the one that fails have started and kept their components. *)
Lemma run_steps_cut steps css (nw nw' : NWL) e : Forall (fun s => growing s.1.1) steps -> Forall2 (fun s cs => provides s.1.1 cs) steps css ->
  Forall2 (fun s cs => starts s.1.1 cs) steps css -> Forall2 (fun s cs => tries s.1.1 cs) steps css -> run_steps steps nw = (Some e, nw') ->
  exists k f fl nw1 own, steps !! k = Some (f, fl, e) /\ grows nw.1 nw1.1 /\ nw' = failed fl nw1 /\ (forall c, c ∈ concat (take k css) -> c ∈ n_built nw1.1) /\
    calls nw1 = calls nw ++ ((fun c => KStart c (n_cancelled nw.1)) <$> concat (take k css)) ++ own /\
    (own = [] \/ exists cs, css !! k = Some cs /\ own = (fun c => KStart c (n_cancelled nw.1)) <$> cs).
Proof.
  intros Hg Hp. revert nw. induction Hp as [|[[f fl] e'] cs steps css Hp1 _ IH]; intros nw Hs Ht; cbn [run_steps]; [done|].
  apply list.Forall_cons in Hg as [Hg1 Hg]. apply Forall2_cons_1 in Hs as [Hs1 Hs]. apply Forall2_cons_1 in Ht as [Ht1 Ht]. cbn [fst] in *.
  specialize (Hg1 nw). destruct (f nw) as [[] nw1] eqn:E; cbn [snd] in Hg1.
  - intros Hr. destruct (IH Hg nw1 Hs Ht Hr) as (k & f' & fl' & nw2 & own & Hk & Hgr & -> & Hb & Hc & Ho). exists (S k), f', fl', nw2, own. cbn [lookup list_lookup take concat].
    pose proof (gr_cancelled _ _ Hg1) as Hcan. rewrite Hcan in Hc, Ho. split_and!; [done|by etrans|done| | |done].
    + intros c [Hin|Hin]%elem_of_app; [|by apply Hb]. apply (gr_built _ _ Hgr). apply (Hp1 nw nw1 E c Hin).
    + by rewrite Hc, (Hs1 nw nw1 E), fmap_app, <- !app_assoc.
  - intros [= <- <-]. destruct (Ht1 nw nw1 E) as (own & Hc & Ho). exists 0%nat, f, fl, nw1, own. split_and!; [done|done|done|by intros c Hc'%elem_of_nil|done|].
    destruct Ho as [->| ->]; [by left|right; eauto].
Qed.

(** C32: a start that fails.  When the identity or the host cannot be set up
    the node is stopped again and can be started again.  When a later
    component cannot be set up, the ones before it were started in their
    order, and each component the node has, these and those left from an
    earlier start among them, is stopped once (PubSub ends with the context),
    the health monitors too; but the state stays "initializing": from then on
    every start, drain and join is refused without any effect, and only
    [Stop], which cancels the context for good, gets the node out of it. *)
Theorem node_failed_start_stuck (nw : NWL) e nw' (Hs : n_state nw.1 = nodeStateStopped) (Hf : Start nw = (Some e, nw')) :
  (e = EIdentity \/ e = EHost) /\ n_state nw'.1 = nodeStateStopped \/
  (exists c before after own upper lower monitors, e = EComponent c /\ core_components = before ++ c :: after /\
    calls nw' = calls nw ++ ((fun c => KStart c (n_cancelled nw.1)) <$> before) ++ own ++
      ((KStop <$> upper) ++ (KStopMonitor <$> monitors) ++ (KStop <$> lower)) /\
    (own = [] \/ own = [KStart c (n_cancelled nw.1)] \/ own = [KStart c (n_cancelled nw.1); KStart CElectionHandler (n_cancelled nw.1)]) /\
    (forall x, x ∈ before -> x ∈ n_built nw'.1) /\
    NoDup (upper ++ lower) /\ (forall x, x ∈ upper ++ lower <-> x ∈ n_built nw'.1 /\ x <> CPubSub) /\
    NoDup monitors /\ (forall path, path ∈ monitors <-> path ∈ dom (n_healthMonitors nw.1))) /\
  n_cancelled (Stop nw').1 = true /\ n_state (Stop nw').1 = nodeStateStopped /\
  forall ops, OStop ∉ ops -> let later := run_ops ops nw' in
    Start later = (Some (ENotStopped nodeStateInitializing), later) /\ Drain later = (Some (ECannotDrain nodeStateInitializing), later) /\
    forall cfg, Join cfg later = (Some ENotRunning, later).
Proof.
  unfold Start in Hf. rewrite Hs in Hf. cbn [String.eqb negb] in Hf. destruct (run_steps start_steps _) as [[e'|] nw1] eqn:E; [|done]. injection Hf as <- <-.
  apply (run_steps_cut _ _ _ _ _ start_steps_growing start_steps_provide start_steps_start start_steps_try) in E
    as (k & f & fl & nw2 & own & Hk & Hgr & -> & Hb & Hc & Ho).
  pose proof (gr_state _ _ Hgr) as Hst. pose proof (gr_mon _ _ Hgr) as Hmon. cbn [fst setState n_state n_cancelled n_healthMonitors] in Hst, Hmon, Hc, Ho.
  assert (Hcase : (fl = FailStopped /\ (e' = EIdentity \/ e' = EHost)) \/ (fl = FailCleanup /\ exists c after, e' = EComponent c /\
    core_components = concat (take k started_by) ++ c :: after /\ (started_by !! k = Some [c] \/ started_by !! k = Some [c; CElectionHandler]))).
  { clear -Hk. unfold start_steps in Hk. do 13 (destruct k as [|k]; [cbn in Hk; injection Hk as _ <- <-; first [left; by auto | right; split; [done|]; eexists _, _; split; [reflexivity|];
      split; [reflexivity|by first [left; reflexivity|right; reflexivity]]]|]). done. }
  destruct Hcase as [[-> He]|[-> (c & after & -> & Hcore & Hone)]]; [by left|right]. cbn [failed].
  assert (Hi : n_state (cleanup nw2).1 = nodeStateInitializing) by (rewrite cleanup_node; exact Hst).
  split; [|split_and!; [rewrite Stop_node, Hi; done..|]; intros ops Hno; cbv zeta; pose proof (initializing_stays ops _ Hi Hno) as Hl; unfold Start, Drain, Join; by rewrite Hl].
  destruct (cleanup_stops nw2) as (upper & lower & monitors & Hcl & _ & Hnd & Hel & Hm & Hmd & _).
  exists c, (concat (take k started_by)), after, own, upper, lower, monitors. split; [done|]. split; [done|]. split_and!; try done.
  - rewrite Hcl, Hc, <- !app_assoc. done.
  - destruct Ho as [->|(cs & Hcs & ->)]; [by left|right]. destruct Hone as [Ho|Ho]; rewrite Ho in Hcs; injection Hcs as <-; auto.
  - intros x Hx. rewrite cleanup_built. by apply Hb.
  - intros x. by rewrite cleanup_built.
  - intros path. by rewrite Hm, Hmon.
Qed.

(** *** After a shutdown *)

(** Nothing is started with a context that lives. *)
Definition dead (k : Call) : Prop := match k with KStart _ cancelled | KStartMonitor _ cancelled => cancelled = true | _ => True end.

Section After.
Variable base : list Call.

Definition later (nw : NWL) : Prop := n_cancelled nw.1 = true /\ exists new, calls nw = base ++ new /\ Forall dead new.
Definition quiet {X} (f : ST (W * list Call) X) : Prop := forall wl, exists ks, (f wl).2.2 = wl.2 ++ ks /\ Forall dead ks.
Definition safe {X} (f : ST NWL X) : Prop := forall nw, later nw -> later (f nw).2.

Lemma quiet_unlogged {X} (f : ST W X) : quiet (unlogged f).
Proof. intros [w l]. exists []. unfold unlogged. cbn. destruct (f w). by rewrite app_nil_r. Qed.
Lemma quiet_noted {X} k (f : ST W X) : dead k -> quiet (noted k f).
Proof. intros Hk [w l]. exists [k]. unfold noted. cbn. destruct (f w). cbn. split; [done|by constructor]. Qed.
Lemma quiet_each {X} (f : X -> ST (W * list Call) bool) xs : (forall x, quiet (f x)) -> quiet (each f xs).
Proof.
  intros Hf. induction xs as [|x xs IH]; intros wl; cbn [each]; [exists []; by rewrite app_nil_r|]. destruct (Hf x wl) as (k1 & E1 & D1). destruct (f x wl) as [ok wl1]. cbn [snd] in E1.
  destruct (IH wl1) as (k2 & E2 & D2). destruct (each f xs wl1) as [rest wl2]. cbn [snd] in *. exists (k1 ++ k2). rewrite E2, E1, app_assoc. split; [done|by apply Forall_app].
Qed.

Lemma later_machine {X} (f : ST (W * list Call) X) nw : quiet f -> later nw -> later (on_machine f nw).2.
Proof.
  intros Hf [Hc (new & En & Hd)]. split; [by rewrite on_machine_node|]. destruct (Hf nw.2) as (ks & E & Hk). exists (new ++ ks).
  split; [|by apply Forall_app]. unfold calls, on_machine in *. destruct (f nw.2) as [x wl]. cbn [snd] in *. by rewrite E, En, app_assoc.
Qed.
Lemma later_node n' nw : n_cancelled n' = true -> later nw -> later (n', nw.2).
Proof. by intros Hc [_ Hn]. Qed.
Lemma later_state st nw : later nw -> later (setState st nw.1, nw.2).
Proof. by intros [Hc Hn]. Qed.
Lemma later_do k (f : W -> W) nw : dead k -> later nw -> later (nw.1, noted_do k f nw.2).
Proof. intros Hk [Hc (new & En & Hd)]. split; [done|]. exists (new ++ [k]). unfold calls in *. cbn. rewrite En, app_assoc. split; [done|]. apply Forall_app. by repeat constructor. Qed.

Lemma later_start c nw : later nw -> later (start_component c nw).2.
Proof. intros Hl. unfold start_component. apply later_machine; [|done]. cbn. apply quiet_noted. apply Hl. Qed.
Lemma safe_initialize c : safe (initialize c).
Proof.
  intros nw Hl. unfold initialize. pose proof (later_start c nw Hl) as Hs. destruct (start_component c nw) as [[] nw1]; [|done]. cbn [snd] in *. apply later_node; [apply Hs|done].
Qed.
Lemma safe_assign_and_start c : safe (assign_and_start c).
Proof. intros nw Hl. unfold assign_and_start. apply later_start. apply later_node; [apply Hl|done]. Qed.
Lemma safe_infallible c : safe (infallible c).
Proof. intros nw Hl. unfold infallible. pose proof (safe_assign_and_start c nw Hl) as Hs. by destruct (assign_and_start c nw). Qed.
Lemma safe_stored dir c : safe (initialize_stored dir c).
Proof.
  intros nw Hl. unfold initialize_stored. pose proof (later_machine _ nw (quiet_unlogged (os_MkdirAll (dir nw.1))) Hl) as Hm.
  change (unlogged (os_MkdirAll (dir nw.1))) with (os_MkdirAll (Machine := logged M) (dir nw.1)) in Hm. destruct (on_machine _ nw) as [[] nw1]; [by apply safe_initialize|done].
Qed.
Lemma safe_host : safe initializeHost.
Proof. intros nw Hl. unfold initializeHost. destruct (forallb _ _); [|done]. cbn [negb]. exact (safe_initialize CHost nw Hl). Qed.
Lemma safe_identity : safe initializeIdentity.
Proof.
  intros nw [Hc (new & En & Hd)]. split; [exact (eq_trans (gr_cancelled _ _ (growing_identity nw)) Hc)|exists new; by rewrite identity_calls].
Qed.
Lemma safe_election : safe initializeElectionManager.
Proof.
  intros nw Hl. unfold initializeElectionManager. destruct (negb _ || negb _); [done|]. pose proof (later_start CElection nw Hl) as H1. destruct (start_component CElection nw) as [b1 nw1].
  cbn [snd] in H1. match goal with |- context [start_component CElectionHandler ?x] => set (nw2 := x) end. assert (H2 : later nw2) by (apply later_node; [apply H1|done]).
  pose proof (later_start CElectionHandler nw2 H2) as H3. destruct (start_component CElectionHandler nw2) as [b3 nw3]. cbn [snd] in *. apply later_node; [apply H3|done].
Qed.
Lemma safe_runtime nw : later nw -> later (start_runtime nw).
Proof.
  intros Hl. unfold start_runtime. destruct (op_runtime _); [|done]. unfold initializeSnapshotStore. match goal with |- context [initialize_stored ?d CSnapshots nw] => pose proof (safe_stored d CSnapshots nw Hl) as H1; destruct (initialize_stored d CSnapshots nw) as [b nw1] end.
  cbn [snd] in *. unfold initializeRuntimeHandler. pose proof (later_start CRuntime nw1 H1) as H2. destruct (start_component CRuntime nw1) as [b2 nw2]. cbn [snd] in *. apply later_node; [apply H2|done].
Qed.

Lemma safe_stop_all cs nw : later nw -> later (stop_all cs nw).
Proof.
  intros [Hc (new & En & Hd)]. split; [by rewrite stop_all_node|]. rewrite stop_all_calls, En. eexists. rewrite <- app_assoc. split; [done|]. apply Forall_app. split; [done|].
  apply list.Forall_forall. intros k Hk. apply list_elem_of_fmap in Hk as (c & -> & _). done.
Qed.
Lemma safe_cleanup nw : later nw -> later (cleanup nw).
Proof.
  intros [Hc (new & En & Hd)]. split; [by rewrite cleanup_node|]. rewrite cleanup_calls, En. eexists. rewrite <- app_assoc. split; [done|]. rewrite !Forall_app. split_and!; [done|..];
    apply list.Forall_forall; intros k Hk; apply list_elem_of_fmap in Hk as (c & -> & _); done.
Qed.

Lemma safe_run_steps steps nw : Forall (fun s => safe s.1.1) steps -> later nw -> later (run_steps steps nw).2.
Proof.
  intros Hs. revert nw. induction Hs as [|[[f fl] e] steps Hf _ IH]; intros nw Hl; cbn [run_steps]; [done|]. specialize (Hf nw Hl). cbn [fst] in Hf.
  destruct (f nw) as [[] nw1]; cbn [snd] in *; [by apply IH|]. destruct fl; cbn [failed]; [apply later_node; [apply Hf|done]|by apply safe_cleanup].
Qed.
Lemma start_steps_safe : Forall (fun s => safe s.1.1) start_steps.
Proof.
  unfold start_steps, initializePubSub, initializePhonebook, initializeMetricsManager, initializeCapsuleHandler.
  repeat first [apply list.Forall_nil | apply list.Forall_cons; split; cbn [fst snd]]; auto using safe_initialize, safe_assign_and_start, safe_infallible,
    safe_stored, safe_host, safe_identity, safe_election.
Qed.
Lemma safe_Start : safe Start.
Proof.
  intros nw Hl. unfold Start. destruct (negb _); [done|]. assert (H0 : later (setState nodeStateInitializing nw.1, nw.2)) by (apply later_node; [apply Hl|done]).
  pose proof (safe_run_steps _ _ start_steps_safe H0) as H1. destruct (run_steps start_steps _) as [[e|] nw1]; cbn [snd] in *; [done|]. apply safe_runtime in H1.
  apply later_node; [apply H1|done].
Qed.
Lemma safe_Stop nw : later nw -> later (Stop nw).
Proof.
  intros Hl. unfold Stop. destruct (_ || _); [done|]. assert (H0 : later (cancel (setState nodeStateShuttingDown nw.1), nw.2)) by (by apply later_node).
  apply safe_cleanup in H0. exact (later_state _ _ H0).
Qed.
Lemma safe_Drain : safe Drain.
Proof.
  intros nw Hl. unfold Drain. destruct (negb _); [done|]. cbn [snd]. apply safe_Stop.
  apply (later_do (KDeparting (n_id nw.1)) (mc_Departing (n_id nw.1)) (setState nodeStateDraining nw.1, nw.2)); [done|]. apply later_node; [apply Hl|done].
Qed.

Lemma safe_monitor p : safe (startHealthMonitor p).
Proof.
  intros nw Hl. unfold startHealthMonitor. assert (Hq : quiet (mc_StartMonitor p (n_cancelled nw.1))) by (cbn; apply quiet_noted; apply Hl).
  pose proof (later_machine _ nw Hq Hl) as H1. destruct (on_machine _ nw) as [[] nw1]; cbn [snd] in *; [|done]. apply later_node; [apply H1|done].
Qed.
Lemma safe_join_election cfg : safe (join_election cfg).
Proof.
  intros nw Hl. unfold join_election. destruct (n_electionManager nw.1) as [m|]; [|done].
  assert (Hq : quiet (mc_OpenElectionTopic (cl_Path cfg))) by (cbn; by apply quiet_noted). pose proof (later_machine _ nw Hq Hl) as H1. destruct (on_machine _ nw) as [o nw1].
  destruct (ElectionManager.JoinCluster _ _ _). cbn [snd] in *. apply later_node; [apply H1|done].
Qed.
Lemma safe_orbits cfg : safe (joinConfiguredOrbits cfg).
Proof.
  intros nw Hl. unfold joinConfiguredOrbits. destruct (_ || _); [done|]. apply later_machine; [|done]. apply quiet_each. intros x. cbn. by apply quiet_noted.
Qed.
Lemma safe_capsules cfg : safe (createConfiguredCapsules cfg).
Proof.
  intros nw Hl. unfold createConfiguredCapsules. destruct (_ || _); [done|]. apply later_machine; [|done]. apply quiet_each. intros x. cbn. by apply quiet_noted.
Qed.
Lemma safe_on_joined cfg psk nw : later nw -> later (on_joined cfg psk nw).
Proof.
  intros Hl. unfold on_joined. assert (Hq : quiet time_Now) by (cbn; apply quiet_unlogged). pose proof (later_machine _ nw Hq Hl) as H1. destruct (on_machine time_Now nw) as [t nw1].
  cbn [snd] in H1. apply safe_capsules, safe_orbits. match goal with |- later (derive_secrets _ _ ?x.2.1, _) => assert (H2 : later x.2); [|generalize dependent x; intros nw4 H2] end.
  - apply safe_join_election. match goal with |- later (if _ then (on_machine _ ?x).2 else _) => assert (H2 : later x) end.
    { apply safe_monitor. apply later_node; [apply H1|done]. }
    destruct (built CMetrics _); [|done]. apply later_machine; [|done]. cbn. by apply quiet_noted.
  - apply later_node; [|done]. destruct (derive_secrets_spec (cl_Path cfg) psk nw4.2.1) as [k ->]. apply H2.
Qed.
Lemma safe_Join cfg : safe (Join cfg).
Proof.
  intros nw Hl. unfold Join. destruct (negb _); [done|]. set (nw0 := match cl_Certificates cfg with Some _ => _ | None => _ end).
  assert (H0 : later nw0) by (unfold nw0; destruct (cl_Certificates cfg) as [c|]; [by apply (later_do (KRegisterCertConfig (cl_Path cfg)))|done]). clearbody nw0.
  match goal with |- context [mc_JoinRequested ?r] => assert (Hq : quiet (mc_JoinRequested r)) by (cbn; by apply quiet_noted) end.
  pose proof (later_machine _ nw0 Hq H0) as H1. destruct (on_machine _ nw0) as [[arr psk] nw1]. cbn [snd] in *. destruct (await _ arr) as [e []]; cbn [snd]; [by apply safe_on_joined|done].
Qed.
Lemma safe_Leave p : safe (Leave p).
Proof.
  intros nw Hl. unfold Leave. destruct (n_joinedClusters nw.1 !! p) as [t|]; [|done]. cbv zeta. cbn [snd]. set (n := set_election _ _).
  assert (H0 : later (n, nw.2)) by (apply later_node; [apply Hl|done]). clearbody n.
  assert (Hif : forall (b : bool) k (f : W -> W) wl, dead k -> later (n, wl) -> later (n, if b then noted_do k f wl else wl)).
  { intros [] k f wl Hk Hw; [|done]. by apply (later_do k f (n, wl)). }
  apply (Hif _ (KAuthLeave p)); [done|]. destruct (n_healthMonitors nw.1 !! p); [apply (later_do (KStopMonitor p) _ (n, _)); [done|]|];
    apply (Hif _ (KMetricsLeave p)); try done; by apply (Hif _ (KCapsulesLeave p)).
Qed.
Lemma safe_run_ops ops nw : later nw -> later (run_ops ops nw).
Proof.
  revert nw. induction ops as [|o ops IH]; intros nw Hl; [done|]. unfold run_ops in *. cbn [fold_left]. apply IH. destruct o; cbn [op_step snd];
    [by apply safe_Start|by apply safe_Stop|by apply safe_Drain|by apply safe_Join|by apply safe_Leave].
Qed.

End After.

(** A stopped node does not come back.  Stopping a node cancels its
    context for good; whatever is done with the node afterwards, every
    component and every health monitor that is started gets a context that is
    already cancelled, although [Start] reports success and the node calls
    itself running. *)
Theorem node_restart_cancelled (nw : NWL) ops (Hs : n_state nw.1 = nodeStateRunning) :
  let nw' := run_ops ops (Stop nw) in n_cancelled nw'.1 = true /\
  (exists new, calls nw' = calls (Stop nw) ++ new /\ forall c b, KStart c b ∈ new -> b = true) /\
  (forall nw2, Start nw' = (None, nw2) -> n_state nw2.1 = nodeStateRunning /\ n_cancelled nw2.1 = true /\ KStart CEventBus true ∈ calls nw2).
Proof.
  cbv zeta. assert (H0 : later (calls (Stop nw)) (Stop nw)).
  { split; [by rewrite Stop_node, Hs|]. exists []. by rewrite app_nil_r. }
  apply (safe_run_ops (calls (Stop nw)) ops) in H0. destruct H0 as [Hc (new & En & Hd)]. split_and!; [done| |].
  - exists new. split; [done|]. intros c b Hk. rewrite list.Forall_forall in Hd. exact (Hd _ Hk).
  - set (nw' := run_ops ops (Stop nw)) in *. clearbody nw'. intros nw2 E. unfold Start in E. destruct (negb _); [done|]. destruct (run_steps start_steps _) as [[e|] nw1] eqn:Er; [done|].
    injection E as <-. cbn [fst n_state setState n_cancelled]. pose proof (run_steps_grows _ _ _ start_steps_growing Er) as Hg. destruct (start_runtime_spec nw1) as (_ & _ & _ & _ & _ & R6 & _).
    split; [done|]. rewrite R6. split; [exact (eq_trans (gr_cancelled _ _ Hg) Hc)|]. rewrite calls_state.
    pose proof (run_steps_calls _ _ _ _ start_steps_growing start_steps_start Er) as Hcalls. fold core_components in Hcalls. cbn [fst n_cancelled setState] in Hcalls. rewrite Hc in Hcalls.
    assert (Hin : KStart CEventBus true ∈ calls nw1).
    { rewrite Hcalls. apply elem_of_app. right. apply list_elem_of_fmap. exists CEventBus. split; [done|by apply (bool_decide_unpack _)]. }
    destruct (op_runtime (n_set nw1.1)) eqn:Ho; [|unfold start_runtime; by rewrite Ho]. destruct (runtime_calls nw1 Ho) as (snap & _ & ->). apply elem_of_app. by left.
Qed.

End Order.

(** ** On a machine *)

Module OrderDemo.
Import ToyMachine.
#[local] Existing Instance NodeDemo.toy_aead.

#[local] Instance machine : Machine (gmap string bytes) := disk all_start [AJoined cluster].
Definition fresh_node : @NW (gmap string bytes * list Call) (logged machine) := (New [WithRuntime true], (∅, [])).
Definition running : @NW (gmap string bytes * list Call) (logged machine) := (Join cluster_config (Start fresh_node).2).2.

Lemma node_start_order_witness : exists opt, calls (Start fresh_node).2 = (fun c => KStart c false) <$> core_components ++ opt.
Proof.
  assert (E : Start fresh_node = (None, (Start fresh_node).2)) by (apply surjective_pairing_at; vm_compute; reflexivity).
  destruct (node_start_order fresh_node (Start fresh_node).2 E) as (opt & H & _). exists opt. exact H.
Defined.

Lemma node_stop_order_witness : n_healthMonitors running.1 = {[cluster := tt]} /\ exists upper lower monitors,
  calls (Stop running) = calls running ++ ((KStop <$> upper) ++ (KStopMonitor <$> monitors) ++ (KStop <$> lower)) /\ cluster ∈ monitors.
Proof.
  assert (Hm : n_healthMonitors running.1 = {[cluster := tt]}) by (vm_compute; reflexivity). assert (Hs : n_state running.1 = nodeStateRunning) by (vm_compute; reflexivity).
  split; [exact Hm|]. destruct (node_stop_order running ltac:(rewrite Hs; discriminate) ltac:(rewrite Hs; discriminate)) as (upper & lower & monitors & H1 & _ & _ & _ & H2 & _).
  exists upper, lower, monitors. split; [exact H1|]. apply H2. rewrite Hm, dom_singleton. by apply elem_of_singleton.
Defined.

(** The syncer does not start. *)
Lemma node_failed_start_stuck_witness : let M := logged (disk no_syncer []) in let failed := (Start (M := M) (New [], (∅, []))).2 in
  Start failed = (Some (ENotStopped nodeStateInitializing), failed) /\ n_state (Stop failed).1 = nodeStateStopped /\ exists pre post, failed.2.2 = pre ++ KStop CHost :: post.
Proof.
  cbv zeta. set (nw := (New (M := logged (disk no_syncer [])) [], ((∅ : gmap string bytes), ([] : list Call)))).
  assert (E : Start nw = (Some (EComponent CSyncer), (Start nw).2)) by (apply surjective_pairing_at; vm_compute; reflexivity).
  destruct (node_failed_start_stuck nw (EComponent CSyncer) (Start nw).2 ltac:(reflexivity) E) as [[[H|H] _]|((c & before & after & own & upper & lower & monitors & _ & _ & Hc & _ & _ & _ & Hin & _) & _ & Hs & H)];
    [discriminate H|discriminate H|].
  split; [exact (proj1 (H [] ltac:(apply not_elem_of_nil)))|]. split; [exact Hs|]. apply list_elem_of_split. assert (Hh : CHost ∈ upper ++ lower).
  { apply Hin. split; [apply (bool_decide_unpack _); vm_compute; reflexivity|discriminate]. }
  change (KStop CHost ∈ calls (Start nw).2). rewrite Hc. apply elem_of_app in Hh. rewrite !elem_of_app. destruct Hh as [Hh|Hh]; [do 3 right; left|do 5 right]; by apply list_elem_of_fmap_2.
Defined.

Lemma node_restart_cancelled_witness : n_state running.1 = nodeStateRunning /\ n_cancelled (run_ops [OStart; OJoin cluster_config] (Stop running)).1 = true.
Proof.
  assert (Hs : n_state running.1 = nodeStateRunning) by (vm_compute; reflexivity). split; [exact Hs|]. exact (proj1 (node_restart_cancelled running [OStart; OJoin cluster_config] Hs)).
Defined.

End OrderDemo.
