(* ===== verification/NodeJoin.v ===== *)
(** * A node and its authenticator

    [Join] of [node.go] answered by [handleClusterJoinRequest] of the
    authenticator, with the slice of the pre-shared key they share, and
    concrete machines on which the theorems about nodes are applied. *)

From S2P Require Import Prelude ElectionTopic Orbit Internals Shared Phonebook HealthMonitor RuntimeNode Syncer Auth AuthGossip Handshake AuthDemo Node.
Import signing secrets subscriber.
Local Open Scope string_scope.
Local Open Scope list_scope.
Local Open Scope Z_scope.

(** ** The authenticator behind a join *)

Section WithAuthenticator.
Context `{I : IPhonebook} `{R : GoRange} `{H : Sha256} `{A : Aead} `{K : AuthCrypto} `{T : Certs} `{P : AuthCodec}.
Context {W : Type} `{M : Machine W}.

(** The events of the authenticator that [Join] waits for. *)
Definition arrival_of (e : AuthEvent) : option Arrival :=
  match e with ClusterJoined c _ => Some (AJoined c) | ClusterJoinFailed c => Some (AFailed c "") | _ => None end.

Variable host : Host.
Variable auth_of : W -> Authenticator.
(** A request is answered by the authenticator of the node: the events are the
    ones it publishes, the slice is the one it was given. *)
Hypothesis answered : forall req w, (mc_JoinRequested req w).1 =
  let '(psk, a') := handleClusterJoinRequest host req (auth_of w) in (omap arrival_of (drop (length (au_bus (auth_of w))) (au_bus a')), psk).

(** C31: the secrets key of a node does not depend on the pre-shared key.
    When a node without a secrets key joins a cluster through its
    authenticator, the slice of the pre-shared key is already zeroed when
    [Join] derives the secrets key from it: the key is that of zero bytes, as
    many as the pre-shared key has, which anybody can compute. *)
Theorem node_secrets_key_of_zeros cfg nw (Hs : n_secretsKey nw.1 = None) (Hj : (Join cfg nw).1 = None) :
  (MinPSKLength <= length (cl_PSK cfg))%nat /\
  n_secretsKey (Join cfg nw).2.1 = match DeriveKey (replicate (length (cl_PSK cfg)) Ascii.zero) (cl_Path cfg) with Ok k => Some k | Err _ => None end.
Proof using answered.
  unfold Join in *. destruct (n_state nw.1 =s nodeStateRunning); [|done]. cbn [negb] in *.
  set (nw0 := match cl_Certificates cfg with Some _ => _ | None => _ end) in *. assert (H0 : nw0.1 = nw.1) by (unfold nw0; by destruct (cl_Certificates cfg)). clearbody nw0.
  unfold on_machine in *. set (req := {| cj_ClusterPath := _ |}) in *. pose proof (answered req nw0.2) as Hans. destruct (mc_JoinRequested req nw0.2) as [[arr psk] w]. cbn [fst] in Hans.
  unfold handleClusterJoinRequest in Hans. cbn [cj_PSK cj_ClusterPath req] in Hans. destruct (SetClusterPSK (cl_Path cfg) (cl_PSK cfg) (auth_of nw0.2)) as [[r rest] a1] eqn:Ep.
  unfold SetClusterPSK in Ep. destruct (Nat.ltb_spec (length (cl_PSK cfg)) MinPSKLength) as [Hlt|Hge].
  2: destruct (DeriveClusterRootKey (cl_PSK cfg) (cl_Path cfg)) as [rk|]; [destruct (DeriveHMACKey (cl_PSK cfg) (cl_Path cfg)) as [hk|]|].
  2: { injection Ep as <- <- <-. split; [done|]. destruct (await (cl_Path cfg) arr) as [e [|]] eqn:Ea; cbn [fst snd] in *; [|subst e; pose proof (await_spec (cl_Path cfg) arr) as Hw; by rewrite Ea in Hw].
    destruct (on_joined_spec cfg psk (nw0.1, w)) as (_ & _ & _ & _ & _ & _ & _ & _ & -> & _). cbn [fst]. assert (Hpsk : psk = replicate (length (cl_PSK cfg)) Ascii.zero).
    { set (a := set_rootKeys _ _) in Hans. clearbody a. destruct (initProviderForCluster _ a) as [[] a2]; [|by injection Hans].
      destruct (SubscribeToCluster _ a2) as [[] a3]; [|by injection Hans]. destruct (cj_BootstrapPeers req); [by injection Hans|].
      destruct (bootstrapAndAuthenticate _ _ _ a3) as [[] a4]; by injection Hans. }
    unfold derive_secrets. rewrite H0, Hs, Hpsk, length_replicate. unfold MinPSKLength in Hge. destruct (Nat.ltb_spec 0 (length (cl_PSK cfg))); [|lia]. cbn [andb].
    by destruct (DeriveKey _ _). }
  all: exfalso; injection Ep as <- <- <-; unfold publishJoinFailed in Hans; cbn in Hans; rewrite drop_app_length in Hans; cbn in Hans; injection Hans as -> ->;
    cbn in Hj; by rewrite String.eqb_refl in Hj.
Qed.

End WithAuthenticator.

(** ** The first node of a cluster *)

Module JoinDemo.
Import ToyMachine PhonebookDemo.
#[local] Existing Instances NodeDemo.toy_aead OrbitDemo.demo_sha AuthDemo.demo_crypto AuthDemo.demo_codec AuthDemo.demo_certs.

Definition nobody := AuthDemo.host (fun _ _ => None).
Definition answer (req : ClusterJoinRequested) (a : Authenticator (I := sqlite_phonebook)) : (list Arrival * bytes) * Authenticator (I := sqlite_phonebook) :=
  let '(psk, a') := handleClusterJoinRequest nobody req a in ((omap arrival_of (drop (length (au_bus a)) (au_bus a')), psk), a').
(** A machine whose requests go to an authenticator. *)
Definition machine : Machine (Authenticator (I := sqlite_phonebook)) := toy all_start (fun _ _ => None) (fun _ _ a => a) answer.
Definition first : NW (M := machine) := (Start (M := machine) (New [], AuthDemo.fresh_node "n1" new_book)).2.

Lemma node_secrets_key_of_zeros_witness : (Join (M := machine) cluster_config first).1 = None /\
  n_secretsKey (Join (M := machine) cluster_config first).2.1 = match DeriveKey (replicate 32 Ascii.zero) cluster with Ok k => Some k | Err _ => None end.
Proof.
  assert (Hs : n_secretsKey first.1 = None) by (vm_compute; reflexivity). assert (Hj : (Join (M := machine) cluster_config first).1 = None) by (vm_compute; reflexivity).
  assert (Hans : forall req w, (mc_JoinRequested (Machine := machine) req w).1 =
    let '(psk, a') := handleClusterJoinRequest nobody req w in (omap arrival_of (drop (length (au_bus w)) (au_bus a')), psk)).
  { intros req w. change (mc_JoinRequested (Machine := machine) req w) with (answer req w). unfold answer. destruct (handleClusterJoinRequest nobody req w). reflexivity. }
  split; [exact Hj|]. exact (proj2 (node_secrets_key_of_zeros nobody (fun w => w) Hans cluster_config first Hs Hj)).
Defined.

End JoinDemo.
