(* ===== verification/Daemon.v ===== *)
(** * The daemon ([cmd/falakd/main.go])

    From flags or a loaded configuration to a running node: its options, the
    clusters it joins, shutdown.  The machine is the one of [Node.v]. *)

From stdpp Require Import pretty.
From S2P Require Import Prelude Phonebook RuntimeHandler ElectionTopic FilePath Shared Float64 MetricsStore Strconv CapsuleTypes CapsuleSpec Gravity Elector Delay RuntimeNode.
From S2P Require Import Auth Handshake ElectionManager Config Node NodeOrder.
Import secrets.
Local Open Scope string_scope.
Local Open Scope list_scope.
Local Open Scope Z_scope.

(** [buildElectionConfig]; the weight of snapshots is not in the configuration. *)
Definition weights_of (w : ElectionWeights) : Weights :=
  {| CPUHeadroom := ew_CPUHeadroom w; MemoryHeadroom := ew_MemoryHeadroom w; DiskHeadroom := ew_DiskHeadroom w;
     SoftPlacementMatch := ew_SoftPlacementMatch w; AffinityProximity := ew_AffinityProximity w; HardwareLabelMatch := ew_HardwareLabelMatch w;
     LoadPenalty := ew_LoadPenalty w; Reliability := ew_Reliability w; Diversity := ew_Diversity w; SnapshotLocality := f0 |}.

Definition buildElectionConfig (src : option ElectionConfig) : result string (option ClusterElectionConfig) :=
  match src with
  | None => Ok None
  | Some src =>
      match (if el_Timeout src =s "" then Some 0 else ParseDuration (el_Timeout src)) with
      | None => Err "election.timeout"
      | Some d => Ok (Some {| ce_Algorithm := el_Algorithm src; ce_Timeout := d; ce_Weights := weights_of <$> el_Weights src |})
      end
  end.

(** [setupLogger]: the level of a name. *)
Inductive LogLevel := DebugLevel | InfoLevel | WarnLevel | ErrorLevel.
Definition lower_char (c : ascii) : ascii := if (65 <=? code c) && (code c <=? 90) then ascii_of_N (N_of_ascii c + 32) else c.
Fixpoint strings_ToLower (s : string) : string := match s with EmptyString => "" | String c s => String (lower_char c) (strings_ToLower s) end.
Definition log_level (level : string) : LogLevel :=
  let l := strings_ToLower level in
  if l =s "debug" then DebugLevel else if l =s "info" then InfoLevel else if (l =s "warn") || (l =s "warning") then WarnLevel
  else if l =s "error" then ErrorLevel else InfoLevel.

Section Daemon.
Context {W : Type} `{M : Machine W} `{A : Aead} `{R : GoRange}.

(** ** From a configuration *)

Definition listen_addr (listen : string) (port : Z) : string := if listen =s "" then "/ip4/0.0.0.0/tcp/" +:+ pretty port else listen.

Definition config_options (cfg : NodeConfig) (forceRejectAuth : bool) : list Option :=
  [WithName (nd_Name cfg); WithRegion (nd_Region cfg); WithDatacenter (nd_Datacenter cfg); WithListenAddrs [listen_addr (nd_Listen cfg) (nd_Port cfg)]] ++
  (if nd_DataDir cfg =s "" then [] else [WithDataDir (nd_DataDir cfg)]) ++ (if forceRejectAuth then [WithRejectAllAuth true] else []).

Definition cert_config (t : CertificatesConfig) : ClusterCertConfig :=
  {| cf_CACertPath := ct_CACert t; cf_CAKeyPath := ct_CAKey t; cf_NodeCertPath := ct_NodeCert t; cf_NodeKeyPath := ct_NodeKey t |}.

(** What a cluster is joined with. *)
Definition join_config (clusterPath : string) (c : ClusterCfg) : result string ClusterConfig :=
  match buildElectionConfig (cc_Election c) with
  | Err e => Err e
  | Ok election =>
      Ok {| cl_Path := clusterPath; cl_PSK := list_ascii_of_string (cc_PSK c); cl_BootstrapPeers := cc_Bootstrap c; cl_Certificates := cert_config <$> cc_Certificates c;
            cl_Orbits := []; cl_Capsules := []; cl_Election := election |}
  end.

(** An error is logged, and the next cluster is tried. *)
Definition join_one (nw : NW) (pc : string * ClusterCfg) : NW := match join_config pc.1 pc.2 with Err _ => nw | Ok cfg => (Join cfg nw).2 end.

(** How the daemon ends its start: with an exit, or with a node that serves
    until a signal. *)
Inductive Outcome := ExitConfig (e : LoadError) | ExitStart (e : NodeError) | ExitFlags (msg : string) | Serving (nw : NW).

Definition runFromConfig (loaded : result LoadError NodeConfig) (forceRejectAuth : bool) (w : W) : Outcome :=
  match loaded with
  | Err e => ExitConfig e
  | Ok cfg =>
      match Start (New (config_options cfg forceRejectAuth), w) with
      | (Some e, _) => ExitStart e
      | (None, nw) => Serving (fold_left join_one (range (nd_Clusters cfg)) nw)
      end
  end.

(** The signal. *)
Definition shutdown (o : Outcome) : option NW := match o with Serving nw => Some (Stop nw) | _ => None end.

(** ** From flags *)

Record Flags := {
  fl_name : string; fl_region : string; fl_datacenter : string; fl_port : Z; fl_listen : string; fl_dataDir : string; fl_cluster : string; fl_psk : string;
  fl_bootstrap : string; fl_caCert : string; fl_caKey : string; fl_nodeCert : string; fl_nodeKey : string; fl_forceRejectAuth : bool
}.

Definition flag_options (f : Flags) : list Option :=
  [WithRegion (fl_region f); WithDatacenter (fl_datacenter f)] ++ (if fl_name f =s "" then [] else [WithName (fl_name f)]) ++
  [WithListenAddrs [listen_addr (fl_listen f) (fl_port f)]] ++ (if fl_dataDir f =s "" then [] else [WithDataDir (fl_dataDir f)]) ++
  (if fl_forceRejectAuth f then [WithRejectAllAuth true] else []).

(** The combinations that end the daemon. *)
Definition bad_flags (f : Flags) : option string :=
  let set x := negb (x =s "") in
  if negb (set (fl_psk f)) then Some "PSK is required when joining a cluster"
  else if set (fl_caKey f) && negb (set (fl_caCert f)) then Some "--ca-key requires --ca-cert"
  else if set (fl_nodeCert f) && negb (set (fl_caCert f)) then Some "--node-cert requires --ca-cert"
  else if set (fl_nodeKey f) && negb (set (fl_caCert f)) && negb (set (fl_nodeCert f)) then Some "--node-key requires --ca-cert or --node-cert"
  else None.

Definition flag_config (f : Flags) : ClusterConfig :=
  {| cl_Path := fl_cluster f; cl_PSK := list_ascii_of_string (fl_psk f); cl_BootstrapPeers := if fl_bootstrap f =s "" then [] else Split "," (fl_bootstrap f);
     cl_Certificates := if fl_caCert f =s "" then None else
       Some {| cf_CACertPath := fl_caCert f; cf_CAKeyPath := fl_caKey f; cf_NodeCertPath := fl_nodeCert f; cf_NodeKeyPath := fl_nodeKey f |};
     cl_Orbits := []; cl_Capsules := []; cl_Election := None |}.

Definition run_flags (f : Flags) (w : W) : Outcome :=
  match Start (New (flag_options f), w) with
  | (Some e, _) => ExitStart e
  | (None, nw) =>
      if fl_cluster f =s "" then Serving nw else
      match bad_flags f with Some msg => ExitFlags msg | None => Serving (Join (flag_config f) nw).2 end
  end.

End Daemon.

(** ** Theorems *)

Section Calls.
Context {W : Type} `{M : Machine W} `{A : Aead} `{R : GoRange}.
#[local] Existing Instance logged.
Let NWL : Type := @NW (W * list Call) (logged M).

(** The calls a join makes: all about its own cluster, its orbits and its
    capsules. *)
Definition join_call (cfg : ClusterConfig) (k : Call) : Prop :=
  match k with
  | KRegisterCertConfig p | KStartMonitor p _ | KMetricsJoin p | KOpenElectionTopic p => p = cl_Path cfg
  | KJoinOrbit p o => p = cl_Path cfg /\ o ∈ cl_Orbits cfg
  | KCreateCapsule p s => p = cl_Path cfg /\ s ∈ cl_Capsules cfg
  | _ => False
  end.
Definition adds (P : Call -> Prop) (nw nw' : NWL) : Prop := exists new, calls nw' = calls nw ++ new /\ Forall P new.

Lemma adds_refl P nw : adds P nw nw.
Proof. exists []. by rewrite app_nil_r. Qed.
Lemma adds_trans P a b c : adds P a b -> adds P b c -> adds P a c.
Proof. intros (x & E1 & H1) (y & E2 & H2). exists (x ++ y). rewrite E2, E1, app_assoc. split; [done|by apply Forall_app]. Qed.
Lemma adds_node P n (nw nw' : NWL) : adds P nw nw' -> adds P nw (n, nw'.2).
Proof. done. Qed.
Lemma adds_one {X} (P : Call -> Prop) k (f : ST W X) (nw : NWL) : P k -> adds P nw (on_machine (noted k f) nw).2.
Proof. intros Hk. exists [k]. destruct nw as [n [w l]]. unfold on_machine, noted, calls. cbn. destruct (f w). cbn. split; [done|by constructor]. Qed.
Lemma adds_each {X} (P : Call -> Prop) (k : X -> Call) (f : X -> ST W bool) xs (nw : NWL) :
  (forall x, x ∈ xs -> P (k x)) -> adds P nw (on_machine (each (fun x => noted (k x) (f x)) xs) nw).2.
Proof.
  revert nw. induction xs as [|x xs IH]; intros nw Hk; [destruct nw; apply adds_refl|]. pose proof (adds_one P (k x) (f x) nw (Hk x (list_elem_of_here _ _))) as H1.
  assert (Hk' : forall y, y ∈ xs -> P (k y)) by (intros y Hy; apply Hk; by right). destruct nw as [n wl]. unfold on_machine in *. cbn [each fst snd] in *.
  destruct (noted (k x) (f x) wl) as [ok wl1]. cbn [snd] in *. specialize (IH (n, wl1) Hk'). cbn [fst snd] in IH. destruct (each _ xs wl1) as [rest wl2]. by eapply adds_trans.
Qed.

Lemma on_joined_calls cfg psk (nw : NWL) : adds (join_call cfg) nw (on_joined cfg psk nw).
Proof.
  unfold on_joined. assert (H0 : adds (join_call cfg) nw (on_machine time_Now nw).2).
  { exists []. rewrite app_nil_r. destruct nw as [n [w l]]. unfold on_machine, calls. cbn. unfold unlogged. cbn. by destruct (time_Now w). }
  destruct (on_machine time_Now nw) as [t nw1]. cbn [snd] in H0. set (nw2 := (set_clusters _ _ _, nw1.2)). assert (H2 : adds (join_call cfg) nw nw2) by (by apply adds_node). clearbody nw2.
  set (nw3 := (startHealthMonitor (cl_Path cfg) nw2).2). assert (H3 : adds (join_call cfg) nw nw3).
  { eapply adds_trans; [exact H2|]. unfold nw3, startHealthMonitor. pose proof (adds_one (join_call cfg) (KStartMonitor (cl_Path cfg) (n_cancelled nw2.1)) (mc_StartMonitor (cl_Path cfg) (n_cancelled nw2.1)) nw2 eq_refl) as H3.
    change (noted _ _) with (mc_StartMonitor (Machine := logged M) (cl_Path cfg) (n_cancelled nw2.1)) in H3. by destruct (on_machine _ nw2) as [[] nw4]. }
  clearbody nw3. set (nw4 := if built CMetrics nw3.1 then _ else _). assert (H4 : adds (join_call cfg) nw nw4).
  { unfold nw4. destruct (built CMetrics nw3.1); [|done]. eapply adds_trans; [exact H3|]. by apply (adds_one _ (KMetricsJoin (cl_Path cfg))). }
  clearbody nw4. set (nw5 := (join_election cfg nw4).2). assert (H5 : adds (join_call cfg) nw nw5).
  { eapply adds_trans; [exact H4|]. unfold nw5, join_election. destruct (n_electionManager nw4.1); [|apply adds_refl].
    pose proof (adds_one (join_call cfg) (KOpenElectionTopic (cl_Path cfg)) (mc_OpenElectionTopic (cl_Path cfg)) nw4 eq_refl) as H5.
    change (noted _ _) with (mc_OpenElectionTopic (Machine := logged M) (cl_Path cfg)) in H5. destruct (on_machine _ nw4) as [o nw6]. by destruct (ElectionManager.JoinCluster _ _ _). }
  clearbody nw5. set (nw6 := (derive_secrets _ _ nw5.1, nw5.2)). assert (H6 : adds (join_call cfg) nw nw6) by (by apply adds_node). clearbody nw6.
  eapply adds_trans; [exact H6|]. eapply (adds_trans _ _ (joinConfiguredOrbits cfg nw6).2).
  - unfold joinConfiguredOrbits. destruct (_ || _); [apply adds_refl|]. by apply (adds_each _ (KJoinOrbit (cl_Path cfg)) (mc_JoinOrbit (cl_Path cfg))).
  - unfold createConfiguredCapsules. destruct (_ || _); [apply adds_refl|]. by apply (adds_each _ (KCreateCapsule (cl_Path cfg)) (mc_CreateCapsule (cl_Path cfg))).
Qed.

Definition requested (k : Call) : option string := match k with KJoinRequested p => Some p | _ => None end.
Definition workload (k : Call) : bool := match k with KJoinOrbit _ _ | KCreateCapsule _ _ | KStart CRuntime _ | KStart CSnapshots _ => true | _ => false end.

Lemma join_call_requested cfg ks : Forall (join_call cfg) ks -> omap requested ks = [].
Proof. induction 1 as [|k ks Hk _ IH]; [done|]. cbn. by destruct k. Qed.

Lemma Join_calls cfg (nw : NWL) : n_state nw.1 = nodeStateRunning -> exists new, calls (Join cfg nw).2 = calls nw ++ new /\ omap requested new = [cl_Path cfg] /\
  (cl_Orbits cfg = [] -> cl_Capsules cfg = [] -> Forall (fun k => workload k = false) new).
Proof.
  intros Hs. unfold Join. rewrite Hs. cbn [String.eqb negb]. change (nodeStateRunning =s nodeStateRunning) with true. cbn [negb].
  set (nw0 := match cl_Certificates cfg with Some _ => _ | None => _ end). assert (H0 : adds (join_call cfg) nw nw0).
  { unfold nw0. destruct (cl_Certificates cfg) as [c|]; [|apply adds_refl]. exists [KRegisterCertConfig (cl_Path cfg)]. split; [done|by repeat constructor]. }
  clearbody nw0. destruct H0 as (k0 & E0 & F0). set (req := {| cj_ClusterPath := _ |}).
  assert (H1 : calls (on_machine (mc_JoinRequested req) nw0).2 = calls nw0 ++ [KJoinRequested (cl_Path cfg)]).
  { destruct nw0 as [n [w l]]. unfold on_machine, calls. cbn. unfold noted. cbn. by destruct (mc_JoinRequested req w). }
  destruct (on_machine _ nw0) as [[arr psk] nw1]. cbn [snd] in H1. destruct (await _ arr) as [e joined]. cbn [snd].
  assert (H2 : adds (join_call cfg) nw1 (if joined then on_joined cfg psk nw1 else nw1)) by (destruct joined; [apply on_joined_calls|apply adds_refl]).
  destruct H2 as (k2 & E2 & F2). exists (k0 ++ KJoinRequested (cl_Path cfg) :: k2). split; [etrans; [exact E2|]; by rewrite H1, E0, <- !app_assoc|]. split.
  - rewrite omap_app, (join_call_requested _ _ F0). cbn. by rewrite (join_call_requested _ _ F2).
  - intros Ho Hc. assert (Hw : forall ks, Forall (join_call cfg) ks -> Forall (fun k => workload k = false) ks).
    { intros ks. apply Forall_impl. intros k Hk. destruct k; try done; cbn in Hk; destruct Hk as [_ Hk]; rewrite ?Ho, ?Hc in Hk; by apply elem_of_nil in Hk. }
    apply Forall_app. split; [by apply Hw|]. constructor; [done|by apply Hw].
Qed.

Lemma Join_running cfg (nw : NWL) : n_state (Join cfg nw).2.1 = n_state nw.1 /\ n_set (Join cfg nw).2.1 = n_set nw.1 /\ n_runtimeHandler (Join cfg nw).2.1 = n_runtimeHandler nw.1.
Proof.
  destruct (Join_node cfg nw) as [(nw1 & psk & En & _ & _ & ->)|[_ ->]]; [|done]. destruct (on_joined_spec cfg psk nw1) as (S1 & S2 & _ & S4 & _). by rewrite S1, S2, S4, En.
Qed.

Definition joinable (pc : string * ClusterCfg) : bool := match join_config pc.1 pc.2 with Ok _ => true | Err _ => false end.

Lemma join_all_calls pcs (nw : NWL) : n_state nw.1 = nodeStateRunning -> let nw' := fold_left join_one pcs nw in
  n_state nw'.1 = nodeStateRunning /\ n_set nw'.1 = n_set nw.1 /\ n_runtimeHandler nw'.1 = n_runtimeHandler nw.1 /\
  exists new, calls nw' = calls nw ++ new /\ omap requested new = (List.filter joinable pcs).*1 /\ Forall (fun k => workload k = false) new.
Proof.
  cbv zeta. revert nw. induction pcs as [|[p c] pcs IH]; intros nw Hs; cbn [fold_left].
  { split_and!; try done. exists []. by rewrite app_nil_r. }
  cbn [List.filter]. unfold joinable at 1. unfold join_one at 2 4 6 8. cbn [fst snd]. destruct (join_config p c) as [cfg|e] eqn:Ec; [|exact (IH nw Hs)].
  assert (Hcfg : cl_Path cfg = p /\ cl_Orbits cfg = [] /\ cl_Capsules cfg = []).
  { unfold join_config in Ec. destruct (buildElectionConfig (cc_Election c)); [|done]. by injection Ec as <-. }
  destruct Hcfg as (Hp & Ho & Hc). destruct (Join_running cfg nw) as (J1 & J2 & J3). rewrite Hs in J1. destruct (IH (Join cfg nw).2 J1) as (I1 & I2 & I3 & new & I4 & I5 & I6).
  destruct (Join_calls cfg nw Hs) as (k1 & E1 & R1 & F1). split_and!; [done|by rewrite I2|by rewrite I3|]. exists (k1 ++ new).
  split; [etrans; [exact I4|]; by rewrite E1, app_assoc|]. rewrite omap_app, R1, I5, Hp. split; [done|]. apply Forall_app. split; [by apply F1|done].
Qed.

Lemma config_settings cfg force : let n := New (M := logged M) (config_options cfg force) in
  op_name (n_set n) = nd_Name cfg /\ op_region (n_set n) = nd_Region cfg /\ op_datacenter (n_set n) = nd_Datacenter cfg /\
  op_listenAddrs (n_set n) = [listen_addr (nd_Listen cfg) (nd_Port cfg)] /\ op_dataDir (n_set n) = nd_DataDir cfg /\ op_rejectAllAuth (n_set n) = force /\
  op_runtime (n_set n) = false /\ n_state n = nodeStateStopped /\ n_runtimeHandler n = None.
Proof. cbv zeta. unfold config_options. destruct (String.eqb_spec (nd_DataDir cfg) "") as [E|]; destruct force; cbn; by rewrite ?E. Qed.

(** C33: what [falakd] makes of its configuration.  When it serves, the node
    runs with the configured name, region, datacenter, address, directory, and
    it has asked to join every configured cluster whose election timeout
    parses exactly once, in the order in which the map is visited.  But it has
    joined no orbit, created none of the configured capsules and has no
    runtime: it never runs a container. *)
Theorem daemon_serves cfg force w nw (Hr : runFromConfig (M := logged M) (Ok cfg) force (w, []) = Serving nw) :
  n_state nw.1 = nodeStateRunning /\ op_name (n_set nw.1) = nd_Name cfg /\ op_region (n_set nw.1) = nd_Region cfg /\
  op_datacenter (n_set nw.1) = nd_Datacenter cfg /\ op_listenAddrs (n_set nw.1) = [listen_addr (nd_Listen cfg) (nd_Port cfg)] /\
  op_dataDir (n_set nw.1) = nd_DataDir cfg /\ op_rejectAllAuth (n_set nw.1) = force /\
  omap requested (calls nw) = (List.filter joinable (range (nd_Clusters cfg))).*1 /\
  omap requested (calls nw) ≡ₚ (List.filter joinable (map_to_list (nd_Clusters cfg))).*1 /\
  Forall (fun k => workload k = false) (calls nw) /\ n_runtimeHandler nw.1 = None.
Proof.
  unfold runFromConfig in Hr. destruct (config_settings cfg force) as (C1 & C2 & C3 & C4 & C5 & C6 & C7 & C8 & C9). set (n0 := New (config_options cfg force)) in *. clearbody n0.
  destruct (Start (n0, (w, []))) as [[e|] nw1] eqn:Es; [done|]. injection Hr as <-. unfold Start in Es. cbn [fst] in Es. rewrite C8 in Es. cbn [String.eqb negb] in Es.
  destruct (run_steps start_steps _) as [[e|] nw2] eqn:Er; [done|]. pose proof (run_steps_calls _ _ _ _ start_steps_growing start_steps_start Er) as Hc.
  pose proof (run_steps_grows _ _ _ start_steps_growing Er) as Hg. pose proof (gr_set _ _ Hg) as Hset. pose proof (gr_runtime _ _ Hg) as Hrt. cbn [fst n_set n_runtimeHandler setState] in *.
  assert (En : nw1 = (setState nodeStateRunning nw2.1, nw2.2)) by (injection Es as <-; unfold start_runtime; by rewrite Hset, C7). clear Es. subst nw1.
  destruct (join_all_calls (range (nd_Clusters cfg)) (setState nodeStateRunning nw2.1, nw2.2)) as (J1 & J2 & J3 & new & J4 & J5 & J6); [done|]. cbn [fst n_set n_runtimeHandler setState] in J2, J3.
  split; [exact J1|]. rewrite J2, J3, Hset, Hrt. split_and!; try done.
  - by rewrite J4, omap_app, J5, calls_state, Hc.
  - rewrite J4, omap_app, J5, calls_state, Hc. assert (Hperm : List.filter joinable (range (nd_Clusters cfg)) ≡ₚ List.filter joinable (map_to_list (nd_Clusters cfg))).
    { apply list_filter_perm, range_perm. }
    rewrite <- Hperm. done.
  - rewrite J4, calls_state, Hc. apply Forall_app. split; [|done]. apply Forall_app. split; [by constructor|]. unfold started_by. cbn. repeat constructor.
Qed.

End Calls.

(** ** On a machine *)

Module DaemonDemo.
Import ToyMachine.
#[local] Existing Instance NodeDemo.toy_aead.

#[local] Instance machine : Machine (gmap string bytes) := disk all_start [AJoined cluster].

(** A configuration with an orbit and a capsule. *)
Definition web : CapsuleConfig :=
  {| ca_Name := "web"; ca_Image := "nginx"; ca_ImageAlias := ""; ca_ImageDigest := ""; ca_Orbit := "api"; ca_Tier := ""; ca_Labels := None; ca_Command := [];
     ca_Resources := None; ca_Replicas := None; ca_Scaling := None; ca_Placement := []; ca_Runtime := None; ca_Advanced := None |}.
Definition config : NodeConfig :=
  {| nd_Name := "a"; nd_Port := 4001; nd_Listen := ""; nd_DataDir := ""; nd_Region := "us"; nd_Datacenter := "dc1"; nd_LogLevel := "info"; nd_Labels := None;
     nd_Orbits := ["api"];
     nd_Clusters := {[cluster := {| cc_PSK := "0123456789abcdef0123456789abcdef"; cc_Bootstrap := []; cc_Certificates := None; cc_Capsules := {["web" := web]};
                                    cc_Election := None |}]};
     nd_Health := None; nd_Metrics := None |}.

Definition served : @NW (gmap string bytes * list Call) (logged machine) :=
  fold_left join_one (range (nd_Clusters config)) (Start (New (config_options config false), (∅, []))).2.

Lemma daemon_serves_witness : n_joinedClusters served.1 = {[cluster := 0]} /\ n_state served.1 = nodeStateRunning /\
  Forall (fun k => workload k = false) (calls served).
Proof.
  assert (Hs : Start (M := logged machine) (New (config_options config false), (∅, [])) = (None, (Start (M := logged machine) (New (config_options config false), (∅, []))).2))
    by (apply surjective_pairing_at; vm_compute; reflexivity).
  assert (Hr : runFromConfig (M := logged machine) (Ok config) false (∅, []) = Serving served) by (unfold runFromConfig; rewrite Hs; reflexivity).
  split; [vm_compute; reflexivity|]. destruct (daemon_serves config false ∅ served Hr) as (H1 & _ & _ & _ & _ & _ & _ & _ & _ & H2 & _). split; [exact H1|exact H2].
Defined.

End DaemonDemo.
