(* ===== verification/Api.v ===== *)
(** * The API ([api/core], [api/grpc], [api/http], [api/auth])

    [Core] over any node ([NodeFacade], with its state [W]), the gRPC services
    with their error codes and messages, watching with its bounded buffer, the
    event stream over HTTP, routing and the checks of client certificates.
    JSON and the format of times are the interface [ApiText]; goroutines are
    the steps they take. *)

From stdpp Require Import pretty.
From S2P Require Import Prelude Orbit Float64 CapsuleTypes.
Local Open Scope string_scope.
Local Open Scope list_scope.
Local Open Scope Z_scope.

(** ** Errors ([core/errors.go]) *)

Inductive Sentinel := ErrNotFound | ErrAlreadyExists | ErrInvalidArgument | ErrUnauthenticated | ErrPermissionDenied | ErrUnavailable | ErrInternal.
#[export] Instance Sentinel_eq : EqDecision Sentinel.
Proof. solve_decision. Defined.

Definition sentinel_text (s : Sentinel) : string :=
  match s with
  | ErrNotFound => "resource not found" | ErrAlreadyExists => "resource already exists" | ErrInvalidArgument => "invalid argument"
  | ErrUnauthenticated => "unauthenticated" | ErrPermissionDenied => "permission denied" | ErrUnavailable => "service unavailable"
  | ErrInternal => "internal error"
  end.

(** An error: the sentinels it wraps, and its text. *)
Record ApiError := { ae_wraps : list Sentinel; ae_text : string }.
Definition errors_Is (e : ApiError) (s : Sentinel) : bool := bool_decide (s ∈ ae_wraps e).

(** [fmt.Errorf("%w: %s", s, msg)] *)
Definition wrapped (s : Sentinel) (msg : string) : ApiError := {| ae_wraps := [s]; ae_text := sentinel_text s +:+ ": " +:+ msg |}.
Definition WrapNotFound (msg : string) : ApiError := wrapped ErrNotFound msg.
Definition WrapInvalidArgument (msg : string) : ApiError := wrapped ErrInvalidArgument msg.
(** The wrapped error becomes text: it can no longer be recognised. *)
Definition WrapInternal (msg : string) (e : ApiError) : ApiError := wrapped ErrInternal (msg +:+ ": " +:+ ae_text e).

Inductive Code := NotFound | AlreadyExists | InvalidArgument | Unauthenticated | PermissionDenied | Unavailable | Internal.
Record Status := { st_code : Code; st_message : string }.

Definition ToGRPCError (e : ApiError) : Status :=
  {| st_code := if errors_Is e ErrNotFound then NotFound else if errors_Is e ErrAlreadyExists then AlreadyExists
                else if errors_Is e ErrInvalidArgument then InvalidArgument else if errors_Is e ErrUnauthenticated then Unauthenticated
                else if errors_Is e ErrPermissionDenied then PermissionDenied else if errors_Is e ErrUnavailable then Unavailable else Internal;
     st_message := ae_text e |}.

(** ** Types ([core/types.go]) *)

Record ObjectMeta := { om_Name : string; om_ID : string; om_Cluster : string; om_Labels : Labels; om_CreatedAt : Time; om_UpdatedAt : Time }.
Record Pagination := { pg_PageSize : Z; pg_NextPageToken : string }.
Record PagedResult := { pr_NextPageToken : string; pr_TotalCount : Z }.

Definition watchEventAdded : string := "ADDED".
Definition watchEventModified : string := "MODIFIED".
Definition watchEventDeleted : string := "DELETED".
Definition watchEventError : string := "ERROR".

Record CreateCapsuleRequest := {
  cr_Cluster : string; cr_Name : string; cr_Image : string; cr_Orbit : string; cr_Tier : string; cr_Labels : Labels; cr_CPUCores : Z; cr_CPUCoresMax : Z;
  cr_MemoryMB : Z; cr_MemoryMBMax : Z; cr_DiskMB : Z; cr_ReplicasMin : Z; cr_ReplicasMax : Z; cr_ReplicasExact : Z; cr_Env : Labels; cr_Command : list string;
  cr_NetworkMode : string; cr_ImageDigest : string; cr_RegistryURL : string; cr_RegistryUsername : string; cr_RegistryPassword : string
}.
Record GetCapsuleRequest := { gc_ID : string; gc_Cluster : string }.
Record ListCapsulesRequest := { lc_Cluster : string; lc_Labels : Labels; lc_Orbit : string; lc_Pagination : Pagination }.
Record DeleteCapsuleRequest := { dc_ID : string; dc_Cluster : string }.
Record UpdateCapsuleRequest := { uc_ID : string; uc_Cluster : string; uc_Image : string; uc_Env : Labels; uc_Command : list string }.
Record CapsuleSpecView := {
  sv_Image : string; sv_ImageDigest : string; sv_Orbit : string; sv_Tier : string; sv_CPUCores : Z; sv_MemoryMB : Z; sv_DiskMB : Z; sv_ReplicasMin : Z;
  sv_ReplicasMax : Z; sv_Env : Labels; sv_Command : list string; sv_NetworkMode : string
}.
Record ReplicaView := { rv_ReplicaID : string; rv_NodeID : string; rv_Status : string; rv_StartedAt : Time }.
Record CapsuleStatusView := { cv_Status : string; cv_Replicas : list ReplicaView }.
Record CapsuleResource := { cre_Meta : ObjectMeta; cre_Spec : CapsuleSpecView; cre_Status : CapsuleStatusView }.
Record ListCapsulesResponse := { lr_Capsules : list CapsuleResource; lr_Paging : PagedResult }.
Record JoinClusterRequest := { jc_Path : string; jc_PSK : string; jc_BootstrapPeers : list string }.
Record ClusterResource := { clr_Path : string; clr_JoinedAt : Time; clr_Members : Z }.
Record ListNodesRequest := { ln_Cluster : string; ln_Pagination : Pagination }.
Record NodeStatusView := { nv_Status : string; nv_Addresses : list string; nv_CPUCores : Z; nv_MemoryMB : Z; nv_Datacenter : string; nv_Region : string }.
Record NodeResource := { nr_Meta : ObjectMeta; nr_Status : NodeStatusView }.
Record ListNodesResponse := { lnr_Nodes : list NodeResource; lnr_Paging : PagedResult }.
Record SystemInfo := {
  si_NodeID : string; si_NodeName : string; si_Version : string; si_GoVersion : string; si_Platform : string; si_Uptime : Duration; si_Clusters : list string;
  si_APIAddress : string
}.

(** The resource of an event is any value. *)
Record WatchEvent {Res : Type} := { we_Type : string; we_Resource : option Res; we_Timestamp : Time }.
Arguments WatchEvent : clear implicits.

(** ** Core ([core/api.go], [capsule.go], [cluster.go]) *)

Class NodeFacade (W : Type) := {
  nf_NodeID : string; nf_NodeName : string;
  CapsuleCreate : string -> CreateCapsuleRequest -> ST W (result ApiError CapsuleResource);
  CapsuleGet : string -> ST W (result ApiError (option CapsuleResource));
  CapsuleList : ListCapsulesRequest -> ST W (result ApiError ListCapsulesResponse);
  CapsuleDelete : string -> ST W (result ApiError unit);
  CapsuleUpdate : UpdateCapsuleRequest -> ST W (result ApiError CapsuleResource);
  ClusterJoin : JoinClusterRequest -> ST W (result ApiError unit);
  ClusterLeave : string -> ST W (result ApiError unit);
  ClusterList : ST W (result ApiError (list ClusterResource));
  NodeList : ListNodesRequest -> ST W (result ApiError ListNodesResponse);
  NodeGet : string -> string -> ST W (result ApiError NodeResource);
  IsReady : W -> bool
}.

Section Core.
Context {W : Type} `{N : NodeFacade W}.

Definition invalid {X} (msg : string) : ST W (result ApiError X) := fun w => (Err (WrapInvalidArgument msg), w).

Definition CreateCapsule (req : CreateCapsuleRequest) : ST W (result ApiError CapsuleResource) :=
  if cr_Cluster req =s "" then invalid "cluster is required"
  else if cr_Name req =s "" then invalid "name is required"
  else if cr_Image req =s "" then invalid "image is required"
  else if cr_Orbit req =s "" then invalid "orbit is required"
  else fun w => match CapsuleCreate (cr_Cluster req) req w with (Err e, w) => (Err (wrapped ErrInternal (ae_text e)), w) | (Ok r, w) => (Ok r, w) end.

Definition GetCapsule (req : GetCapsuleRequest) : ST W (result ApiError CapsuleResource) :=
  if gc_ID req =s "" then invalid "capsule ID is required"
  else fun w => match CapsuleGet (gc_ID req) w with
                | (Err e, w) => (Err e, w)
                | (Ok None, w) => (Err (WrapNotFound ("capsule " +:+ gc_ID req)), w)
                | (Ok (Some r), w) => (Ok r, w)
                end.

Definition ListCapsules (req : ListCapsulesRequest) : ST W (result ApiError ListCapsulesResponse) := CapsuleList req.
Definition DeleteCapsule (req : DeleteCapsuleRequest) : ST W (result ApiError unit) :=
  if dc_ID req =s "" then invalid "capsule ID is required" else CapsuleDelete (dc_ID req).
Definition UpdateCapsule (req : UpdateCapsuleRequest) : ST W (result ApiError CapsuleResource) :=
  if uc_ID req =s "" then invalid "capsule ID is required" else CapsuleUpdate req.

Definition core_JoinCluster (req : JoinClusterRequest) : ST W (result ApiError unit) :=
  if jc_Path req =s "" then invalid "cluster path is required" else if jc_PSK req =s "" then invalid "PSK is required" else ClusterJoin req.
Definition core_LeaveCluster (path : string) : ST W (result ApiError unit) := if path =s "" then invalid "cluster path is required" else ClusterLeave path.
Definition ListClusters : ST W (result ApiError (list ClusterResource)) := ClusterList.
Definition ListNodes (req : ListNodesRequest) : ST W (result ApiError ListNodesResponse) := if ln_Cluster req =s "" then invalid "cluster is required" else NodeList req.
Definition GetNode (cluster nodeID : string) : ST W (result ApiError NodeResource) := if nodeID =s "" then invalid "node ID is required" else NodeGet cluster nodeID.

Definition Healthz : option ApiError := None.
(** [present]: the core has a node. *)
Definition Readyz (present : bool) (w : W) : option ApiError :=
  if negb present then Some (wrapped ErrUnavailable "node not initialized") else if negb (IsReady w) then Some (wrapped ErrUnavailable "node not ready") else None.

Definition GetInfo (goVersion platform : string) (startedAt now : Time) : SystemInfo :=
  {| si_NodeID := nf_NodeID; si_NodeName := nf_NodeName; si_Version := "0.1.0-alpha"; si_GoVersion := goVersion; si_Platform := platform;
     si_Uptime := time_Sub now startedAt; si_Clusters := []; si_APIAddress := "" |}.

(** ** The gRPC services ([grpc/capsule_service.go], [cluster_service.go], [system_service.go]) *)

(** The messages of [v1alpha1pb]. *)
Record PbReplica := { pbr_ReplicaId : string; pbr_NodeId : string; pbr_Status : string; pbr_StartedAt : Time }.
Record PbCapsule := {
  pbc_Name : string; pbc_Id : string; pbc_Cluster : string; pbc_Labels : Labels; pbc_CreatedAt : Time; pbc_UpdatedAt : Time; pbc_Image : string;
  pbc_ImageDigest : string; pbc_Orbit : string; pbc_Tier : string; pbc_CpuCores : Z; pbc_MemoryMb : Z; pbc_DiskMb : Z; pbc_ReplicasMin : Z; pbc_ReplicasMax : Z;
  pbc_Env : Labels; pbc_Command : list string; pbc_NetworkMode : string; pbc_Status : string; pbc_Replicas : list PbReplica
}.

Definition capsuleToProto (c : CapsuleResource) : PbCapsule :=
  let m := cre_Meta c in let s := cre_Spec c in
  {| pbc_Name := om_Name m; pbc_Id := om_ID m; pbc_Cluster := om_Cluster m; pbc_Labels := om_Labels m; pbc_CreatedAt := om_CreatedAt m; pbc_UpdatedAt := om_UpdatedAt m;
     pbc_Image := sv_Image s; pbc_ImageDigest := sv_ImageDigest s; pbc_Orbit := sv_Orbit s; pbc_Tier := sv_Tier s; pbc_CpuCores := sv_CPUCores s;
     pbc_MemoryMb := sv_MemoryMB s; pbc_DiskMb := sv_DiskMB s; pbc_ReplicasMin := sv_ReplicasMin s; pbc_ReplicasMax := sv_ReplicasMax s; pbc_Env := sv_Env s;
     pbc_Command := sv_Command s; pbc_NetworkMode := sv_NetworkMode s; pbc_Status := cv_Status (cre_Status c);
     pbc_Replicas := (fun r => {| pbr_ReplicaId := rv_ReplicaID r; pbr_NodeId := rv_NodeID r; pbr_Status := rv_Status r; pbr_StartedAt := rv_StartedAt r |})
                     <$> cv_Replicas (cre_Status c) |}.

(** An answer of [Core], with its errors as statuses. *)
Definition answer {X Y} (conv : X -> Y) (f : ST W (result ApiError X)) : ST W (result Status Y) := fun w =>
  match f w with (Ok x, w) => (Ok (conv x), w) | (Err e, w) => (Err (ToGRPCError e), w) end.

(** The request messages carry the fields of the requests of [Core]. *)
Definition svc_Create (req : CreateCapsuleRequest) : ST W (result Status PbCapsule) := answer capsuleToProto (CreateCapsule req).
Definition svc_Get (req : GetCapsuleRequest) : ST W (result Status PbCapsule) := answer capsuleToProto (GetCapsule req).
Definition svc_List (cluster : string) (labels : Labels) (orbit : string) (pagination : option Pagination) : ST W (result Status (list PbCapsule * PagedResult)) :=
  answer (fun r => (capsuleToProto <$> lr_Capsules r, lr_Paging r))
    (ListCapsules {| lc_Cluster := cluster; lc_Labels := labels; lc_Orbit := orbit; lc_Pagination := default {| pg_PageSize := 0; pg_NextPageToken := "" |} pagination |}).
Definition svc_Update (req : UpdateCapsuleRequest) : ST W (result Status PbCapsule) := answer capsuleToProto (UpdateCapsule req).
Definition svc_Delete (req : DeleteCapsuleRequest) : ST W (result Status unit) := answer id (DeleteCapsule req).

Definition svc_Join (req : JoinClusterRequest) : ST W (result Status unit) := answer id (core_JoinCluster req).
Definition svc_Leave (path : string) : ST W (result Status unit) := answer id (core_LeaveCluster path).
Record PbCluster := { pbk_Path : string; pbk_JoinedAt : Time; pbk_Members : Z }.
Definition svc_Clusters : ST W (result Status (list PbCluster)) :=
  answer (fmap (fun c => {| pbk_Path := clr_Path c; pbk_JoinedAt := clr_JoinedAt c; pbk_Members := int32 (clr_Members c) |})) ListClusters.
Record PbNode := {
  pbn_Id : string; pbn_Name : string; pbn_Status : string; pbn_Addresses : list string; pbn_Datacenter : string; pbn_Region : string; pbn_CpuCores : Z;
  pbn_MemoryMb : Z
}.
Definition node_to_proto (n : NodeResource) : PbNode :=
  let s := nr_Status n in
  {| pbn_Id := om_ID (nr_Meta n); pbn_Name := om_Name (nr_Meta n); pbn_Status := nv_Status s; pbn_Addresses := nv_Addresses s; pbn_Datacenter := nv_Datacenter s;
     pbn_Region := nv_Region s; pbn_CpuCores := nv_CPUCores s; pbn_MemoryMb := nv_MemoryMB s |}.
Definition svc_Members (path : string) : ST W (result Status (list PbNode)) :=
  answer (fun r => node_to_proto <$> lnr_Nodes r) (ListNodes {| ln_Cluster := path; ln_Pagination := {| pg_PageSize := 0; pg_NextPageToken := "" |} |}).

Record PbSystemInfo := { pbs_NodeId : string; pbs_NodeName : string; pbs_Version : string; pbs_GoVersion : string; pbs_Platform : string; pbs_UptimeSeconds : Z; pbs_Clusters : list string }.
Definition svc_Info `{GoConv} (info : SystemInfo) : PbSystemInfo :=
  {| pbs_NodeId := si_NodeID info; pbs_NodeName := si_NodeName info; pbs_Version := si_Version info; pbs_GoVersion := si_GoVersion info; pbs_Platform := si_Platform info;
     pbs_UptimeSeconds := f64_to_int64 (Duration_Seconds (si_Uptime info)); pbs_Clusters := si_Clusters info |}.

(** ** Health over HTTP ([grpc/server.go]) *)

Definition quoted (s : string) : string := let q := String (Ascii.ascii_of_nat 34) "" in q +:+ s +:+ q.
Definition ok_body : string := "{" +:+ quoted "status" +:+ ":" +:+ quoted "ok" +:+ "}".
Definition newline : string := String (Ascii.ascii_of_nat 10) "".
Record Response := { rs_Status : Z; rs_Body : string }.
Definition handleHealthz : Response := match Healthz with Some e => {| rs_Status := 503; rs_Body := ae_text e +:+ newline |} | None => {| rs_Status := 200; rs_Body := ok_body |} end.
Definition handleReadyz (present : bool) (w : W) : Response :=
  match Readyz present w with Some e => {| rs_Status := 503; rs_Body := ae_text e +:+ newline |} | None => {| rs_Status := 200; rs_Body := ok_body |} end.

End Core.

(** ** Watching ([core/watch.go], [grpc/capsule_service.go], [http/sse.go]) *)

Definition watchBufferSize : nat := 512.

Section Watching.
Context {Res : Type}.
Abbreviation event := (WatchEvent Res).

(** The channel between the source and a client, and what the client has
    received from it. *)
Record Stream := { ws_buffer : list event; ws_received : list event }.
Definition new_stream : Stream := {| ws_buffer := []; ws_received := [] |}.

(** The client receives what is there, at most [n] events. *)
Definition client_reads (n : nat) (s : Stream) : Stream :=
  {| ws_buffer := drop n (ws_buffer s); ws_received := ws_received s ++ take n (ws_buffer s) |}.
(** A send with a [default] branch. *)
Definition try_send (e : event) (s : Stream) : bool * Stream :=
  if (length (ws_buffer s) <? watchBufferSize)%nat then (true, {| ws_buffer := ws_buffer s ++ [e]; ws_received := ws_received s |}) else (false, s).
(** A receive with a [default] branch: the oldest event is dropped. *)
Definition drop_oldest (s : Stream) : Stream := {| ws_buffer := drop 1 (ws_buffer s); ws_received := ws_received s |}.

Definition missed (now : Time) : event := {| we_Type := watchEventError; we_Resource := None; we_Timestamp := now |}.

(** The goroutine of [Watch] forwards an event; between its selects the client
    may read ([r1], [r2], [r3] events). *)
Definition forward (ev : event) (now : Time) (r1 r2 r3 : nat) (s : Stream) : Stream :=
  match try_send ev s with
  | (true, s) => s
  | (false, s) =>
      let s := drop_oldest (client_reads r1 s) in
      let '(_, s) := try_send (missed now) (client_reads r2 s) in
      let '(_, s) := try_send ev (client_reads r3 s) in s
  end.

Inductive WatchStep := WForward (ev : event) (now : Time) (r1 r2 r3 : nat) | WRead (n : nat).
Definition watch_step (s : Stream) (a : WatchStep) : Stream :=
  match a with WForward ev now r1 r2 r3 => forward ev now r1 r2 r3 s | WRead n => client_reads n s end.
Definition watch_run (steps : list WatchStep) : Stream := fold_left watch_step steps new_stream.
Definition sourced (steps : list WatchStep) : list event := omap (fun a => match a with WForward ev _ _ _ _ => Some ev | WRead _ => None end) steps.

(** The messages of the gRPC stream. *)
Inductive PbEventType := PB_ADDED | PB_MODIFIED | PB_DELETED | PB_ERROR.
Record PbWatchEvent := { pbw_Type : PbEventType; pbw_Timestamp : Time }.
Definition event_to_proto (e : event) : PbWatchEvent :=
  {| pbw_Type := if we_Type e =s watchEventAdded then PB_ADDED else if we_Type e =s watchEventModified then PB_MODIFIED
                 else if we_Type e =s watchEventDeleted then PB_DELETED else if we_Type e =s watchEventError then PB_ERROR else PB_ADDED;
     pbw_Timestamp := we_Timestamp e |}.
(** [svc_Watch]: events are sent until a send fails. *)
Fixpoint svc_Watch (sends : list bool) (evs : list event) : list PbWatchEvent :=
  match evs, sends with
  | e :: evs, ok :: sends => if ok then event_to_proto e :: svc_Watch sends evs else []
  | _, _ => []
  end.

(** JSON of an event, and [time.RFC3339]. *)
Class ApiText := { json_event : string -> option Res -> string -> option string; rfc3339 : Time -> string }.
Context `{ApiText}.

Definition sse_event (e : event) : option string :=
  match json_event (we_Type e) (we_Resource e) (rfc3339 (we_Timestamp e)) with
  | None => None
  | Some data => Some ("event: " +:+ we_Type e +:+ newline +:+ "data: " +:+ data +:+ newline +:+ newline)
  end.
(** [handleWatch]: the resource that is watched, and the body. *)
Definition handleWatch (flusher : bool) (resource : string) (watch : string -> result ApiError (list event)) : Response :=
  if negb flusher then {| rs_Status := 500; rs_Body := "streaming not supported" +:+ newline |} else
  match watch (if resource =s "" then "capsule" else resource) with
  | Err e => {| rs_Status := 200; rs_Body := "event: error" +:+ newline +:+ "data: " +:+ ae_text e +:+ newline +:+ newline |}
  | Ok evs => {| rs_Status := 200; rs_Body := String.concat "" (omap sse_event evs) |}
  end.

(** ** Theorems about watching *)

(** Everything that has reached the client or is on its way. *)
Definition seen (s : Stream) : list event := ws_received s ++ ws_buffer s.

Lemma seen_reads n s : seen (client_reads n s) = seen s.
Proof. unfold seen, client_reads. cbn. by rewrite <- app_assoc, take_drop. Qed.
Lemma buffer_reads n s : (length (ws_buffer (client_reads n s)) <= length (ws_buffer s))%nat.
Proof. cbn. rewrite length_drop. lia. Qed.
Lemma try_send_spec e s : (length (ws_buffer s) <= watchBufferSize)%nat -> (length (ws_buffer (try_send e s).2) <= watchBufferSize)%nat /\
  seen (try_send e s).2 = seen s ++ (if (try_send e s).1 then [e] else []) /\ ((length (ws_buffer s) < watchBufferSize)%nat -> (try_send e s).1 = true).
Proof.
  intros Hb. unfold try_send. destruct (Nat.ltb_spec (length (ws_buffer s)) watchBufferSize) as [Hl|Hl]; cbn [fst snd ws_buffer].
  - split_and!; [rewrite length_app; cbn; lia|unfold seen; cbn; by rewrite app_assoc|done].
  - split_and!; [done|by rewrite app_nil_r|lia].
Qed.

(** Without the oldest of the events that wait after [r] were read. *)
Definition without_oldest (r : nat) (s : Stream) : list event := ws_received s ++ take r (ws_buffer s) ++ drop (S r) (ws_buffer s).

(** An event that meets a full buffer: the oldest one that waits makes place
    for an error, and the event itself passes if the client reads meanwhile. *)
Lemma forward_overflow ev now r1 r2 r3 s : length (ws_buffer s) = watchBufferSize -> let s' := forward ev now r1 r2 r3 s in
  (length (ws_buffer s') <= watchBufferSize)%nat /\
  seen s' = without_oldest r1 s ++ missed now :: (if (r1 + r2 + r3 =? 0)%nat then [] else [ev]).
Proof.
  intros Hb. cbv zeta. set (s2 := client_reads r2 (drop_oldest (client_reads r1 s))).
  assert (Ef : forward ev now r1 r2 r3 s = (try_send ev (client_reads r3 (try_send (missed now) s2).2)).2).
  { unfold forward. unfold try_send at 1. rewrite Hb, Nat.ltb_irrefl. fold s2. destruct (try_send (missed now) s2) as [b s3]. by destruct (try_send ev _). }
  rewrite Ef. clear Ef.
  assert (H2 : length (ws_buffer s2) = (watchBufferSize - r1 - 1 - r2)%nat) by (unfold s2; cbn [ws_buffer drop_oldest client_reads]; rewrite !length_drop, Hb; lia).
  assert (E2 : seen s2 = without_oldest r1 s).
  { unfold s2. rewrite seen_reads. unfold seen, drop_oldest, client_reads, without_oldest. cbn [ws_buffer ws_received]. rewrite drop_drop, <- app_assoc. by replace (r1 + 1)%nat with (S r1) by lia. }
  clearbody s2. destruct (try_send_spec (missed now) s2) as (_ & S2 & _); [unfold watchBufferSize in *; lia|]. unfold try_send in *.
  destruct (Nat.ltb_spec (length (ws_buffer s2)) watchBufferSize) as [_|Hl]; [cbn [fst snd] in *|unfold watchBufferSize in *; lia].
  set (s3 := {| ws_buffer := ws_buffer s2 ++ [missed now] |}) in *. assert (H3 : length (ws_buffer (client_reads r3 s3)) = (S (watchBufferSize - r1 - 1 - r2) - r3)%nat).
  { cbn [ws_buffer client_reads]. rewrite length_drop. unfold s3. cbn [ws_buffer]. rewrite length_app, H2. cbn [length]. lia. }
  destruct (Nat.ltb_spec (length (ws_buffer (client_reads r3 s3))) watchBufferSize) as [Hl|Hl]; rewrite H3 in Hl; unfold watchBufferSize in *; cbn [snd ws_buffer].
  - split; [rewrite length_app, H3; cbn [length]; lia|]. destruct (Nat.eqb_spec (r1 + r2 + r3) 0); [lia|]. unfold seen at 1. cbn [ws_buffer ws_received].
    rewrite app_assoc. fold (seen (client_reads r3 s3)). rewrite seen_reads, S2, E2, <- app_assoc. done.
  - split; [rewrite H3; lia|]. destruct (Nat.eqb_spec (r1 + r2 + r3) 0); [|lia]. by rewrite seen_reads, S2, E2.
Qed.

(** No event met a full buffer. *)
Definition keeps_up (s : Stream) (steps : list WatchStep) : Prop := forall before ev now r1 r2 r3 after, steps = before ++ WForward ev now r1 r2 r3 :: after ->
  (length (ws_buffer (fold_left watch_step before s)) < watchBufferSize)%nat.

Lemma keeps_up_snoc s steps a : keeps_up s steps ->
  (forall ev now r1 r2 r3, a = WForward ev now r1 r2 r3 -> (length (ws_buffer (fold_left watch_step steps s)) < watchBufferSize)%nat) -> keeps_up s (steps ++ [a]).
Proof.
  intros Hk Ha before ev now r1 r2 r3 after E. destruct after as [|b after _] using rev_ind.
  - apply app_inj_tail in E as [<- ->]. by eapply Ha.
  - rewrite app_comm_cons, app_assoc in E. apply app_inj_tail in E as [-> _]. by eapply Hk.
Qed.

(** C35: a client learns that it missed events, and misses no others.
    Whatever is forwarded and whenever the client reads, at most 512 events
    wait.  As long as no event meets a full buffer, what the client has
    received, with what waits for it, is exactly what the source sent.
    Otherwise, from the last event that met a full buffer on: what had been
    received or waited then, less the oldest one that waited, is followed by
    an error event, by that event if the client read one in the meantime, and
    by all events the source sent since, in order and without a gap. *)
Theorem api_watch_gap_marked steps : let s := watch_run steps in
  (length (ws_buffer s) <= watchBufferSize)%nat /\
  (keeps_up new_stream steps /\ seen s = sourced steps \/
   exists before ev now r1 r2 r3 after, steps = before ++ WForward ev now r1 r2 r3 :: after /\ length (ws_buffer (watch_run before)) = watchBufferSize /\
     keeps_up (watch_run (before ++ [WForward ev now r1 r2 r3])) after /\
     seen s = without_oldest r1 (watch_run before) ++ missed now :: (if (r1 + r2 + r3 =? 0)%nat then [] else [ev]) ++ sourced after).
Proof.
  cbv zeta. induction steps as [|a steps IH] using rev_ind; [split; [cbn; lia|left; split; [|done]; by intros [] * E]|].
  assert (Ew : watch_run (steps ++ [a]) = watch_step (watch_run steps) a) by (unfold watch_run; by rewrite fold_left_app). rewrite Ew. destruct IH as [Hb Hs].
  assert (Hquiet : (length (ws_buffer (watch_step (watch_run steps) a)) <= watchBufferSize)%nat -> seen (watch_step (watch_run steps) a) = seen (watch_run steps) ++ sourced [a] ->
    (forall ev now r1 r2 r3, a = WForward ev now r1 r2 r3 -> (length (ws_buffer (watch_run steps)) < watchBufferSize)%nat) ->
    (length (ws_buffer (watch_step (watch_run steps) a)) <= watchBufferSize)%nat /\
    (keeps_up new_stream (steps ++ [a]) /\ seen (watch_step (watch_run steps) a) = sourced (steps ++ [a]) \/
     exists before ev now r1 r2 r3 after, steps ++ [a] = before ++ WForward ev now r1 r2 r3 :: after /\ length (ws_buffer (watch_run before)) = watchBufferSize /\
       keeps_up (watch_run (before ++ [WForward ev now r1 r2 r3])) after /\
       seen (watch_step (watch_run steps) a) = without_oldest r1 (watch_run before) ++ missed now :: (if (r1 + r2 + r3 =? 0)%nat then [] else [ev]) ++ sourced after)).
  { intros Hb' Hsn Hlt. split; [exact Hb'|]. assert (So : forall l, sourced (l ++ [a]) = sourced l ++ sourced [a]) by (intros l; apply omap_app).
    destruct Hs as [[Hk E]|(before & ev & now & r1 & r2 & r3 & after & Est & Hfull & Hk & E)]; [left|right].
    - split; [by apply keeps_up_snoc|]. by rewrite Hsn, E, So.
    - exists before, ev, now, r1, r2, r3, (after ++ [a]). split; [by rewrite Est, <- app_assoc|]. split; [done|]. split.
      + apply keeps_up_snoc; [done|]. assert (Er : fold_left watch_step after (watch_run (before ++ [WForward ev now r1 r2 r3])) = watch_run steps).
        { unfold watch_run. rewrite <- fold_left_app, <- app_assoc. by rewrite Est. }
        by rewrite Er.
      + rewrite Hsn, E, So, <- app_assoc. cbn [app]. by rewrite <- app_assoc. }
  destruct a as [ev now r1 r2 r3|n]; cbn [watch_step] in *.
  - destruct (decide (length (ws_buffer (watch_run steps)) = watchBufferSize)) as [Hf|Hf].
    + destruct (forward_overflow ev now r1 r2 r3 (watch_run steps) Hf) as [B E]. split; [exact B|right]. exists steps, ev, now, r1, r2, r3, []. split_and!; [done|done|by intros [] * E'|].
      cbn [sourced omap list_omap]. by rewrite app_nil_r.
    + assert (Hl : (length (ws_buffer (watch_run steps)) < watchBufferSize)%nat) by lia. destruct (try_send_spec ev (watch_run steps) Hb) as (B & S & T). specialize (T Hl).
      assert (Ef : forward ev now r1 r2 r3 (watch_run steps) = (try_send ev (watch_run steps)).2) by (unfold forward; destruct (try_send ev (watch_run steps)) as [[] s]; done).
      rewrite Ef in *. rewrite T in S. by apply Hquiet.
  - apply Hquiet; [pose proof (buffer_reads n (watch_run steps)); lia|rewrite seen_reads; by rewrite app_nil_r|done].
Qed.

(** A client that does not read. *)
Lemma forward_full ev now s : length (ws_buffer s) = watchBufferSize -> forward ev now 0 0 0 s = {| ws_buffer := drop 1 (ws_buffer s) ++ [missed now]; ws_received := ws_received s |}.
Proof.
  intros Hb. unfold forward, try_send. rewrite Hb, Nat.ltb_irrefl. unfold drop_oldest, client_reads. cbn [ws_buffer ws_received]. rewrite !drop_0, !take_0, !app_nil_r.
  rewrite length_drop, Hb. cbn [Nat.ltb Nat.leb watchBufferSize Nat.sub]. cbn [ws_buffer ws_received]. rewrite drop_0, take_0, app_nil_r, length_app, length_drop, Hb. done.
Qed.

(** A slow client loses the newest events too.  Once its buffer is full,
    every event that comes while the client does not read is lost, together
    with the oldest one that waits; after as many events as the buffer holds,
    only errors wait. *)
Theorem api_watch_slow_client evs now s (Hb : length (ws_buffer s) = watchBufferSize) (Hn : (watchBufferSize <= length evs)%nat) :
  ws_buffer (fold_left (fun s ev => forward ev now 0 0 0 s) evs s) = replicate watchBufferSize (missed now).
Proof.
  assert (Hgen : forall evs s, length (ws_buffer s) = watchBufferSize ->
    ws_buffer (fold_left (fun s ev => forward ev now 0 0 0 s) evs s) = drop (length evs) (ws_buffer s ++ replicate (length evs) (missed now))).
  { clear. induction evs as [|ev evs IH]; intros s Hb; cbn [fold_left length]; [by rewrite app_nil_r|]. rewrite IH; rewrite forward_full by done; cbn [ws_buffer].
    - rewrite <- app_assoc. destruct (ws_buffer s) as [|e b] eqn:Eb; [discriminate Hb|]. cbn [drop app replicate]. rewrite drop_0. done.
    - rewrite length_app, length_drop, Hb. done. }
  rewrite Hgen by done. rewrite drop_app_ge by lia. rewrite Hb, drop_replicate. f_equal. lia.
Qed.

End Watching.

(** ** Routing ([grpc/server.go]) and client certificates ([auth/mtls.go]) *)

Inductive Route := RGRPC | RHealthz | RReadyz | RWatch | RNone.
Definition mux (path : string) : Route := if path =s "/healthz" then RHealthz else if path =s "/readyz" then RReadyz else if path =s "/v1alpha1/watch" then RWatch else RNone.
Definition route (protoMajor : Z) (contentType path : string) : Route := if (protoMajor =? 2) && (contentType =s "application/grpc") then RGRPC else mux path.

Record MTLSConfig := { ml_CACertPath : string; ml_ServerCertPath : string; ml_ServerKeyPath : string; ml_Insecure : bool }.
Inductive TLSError := ELoadServerCert | ELoadCACert | EParseCACert.

Section TLS.
(** Key pairs and pools of certificates of [crypto/tls] and [crypto/x509]. *)
Context {KeyPair CertPool : Type} (LoadX509KeyPair : string -> string -> option KeyPair) (ReadPEM : string -> option string) (AppendCertsFromPEM : string -> option CertPool).

(** The client must present a certificate that verifies, over TLS 1.3. *)
Record TLSConfig := { tl_cert : KeyPair; tl_ClientCAs : CertPool; tl_RequireAndVerifyClientCert : bool; tl_MinVersion13 : bool }.

Definition NewTLSConfig (cfg : MTLSConfig) : result TLSError (option TLSConfig) :=
  if ml_Insecure cfg then Ok None else
  match LoadX509KeyPair (ml_ServerCertPath cfg) (ml_ServerKeyPath cfg) with
  | None => Err ELoadServerCert
  | Some cert =>
      match ReadPEM (ml_CACertPath cfg) with
      | None => Err ELoadCACert
      | Some pem =>
          match AppendCertsFromPEM pem with
          | None => Err EParseCACert
          | Some pool => Ok (Some {| tl_cert := cert; tl_ClientCAs := pool; tl_RequireAndVerifyClientCert := true; tl_MinVersion13 := true |})
          end
      end
  end.
(** [GRPCServerOptions]: the credentials option, if any. *)
Definition GRPCServerOptions (cfg : MTLSConfig) : result TLSError (list TLSConfig) :=
  match NewTLSConfig cfg with Err e => Err e | Ok None => Ok [] | Ok (Some t) => Ok [t] end.
End TLS.

(** What the context of a call says of its peer: nothing, a peer without TLS,
    or the number of verified chains. *)
Inductive PeerInfo := PNone | PPlain | PTLS (verifiedChains : nat).
Definition unauthenticated (msg : string) : Status := {| st_code := Unauthenticated; st_message := msg |}.
Definition verifyPeer (p : PeerInfo) : option Status :=
  match p with
  | PNone => Some (unauthenticated "no peer info in context")
  | PPlain => Some (unauthenticated "no TLS info — client certificate required")
  | PTLS n => if (n =? 0)%nat then Some (unauthenticated "client certificate not verified") else None
  end.
(** The interceptors and the middleware, which no server of the repository
    installs. *)
Definition UnaryInterceptor {W X} (insecure : bool) (p : PeerInfo) (handler : ST W (result Status X)) : ST W (result Status X) :=
  if insecure then handler else fun w => match verifyPeer p with Some e => (Err e, w) | None => handler w end.
Definition StreamInterceptor {W} (insecure : bool) (p : PeerInfo) (handler : ST W (option Status)) : ST W (option Status) :=
  if insecure then handler else fun w => match verifyPeer p with Some e => (Some e, w) | None => handler w end.
(** [peerCertificates]: none without TLS. *)
Definition HTTPMiddleware {W} (insecure : bool) (peerCertificates : option nat) (next : ST W Response) : ST W Response :=
  if insecure then next else fun w =>
  match peerCertificates with
  | None | Some O => ({| rs_Status := 401; rs_Body := "{" +:+ quoted "error" +:+ ":" +:+ quoted "client certificate required" +:+ "}" +:+ newline |}, w)
  | Some _ => next w
  end.

(** ** Theorems about requests *)

Section Requests.
Context {W : Type} `{N : NodeFacade W}.

(** The first required field that a request leaves empty. *)
Definition first_empty (req : CreateCapsuleRequest) : option string :=
  snd <$> (snd <$> list_find (fun f => f.1 = "") [(cr_Cluster req, "cluster"); (cr_Name req, "name"); (cr_Image req, "image"); (cr_Orbit req, "orbit")]).

(** Creating a capsule over gRPC, as the service does it for any caller.
    A call that leaves a required field empty does not reach the node, and is
    answered with the code for invalid arguments and the name of the first
    such field; any other call does exactly what the node does, with the
    capsule that the node made, and a failure of the node is always reported
    as internal, also when the node says that the capsule exists already or
    is invalid. *)
Theorem api_create_exact req w :
  let '(r, w') := svc_Create req w in
  match first_empty req with
  | Some field => w' = w /\ r = Err {| st_code := InvalidArgument; st_message := "invalid argument: " +:+ field +:+ " is required" |}
  | None => let '(r0, w0) := CapsuleCreate (cr_Cluster req) req w in w' = w0 /\
      r = match r0 with Ok c => Ok (capsuleToProto c) | Err e => Err {| st_code := Internal; st_message := "internal error: " +:+ ae_text e |} end
  end.
Proof.
  unfold svc_Create, answer, CreateCapsule, invalid, first_empty. cbn [list_find].
  repeat match goal with |- context [?x =s ""] => destruct (String.eqb_spec x ""); [rewrite decide_True by done; done|rewrite decide_False by done; cbn [list_find]] end.
  cbn. by destruct (CapsuleCreate (cr_Cluster req) req w) as [[c|e] w'].
Qed.

(** A capsule that the node does not know is not found, and the errors
    of the node that wrap a sentinel keep its code, in the order of the
    switch. *)
Theorem api_get_codes req w (Hid : gc_ID req <> "") :
  match CapsuleGet (gc_ID req) w with
  | (Ok (Some c), w') => svc_Get req w = (Ok (capsuleToProto c), w')
  | (Ok None, w') => svc_Get req w = (Err {| st_code := NotFound; st_message := "resource not found: capsule " +:+ gc_ID req |}, w')
  | (Err e, w') => exists st, svc_Get req w = (Err st, w') /\ st_message st = ae_text e /\
      (st_code st = Internal <-> forall s, s ∈ ae_wraps e -> s = ErrInternal) /\ (forall s, ae_wraps e = [s] -> st = ToGRPCError {| ae_wraps := [s]; ae_text := ae_text e |})
  end.
Proof.
  unfold svc_Get, answer, GetCapsule. rewrite (proj2 (String.eqb_neq _ _) Hid). destruct (CapsuleGet (gc_ID req) w) as [[[c|]|e] w']; [done|done|]. eexists. split; [done|]. split; [done|].
  split; [|intros s Hs; unfold ToGRPCError, errors_Is; by rewrite Hs]. cbn [ToGRPCError st_code]. unfold errors_Is. split.
  - repeat case_bool_decide; try done. intros _ s Hs. by destruct s.
  - intros Hall. repeat case_bool_decide; try done; match goal with H : ?s ∈ ae_wraps e |- _ => discriminate (Hall s H) end.
Qed.

End Requests.
