(* ===== verification/Keys.v ===== *)
(** * Signers, verifiers and the keys of clusters

    The signature checks of capsule announcements and election messages over
    the phonebook ([node/capsule_signer.go], [node/election_handler.go]), and
    the key pairs a node keeps per cluster ([node/auth/nodekeys/keys.go]).
    Public keys are those of [AuthCrypto]; PEM is the interface [Pem]; files
    and private keys are those of [Machine]. *)

From S2P Require Import Prelude ElectionTopic Phonebook FilePath Auth Node.
Local Open Scope string_scope.
Local Open Scope list_scope.
Local Open Scope Z_scope.

(** ** Verifiers *)

Section Verifiers.
Context `{I : IPhonebook} `{K : AuthCrypto}.

(** [capsuleVerifier.Verify]: the key of the sender in the verifier's cluster. *)
Definition capsule_Verify (clusterPath senderID : string) (content signature : bytes) : ST PB bool := fun p =>
  match signature with
  | [] => (false, p)
  | _ =>
      match pb_Get senderID clusterPath p with
      | (Ok (Some entry), p) => (key_parses (e_PublicKey entry) && key_Verify (e_PublicKey entry) content signature, p)
      | (_, p) => (false, p)
      end
  end.

(** [electionVerifier.Verify]: any key of the sender. *)
Fixpoint any_key (entries : list Entry) (content signature : bytes) : bool :=
  match entries with
  | [] => false
  | entry :: entries => if key_parses (e_PublicKey entry) && key_Verify (e_PublicKey entry) content signature then true else any_key entries content signature
  end.
Definition election_Verify (senderID : string) (content signature : bytes) : ST PB bool := fun p =>
  match signature with
  | [] => (false, p)
  | _ => match pb_GetByNode senderID p with (Ok entries, p) => (any_key entries content signature, p) | (Err _, p) => (false, p) end
  end.

Definition signed_by (e : Entry) (content signature : bytes) : Prop := key_parses (e_PublicKey e) = true /\ key_Verify (e_PublicKey e) content signature = true.

(** An announcement is accepted exactly when it is signed, and the
    signature verifies with the key that the phonebook has for the sender in
    that cluster; checking changes nothing in the phonebook. *)
Theorem capsule_verify_exact `{L : !IPhonebookLaws I} c sender content signature p (Hs : sound p) :
  exists p', capsule_Verify c sender content signature p = (bool_decide (signature <> []) && match members p !! (sender, c) with
    | Some e => key_parses (e_PublicKey e) && key_Verify (e_PublicKey e) content signature | None => false end, p') /\ sound p' /\ members p' = members p.
Proof.
  unfold capsule_Verify. destruct signature as [|b signature]; [by exists p|]. destruct (Get_law sender c p Hs) as (p' & -> & Hs' & Hm). exists p'. split; [|done].
  rewrite bool_decide_eq_true_2 by done. cbn [andb]. by destruct (members p !! (sender, c)).
Qed.

(** An election message is accepted when any entry of the sender verifies it,
    of whatever cluster: membership in the cluster of the message is not
    asked for. *)
Theorem election_verify_any_cluster sender content signature p p' entries (Hg : pb_GetByNode sender p = (Ok entries, p')) (Hsig : signature <> []) :
  election_Verify sender content signature p = (true, p') <-> exists e, e ∈ entries /\ signed_by e content signature.
Proof.
  unfold election_Verify, signed_by. destruct signature as [|b signature]; [done|]. rewrite Hg. clear Hg. assert (H : any_key entries content (b :: signature) = true <->
    exists e, e ∈ entries /\ key_parses (e_PublicKey e) = true /\ key_Verify (e_PublicKey e) content (b :: signature) = true).
  { induction entries as [|e entries IH]; cbn [any_key]; [split; [done|intros (e & He & _); by apply elem_of_nil in He]|].
    destruct (key_parses (e_PublicKey e) && key_Verify (e_PublicKey e) content (b :: signature)) eqn:E; [apply andb_true_iff in E; split; [intros _; exists e; by split; [left|]|done]|].
    rewrite IH. split; intros (x & Hx & Hk); exists x; (split; [|done]); [by right|]. apply elem_of_cons in Hx as [->|]; [|done]. destruct Hk as [H1 H2]. by rewrite H1, H2 in E. }
  rewrite <- H. split; [by intros [= ->]|by intros ->].
Qed.

End Verifiers.

(** ** Keys of clusters *)

Module nodekeys.

Definition KeyFileName : string := "node.key".
Definition CertFileName : string := "certificate.pem".
Definition CACertFileName : string := "ca.pem".
Definition ClustersDir : string := "clusters".

(** [encoding/pem] *)
Class Pem := { pem_Encode : string -> bytes -> bytes; pem_Decode : bytes -> option (string * bytes) }.
Class PemLaws (P : Pem) := { pem_roundtrip : forall t b, pem_Decode (pem_Encode t b) = Some (t, b) }.

(** [strings.ReplaceAll(clusterPath, "/", "-")] *)
Fixpoint clusterDirName (s : string) : string :=
  match s with EmptyString => "" | String c s => String (if Ascii.eqb c "/" then "-" else c)%char (clusterDirName s) end.

Section Manager.
Context {W : Type} `{M : Machine W} `{P : Pem}.
(** [os.Stat] succeeds. *)
Variable os_Stat : string -> W -> bool.
Variable dataDir : string.

Record NodeKeyPair := { kp_PrivateKey : PrivKey; kp_ClusterPath : string }.

Definition ClusterDir (clusterPath : string) : string := pl_Join platform [dataDir; ClustersDir; clusterDirName clusterPath].
Definition KeyPath (clusterPath : string) : string := pl_Join platform [ClusterDir clusterPath; KeyFileName].
Definition CertPath (clusterPath : string) : string := pl_Join platform [ClusterDir clusterPath; CertFileName].
Definition CACertPath (clusterPath : string) : string := pl_Join platform [ClusterDir clusterPath; CACertFileName].

Inductive NodeKeyError := NKRead | NKDecode | NKType (t : string) | NKUnmarshal | NKGenerate | NKMkdir | NKMarshal | NKWrite.

Definition Load (clusterPath : string) : ST W (result NodeKeyError NodeKeyPair) := fun w =>
  match os_ReadFile (KeyPath clusterPath) w with
  | (Err _, w) => (Err NKRead, w)
  | (Ok data, w) =>
      match pem_Decode data with
      | None => (Err NKDecode, w)
      | Some (t, bytes) =>
          if negb (t =s "PRIVATE KEY") then (Err (NKType t), w) else
          match UnmarshalPrivateKey bytes with None => (Err NKUnmarshal, w) | Some k => (Ok {| kp_PrivateKey := k; kp_ClusterPath := clusterPath |}, w) end
      end
  end.

Definition Save (keyPair : NodeKeyPair) : ST W (result NodeKeyError unit) := fun w =>
  let '(ok, w) := os_MkdirAll (ClusterDir (kp_ClusterPath keyPair)) w in
  if negb ok then (Err NKMkdir, w) else
  match MarshalPrivateKey (kp_PrivateKey keyPair) with
  | None => (Err NKMarshal, w)
  | Some keyBytes =>
      let '(ok, w) := os_WriteFile (KeyPath (kp_ClusterPath keyPair)) (pem_Encode "PRIVATE KEY" keyBytes) w in
      if negb ok then (Err NKWrite, w) else (Ok tt, w)
  end.

Definition Generate (clusterPath : string) : ST W (result NodeKeyError NodeKeyPair) := fun w =>
  match GenerateKeyPair w with
  | (None, w) => (Err NKGenerate, w)
  | (Some k, w) =>
      let keyPair := {| kp_PrivateKey := k; kp_ClusterPath := clusterPath |} in
      match Save keyPair w with (Err e, w) => (Err e, w) | (Ok _, w) => (Ok keyPair, w) end
  end.

Definition LoadOrCreate (clusterPath : string) : ST W (result NodeKeyError NodeKeyPair) := fun w =>
  if os_Stat (KeyPath clusterPath) w then Load clusterPath w else Generate clusterPath w.
Definition Exists (clusterPath : string) (w : W) : bool := os_Stat (KeyPath clusterPath) w.
Definition CertExists (clusterPath : string) (w : W) : bool := os_Stat (CertPath clusterPath) w.

(** Cluster paths whose names have no dash have their own directories. *)
Fixpoint dashless (s : string) : bool := match s with EmptyString => true | String c s => negb (Ascii.eqb c "-") && dashless s end.
Lemma clusterDirName_inj a b : dashless a = true -> dashless b = true -> clusterDirName a = clusterDirName b -> a = b.
Proof using.
  revert b. induction a as [|c a IH]; intros [|d b]; cbn; try done. rewrite !andb_true_iff, !negb_true_iff. intros [Hc Ha] [Hd Hb] E. injection E as E1 E2.
  rewrite (IH b Ha Hb E2). f_equal. destruct (Ascii.eqb_spec c "/") as [->|], (Ascii.eqb_spec d "/") as [->|]; try done; subst; done.
Qed.

(** The key pair of a cluster.  What [Generate] saves is what [Load]
    and, once the file is there, [LoadOrCreate] return, also for another
    cluster whose path has the same flat name: "a/b-c" and "a-b/c" share one
    directory and with it the key.  Paths without a dash do not. *)
Theorem nodekeys_roundtrip `{L : !KeyLaws M} `{LP : !PemLaws P} a b w kp w' (Hg : Generate a w = (Ok kp, w')) (Hd : clusterDirName b = clusterDirName a)
    (Hst : os_Stat (KeyPath a) w' = true) :
  (exists w'', Load b w' = (Ok {| kp_PrivateKey := kp_PrivateKey kp; kp_ClusterPath := b |}, w'')) /\
  (exists w'', LoadOrCreate b w' = (Ok {| kp_PrivateKey := kp_PrivateKey kp; kp_ClusterPath := b |}, w'')) /\ (dashless a = true -> dashless b = true -> a = b).
Proof.
  assert (Hk : KeyPath b = KeyPath a) by (unfold KeyPath, ClusterDir; by rewrite Hd).
  assert (Hl : exists w'', Load b w' = (Ok {| kp_PrivateKey := kp_PrivateKey kp; kp_ClusterPath := b |}, w'')).
  { unfold Generate in Hg. destruct (GenerateKeyPair w) as [[k|] w1]; [|done]. unfold Save in Hg. cbn [kp_PrivateKey kp_ClusterPath] in Hg.
    destruct (os_MkdirAll _ w1) as [[] w2]; [|done]. cbn [negb] in Hg. destruct (MarshalPrivateKey k) as [kb|] eqn:Em; [|done]. destruct (os_WriteFile _ _ w2) as [[] w3] eqn:Ew; [|done].
    injection Hg as <- <-. apply read_written in Ew as [w4 Er]. exists w4. unfold Load. rewrite Hk, Er, pem_roundtrip. cbn [String.eqb negb kp_PrivateKey]. by rewrite (unmarshal_marshal _ _ Em). }
  split; [done|]. split; [unfold LoadOrCreate; rewrite Hk, Hst; exact Hl|]. intros Ha Hb. apply clusterDirName_inj; [done..|]. by rewrite Hd.
Qed.

End Manager.

End nodekeys.
